(* ===== verification/_CoqProject ===== *)
-Q . S2P
Prelude.v
Ring.v
RtList.v
Fifo.v
RingBuffer.v
RingBlk.v
Kernel.v
Sched.v
Object.v
Thread.v
ThreadInv.v
ThreadSpec.v
TimerSpec.v
ThreadEnd.v
Demo.v
Device.v
DeviceSpec.v
KernelTheorems.v
Ipc.v
Msg.v
IpcInv.v
SemTheorems.v
MutexTheorems.v
EventTheorems.v
AutoBoot.v
AutoBootSpec.v
MailboxTheorems.v
QueueTheorems.v
Alloc.v
Memheap.v
MemheapSafe.v
MemheapSpec.v
Mempool.v
MempoolTheorems.v
Mem.v
Crc32.v
Reloc.v
Kservice.v
Format.v
Env.v
Vfs.v
FileSystem.v
Ramfs.v
RamfsSafe.v
RamfsSpec.v
Romfs.v
DfsPath.v
RomfsSpec.v
Dfs.v
DfsSpec.v
Nor.v
Sfud.v
SfudSpec.v
NorSim.v
SfudTheorems.v
Flash.v
FlashSpec.v
Mount.v
MountSpec.v
LzmaDecode.v
LzmaSafe.v
LzmaEnc.v
LzmaRange.v
LzmaRoundtrip.v
LzmaTheorems.v
LzmaWrapper.v
Image.v
Loader.v
BootParams.v
ParamsTheorems.v
BootTheorems.v
