(* ===== verification/Prelude.v ===== *)
(** * rt-boot: a verification development

    rt-boot is a boot loader for MIPS routers built on the RT-Thread kernel.
    This library models the parts of it that carry its own logic and proves what
    they promise.  Paths are under src/rt-boot/ unless they start with src/.

    ** The program and the files

    The kernel (common/kernel).  A uniprocessor, priority-driven kernel; one
    global state, the record [Kernel.kernel], which every kernel operation reads
    and updates in the monad [Kernel.M] (a state transformer that is [None] where
    the C code would follow a pointer to nothing).
    - Prelude: machine integers, alignment, bit lemmas, tactics.
    - RtList: include/kernel/rtservice.h, the circular and the single linked
      lists as pointer operations on a memory of nodes.
    - Kernel: the structs and constants of rtdef.h and rtconfig.h, the kernel
      state, the monad, list operations on sequences (RtList justifies them).
    - Sched: scheduler.c; its invariant [kinv] over ready queues, bitmap, states.
    - Object: object.c.  Thread: thread.c, timer.c, clock.c, idle.c.
    - ThreadInv, ThreadSpec, TimerSpec, ThreadEnd: the invariant [kok] and what
      each thread and timer operation does; KernelTheorems: the statements.
    - Ipc, Msg: ipc.c (semaphores, mutexes, events; mailboxes, message queues).
      IpcInv: waiting on a list and waking from it; SemTheorems, MutexTheorems,
      EventTheorems, MailboxTheorems, QueueTheorems: one kind of object each.
    - Mempool, MempoolTheorems: mempool.c.
    - Alloc: what an allocator of a region promises, as a class.  Memheap: memheap.c,
      the heap whose headers are blocks of the memory it hands out; MemheapSafe
      its invariant, MemheapSpec that it is an instance of the class.
    - Demo: a concrete kernel, the state the statements are evaluated on.
    - Device: device.c over the operations of any driver.  DeviceSpec: the protocol
      in which a driver is called.

    Memory and text.
    - Mem: mem.c, the heap, as one array of blocks with headers; entry points
      are single steps because the code holds [heap_sem] throughout.
    - Kservice: the memory and string routines of kservice.c and
      common/fix/fix_rtt.c.  Format: rt_vsnprintf and rt_atoi.
    - Fifo, RingBuffer: drivers/ipc/ringbuffer.c behind a queue interface.
    - Ring: arithmetic of positions in a circle; RingBlk: drivers/ipc/ringblk_buf.c.

    Files (common/dfs).
    - Vfs: the tables of operations (dfs_fs.h, dfs_file.h), the interface of a
      file system; an operation that is absent is a null pointer.  FileSystem: what
      a file system promises, as a class over an abstract map of files, and that a
      file system keeps its promises as a part of a larger state.
    - Ramfs: filesystems/ramfs/dfs_ramfs.c as an instance, its memory a parameter
      with the calls of [Alloc]; RamfsSafe its invariant, RamfsSpec the map from
      names to contents it implements.
    - Romfs: filesystems/romfs/dfs_romfs.c, files in mapped memory, and the tree of
      romfs.c; RomfsSpec: its lookup, and that it is an instance of the class.
    - DfsPath: dfs_normalize_path, in place in a buffer of bytes.
    - Dfs: dfs.c, dfs_fs.c (the table of mounts), dfs_file.c, dfs_posix.c over any
      file system of [Vfs]; DfsSpec: the lookup of a mount, and the calls of a
      program as an abstract table of open files, for any instance of the class and
      beside any other mounts.
    - Mount (after the files of Flash): registering and mounting of dfs_fs.c, and what
      sysfs_init of main/main.c and the board mount; MountSpec: where everything is.

    Flash.
    - Nor: what a NOR chip promises on its bus, as a class.  Sfud: libs/sfud/src/sfud.c
      over such a chip, once the chip has been found; SfudSpec what read, erase and write do
      on every branch; NorSim: a chip of 16 MiB; SfudTheorems: the driver on it, and the
      environment of [Env] kept through it.
    - Flash: board/tl-wr810n_v2/flash/flash.c, the thread that writes uploaded
      files; FlashSpec: from a file in the RAM file system to the bytes of the chip.

    Booting.
    - AutoBoot: the loop of main/main.c that waits for a break while a timer counts
      down to the boot of the firmware, and what other threads tell it.  AutoBootSpec:
      every run of it, ticks of the timer and events in any order.
    - Crc32: libs/crc32/crc32.c.
    - Env: common/env/env.c with the board's flash functions.
    - Reloc: tools/mips-relocs.c on the host and arch/mips/relocation on the
      target, the writer and the reader of one table.
    - LzmaDecode: libs/lzma/LzmaDecode.c; LzmaSafe: what it does on any input.
    - LzmaEnc: the writing half of src/host_util/lzma/C/LzmaEnc.c; LzmaRange,
      LzmaRoundtrip, LzmaTheorems: range coder, symbols and files, coded and
      decoded.  LzmaWrapper: LzmaWrapper.c and the files of lzmp.cpp.
    - Image: include/loader/image.h and tools/mkimage.c.  Loader:
      common/loader/loader.c.  BootParams: arch/mips/loader/loader.c and the
      board's.  ParamsTheorems and BootTheorems: what the kernel is handed, and
      images from the host tools to the entry point.

    ** What is shown

    - Scheduler and threads: every operation keeps [kok]; after a pass of the
      scheduler the best ready thread runs; delayed threads wake at their tick
      and not before, over the wrap of the 32-bit tick; a tick fires exactly the
      due timers and its loop ends; deleted threads are reclaimed.
    - Devices: whatever a program calls, and whatever the results, a driver is initialised
      before it is opened and is opened and closed in turn.
    - IPC: each call on every branch, errors and waiting included.  Mailboxes
      and message queues are FIFOs; an event is delivered as its specification
      says and nobody waits for what is there; mutexes have one owner, who runs
      at the best priority of the waiters of a priority queue.
    - Memory: no sequence of correct heap calls gets stuck, overlaps two blocks
      or changes another block's bytes, and the heap is whole again when all is
      given back; pools hand out blocks that are clear of each other; the word
      loops of the memory routines are byte loops; formatted output stays in its
      buffer, is terminated, and numbers read back.
    - Lists: the pointer code computes sequence operations for all lists of a
      memory at once.
    - Booting: the checksum is CRC-32 and sees a changed byte; the environment is
      a map and survives saving and loading; the relocation table decodes to the
      words it was made of.
    - Memory heap of a region: it refines an abstract allocator; blocks are disjoint and
      aligned, their bytes stay, and neighbours that are free are one block.
    - Files: the RAM file system is a map from names to contents; a path has no
      empty, "." or ".." component and stays in its buffer once it is normalised; a path belongs to
      the longest mount above it; open, read, write, seek and close on descriptors behave as on a
      table of open files, whatever the file system, and leave the other mounts alone; a lookup in
      ROM walks down the tree of names; ROM is at "/", RAM at "/tmp", the regions of the flash
      at "/www/map"; a file uploaded to "/tmp" and written by the flash thread is read back
      at "/www/map".
    - Flash: reads return the chip's bytes, an erase sets whole sectors, a write
      programs any range page by page, refusals change nothing; the environment
      survives a reset; an uploaded image ends up in its region and the
      rest of the chip keeps its bytes.
    - Automatic boot: the firmware is booted exactly when the timer ran out five times
      before the first break.
    - Images: what the host compressor writes the boot decompressor turns back,
      whatever matches were chosen; on other input it returns and stays in its
      arrays; an image of the host tools is booted with its kernel in place, one
      with a byte changed is refused; the command line is split at the blanks
      outside quotes.
    The findings of the manifest are what did not hold; each has its lines.

    ** How it is modelled

    Unsigned C integers are [Z] with the wrap written out ([u8], [u16], [u32]);
    signed ones are read with [i32].  A call that blocks is split where the code
    calls rt_schedule: the first definition ends with [Waits], a definition
    [_resumed] is what the thread does when it runs again.  Operations run
    without interference, since the code disables interrupts around them; the
    order in which threads call them is free, and the invariants are stated so
    that they hold before and after any of them.  RT_ASSERT, debug output and
    hooks are compiled out.

    Fuel: loops over lists take one unit per member and one for the test that
    ends them (rt_ipc_list_resume_all, mp_resume_loop, mq_flush, rt_list_len);
    the heap scan takes one unit per byte of the heap, more than there are
    blocks; rt_timer_check gets its bound in the theorem that shows it ends;
    format strings take their length, digits eleven turns; the environment takes
    one turn per byte of the buffer; the decompressor one turn per byte of output; the
    search of a memory heap one turn per header and two more; a path one turn per byte
    of its buffer, its lookup in ROM one per character; erasing and writing the chip one turn per byte of the range,
    more than there are sectors or pages, and one turn per byte of the uploaded file; the
    command line one per character; the list of sizes in an image has the fuel
    as an argument, and any above the number of files will do.  The theorems
    show that these suffice.

    Parameters: what the allocator returns where the caller is not the heap
    itself, timeout and cleanup callbacks, the flash chip on its bus (the laws of
    [Nor], which NorSim satisfies), where the linker puts the bytes of the ROM image, qsort on the host (with
    the law that it sorts), the CRC-32 of the tinf library, and the memory behind a block that the environment
    may read.

    ** Not modelled

    Register access, context switch, caches, exceptions and the start-up code
    (assembly and volatile stores); lwIP and the servers on it (third-party code
    and its clients); the device file system, mounting on
    devices, unmounting, directory calls and partitions of the virtual file system;
    how SFUD finds its chip (SFDP tables and the list of chips); the shell, device
    drivers and ciphers; the choice of matches in the compressor (theorems
    quantify over it); slab and multi-core variants (compiled out); the
    utilities of drivers/ipc other than its two buffers.  The manifest lists each
    with its files. *)

From stdpp Require Export base tactics numbers list gmap.
From Stdlib Require Export ZArith Lia.

#[export] Set Default Goal Selector "!".

Declare Scope rtboot_scope.
Delimit Scope rtboot_scope with rtb.
#[global] Open Scope Z_scope.

(** ** Machine integers: C's unsigned types as [Z] with the wrap written out. *)

Definition wrap (w z : Z) : Z := z mod 2 ^ w.

Abbreviation u8 := (wrap 8).
Abbreviation u15 := (wrap 15).
Abbreviation u16 := (wrap 16).
Abbreviation u32 := (wrap 32).

(** Two's complement reading of the low [w] bits. *)
Definition swrap (w z : Z) : Z := (z + 2 ^ (w - 1)) mod 2 ^ w - 2 ^ (w - 1).

Abbreviation i16 := (swrap 16).
Abbreviation i32 := (swrap 32).

Definition byte (b : Z) : Prop := 0 <= b < 256.
Definition word (c : Z) : Prop := 0 <= c < 2 ^ 32.

(** [~x] at width [w]. *)
Definition wnot (w z : Z) : Z := 2 ^ w - 1 - wrap w z.

(** [RT_ALIGN] and [RT_ALIGN_DOWN] of rtdef.h on [rt_size_t] operands; the
    alignment is a power of two, so masking is rounding. *)
Definition RT_ALIGN_SIZE : Z := 8.
Definition RT_ALIGN (size align : Z) : Z :=
  Z.land (u32 (size + align - 1)) (wnot 32 (align - 1)).
Definition RT_ALIGN_DOWN (size align : Z) : Z :=
  Z.land (u32 size) (wnot 32 (align - 1)).

Create HintDb rtboot.

Lemma wrap_small w z : 0 <= z < 2 ^ w -> wrap w z = z.
Proof. apply Z.mod_small. Qed.

Lemma wrap_bounds w z : 0 <= w -> 0 <= wrap w z < 2 ^ w.
Proof. intros. apply Z.mod_pos_bound. by apply Z.pow_pos_nonneg. Qed.

Lemma wrap_wrap w z : 0 <= w -> wrap w (wrap w z) = wrap w z.
Proof. intros. by apply wrap_small, wrap_bounds. Qed.

Lemma swrap_small w z : 0 < w -> - 2 ^ (w - 1) <= z < 2 ^ (w - 1) -> swrap w z = z.
Proof.
  intros Hw Hz. unfold swrap.
  assert (2 ^ w = 2 * 2 ^ (w - 1)) as E.
  { replace w with (1 + (w - 1)) at 1 by lia. by rewrite Z.pow_add_r by lia. }
  rewrite Z.mod_small by lia. lia.
Qed.

#[export] Hint Resolve wrap_bounds : rtboot.

(** Normalise wraps whose argument is in range by arithmetic. *)
Ltac unwrap :=
  repeat match goal with
  | |- context [wrap ?w ?z] => rewrite (wrap_small w z) by lia
  | H : context [wrap ?w ?z] |- _ => rewrite (wrap_small w z) in H by lia
  end.

(** [lia] with division and remainder by constants. *)
Ltac zdiv := Z.to_euclidean_division_equations; lia.

(** Split the conditionals of a definition, keeping the tests as hypotheses. *)
Ltac split_ifs :=
  repeat match goal with
  | |- context [if ?b then _ else _] => let E := fresh "E" in destruct b eqn:E
  end.

(** Boolean comparisons on [Z] as propositions. *)
Ltac zify_bool :=
  repeat match goal with
  | H : (_ && _) = true |- _ => apply andb_true_iff in H as [? ?]
  | H : (_ || _) = false |- _ => apply orb_false_iff in H as [? ?]
  | H : negb _ = true |- _ => apply negb_true_iff in H
  | H : negb _ = false |- _ => apply negb_false_iff in H
  | H : (_ <? _) = true |- _ => apply Z.ltb_lt in H
  | H : (_ <? _) = false |- _ => apply Z.ltb_ge in H
  | H : (_ <=? _) = true |- _ => apply Z.leb_le in H
  | H : (_ <=? _) = false |- _ => apply Z.leb_gt in H
  | H : (_ >? _) = _ |- _ => rewrite Z.gtb_ltb in H
  | H : (_ >=? _) = _ |- _ => rewrite Z.geb_leb in H
  | H : (_ =? _) = true |- _ => apply Z.eqb_eq in H
  | H : (_ =? _) = false |- _ => apply Z.eqb_neq in H
  end.

(** ** Bounds and bits of masked words *)

Lemma land_bounds a b w : 0 <= w -> 0 <= b < 2 ^ w -> 0 <= Z.land a b < 2 ^ w.
Proof.
  intros Hw Hb. replace (Z.land a b) with (Z.land a b mod 2 ^ w).
  { apply Z.mod_pos_bound. by apply Z.pow_pos_nonneg. }
  rewrite <- Z.land_ones, <- Z.land_assoc, Z.land_ones, Z.mod_small by lia. done.
Qed.

Lemma lor_bounds a b w : 0 <= w -> 0 <= a < 2 ^ w -> 0 <= b < 2 ^ w -> 0 <= Z.lor a b < 2 ^ w.
Proof.
  intros Hw Ha Hb. replace (Z.lor a b) with (Z.lor a b mod 2 ^ w).
  { apply Z.mod_pos_bound. by apply Z.pow_pos_nonneg. }
  rewrite <- Z.land_ones, Z.land_lor_distr_l, !Z.land_ones, !Z.mod_small by lia. done.
Qed.

Lemma wnot_bounds w m : 0 <= w -> 0 <= wnot w m < 2 ^ w.
Proof. intros Hw. unfold wnot. pose proof (wrap_bounds w m Hw). lia. Qed.

Lemma wnot_testbit w m q : 0 <= q < w -> Z.testbit (wnot w m) q = negb (Z.testbit m q).
Proof.
  intros Hq. unfold wnot, wrap. rewrite <- Z.land_ones by lia.
  replace (2 ^ w - 1) with (Z.ones w) by (rewrite Z.ones_equiv; lia).
  rewrite Z.sub_nocarry_ldiff.
  - rewrite Z.ldiff_spec, Z.land_spec, Z.ones_spec_low by lia. by destruct (Z.testbit m q).
  - apply Z.bits_inj'. intros j Hj. rewrite Z.ldiff_spec, Z.land_spec, Z.bits_0.
    destruct (Z.testbit (Z.ones w) j), (Z.testbit m j); done.
Qed.

Lemma testbit_pow2 p q : 0 <= p -> Z.testbit (2 ^ p) q = bool_decide (p = q).
Proof.
  intros Hp. case_bool_decide; subst; [by apply Z.pow2_bits_true|].
  by apply Z.pow2_bits_false.
Qed.

(** Numbers without common bits. *)
Lemma lor_add a b k : 0 <= k -> 0 <= a < 2 ^ k -> Z.lor a (b * 2 ^ k) = a + b * 2 ^ k.
Proof.
  intros Hk Ha. rewrite <- Z.add_lor_land. replace (Z.land a (b * 2 ^ k)) with 0; [lia|].
  symmetry. apply Z.bits_inj'. intros i Hi. rewrite Z.land_spec, Z.bits_0.
  destruct (decide (i < k)).
  - rewrite Z.mul_pow2_bits_low by lia. apply andb_false_r.
  - replace (Z.testbit a i) with false; [done|]. rewrite <- (Z.mod_small a (2 ^ k)) by lia.
    symmetry. apply Z.mod_pow2_bits_high. lia.
Qed.

(** A property of bytes, by trying them all. *)
Lemma all_bytes (P : Z -> bool) : forallb P (seqZ 0 256) = true ->
  forall n, 0 <= n < 256 -> P n = true.
Proof.
  intros H n Hn. rewrite forallb_forall in H. apply H, list_elem_of_In, elem_of_seqZ. lia.
Qed.

(** ** Alignment *)

Lemma land_high_mask x k w : 0 <= k <= w -> 0 <= x < 2 ^ w ->
  Z.land x (2 ^ w - 1 - (2 ^ k - 1)) = x / 2 ^ k * 2 ^ k.
Proof.
  intros Hk Hx.
  replace (2 ^ w - 1 - (2 ^ k - 1)) with (Z.shiftl (Z.ones (w - k)) k).
  2:{ rewrite Z.shiftl_mul_pow2, Z.ones_equiv by lia.
      replace (2 ^ w) with (2 ^ (w - k) * 2 ^ k) by (rewrite <- Z.pow_add_r by lia; f_equal; lia).
      lia. }
  rewrite <- Z.shiftr_div_pow2, <- Z.shiftl_mul_pow2 by lia.
  apply Z.bits_inj'. intros n Hn.
  rewrite Z.land_spec, !Z.shiftl_spec by lia.
  destruct (decide (n < k)) as [?|Hge].
  { rewrite !(Z.testbit_neg_r _ (n - k)) by lia. apply andb_false_r. }
  rewrite Z.shiftr_spec by lia. replace (n - k + k) with n by lia.
  destruct (decide (n < w)) as [?|?].
  { rewrite Z.ones_spec_low by lia. apply andb_true_r. }
  rewrite Z.ones_spec_high by lia. rewrite andb_false_r. symmetry.
  destruct (decide (x = 0)) as [->|?]; [apply Z.testbit_0_l|].
  apply Z.bits_above_log2; [lia|].
  apply Z.lt_le_trans with w; [|lia]. apply Z.log2_lt_pow2; lia.
Qed.

Lemma RT_ALIGN_DOWN_spec n : 0 <= n < 2 ^ 32 -> RT_ALIGN_DOWN n RT_ALIGN_SIZE = n / 8 * 8.
Proof.
  intros. unfold RT_ALIGN_DOWN, RT_ALIGN_SIZE. rewrite (wrap_small 32 n) by lia.
  apply (land_high_mask n 3 32); lia.
Qed.

Lemma RT_ALIGN_spec n : 0 <= n <= 2 ^ 32 - 8 -> RT_ALIGN n RT_ALIGN_SIZE = (n + 7) / 8 * 8.
Proof.
  intros. unfold RT_ALIGN, RT_ALIGN_SIZE. rewrite (wrap_small 32 (n + 8 - 1)) by lia.
  replace (n + 8 - 1) with (n + 7) by lia. apply (land_high_mask (n + 7) 3 32); lia.
Qed.

(** Sizes in the last seven bytes of the address range wrap to zero. *)
Lemma RT_ALIGN_wraps n : 2 ^ 32 - 7 <= n < 2 ^ 32 -> RT_ALIGN n RT_ALIGN_SIZE = 0.
Proof.
  intros. unfold RT_ALIGN, RT_ALIGN_SIZE, wrap.
  replace ((n + 8 - 1) mod 2 ^ 32) with (n + 7 - 2 ^ 32).
  2:{ apply (Z.mod_unique_pos _ _ 1); lia. }
  etrans; [apply (land_high_mask (n + 7 - 2 ^ 32) 3 32); lia|].
  rewrite Z.div_small by lia. done.
Qed.

(** ** Lists by index *)

Section list_index.
Context {A : Type}.
Implicit Types l k : list A.

Lemma lookup_app_dec l k i :
  (l ++ k) !! i =
  if decide (i < length l)%nat then l !! i else k !! (i - length l)%nat.
Proof.
  case_decide; [by apply lookup_app_l|]. apply lookup_app_r. lia.
Qed.

Lemma lookup_inserts_dec l k i j : (i + length k <= length l)%nat ->
  list_inserts i k l !! j =
  if decide (i <= j < i + length k)%nat then k !! (j - i)%nat else l !! j.
Proof.
  intros. case_decide as Hd; [apply list_lookup_inserts; lia|].
  destruct (decide (j < i)%nat); [by apply list_lookup_inserts_lt|].
  apply list_lookup_inserts_ge. lia.
Qed.

Lemma lookup_insert_dec l i x j : (i < length l)%nat ->
  (<[i := x]> l) !! j = if decide (i = j) then Some x else l !! j.
Proof.
  intros. case_decide; subst.
  - by apply list_lookup_insert_eq.
  - by apply list_lookup_insert_ne.
Qed.

Lemma lookup_singleton_dec (x : A) i : [x] !! i = if decide (i = 0%nat) then Some x else None.
Proof. by destruct i. Qed.
End list_index.

Create Rewrite HintDb rtboot_len.
#[export] Hint Rewrite @length_app @length_take @length_drop @length_inserts @length_insert
  @length_replicate : rtboot_len.
Ltac list_len := autorewrite with rtboot_len.

(** Equality of two lists built from [++], [take], [drop], [list_inserts]: the
    goal becomes the equality of their [i]-th elements, decided by arithmetic. *)
Ltac list_index :=
  repeat first
    [ rewrite lookup_app_dec | rewrite lookup_take | rewrite lookup_drop
    | rewrite lookup_singleton_dec
    | rewrite lookup_inserts_dec by (list_len; lia)
    | rewrite lookup_insert_dec by (list_len; lia) ];
  list_len;
  repeat (case_decide; try lia); try done; try (f_equal; lia);
  try (symmetry; apply lookup_ge_None; simpl; lia);
  try (apply lookup_ge_None; simpl; lia).

(** Turn a non-negative [Z] variable into a [nat] one. *)
Ltac to_nat x :=
  let n := fresh x in
  let E := fresh in
  destruct (Z_of_nat_complete x) as [n E]; [lia|]; subst x; rename n into x.

(** Push [Z.to_nat] to the leaves, once the variables are [nat]s. *)
Ltac push_to_nat :=
  rewrite ?Z2Nat.inj_sub, ?Z2Nat.inj_add, ?Nat2Z.id by lia.

Ltac by_index := apply list_eq; let i := fresh "i" in intros i; list_index.
