(* ===== verification/Ring.v ===== *)
(** * Circular doubly linked lists

    Rings of nodes of any type, given by the successor and the predecessor of
    every node: used for the lists of rtservice.h (RtList) and for the blocks of
    a memory heap (Memheap). *)

From S2P Require Import Prelude.

Section rings.
Context {K : Type} `{EqDecision K}.
Implicit Types (nx pv : K -> option K) (a b c h n : K) (ts us : list K).

(** The nodes [ts] lead from [a] to [b], in both directions. *)
Fixpoint seg (nx pv : K -> option K) (a : K) (ts : list K) (b : K) : Prop :=
  match ts with
  | [] => nx a = Some b /\ pv b = Some a
  | t :: ts => nx a = Some t /\ pv t = Some a /\ seg nx pv t ts b
  end.

Definition ring (nx pv : K -> option K) (h : K) (ts : list K) : Prop := seg nx pv h ts h /\ NoDup (h :: ts).

Lemma ring_seg_app nx pv ts us : forall a c b, seg nx pv a (ts ++ c :: us) b <-> seg nx pv a ts c /\ seg nx pv c us b.
Proof. induction ts as [|t ts IH]; intros a c b; simpl; [tauto|]. rewrite IH. tauto. Qed.

(** A ring read from another of its nodes. *)
Lemma ring_rotate nx pv h l1 x l2 : ring nx pv h (l1 ++ x :: l2) <-> ring nx pv x (l2 ++ h :: l1).
Proof.
  unfold ring. rewrite !ring_seg_app. split; intros [[H1 H2] Hd]; (split; [done|]);
    (eapply NoDup_Permutation_proper; [|exact Hd]); solve_Permutation.
Qed.

(** Memory that agrees on the links of a segment. *)
Lemma seg_ext nx pv nx' pv' ts : forall a b, seg nx pv a ts b ->
  (forall x, x ∈ a :: ts -> nx' x = nx x) ->
  (forall x, x ∈ ts ++ [b] -> pv' x = pv x) -> seg nx' pv' a ts b.
Proof.
  induction ts as [|t ts IH]; intros a b; simpl; intros H Hn Hp.
  - rewrite Hn, Hp by set_solver. done.
  - destruct H as (H1 & H2 & H3). rewrite Hn, Hp by set_solver. split_and!; [done|done|].
    apply IH; [done|intros x Hx; apply Hn; set_solver|intros x Hx; apply Hp; set_solver].
Qed.

(** [n] has come between [a] and [b]. *)
Definition ring_spliced nx pv nx' pv' a n b : Prop :=
  (forall x, nx' x = if decide (x = a) then Some n else if decide (x = n) then Some b else nx x) /\
  (forall x, pv' x = if decide (x = b) then Some n else if decide (x = n) then Some a else pv x).

(** [n] has gone from between [b] and [a]. *)
Definition ring_unspliced nx pv nx' pv' b n a : Prop :=
  (forall x, x <> n -> nx' x = if decide (x = b) then Some a else nx x) /\
  (forall x, x <> n -> pv' x = if decide (x = a) then Some b else pv x).

(** The edge into the end of a segment. *)
Lemma seg_last nx pv a ts b : seg nx pv a ts b -> exists c ts', a :: ts = ts' ++ [c] /\
  nx c = Some b /\ pv b = Some c /\
  (ts' = [] /\ c = a /\ ts = [] \/ exists us, ts' = a :: us /\ ts = us ++ [c] /\ seg nx pv a us c).
Proof.
  destruct ts as [|x ts _] using rev_ind; simpl; intros H.
  - exists a, []. split_and!; try apply H; [done|by left].
  - apply ring_seg_app in H as [H1 [H2 H3]]. exists x, (a :: ts). split_and!; try done. right. by exists ts.
Qed.

(** Appending: the new node comes between the last node and the head. *)
Lemma ring_splice_end nx pv nx' pv' h ts a n : ring nx pv h ts -> pv h = Some a -> n ∉ h :: ts ->
  ring_spliced nx pv nx' pv' a n h -> ring nx' pv' h (ts ++ [n]).
Proof.
  intros [Hs Hd] Ea Hn (N & P).
  assert (NoDup (h :: ts ++ [n])) as Hd'.
  { rewrite app_comm_cons. apply NoDup_app. split_and!; [done| |by apply NoDup_singleton].
    intros x Hx Hx'. apply list_elem_of_singleton in Hx' as ->. done. }
  split; [|done]. destruct (seg_last _ _ _ _ _ Hs) as (c & ts' & E & Hc1 & Hc2 & Hcase).
  assert (c = a) as -> by congruence. apply ring_seg_app. simpl.
  assert (a ∈ h :: ts) as Hin by (rewrite E; apply elem_of_app; right; apply list_elem_of_here).
  assert (n <> a) by (by intros ->). assert (n <> h) by (intros ->; by apply Hn; left).
  assert (nx' n = Some h /\ pv' h = Some n) as [Hnh Hhn].
  { rewrite N, P. split; [rewrite decide_False, decide_True by done|rewrite decide_True by done]; done. }
  split; [|done]. destruct Hcase as [(-> & -> & ->)|(us & -> & -> & Hus)]; simpl.
  - rewrite N, P, decide_True by done. by rewrite decide_False, decide_True by done.
  - apply NoDup_cons in Hd as [Hh Hd]. apply NoDup_app in Hd as (_ & Hdis & _).
    apply ring_seg_app. simpl. rewrite N, P, decide_True, decide_False, decide_True by (done || set_solver).
    split; [|done]. apply (seg_ext nx pv); [done|..]; intros x Hx.
    + rewrite N, !decide_False; [done|set_solver|]. intros ->.
      apply elem_of_cons in Hx as [->|Hx]; [set_solver|]. apply (Hdis a Hx). set_solver.
    + rewrite P, !decide_False; [done|set_solver|]. intros ->. set_solver.
Qed.

Lemma ring_splice_front nx pv nx' pv' h ts b n : ring nx pv h ts -> nx h = Some b -> n ∉ h :: ts ->
  ring_spliced nx pv nx' pv' h n b -> ring nx' pv' h (n :: ts).
Proof.
  intros Hr Eb Hn Hs. destruct ts as [|t ts].
  - assert (b = h) as -> by (destruct Hr as [[? _] _]; congruence). apply (ring_splice_end nx pv nx' pv' h [] h n); try done.
    by destruct Hr as [[_ ?] _].
  - assert (b = t) as -> by (destruct Hr as [(? & _) _]; congruence).
    apply (ring_rotate nx pv h [] t ts) in Hr. apply (ring_rotate nx' pv' h [n] t ts). simpl.
    apply (ring_splice_end nx pv nx' pv' t (ts ++ [h]) h n) in Hr; [by rewrite <- app_assoc in Hr| |set_solver|done].
    destruct Hr as [Hr _]. apply ring_seg_app in Hr as [_ [_ ?]]. done.
Qed.

Lemma ring_unsplice nx pv nx' pv' h l1 n l2 b a : ring nx pv h (l1 ++ n :: l2) -> nx n = Some a ->
  pv n = Some b -> ring_unspliced nx pv nx' pv' b n a -> ring nx' pv' h (l1 ++ l2).
Proof.
  intros [Hs Hd] Ea Eb (N & P).
  assert ((n ∉ h :: l1 ++ l2) /\ NoDup (h :: l1 ++ l2)) as [Hn Hd'].
  { apply NoDup_cons. eapply NoDup_Permutation_proper; [|exact Hd]. solve_Permutation. }
  split; [|done]. apply ring_seg_app in Hs as [H1 H2].
  destruct (seg_last _ _ _ _ _ H1) as (c & l & El & Hc1 & Hc2 & Hc). assert (c = b) as -> by congruence.
  assert (b <> n) by (intros ->; apply Hn; rewrite app_comm_cons, El; set_solver).
  assert (a ∈ l2 ++ [h]) as Ha by (destruct l2; simpl in H2; set_solver).
  assert (a <> n) by (intros ->; set_solver).
  assert (nx' b = Some a /\ pv' a = Some b) as [Eb' Ea'].
  { by rewrite N, P, !decide_True by done. }
  assert (forall x, x <> n -> x <> b -> nx' x = nx x) as N' by (intros; by rewrite N, !decide_False).
  assert (forall x, x <> n -> x <> a -> pv' x = pv x) as P' by (intros; by rewrite P, !decide_False).
  assert (seg nx' pv' b l2 h) as Hb2.
  { destruct l2 as [|a' l2]; simpl in H2 |- *.
    - assert (a = h) as -> by (destruct H2; congruence). done.
    - destruct H2 as (E1 & _ & H2). assert (a' = a) as -> by congruence. split_and!; [done|done|].
      apply NoDup_cons in Hd' as [Hh Hd2]. apply NoDup_app in Hd2 as (Hdl1 & Hdis & Hda).
      apply NoDup_cons in Hda as [Hal Hdl].
      apply (seg_ext nx pv); [done|..]; intros x Hx.
      + apply N'; [set_solver|]. intros ->. destruct Hc as [(_ & -> & _)|(us & _ & -> & _)]; [set_solver|].
        apply (Hdis b); set_solver.
      + apply P'; [set_solver|]. intros ->. set_solver. }
  destruct Hc as [(-> & -> & ->)|(us & -> & -> & Hus)]; [done|].
  rewrite <- app_assoc. simpl. apply ring_seg_app. split; [|done].
  apply NoDup_cons in Hd' as [Hh Hd2]. apply NoDup_app in Hd2 as (Hdl1 & Hdis & Hda).
  apply NoDup_app in Hdl1 as (_ & Hub & _).
  apply (seg_ext nx pv); [done|..]; intros x Hx.
  - apply N'; [set_solver|]. intros ->. apply elem_of_cons in Hx as [->|Hx]; [set_solver|].
    apply (Hub b Hx). set_solver.
  - apply P'; [set_solver|]. intros ->. apply elem_of_app in Ha as [Ha|Ha].
    + apply (Hdis a); set_solver.
    + set_solver.
Qed.

(** Links of other lists are not touched. *)
Lemma ring_frame nx pv nx' pv' h ts : ring nx pv h ts ->
  (forall x, x ∈ h :: ts -> nx' x = nx x /\ pv' x = pv x) -> ring nx' pv' h ts.
Proof.
  intros [Hs Hd] Hx. split; [|done]. apply (seg_ext nx pv); [done|..]; intros x Hin; apply Hx; [done|].
  apply elem_of_app in Hin as [Hin|Hin]; [by right|]. apply list_elem_of_singleton in Hin as ->. by left.
Qed.

Lemma ring_next nx pv h ts : ring nx pv h ts -> exists a, nx h = Some a /\ a ∈ h :: ts.
Proof.
  intros [Hs _]. destruct ts as [|t ts]; simpl in Hs.
  - exists h. split; [apply Hs|by left].
  - exists t. split; [apply Hs|]. right. by left.
Qed.

Lemma ring_prev nx pv h ts : ring nx pv h ts -> exists a, pv h = Some a /\ a ∈ h :: ts.
Proof.
  intros [Hs _]. destruct (seg_last _ _ _ _ _ Hs) as (c & l & E & _ & Hc & _). exists c.
  split; [done|]. rewrite E. apply elem_of_app. right. by left.
Qed.

Lemma ring_next_ne nx pv n us : ring nx pv n us -> us <> [] -> nx n <> Some n.
Proof.
  intros [Hs Hd] Hne E. destruct us as [|c us]; [done|]. destruct Hs as (E' & _).
  assert (c = n) as -> by congruence. apply NoDup_cons in Hd as [Hd _]. apply Hd. by left.
Qed.

Lemma ring_prev_ne nx pv n us : ring nx pv n us -> us <> [] -> pv n <> Some n.
Proof.
  intros [Hs Hd] Hne E. destruct (seg_last _ _ _ _ _ Hs) as (c & l & El & _ & Ec & [(_ & _ & ?)|(vs & -> & -> & _)]); [done|].
  assert (c = n) as -> by congruence. apply NoDup_cons in Hd as [Hd _]. set_solver.
Qed.

(** Every member has a successor. *)
Lemma ring_member nx pv ts : forall a b, seg nx pv a ts b -> forall x, x ∈ a :: ts -> exists v, nx x = Some v.
Proof.
  induction ts as [|t ts IH]; intros a b; simpl.
  - intros [H _] x Hx. apply list_elem_of_singleton in Hx as ->. by eexists.
  - intros (H & _ & Hs) x Hx. apply elem_of_cons in Hx as [->|Hx]; [by eexists|by eapply IH].
Qed.
End rings.
