(* ===== verification/RtList.v ===== *)
(** * The lists of the kernel: rtservice.h

    [rt_list_t] is a node of a circular doubly linked list that lives inside
    another struct; a list is known by its head, which is a node like the others.
    The other files keep a list as the sequence of its members; here the pointer
    operations are shown to compute those sequences, for any number of lists in
    one memory.  Single linked lists follow. *)

From S2P Require Import Prelude Ring.

(** ** The pointer operations *)

Record node := { next : nat; prev : nat }.
Abbreviation nodes := (gmap nat node).

Definition set_next (a v : nat) (m : nodes) : option nodes :=
  x ← m !! a; Some (<[a := {| next := v; prev := prev x |}]> m).
Definition set_prev (a v : nat) (m : nodes) : option nodes :=
  x ← m !! a; Some (<[a := {| next := next x; prev := v |}]> m).
Definition next_of (m : nodes) (a : nat) : option nat := next <$> m !! a.
Definition prev_of (m : nodes) (a : nat) : option nat := prev <$> m !! a.

Definition rt_list_init (l : nat) (m : nodes) : option nodes :=
  m ← set_prev l l m; set_next l l m.

Definition rt_list_insert_after (l n : nat) (m : nodes) : option nodes :=
  a ← next_of m l; m ← set_prev a n m;
  a ← next_of m l; m ← set_next n a m;
  m ← set_next l n m; set_prev n l m.

Definition rt_list_insert_before (l n : nat) (m : nodes) : option nodes :=
  a ← prev_of m l; m ← set_next a n m;
  a ← prev_of m l; m ← set_prev n a m;
  m ← set_prev l n m; set_next n l m.

Definition rt_list_remove (n : nat) (m : nodes) : option nodes :=
  a ← next_of m n; b ← prev_of m n; m ← set_prev a b m;
  b ← prev_of m n; a ← next_of m n; m ← set_next b a m;
  m ← set_prev n n m; a ← prev_of m n; set_next n a m.

Definition rt_list_isempty (l : nat) (m : nodes) : option bool :=
  a ← next_of m l; Some (Nat.eqb a l).

Fixpoint rt_list_len_loop (fuel : nat) (l p : nat) (len : Z) (m : nodes) : option Z :=
  match fuel with
  | O => None
  | S fuel =>
      a ← next_of m p;
      if Nat.eqb a l then Some len else rt_list_len_loop fuel l a (u32 (len + 1)) m
  end.
(** A list has at most as many members as there are nodes. *)
Definition rt_list_len (l : nat) (m : nodes) : option Z := rt_list_len_loop (S (size m)) l l 0 m.

(** The rings of file Ring, by the links of a memory. *)
Abbreviation seg m := (Ring.seg (next_of m) (prev_of m)).
Abbreviation ring m := (Ring.ring (next_of m) (prev_of m)).

(** ** What the operations do to the links *)

Lemma set_next_spec a v m : a ∈ dom m -> exists m', set_next a v m = Some m' /\ dom m' = dom m /\
  (forall x, next_of m' x = if decide (x = a) then Some v else next_of m x) /\
  (forall x, prev_of m' x = prev_of m x).
Proof.
  intros Ha. apply elem_of_dom in Ha as [x Hx]. unfold set_next. rewrite Hx. simpl.
  eexists. split_and!; [reflexivity|apply dom_insert_lookup_L; by eexists|..]; intros y; unfold next_of, prev_of;
    rewrite lookup_insert; repeat case_decide; subst; try done. by rewrite Hx.
Qed.

Lemma set_prev_spec a v m : a ∈ dom m -> exists m', set_prev a v m = Some m' /\ dom m' = dom m /\
  (forall x, next_of m' x = next_of m x) /\
  (forall x, prev_of m' x = if decide (x = a) then Some v else prev_of m x).
Proof.
  intros Ha. apply elem_of_dom in Ha as [x Hx]. unfold set_prev. rewrite Hx. simpl.
  eexists. split_and!; [reflexivity|apply dom_insert_lookup_L; by eexists|..]; intros y; unfold next_of, prev_of;
    rewrite lookup_insert; repeat case_decide; subst; try done. by rewrite Hx.
Qed.

(** [n] has come between [a] and [b]. *)
Definition spliced (m m' : nodes) (a n b : nat) : Prop :=
  dom m' = dom m /\ ring_spliced (next_of m) (prev_of m) (next_of m') (prev_of m') a n b.

Lemma in_dom_next m a b : next_of m a = Some b -> a ∈ dom m.
Proof. intros H. apply elem_of_dom. unfold next_of in H. destruct (m !! a); [by eexists|done]. Qed.
Lemma in_dom_prev m a b : prev_of m a = Some b -> a ∈ dom m.
Proof. intros H. apply elem_of_dom. unfold prev_of in H. destruct (m !! a); [by eexists|done]. Qed.

Ltac links := intros x; cbn beta; repeat match goal with H : forall x : nat, _ = _ |- _ => rewrite H end;
  repeat case_decide; congruence.

Lemma insert_after_spliced l n b m : next_of m l = Some b -> b ∈ dom m -> n ∈ dom m -> n <> l -> n <> b ->
  exists m', rt_list_insert_after l n m = Some m' /\ spliced m m' l n b.
Proof.
  intros El Hb Hn Hnl Hnb. pose proof (in_dom_next _ _ _ El) as Hl. unfold rt_list_insert_after.
  rewrite El. cbn [mbind option_bind].
  destruct (set_prev_spec b n m Hb) as (m1 & -> & D1 & N1 & P1). cbn [mbind option_bind]. rewrite N1, El. cbn [mbind option_bind].
  destruct (set_next_spec n b m1) as (m2 & -> & D2 & N2 & P2); [by rewrite D1|]. cbn [mbind option_bind].
  destruct (set_next_spec l n m2) as (m3 & -> & D3 & N3 & P3); [by rewrite D2, D1|]. cbn [mbind option_bind].
  destruct (set_prev_spec n l m3) as (m4 & -> & D4 & N4 & P4); [by rewrite D3, D2, D1|].
  exists m4. split; [done|]. split; [congruence|split; links].
Qed.

Lemma insert_before_spliced l n a m : prev_of m l = Some a -> a ∈ dom m -> n ∈ dom m -> n <> l -> n <> a ->
  exists m', rt_list_insert_before l n m = Some m' /\ spliced m m' a n l.
Proof.
  intros El Ha Hn Hnl Hna. pose proof (in_dom_prev _ _ _ El) as Hl. unfold rt_list_insert_before.
  rewrite El. cbn [mbind option_bind].
  destruct (set_next_spec a n m Ha) as (m1 & -> & D1 & N1 & P1). cbn [mbind option_bind]. rewrite P1, El. cbn [mbind option_bind].
  destruct (set_prev_spec n a m1) as (m2 & -> & D2 & N2 & P2); [by rewrite D1|]. cbn [mbind option_bind].
  destruct (set_prev_spec l n m2) as (m3 & -> & D3 & N3 & P3); [by rewrite D2, D1|]. cbn [mbind option_bind].
  destruct (set_next_spec n l m3) as (m4 & -> & D4 & N4 & P4); [by rewrite D3, D2, D1|].
  exists m4. split; [done|]. split; [congruence|split; links].
Qed.

(** [n] has gone from between [b] and [a], and is a list of its own. *)
Definition unspliced (m m' : nodes) (b n a : nat) : Prop :=
  dom m' = dom m /\
  (forall x, next_of m' x = if decide (x = n) then Some n else if decide (x = b) then Some a else next_of m x) /\
  (forall x, prev_of m' x = if decide (x = n) then Some n else if decide (x = a) then Some b else prev_of m x).

Lemma remove_unspliced n a b m : next_of m n = Some a -> prev_of m n = Some b -> a ∈ dom m -> b ∈ dom m ->
  (a = n <-> b = n) -> exists m', rt_list_remove n m = Some m' /\ unspliced m m' b n a.
Proof.
  intros En Ep Ha Hb Hab. pose proof (in_dom_next _ _ _ En) as Hn. unfold rt_list_remove.
  rewrite En. cbn [mbind option_bind]. rewrite Ep. cbn [mbind option_bind].
  destruct (set_prev_spec a b m Ha) as (m1 & -> & D1 & N1 & P1). cbn [mbind option_bind].
  assert (prev_of m1 n = Some b) as Ep1 by (rewrite P1; case_decide; [done|congruence]).
  rewrite Ep1. cbn [mbind option_bind]. rewrite N1, En. cbn [mbind option_bind].
  destruct (set_next_spec b a m1) as (m2 & -> & D2 & N2 & P2); [by rewrite D1|]. cbn [mbind option_bind].
  destruct (set_prev_spec n n m2) as (m3 & -> & D3 & N3 & P3); [by rewrite D2, D1|]. cbn [mbind option_bind].
  rewrite P3, decide_True by done. cbn [mbind option_bind].
  destruct (set_next_spec n n m3) as (m4 & -> & D4 & N4 & P4); [by rewrite D3, D2, D1|].
  exists m4. split; [done|]. split; [congruence|split; links].
Qed.

(** ** Rings under the operations *)

Lemma seg_dom m ts : forall a b, seg m a ts b -> forall x, x ∈ a :: ts -> x ∈ dom m.
Proof.
  induction ts as [|t ts IH]; intros a b; simpl.
  - intros [H _] x Hx. apply list_elem_of_singleton in Hx as ->. by eapply in_dom_next.
  - intros (H & _ & Hs) x Hx. apply elem_of_cons in Hx as [->|Hx]; [by eapply in_dom_next|by eapply IH].
Qed.

(** ** Many lists in one memory *)

(** [R] gives the members of every list by its head; a node that is on no list
    is a list without members.  The lists share no node. *)
Record lists_ok (m : nodes) (R : gmap nat (list nat)) : Prop := {
  lo_ring : forall h ts, R !! h = Some ts -> ring m h ts;
  lo_apart : forall h1 ts1 h2 ts2 x, R !! h1 = Some ts1 -> R !! h2 = Some ts2 ->
    x ∈ h1 :: ts1 -> x ∈ h2 :: ts2 -> h1 = h2
}.

Lemma ring_dom m h ts x : ring m h ts -> x ∈ h :: ts -> x ∈ dom m.
Proof. intros [Hs _]. by eapply seg_dom. Qed.

Section refine.
Context (m : nodes) (R : gmap nat (list nat)) (HR : lists_ok m R).

(** [n], on no list, has joined the list of [h]. *)
Lemma join_ok m' h ts n ts' : R !! h = Some ts -> R !! n = Some [] -> h <> n -> ts' ≡ₚ n :: ts ->
  ring m' h ts' ->
  (forall x, x ∉ n :: h :: ts -> next_of m' x = next_of m x /\ prev_of m' x = prev_of m x) ->
  lists_ok m' (<[h := ts']> (delete n R)).
Proof using HR.
  intros Hh Hn Hhn Hp Hr Hf.
  assert (forall g us x, <[h := ts']> (delete n R) !! g = Some us -> x ∈ g :: us ->
    g = h /\ x ∈ n :: h :: ts \/ g <> h /\ g <> n /\ R !! g = Some us) as Hcase.
  { intros g us x. rewrite lookup_insert. case_decide as E; subst.
    - intros [= <-] Hx. left. split; [done|]. apply elem_of_cons in Hx as [->|Hx]; [set_solver|].
      rewrite Hp in Hx. set_solver.
    - rewrite lookup_delete. case_decide; [done|]. intros ? _. right. by split_and!. }
  assert (forall g us x, R !! g = Some us -> g <> h -> g <> n -> x ∈ g :: us -> x ∉ n :: h :: ts) as Hout.
  { intros g us x Hg Hgh Hgn Hx Hin. apply elem_of_cons in Hin as [->|Hin].
    - apply Hgn. eapply (lo_apart _ _ HR _ _ _ _ n Hg Hn); [done|by left].
    - apply Hgh. by eapply (lo_apart _ _ HR _ _ _ _ x Hg Hh). }
  split.
  - intros g us Hg. destruct (Hcase g us g Hg) as [[-> _]|(Hgh & Hgn & Hg')]; [by left| |].
    + rewrite lookup_insert_eq in Hg. by injection Hg as <-.
    + eapply ring_frame; [by apply (lo_ring _ _ HR)|]. intros x Hx. apply Hf. by eapply Hout.
  - intros g1 us1 g2 us2 x H1 H2 Hx1 Hx2.
    destruct (Hcase _ _ _ H1 Hx1) as [[-> Hin1]|(N1 & N2 & Hg1)],
      (Hcase _ _ _ H2 Hx2) as [[-> Hin2]|(N3 & N4 & Hg2)]; try done.
    + by edestruct (Hout g2 us2 x).
    + by edestruct (Hout g1 us1 x).
    + by eapply (lo_apart _ _ HR _ _ _ _ x Hg1 Hg2).
Qed.

Lemma fresh_node h ts n : R !! h = Some ts -> R !! n = Some [] -> h <> n -> n ∈ dom m /\ n ∉ h :: ts.
Proof using HR.
  intros Hh Hn Hhn. split.
  - eapply ring_dom; [by apply (lo_ring _ _ HR)|by left].
  - intros Hin. apply Hhn. by eapply (lo_apart _ _ HR _ _ _ _ n Hh Hn); [|left].
Qed.

(** The node [x] of a list is its head or a member; a new node goes before it. *)
Lemma insert_before_ok h ts x l1 l2 n : R !! h = Some ts -> R !! n = Some [] -> h <> n ->
  (x = h /\ ts = l1 /\ l2 = [] \/ ts = l1 ++ x :: l2) ->
  exists m', rt_list_insert_before x n m = Some m' /\
    lists_ok m' (<[h := if decide (x = h) then ts ++ [n] else l1 ++ n :: x :: l2]> (delete n R)).
Proof using HR.
  intros Hh Hn Hhn Hx. pose proof (lo_ring _ _ HR _ _ Hh) as Hr. destruct (fresh_node h ts n Hh Hn Hhn) as [Hdn Hin].
  set (us := if decide (x = h) then ts else l2 ++ h :: l1).
  assert (ring m x us /\ (forall y, y ∈ x :: us <-> y ∈ h :: ts)) as [Hrx Hel].
  { unfold us. destruct Hx as [(-> & -> & ->)|E]; [by rewrite decide_True|].
    destruct Hr as [? Hd]. rewrite decide_False by (intros ->; rewrite E in Hd; apply NoDup_cons in Hd as [Hd _]; set_solver).
    split; [apply ring_rotate; by rewrite <- E|]. intros y. rewrite E. set_solver. }
  destruct (ring_prev _ _ _ _ Hrx) as (a & Ea & Ha).
  destruct (insert_before_spliced x n a m) as (m' & E & Hs); [done| |done| | |].
  { by eapply ring_dom. } { intros ->. apply Hin, Hel. by left. } { intros ->. by apply Hin, Hel. }
  exists m'. split; [done|]. assert (ring m' x (us ++ [n])) as Hr'.
  { apply (ring_splice_end (next_of m) (prev_of m) _ _ x us a n); [done|done|by rewrite Hel|apply Hs]. }
  apply (join_ok m' h ts n); try done.
  - case_decide as Exh; [by rewrite Permutation_app_comm|]. destruct Hx as [(-> & _)| ->]; [done|]. solve_Permutation.
  - unfold us in Hr'. case_decide as Exh; [by subst|]. destruct Hx as [(-> & _)| ->]; [done|].
    rewrite <- app_assoc in Hr'.
    apply ring_rotate in Hr'. by rewrite <- app_assoc in Hr'.
  - destruct Hs as (_ & N & P). intros y Hy.
    assert (y <> n /\ y <> x /\ y <> a) as (? & ? & ?).
    { split_and!; intros ->; apply Hy; [by left|right; apply Hel; by left|right; by apply Hel]. }
    by rewrite N, P, !decide_False.
Qed.

Lemma insert_after_ok h ts x l1 l2 n : R !! h = Some ts -> R !! n = Some [] -> h <> n ->
  (x = h \/ ts = l1 ++ x :: l2) ->
  exists m', rt_list_insert_after x n m = Some m' /\
    lists_ok m' (<[h := if decide (x = h) then n :: ts else l1 ++ x :: n :: l2]> (delete n R)).
Proof using HR.
  intros Hh Hn Hhn Hx. pose proof (lo_ring _ _ HR _ _ Hh) as Hr. destruct (fresh_node h ts n Hh Hn Hhn) as [Hdn Hin].
  set (us := if decide (x = h) then ts else l2 ++ h :: l1).
  assert (ring m x us /\ (forall y, y ∈ x :: us <-> y ∈ h :: ts)) as [Hrx Hel].
  { unfold us. case_decide as Exh; [by subst|]. destruct Hx as [->|E]; [done|].
    split; [apply ring_rotate; by rewrite <- E|]. intros y. rewrite E. set_solver. }
  destruct (ring_next _ _ _ _ Hrx) as (b & Eb & Hb).
  destruct (insert_after_spliced x n b m) as (m' & E & Hs); [done| |done| | |].
  { by eapply ring_dom. } { intros ->. apply Hin, Hel. by left. } { intros ->. by apply Hin, Hel. }
  exists m'. split; [done|]. assert (ring m' x (n :: us)) as Hr'.
  { apply (ring_splice_front (next_of m) (prev_of m) _ _ x us b n); [done|done|by rewrite Hel|apply Hs]. }
  apply (join_ok m' h ts n); try done.
  - case_decide as Exh; [done|]. destruct Hx as [->| ->]; [done|]. solve_Permutation.
  - unfold us in Hr'. case_decide as Exh; [by subst|].
    apply (ring_rotate _ _ x (n :: l2) h l1) in Hr'. done.
  - destruct Hs as (_ & N & P). intros y Hy.
    assert (y <> n /\ y <> x /\ y <> b) as (? & ? & ?).
    { split_and!; intros ->; apply Hy; [by left|right; apply Hel; by left|right; by apply Hel]. }
    by rewrite N, P, !decide_False.
Qed.

Lemma remove_ok h l1 n l2 : R !! h = Some (l1 ++ n :: l2) ->
  exists m', rt_list_remove n m = Some m' /\ lists_ok m' (<[n := []]> (<[h := l1 ++ l2]> R)).
Proof using HR.
  intros Hh. pose proof (lo_ring _ _ HR _ _ Hh) as Hr. pose proof Hr as [_ Hd].
  assert (ring m n (l2 ++ h :: l1)) as Hrn by (by apply ring_rotate).
  destruct (ring_next _ _ _ _ Hrn) as (a & Ea & Ha), (ring_prev _ _ _ _ Hrn) as (b & Eb & Hb).
  assert ((n ∉ h :: l1 ++ l2) /\ NoDup (h :: l1 ++ l2)) as [Hn Hd'].
  { apply NoDup_cons. eapply NoDup_Permutation_proper; [|exact Hd]. solve_Permutation. }
  assert (h <> n) as Hhn by (intros ->; apply Hn; by left).
  destruct (remove_unspliced n a b m Ea Eb) as (m' & E & Hu); [by eapply ring_dom|by eapply ring_dom| |].
  { assert (l2 ++ h :: l1 <> []) as Hne by (by destruct l2).
    split; intros ->; exfalso; [by apply (ring_next_ne _ _ n _ Hrn Hne)|by apply (ring_prev_ne _ _ n _ Hrn Hne)]. }
  exists m'. split; [done|]. assert (ring m' h (l1 ++ l2) /\ ring m' n []) as [Hr1 Hr2].
  { destruct Hu as (_ & N & P). split.
    - apply (ring_unsplice _ _ _ _ h l1 n l2 b a Hr Ea Eb). split; intros x Hx; [rewrite N|rewrite P]; by rewrite decide_False.
    - split; [|apply NoDup_singleton]. simpl. by rewrite N, P, !decide_True by done. }
  assert (forall x, (x ∉ h :: l1 ++ n :: l2) -> next_of m' x = next_of m x /\ prev_of m' x = prev_of m x) as Hf.
  { destruct Hu as (_ & N & P). intros x Hx.
    rewrite N, P, !decide_False; [done|..]; intros ->; apply Hx; set_solver. }
  assert (forall g us x, R !! g = Some us -> g <> h -> x ∈ g :: us -> x ∉ h :: l1 ++ n :: l2) as Hout.
  { intros g us x Hg Hgh Hx Hin. apply Hgh. by eapply (lo_apart _ _ HR _ _ _ _ x Hg Hh). }
  split.
  - intros g us. rewrite !lookup_insert. case_decide; [intros [= <-]; by subst|].
    case_decide; [intros [= <-]; by subst|]. intros Hg. eapply ring_frame; [by apply (lo_ring _ _ HR)|].
    intros x Hx. apply Hf. by eapply Hout.
  - assert (forall g us x, <[n := []]> (<[h := l1 ++ l2]> R) !! g = Some us -> x ∈ g :: us ->
      g = n /\ x = n \/ g = h /\ g <> n /\ (x ∈ h :: l1 ++ l2) \/ g <> h /\ g <> n /\ R !! g = Some us) as Hcase.
    { intros g us x. rewrite !lookup_insert. case_decide; [intros [= <-]; set_solver|].
      case_decide; [intros [= <-]; subst; set_solver|]. naive_solver. }
    intros g1 us1 g2 us2 x H1 H2 Hx1 Hx2.
    destruct (Hcase _ _ _ H1 Hx1) as [[-> ->]|[(-> & Q1 & Hi1)|(Q1 & Q2 & Hg1)]],
      (Hcase _ _ _ H2 Hx2) as [[-> E2]|[(-> & Q3 & Hi2)|(Q3 & Q4 & Hg2)]]; subst; try done.
    + exfalso. apply (Hout g2 us2 n); [done..|]. set_solver.
    + exfalso. apply (Hout g2 us2 x); [done..|]. set_solver.
    + exfalso. apply (Hout g1 us1 n); [done..|]. set_solver.
    + exfalso. apply (Hout g1 us1 x); [done..|]. set_solver.
    + by eapply (lo_apart _ _ HR _ _ _ _ x Hg1 Hg2).
Qed.

(** A node that is on no list stays alone. *)
Lemma remove_alone_ok n : R !! n = Some [] -> exists m', rt_list_remove n m = Some m' /\ lists_ok m' R.
Proof using HR.
  intros Hn. destruct (lo_ring _ _ HR _ _ Hn) as [[En Ep] _].
  destruct (remove_unspliced n n n m En Ep) as (m' & E & _ & N & P); [by eapply in_dom_next..|done|].
  exists m'. split; [done|]. destruct HR as [H1 H2]. split; [|done].
  intros h ts Hh. eapply ring_frame; [by apply H1|]. intros x _. rewrite N, P. by repeat case_decide; subst.
Qed.

Lemma ring_init_ok n : n ∈ dom m -> (forall h ts, R !! h = Some ts -> n ∉ h :: ts) ->
  exists m', rt_list_init n m = Some m' /\ lists_ok m' (<[n := []]> R).
Proof using HR.
  intros Hd Hn. unfold rt_list_init.
  destruct (set_prev_spec n n m Hd) as (m1 & -> & D1 & N1 & P1). cbn [mbind option_bind].
  destruct (set_next_spec n n m1) as (m2 & -> & D2 & N2 & P2); [by rewrite D1|].
  exists m2. split; [done|]. split.
  - intros h ts. rewrite lookup_insert. case_decide as E.
    + intros [= <-]. subst. split; [|apply NoDup_singleton]. simpl. by rewrite N2, P2, P1, !decide_True by done.
    + intros Hh. eapply ring_frame; [by apply (lo_ring _ _ HR)|]. intros x Hx.
      rewrite N2, N1, P2, P1, !decide_False; [done|..]; intros ->; by eapply Hn.
  - intros h1 ts1 h2 ts2 x. rewrite !lookup_insert.
    do 2 case_decide; subst; try done.
    + intros [= <-] H2 Hx Hx2. apply list_elem_of_singleton in Hx as ->. by destruct (Hn _ _ H2).
    + intros H1 [= <-] Hx1 Hx. apply list_elem_of_singleton in Hx as ->. by destruct (Hn _ _ H1).
    + apply (lo_apart _ _ HR).
Qed.

Lemma isempty_ok h ts : R !! h = Some ts -> rt_list_isempty h m = Some (bool_decide (ts = [])).
Proof using HR.
  intros Hh. destruct (lo_ring _ _ HR _ _ Hh) as [Hs Hd]. unfold rt_list_isempty.
  destruct ts as [|t ts]; simpl in Hs; destruct Hs as [-> _]; simpl.
  - by rewrite Nat.eqb_refl.
  - destruct (Nat.eqb_spec t h) as [->|]; [|done]. apply NoDup_cons in Hd as [Hd _]. set_solver.
Qed.

Lemma ring_len_loop_ok h ts : forall p fuel len, seg m p ts h -> (h ∉ ts) -> (length ts < fuel)%nat ->
  rt_list_len_loop fuel h p (u32 len) m = Some (u32 (len + Z.of_nat (length ts))).
Proof using HR.
  induction ts as [|t ts IH]; intros p fuel len Hs Hh Hf; (destruct fuel as [|fuel]; [simpl in Hf; lia|]); simpl in *.
  - destruct Hs as [-> _]. simpl. by rewrite Nat.eqb_refl, Z.add_0_r.
  - destruct Hs as (-> & _ & Hs). simpl. destruct (Nat.eqb_spec t h) as [->|]; [set_solver|].
    assert (u32 (u32 len + 1) = u32 (len + 1)) as -> by (unfold wrap; apply Zplus_mod_idemp_l).
    rewrite IH by (done || set_solver || lia). do 2 f_equal. lia.
Qed.

Lemma len_ok h ts : R !! h = Some ts -> rt_list_len h m = Some (u32 (Z.of_nat (length ts))).
Proof using HR.
  intros Hh. pose proof (lo_ring _ _ HR _ _ Hh) as Hr. destruct Hr as [Hs Hd].
  unfold rt_list_len. change 0 with (u32 0). rewrite (ring_len_loop_ok h ts); [done|done| |].
  - by apply NoDup_cons in Hd as [? _].
  - assert (length (h :: ts) <= size m)%nat; [|simpl in *; lia].
    rewrite <- size_dom. replace (length (h :: ts)) with (size (list_to_set (C := gset nat) (h :: ts))).
    + apply subseteq_size. intros x. rewrite elem_of_list_to_set. by eapply seg_dom.
    + by rewrite size_list_to_set.
Qed.
End refine.

(** C27: The pointer operations on [rt_list_t] compute operations on sequences,
    for all the lists of a memory at once: inserting after or before the head or
    any member puts the new node at its place, removing takes a member out of
    whatever list holds it and leaves it alone, and no other list changes.  The
    test for emptiness and the length are those of the sequence. *)
Theorem rt_list_refines m R h ts n : lists_ok m R -> R !! h = Some ts ->
  rt_list_isempty h m = Some (bool_decide (ts = [])) /\
  rt_list_len h m = Some (u32 (Z.of_nat (length ts))) /\
  (R !! n = Some [] -> h <> n ->
     (exists m', rt_list_insert_after h n m = Some m' /\ lists_ok m' (<[h := n :: ts]> (delete n R))) /\
     (exists m', rt_list_insert_before h n m = Some m' /\ lists_ok m' (<[h := ts ++ [n]]> (delete n R))) /\
     (forall l1 x l2, ts = l1 ++ x :: l2 ->
        (exists m', rt_list_insert_after x n m = Some m' /\ lists_ok m' (<[h := l1 ++ x :: n :: l2]> (delete n R))) /\
        (exists m', rt_list_insert_before x n m = Some m' /\ lists_ok m' (<[h := l1 ++ n :: x :: l2]> (delete n R))))) /\
  (R !! n = Some [] -> exists m', rt_list_remove n m = Some m' /\ lists_ok m' R) /\
  (forall l1 l2, ts = l1 ++ n :: l2 ->
     exists m', rt_list_remove n m = Some m' /\ lists_ok m' (<[n := []]> (<[h := l1 ++ l2]> R))).
Proof.
  intros HR Hh. split_and!.
  - by apply (isempty_ok m R HR).
  - by apply (len_ok m R HR).
  - intros Hn Hhn. split_and!.
    + destruct (insert_after_ok m R HR h ts h [] [] n) as (m' & E & H); [done..|by left|]. rewrite decide_True in H by done. eauto.
    + destruct (insert_before_ok m R HR h ts h ts [] n) as (m' & E & H); [done..|by left|]. rewrite decide_True in H by done. eauto.
    + intros l1 x l2 E. assert (x <> h) as Hxh.
      { intros ->. destruct (lo_ring _ _ HR _ _ Hh) as [_ Hd]. rewrite E in Hd. apply NoDup_cons in Hd as [Hd _]. set_solver. }
      split.
      * destruct (insert_after_ok m R HR h ts x l1 l2 n) as (m' & E' & H); [done..|by right|]. rewrite decide_False in H by done. eauto.
      * destruct (insert_before_ok m R HR h ts x l1 l2 n) as (m' & E' & H); [done..|by right|]. rewrite decide_False in H by done. eauto.
  - by apply (remove_alone_ok m R HR).
  - intros l1 l2 ->. by apply (remove_ok m R HR).
Qed.

(** ** Single linked lists *)

Module Slist.

(** [rt_slist_t]: the [next] pointers; the last one is null. *)
Abbreviation links := (gmap nat (option nat)).

Definition rt_slist_init (l : nat) (m : links) : links := <[l := None]> m.

(** The walk to the last node. *)
Fixpoint tail_loop (fuel : nat) (l : nat) (m : links) : option nat :=
  match fuel with
  | O => None
  | S fuel => a ← m !! l; match a with Some b => tail_loop fuel b m | None => Some l end
  end.
Definition rt_slist_tail (l : nat) (m : links) : option nat := tail_loop (S (size m)) l m.

Definition rt_slist_append (l n : nat) (m : links) : option links :=
  node ← rt_slist_tail l m; Some (<[n := None]> (<[node := Some n]> m)).

Definition rt_slist_insert (l n : nat) (m : links) : option links :=
  a ← m !! l; Some (<[l := Some n]> (<[n := a]> m)).

Fixpoint len_loop (fuel : nat) (list : option nat) (len : Z) (m : links) : option Z :=
  match fuel with
  | O => None
  | S fuel =>
      match list with
      | None => Some len
      | Some a => b ← m !! a; len_loop fuel b (u32 (len + 1)) m
      end
  end.
Definition rt_slist_len (l : nat) (m : links) : option Z := a ← m !! l; len_loop (S (size m)) a 0 m.

(** The walk to the node before [n], or to the last one. *)
Fixpoint find_loop (fuel : nat) (node n : nat) (m : links) : option nat :=
  match fuel with
  | O => None
  | S fuel =>
      a ← m !! node;
      match a with
      | Some b => if Nat.eqb b n then Some node else find_loop fuel b n m
      | None => Some node
      end
  end.
Definition rt_slist_remove (l n : nat) (m : links) : option links :=
  node ← find_loop (S (size m)) l n m;
  a ← m !! node;
  match a with
  | Some b => c ← m !! b; Some (<[node := c]> m)
  | None => Some m
  end.

Definition rt_slist_first (l : nat) (m : links) : option (option nat) := m !! l.
Definition rt_slist_next (n : nat) (m : links) : option (option nat) := m !! n.
Definition rt_slist_isempty (l : nat) (m : links) : option bool :=
  a ← m !! l; Some (bool_decide (a = None)).

(** The nodes [ts] behind [l]. *)
Fixpoint chain (m : links) (l : nat) (ts : list nat) : Prop :=
  match ts with
  | [] => m !! l = Some None
  | t :: ts => m !! l = Some (Some t) /\ chain m t ts
  end.

Lemma chain_ext m m' ts : forall l, chain m l ts -> (forall x, x ∈ l :: ts -> m' !! x = m !! x) -> chain m' l ts.
Proof.
  induction ts as [|t ts IH]; intros l; simpl; intros H Hx.
  - rewrite Hx by (by left). done.
  - destruct H as [H1 H2]. rewrite Hx by (by left). split; [done|]. apply IH; [done|]. intros x Hin. apply Hx. by right.
Qed.

Lemma chain_size m ts : forall l, chain m l ts -> NoDup (l :: ts) -> (length ts < size m)%nat.
Proof.
  intros l Hc Hd. assert (length (l :: ts) <= size m)%nat; [|simpl in *; lia].
  assert (forall x, x ∈ l :: ts -> x ∈ dom m) as Hdom.
  { clear Hd. revert l Hc. induction ts as [|t ts IH]; intros l Hc x; simpl in Hc.
    - intros Hx. apply list_elem_of_singleton in Hx as ->. apply elem_of_dom. by eexists.
    - destruct Hc as [Hc1 Hc]. intros Hx. apply elem_of_cons in Hx as [->|Hx]; [apply elem_of_dom; by eexists|by eapply IH]. }
  rewrite <- size_dom. replace (length (l :: ts)) with (size (list_to_set (C := gset nat) (l :: ts))).
  - apply subseteq_size. intros x. rewrite elem_of_list_to_set. apply Hdom.
  - by rewrite size_list_to_set.
Qed.

(** The last node of a list. *)
Fixpoint end_of (l : nat) (ts : list nat) : nat := match ts with [] => l | t :: ts => end_of t ts end.

Lemma tail_loop_ok m ts : forall l fuel, chain m l ts -> (length ts < fuel)%nat ->
  tail_loop fuel l m = Some (end_of l ts).
Proof.
  induction ts as [|t ts IH]; intros l fuel Hc Hf; (destruct fuel as [|fuel]; [simpl in Hf; lia|]); simpl in Hc |- *.
  - by rewrite Hc.
  - destruct Hc as [-> Hc]. simpl. apply IH; [done|]. simpl in Hf. lia.
Qed.

Lemma slist_len_loop_ok m ts : forall l fuel len, chain m l ts -> (length ts < fuel)%nat ->
  (a ← m !! l; len_loop fuel a (u32 len) m) = Some (u32 (len + Z.of_nat (length ts))).
Proof.
  induction ts as [|t ts IH]; intros l fuel len Hc Hf; (destruct fuel as [|fuel]; [simpl in Hf; lia|]); simpl in Hc |- *.
  - rewrite Hc. simpl. by rewrite Z.add_0_r.
  - destruct Hc as [-> Hc]. cbn [mbind option_bind len_loop].
    assert (u32 (u32 len + 1) = u32 (len + 1)) as -> by (unfold wrap; apply Zplus_mod_idemp_l).
    rewrite (IH t fuel (len + 1) Hc) by (simpl in Hf; lia). do 2 f_equal. lia.
Qed.

(** Appending a link at the end of a chain. *)
Lemma slist_chain_snoc m ts n : forall l, chain m l ts -> NoDup (n :: l :: ts) ->
  chain (<[n := None]> (<[end_of l ts := Some n]> m)) l (ts ++ [n]).
Proof.
  induction ts as [|t ts IH]; intros l Hc Hd; simpl in *.
  - apply NoDup_cons in Hd as [Hd _]. rewrite lookup_insert_ne, !lookup_insert_eq by set_solver. done.
  - destruct Hc as [H1 Hc]. apply NoDup_cons in Hd as [Hn Hd]. apply NoDup_cons in Hd as [Hl Hd].
    assert (l <> end_of t ts).
    { intros ->. apply Hl. clear. revert t. induction ts as [|u ts IH]; intros t; simpl; [by left|]. right. apply IH. }
    rewrite !lookup_insert_ne by set_solver. split; [done|]. apply IH; [done|].
    apply NoDup_cons. split; [set_solver|done].
Qed.

Lemma find_loop_ok m n ts us : forall l fuel, chain m l (ts ++ n :: us) -> (n ∉ ts) -> (length ts < fuel)%nat ->
  find_loop fuel l n m = Some (end_of l ts).
Proof.
  induction ts as [|t ts IH]; intros l fuel Hc Hn Hf; (destruct fuel as [|fuel]; [simpl in Hf; lia|]); simpl in Hc |- *.
  - destruct Hc as [-> _]. simpl. by rewrite Nat.eqb_refl.
  - destruct Hc as [-> Hc]. simpl. destruct (Nat.eqb_spec t n) as [->|]; [set_solver|].
    apply IH; [done|set_solver|simpl in Hf; lia].
Qed.

Lemma chain_end m ts us n : forall l, chain m l (ts ++ n :: us) -> m !! end_of l ts = Some (Some n) /\ chain m n us.
Proof. induction ts as [|t ts IH]; intros l; simpl; [done|]. intros [_ H]. by apply IH. Qed.

Lemma chain_unlink m ts us n c : forall l, chain m l (ts ++ n :: us) -> NoDup (l :: ts ++ n :: us) ->
  m !! n = Some c -> chain (<[end_of l ts := c]> m) l (ts ++ us).
Proof.
  induction ts as [|t ts IH]; intros l Hc Hd Hn; simpl in *.
  - destruct Hc as [H1 Hc]. apply NoDup_cons in Hd as [Hl Hd]. apply NoDup_cons in Hd as [Hnu _].
    destruct us as [|u us]; simpl in *; [rewrite Hn in Hc; injection Hc as ->; by rewrite lookup_insert_eq|].
    destruct Hc as [Hc1 Hc]. rewrite Hn in Hc1. injection Hc1 as ->. rewrite lookup_insert_eq. split; [done|].
    apply (chain_ext m); [done|]. intros x Hx. apply lookup_insert_ne. set_solver.
  - destruct Hc as [H1 Hc]. apply NoDup_cons in Hd as [Hl Hd].
    assert (l <> end_of t ts).
    { intros ->. apply Hl. rewrite app_comm_cons. apply elem_of_app. left.
      clear. revert t. induction ts as [|u ts IH]; intros t; simpl; [by left|]. right. apply IH. }
    rewrite lookup_insert_ne by done. split; [done|]. by apply IH.
Qed.

(** The operations of [rt_slist_t] on sequences. *)
Lemma slist_ok m l ts n : chain m l ts -> NoDup (l :: ts) -> n <> l -> (n ∉ ts) ->
  chain (rt_slist_init l m) l [] /\
  (exists m', rt_slist_append l n m = Some m' /\ chain m' l (ts ++ [n])) /\
  (exists m', rt_slist_insert l n m = Some m' /\ chain m' l (n :: ts)) /\
  rt_slist_len l m = Some (u32 (Z.of_nat (length ts))) /\
  rt_slist_isempty l m = Some (bool_decide (ts = [])) /\
  rt_slist_first l m = Some (head ts) /\
  (forall l1 x l2, ts = l1 ++ x :: l2 -> exists m', rt_slist_remove l x m = Some m' /\ chain m' l (l1 ++ l2)).
Proof.
  intros Hc Hd Hnl Hn. pose proof (chain_size m ts l Hc Hd) as Hs. split_and!.
  - apply lookup_insert_eq.
  - unfold rt_slist_append, rt_slist_tail. rewrite (tail_loop_ok m ts) by (done || lia). simpl.
    eexists. split; [done|]. apply slist_chain_snoc; [done|]. apply NoDup_cons. split; [set_solver|done].
  - unfold rt_slist_insert. destruct (m !! l) as [a|] eqn:El; [|destruct ts; simpl in Hc; [|destruct Hc as [Hc _]]; congruence].
    simpl. eexists. split; [done|]. split; [apply lookup_insert_eq|].
    apply NoDup_cons in Hd as [Hl Hd]. destruct ts as [|t ts]; simpl in *.
    + rewrite lookup_insert_ne, lookup_insert_eq by done. congruence.
    + destruct Hc as [H1 Hc]. rewrite lookup_insert_ne, lookup_insert_eq by done. split; [congruence|].
      apply (chain_ext m); [done|]. intros x Hx. rewrite !lookup_insert_ne by set_solver. done.
  - unfold rt_slist_len. change 0 with (u32 0) at 1. rewrite (slist_len_loop_ok m ts) by (done || lia). done.
  - unfold rt_slist_isempty. destruct ts as [|t ts]; simpl in Hc; [by rewrite Hc|]. by destruct Hc as [-> _].
  - unfold rt_slist_first. destruct ts as [|t ts]; simpl in Hc; [done|]. by destruct Hc as [-> _].
  - intros l1 x l2 ->. apply NoDup_cons in Hd as Hd'. destruct Hd' as [Hl Hd'].
    destruct (chain_end m l1 l2 x l Hc) as [He Hx].
    assert (exists c, m !! x = Some c) as [c Hcx] by (destruct l2; simpl in Hx; naive_solver).
    unfold rt_slist_remove. rewrite (find_loop_ok m x l1 l2); [|done| |rewrite length_app in Hs; lia].
    + simpl. rewrite He. simpl. rewrite Hcx. simpl. eexists. split; [done|]. by eapply chain_unlink.
    + apply NoDup_app in Hd' as (_ & Hdis & _). intros Hin. apply (Hdis x Hin). by left.
Qed.
End Slist.

(** ** A witness *)

(** Lists 0 and 1 with the members 10, 11 and 12; node 13 is free. *)
Definition demo_lists : gmap nat (list nat) :=
  <[0%nat := [10; 11]%nat]> (<[1%nat := [12%nat]]> (<[13%nat := []]> ∅)).
Definition demo_nodes : nodes :=
  list_to_map [(0, {| next := 10; prev := 11 |}); (10, {| next := 11; prev := 0 |});
               (11, {| next := 0; prev := 10 |}); (1, {| next := 12; prev := 12 |});
               (12, {| next := 1; prev := 1 |}); (13, {| next := 13; prev := 13 |})]%nat.

Lemma demo_lists_cases h ts : demo_lists !! h = Some ts ->
  h = 0%nat /\ ts = [10; 11]%nat \/ h = 1%nat /\ ts = [12%nat] \/ h = 13%nat /\ ts = [].
Proof. unfold demo_lists. rewrite !lookup_insert, lookup_empty. repeat case_decide; naive_solver. Qed.

Lemma demo_lists_ok : lists_ok demo_nodes demo_lists.
Proof.
  split.
  - intros h ts H. apply demo_lists_cases in H as [[-> ->]|[[-> ->]|[-> ->]]];
      (split; [by vm_compute|]); repeat constructor; set_solver.
  - intros h1 ts1 h2 ts2 x H1 H2 Hx1 Hx2.
    apply demo_lists_cases in H1 as [[-> ->]|[[-> ->]|[-> ->]]], H2 as [[-> ->]|[[-> ->]|[-> ->]]];
      try done; set_solver.
Qed.

Lemma rt_list_refines_witness : exists m',
  rt_list_insert_before 11 13 demo_nodes = Some m' /\
  lists_ok m' (<[0%nat := [10; 13; 11]%nat]> (delete 13%nat demo_lists)).
Proof.
  destruct (rt_list_refines demo_nodes demo_lists 0 [10; 11]%nat 13 demo_lists_ok eq_refl) as (_ & _ & H & _).
  destruct (H eq_refl ltac:(discriminate)) as (_ & _ & H'). apply (H' [10%nat] 11%nat []). reflexivity.
Defined.
