(* ===== verification/Fifo.v ===== *)
(** * Bounded byte queues: what a FIFO buffer promises its clients

    The interface between the ring buffer and the drivers that move bytes
    through it.  A client is a sequence of offers and requests; the interface
    alone gives the stream property: the bytes delivered, followed by the bytes
    still queued, are the bytes queued before followed by the bytes accepted. *)

From S2P Require Import Prelude.

Class BoundedFifo (Q : Type) := {
  fifo_ok : Q -> Prop;
  fifo_contents : Q -> list Z;
  fifo_capacity : Q -> Z;
  fifo_put : Q -> list Z -> Z * Q;
  fifo_get : Q -> Z -> list Z * Q
}.

Class BoundedFifoLaws (Q : Type) `{BoundedFifo Q} := {
  fifo_bounded : forall q, fifo_ok q -> Z.of_nat (length (fifo_contents q)) <= fifo_capacity q;
  fifo_put_law : forall q bs n q', fifo_ok q -> Z.of_nat (length bs) < 2 ^ 16 ->
    fifo_put q bs = (n, q') ->
    fifo_ok q' /\ fifo_capacity q' = fifo_capacity q /\
    n = Z.min (Z.of_nat (length bs)) (fifo_capacity q - Z.of_nat (length (fifo_contents q))) /\
    fifo_contents q' = fifo_contents q ++ take (Z.to_nat n) bs;
  fifo_get_law : forall q n out q', fifo_ok q -> 0 <= n < 2 ^ 16 ->
    fifo_get q n = (out, q') ->
    fifo_ok q' /\ fifo_capacity q' = fifo_capacity q /\
    out = take (Z.to_nat n) (fifo_contents q) /\
    fifo_contents q' = drop (Z.to_nat n) (fifo_contents q)
}.

Inductive fifo_op :=
  | Offer (bs : list Z)
  | Request (n : Z).

(** A request or an offer the 16-bit length argument can carry. *)
Definition op_ok (o : fifo_op) : Prop :=
  match o with
  | Offer bs => Z.of_nat (length bs) < 2 ^ 16
  | Request n => 0 <= n < 2 ^ 16
  end.

Section client.
Context {Q : Type} `{BoundedFifoLaws Q}.

(** Run a client: the accepted bytes, the delivered bytes, the final queue. *)
Fixpoint run (q : Q) (ops : list fifo_op) : list Z * list Z * Q :=
  match ops with
  | [] => ([], [], q)
  | Offer bs :: ops =>
      let '(n, q) := fifo_put q bs in
      let '(acc, del, q) := run q ops in
      (take (Z.to_nat n) bs ++ acc, del, q)
  | Request n :: ops =>
      let '(out, q) := fifo_get q n in
      let '(acc, del, q) := run q ops in
      (acc, out ++ del, q)
  end.

Lemma run_stream ops : forall q acc del q', fifo_ok q -> Forall op_ok ops ->
  run q ops = (acc, del, q') ->
  fifo_ok q' /\ fifo_capacity q' = fifo_capacity q /\
  del ++ fifo_contents q' = fifo_contents q ++ acc.
Proof.
  induction ops as [|[bs|n] ops IH]; intros q acc del q' Hok Hops Hrun; simpl in Hrun.
  - simplify_eq. by rewrite app_nil_r.
  - apply Forall_cons in Hops as [Hbs Hops].
    destruct (fifo_put q bs) as [n q1] eqn:E1, (run q1 ops) as [[acc1 del1] q2] eqn:E2.
    simplify_eq. destruct (fifo_put_law q bs n q1 Hok Hbs E1) as (Hok1 & Hc1 & Hn & Hcont).
    destruct (IH q1 _ _ _ Hok1 Hops E2) as (?&?&Hs). split_and!; [done|congruence|].
    by rewrite Hs, Hcont, app_assoc.
  - apply Forall_cons in Hops as [Hn Hops].
    destruct (fifo_get q n) as [out q1] eqn:E1, (run q1 ops) as [[acc1 del1] q2] eqn:E2.
    simplify_eq. destruct (fifo_get_law q n out q1 Hok Hn E1) as (Hok1 & Hc1 & -> & Hcont).
    destruct (IH q1 _ _ _ Hok1 Hops E2) as (?&?&Hs). split_and!; [done|congruence|].
    by rewrite <- app_assoc, Hs, Hcont, app_assoc, take_drop.
Qed.
End client.
