(* ===== verification/RingBuffer.v ===== *)
(** * The byte ring buffer of drivers/ipc/ringbuffer.c

    [rt_ringbuffer] is the struct of ringbuffer.h, with the memory behind
    [buffer_ptr] as the list [buffer].  The mirror bits are one-bit fields and
    so [bool]s, the indices 15-bit fields.  Every function of ringbuffer.c is a
    definition; the abstraction [contents] reads the queued bytes, oldest
    first, and the theorems state each operation as a queue operation on it. *)

From S2P Require Import Prelude Fifo.

Record rt_ringbuffer := mk_ringbuffer {
  buffer : list Z;
  read_mirror : bool;
  read_index : Z;
  write_mirror : bool;
  write_index : Z;
  buffer_size : Z
}.

Inductive rt_ringbuffer_state :=
  | RT_RINGBUFFER_EMPTY
  | RT_RINGBUFFER_FULL
  | RT_RINGBUFFER_HALFFULL.

#[export] Instance rt_ringbuffer_state_eq_dec : EqDecision rt_ringbuffer_state.
Proof. solve_decision. Defined.

Definition rt_ringbuffer_status (rb : rt_ringbuffer) : rt_ringbuffer_state :=
  if read_index rb =? write_index rb then
    if Bool.eqb (read_mirror rb) (write_mirror rb)
    then RT_RINGBUFFER_EMPTY else RT_RINGBUFFER_FULL
  else RT_RINGBUFFER_HALFFULL.

(** [buffer_size] is an [rt_int16_t]; [pool] is the caller's memory, of [size]
    bytes. *)
Definition rt_ringbuffer_init (pool : list Z) (size : Z) : rt_ringbuffer :=
  {| buffer := pool;
     read_mirror := false; read_index := 0;
     write_mirror := false; write_index := 0;
     buffer_size := i16 (RT_ALIGN_DOWN size RT_ALIGN_SIZE) |}.

Definition rt_ringbuffer_data_len (rb : rt_ringbuffer) : Z :=
  match rt_ringbuffer_status rb with
  | RT_RINGBUFFER_EMPTY => 0
  | RT_RINGBUFFER_FULL => buffer_size rb
  | RT_RINGBUFFER_HALFFULL =>
      if write_index rb >? read_index rb
      then write_index rb - read_index rb
      else buffer_size rb - (read_index rb - write_index rb)
  end.

(** The macro of ringbuffer.h. *)
Definition rt_ringbuffer_space_len (rb : rt_ringbuffer) : Z :=
  buffer_size rb - rt_ringbuffer_data_len rb.

(** [rt_memcpy(&buffer_ptr[i], src, n)]: [n] bytes of [src] at index [i]. *)
Definition blit (buf : list Z) (i : Z) (src : list Z) (n : Z) : list Z :=
  list_inserts (Z.to_nat i) (take (Z.to_nat n) src) buf.

(** [n] bytes of [src] from index [i]. *)
Definition slice (src : list Z) (i n : Z) : list Z :=
  take (Z.to_nat n) (drop (Z.to_nat i) src).

(** The two memory copies and the index update shared by both branches of
    [put] and [put_force], in the order of the source. *)
Definition rt_ringbuffer_put (rb : rt_ringbuffer) (ptr : list Z) (length : Z)
  : Z * rt_ringbuffer :=
  let size := u16 (rt_ringbuffer_space_len rb) in
  if size =? 0 then (0, rb) else
  let length := if size <? length then size else length in
  if buffer_size rb - write_index rb >? length then
    (length,
     {| buffer := blit (buffer rb) (write_index rb) ptr length;
        read_mirror := read_mirror rb; read_index := read_index rb;
        write_mirror := write_mirror rb;
        write_index := u15 (write_index rb + length);
        buffer_size := buffer_size rb |})
  else
    let n1 := buffer_size rb - write_index rb in
    let buf1 := blit (buffer rb) (write_index rb) ptr n1 in
    let buf2 := blit buf1 0 (drop (Z.to_nat n1) ptr) (length - n1) in
    (length,
     {| buffer := buf2;
        read_mirror := read_mirror rb; read_index := read_index rb;
        write_mirror := negb (write_mirror rb);
        write_index := u15 (length - n1);
        buffer_size := buffer_size rb |}).

Definition rt_ringbuffer_put_force (rb : rt_ringbuffer) (ptr : list Z) (length : Z)
  : Z * rt_ringbuffer :=
  let space_length := u16 (rt_ringbuffer_space_len rb) in
  let '(ptr, length) :=
    if length >? buffer_size rb
    then (drop (Z.to_nat (length - buffer_size rb)) ptr, buffer_size rb)
    else (ptr, length) in
  if buffer_size rb - write_index rb >? length then
    let w := u15 (write_index rb + length) in
    (length,
     {| buffer := blit (buffer rb) (write_index rb) ptr length;
        read_mirror := read_mirror rb;
        read_index := if length >? space_length then w else read_index rb;
        write_mirror := write_mirror rb;
        write_index := w;
        buffer_size := buffer_size rb |})
  else
    let n1 := buffer_size rb - write_index rb in
    let buf1 := blit (buffer rb) (write_index rb) ptr n1 in
    let buf2 := blit buf1 0 (drop (Z.to_nat n1) ptr) (length - n1) in
    let w := u15 (length - n1) in
    (length,
     {| buffer := buf2;
        read_mirror := if length >? space_length
                       then negb (read_mirror rb) else read_mirror rb;
        read_index := if length >? space_length then w else read_index rb;
        write_mirror := negb (write_mirror rb);
        write_index := w;
        buffer_size := buffer_size rb |}).

(** The bytes copied to [ptr] are the second component of the result. *)
Definition rt_ringbuffer_get (rb : rt_ringbuffer) (length : Z)
  : Z * list Z * rt_ringbuffer :=
  let size := rt_ringbuffer_data_len rb in
  if size =? 0 then (0, [], rb) else
  let length := if size <? length then size else length in
  if buffer_size rb - read_index rb >? length then
    (length, slice (buffer rb) (read_index rb) length,
     {| buffer := buffer rb;
        read_mirror := read_mirror rb;
        read_index := u15 (read_index rb + length);
        write_mirror := write_mirror rb; write_index := write_index rb;
        buffer_size := buffer_size rb |})
  else
    let n1 := buffer_size rb - read_index rb in
    (length,
     slice (buffer rb) (read_index rb) n1 ++ slice (buffer rb) 0 (length - n1),
     {| buffer := buffer rb;
        read_mirror := negb (read_mirror rb);
        read_index := u15 (length - n1);
        write_mirror := write_mirror rb; write_index := write_index rb;
        buffer_size := buffer_size rb |}).

Definition rt_ringbuffer_putchar (rb : rt_ringbuffer) (ch : Z) : Z * rt_ringbuffer :=
  if rt_ringbuffer_space_len rb =? 0 then (0, rb) else
  let buf := <[Z.to_nat (write_index rb) := ch]> (buffer rb) in
  if write_index rb =? buffer_size rb - 1 then
    (1, {| buffer := buf;
           read_mirror := read_mirror rb; read_index := read_index rb;
           write_mirror := negb (write_mirror rb); write_index := 0;
           buffer_size := buffer_size rb |})
  else
    (1, {| buffer := buf;
           read_mirror := read_mirror rb; read_index := read_index rb;
           write_mirror := write_mirror rb; write_index := u15 (write_index rb + 1);
           buffer_size := buffer_size rb |}).

Definition rt_ringbuffer_putchar_force (rb : rt_ringbuffer) (ch : Z) : Z * rt_ringbuffer :=
  let old_state := rt_ringbuffer_status rb in
  let buf := <[Z.to_nat (write_index rb) := ch]> (buffer rb) in
  let was_full := bool_decide (old_state = RT_RINGBUFFER_FULL) in
  if write_index rb =? buffer_size rb - 1 then
    (1, {| buffer := buf;
           read_mirror := if was_full then negb (read_mirror rb) else read_mirror rb;
           read_index := if was_full then 0 else read_index rb;
           write_mirror := negb (write_mirror rb); write_index := 0;
           buffer_size := buffer_size rb |})
  else
    let w := u15 (write_index rb + 1) in
    (1, {| buffer := buf;
           read_mirror := read_mirror rb;
           read_index := if was_full then w else read_index rb;
           write_mirror := write_mirror rb; write_index := w;
           buffer_size := buffer_size rb |}).

(** [None] for [*ch]: the caller's variable is left alone. *)
Definition rt_ringbuffer_getchar (rb : rt_ringbuffer) : Z * option Z * rt_ringbuffer :=
  if rt_ringbuffer_data_len rb =? 0 then (0, None, rb) else
  let ch := buffer rb !! Z.to_nat (read_index rb) in
  if read_index rb =? buffer_size rb - 1 then
    (1, ch, {| buffer := buffer rb;
               read_mirror := negb (read_mirror rb); read_index := 0;
               write_mirror := write_mirror rb; write_index := write_index rb;
               buffer_size := buffer_size rb |})
  else
    (1, ch, {| buffer := buffer rb;
               read_mirror := read_mirror rb; read_index := u15 (read_index rb + 1);
               write_mirror := write_mirror rb; write_index := write_index rb;
               buffer_size := buffer_size rb |}).

Definition rt_ringbuffer_reset (rb : rt_ringbuffer) : rt_ringbuffer :=
  {| buffer := buffer rb;
     read_mirror := false; read_index := 0;
     write_mirror := false; write_index := 0;
     buffer_size := buffer_size rb |}.

(** ** The queue a buffer represents *)

(** The invariant: indices inside the buffer; equal mirrors put the reader
    behind the writer, different mirrors the writer behind the reader. *)
Definition wf (rb : rt_ringbuffer) : Prop :=
  0 < buffer_size rb < 2 ^ 15 /\
  buffer_size rb <= Z.of_nat (length (buffer rb)) /\
  0 <= read_index rb < buffer_size rb /\
  0 <= write_index rb < buffer_size rb /\
  (if Bool.eqb (read_mirror rb) (write_mirror rb)
   then read_index rb <= write_index rb
   else write_index rb <= read_index rb).

(** The queued bytes, oldest first. *)
Definition contents (rb : rt_ringbuffer) : list Z :=
  take (Z.to_nat (rt_ringbuffer_data_len rb))
    (slice (buffer rb) (read_index rb) (buffer_size rb - read_index rb)
     ++ take (Z.to_nat (read_index rb)) (buffer rb)).

(** The length of the queue in terms of the mirror bits only. *)
Lemma data_len_eq rb : wf rb ->
  rt_ringbuffer_data_len rb =
  if Bool.eqb (read_mirror rb) (write_mirror rb)
  then write_index rb - read_index rb
  else buffer_size rb - (read_index rb - write_index rb).
Proof.
  intros (?&?&?&?&Hm). unfold rt_ringbuffer_data_len, rt_ringbuffer_status.
  destruct (Bool.eqb _ _); split_ifs; zify_bool; lia.
Qed.

Lemma data_len_bounds rb : wf rb -> 0 <= rt_ringbuffer_data_len rb <= buffer_size rb.
Proof.
  intros H. rewrite data_len_eq by done. destruct H as (?&?&?&?&?).
  destruct (Bool.eqb _ _); lia.
Qed.

Lemma length_contents rb : wf rb ->
  Z.of_nat (length (contents rb)) = rt_ringbuffer_data_len rb.
Proof.
  intros H. pose proof (data_len_bounds _ H). destruct H as (?&?&?&?&_).
  unfold contents, slice.
  rewrite !length_take, length_app, !length_take, length_drop. lia.
Qed.

#[export] Hint Resolve data_len_bounds : rtboot.

(** Expose the arithmetic of a buffer: its indices as variables and its length
    by cases on the mirrors. *)
Ltac ring_open rb :=
  let H := fresh "Hwf" in
  match goal with
  | W : wf rb |- _ =>
    pose proof (data_len_eq _ W); pose proof (data_len_bounds _ W);
    pose proof W as (?&?&?&?&H)
  end;
  destruct rb as [buf rm r wm w sz]; simpl in *.

(** The abstraction by index: byte [i] of the queue is the byte [i] places
    after the read index, modulo the buffer size. *)
Lemma lookup_contents rb i : wf rb ->
  contents rb !! i =
  if decide (Z.of_nat i < rt_ringbuffer_data_len rb) then
    let j := read_index rb + Z.of_nat i in
    buffer rb !! Z.to_nat (if decide (j < buffer_size rb) then j else j - buffer_size rb)
  else None.
Proof.
  intros W. ring_open rb. unfold contents, slice; simpl.
  clear W. set (d := rt_ringbuffer_data_len _) in *. clearbody d.
  clear Hwf. list_index.
Qed.

(** The cases of an operation: the two mirror bits, and whether it wraps. *)
Ltac ring_cases :=
  match goal with rm : bool, wm : bool |- _ => destruct rm, wm end;
  simpl in *;
  repeat match goal with
  | |- context [if ?a >? ?b then _ else _] => destruct (a >? b) eqn:?
  end; zify_bool; simpl in *.

(** Writing [n] bytes at the write position, the update [put], [put_force] and
    [putchar] share: without a wrap if the bytes end before the last cell. *)
Definition advance_write (rb : rt_ringbuffer) (ptr : list Z) (n : Z) : rt_ringbuffer :=
  let n1 := buffer_size rb - write_index rb in
  if n1 >? n then
    {| buffer := blit (buffer rb) (write_index rb) ptr n;
       read_mirror := read_mirror rb; read_index := read_index rb;
       write_mirror := write_mirror rb; write_index := u15 (write_index rb + n);
       buffer_size := buffer_size rb |}
  else
    {| buffer := blit (blit (buffer rb) (write_index rb) ptr n1) 0
                   (drop (Z.to_nat n1) ptr) (n - n1);
       read_mirror := read_mirror rb; read_index := read_index rb;
       write_mirror := negb (write_mirror rb); write_index := u15 (n - n1);
       buffer_size := buffer_size rb |}.

(** Dropping the [n] oldest bytes, the update [get] and [getchar] share. *)
Definition advance_read (rb : rt_ringbuffer) (n : Z) : rt_ringbuffer :=
  let n1 := buffer_size rb - read_index rb in
  {| buffer := buffer rb;
     read_mirror := if n1 >? n then read_mirror rb else negb (read_mirror rb);
     read_index := if n1 >? n then u15 (read_index rb + n) else u15 (n - n1);
     write_mirror := write_mirror rb; write_index := write_index rb;
     buffer_size := buffer_size rb |}.

Lemma advance_write_size rb ptr n : buffer_size (advance_write rb ptr n) = buffer_size rb.
Proof. unfold advance_write. by destruct (_ >? _). Qed.

Lemma advance_write_read rb ptr n : read_index (advance_write rb ptr n) = read_index rb.
Proof. unfold advance_write. by destruct (_ >? _). Qed.

Lemma advance_write_wf rb ptr n : wf rb -> 0 <= n <= rt_ringbuffer_space_len rb ->
  wf (advance_write rb ptr n) /\
  rt_ringbuffer_data_len (advance_write rb ptr n) = rt_ringbuffer_data_len rb + n.
Proof.
  intros W Hn. unfold rt_ringbuffer_space_len in Hn.
  set (rb' := advance_write rb ptr n).
  assert (wf rb') as W'.
  { ring_open rb. unfold rb', advance_write, wf, blit; simpl.
    ring_cases;
      rewrite ?length_inserts; unwrap; lia. }
  split; [done|]. rewrite !data_len_eq by done.
  ring_open rb. unfold rb', advance_write; simpl.
  ring_cases; unwrap; lia.
Qed.

(** The cells an advance writes, by index. *)
Lemma lookup_advance_write rb ptr n j : wf rb ->
  0 <= n <= buffer_size rb -> n <= Z.of_nat (length ptr) -> 0 <= j < buffer_size rb ->
  buffer (advance_write rb ptr n) !! Z.to_nat j =
  let k := if decide (write_index rb <= j) then j - write_index rb
           else j - write_index rb + buffer_size rb in
  if decide (k < n) then ptr !! Z.to_nat k else buffer rb !! Z.to_nat j.
Proof.
  intros W Hn Hp Hj. ring_open rb. clear W. unfold advance_write, blit; simpl.
  destruct (_ >? _) eqn:E; zify_bool; simpl; list_index.
Qed.

Lemma advance_write_contents rb ptr n : wf rb ->
  0 <= n <= rt_ringbuffer_space_len rb -> n <= Z.of_nat (length ptr) ->
  contents (advance_write rb ptr n) = contents rb ++ take (Z.to_nat n) ptr.
Proof.
  intros W Hn Hp. destruct (advance_write_wf rb ptr n W Hn) as [W' Hd].
  pose proof (length_contents rb W) as Hlen.
  apply list_eq. intros i. rewrite lookup_app_dec, !lookup_contents by done.
  rewrite Hd, advance_write_size, advance_write_read.
  unfold rt_ringbuffer_space_len in Hn.
  pose proof (data_len_eq _ W) as Hdl. pose proof (data_len_bounds _ W) as Hdb.
  pose proof W as (?&?&?&?&Hm).
  destruct (decide (Z.of_nat i < rt_ringbuffer_data_len rb + n)).
  2:{ list_index. }
  simpl. rewrite lookup_advance_write by (try done; try case_decide; lia).
  rewrite lookup_take. cbv zeta.
  destruct (Bool.eqb _ _); repeat (case_decide; try lia); done || (f_equal; lia).
Qed.

Lemma advance_read_wf rb n : wf rb -> 0 <= n <= rt_ringbuffer_data_len rb ->
  wf (advance_read rb n) /\
  rt_ringbuffer_data_len (advance_read rb n) = rt_ringbuffer_data_len rb - n.
Proof.
  intros W Hn. set (rb' := advance_read rb n).
  assert (wf rb') as W'.
  { ring_open rb. unfold rb', advance_read, wf; simpl.
    ring_cases; unwrap; lia. }
  split; [done|]. rewrite !data_len_eq by done.
  ring_open rb. unfold rb', advance_read; simpl.
  ring_cases; unwrap; lia.
Qed.

Lemma advance_read_contents rb n : wf rb -> 0 <= n <= rt_ringbuffer_data_len rb ->
  contents (advance_read rb n) = drop (Z.to_nat n) (contents rb).
Proof.
  intros W Hn. destruct (advance_read_wf rb n W Hn) as [W' Hd].
  apply list_eq. intros i. rewrite lookup_drop, !lookup_contents by done. rewrite Hd.
  pose proof W as (?&?&?&?&_). pose proof (data_len_bounds _ W).
  unfold advance_read; simpl.
  destruct (_ >? _) eqn:E; zify_bool; simpl; unwrap;
    repeat (case_decide; try lia); done || (f_equal; lia).
Qed.

(** ** The operations as instances of the two advances *)

Lemma put_advance rb ptr len : wf rb -> 0 <= len ->
  let n := Z.min len (rt_ringbuffer_space_len rb) in
  rt_ringbuffer_space_len rb <> 0 ->
  rt_ringbuffer_put rb ptr len = (n, advance_write rb ptr n).
Proof.
  intros W Hlen n Hsp. pose proof (data_len_bounds _ W). pose proof W as (?&?&_).
  unfold rt_ringbuffer_put. unfold rt_ringbuffer_space_len in *. unwrap.
  destruct (_ =? 0) eqn:E; zify_bool; [lia|].
  replace (if _ <? len then _ else len) with n by (subst n; destruct (_ <? _) eqn:?; zify_bool; lia).
  unfold advance_write. by destruct (_ >? _).
Qed.

Lemma get_advance rb len : wf rb -> 0 <= len ->
  let n := Z.min len (rt_ringbuffer_data_len rb) in
  rt_ringbuffer_data_len rb <> 0 ->
  exists out, rt_ringbuffer_get rb len = (n, out, advance_read rb n) /\
              out = take (Z.to_nat n) (contents rb).
Proof.
  intros W Hlen n Hsp. pose proof (data_len_bounds _ W). pose proof W as (?&?&?&_).
  unfold rt_ringbuffer_get. destruct (_ =? 0) eqn:E; zify_bool; [lia|].
  replace (if _ <? len then _ else len) with n by (subst n; destruct (_ <? _) eqn:?; zify_bool; lia).
  assert (0 <= n <= rt_ringbuffer_data_len rb) as Hn by lia. clearbody n.
  unfold advance_read, slice.
  destruct (_ >? _) eqn:E1; zify_bool; eexists; (split; [reflexivity|]);
    apply list_eq; intros i; rewrite (lookup_take (contents rb)), lookup_contents by done;
    cbv zeta; list_index.
Qed.

Lemma putchar_advance rb ch : wf rb -> rt_ringbuffer_space_len rb <> 0 ->
  rt_ringbuffer_putchar rb ch = (1, advance_write rb [ch] 1).
Proof.
  intros W Hsp. pose proof W as (?&?&?&?&_). unfold rt_ringbuffer_putchar.
  destruct (_ =? 0) eqn:E; zify_bool; [lia|].
  unfold advance_write, blit. simpl.
  destruct (write_index rb =? _) eqn:E1, (_ >? 1) eqn:E2; zify_bool; try lia; f_equal; f_equal.
  all: replace (buffer_size rb - write_index rb) with 1 by lia; simpl; try done.
Qed.

Lemma getchar_advance rb : wf rb -> rt_ringbuffer_data_len rb <> 0 ->
  exists ch, contents rb !! 0%nat = Some ch /\
    rt_ringbuffer_getchar rb = (1, Some ch, advance_read rb 1).
Proof.
  intros W Hd. pose proof W as (?&?&?&?&_). pose proof (data_len_bounds _ W).
  destruct (lookup_lt_is_Some_2 (buffer rb) (Z.to_nat (read_index rb))) as [ch Hch]; [lia|].
  exists ch. split.
  { rewrite lookup_contents by done. cbv zeta.
    repeat (case_decide; try lia). by rewrite Z.add_0_r. }
  unfold rt_ringbuffer_getchar. rewrite Hch. destruct (_ =? 0) eqn:E; zify_bool; [lia|].
  unfold advance_read.
  destruct (read_index rb =? _) eqn:E1, (_ >? 1) eqn:E2; zify_bool; try lia; repeat f_equal.
  replace (1 - (buffer_size rb - read_index rb)) with 0 by lia. done.
Qed.

(** [put_force] on a buffer whose write side has wrapped: drop as many old bytes
    as needed, then write.  [n] is the length after the clamp to the size. *)
Lemma put_force_advance rb ptr len : wf rb -> 0 <= len ->
  let n := Z.min len (buffer_size rb) in
  let ptr' := drop (Z.to_nat (len - n)) ptr in
  let over := rt_ringbuffer_data_len rb + n - buffer_size rb in
  over <= 0 \/ read_mirror rb <> write_mirror rb ->
  rt_ringbuffer_put_force rb ptr len =
  (n, advance_write (advance_read rb (Z.max 0 over)) ptr' n).
Proof.
  intros W Hlen n ptr' over Hc. pose proof (data_len_bounds _ W). pose proof W as (?&?&?&?&Hm).
  pose proof (data_len_eq _ W) as Hd. unfold rt_ringbuffer_put_force, rt_ringbuffer_space_len.
  replace (if len >? _ then _ else _) with (ptr', n).
  2:{ subst n ptr'. destruct (_ >? _) eqn:?; zify_bool.
      - by rewrite Z.min_r by lia.
      - rewrite Z.min_l by lia. by replace (len - len) with 0 by lia. }
  assert (0 <= n <= buffer_size rb) as Hn by lia. subst over. clearbody n ptr'.
  destruct rb as [buf rm r wm w sz]; simpl in *.
  set (d := rt_ringbuffer_data_len _) in *. clearbody d. unwrap.
  unfold advance_write, advance_read; simpl.
  destruct rm, wm; simpl in *;
    repeat match goal with
    | |- context [if ?a >? ?b then _ else _] => destruct (a >? b) eqn:?
    end; zify_bool; try lia; destruct_or?; try done; try lia;
    unwrap; f_equal; f_equal; try done; lia.
Qed.

Lemma putchar_force_advance rb ch : wf rb ->
  rt_ringbuffer_putchar_force rb ch =
  (1, advance_write
        (advance_read rb (if decide (rt_ringbuffer_data_len rb = buffer_size rb) then 1 else 0))
        [ch] 1).
Proof.
  intros W. pose proof (data_len_bounds _ W). pose proof (data_len_eq _ W) as Hd.
  pose proof W as (?&?&?&?&Hm). unfold rt_ringbuffer_putchar_force.
  assert (bool_decide (rt_ringbuffer_status rb = RT_RINGBUFFER_FULL) =
          bool_decide (rt_ringbuffer_data_len rb = buffer_size rb)) as ->.
  { apply bool_decide_ext. rewrite Hd. unfold rt_ringbuffer_status.
    destruct (Bool.eqb _ _), (read_index rb =? write_index rb) eqn:?; zify_bool;
      split; intros; try done; lia. }
  destruct rb as [buf rm r wm w sz]; simpl in *.
  set (d := rt_ringbuffer_data_len _) in *. clearbody d.
  unfold advance_write, advance_read, blit; simpl.
  rewrite decide_bool_decide. case_bool_decide; destruct rm, wm; simpl in *; try lia;
    repeat match goal with
    | |- context [if ?a >? ?b then _ else _] => destruct (a >? b) eqn:?
    | |- context [if ?a =? ?b then _ else _] => destruct (a =? b) eqn:?
    end; zify_bool; try lia; unwrap; f_equal; f_equal; try done; try lia.
  all: by replace (sz - w) with 1 by lia.
Qed.

(** ** Theorems *)

Lemma init_wf pool size : 8 <= size < 2 ^ 15 -> size <= Z.of_nat (length pool) ->
  wf (rt_ringbuffer_init pool size) /\ contents (rt_ringbuffer_init pool size) = [].
Proof.
  intros Hs Hp. unfold rt_ringbuffer_init. rewrite RT_ALIGN_DOWN_spec by lia.
  rewrite swrap_small by (change (2 ^ (16 - 1)) with (2 ^ 15); zdiv).
  split; [|done]. unfold wf; simpl. zdiv.
Qed.

Lemma reset_wf rb : wf rb -> wf (rt_ringbuffer_reset rb) /\ contents (rt_ringbuffer_reset rb) = [].
Proof. intros (?&?&?&?&_). split; [unfold wf; simpl; lia|done]. Qed.

Lemma put_wf rb ptr len n rb' : wf rb -> 0 <= len <= Z.of_nat (length ptr) ->
  rt_ringbuffer_put rb ptr len = (n, rb') ->
  wf rb' /\ buffer_size rb' = buffer_size rb /\
  n = Z.min len (rt_ringbuffer_space_len rb) /\
  contents rb' = contents rb ++ take (Z.to_nat n) ptr.
Proof.
  intros W Hlen Hput. pose proof (data_len_bounds _ W) as Hd.
  destruct (decide (rt_ringbuffer_space_len rb = 0)) as [E|E].
  - revert Hput. unfold rt_ringbuffer_put. rewrite E. intros [= <- <-].
    rewrite app_nil_r. split_and!; try done. lia.
  - rewrite put_advance in Hput by (done || lia). simplify_eq.
    unfold rt_ringbuffer_space_len in *.
    split_and!; [eapply advance_write_wf; [done|]|apply advance_write_size|done|
                 apply advance_write_contents; [done| |lia]];
      unfold rt_ringbuffer_space_len; lia.
Qed.

Lemma get_wf rb len n out rb' : wf rb -> 0 <= len ->
  rt_ringbuffer_get rb len = (n, out, rb') ->
  wf rb' /\ buffer_size rb' = buffer_size rb /\
  n = Z.min len (rt_ringbuffer_data_len rb) /\
  out = take (Z.to_nat n) (contents rb) /\ contents rb' = drop (Z.to_nat n) (contents rb).
Proof.
  intros W Hlen Hget. pose proof (data_len_bounds _ W) as Hd.
  destruct (decide (rt_ringbuffer_data_len rb = 0)) as [E|E].
  - revert Hget. unfold rt_ringbuffer_get. rewrite E. intros [= <- <- <-].
    split_and!; try done. lia.
  - destruct (get_advance rb len W Hlen E) as (out' & Hg & Ho). rewrite Hg in Hget. simplify_eq.
    split_and!; try done; [apply advance_read_wf|apply advance_read_contents]; done || lia.
Qed.

#[export] Instance ring_fifo : BoundedFifo rt_ringbuffer := {
  fifo_ok := wf;
  fifo_contents := contents;
  fifo_capacity := buffer_size;
  fifo_put rb bs := rt_ringbuffer_put rb bs (Z.of_nat (length bs));
  fifo_get rb n := let '(_, out, rb') := rt_ringbuffer_get rb n in (out, rb')
}.

#[export] Instance ring_fifo_laws : BoundedFifoLaws rt_ringbuffer.
Proof.
  split; simpl.
  - intros rb W. rewrite length_contents by done. by apply data_len_bounds.
  - intros rb bs n rb' W _ Hput. rewrite length_contents by done.
    apply put_wf in Hput as (?&?&?&?); [done|done|lia].
  - intros rb n out rb' W Hn Hget.
    destruct (rt_ringbuffer_get rb n) as [[m out'] rb''] eqn:E. simplify_eq.
    apply get_wf in E as (?&?&Hm&->&Hc); [|done|lia].
    pose proof (length_contents _ W) as Hl. rewrite Hc.
    destruct (decide (n <= rt_ringbuffer_data_len rb)).
    + by replace m with n by lia.
    + rewrite !take_ge, !drop_ge by lia. done.
Qed.

(** [rt_ringbuffer_put] appends the first [min length space] bytes of its
    argument to the queue, returns that count and keeps the buffer well formed,
    on every branch (full buffer, straight copy, wrapped copy). *)
Theorem rt_ringbuffer_put_correct rb ptr len n rb' :
  wf rb -> 0 <= len <= Z.of_nat (length ptr) ->
  rt_ringbuffer_put rb ptr len = (n, rb') ->
  wf rb' /\ buffer_size rb' = buffer_size rb /\
  n = Z.min len (rt_ringbuffer_space_len rb) /\
  contents rb' = contents rb ++ take (Z.to_nat n) ptr.
Proof. apply put_wf. Qed.

(** C29: any client that offers bytes with [rt_ringbuffer_put] and requests them
    with [rt_ringbuffer_get], in any order, receives exactly the accepted bytes,
    in order: what it receives followed by what is still queued is what was
    queued followed by what was accepted. *)
Theorem rt_ringbuffer_stream ops rb acc del rb' :
  wf rb -> Forall op_ok ops -> run rb ops = (acc, del, rb') ->
  wf rb' /\ del ++ contents rb' = contents rb ++ acc.
Proof. intros W Ho Hr. apply run_stream in Hr as (?&_&?); done. Qed.

(** The bytes [put_force] should leave in the queue: the newest ones that fit. *)
Definition newest (rb : rt_ringbuffer) (bs : list Z) : list Z :=
  let all := contents rb ++ bs in drop (length all - Z.to_nat (buffer_size rb)) all.

(** [rt_ringbuffer_put_force] keeps the newest [buffer_size] bytes of the old
    contents followed by its argument, whenever the bytes fit or the write side
    is in the other mirror than the read side. *)
Theorem rt_ringbuffer_put_force_newest rb ptr n rb' :
  wf rb ->
  rt_ringbuffer_data_len rb + Z.of_nat (length ptr) <= buffer_size rb \/
  read_mirror rb <> write_mirror rb ->
  rt_ringbuffer_put_force rb ptr (Z.of_nat (length ptr)) = (n, rb') ->
  wf rb' /\ n = Z.min (Z.of_nat (length ptr)) (buffer_size rb) /\ contents rb' = newest rb ptr.
Proof.
  intros W Hc Hput. pose proof (data_len_bounds _ W). pose proof W as (?&?&_).
  rewrite put_force_advance in Hput by (done || lia || (destruct Hc; [left; lia|by right])).
  revert Hput. set (n' := Z.min _ _). set (over := rt_ringbuffer_data_len rb + n' - _).
  intros [= <- <-].
  destruct (advance_read_wf rb (Z.max 0 over) W) as [Wr Hr]; [lia|].
  assert (n' <= rt_ringbuffer_space_len (advance_read rb (Z.max 0 over))).
  { unfold rt_ringbuffer_space_len. rewrite Hr. simpl. lia. }
  destruct (advance_write_wf _ (drop (Z.to_nat (Z.of_nat (length ptr) - n')) ptr) n' Wr) as [Ww _]; [lia|].
  split_and!; [done..|].
  rewrite advance_write_contents by (done || (list_len; lia)).
  rewrite advance_read_contents by (done || lia). unfold newest.
  pose proof (length_contents _ W) as Hl. subst n' over. by_index.
Qed.

(** when the two sides are in the same mirror and the bytes do not fit,
    [rt_ringbuffer_put_force] flips both mirrors: the buffer it leaves reports
    itself empty although [length] bytes were written. *)
Theorem rt_ringbuffer_put_force_loses rb ptr :
  wf rb -> read_mirror rb = write_mirror rb ->
  buffer_size rb < rt_ringbuffer_data_len rb + Z.min (Z.of_nat (length ptr)) (buffer_size rb) ->
  rt_ringbuffer_data_len (rt_ringbuffer_put_force rb ptr (Z.of_nat (length ptr))).2 = 0 /\
  contents (rt_ringbuffer_put_force rb ptr (Z.of_nat (length ptr))).2 = [].
Proof.
  intros W Hm Hover. pose proof (data_len_bounds _ W). pose proof W as (?&?&?&?&Hmir).
  rewrite data_len_eq in Hover by done. pose proof (data_len_eq _ W) as Hd.
  rewrite Hm, eqb_reflx in Hover, Hmir, Hd.
  assert (rt_ringbuffer_data_len (rt_ringbuffer_put_force rb ptr (Z.of_nat (length ptr))).2 = 0) as E.
  2:{ split; [done|]. unfold contents. by rewrite E. }
  unfold rt_ringbuffer_put_force, rt_ringbuffer_space_len.
  destruct (Z.of_nat (length ptr) >? _) eqn:?; zify_bool; unwrap;
  (destruct (buffer_size rb - write_index rb >? _) eqn:?; zify_bool; [lia|]); simpl;
  (destruct (_ >? buffer_size rb - _) eqn:?; zify_bool; [|lia]);
  unfold rt_ringbuffer_data_len, rt_ringbuffer_status; simpl;
  by rewrite Z.eqb_refl, Hm, eqb_reflx.
Qed.

(** ** Witnesses *)

Definition ring8 : rt_ringbuffer := rt_ringbuffer_init (replicate 8 0) 8.
Definition ring8_used : rt_ringbuffer := (rt_ringbuffer_put ring8 [1; 2; 3; 4] 4).2.

Lemma rt_ringbuffer_put_correct_witness :
  contents (rt_ringbuffer_put ring8_used [5; 6; 7; 8; 9; 10] 6).2 = [1; 2; 3; 4; 5; 6; 7; 8].
Proof.
  refine (eq_trans (proj2 (proj2 (proj2 (rt_ringbuffer_put_correct ring8_used [5; 6; 7; 8; 9; 10] 6 4
    _ _ _ eq_refl)))) _); [unfold wf; vm_compute; intuition discriminate|simpl; lia|reflexivity].
Defined.

Lemma rt_ringbuffer_stream_witness :
  [1; 2; 3] ++ contents (run ring8 [Offer [1; 2; 3; 4]; Request 3; Offer [5]]).2 = [1; 2; 3; 4; 5].
Proof.
  refine (proj2 (rt_ringbuffer_stream [Offer [1; 2; 3; 4]; Request 3; Offer [5]] ring8
    [1; 2; 3; 4; 5] [1; 2; 3] _ _ _ eq_refl)).
  - unfold wf; vm_compute; intuition discriminate.
  - repeat constructor; simpl; lia.
Defined.

Lemma rt_ringbuffer_put_force_newest_witness :
  contents (rt_ringbuffer_put_force ring8_used [5; 6; 7; 8] 4).2 = newest ring8_used [5; 6; 7; 8].
Proof.
  refine (proj2 (proj2 (rt_ringbuffer_put_force_newest ring8_used [5; 6; 7; 8] 4 _ _ _ eq_refl))).
  - unfold wf; vm_compute; intuition discriminate.
  - left. vm_compute. discriminate.
Defined.

Lemma rt_ringbuffer_put_force_loses_witness :
  contents (rt_ringbuffer_put_force ring8_used [5; 6; 7; 8; 9] 5).2 = [].
Proof.
  refine (proj2 (rt_ringbuffer_put_force_loses ring8_used [5; 6; 7; 8; 9] _ eq_refl _)).
  - unfold wf; vm_compute; intuition discriminate.
  - vm_compute. reflexivity.
Defined.
