(* ===== verification/RingBlk.v ===== *)
(** * The block ring buffer: drivers/ipc/ringblk_buf.c

    Blocks of any size in one buffer, taken and given back in about the order of
    a ring.  A block is an index into [blk_set]; the list of blocks is the
    sequence of their indices, oldest first (RtList shows that the pointer code
    computes sequences, and that a removed node still leads on to its successor). *)

From S2P Require Import Prelude.

(** ** Data: include/drivers/ipc/ringblk_buf.h *)

Inductive rt_rbb_status := RT_RBB_BLK_UNUSED | RT_RBB_BLK_INITED | RT_RBB_BLK_PUT | RT_RBB_BLK_GET.

#[export] Instance rt_rbb_status_eq_dec : EqDecision rt_rbb_status.
Proof. solve_decision. Defined.

(** [size] has 24 bits, [buf] is an address. *)
Record rt_rbb_blk := mk_blk { status : rt_rbb_status; size : Z; buf : Z }.
Record rt_rbb := mk_rbb { rbb_buf : Z; buf_size : Z; blk_set : list rt_rbb_blk; blk_list : list nat }.
Record rt_rbb_blk_queue := mk_queue { blocks : option nat; blk_num : Z }.

Definition blk_max_num (r : rt_rbb) : nat := length (blk_set r).

(** What an uninitialised structure or one outside the array holds. *)
Definition no_blk : rt_rbb_blk := mk_blk RT_RBB_BLK_UNUSED 0 0.
Definition blk (r : rt_rbb) (b : nat) : rt_rbb_blk := nth b (blk_set r) no_blk.

Definition set_list (l : list nat) (r : rt_rbb) : rt_rbb := mk_rbb (rbb_buf r) (buf_size r) (blk_set r) l.
Definition set_blk (b : nat) (x : rt_rbb_blk) (r : rt_rbb) : rt_rbb :=
  mk_rbb (rbb_buf r) (buf_size r) (<[b := x]> (blk_set r)) (blk_list r).
Definition set_status (b : nat) (s : rt_rbb_status) (r : rt_rbb) : rt_rbb :=
  set_blk b (mk_blk s (size (blk r b)) (buf (blk r b))) r.

(** ** Operations *)

(** [block_set] is the array as it is found. *)
Definition rt_rbb_init (buffer bytes : Z) (block_set : list rt_rbb_blk) : rt_rbb :=
  mk_rbb buffer bytes ((fun x => mk_blk RT_RBB_BLK_UNUSED (size x) (buf x)) <$> block_set) [].

Fixpoint find_loop (set : list rt_rbb_blk) (i : nat) : option nat :=
  match set with
  | [] => None
  | x :: set => if decide (status x = RT_RBB_BLK_UNUSED) then Some i else find_loop set (S i)
  end.
Definition find_empty_blk_in_set (r : rt_rbb) : option nat := find_loop (blk_set r) 0.

(** Append the block and fill it in. *)
Definition take_blk (new : nat) (at_ blk_size : Z) (r : rt_rbb) : rt_rbb :=
  set_blk new (mk_blk RT_RBB_BLK_INITED (wrap 24 blk_size) at_) (set_list (blk_list r ++ [new]) r).

Definition rt_rbb_blk_alloc (r : rt_rbb) (blk_size : Z) : option nat * rt_rbb :=
  match find_empty_blk_in_set r with
  | None => (None, r)
  | Some new =>
      if (length (blk_list r) <? blk_max_num r)%nat then
        match head (blk_list r), last (blk_list r) with
        | Some h, Some t =>
            let head := blk r h in
            let tail := blk r t in
            if buf head <=? buf tail then
              let empty1 := u32 (u32 (rbb_buf r + buf_size r) - u32 (buf tail + size tail)) in
              let empty2 := u32 (buf head - rbb_buf r) in
              if empty1 >=? blk_size then (Some new, take_blk new (u32 (buf tail + size tail)) blk_size r)
              else if empty2 >=? blk_size then (Some new, take_blk new (rbb_buf r) blk_size r)
              else (None, r)
            else
              let empty1 := u32 (buf head - u32 (buf tail + size tail)) in
              if empty1 >=? blk_size then (Some new, take_blk new (u32 (buf tail + size tail)) blk_size r)
              else (None, r)
        | _, _ => (Some new, take_blk new (rbb_buf r) blk_size r)
        end
      else (None, r)
  end.

Definition rt_rbb_blk_put (b : nat) (r : rt_rbb) : rt_rbb := set_status b RT_RBB_BLK_PUT r.

(** The walk over the list. *)
Fixpoint get_loop (l : list nat) (r : rt_rbb) : option nat * rt_rbb :=
  match l with
  | [] => (None, r)
  | b :: l =>
      if decide (status (blk r b) = RT_RBB_BLK_PUT) then (Some b, set_status b RT_RBB_BLK_GET r)
      else get_loop l r
  end.
Definition rt_rbb_blk_get (r : rt_rbb) : option nat * rt_rbb := get_loop (blk_list r) r.

Definition rt_rbb_blk_size (r : rt_rbb) (b : nat) : Z := size (blk r b).
Definition rt_rbb_blk_buf (r : rt_rbb) (b : nat) : Z := buf (blk r b).

(** [rt_slist_remove]: the first node that is [b]. *)
Fixpoint slist_remove (b : nat) (l : list nat) : list nat :=
  match l with
  | [] => []
  | x :: l => if decide (x = b) then l else x :: slist_remove b l
  end.

Definition rt_rbb_blk_free (r : rt_rbb) (b : nat) : rt_rbb :=
  set_status b RT_RBB_BLK_UNUSED (set_list (slist_remove b (blk_list r)) r).

(** From a node on: [last_block] is [None] until the first block that is put. *)
Fixpoint queue_get_loop (l : list nat) (queue_data_len : Z) (last_block : option nat) (total : Z)
    (q : rt_rbb_blk_queue) (r : rt_rbb) : Z * rt_rbb_blk_queue * rt_rbb :=
  match l with
  | [] => (total, q, r)
  | b :: l =>
      let take q :=
        let r' := set_status b RT_RBB_BLK_GET (set_list (slist_remove b (blk_list r)) r) in
        queue_get_loop l queue_data_len (Some b) (u32 (total + size (blk r b)))
          (mk_queue (blocks q) (u32 (blk_num q + 1))) r' in
      match last_block with
      | None =>
          if decide (status (blk r b) = RT_RBB_BLK_PUT) then take (mk_queue (Some b) 0)
          else queue_get_loop l queue_data_len None total q r
      | Some last =>
          if negb (bool_decide (status (blk r b) = RT_RBB_BLK_PUT)) || (buf (blk r last) >? buf (blk r b)) ||
             (u32 (total + size (blk r b)) >? queue_data_len)
          then (total, q, r)
          else take q
      end
  end.
Definition rt_rbb_blk_queue_get (r : rt_rbb) (queue_data_len : Z) (q : rt_rbb_blk_queue) :
    Z * rt_rbb_blk_queue * rt_rbb :=
  queue_get_loop (blk_list r) queue_data_len None 0 q r.

(** [blocks[i]] for every [i] below [blk_num]: entries of the array. *)
Definition queue_blocks (q : rt_rbb_blk_queue) : list nat :=
  match blocks q with Some b => seq b (Z.to_nat (blk_num q)) | None => [] end.

Definition rt_rbb_blk_queue_len (r : rt_rbb) (q : rt_rbb_blk_queue) : Z :=
  foldl (fun total b => u32 (total + size (blk r b))) 0 (queue_blocks q).
Definition rt_rbb_blk_queue_buf (r : rt_rbb) (q : rt_rbb_blk_queue) : option Z :=
  match blocks q with Some b => Some (buf (blk r b)) | None => None end.
Definition rt_rbb_blk_queue_free (r : rt_rbb) (q : rt_rbb_blk_queue) : rt_rbb :=
  foldl rt_rbb_blk_free r (queue_blocks q).

Fixpoint next_len_loop (l : list nat) (last_block : option nat) (total : Z) (r : rt_rbb) : Z :=
  match l with
  | [] => total
  | b :: l =>
      match last_block with
      | None =>
          if decide (status (blk r b) = RT_RBB_BLK_PUT) then next_len_loop l (Some b) (u32 (total + size (blk r b))) r
          else next_len_loop l None total r
      | Some last =>
          if negb (bool_decide (status (blk r b) = RT_RBB_BLK_PUT)) || (buf (blk r last) >? buf (blk r b)) then total
          else next_len_loop l (Some b) (u32 (total + size (blk r b))) r
      end
  end.
Definition rt_rbb_next_blk_queue_len (r : rt_rbb) : Z := next_len_loop (blk_list r) None 0 r.

Definition rt_rbb_get_buf_size (r : rt_rbb) : Z := buf_size r.

(** What the three allocations return: the structure, the buffer, the array. *)
Definition rt_rbb_create (rbb : option Z) (buffer : option Z) (set : option (list rt_rbb_blk)) (bytes : Z) : option rt_rbb :=
  match rbb, buffer, set with
  | Some _, Some buffer, Some set => Some (rt_rbb_init buffer bytes set)
  | _, _, _ => None
  end.

(** ** Blocks in a ring *)

Section ascending.
Variable r : rt_rbb.

(** The blocks of [l] lie one after the other between two addresses. *)
Fixpoint ascending (lo hi : Z) (l : list nat) : Prop :=
  match l with
  | [] => lo <= hi
  | b :: l => lo <= buf (blk r b) /\ 0 < size (blk r b) /\ ascending (buf (blk r b) + size (blk r b)) hi l
  end.

Lemma ascending_le lo hi l : ascending lo hi l -> lo <= hi.
Proof. revert lo. induction l as [|b l IH]; intros lo; [done|]. intros (? & ? & H). apply IH in H. lia. Qed.

Lemma ascending_weaken lo lo' hi hi' l : lo' <= lo -> hi <= hi' -> ascending lo hi l -> ascending lo' hi' l.
Proof.
  revert lo lo'. induction l as [|b l IH]; intros lo lo' Hlo Hhi; simpl; [lia|]. intros (? & ? & H).
  split_and!; [lia|done|]. by apply (IH (buf (blk r b) + size (blk r b))); [lia|..].
Qed.

Lemma ascending_snoc lo hi l b : ascending lo (buf (blk r b)) l -> 0 < size (blk r b) ->
  buf (blk r b) + size (blk r b) <= hi -> ascending lo hi (l ++ [b]).
Proof.
  revert lo. induction l as [|c l IH]; intros lo; simpl; [lia|]. intros (? & ? & H) Hs Hh. split_and!; [done|done|].
  by apply IH.
Qed.

(** The range of the first block and of the last. *)
Lemma ascending_head lo hi b l : ascending lo hi (b :: l) -> ascending (buf (blk r b)) hi (b :: l).
Proof. intros (? & ? & ?). by split_and!. Qed.

Lemma ascending_last lo hi l t : last l = Some t -> ascending lo hi l ->
  lo <= buf (blk r t) /\ 0 < size (blk r t) /\ buf (blk r t) + size (blk r t) <= hi /\
  ascending lo (buf (blk r t) + size (blk r t)) l.
Proof.
  revert lo. induction l as [|b l IH]; intros lo; [done|]. destruct l as [|c l].
  - simpl. intros [= ->] (? & ? & ?). split_and!; try done; lia.
  - intros Hl (Hlo & Hs & H). rewrite last_cons_cons in Hl. destruct (IH _ Hl H) as (? & ? & ? & ?).
    split_and!; try done; lia.
Qed.

Lemma ascending_in lo hi l b : b ∈ l -> ascending lo hi l ->
  lo <= buf (blk r b) /\ 0 < size (blk r b) /\ buf (blk r b) + size (blk r b) <= hi.
Proof.
  revert lo. induction l as [|c l IH]; intros lo Hin; [by apply not_elem_of_nil in Hin|].
  intros (? & ? & H). apply elem_of_cons in Hin as [->|Hin].
  - apply ascending_le in H. lia.
  - destruct (IH _ Hin H). lia.
Qed.

Lemma ascending_remove lo hi l b : ascending lo hi l -> ascending lo hi (slist_remove b l).
Proof.
  revert lo. induction l as [|c l IH]; intros lo; simpl; [done|]. intros (? & ? & H). case_decide.
  - apply (ascending_weaken (buf (blk r c) + size (blk r c)) _ hi); [lia|lia|done].
  - split_and!; [done|done|by apply IH].
Qed.

Lemma ascending_disjoint lo hi l b c : b ∈ l -> c ∈ l -> b <> c -> ascending lo hi l ->
  buf (blk r b) + size (blk r b) <= buf (blk r c) \/ buf (blk r c) + size (blk r c) <= buf (blk r b).
Proof.
  revert lo. induction l as [|d l IH]; intros lo Hb Hc Hne; [by apply not_elem_of_nil in Hb|].
  intros (? & ? & H). apply elem_of_cons in Hb as [Eb|Hb]; apply elem_of_cons in Hc as [Ec|Hc]; subst; [done|..].
  - left. by apply (ascending_in _ _ _ _ Hc) in H as (? & ?).
  - right. by apply (ascending_in _ _ _ _ Hb) in H as (? & ?).
  - by eapply IH.
Qed.
End ascending.

(** Blocks other than the ones of the list do not matter. *)
Lemma ascending_ext r r' lo hi l : (forall b, b ∈ l -> buf (blk r' b) = buf (blk r b) /\ size (blk r' b) = size (blk r b)) ->
  ascending r lo hi l -> ascending r' lo hi l.
Proof.
  revert lo. induction l as [|b l IH]; intros lo Heq; simpl; [done|].
  destruct (Heq b) as [-> ->]; [by left|]. intros (? & ? & ?). split_and!; [done|done|].
  apply IH; [|done]. intros c Hc. apply Heq. by right.
Qed.

(** The list: blocks up to the end of the buffer, then blocks from its start, all
    below the first one. *)
Definition in_ring (r : rt_rbb) : Prop := exists l1 l2 mid, blk_list r = l1 ++ l2 /\ (l1 = [] -> l2 = []) /\
  rbb_buf r <= mid /\ ascending r mid (rbb_buf r + buf_size r) l1 /\ ascending r (rbb_buf r) mid l2.

Record rbb_ok (r : rt_rbb) : Prop := {
  ro_buffer : 0 <= rbb_buf r /\ 0 <= buf_size r /\ rbb_buf r + buf_size r < 2 ^ 32;
  ro_nodup : NoDup (blk_list r);
  ro_listed : forall b, b ∈ blk_list r -> (b < blk_max_num r)%nat /\ status (blk r b) <> RT_RBB_BLK_UNUSED;
  ro_ring : in_ring r
}.

Lemma blk_set_blk r b c x : (b < blk_max_num r)%nat -> blk (set_blk b x r) c = if decide (c = b) then x else blk r c.
Proof.
  intros Hb. unfold blk, set_blk, blk_max_num in *. cbn [blk_set]. rewrite !nth_lookup.
  case_decide as E; [subst; by rewrite list_lookup_insert_eq by done|by rewrite list_lookup_insert_ne by done].
Qed.

Lemma find_loop_spec set i n : find_loop set i = Some n -> (i <= n < i + length set)%nat /\
  status (nth (n - i) set no_blk) = RT_RBB_BLK_UNUSED.
Proof.
  revert i. induction set as [|x set IH]; intros i; [done|]. simpl. case_decide as E.
  - intros [= <-]. rewrite Nat.sub_diag. split; [lia|done].
  - intros H. destruct (IH _ H) as [Hn Hs]. split; [lia|]. replace (n - i)%nat with (S (n - S i)) by lia. done.
Qed.

Lemma find_empty_spec r n : find_empty_blk_in_set r = Some n ->
  (n < blk_max_num r)%nat /\ status (blk r n) = RT_RBB_BLK_UNUSED.
Proof. intros H. apply find_loop_spec in H as [Hn Hs]. rewrite Nat.sub_0_r in Hs. unfold blk_max_num. split; [lia|done]. Qed.

(** Changing the status of a block to one in use, or of one that is not listed. *)
Lemma set_status_ok r b s : rbb_ok r -> (b < blk_max_num r)%nat -> s <> RT_RBB_BLK_UNUSED \/ b ∉ blk_list r ->
  rbb_ok (set_status b s r).
Proof.
  intros [Hbuf Hnd Hl (l1 & l2 & mid & El & H0 & Hm & H1 & H2)] Hb Hs.
  assert (Heq : forall c, buf (blk (set_status b s r) c) = buf (blk r c) /\ size (blk (set_status b s r) c) = size (blk r c)).
  { intros c. unfold set_status. rewrite blk_set_blk by done. by case_decide; subst. }
  split; try done.
  - intros c Hc. destruct (Hl c Hc) as [Hlt Hne]. split.
    + unfold blk_max_num, set_status, set_blk. simpl. by rewrite length_insert.
    + unfold set_status. rewrite blk_set_blk by done. case_decide; [|done]. subst. by destruct Hs.
  - exists l1, l2, mid. split_and!; try done; (eapply ascending_ext; [|done]); intros; apply Heq.
Qed.

Lemma slist_remove_filter b l : NoDup l -> forall c, c ∈ slist_remove b l <-> c ∈ l /\ c <> b.
Proof.
  induction 1 as [|x l Hx Hl IH]; intros c; simpl; [set_solver|]. case_decide as E; [|set_solver].
  subst. set_solver.
Qed.

Lemma slist_remove_nodup b l : NoDup l -> NoDup (slist_remove b l).
Proof.
  intros H. induction H as [|x l Hx Hl IH]; simpl; [constructor|]. case_decide; [done|]. constructor; [|done].
  rewrite slist_remove_filter by done. naive_solver.
Qed.

Lemma slist_remove_app b l1 l2 : exists k1 k2, slist_remove b (l1 ++ l2) = k1 ++ k2 /\
  (k1 = l1 \/ k1 = slist_remove b l1) /\ (k2 = l2 \/ k2 = slist_remove b l2).
Proof.
  induction l1 as [|x l1 IH]; simpl.
  - exists [], (slist_remove b l2). split_and!; [done|by left|by right].
  - case_decide as E.
    + exists l1, l2. split_and!; [done|by right|by left].
    + destruct IH as (k1 & k2 & -> & H1 & H2). exists (x :: k1), k2. split_and!; [done| |done].
      destruct H1 as [->| ->]; [by left|by right].
Qed.

(** Taking a node out of the list. *)
Lemma blk_remove_ok r b : rbb_ok r -> rbb_ok (set_list (slist_remove b (blk_list r)) r).
Proof.
  intros [Hbuf Hnd Hl (l1 & l2 & mid & El & H0 & Hm & H1 & H2)]. split; try done.
  - by apply slist_remove_nodup.
  - intros c Hc. apply slist_remove_filter in Hc as [Hc _]; [|done]. by apply Hl.
  - destruct (slist_remove_app b l1 l2) as (k1 & k2 & Ek & E1 & E2).
    assert (H1' : ascending r mid (rbb_buf r + buf_size r) k1) by (destruct E1 as [->| ->]; [done|by apply ascending_remove]).
    assert (H2' : ascending r (rbb_buf r) mid k2) by (destruct E2 as [->| ->]; [done|by apply ascending_remove]).
    unfold in_ring. cbn [blk_list set_list rbb_buf buf_size]. rewrite El, Ek. destruct k1 as [|x k1].
    + exists k2, [], (rbb_buf r). rewrite app_nil_r. split_and!; [done|done|lia| |simpl; lia].
      apply (ascending_ext r); [done|]. apply ascending_le in H1'. by apply (ascending_weaken r (rbb_buf r) _ mid); [lia|..].
    + exists (x :: k1), k2, mid. split_and!; try done; by apply (ascending_ext r).
Qed.

Lemma rt_rbb_blk_free_ok r b : rbb_ok r -> (b < blk_max_num r)%nat -> rbb_ok (rt_rbb_blk_free r b).
Proof.
  intros Hr Hb. apply set_status_ok; [by apply blk_remove_ok|done|]. right. cbn [blk_list set_list].
  rewrite slist_remove_filter by apply Hr. naive_solver.
Qed.

(** ** Allocation *)

Definition bound (r : rt_rbb) : Z := rbb_buf r + buf_size r.
Definition blk_end (r : rt_rbb) (b : nat) : Z := buf (blk r b) + size (blk r b).

(** A refusal: no free entry, or not enough room between the newest block and
    the oldest, going round. *)
Definition refused (r : rt_rbb) (n : Z) : Prop :=
  (forall b, (b < blk_max_num r)%nat -> status (blk r b) <> RT_RBB_BLK_UNUSED) \/
  exists h t, head (blk_list r) = Some h /\ last (blk_list r) = Some t /\
    if buf (blk r h) <=? buf (blk r t)
    then bound r - blk_end r t < n /\ buf (blk r h) - rbb_buf r < n
    else buf (blk r h) - blk_end r t < n.

(** The new block: a free entry, behind the others in the list. *)
Definition allocated (r : rt_rbb) (n : Z) (b : nat) (r' : rt_rbb) : Prop :=
  status (blk r b) = RT_RBB_BLK_UNUSED /\ (b < blk_max_num r)%nat /\ blk_list r' = blk_list r ++ [b] /\
  (exists a, blk r' b = mk_blk RT_RBB_BLK_INITED n a) /\ (forall c, c <> b -> blk r' c = blk r c) /\
  rbb_buf r' = rbb_buf r /\ buf_size r' = buf_size r /\ blk_max_num r' = blk_max_num r.

Lemma take_blk_allocated r n b a : 0 < n < 2 ^ 24 -> status (blk r b) = RT_RBB_BLK_UNUSED -> (b < blk_max_num r)%nat ->
  allocated r n b (take_blk b a n r) /\ buf (blk (take_blk b a n r) b) = a.
Proof.
  intros Hn Hs Hb.
  assert (Hblk : forall c, blk (take_blk b a n r) c = if decide (c = b) then mk_blk RT_RBB_BLK_INITED (wrap 24 n) a else blk r c).
  { intros c. unfold take_blk. by rewrite blk_set_blk. }
  rewrite wrap_small in Hblk by lia. unfold allocated. rewrite Hblk, decide_True by done. split; [|done].
  split_and!; try done.
  - by exists a.
  - intros c Hc. by rewrite Hblk, decide_False.
  - unfold blk_max_num, take_blk, set_blk. simpl. apply length_insert.
Qed.

(** It fits where it is put: between the old segments or behind them. *)
Lemma allocated_ok r n b r' : rbb_ok r -> 0 < n -> allocated r n b r' ->
  (exists l1 l2 mid, blk_list r' = l1 ++ l2 /\ (l1 = [] -> l2 = []) /\ rbb_buf r <= mid /\
     ascending r' mid (bound r) l1 /\ ascending r' (rbb_buf r) mid l2) -> rbb_ok r'.
Proof.
  intros [Hbuf Hnd Hl Hring] Hn (Hs & Hb & El & (a & Ea) & Hsame & E1 & E2 & E3) H.
  assert (Hnew : b ∉ blk_list r) by (intros Hin; by apply Hl in Hin as [_ ?]).
  split.
  - by rewrite E1, E2.
  - rewrite El. apply NoDup_app. split_and!; [done| |apply NoDup_singleton]. set_solver.
  - intros c. rewrite El, E3, elem_of_app, list_elem_of_singleton. intros [Hc| ->].
    + rewrite Hsame by (by intros ->). by apply Hl.
    + by rewrite Ea.
  - unfold in_ring. rewrite E1, E2. exact H.
Qed.

Lemma last_app_some {A} (l1 l2 : list A) x : last (l1 ++ l2) = Some x -> l2 <> [] -> last l2 = Some x.
Proof. intros H Hne. rewrite last_app in H. destruct l2; [done|]. destruct (last (a :: l2)) eqn:E; [done|]. by apply last_None in E. Qed.

Lemma find_loop_none set i : find_loop set i = None -> forall b, (b < length set)%nat -> status (nth b set no_blk) <> RT_RBB_BLK_UNUSED.
Proof.
  revert i. induction set as [|x set IH]; intros i; simpl; [lia|]. case_decide; [done|].
  intros H' [|b] Hb; [done|]. apply (IH (S i)); [done|lia].
Qed.

(** An unused entry is not listed, so the list is not full. *)
Lemma room_in_list r b : rbb_ok r -> (b < blk_max_num r)%nat -> status (blk r b) = RT_RBB_BLK_UNUSED ->
  (length (blk_list r) < blk_max_num r)%nat.
Proof.
  intros Hr Hb Hs. assert (Hn : NoDup (b :: blk_list r)).
  { constructor; [|apply Hr]. intros Hin. by apply (ro_listed r Hr) in Hin as [_ ?]. }
  assert (Hsub : b :: blk_list r ⊆+ seq 0 (blk_max_num r)).
  { apply NoDup_submseteq; [done|]. intros c Hc. apply elem_of_seq. apply elem_of_cons in Hc as [->|Hc]; [lia|].
    apply (ro_listed r Hr) in Hc as [? _]. lia. }
  apply submseteq_length in Hsub. rewrite length_seq in Hsub. simpl in Hsub. lia.
Qed.

Lemma take_ring r n b a l1 l2 mid : rbb_ok r -> 0 < n < 2 ^ 24 -> status (blk r b) = RT_RBB_BLK_UNUSED ->
  (b < blk_max_num r)%nat -> let r' := take_blk b a n r in
  ascending r mid (bound r) l1 -> ascending r (rbb_buf r) mid l2 ->
  (forall c, c ∈ l1 ++ l2 -> c ∈ blk_list r) ->
  ascending r' mid (bound r) l1 /\ ascending r' (rbb_buf r) mid l2 /\ size (blk r' b) = n /\ buf (blk r' b) = a.
Proof.
  intros Hr Hn Hs Hb r' H1 H2 Hin. destruct (take_blk_allocated r n b a Hn Hs Hb) as [(_ & _ & _ & (a' & Ea) & Hsame & _) Eb].
  fold r' in Ea, Hsame, Eb. split_and!; [| |by rewrite Ea|done].
  - apply (ascending_ext r); [|done]. intros c Hc. rewrite Hsame; [done|]. intros ->.
    assert (b ∈ blk_list r) as Hbl by (apply Hin, elem_of_app; by left). by apply (ro_listed r Hr) in Hbl as [_ ?].
  - apply (ascending_ext r); [|done]. intros c Hc. rewrite Hsame; [done|]. intros ->.
    assert (b ∈ blk_list r) as Hbl by (apply Hin, elem_of_app; by right). by apply (ro_listed r Hr) in Hbl as [_ ?].
Qed.

Lemma rt_rbb_blk_alloc_spec r n : rbb_ok r -> 0 < n < 2 ^ 24 -> n <= buf_size r \/ blk_list r <> [] ->
  match rt_rbb_blk_alloc r n with
  | (Some b, r') => allocated r n b r' /\ rbb_ok r'
  | (None, r') => r' = r /\ refused r n
  end.
Proof.
  intros Hr Hn Hfit. unfold rt_rbb_blk_alloc. destruct (find_empty_blk_in_set r) as [b|] eqn:Ef.
  2:{ split; [done|]. left. by apply find_loop_none with 0%nat. }
  apply find_empty_spec in Ef as [Hb Hs]. rewrite (proj2 (Nat.ltb_lt _ _)) by (by eapply room_in_list).
  pose proof (ro_buffer r Hr) as (Hb0 & Hb1 & Hb2).
  destruct (ro_ring r Hr) as (l1 & l2 & mid & El & H0 & Hm & H1 & H2). fold (bound r) in H1.
  assert (Hplace : forall a k1 k2 mid', blk_list r ++ [b] = k1 ++ k2 -> (k1 = [] -> k2 = []) -> rbb_buf r <= mid' ->
    ascending (take_blk b a n r) mid' (bound r) k1 -> ascending (take_blk b a n r) (rbb_buf r) mid' k2 ->
    allocated r n b (take_blk b a n r) /\ rbb_ok (take_blk b a n r)).
  { intros a k1 k2 mid' Ek Hk Hmid A1 A2. destruct (take_blk_allocated r n b a Hn Hs Hb) as [Hal _]. split; [done|].
    apply (allocated_ok r n b); [done|lia|done|]. exists k1, k2, mid'. by split_and!. }
  assert (Hin : forall c, c ∈ l1 ++ l2 -> c ∈ blk_list r) by (intros; by rewrite El).
  destruct l1 as [|h l1].
  { rewrite (H0 eq_refl) in El. simpl in El. rewrite El. simpl. destruct Hfit as [Hfit|Hfit]; [|done].
    destruct (take_ring r n b (rbb_buf r) [] [] (rbb_buf r) Hr Hn Hs Hb) as (_ & _ & Es & Eb); [simpl; unfold bound; lia|simpl; lia|set_solver|].
    apply (Hplace _ [b] [] (rbb_buf r)); [by rewrite El|done|lia| |simpl; lia].
    simpl. rewrite Es, Eb. unfold bound. lia. }
  assert (Eh : head (blk_list r) = Some h) by (by rewrite El). rewrite Eh.
  destruct (last (blk_list r)) as [t|] eqn:Et; [|apply last_None in Et; by rewrite El in Et].
  unfold refused. rewrite El in Et. pose proof (ascending_head r _ _ _ _ H1) as H1h.
  assert (Hh : rbb_buf r <= buf (blk r h)) by (destruct H1; lia).
  destruct l2 as [|c l2].
  - rewrite app_nil_r in Et. destruct (ascending_last r _ _ _ _ Et H1h) as (Ht1 & Ht2 & Ht3 & Ht4).
    rewrite (proj2 (Z.leb_le _ _)) by lia. unfold bound in *.
    rewrite (wrap_small 32 (rbb_buf r + _)), (wrap_small 32 (buf (blk r t) + _)), !wrap_small by lia.
    rewrite !Z.geb_leb. destruct (Z.leb_spec n (rbb_buf r + buf_size r - (buf (blk r t) + size (blk r t)))) as [Hr1|Hr1].
    + destruct (take_ring r n b (buf (blk r t) + size (blk r t)) (h :: l1) [] mid Hr Hn Hs Hb H1 H2 Hin) as (A1 & A2 & Es & Eb).
      apply (Hplace _ ((h :: l1) ++ [b]) [] mid); [by rewrite El, !app_nil_r|done|done| |done].
      apply ascending_snoc; rewrite ?Es, ?Eb; [|lia|unfold bound; lia].
      destruct (ascending_last r _ _ _ _ Et H1) as (_ & _ & _ & H1t). eapply ascending_ext; [|exact H1t].
      intros x Hx. destruct (take_blk_allocated r n b (buf (blk r t) + size (blk r t)) Hn Hs Hb) as [(_ & _ & _ & _ & Hsame & _) _].
      rewrite Hsame; [done|]. intros ->. assert (b ∈ blk_list r) as Hbl by (rewrite El, app_nil_r; done).
      by apply (ro_listed r Hr) in Hbl as [_ ?].
    + destruct (Z.leb_spec n (buf (blk r h) - rbb_buf r)) as [Hr2|Hr2].
      * destruct (take_ring r n b (rbb_buf r) (h :: l1) [] (buf (blk r h)) Hr Hn Hs Hb H1h ltac:(simpl; lia) Hin) as (A1 & A2 & Es & Eb).
        apply (Hplace _ (h :: l1) [b] (buf (blk r h))); [by rewrite El, app_nil_r|done|lia|done|].
        simpl. rewrite Es, Eb. lia.
      * split; [done|]. right. exists h, t. rewrite Eh, El, app_nil_r, Et, (proj2 (Z.leb_le _ _)) by lia.
        split_and!; try done; unfold blk_end; lia.
  - apply last_app_some in Et as Et2; [|done]. destruct (ascending_last r _ _ _ _ Et2 H2) as (Ht1 & Ht2 & Ht3 & Ht4).
    assert (Hmh : mid <= buf (blk r h)) by apply H1.
    pose proof (ascending_in r _ _ _ h (list_elem_of_here _ _) H1) as Hhin. unfold bound in Hhin.
    rewrite (proj2 (Z.leb_gt _ _)) by lia.
    rewrite (wrap_small 32 (buf (blk r t) + _)), !wrap_small by lia. rewrite Z.geb_leb.
    destruct (Z.leb_spec n (buf (blk r h) - (buf (blk r t) + size (blk r t)))) as [Hr1|Hr1].
    + destruct (take_ring r n b (buf (blk r t) + size (blk r t)) (h :: l1) (c :: l2) (buf (blk r h)) Hr Hn Hs Hb H1h) as (A1 & A2 & Es & Eb);
        [by apply (ascending_weaken r (rbb_buf r) _ mid); [lia|lia|]|done|].
      apply (Hplace _ (h :: l1) ((c :: l2) ++ [b]) (buf (blk r h))); [by rewrite El, app_assoc|done|lia|done|].
      apply ascending_snoc; rewrite ?Es, ?Eb; [|lia|lia]. eapply ascending_ext; [|exact Ht4].
      intros x Hx. destruct (take_blk_allocated r n b (buf (blk r t) + size (blk r t)) Hn Hs Hb) as [(_ & _ & _ & _ & Hsame & _) _].
      rewrite Hsame; [done|]. intros ->. assert (b ∈ blk_list r) as Hbl by (rewrite El; apply elem_of_app; by right).
      by apply (ro_listed r Hr) in Hbl as [_ ?].
    + split; [done|]. right. exists h, t. rewrite Eh, El, Et, (proj2 (Z.leb_gt _ _)) by lia.
      split_and!; try done.
Qed.

(** ** Getting blocks *)

Lemma get_loop_spec l r : get_loop l r =
  match list_find (fun b => status (blk r b) = RT_RBB_BLK_PUT) l with
  | Some (_, b) => (Some b, set_status b RT_RBB_BLK_GET r)
  | None => (None, r)
  end.
Proof.
  induction l as [|b l IH]; [done|]. simpl. case_decide; [done|]. rewrite IH.
  by destruct (list_find _ l) as [[? ?]|].
Qed.

Lemma rt_rbb_blk_get_ok r : rbb_ok r -> rbb_ok (rt_rbb_blk_get r).2.
Proof.
  intros Hr. unfold rt_rbb_blk_get. rewrite get_loop_spec. destruct (list_find _ _) as [[i b]|] eqn:E; [|done].
  apply list_find_Some in E as (Hl & _). apply set_status_ok; [done| |by left].
  apply (ro_listed r Hr). by apply list_elem_of_lookup_2 with i.
Qed.

Lemma queue_get_ok len l last total q r : rbb_ok r -> (forall b, b ∈ l -> (b < blk_max_num r)%nat) ->
  rbb_ok (queue_get_loop l len last total q r).2.
Proof.
  revert last total q r. induction l as [|b l IH]; intros last total q r Hr Hl; [done|]. cbn [queue_get_loop].
  assert (Htake : forall last total q, rbb_ok (queue_get_loop l len last total q
    (set_status b RT_RBB_BLK_GET (set_list (slist_remove b (blk_list r)) r))).2).
  { intros. apply IH.
    - apply set_status_ok; [by apply blk_remove_ok|apply Hl; by left|by left].
    - intros c Hc. unfold blk_max_num, set_status, set_blk. simpl. rewrite length_insert. apply Hl. by right. }
  destruct last as [t|].
  - destruct (_ || _); [done|apply Htake].
  - case_decide; [apply Htake|]. apply IH; [done|]. intros c Hc. apply Hl. by right.
Qed.

Lemma foldl_free_ok l r : rbb_ok r -> (forall b, b ∈ l -> (b < blk_max_num r)%nat) -> rbb_ok (foldl rt_rbb_blk_free r l).
Proof.
  revert r. induction l as [|b l IH]; intros r Hr Hl; [done|]. simpl. apply IH.
  - apply rt_rbb_blk_free_ok; [done|apply Hl; by left].
  - intros c Hc. unfold blk_max_num, rt_rbb_blk_free, set_status, set_blk. simpl. rewrite length_insert. apply Hl. by right.
Qed.

(** ** Runs *)

Inductive rbb_op :=
  | OpAlloc (blk_size : Z) | OpPut (b : nat) | OpGet | OpFree (b : nat)
  | OpQueueGet (len : Z) (q : rt_rbb_blk_queue) | OpQueueFree (q : rt_rbb_blk_queue).

Definition rbb_step (r : rt_rbb) (op : rbb_op) : rt_rbb :=
  match op with
  | OpAlloc n => (rt_rbb_blk_alloc r n).2
  | OpPut b => rt_rbb_blk_put b r
  | OpGet => (rt_rbb_blk_get r).2
  | OpFree b => rt_rbb_blk_free r b
  | OpQueueGet len q => (rt_rbb_blk_queue_get r len q).2
  | OpQueueFree q => rt_rbb_blk_queue_free r q
  end.

(** Calls with blocks of the ring and sizes the structure can hold; a first
    block that fits; [queues]: with the calls on queues of blocks. *)
Definition op_ok (queues : bool) (r : rt_rbb) (op : rbb_op) : Prop :=
  match op with
  | OpAlloc n => 0 < n < 2 ^ 24 /\ (n <= buf_size r \/ blk_list r <> [])
  | OpPut b => (b < blk_max_num r)%nat /\ status (blk r b) = RT_RBB_BLK_INITED
  | OpFree b => (b < blk_max_num r)%nat
  | OpGet => True
  | OpQueueGet _ _ => queues = true
  | OpQueueFree q => queues = true /\ forall b, b ∈ queue_blocks q -> (b < blk_max_num r)%nat
  end.

Fixpoint run_ok (queues : bool) (r : rt_rbb) (ops : list rbb_op) : Prop :=
  match ops with
  | [] => True
  | op :: ops => op_ok queues r op /\ run_ok queues (rbb_step r op) ops
  end.

Lemma rbb_step_ok queues r op : rbb_ok r -> op_ok queues r op -> rbb_ok (rbb_step r op).
Proof.
  intros Hr. destruct op as [n|b| |b|len q|q]; simpl.
  - intros [Hn Hfit]. pose proof (rt_rbb_blk_alloc_spec r n Hr Hn Hfit) as H.
    destruct (rt_rbb_blk_alloc r n) as [[b|] r']; [by destruct H|by destruct H as [-> _]].
  - intros [Hb _]. apply set_status_ok; [done|done|by left].
  - intros _. by apply rt_rbb_blk_get_ok.
  - by apply rt_rbb_blk_free_ok.
  - intros _. apply queue_get_ok; [done|]. intros b Hb. by apply (ro_listed r Hr).
  - intros [_ Hq]. by apply foldl_free_ok.
Qed.

(** Every block in use is on the list. *)
Definition used_listed (r : rt_rbb) : Prop :=
  forall b, (b < blk_max_num r)%nat -> status (blk r b) <> RT_RBB_BLK_UNUSED -> b ∈ blk_list r.

Lemma used_status r b s : used_listed r -> (b < blk_max_num r)%nat -> status (blk r b) <> RT_RBB_BLK_UNUSED ->
  used_listed (set_status b s r).
Proof.
  intros Hu Hb Hs c Hc Hsc. unfold set_status in Hsc. rewrite blk_set_blk in Hsc by done.
  change (blk_list (set_status b s r)) with (blk_list r). unfold blk_max_num, set_status, set_blk in Hc. simpl in Hc.
  rewrite length_insert in Hc. case_decide; [subst; by apply Hu|by apply Hu].
Qed.

Lemma rbb_step_used r op : rbb_ok r -> used_listed r -> op_ok false r op -> used_listed (rbb_step r op).
Proof.
  intros Hr Hu. destruct op as [n|b| |b|len q|q]; simpl; [| | | |by intros [=]|by intros [[=] _]].
  - intros [Hn Hfit]. pose proof (rt_rbb_blk_alloc_spec r n Hr Hn Hfit) as H.
    destruct (rt_rbb_blk_alloc r n) as [[b|] r']; [|by destruct H as [-> _]].
    destruct H as [(_ & _ & El & _ & Hsame & _ & _ & Em) _]. intros c Hc Hs. cbn [snd] in *.
    rewrite El, elem_of_app, list_elem_of_singleton. rewrite Em in Hc.
    destruct (decide (c = b)); [by right|left]. rewrite Hsame in Hs by done. by apply Hu.
  - intros [Hb Hs]. apply used_status; [done|done|]. by rewrite Hs.
  - intros _. unfold rt_rbb_blk_get. rewrite get_loop_spec. destruct (list_find _ _) as [[i b]|] eqn:E; [|done].
    apply list_find_Some in E as (Hl & Hs & _). apply used_status; [done| |by rewrite Hs].
    apply (ro_listed r Hr). by apply list_elem_of_lookup_2 with i.
  - intros Hb c Hc Hs. unfold rt_rbb_blk_free, set_status in Hs |- *. rewrite blk_set_blk in Hs by done.
    unfold blk_max_num, set_blk in Hc. simpl in Hc. rewrite length_insert in Hc.
    case_decide as Ecb; [done|]. cbn [blk_list set_blk set_list]. apply slist_remove_filter; [apply Hr|]. split; [|done].
    by apply Hu.
Qed.

Lemma rt_rbb_init_ok buffer bytes set : 0 <= buffer -> 0 <= bytes -> buffer + bytes < 2 ^ 32 ->
  rbb_ok (rt_rbb_init buffer bytes set) /\ used_listed (rt_rbb_init buffer bytes set).
Proof.
  intros H1 H2 H3. split.
  - split; simpl; [done|constructor|intros b Hb; by apply not_elem_of_nil in Hb|].
    exists [], [], buffer. simpl. split_and!; (done || lia).
  - intros b Hb Hs. exfalso. apply Hs. unfold blk, rt_rbb_init, blk_max_num in *. cbn [blk_set] in *.
    rewrite nth_lookup, list_lookup_fmap. rewrite length_fmap in Hb.
    by destruct (lookup_lt_is_Some_2 set b Hb) as [x ->].
Qed.

(** ** Theorems *)

(** Two blocks that do not share a byte. *)
Definition apart_blocks (r : rt_rbb) (b c : nat) : Prop := blk_end r b <= buf (blk r c) \/ blk_end r c <= buf (blk r b).

Lemma rbb_ok_apart r b c : rbb_ok r -> b ∈ blk_list r -> c ∈ blk_list r -> b <> c -> apart_blocks r b c.
Proof.
  intros Hr Hb Hc Hne. destruct (ro_ring r Hr) as (l1 & l2 & mid & El & _ & _ & H1 & H2). rewrite El in Hb, Hc.
  unfold apart_blocks, blk_end. apply elem_of_app in Hb, Hc.
  destruct Hb as [Hb|Hb], Hc as [Hc|Hc].
  - by eapply ascending_disjoint.
  - apply (ascending_in _ _ _ _ _ Hb) in H1. apply (ascending_in _ _ _ _ _ Hc) in H2. lia.
  - apply (ascending_in _ _ _ _ _ Hb) in H2. apply (ascending_in _ _ _ _ _ Hc) in H1. lia.
  - by eapply ascending_disjoint.
Qed.

Lemma rbb_ok_inside r b : rbb_ok r -> b ∈ blk_list r -> rbb_buf r <= buf (blk r b) /\ blk_end r b <= bound r.
Proof.
  intros Hr Hb. destruct (ro_ring r Hr) as (l1 & l2 & mid & El & _ & Hm & H1 & H2). rewrite El in Hb.
  unfold blk_end, bound. apply elem_of_app in Hb as [Hb|Hb].
  - apply (ascending_in _ _ _ _ _ Hb) in H1. lia.
  - apply ascending_le in H1. apply (ascending_in _ _ _ _ _ Hb) in H2. lia.
Qed.


(** [rt_rbb_blk_alloc] on a sound ring with 0 < size < 2^24: it gives an
    unused entry, behind all others, with just that size, and touches no other;
    or it refuses and changes nothing, and then every entry is in use or the
    room between the newest and the oldest block, going round, is too small.
    [rt_rbb_blk_get] gives the oldest block that has been filled. *)
Theorem rt_rbb_blk_alloc_correct r n : rbb_ok r -> 0 < n < 2 ^ 24 -> n <= buf_size r \/ blk_list r <> [] ->
  match rt_rbb_blk_alloc r n with
  | (Some b, r') => allocated r n b r' /\ rbb_ok r'
  | (None, r') => r' = r /\ refused r n
  end /\
  match rt_rbb_blk_get r with
  | (Some b, r') => exists l k, blk_list r = l ++ b :: k /\ status (blk r b) = RT_RBB_BLK_PUT /\
      Forall (fun c => status (blk r c) <> RT_RBB_BLK_PUT) l /\
      status (blk r' b) = RT_RBB_BLK_GET /\ blk_list r' = blk_list r /\ rbb_ok r'
  | (None, r') => r' = r /\ Forall (fun c => status (blk r c) <> RT_RBB_BLK_PUT) (blk_list r)
  end.
Proof.
  intros Hr Hn Hfit. split; [by apply rt_rbb_blk_alloc_spec|].
  pose proof (rt_rbb_blk_get_ok r Hr) as Hok. unfold rt_rbb_blk_get in *. rewrite get_loop_spec in *.
  destruct (list_find _ _) as [[i b]|] eqn:E.
  - apply list_find_Some in E as (Hl & Hs & Hbefore). exists (take i (blk_list r)), (drop (S i) (blk_list r)).
    assert (Hb : (b < blk_max_num r)%nat) by (apply (ro_listed r Hr); by apply list_elem_of_lookup_2 with i).
    split_and!; [by rewrite take_drop_middle|done| |unfold set_status; by rewrite blk_set_blk, decide_True|done|done].
    apply Forall_forall. intros c Hc. apply list_elem_of_lookup in Hc as [j Hj].
    apply lookup_take_Some in Hj as [Hj Hlt]. by apply (Hbefore j).
  - split; [done|]. by apply list_find_None in E.
Qed.

(** Forty bytes at 1000 and three entries. *)
Definition ring : rt_rbb := rt_rbb_init 1000 40 (replicate 3 no_blk).
Definition ring_ops : list rbb_op := [OpAlloc 20; OpAlloc 16; OpPut 0; OpGet; OpFree 0; OpAlloc 12; OpPut 1; OpAlloc 9; OpFree 1].


Theorem rt_rbb_blk_alloc_correct_witness :
  let r := foldl rbb_step ring [OpAlloc 20; OpAlloc 16; OpPut 0; OpGet; OpFree 0; OpPut 1] in
  blk_list r = [1%nat] /\ exists r', rt_rbb_blk_alloc r 12 = (Some 0%nat, r') /\ allocated r 12 0 r'.
Proof.
  intros r. split; [vm_compute; reflexivity|].
  assert (Hr : rbb_ok r).
  { split.
    - vm_compute; intuition congruence.
    - vm_compute. constructor; [by intros ?%not_elem_of_nil|constructor].
    - intros b Hb. change (blk_list r) with [1%nat] in Hb. apply list_elem_of_singleton in Hb as ->. vm_compute. split; [lia|done].
    - exists [1%nat], [], 1000. vm_compute. intuition congruence. }
  destruct (rt_rbb_blk_alloc_correct r 12 Hr) as [H _]; [lia|right; done|].
  eexists. split; [vm_compute; reflexivity|]. vm_compute in H. vm_compute. apply H.
Defined.

(** ** What the code does not check *)

(** The first block may be larger than the buffer. *)
Example rt_rbb_first_block_too_big : let r := (rt_rbb_blk_alloc ring 100).2 in bound r < blk_end r 0.
Proof. by vm_compute. Qed.

(** Blocks fetched as a queue leave the list, so their bytes are given out again. *)
Example rt_rbb_queue_overlaps :
  let r := foldl rbb_step ring [OpAlloc 20; OpPut 0; OpQueueGet 40 (mk_queue None 0); OpAlloc 20] in
  status (blk r 0) = RT_RBB_BLK_GET /\ status (blk r 1) = RT_RBB_BLK_INITED /\ ~ apart_blocks r 0 1.
Proof. vm_compute. split_and!; [done..|]. by intros [H|H]; apply H. Qed.

(** A queue takes the blocks in the order of the list, its length those in the
    order of the array: here it has the blocks 1 and 0. *)
Example rt_rbb_queue_len_wrong :
  let r := foldl rbb_step ring [OpAlloc 8; OpAlloc 6; OpPut 1; OpFree 0; OpAlloc 5; OpPut 0] in
  let '(n, q, r') := rt_rbb_blk_queue_get r 40 (mk_queue None 0) in
  n = 11 /\ queue_blocks q = [1; 2]%nat /\ rt_rbb_blk_queue_len r' q = 6.
Proof. by vm_compute. Qed.
