(* ===== verification/Kernel.v ===== *)
(** * The kernel state: threads, thread lists, timers and IPC objects

    The records are the structs of rtdef.h with the fields the uniprocessor
    configuration of rtconfig.h compiles in.  A pointer to a thread is its index
    in [k_threads].  The [tlist] node of a thread is in at most one circular list
    at a time; the lists are addressed by their heads ([lid]) and kept as
    sequences of thread indices, which is what the pointer-level operations of
    rtservice.h compute (file RtList).  Code runs in the monad [M]: a state
    transformer that is undefined ([None]) where the C code would dereference a
    pointer to no object. *)

From S2P Require Import Prelude.

(** ** Constants of rtdef.h and rtconfig.h *)

Definition RT_THREAD_PRIORITY_MAX : Z := 32.
Definition RT_NAME_MAX : Z := 32.
Definition RT_TICK_PER_SECOND : Z := 1000.
Definition RT_TICK_MAX : Z := 0xffffffff.

Definition RT_EOK : Z := 0.
Definition RT_ERROR : Z := 1.
Definition RT_ETIMEOUT : Z := 2.
Definition RT_EFULL : Z := 3.
Definition RT_EINTR : Z := 9.

Definition RT_THREAD_INIT : Z := 0x00.
Definition RT_THREAD_READY : Z := 0x01.
Definition RT_THREAD_SUSPEND : Z := 0x02.
Definition RT_THREAD_RUNNING : Z := 0x03.
Definition RT_THREAD_CLOSE : Z := 0x04.
Definition RT_THREAD_STAT_MASK : Z := 0x0f.

Definition RT_TIMER_FLAG_ACTIVATED : Z := 0x1.
Definition RT_TIMER_FLAG_PERIODIC : Z := 0x2.
Definition RT_TIMER_FLAG_SOFT_TIMER : Z := 0x4.

Definition RT_IPC_FLAG_FIFO : Z := 0x00.
Definition RT_IPC_FLAG_PRIO : Z := 0x01.
Definition RT_IPC_CMD_RESET : Z := 0x01.
Definition RT_WAITING_FOREVER : Z := -1.

Definition RT_EVENT_FLAG_AND : Z := 0x01.
Definition RT_EVENT_FLAG_OR : Z := 0x02.
Definition RT_EVENT_FLAG_CLEAR : Z := 0x04.

(** ** List heads, timers, objects *)

(** The list heads a thread's [tlist] node can be linked into. *)
Inductive lid :=
  | LReady (prio : Z)
  | LDefunct
  | LSem (i : nat)
  | LMutex (i : nat)
  | LEvent (i : nat)
  | LMbRecv (i : nat)
  | LMbSend (i : nat)
  | LMq (i : nat)
  | LMp (i : nat).

#[export] Instance lid_eq_dec : EqDecision lid.
Proof. solve_decision. Defined.

Definition lid_code (l : lid) : Z * Z :=
  match l with
  | LReady p => (0, p) | LDefunct => (1, 0)
  | LSem i => (2, Z.of_nat i) | LMutex i => (3, Z.of_nat i) | LEvent i => (4, Z.of_nat i)
  | LMbRecv i => (5, Z.of_nat i) | LMbSend i => (6, Z.of_nat i) | LMq i => (7, Z.of_nat i)
  | LMp i => (8, Z.of_nat i)
  end.

Definition lid_decode (c : Z * Z) : lid :=
  match c.1 with
  | 0 => LReady c.2 | 1 => LDefunct
  | 2 => LSem (Z.to_nat c.2) | 3 => LMutex (Z.to_nat c.2) | 4 => LEvent (Z.to_nat c.2)
  | 5 => LMbRecv (Z.to_nat c.2) | 6 => LMbSend (Z.to_nat c.2) | 7 => LMq (Z.to_nat c.2)
  | _ => LMp (Z.to_nat c.2)
  end.

#[export] Instance lid_countable : Countable lid.
Proof.
  refine (inj_countable' lid_code lid_decode _).
  intros []; unfold lid_decode; simpl; rewrite ?Nat2Z.id; done.
Defined.

(** A timer is the [thread_timer] of a thread ([inl]) or an object ([inr]). *)
Abbreviation tmid := (nat + nat)%type.

(** The two kinds of timeout functions: [rt_thread_timeout] with the thread as
    parameter, and a callback of the application. *)
Inductive timeout_fn :=
  | fn_thread_timeout (t : nat)
  | fn_user (f : nat).

(** [struct rt_timer]; its row node is in [k_timer_list] or [k_soft_timer_list]. *)
Record rt_timer := mk_timer {
  tm_flag : Z;
  timeout_func : timeout_fn;
  tm_init_tick : Z;
  timeout_tick : Z
}.

Definition set_tm_flag (v : Z) (r : rt_timer) : rt_timer :=
  {| tm_flag := v;
     timeout_func := timeout_func r;
     tm_init_tick := tm_init_tick r;
     timeout_tick := timeout_tick r |}.
Definition set_timeout_func (v : timeout_fn) (r : rt_timer) : rt_timer :=
  {| tm_flag := tm_flag r;
     timeout_func := v;
     tm_init_tick := tm_init_tick r;
     timeout_tick := timeout_tick r |}.
Definition set_tm_init_tick (v : Z) (r : rt_timer) : rt_timer :=
  {| tm_flag := tm_flag r;
     timeout_func := timeout_func r;
     tm_init_tick := v;
     timeout_tick := timeout_tick r |}.
Definition set_timeout_tick (v : Z) (r : rt_timer) : rt_timer :=
  {| tm_flag := tm_flag r;
     timeout_func := timeout_func r;
     tm_init_tick := tm_init_tick r;
     timeout_tick := v |}.

(** [struct rt_thread]; [has_cleanup] says whether [cleanup] is set. *)
Record rt_thread := mk_thread {
  stat : Z;
  error : Z;
  current_priority : Z;
  init_priority : Z;
  number_mask : Z;
  event_set : Z;
  event_info : Z;
  init_tick : Z;
  remaining_tick : Z;
  has_cleanup : bool
}.

Definition set_stat (v : Z) (r : rt_thread) : rt_thread :=
  {| stat := v;
     error := error r;
     current_priority := current_priority r;
     init_priority := init_priority r;
     number_mask := number_mask r;
     event_set := event_set r;
     event_info := event_info r;
     init_tick := init_tick r;
     remaining_tick := remaining_tick r;
     has_cleanup := has_cleanup r |}.
Definition set_error (v : Z) (r : rt_thread) : rt_thread :=
  {| stat := stat r;
     error := v;
     current_priority := current_priority r;
     init_priority := init_priority r;
     number_mask := number_mask r;
     event_set := event_set r;
     event_info := event_info r;
     init_tick := init_tick r;
     remaining_tick := remaining_tick r;
     has_cleanup := has_cleanup r |}.
Definition set_current_priority (v : Z) (r : rt_thread) : rt_thread :=
  {| stat := stat r;
     error := error r;
     current_priority := v;
     init_priority := init_priority r;
     number_mask := number_mask r;
     event_set := event_set r;
     event_info := event_info r;
     init_tick := init_tick r;
     remaining_tick := remaining_tick r;
     has_cleanup := has_cleanup r |}.
Definition set_init_priority (v : Z) (r : rt_thread) : rt_thread :=
  {| stat := stat r;
     error := error r;
     current_priority := current_priority r;
     init_priority := v;
     number_mask := number_mask r;
     event_set := event_set r;
     event_info := event_info r;
     init_tick := init_tick r;
     remaining_tick := remaining_tick r;
     has_cleanup := has_cleanup r |}.
Definition set_number_mask (v : Z) (r : rt_thread) : rt_thread :=
  {| stat := stat r;
     error := error r;
     current_priority := current_priority r;
     init_priority := init_priority r;
     number_mask := v;
     event_set := event_set r;
     event_info := event_info r;
     init_tick := init_tick r;
     remaining_tick := remaining_tick r;
     has_cleanup := has_cleanup r |}.
Definition set_event_set (v : Z) (r : rt_thread) : rt_thread :=
  {| stat := stat r;
     error := error r;
     current_priority := current_priority r;
     init_priority := init_priority r;
     number_mask := number_mask r;
     event_set := v;
     event_info := event_info r;
     init_tick := init_tick r;
     remaining_tick := remaining_tick r;
     has_cleanup := has_cleanup r |}.
Definition set_event_info (v : Z) (r : rt_thread) : rt_thread :=
  {| stat := stat r;
     error := error r;
     current_priority := current_priority r;
     init_priority := init_priority r;
     number_mask := number_mask r;
     event_set := event_set r;
     event_info := v;
     init_tick := init_tick r;
     remaining_tick := remaining_tick r;
     has_cleanup := has_cleanup r |}.
Definition set_init_tick (v : Z) (r : rt_thread) : rt_thread :=
  {| stat := stat r;
     error := error r;
     current_priority := current_priority r;
     init_priority := init_priority r;
     number_mask := number_mask r;
     event_set := event_set r;
     event_info := event_info r;
     init_tick := v;
     remaining_tick := remaining_tick r;
     has_cleanup := has_cleanup r |}.
Definition set_remaining_tick (v : Z) (r : rt_thread) : rt_thread :=
  {| stat := stat r;
     error := error r;
     current_priority := current_priority r;
     init_priority := init_priority r;
     number_mask := number_mask r;
     event_set := event_set r;
     event_info := event_info r;
     init_tick := init_tick r;
     remaining_tick := v;
     has_cleanup := has_cleanup r |}.
Definition set_has_cleanup (v : bool) (r : rt_thread) : rt_thread :=
  {| stat := stat r;
     error := error r;
     current_priority := current_priority r;
     init_priority := init_priority r;
     number_mask := number_mask r;
     event_set := event_set r;
     event_info := event_info r;
     init_tick := init_tick r;
     remaining_tick := remaining_tick r;
     has_cleanup := v |}.

(** The name and type of [struct rt_object]. *)
Record rt_object := mk_object {
  o_type : Z;
  o_name : list Z
}.

Definition set_o_type (v : Z) (r : rt_object) : rt_object :=
  {| o_type := v;
     o_name := o_name r |}.
Definition set_o_name (v : list Z) (r : rt_object) : rt_object :=
  {| o_type := o_type r;
     o_name := v |}.

Record rt_semaphore := mk_sem {
  sem_flag : Z;
  sem_value : Z
}.

Definition set_sem_flag (v : Z) (r : rt_semaphore) : rt_semaphore :=
  {| sem_flag := v;
     sem_value := sem_value r |}.
Definition set_sem_value (v : Z) (r : rt_semaphore) : rt_semaphore :=
  {| sem_flag := sem_flag r;
     sem_value := v |}.

Record rt_mutex := mk_mutex {
  mtx_flag : Z;
  mtx_value : Z;
  original_priority : Z;
  hold : Z;
  owner : option nat
}.

Definition set_mtx_flag (v : Z) (r : rt_mutex) : rt_mutex :=
  {| mtx_flag := v;
     mtx_value := mtx_value r;
     original_priority := original_priority r;
     hold := hold r;
     owner := owner r |}.
Definition set_mtx_value (v : Z) (r : rt_mutex) : rt_mutex :=
  {| mtx_flag := mtx_flag r;
     mtx_value := v;
     original_priority := original_priority r;
     hold := hold r;
     owner := owner r |}.
Definition set_original_priority (v : Z) (r : rt_mutex) : rt_mutex :=
  {| mtx_flag := mtx_flag r;
     mtx_value := mtx_value r;
     original_priority := v;
     hold := hold r;
     owner := owner r |}.
Definition set_hold (v : Z) (r : rt_mutex) : rt_mutex :=
  {| mtx_flag := mtx_flag r;
     mtx_value := mtx_value r;
     original_priority := original_priority r;
     hold := v;
     owner := owner r |}.
Definition set_owner (v : option nat) (r : rt_mutex) : rt_mutex :=
  {| mtx_flag := mtx_flag r;
     mtx_value := mtx_value r;
     original_priority := original_priority r;
     hold := hold r;
     owner := v |}.

Record rt_event := mk_event {
  ev_flag : Z;
  ev_set : Z
}.

Definition set_ev_flag (v : Z) (r : rt_event) : rt_event :=
  {| ev_flag := v;
     ev_set := ev_set r |}.
Definition set_ev_set (v : Z) (r : rt_event) : rt_event :=
  {| ev_flag := ev_flag r;
     ev_set := v |}.

(** [mb_pool] is the memory behind [msg_pool]. *)
Record rt_mailbox := mk_mb {
  mb_flag : Z;
  mb_pool : list Z;
  mb_size : Z;
  mb_entry : Z;
  in_offset : Z;
  out_offset : Z
}.

Definition set_mb_flag (v : Z) (r : rt_mailbox) : rt_mailbox :=
  {| mb_flag := v;
     mb_pool := mb_pool r;
     mb_size := mb_size r;
     mb_entry := mb_entry r;
     in_offset := in_offset r;
     out_offset := out_offset r |}.
Definition set_mb_pool (v : list Z) (r : rt_mailbox) : rt_mailbox :=
  {| mb_flag := mb_flag r;
     mb_pool := v;
     mb_size := mb_size r;
     mb_entry := mb_entry r;
     in_offset := in_offset r;
     out_offset := out_offset r |}.
Definition set_mb_size (v : Z) (r : rt_mailbox) : rt_mailbox :=
  {| mb_flag := mb_flag r;
     mb_pool := mb_pool r;
     mb_size := v;
     mb_entry := mb_entry r;
     in_offset := in_offset r;
     out_offset := out_offset r |}.
Definition set_mb_entry (v : Z) (r : rt_mailbox) : rt_mailbox :=
  {| mb_flag := mb_flag r;
     mb_pool := mb_pool r;
     mb_size := mb_size r;
     mb_entry := v;
     in_offset := in_offset r;
     out_offset := out_offset r |}.
Definition set_in_offset (v : Z) (r : rt_mailbox) : rt_mailbox :=
  {| mb_flag := mb_flag r;
     mb_pool := mb_pool r;
     mb_size := mb_size r;
     mb_entry := mb_entry r;
     in_offset := v;
     out_offset := out_offset r |}.
Definition set_out_offset (v : Z) (r : rt_mailbox) : rt_mailbox :=
  {| mb_flag := mb_flag r;
     mb_pool := mb_pool r;
     mb_size := mb_size r;
     mb_entry := mb_entry r;
     in_offset := in_offset r;
     out_offset := v |}.

(** A message is a slot of the pool: its index, its [next] pointer and the bytes
    that follow the link. *)
Record rt_messagequeue := mk_mq {
  mq_flag : Z;
  msg_size : Z;
  max_msgs : Z;
  mq_entry : Z;
  mq_next : gmap nat (option nat);
  mq_data : gmap nat (list Z);
  msg_queue_head : option nat;
  msg_queue_tail : option nat;
  msg_queue_free : option nat
}.

Definition set_mq_flag (v : Z) (r : rt_messagequeue) : rt_messagequeue :=
  {| mq_flag := v;
     msg_size := msg_size r;
     max_msgs := max_msgs r;
     mq_entry := mq_entry r;
     mq_next := mq_next r;
     mq_data := mq_data r;
     msg_queue_head := msg_queue_head r;
     msg_queue_tail := msg_queue_tail r;
     msg_queue_free := msg_queue_free r |}.
Definition set_msg_size (v : Z) (r : rt_messagequeue) : rt_messagequeue :=
  {| mq_flag := mq_flag r;
     msg_size := v;
     max_msgs := max_msgs r;
     mq_entry := mq_entry r;
     mq_next := mq_next r;
     mq_data := mq_data r;
     msg_queue_head := msg_queue_head r;
     msg_queue_tail := msg_queue_tail r;
     msg_queue_free := msg_queue_free r |}.
Definition set_max_msgs (v : Z) (r : rt_messagequeue) : rt_messagequeue :=
  {| mq_flag := mq_flag r;
     msg_size := msg_size r;
     max_msgs := v;
     mq_entry := mq_entry r;
     mq_next := mq_next r;
     mq_data := mq_data r;
     msg_queue_head := msg_queue_head r;
     msg_queue_tail := msg_queue_tail r;
     msg_queue_free := msg_queue_free r |}.
Definition set_mq_entry (v : Z) (r : rt_messagequeue) : rt_messagequeue :=
  {| mq_flag := mq_flag r;
     msg_size := msg_size r;
     max_msgs := max_msgs r;
     mq_entry := v;
     mq_next := mq_next r;
     mq_data := mq_data r;
     msg_queue_head := msg_queue_head r;
     msg_queue_tail := msg_queue_tail r;
     msg_queue_free := msg_queue_free r |}.
Definition set_mq_next (v : gmap nat (option nat)) (r : rt_messagequeue) : rt_messagequeue :=
  {| mq_flag := mq_flag r;
     msg_size := msg_size r;
     max_msgs := max_msgs r;
     mq_entry := mq_entry r;
     mq_next := v;
     mq_data := mq_data r;
     msg_queue_head := msg_queue_head r;
     msg_queue_tail := msg_queue_tail r;
     msg_queue_free := msg_queue_free r |}.
Definition set_mq_data (v : gmap nat (list Z)) (r : rt_messagequeue) : rt_messagequeue :=
  {| mq_flag := mq_flag r;
     msg_size := msg_size r;
     max_msgs := max_msgs r;
     mq_entry := mq_entry r;
     mq_next := mq_next r;
     mq_data := v;
     msg_queue_head := msg_queue_head r;
     msg_queue_tail := msg_queue_tail r;
     msg_queue_free := msg_queue_free r |}.
Definition set_msg_queue_head (v : option nat) (r : rt_messagequeue) : rt_messagequeue :=
  {| mq_flag := mq_flag r;
     msg_size := msg_size r;
     max_msgs := max_msgs r;
     mq_entry := mq_entry r;
     mq_next := mq_next r;
     mq_data := mq_data r;
     msg_queue_head := v;
     msg_queue_tail := msg_queue_tail r;
     msg_queue_free := msg_queue_free r |}.
Definition set_msg_queue_tail (v : option nat) (r : rt_messagequeue) : rt_messagequeue :=
  {| mq_flag := mq_flag r;
     msg_size := msg_size r;
     max_msgs := max_msgs r;
     mq_entry := mq_entry r;
     mq_next := mq_next r;
     mq_data := mq_data r;
     msg_queue_head := msg_queue_head r;
     msg_queue_tail := v;
     msg_queue_free := msg_queue_free r |}.
Definition set_msg_queue_free (v : option nat) (r : rt_messagequeue) : rt_messagequeue :=
  {| mq_flag := mq_flag r;
     msg_size := msg_size r;
     max_msgs := max_msgs r;
     mq_entry := mq_entry r;
     mq_next := mq_next r;
     mq_data := mq_data r;
     msg_queue_head := msg_queue_head r;
     msg_queue_tail := msg_queue_tail r;
     msg_queue_free := v |}.

(** [struct rt_mempool]; addresses of the block memory are numbers.  The first
    word of a block holds the next free block, or the pool that gave it away. *)
Inductive mp_word := WNull | WBlock (a : Z) | WPool (i : nat).

Record rt_mempool := mk_mp {
  start_address : Z;
  mp_size : Z;
  block_size : Z;
  block_list : mp_word;
  block_total_count : Z;
  block_free_count : Z;
  suspend_thread_count : Z
}.

Definition set_block_list (v : mp_word) (r : rt_mempool) : rt_mempool :=
  {| start_address := start_address r;
     mp_size := mp_size r;
     block_size := block_size r;
     block_list := v;
     block_total_count := block_total_count r;
     block_free_count := block_free_count r;
     suspend_thread_count := suspend_thread_count r |}.
Definition set_block_free_count (v : Z) (r : rt_mempool) : rt_mempool :=
  {| start_address := start_address r;
     mp_size := mp_size r;
     block_size := block_size r;
     block_list := block_list r;
     block_total_count := block_total_count r;
     block_free_count := v;
     suspend_thread_count := suspend_thread_count r |}.
Definition set_suspend_thread_count (v : Z) (r : rt_mempool) : rt_mempool :=
  {| start_address := start_address r;
     mp_size := mp_size r;
     block_size := block_size r;
     block_list := block_list r;
     block_total_count := block_total_count r;
     block_free_count := block_free_count r;
     suspend_thread_count := v |}.

(** The globals of the kernel: scheduler.c, clock.c, timer.c, object.c and the
    IPC objects that exist. *)
Record kernel := mk_kernel {
  k_threads : gmap nat rt_thread;
  k_lists : gmap lid (list nat);
  k_group : Z;
  k_lock_nest : Z;
  k_irq_nest : Z;
  k_current : option nat;
  k_current_priority : Z;
  k_tick : Z;
  k_timers : gmap tmid rt_timer;
  k_timer_list : list tmid;
  k_soft_timer_list : list tmid;
  k_timer_thread : nat;
  k_random_nr : Z;
  k_objects : gmap (Z * tmid) rt_object;
  k_container : gmap Z (list tmid);
  k_sems : gmap nat rt_semaphore;
  k_mutexes : gmap nat rt_mutex;
  k_events : gmap nat rt_event;
  k_mbs : gmap nat rt_mailbox;
  k_mqs : gmap nat rt_messagequeue;
  k_mps : gmap nat rt_mempool;
  k_mp_words : gmap Z mp_word
}.

Definition set_k_threads (v : gmap nat rt_thread) (r : kernel) : kernel :=
  {| k_threads := v;
     k_lists := k_lists r;
     k_group := k_group r;
     k_lock_nest := k_lock_nest r;
     k_irq_nest := k_irq_nest r;
     k_current := k_current r;
     k_current_priority := k_current_priority r;
     k_tick := k_tick r;
     k_timers := k_timers r;
     k_timer_list := k_timer_list r;
     k_soft_timer_list := k_soft_timer_list r;
     k_timer_thread := k_timer_thread r;
     k_random_nr := k_random_nr r;
     k_objects := k_objects r;
     k_container := k_container r;
     k_sems := k_sems r;
     k_mutexes := k_mutexes r;
     k_events := k_events r;
     k_mbs := k_mbs r;
     k_mqs := k_mqs r;
     k_mps := k_mps r;
     k_mp_words := k_mp_words r |}.
Definition set_k_lists (v : gmap lid (list nat)) (r : kernel) : kernel :=
  {| k_threads := k_threads r;
     k_lists := v;
     k_group := k_group r;
     k_lock_nest := k_lock_nest r;
     k_irq_nest := k_irq_nest r;
     k_current := k_current r;
     k_current_priority := k_current_priority r;
     k_tick := k_tick r;
     k_timers := k_timers r;
     k_timer_list := k_timer_list r;
     k_soft_timer_list := k_soft_timer_list r;
     k_timer_thread := k_timer_thread r;
     k_random_nr := k_random_nr r;
     k_objects := k_objects r;
     k_container := k_container r;
     k_sems := k_sems r;
     k_mutexes := k_mutexes r;
     k_events := k_events r;
     k_mbs := k_mbs r;
     k_mqs := k_mqs r;
     k_mps := k_mps r;
     k_mp_words := k_mp_words r |}.
Definition set_k_group (v : Z) (r : kernel) : kernel :=
  {| k_threads := k_threads r;
     k_lists := k_lists r;
     k_group := v;
     k_lock_nest := k_lock_nest r;
     k_irq_nest := k_irq_nest r;
     k_current := k_current r;
     k_current_priority := k_current_priority r;
     k_tick := k_tick r;
     k_timers := k_timers r;
     k_timer_list := k_timer_list r;
     k_soft_timer_list := k_soft_timer_list r;
     k_timer_thread := k_timer_thread r;
     k_random_nr := k_random_nr r;
     k_objects := k_objects r;
     k_container := k_container r;
     k_sems := k_sems r;
     k_mutexes := k_mutexes r;
     k_events := k_events r;
     k_mbs := k_mbs r;
     k_mqs := k_mqs r;
     k_mps := k_mps r;
     k_mp_words := k_mp_words r |}.
Definition set_k_lock_nest (v : Z) (r : kernel) : kernel :=
  {| k_threads := k_threads r;
     k_lists := k_lists r;
     k_group := k_group r;
     k_lock_nest := v;
     k_irq_nest := k_irq_nest r;
     k_current := k_current r;
     k_current_priority := k_current_priority r;
     k_tick := k_tick r;
     k_timers := k_timers r;
     k_timer_list := k_timer_list r;
     k_soft_timer_list := k_soft_timer_list r;
     k_timer_thread := k_timer_thread r;
     k_random_nr := k_random_nr r;
     k_objects := k_objects r;
     k_container := k_container r;
     k_sems := k_sems r;
     k_mutexes := k_mutexes r;
     k_events := k_events r;
     k_mbs := k_mbs r;
     k_mqs := k_mqs r;
     k_mps := k_mps r;
     k_mp_words := k_mp_words r |}.
Definition set_k_irq_nest (v : Z) (r : kernel) : kernel :=
  {| k_threads := k_threads r;
     k_lists := k_lists r;
     k_group := k_group r;
     k_lock_nest := k_lock_nest r;
     k_irq_nest := v;
     k_current := k_current r;
     k_current_priority := k_current_priority r;
     k_tick := k_tick r;
     k_timers := k_timers r;
     k_timer_list := k_timer_list r;
     k_soft_timer_list := k_soft_timer_list r;
     k_timer_thread := k_timer_thread r;
     k_random_nr := k_random_nr r;
     k_objects := k_objects r;
     k_container := k_container r;
     k_sems := k_sems r;
     k_mutexes := k_mutexes r;
     k_events := k_events r;
     k_mbs := k_mbs r;
     k_mqs := k_mqs r;
     k_mps := k_mps r;
     k_mp_words := k_mp_words r |}.
Definition set_k_current (v : option nat) (r : kernel) : kernel :=
  {| k_threads := k_threads r;
     k_lists := k_lists r;
     k_group := k_group r;
     k_lock_nest := k_lock_nest r;
     k_irq_nest := k_irq_nest r;
     k_current := v;
     k_current_priority := k_current_priority r;
     k_tick := k_tick r;
     k_timers := k_timers r;
     k_timer_list := k_timer_list r;
     k_soft_timer_list := k_soft_timer_list r;
     k_timer_thread := k_timer_thread r;
     k_random_nr := k_random_nr r;
     k_objects := k_objects r;
     k_container := k_container r;
     k_sems := k_sems r;
     k_mutexes := k_mutexes r;
     k_events := k_events r;
     k_mbs := k_mbs r;
     k_mqs := k_mqs r;
     k_mps := k_mps r;
     k_mp_words := k_mp_words r |}.
Definition set_k_current_priority (v : Z) (r : kernel) : kernel :=
  {| k_threads := k_threads r;
     k_lists := k_lists r;
     k_group := k_group r;
     k_lock_nest := k_lock_nest r;
     k_irq_nest := k_irq_nest r;
     k_current := k_current r;
     k_current_priority := v;
     k_tick := k_tick r;
     k_timers := k_timers r;
     k_timer_list := k_timer_list r;
     k_soft_timer_list := k_soft_timer_list r;
     k_timer_thread := k_timer_thread r;
     k_random_nr := k_random_nr r;
     k_objects := k_objects r;
     k_container := k_container r;
     k_sems := k_sems r;
     k_mutexes := k_mutexes r;
     k_events := k_events r;
     k_mbs := k_mbs r;
     k_mqs := k_mqs r;
     k_mps := k_mps r;
     k_mp_words := k_mp_words r |}.
Definition set_k_tick (v : Z) (r : kernel) : kernel :=
  {| k_threads := k_threads r;
     k_lists := k_lists r;
     k_group := k_group r;
     k_lock_nest := k_lock_nest r;
     k_irq_nest := k_irq_nest r;
     k_current := k_current r;
     k_current_priority := k_current_priority r;
     k_tick := v;
     k_timers := k_timers r;
     k_timer_list := k_timer_list r;
     k_soft_timer_list := k_soft_timer_list r;
     k_timer_thread := k_timer_thread r;
     k_random_nr := k_random_nr r;
     k_objects := k_objects r;
     k_container := k_container r;
     k_sems := k_sems r;
     k_mutexes := k_mutexes r;
     k_events := k_events r;
     k_mbs := k_mbs r;
     k_mqs := k_mqs r;
     k_mps := k_mps r;
     k_mp_words := k_mp_words r |}.
Definition set_k_timers (v : gmap tmid rt_timer) (r : kernel) : kernel :=
  {| k_threads := k_threads r;
     k_lists := k_lists r;
     k_group := k_group r;
     k_lock_nest := k_lock_nest r;
     k_irq_nest := k_irq_nest r;
     k_current := k_current r;
     k_current_priority := k_current_priority r;
     k_tick := k_tick r;
     k_timers := v;
     k_timer_list := k_timer_list r;
     k_soft_timer_list := k_soft_timer_list r;
     k_timer_thread := k_timer_thread r;
     k_random_nr := k_random_nr r;
     k_objects := k_objects r;
     k_container := k_container r;
     k_sems := k_sems r;
     k_mutexes := k_mutexes r;
     k_events := k_events r;
     k_mbs := k_mbs r;
     k_mqs := k_mqs r;
     k_mps := k_mps r;
     k_mp_words := k_mp_words r |}.
Definition set_k_timer_list (v : list tmid) (r : kernel) : kernel :=
  {| k_threads := k_threads r;
     k_lists := k_lists r;
     k_group := k_group r;
     k_lock_nest := k_lock_nest r;
     k_irq_nest := k_irq_nest r;
     k_current := k_current r;
     k_current_priority := k_current_priority r;
     k_tick := k_tick r;
     k_timers := k_timers r;
     k_timer_list := v;
     k_soft_timer_list := k_soft_timer_list r;
     k_timer_thread := k_timer_thread r;
     k_random_nr := k_random_nr r;
     k_objects := k_objects r;
     k_container := k_container r;
     k_sems := k_sems r;
     k_mutexes := k_mutexes r;
     k_events := k_events r;
     k_mbs := k_mbs r;
     k_mqs := k_mqs r;
     k_mps := k_mps r;
     k_mp_words := k_mp_words r |}.
Definition set_k_soft_timer_list (v : list tmid) (r : kernel) : kernel :=
  {| k_threads := k_threads r;
     k_lists := k_lists r;
     k_group := k_group r;
     k_lock_nest := k_lock_nest r;
     k_irq_nest := k_irq_nest r;
     k_current := k_current r;
     k_current_priority := k_current_priority r;
     k_tick := k_tick r;
     k_timers := k_timers r;
     k_timer_list := k_timer_list r;
     k_soft_timer_list := v;
     k_timer_thread := k_timer_thread r;
     k_random_nr := k_random_nr r;
     k_objects := k_objects r;
     k_container := k_container r;
     k_sems := k_sems r;
     k_mutexes := k_mutexes r;
     k_events := k_events r;
     k_mbs := k_mbs r;
     k_mqs := k_mqs r;
     k_mps := k_mps r;
     k_mp_words := k_mp_words r |}.
Definition set_k_timer_thread (v : nat) (r : kernel) : kernel :=
  {| k_threads := k_threads r;
     k_lists := k_lists r;
     k_group := k_group r;
     k_lock_nest := k_lock_nest r;
     k_irq_nest := k_irq_nest r;
     k_current := k_current r;
     k_current_priority := k_current_priority r;
     k_tick := k_tick r;
     k_timers := k_timers r;
     k_timer_list := k_timer_list r;
     k_soft_timer_list := k_soft_timer_list r;
     k_timer_thread := v;
     k_random_nr := k_random_nr r;
     k_objects := k_objects r;
     k_container := k_container r;
     k_sems := k_sems r;
     k_mutexes := k_mutexes r;
     k_events := k_events r;
     k_mbs := k_mbs r;
     k_mqs := k_mqs r;
     k_mps := k_mps r;
     k_mp_words := k_mp_words r |}.
Definition set_k_random_nr (v : Z) (r : kernel) : kernel :=
  {| k_threads := k_threads r;
     k_lists := k_lists r;
     k_group := k_group r;
     k_lock_nest := k_lock_nest r;
     k_irq_nest := k_irq_nest r;
     k_current := k_current r;
     k_current_priority := k_current_priority r;
     k_tick := k_tick r;
     k_timers := k_timers r;
     k_timer_list := k_timer_list r;
     k_soft_timer_list := k_soft_timer_list r;
     k_timer_thread := k_timer_thread r;
     k_random_nr := v;
     k_objects := k_objects r;
     k_container := k_container r;
     k_sems := k_sems r;
     k_mutexes := k_mutexes r;
     k_events := k_events r;
     k_mbs := k_mbs r;
     k_mqs := k_mqs r;
     k_mps := k_mps r;
     k_mp_words := k_mp_words r |}.
Definition set_k_objects (v : gmap (Z * tmid) rt_object) (r : kernel) : kernel :=
  {| k_threads := k_threads r;
     k_lists := k_lists r;
     k_group := k_group r;
     k_lock_nest := k_lock_nest r;
     k_irq_nest := k_irq_nest r;
     k_current := k_current r;
     k_current_priority := k_current_priority r;
     k_tick := k_tick r;
     k_timers := k_timers r;
     k_timer_list := k_timer_list r;
     k_soft_timer_list := k_soft_timer_list r;
     k_timer_thread := k_timer_thread r;
     k_random_nr := k_random_nr r;
     k_objects := v;
     k_container := k_container r;
     k_sems := k_sems r;
     k_mutexes := k_mutexes r;
     k_events := k_events r;
     k_mbs := k_mbs r;
     k_mqs := k_mqs r;
     k_mps := k_mps r;
     k_mp_words := k_mp_words r |}.
Definition set_k_container (v : gmap Z (list tmid)) (r : kernel) : kernel :=
  {| k_threads := k_threads r;
     k_lists := k_lists r;
     k_group := k_group r;
     k_lock_nest := k_lock_nest r;
     k_irq_nest := k_irq_nest r;
     k_current := k_current r;
     k_current_priority := k_current_priority r;
     k_tick := k_tick r;
     k_timers := k_timers r;
     k_timer_list := k_timer_list r;
     k_soft_timer_list := k_soft_timer_list r;
     k_timer_thread := k_timer_thread r;
     k_random_nr := k_random_nr r;
     k_objects := k_objects r;
     k_container := v;
     k_sems := k_sems r;
     k_mutexes := k_mutexes r;
     k_events := k_events r;
     k_mbs := k_mbs r;
     k_mqs := k_mqs r;
     k_mps := k_mps r;
     k_mp_words := k_mp_words r |}.
Definition set_k_sems (v : gmap nat rt_semaphore) (r : kernel) : kernel :=
  {| k_threads := k_threads r;
     k_lists := k_lists r;
     k_group := k_group r;
     k_lock_nest := k_lock_nest r;
     k_irq_nest := k_irq_nest r;
     k_current := k_current r;
     k_current_priority := k_current_priority r;
     k_tick := k_tick r;
     k_timers := k_timers r;
     k_timer_list := k_timer_list r;
     k_soft_timer_list := k_soft_timer_list r;
     k_timer_thread := k_timer_thread r;
     k_random_nr := k_random_nr r;
     k_objects := k_objects r;
     k_container := k_container r;
     k_sems := v;
     k_mutexes := k_mutexes r;
     k_events := k_events r;
     k_mbs := k_mbs r;
     k_mqs := k_mqs r;
     k_mps := k_mps r;
     k_mp_words := k_mp_words r |}.
Definition set_k_mutexes (v : gmap nat rt_mutex) (r : kernel) : kernel :=
  {| k_threads := k_threads r;
     k_lists := k_lists r;
     k_group := k_group r;
     k_lock_nest := k_lock_nest r;
     k_irq_nest := k_irq_nest r;
     k_current := k_current r;
     k_current_priority := k_current_priority r;
     k_tick := k_tick r;
     k_timers := k_timers r;
     k_timer_list := k_timer_list r;
     k_soft_timer_list := k_soft_timer_list r;
     k_timer_thread := k_timer_thread r;
     k_random_nr := k_random_nr r;
     k_objects := k_objects r;
     k_container := k_container r;
     k_sems := k_sems r;
     k_mutexes := v;
     k_events := k_events r;
     k_mbs := k_mbs r;
     k_mqs := k_mqs r;
     k_mps := k_mps r;
     k_mp_words := k_mp_words r |}.
Definition set_k_events (v : gmap nat rt_event) (r : kernel) : kernel :=
  {| k_threads := k_threads r;
     k_lists := k_lists r;
     k_group := k_group r;
     k_lock_nest := k_lock_nest r;
     k_irq_nest := k_irq_nest r;
     k_current := k_current r;
     k_current_priority := k_current_priority r;
     k_tick := k_tick r;
     k_timers := k_timers r;
     k_timer_list := k_timer_list r;
     k_soft_timer_list := k_soft_timer_list r;
     k_timer_thread := k_timer_thread r;
     k_random_nr := k_random_nr r;
     k_objects := k_objects r;
     k_container := k_container r;
     k_sems := k_sems r;
     k_mutexes := k_mutexes r;
     k_events := v;
     k_mbs := k_mbs r;
     k_mqs := k_mqs r;
     k_mps := k_mps r;
     k_mp_words := k_mp_words r |}.
Definition set_k_mbs (v : gmap nat rt_mailbox) (r : kernel) : kernel :=
  {| k_threads := k_threads r;
     k_lists := k_lists r;
     k_group := k_group r;
     k_lock_nest := k_lock_nest r;
     k_irq_nest := k_irq_nest r;
     k_current := k_current r;
     k_current_priority := k_current_priority r;
     k_tick := k_tick r;
     k_timers := k_timers r;
     k_timer_list := k_timer_list r;
     k_soft_timer_list := k_soft_timer_list r;
     k_timer_thread := k_timer_thread r;
     k_random_nr := k_random_nr r;
     k_objects := k_objects r;
     k_container := k_container r;
     k_sems := k_sems r;
     k_mutexes := k_mutexes r;
     k_events := k_events r;
     k_mbs := v;
     k_mqs := k_mqs r;
     k_mps := k_mps r;
     k_mp_words := k_mp_words r |}.
Definition set_k_mqs (v : gmap nat rt_messagequeue) (r : kernel) : kernel :=
  {| k_threads := k_threads r;
     k_lists := k_lists r;
     k_group := k_group r;
     k_lock_nest := k_lock_nest r;
     k_irq_nest := k_irq_nest r;
     k_current := k_current r;
     k_current_priority := k_current_priority r;
     k_tick := k_tick r;
     k_timers := k_timers r;
     k_timer_list := k_timer_list r;
     k_soft_timer_list := k_soft_timer_list r;
     k_timer_thread := k_timer_thread r;
     k_random_nr := k_random_nr r;
     k_objects := k_objects r;
     k_container := k_container r;
     k_sems := k_sems r;
     k_mutexes := k_mutexes r;
     k_events := k_events r;
     k_mbs := k_mbs r;
     k_mqs := v;
     k_mps := k_mps r;
     k_mp_words := k_mp_words r |}.
Definition set_k_mps (v : gmap nat rt_mempool) (r : kernel) : kernel :=
  {| k_threads := k_threads r;
     k_lists := k_lists r;
     k_group := k_group r;
     k_lock_nest := k_lock_nest r;
     k_irq_nest := k_irq_nest r;
     k_current := k_current r;
     k_current_priority := k_current_priority r;
     k_tick := k_tick r;
     k_timers := k_timers r;
     k_timer_list := k_timer_list r;
     k_soft_timer_list := k_soft_timer_list r;
     k_timer_thread := k_timer_thread r;
     k_random_nr := k_random_nr r;
     k_objects := k_objects r;
     k_container := k_container r;
     k_sems := k_sems r;
     k_mutexes := k_mutexes r;
     k_events := k_events r;
     k_mbs := k_mbs r;
     k_mqs := k_mqs r;
     k_mps := v;
     k_mp_words := k_mp_words r |}.
Definition set_k_mp_words (v : gmap Z mp_word) (r : kernel) : kernel :=
  {| k_threads := k_threads r;
     k_lists := k_lists r;
     k_group := k_group r;
     k_lock_nest := k_lock_nest r;
     k_irq_nest := k_irq_nest r;
     k_current := k_current r;
     k_current_priority := k_current_priority r;
     k_tick := k_tick r;
     k_timers := k_timers r;
     k_timer_list := k_timer_list r;
     k_soft_timer_list := k_soft_timer_list r;
     k_timer_thread := k_timer_thread r;
     k_random_nr := k_random_nr r;
     k_objects := k_objects r;
     k_container := k_container r;
     k_sems := k_sems r;
     k_mutexes := k_mutexes r;
     k_events := k_events r;
     k_mbs := k_mbs r;
     k_mqs := k_mqs r;
     k_mps := k_mps r;
     k_mp_words := v |}.

(** ** The kernel monad *)

Definition M (A : Type) : Type := kernel -> option (A * kernel).

#[export] Instance M_ret : MRet M := fun A a k => Some (a, k).
#[export] Instance M_bind : MBind M := fun A B f m k =>
  match m k with Some (a, k') => f a k' | None => None end.

Definition get : M kernel := fun k => Some (k, k).
Definition modify (f : kernel -> kernel) : M unit := fun k => Some (tt, f k).
Definition lift {A} (f : kernel -> option A) : M A := fun k =>
  match f k with Some a => Some (a, k) | None => None end.
Definition when (b : bool) (m : M unit) : M unit := if b then m else mret tt.

(** Weakest precondition: the code runs without undefined behaviour and ends in
    a state where the postcondition holds. *)
Definition wp {A} (m : M A) (Q : A -> kernel -> Prop) (k : kernel) : Prop :=
  match m k with Some (a, k') => Q a k' | None => False end.

Section wp.
Context {A B : Type}.
Implicit Types m : M A.

Lemma wp_ret (a : A) Q k : Q a k -> wp (mret a) Q k.
Proof. done. Qed.

Lemma wp_bind m (f : A -> M B) Q k :
  wp m (fun a => wp (f a) Q) k -> wp (m ≫= f) Q k.
Proof.
  unfold wp. change ((m ≫= f) k) with (match m k with Some (a, k') => f a k' | None => None end).
  by destruct (m k) as [[a k']|].
Qed.

Lemma wp_mono m (Q Q' : A -> kernel -> Prop) k :
  wp m Q k -> (forall a k', Q a k' -> Q' a k') -> wp m Q' k.
Proof. unfold wp. destruct (m k) as [[a k']|]; naive_solver. Qed.

Lemma wp_eq m Q k a k' : m k = Some (a, k') -> Q a k' -> wp m Q k.
Proof. unfold wp. by intros ->. Qed.

Lemma wp_run m Q k : wp m Q k -> exists a k', m k = Some (a, k') /\ Q a k'.
Proof. unfold wp. destruct (m k) as [[a k']|]; naive_solver. Qed.
End wp.

Lemma wp_modify f Q k : Q tt (f k) -> wp (modify f) Q k.
Proof. done. Qed.

Lemma wp_get (Q : kernel -> kernel -> Prop) k : Q k k -> wp get Q k.
Proof. done. Qed.

Lemma wp_lift {A} (f : kernel -> option A) Q k a : f k = Some a -> Q a k -> wp (lift f) Q k.
Proof. unfold wp, lift. by intros ->. Qed.

Lemma wp_when b m (Q : unit -> kernel -> Prop) k :
  (b = true -> wp m Q k) -> (b = false -> Q tt k) -> wp (when b m) Q k.
Proof. destruct b; unfold wp; simpl; naive_solver. Qed.

(** ** Accesses through pointers *)

Definition lst (k : kernel) (l : lid) : list nat := default [] (k_lists k !! l).

Definition thread_get (t : nat) : M rt_thread := lift (fun k => k_threads k !! t).
Definition thread_mod (t : nat) (f : rt_thread -> rt_thread) : M unit :=
  th ← thread_get t; modify (fun k => set_k_threads (<[t := f th]> (k_threads k)) k).

Definition timer_get (i : tmid) : M rt_timer := lift (fun k => k_timers k !! i).
Definition timer_mod (i : tmid) (f : rt_timer -> rt_timer) : M unit :=
  tm ← timer_get i; modify (fun k => set_k_timers (<[i := f tm]> (k_timers k)) k).

(** [rt_thread_self()]; the callers dereference it. *)
Definition rt_thread_self : M (option nat) := lift (fun k => Some (k_current k)).
Definition self : M nat := lift k_current.

(** List operations on the [tlist] nodes: [rt_list_remove] takes the node out of
    whatever list holds it. *)
Definition rt_list_init (l : lid) : M unit := modify (fun k => set_k_lists (<[l := []]> (k_lists k)) k).
Definition rt_list_remove (t : nat) : M unit :=
  modify (fun k => set_k_lists (filter (fun u => u <> t) <$> k_lists k) k).
Definition rt_list_set (l : lid) (ts : list nat) : M unit :=
  modify (fun k => set_k_lists (<[l := ts]> (k_lists k)) k).
(** [rt_list_insert_before(head, n)] appends, [rt_list_insert_after(head, n)]
    puts in front. *)
Definition rt_list_insert_tail (l : lid) (t : nat) : M unit :=
  ts ← lift (fun k => Some (lst k l)); rt_list_set l (ts ++ [t]).
Definition rt_list_insert_head (l : lid) (t : nat) : M unit :=
  ts ← lift (fun k => Some (lst k l)); rt_list_set l (t :: ts).
Definition rt_list_isempty (l : lid) : M bool :=
  lift (fun k => Some (bool_decide (lst k l = []))).

(** Reading and writing the masked status. *)
Definition stat_of (th : rt_thread) : Z := Z.land (stat th) RT_THREAD_STAT_MASK.
Definition with_stat (s : Z) (th : rt_thread) : rt_thread :=
  set_stat (Z.lor s (Z.land (stat th) (wnot 8 RT_THREAD_STAT_MASK))) th.

(** ** Running code step by step *)

Lemma bind_some {A B} (m : M A) (f : A -> M B) k a k1 :
  m k = Some (a, k1) -> (m ≫= f) k = f a k1.
Proof. unfold mbind, M_bind. by intros ->. Qed.

Lemma bind_bind {A B C} (m : M A) (f : A -> M B) (g : B -> M C) k :
  ((m ≫= f) ≫= g) k = (m ≫= (fun a => f a ≫= g)) k.
Proof. unfold mbind, M_bind. by destruct (m k) as [[a k']|]. Qed.

Lemma get_bind {B} (f : kernel -> M B) k : (get ≫= f) k = f k k.
Proof. done. Qed.

Lemma modify_bind {B} g (f : unit -> M B) k : (modify g ≫= f) k = f tt (g k).
Proof. done. Qed.

Lemma lift_bind {A B} (g : kernel -> option A) (f : A -> M B) k a :
  g k = Some a -> (lift g ≫= f) k = f a k.
Proof. intros H. apply bind_some. unfold lift. by rewrite H. Qed.

Lemma when_bind {B} b m (f : unit -> M B) k :
  (when b m ≫= f) k = if b then (m ≫= f) k else f tt k.
Proof. by destruct b. Qed.

Lemma thread_mod_run t f k th : k_threads k !! t = Some th ->
  thread_mod t f k = Some (tt, set_k_threads (<[t := f th]> (k_threads k)) k).
Proof. intros H. unfold thread_mod, thread_get. by erewrite lift_bind. Qed.

Lemma timer_mod_run i f k tm : k_timers k !! i = Some tm ->
  timer_mod i f k = Some (tt, set_k_timers (<[i := f tm]> (k_timers k)) k).
Proof. intros H. unfold timer_mod, timer_get. by erewrite lift_bind. Qed.

(** One step of a sequence: reads and updates by computation, calls by the
    equation that says what they return. *)
Ltac mstep :=
  first
    [ rewrite get_bind | rewrite modify_bind | rewrite when_bind
    | erewrite lift_bind by (simpl; eauto)
    | erewrite bind_some by (apply thread_mod_run; simpl; eauto)
    | erewrite bind_some by (apply timer_mod_run; simpl; eauto) ].
