(* ===== verification/Sched.v ===== *)
(** * The scheduler: scheduler.c, uniprocessor build

    A bitmap of 32 priorities and a queue of ready threads per priority.  The
    running thread is in no queue.  [kinv] is the invariant that ties the bitmap,
    the queues and the thread states together; it may exempt one thread that an
    operation has just taken off its list. *)

From S2P Require Import Prelude Kernel.

(** [__rt_ffs] of arch/mips/stack/stack.c is [__builtin_ffs]: one plus the index
    of the least significant set bit, zero for zero. *)
Fixpoint pos_ffs (p : positive) : Z :=
  match p with
  | xO p => 1 + pos_ffs p
  | _ => 1
  end.
Definition __rt_ffs (value : Z) : Z :=
  match u32 value with
  | Zpos p => pos_ffs p
  | _ => 0
  end.

Definition _get_highest_priority_thread : M (nat * Z) :=
  k ← get;
  let highest_ready_priority := __rt_ffs (k_group k) - 1 in
  t ← lift (fun k => head (lst k (LReady highest_ready_priority)));
  mret (t, highest_ready_priority).

Definition rt_schedule_insert_thread (thread : nat) : M unit :=
  k ← get;
  if bool_decide (k_current k = Some thread) then
    thread_mod thread (with_stat RT_THREAD_RUNNING)
  else
    thread_mod thread (with_stat RT_THREAD_READY);;
    th ← thread_get thread;
    rt_list_insert_tail (LReady (current_priority th)) thread;;
    modify (fun k => set_k_group (Z.lor (k_group k) (number_mask th)) k).

Definition rt_schedule_remove_thread (thread : nat) : M unit :=
  rt_list_remove thread;;
  th ← thread_get thread;
  e ← rt_list_isempty (LReady (current_priority th));
  when e (modify (fun k => set_k_group (Z.land (k_group k) (wnot 32 (number_mask th))) k)).

(** The context switch itself ([rt_hw_context_switch]) is assembly: after it the
    thread in [k_current] runs.  [_rt_scheduler_stack_check] reads the stack and
    has no effect on a thread whose stack is intact. *)
Definition rt_schedule : M unit :=
  k ← get;
  if k_lock_nest k =? 0 then
    if k_group k =? 0 then mret tt else
    '(to_thread, highest_ready_priority) ← _get_highest_priority_thread;
    cur ← self;
    th ← thread_get cur;
    let '(to_thread, need_insert_from_thread) :=
      if stat_of th =? RT_THREAD_RUNNING then
        if current_priority th <? highest_ready_priority
        then (cur, false) else (to_thread, true)
      else (to_thread, false) in
    if bool_decide (to_thread <> cur) then
      modify (set_k_current_priority (u8 highest_ready_priority));;
      modify (set_k_current (Some to_thread));;
      when need_insert_from_thread (rt_schedule_insert_thread cur);;
      rt_schedule_remove_thread to_thread;;
      thread_mod to_thread (with_stat RT_THREAD_RUNNING)
    else
      rt_schedule_remove_thread cur;;
      thread_mod cur (with_stat RT_THREAD_RUNNING)
  else mret tt.

Fixpoint priority_table_init (n : nat) (m : gmap lid (list nat)) : gmap lid (list nat) :=
  match n with
  | O => m
  | S n => <[LReady (Z.of_nat n) := []]> (priority_table_init n m)
  end.

Definition rt_system_scheduler_init : M unit :=
  modify (set_k_lock_nest 0);;
  modify (fun k => set_k_lists (priority_table_init (Z.to_nat RT_THREAD_PRIORITY_MAX) (k_lists k)) k);;
  modify (set_k_group 0);;
  rt_list_init LDefunct.

Definition rt_system_scheduler_start : M unit :=
  '(to_thread, _) ← _get_highest_priority_thread;
  modify (set_k_current (Some to_thread));;
  rt_schedule_remove_thread to_thread;;
  thread_mod to_thread (set_stat RT_THREAD_RUNNING).

Definition rt_enter_critical : M unit :=
  modify (fun k => set_k_lock_nest (i16 (k_lock_nest k + 1)) k).

Definition rt_exit_critical : M unit :=
  modify (fun k => set_k_lock_nest (i16 (k_lock_nest k - 1)) k);;
  k ← get;
  if k_lock_nest k <=? 0 then
    modify (set_k_lock_nest 0);;
    when (bool_decide (k_current k <> None)) rt_schedule
  else mret tt.

Definition rt_critical_level : M Z :=
  k ← get; mret (u16 (k_lock_nest k)).

(** ** The invariant *)

(** Thread states a list head can hold. *)
Definition list_stat (l : lid) (th : rt_thread) : Prop :=
  match l with
  | LReady p => stat th = RT_THREAD_READY /\ current_priority th = p
  | LDefunct => stat th = RT_THREAD_CLOSE
  | _ => stat th = RT_THREAD_SUSPEND
  end.

(** A thread's own data: priority in range and, once started, its mask; a thread
    closed before it was started has none. *)
Definition thread_ok (th : rt_thread) : Prop :=
  0 <= current_priority th < RT_THREAD_PRIORITY_MAX /\
  0 <= init_priority th < RT_THREAD_PRIORITY_MAX /\
  0 <= stat th <= RT_THREAD_CLOSE /\
  (number_mask th = 2 ^ current_priority th \/
   number_mask th = 0 /\ (stat th = RT_THREAD_INIT \/ stat th = RT_THREAD_CLOSE)).

(** The invariant; [x] is the exempt thread. *)
Record kinv (x : option nat) (k : kernel) : Prop := {
  ki_thread : forall t th, k_threads k !! t = Some th -> thread_ok th;
  ki_member : forall l t, t ∈ lst k l ->
    Some t <> x /\ exists th, k_threads k !! t = Some th /\ list_stat l th;
  ki_nodup : forall l, NoDup (lst k l);
  ki_disjoint : forall l1 l2 t, t ∈ lst k l1 -> t ∈ lst k l2 -> l1 = l2;
  ki_ready : forall t th, k_threads k !! t = Some th -> Some t <> x ->
    stat th = RT_THREAD_READY -> t ∈ lst k (LReady (current_priority th));
  ki_running : forall t th, k_threads k !! t = Some th -> Some t <> x ->
    stat th = RT_THREAD_RUNNING -> k_current k = Some t;
  ki_current : forall c, k_current k = Some c -> is_Some (k_threads k !! c);
  ki_group : 0 <= k_group k < 2 ^ 32;
  ki_bits : forall p, 0 <= p < RT_THREAD_PRIORITY_MAX ->
    (Z.testbit (k_group k) p = true <-> lst k (LReady p) <> [])
}.

Lemma lst_remove k t l :
  lst (set_k_lists (filter (fun u => u <> t) <$> k_lists k) k) l = filter (fun u => u <> t) (lst k l).
Proof. unfold lst; simpl. rewrite lookup_fmap. by destruct (k_lists k !! l). Qed.

Lemma lst_set k l ts l' :
  lst (set_k_lists (<[l := ts]> (k_lists k)) k) l' = if decide (l = l') then ts else lst k l'.
Proof. unfold lst; simpl. rewrite lookup_insert. by case_decide. Qed.

Lemma with_stat_eq s th : thread_ok th -> 0 <= s < 16 -> with_stat s th = set_stat s th.
Proof.
  intros (_&_&Hs&_) Hs'. unfold with_stat, RT_THREAD_CLOSE in *.
  assert (stat th = 0 \/ stat th = 1 \/ stat th = 2 \/ stat th = 3 \/ stat th = 4) as Hc by lia.
  replace (Z.land (stat th) (wnot 8 RT_THREAD_STAT_MASK)) with 0.
  { by rewrite Z.lor_0_r. }
  by destruct_or! Hc; rewrite Hc.
Qed.

Lemma stat_of_eq th : thread_ok th -> stat_of th = stat th.
Proof.
  intros (_&_&Hs&_). unfold stat_of, RT_THREAD_CLOSE in *.
  assert (stat th = 0 \/ stat th = 1 \/ stat th = 2 \/ stat th = 3 \/ stat th = 4) as Hc by lia.
  by destruct_or! Hc; rewrite Hc.
Qed.

(** ** Building blocks: exempt a thread, update it, take it back *)

Definition removed (t : nat) (th : rt_thread) (k : kernel) : kernel :=
  let k1 := set_k_lists (filter (fun u => u <> t) <$> k_lists k) k in
  if bool_decide (lst k1 (LReady (current_priority th)) = [])
  then set_k_group (Z.land (k_group k) (wnot 32 (number_mask th))) k1 else k1.

Definition put_thread (t : nat) (th : rt_thread) (k : kernel) : kernel :=
  set_k_threads (<[t := th]> (k_threads k)) k.

Definition inserted (t : nat) (th : rt_thread) (k : kernel) : kernel :=
  if bool_decide (k_current k = Some t) then put_thread t (set_stat RT_THREAD_RUNNING th) k
  else
    let l := LReady (current_priority th) in
    let k1 := put_thread t (set_stat RT_THREAD_READY th) k in
    set_k_group (Z.lor (k_group k) (number_mask th))
      (set_k_lists (<[l := lst k l ++ [t]]> (k_lists k)) k1).

Lemma remove_thread_run t th k : k_threads k !! t = Some th ->
  rt_schedule_remove_thread t k = Some (tt, removed t th k).
Proof.
  intros Ht. unfold rt_schedule_remove_thread, removed, rt_list_remove, thread_get, lift,
    rt_list_isempty, when, modify, mbind, M_bind, mret, M_ret; simpl.
  rewrite Ht. unfold lift. by destruct (bool_decide _).
Qed.

Lemma insert_thread_run t th k : k_threads k !! t = Some th -> thread_ok th ->
  rt_schedule_insert_thread t k = Some (tt, inserted t th k).
Proof.
  intros Ht Hok. unfold rt_schedule_insert_thread, inserted, rt_list_insert_tail, rt_list_set,
    thread_mod, thread_get, lift, modify, get, mbind, M_bind, mret, M_ret; simpl.
  destruct (bool_decide _); unfold lift; simpl; rewrite Ht.
  - rewrite with_stat_eq by done. done.
  - simpl. rewrite lookup_insert_eq. simpl. rewrite with_stat_eq by done. done.
Qed.

(** The lists, the current thread and the rest of the state after a removal. *)
Lemma lst_removed t th k l : lst (removed t th k) l = filter (fun u => u <> t) (lst k l).
Proof.
  unfold removed. destruct (bool_decide _); apply (lst_remove k t l).
Qed.

Lemma removed_threads t th k : k_threads (removed t th k) = k_threads k.
Proof. unfold removed. by destruct (bool_decide _). Qed.

Lemma removed_current t th k : k_current (removed t th k) = k_current k.
Proof. unfold removed. by destruct (bool_decide _). Qed.

Lemma filter_ne_nil_iff (t : nat) (l : list nat) :
  filter (fun u => u <> t) l <> [] <-> exists u, u ∈ l /\ u <> t.
Proof.
  split.
  - intros Hn. destruct (filter _ l) as [|u r] eqn:E; [done|].
    exists u. assert (u ∈ filter (fun u => u <> t) l) as Hu by (rewrite E; apply list_elem_of_here).
    apply list_elem_of_filter in Hu. tauto.
  - intros (u & Hu & Hne) E. assert (u ∈ filter (fun u => u <> t) l) as Hin.
    { by apply list_elem_of_filter. }
    rewrite E in Hin. by apply not_elem_of_nil in Hin.
Qed.

Lemma list_ne_nil_iff (l : list nat) : l <> [] <-> exists u, u ∈ l.
Proof.
  split; [destruct l as [|u l]; [done|]; exists u; apply list_elem_of_here|].
  intros [u Hu] ->. by apply not_elem_of_nil in Hu.
Qed.

(** The bitmap after a removal. *)
Lemma removed_bits x t th k p : kinv x k -> k_threads k !! t = Some th ->
  0 <= p < RT_THREAD_PRIORITY_MAX ->
  (Z.testbit (k_group (removed t th k)) p = true <-> lst (removed t th k) (LReady p) <> []).
Proof.
  intros K Ht Hp. pose proof (ki_thread _ _ K _ _ Ht) as (Hcp & _ & _ & Hmask).
  rewrite lst_removed. pose proof (ki_bits _ _ K p Hp) as Hbit.
  assert (filter (fun u => u <> t) (lst k (LReady p)) <> [] -> Z.testbit (k_group k) p = true) as Himp.
  { intros Hn. apply Hbit. intros E. by rewrite E in Hn. }
  destruct (decide (p = current_priority th)) as [->|Hne].
  - unfold removed. rewrite lst_remove. case_bool_decide as E; simpl.
    + rewrite E, Z.land_spec, wnot_testbit by done. split; [|done]. intros Hb.
      apply andb_true_iff in Hb as [Hb Hm]. exfalso.
      destruct Hmask as [Em|[_ Hst]]; [by rewrite Em, Z.pow2_bits_true in Hm by lia|].
      apply Hbit in Hb. apply list_ne_nil_iff in Hb as [u Hu].
      assert (u = t) as ->.
      { destruct (decide (u = t)); [done|]. exfalso. assert (u ∈ @nil nat) as Hc.
        { rewrite <- E. by apply list_elem_of_filter. } by apply not_elem_of_nil in Hc. }
      destruct (ki_member _ _ K _ _ Hu) as (_ & th' & Ht' & Hs & _). simplify_eq.
      rewrite Hs in Hst. by destruct Hst.
    + tauto.
  - assert (Z.testbit (k_group (removed t th k)) p = Z.testbit (k_group k) p) as ->.
    { unfold removed. case_bool_decide; simpl; [|done].
      rewrite Z.land_spec, wnot_testbit by done.
      destruct Hmask as [->|[-> _]]; [rewrite testbit_pow2 by lia|rewrite Z.bits_0];
        [rewrite bool_decide_eq_false_2 by congruence|]; apply andb_true_r. }
    split; [|done]. intros Hb. apply Hbit, list_ne_nil_iff in Hb as [u Hu].
    apply filter_ne_nil_iff. exists u. split; [done|]. intros ->.
    destruct (ki_member _ _ K _ _ Hu) as (_ & th' & Ht' & _ & Hq). simplify_eq.
Qed.

Lemma kinv_removed x t th k : kinv x k -> x = None \/ x = Some t ->
  k_threads k !! t = Some th -> kinv (Some t) (removed t th k).
Proof.
  intros K Hx Ht. pose proof (ki_group _ _ K) as Hg.
  assert (forall u, Some u <> Some t -> Some u <> x) as Hxx.
  { intros u Hu. destruct Hx as [->| ->]; congruence. }
  split; rewrite ?removed_threads, ?removed_current.
  - apply K.
  - intros l u. rewrite lst_removed. intros [Hne Hin]%list_elem_of_filter.
    split; [congruence|]. apply (ki_member _ _ K _ _ Hin).
  - intros l. rewrite lst_removed. apply NoDup_filter, K.
  - intros l1 l2 u. rewrite !lst_removed.
    intros [_ ?]%list_elem_of_filter [_ ?]%list_elem_of_filter. by eapply K.
  - intros u thu Hu Hne Hs. rewrite lst_removed. apply list_elem_of_filter.
    split; [congruence|]. eapply K; eauto.
  - intros u thu Hu Hne. eapply K; eauto.
  - apply K.
  - unfold removed. destruct (bool_decide _); simpl; [|done].
    apply land_bounds; [lia|]. apply wnot_bounds. lia.
  - intros p Hp. by eapply removed_bits.
Qed.

(** [kinv] reads four components of the state. *)
Lemma kinv_ext x k k' : kinv x k ->
  k_threads k' = k_threads k -> k_lists k' = k_lists k ->
  k_group k' = k_group k -> k_current k' = k_current k -> kinv x k'.
Proof.
  intros K Et El Eg Ec. assert (forall l, lst k' l = lst k l) as El'.
  { intros l. unfold lst. by rewrite El. }
  destruct K. split; intros *; rewrite ?Et, ?El', ?Eg, ?Ec; eauto.
Qed.

(** The exempt thread may be changed freely. *)
Lemma kinv_put t th k : kinv (Some t) k -> thread_ok th -> kinv (Some t) (put_thread t th k).
Proof.
  intros K Hok. pose proof K as [? Hm ? ? Hr Hrun Hc ? ?].
  unfold put_thread. split; try (by apply K); simpl; intros *; rewrite ?lookup_insert.
  - case_decide; intros; simplify_eq; eauto.
  - intros Hin. destruct (Hm l t0 Hin) as (Hne & th' & ? & ?).
    split; [done|]. exists th'. rewrite decide_False by congruence. done.
  - case_decide; intros; simplify_eq; eauto.
  - case_decide; intros; simplify_eq; eauto.
  - case_decide; eauto.
Qed.

(** Taking a thread back under the invariant, and exempting one. *)
Lemma kinv_close t th k : kinv (Some t) k -> k_threads k !! t = Some th ->
  stat th <> RT_THREAD_READY -> (stat th = RT_THREAD_RUNNING -> k_current k = Some t) ->
  kinv None k.
Proof.
  intros K Ht Hs Hrun. split; try (by apply K).
  - intros l u Hu. split; [done|]. by apply (ki_member _ _ K).
  - intros u thu Hu _ Hsu. destruct (decide (u = t)) as [->|]; [by simplify_eq|].
    eapply K; eauto. congruence.
  - intros u thu Hu _ Hsu. destruct (decide (u = t)) as [->|]; [by simplify_eq; auto|].
    eapply K; eauto. congruence.
Qed.

Lemma kinv_open t k : kinv None k -> (forall l, t ∉ lst k l) -> kinv (Some t) k.
Proof.
  intros K Hno. split; try (by apply K).
  - intros l u Hu. split; [|by apply (ki_member _ _ K)].
    intros [= ->]. by eapply Hno.
  - intros u thu Hu _. by eapply K.
  - intros u thu Hu _. by eapply K.
Qed.

Lemma exempt_no_list t k l : kinv (Some t) k -> t ∉ lst k l.
Proof. intros K Hin. by destruct (ki_member _ _ K _ _ Hin). Qed.

(** Linking the exempt thread into the list its state calls for. *)
Lemma kinv_link t th k l ts g : kinv (Some t) k -> k_threads k !! t = Some th ->
  list_stat l th -> ts ≡ₚ t :: lst k l ->
  0 <= g < 2 ^ 32 ->
  (forall p, 0 <= p < RT_THREAD_PRIORITY_MAX ->
     Z.testbit g p = Z.testbit (k_group k) p || bool_decide (l = LReady p)) ->
  kinv None (set_k_group g (set_k_lists (<[l := ts]> (k_lists k)) k)).
Proof.
  intros K Ht Hls Hp Hg Hbits.
  set (k' := set_k_group g _).
  assert (forall l', lst k' l' = if decide (l = l') then ts else lst k l') as El.
  { intros l'. apply (lst_set k l ts l'). }
  assert (forall l' u, u ∈ lst k' l' <-> (u = t /\ l = l') \/ u ∈ lst k l') as Hin.
  { intros l' u. rewrite El. case_decide; subst; [rewrite Hp, elem_of_cons|]; naive_solver. }
  assert (stat th = RT_THREAD_RUNNING -> False) as Hnrun.
  { intros E. destruct l; simpl in Hls; rewrite E in Hls; destruct_and?; done. }
  split; change (k_threads k') with (k_threads k); change (k_current k') with (k_current k).
  - apply K.
  - intros l' u [[-> <-]|Hu]%Hin; [eauto|]. split; [done|]. by apply (ki_member _ _ K).
  - intros l'. rewrite El. case_decide; [|apply K]. rewrite Hp. constructor; [|apply K].
    by apply exempt_no_list.
  - intros l1 l2 u Hu1 Hu2. apply Hin in Hu1, Hu2.
    destruct Hu1 as [[-> <-]|Hu1], Hu2 as [[? <-]|Hu2]; subst; try done.
    + by apply exempt_no_list in Hu2.
    + by apply exempt_no_list in Hu1.
    + by eapply K.
  - intros u thu Hu _ Hsu. apply Hin. destruct (decide (u = t)) as [->|Hne].
    + left. simplify_eq. split; [done|].
      destruct l; simpl in Hls; rewrite Hsu in Hls; naive_solver.
    + right. eapply K; eauto; congruence.
  - intros u thu Hu _ Hsu. destruct (decide (u = t)) as [->|Hne]; [by simplify_eq|].
    eapply K; eauto; congruence.
  - apply K.
  - done.
  - intros p Hpr. change (k_group k') with g. rewrite Hbits, El by done.
    pose proof (ki_bits _ _ K p Hpr) as Hb.
    case_bool_decide; subst; [rewrite orb_true_r, decide_True by done|
                              rewrite orb_false_r, decide_False by done; done].
    split; [|done]. intros _ ->. by apply Permutation_nil_cons in Hp.
Qed.

Lemma thread_ok_stat s th : thread_ok th -> 0 <= s <= RT_THREAD_CLOSE ->
  (s = RT_THREAD_INIT \/ number_mask th = 2 ^ current_priority th) -> thread_ok (set_stat s th).
Proof. intros (?&?&?&Hm) Hs Hor. unfold thread_ok; simpl. split_and!; (lia || naive_solver). Qed.

Lemma thread_ok_close th : thread_ok th -> thread_ok (set_stat RT_THREAD_CLOSE th).
Proof. intros (?&?&?&Hm). unfold thread_ok; simpl. split_and!; [lia..|naive_solver]. Qed.

Lemma started_mask th : thread_ok th -> stat th <> RT_THREAD_INIT -> stat th <> RT_THREAD_CLOSE ->
  number_mask th = 2 ^ current_priority th.
Proof. intros (_&_&_&[?|[_ [?|?]]]) ??; done. Qed.

Lemma lor_bit_bound g p : 0 <= g < 2 ^ 32 -> 0 <= p < 32 -> 0 <= Z.lor g (2 ^ p) < 2 ^ 32.
Proof.
  intros Hg Hp. apply lor_bounds; [lia..|]. split; [apply Z.pow_nonneg; lia|].
  apply Z.pow_lt_mono_r; lia.
Qed.

Lemma kinv_inserted t th k : kinv (Some t) k -> k_threads k !! t = Some th ->
  number_mask th = 2 ^ current_priority th -> kinv None (inserted t th k).
Proof.
  intros K Ht Hm. pose proof (ki_thread _ _ K _ _ Ht) as Hok. pose proof Hok as (Hp & _).
  unfold inserted. case_bool_decide as Hc.
  - eapply kinv_close; [apply kinv_put; [done|]|simpl; apply lookup_insert_eq|done|done].
    apply thread_ok_stat; [done|done|by right].
  - assert (kinv (Some t) (put_thread t (set_stat RT_THREAD_READY th) k)) as K'.
    { apply kinv_put; [done|]. apply thread_ok_stat; [done|done|by right]. }
    assert (forall l, lst (put_thread t (set_stat RT_THREAD_READY th) k) l = lst k l) as El by done.
    rewrite Hm. eapply (kinv_link t (set_stat RT_THREAD_READY th) _ _ _ _ K').
    + simpl. apply lookup_insert_eq.
    + done.
    + rewrite El. by rewrite Permutation_app_comm.
    + apply lor_bit_bound; [apply K|done].
    + intros p Hpr. simpl. rewrite Z.lor_spec, testbit_pow2 by lia. f_equal.
      apply bool_decide_ext. naive_solver.
Qed.

(** ** Find first set *)

Lemma pos_ffs_spec p : 1 <= pos_ffs p /\ Z.testbit (Zpos p) (pos_ffs p - 1) = true /\
  forall j, 0 <= j < pos_ffs p - 1 -> Z.testbit (Zpos p) j = false.
Proof.
  induction p as [p IH|p IH|]; simpl pos_ffs.
  - split_and!; [lia|done|lia].
  - destruct IH as (Hge & Hb & Hlow). split_and!; [lia| |].
    + rewrite Pos2Z.inj_xO. replace (1 + pos_ffs p - 1) with (Z.succ (pos_ffs p - 1)) by lia.
      by rewrite Z.testbit_even_succ by lia.
    + intros j Hj. rewrite Pos2Z.inj_xO. destruct (decide (j = 0)) as [->|].
      * apply Z.testbit_even_0.
      * replace j with (Z.succ (j - 1)) by lia. rewrite Z.testbit_even_succ by lia. apply Hlow. lia.
  - split_and!; [lia|done|lia].
Qed.

Lemma ffs_spec v : 0 < v < 2 ^ 32 -> 0 <= __rt_ffs v - 1 < 32 /\
  Z.testbit v (__rt_ffs v - 1) = true /\
  forall j, 0 <= j < __rt_ffs v - 1 -> Z.testbit v j = false.
Proof.
  intros Hv. unfold __rt_ffs. rewrite wrap_small by lia. destruct v as [|p|p]; try lia.
  destruct (pos_ffs_spec p) as (Hge & Hb & Hlow). split_and!; try done; [lia|].
  apply Z.nle_gt. intros Hc. rewrite Z.bits_above_log2 in Hb; [done|lia|].
  eapply Z.lt_le_trans; [|exact Hc]. apply Z.log2_lt_pow2; lia.
Qed.

(** ** rt_schedule *)

(** Making another thread current, when no thread but the exempt one runs. *)
Lemma kinv_switch x k c p : kinv x k -> is_Some (k_threads k !! c) ->
  (forall t th, k_threads k !! t = Some th -> Some t <> x -> stat th <> RT_THREAD_RUNNING) ->
  kinv x (set_k_current (Some c) (set_k_current_priority p k)).
Proof.
  intros K Hc Hr. pose proof K as []. split; simpl; try done.
  - intros t th Ht Hne Hs. by destruct (Hr _ _ Ht Hne).
  - intros c' [= <-]. done.
Qed.

Lemma highest_run k x : kinv x k -> k_group k <> 0 ->
  exists t p, _get_highest_priority_thread k = Some ((t, p), k) /\
    0 <= p < RT_THREAD_PRIORITY_MAX /\ head (lst k (LReady p)) = Some t /\
    forall q, lst k (LReady q) <> [] -> p <= q.
Proof.
  intros K Hg. pose proof (ki_group _ _ K).
  destruct (ffs_spec (k_group k)) as (Hp & Hb & Hlow); [lia|].
  set (p := __rt_ffs (k_group k) - 1) in *.
  apply (ki_bits _ _ K p Hp) in Hb as Hne.
  destruct (lst k (LReady p)) as [|t ts] eqn:E; [done|].
  exists t, p. split; [|split; [exact Hp|split; [by rewrite E|]]].
  - unfold _get_highest_priority_thread, get, lift, mbind, M_bind; simpl. fold p. by rewrite E.
  - intros q Hq. apply Z.nlt_ge. intros Hlt.
    apply list_ne_nil_iff in Hq as Hq'. destruct Hq' as [u Hu].
    destruct (ki_member _ _ K _ _ Hu) as (_ & th & Ht & _ & Hqp).
    destruct (ki_thread _ _ K _ _ Ht) as (Hr & _).
    apply (ki_bits _ _ K q) in Hq; [|lia]. rewrite Hlow in Hq by lia. done.
Qed.

(** What a pass of the scheduler may change: the two lists of ready threads it
    touches, the states of two threads between ready and running, and who is
    current. *)
Definition ready_or_running (s : Z) : Prop := s = RT_THREAD_READY \/ s = RT_THREAD_RUNNING.

Record sched_rel (k k' : kernel) : Prop := {
  sr_frame : k' = set_k_threads (k_threads k') (set_k_lists (k_lists k')
    (set_k_group (k_group k') (set_k_current (k_current k')
    (set_k_current_priority (k_current_priority k') k))));
  sr_wait : forall l, (forall p, l <> LReady p) -> lst k' l = lst k l;
  sr_thread : forall t th, k_threads k !! t = Some th -> exists s,
    k_threads k' !! t = Some (set_stat s th) /\
    (s = stat th \/ ready_or_running (stat th) /\ ready_or_running s);
  sr_dom : dom (k_threads k') = dom (k_threads k);
  sr_current : is_Some (k_current k) -> is_Some (k_current k')
}.

Lemma set_stat_same th : set_stat (stat th) th = th.
Proof. by destruct th. Qed.

Lemma sched_rel_refl k : sched_rel k k.
Proof.
  split; [by destruct k|done| |done|done].
  intros t th Ht. exists (stat th). rewrite set_stat_same. auto.
Qed.

Lemma sched_rel_trans k1 k2 k3 : sched_rel k1 k2 -> sched_rel k2 k3 -> sched_rel k1 k3.
Proof.
  intros [F1 W1 T1 D1 C1] [F2 W2 T2 D2 C2]. split.
  - etrans; [exact F2|]. rewrite F1. by destruct k1.
  - intros l Hl. by rewrite W2, W1.
  - intros t th Ht. destruct (T1 t th Ht) as (s1 & Ht1 & H1).
    destruct (T2 t _ Ht1) as (s2 & Ht2 & H2). exists s2. split; [by rewrite Ht2|].
    simpl in H2. naive_solver.
  - by rewrite D2, D1.
  - auto.
Qed.

Lemma sched_rel_put t th s k : k_threads k !! t = Some th ->
  (s = stat th \/ ready_or_running (stat th) /\ ready_or_running s) ->
  sched_rel k (put_thread t (set_stat s th) k).
Proof.
  intros Ht Hs. split; [by destruct k|done| | |done].
  - intros u thu Hu. unfold put_thread; simpl. rewrite lookup_insert. case_decide; subst.
    + simplify_eq. eauto.
    + exists (stat thu). rewrite set_stat_same. auto.
  - unfold put_thread; simpl. rewrite dom_insert_L.
    apply elem_of_dom_2 in Ht. set_solver.
Qed.

Lemma filter_not_in (t : nat) (l : list nat) : t ∉ l -> filter (fun u => u <> t) l = l.
Proof.
  induction l as [|u l IH]; [done|]. rewrite not_elem_of_cons. intros [Hne Hl].
  rewrite filter_cons, decide_True by congruence. f_equal. auto.
Qed.

Lemma sched_rel_removed x t th k : kinv x k -> k_threads k !! t = Some th ->
  (forall l, (forall p, l <> LReady p) -> t ∉ lst k l) -> sched_rel k (removed t th k).
Proof.
  intros K Ht Hno. split.
  - unfold removed. by destruct (bool_decide _), k.
  - intros l Hl. rewrite lst_removed. apply filter_not_in. auto.
  - intros u thu Hu. exists (stat thu). rewrite removed_threads, set_stat_same. auto.
  - by rewrite removed_threads.
  - by rewrite removed_current.
Qed.

Lemma sched_rel_inserted t th k : k_threads k !! t = Some th ->
  ready_or_running (stat th) -> sched_rel k (inserted t th k).
Proof.
  intros Ht Hr. unfold inserted. case_bool_decide.
  - apply sched_rel_put; [done|]. right. split; [done|by right].
  - eapply sched_rel_trans; [apply (sched_rel_put t th RT_THREAD_READY k Ht)|].
    { right. split; [done|by left]. }
    split; [by destruct k| | |done|done].
    + intros l Hl. unfold lst; simpl. by rewrite lookup_insert_ne by congruence.
    + intros u thu Hu. exists (stat thu). rewrite set_stat_same. auto.
Qed.

Lemma sched_rel_current k c p :
  sched_rel k (set_k_current (Some c) (set_k_current_priority p k)).
Proof.
  split; [by destruct k|done| |done|by simpl; eauto].
  intros t th Ht. exists (stat th). rewrite set_stat_same. auto.
Qed.

(** The thread in [k_current] is off the queues and runs. *)
Definition dispatch (to : nat) (th : rt_thread) (k : kernel) : kernel :=
  put_thread to (set_stat RT_THREAD_RUNNING th) (removed to th k).

Lemma dispatch_run to th k : k_threads k !! to = Some th -> thread_ok th ->
  (rt_schedule_remove_thread to;; thread_mod to (with_stat RT_THREAD_RUNNING)) k
  = Some (tt, dispatch to th k).
Proof.
  intros Ht Hok. erewrite bind_some by (by apply remove_thread_run).
  erewrite thread_mod_run by (by rewrite removed_threads).
  rewrite with_stat_eq by done. unfold dispatch, put_thread. done.
Qed.

Lemma kinv_dispatch x to th k : kinv x k -> x = None \/ x = Some to ->
  k_threads k !! to = Some th ->
  k_current k = Some to -> ready_or_running (stat th) ->
  kinv None (dispatch to th k) /\ sched_rel k (dispatch to th k).
Proof.
  intros K Hx Ht Hc Hr. pose proof (ki_thread _ _ K _ _ Ht) as Hok.
  assert (number_mask th = 2 ^ current_priority th) as Hm.
  { apply started_mask; [done|by destruct Hr as [->| ->]..]. }
  assert (kinv (Some to) (removed to th k)) as Kr by (by eapply kinv_removed).
  split.
  - eapply kinv_close; [apply kinv_put; [done|]|apply lookup_insert_eq|done|].
    + apply thread_ok_stat; [done|done|by right].
    + intros _. unfold put_thread; simpl. by rewrite removed_current.
  - eapply sched_rel_trans; [eapply (sched_rel_removed x); [done..|]|apply sched_rel_put].
    + intros l Hl Hin. destruct (ki_member _ _ K _ _ Hin) as (_ & th' & Ht' & Hs). simplify_eq.
      destruct l; simpl in Hs; rewrite ?Hs in Hr; destruct Hr; try done; by edestruct Hl.
    + by rewrite removed_threads.
    + right. split; [done|by right].
Qed.

Lemma lst_dispatch to th k l : lst (dispatch to th k) l = filter (fun u => u <> to) (lst k l).
Proof. apply lst_removed. Qed.

(** The property a pass establishes: nobody ready has a better priority. *)
Definition highest_running (k : kernel) : Prop :=
  exists c th, k_current k = Some c /\ k_threads k !! c = Some th /\
    stat th = RT_THREAD_RUNNING /\
    forall p, lst k (LReady p) <> [] -> current_priority th <= p.

Lemma dispatch_highest to th k : k_current k = Some to ->
  (forall p, filter (fun u => u <> to) (lst k (LReady p)) <> [] -> current_priority th <= p) ->
  highest_running (dispatch to th k).
Proof.
  intros Hc Hp. exists to, (set_stat RT_THREAD_RUNNING th). split_and!.
  - unfold dispatch, put_thread; simpl. by rewrite removed_current.
  - apply lookup_insert_eq.
  - done.
  - intros p. rewrite lst_dispatch. apply Hp.
Qed.

(** What a pass of the scheduler establishes. *)
Definition sched_post (k k' : kernel) : Prop :=
  kinv None k' /\ sched_rel k k' /\ highest_running k'.

Section pass.
Variables (k : kernel) (c to : nat) (thc tht : rt_thread) (p : Z).
Hypothesis K : kinv None k.
Hypothesis Hc : k_current k = Some c.
Hypothesis Hthc : k_threads k !! c = Some thc.
Hypothesis Htht : k_threads k !! to = Some tht.
Hypothesis Hst : stat tht = RT_THREAD_READY.
Hypothesis Hpt : current_priority tht = p.
Hypothesis Hmin : forall q, lst k (LReady q) <> [] -> p <= q.

Let k1 := set_k_current (Some to) (set_k_current_priority (u8 p) k).

Lemma min_filter t q : filter (fun u => u <> t) (lst k (LReady q)) <> [] -> p <= q.
Proof.
  intros (u & Hu & _)%filter_ne_nil_iff. apply Hmin, list_ne_nil_iff. eauto.
Qed.

Lemma pass_stay : ready_or_running (stat thc) -> current_priority thc <= p ->
  sched_post k (dispatch c thc k).
Proof.
  intros Es Ep. destruct (kinv_dispatch None c thc k) as [? ?]; try done; [by left|].
  split_and!; [done..|]. apply dispatch_highest; [done|].
  intros q Hq. apply min_filter in Hq. lia.
Qed.

Lemma pass_leave : stat thc <> RT_THREAD_RUNNING -> sched_post k (dispatch to tht k1).
Proof.
  intros Es. assert (kinv None k1) as K1.
  { apply kinv_switch; [done|eauto|]. intros t th Ht _ Hrs.
    pose proof (ki_running _ _ K _ _ Ht ltac:(done) Hrs). simplify_eq. }
  destruct (kinv_dispatch None to tht k1) as [? ?]; try done; [by left|by left|].
  split_and!; [done| |].
  - eapply sched_rel_trans; [apply (sched_rel_current k to (u8 p))|done].
  - apply dispatch_highest; [done|]. rewrite Hpt. apply min_filter.
Qed.

Lemma running_no_list l : stat thc = RT_THREAD_RUNNING -> c ∉ lst k l.
Proof.
  intros Es Hin. destruct (ki_member _ _ K _ _ Hin) as (_ & th' & Ht' & Hs).
  simplify_eq. destruct l; simpl in Hs; rewrite ?Es in Hs; destruct_and?; done.
Qed.

Lemma pass_preempt : stat thc = RT_THREAD_RUNNING -> p <= current_priority thc -> to <> c ->
  k_threads (inserted c thc k1) !! to = Some tht /\
  sched_post k (dispatch to tht (inserted c thc k1)).
Proof.
  intros Es Ep Hne.
  assert (kinv (Some c) k1) as K1.
  { apply kinv_switch; [apply kinv_open; [done|]|eauto|].
    - intros l. by apply running_no_list.
    - intros t th Ht Hnc Hrs. apply Hnc. f_equal.
      pose proof (ki_running _ _ K _ _ Ht ltac:(done) Hrs). congruence. }
  pose proof (ki_thread _ _ K _ _ Hthc) as Hokc.
  assert (number_mask thc = 2 ^ current_priority thc) as Hm.
  { apply started_mask; [done|by rewrite Es..]. }
  assert (kinv None (inserted c thc k1)) as K2 by (by apply kinv_inserted).
  assert (inserted c thc k1 = set_k_group (Z.lor (k_group k) (number_mask thc))
    (set_k_lists (<[LReady (current_priority thc) := lst k (LReady (current_priority thc)) ++ [c]]> (k_lists k))
      (put_thread c (set_stat RT_THREAD_READY thc) k1))) as Ei.
  { unfold inserted. rewrite bool_decide_eq_false_2 by (simpl; congruence). done. }
  assert (k_threads (inserted c thc k1) !! to = Some tht) as Hto2.
  { rewrite Ei; simpl. by rewrite lookup_insert_ne by done. }
  assert (k_current (inserted c thc k1) = Some to) as Hc2 by (by rewrite Ei).
  destruct (kinv_dispatch None to tht (inserted c thc k1)) as [? Hrel]; try done; [by left|by left|].
  split; [done|]. split_and!; [done| |].
  - eapply sched_rel_trans; [apply (sched_rel_current k to (u8 p))|].
    eapply sched_rel_trans; [|done]. apply sched_rel_inserted; [done|by right].
  - apply dispatch_highest; [done|]. rewrite Hpt. intros q (u & Hu & _)%filter_ne_nil_iff.
    rewrite Ei in Hu. unfold lst in Hu; simpl in Hu. rewrite lookup_insert in Hu.
    case_decide; [simplify_eq; lia|]. apply Hmin, list_ne_nil_iff. eauto.
Qed.
End pass.

Lemma schedule_spec k c : kinv None k -> k_current k = Some c ->
  exists k', rt_schedule k = Some (tt, k') /\ kinv None k' /\ sched_rel k k' /\
    (k_lock_nest k = 0 -> k_group k <> 0 -> highest_running k') /\
    (k_lock_nest k <> 0 \/ k_group k = 0 -> k' = k).
Proof.
  intros K Hc. unfold rt_schedule. rewrite get_bind.
  destruct (k_lock_nest k =? 0) eqn:El; zify_bool.
  2:{ exists k. pose proof (sched_rel_refl k). by split_and!. }
  destruct (k_group k =? 0) eqn:Eg; zify_bool.
  { exists k. pose proof (sched_rel_refl k). by split_and!. }
  destruct (highest_run k None K Eg) as (to & p & Hrun & Hp & Hhd & Hmin).
  erewrite bind_some by exact Hrun. unfold self. erewrite lift_bind by exact Hc.
  destruct (ki_current _ _ K c Hc) as [thc Hthc]. unfold thread_get.
  erewrite lift_bind by exact Hthc. pose proof (ki_thread _ _ K _ _ Hthc) as Hokc.
  rewrite stat_of_eq by done.
  assert (to ∈ lst k (LReady p)) as Hto by (by apply head_Some_elem_of).
  destruct (ki_member _ _ K _ _ Hto) as (_ & tht & Htht & Hst & Hpt).
  pose proof (ki_thread _ _ K _ _ Htht) as Hokt.
  assert (forall k', sched_post k k' -> kinv None k' /\ sched_rel k k' /\
    (k_lock_nest k = 0 -> k_group k <> 0 -> highest_running k') /\
    (k_lock_nest k <> 0 \/ k_group k = 0 -> k' = k)) as Hpost.
  { intros k' (?&?&?). split_and!; try done. intros [?|?]; done. }
  destruct (stat thc =? RT_THREAD_RUNNING) eqn:Es; zify_bool;
    [destruct (current_priority thc <? p) eqn:Ep; zify_bool|].
  - rewrite bool_decide_eq_false_2 by naive_solver.
    rewrite dispatch_run with (th := thc) by done.
    eexists. split; [reflexivity|]. apply Hpost. eapply pass_stay; try done; [by right|lia].
  - assert (to <> c) as Hne by (intros ->; simplify_eq; by rewrite Hst in Es).
    destruct (pass_preempt k c to thc tht p) as [? ?]; try done.
    rewrite bool_decide_eq_true_2, !modify_bind, when_bind by done.
    erewrite bind_some by (by apply insert_thread_run).
    rewrite dispatch_run with (th := tht) by done.
    eexists. split; [reflexivity|]. eauto.
  - destruct (decide (to = c)) as [->|Hne].
    + rewrite bool_decide_eq_false_2 by naive_solver. simplify_eq.
      rewrite dispatch_run with (th := thc) by done.
      eexists. split; [reflexivity|]. apply Hpost. eapply pass_stay; try done. by left.
    + rewrite bool_decide_eq_true_2, !modify_bind, when_bind by done.
      rewrite dispatch_run with (th := tht) by done.
      eexists. split; [reflexivity|]. eauto using pass_leave.
Qed.
