(* ===== verification/Object.v ===== *)
(** * Kernel objects: object.c

    Every kernel object has a name, a type and a place in the list of its class.
    An object is addressed by its class and an index; the container of a class
    is the list of its members, newest first. *)

From S2P Require Import Prelude Kernel Sched.

Definition RT_Object_Class_Thread : Z := 1.
Definition RT_Object_Class_Semaphore : Z := 2.
Definition RT_Object_Class_Mutex : Z := 3.
Definition RT_Object_Class_Event : Z := 4.
Definition RT_Object_Class_MailBox : Z := 5.
Definition RT_Object_Class_MessageQueue : Z := 6.
Definition RT_Object_Class_MemHeap : Z := 7.
Definition RT_Object_Class_MemPool : Z := 8.
Definition RT_Object_Class_Device : Z := 9.
Definition RT_Object_Class_Timer : Z := 10.
Definition RT_Object_Class_Unknown : Z := 12.
Definition RT_Object_Class_Static : Z := 0x80.

(** The classes [rt_object_container] has an entry for in this configuration, in
    the order of [enum rt_object_info_type]. *)
Definition rt_object_container : list Z :=
  [RT_Object_Class_Thread; RT_Object_Class_Semaphore; RT_Object_Class_Mutex;
   RT_Object_Class_Event; RT_Object_Class_MailBox; RT_Object_Class_MessageQueue;
   RT_Object_Class_MemHeap; RT_Object_Class_MemPool; RT_Object_Class_Device;
   RT_Object_Class_Timer].

(** The index of the entry, [None] for [RT_NULL]. *)
Definition rt_object_get_information (type : Z) : option nat :=
  fst <$> list_find (fun c => c = type) rt_object_container.

(** [rt_strncpy(dst, src, n)] into a field of [n] bytes: the characters up to
    the terminator, then zeros; no terminator when the source is too long. *)
Definition rt_strncpy (src : list Z) (n : Z) : list Z :=
  let s := take (Z.to_nat n) src in
  s ++ replicate (Z.to_nat n - length s) 0.

(** [rt_strncmp(cs, ct, n) == 0] on a field and a terminated string: equal up to
    the first zero or [n] characters. *)
Fixpoint rt_strncmp_eq (cs ct : list Z) (count : nat) : bool :=
  match count with
  | O => true
  | S count =>
      let c := default 0 (head cs) in
      let d := default 0 (head ct) in
      if negb (c =? d) then false
      else if c =? 0 then true
      else rt_strncmp_eq (tail cs) (tail ct) count
  end.

Definition container (k : kernel) (c : Z) : list tmid := default [] (k_container k !! c).

(** A class without a container entry makes [information] null, and the next
    access undefined.  The body under the scheduler lock only asserts (assertions are compiled
    out); leaving the critical section may switch threads. *)
Definition rt_object_init (type : Z) (object : tmid) (name : list Z) : M unit :=
  _ ← lift (fun _ => rt_object_get_information type);
  rt_enter_critical;;
  rt_exit_critical;;
  modify (fun k => set_k_objects
    (<[(type, object) := {| o_type := Z.lor type RT_Object_Class_Static;
                            o_name := rt_strncpy name RT_NAME_MAX |}]> (k_objects k)) k);;
  modify (fun k => set_k_container (<[type := object :: container k type]> (k_container k)) k).

(** Allocation is the memory manager's: [mem] is what [RT_KERNEL_MALLOC]
    returned for the object. *)
Definition rt_object_allocate (type : Z) (mem : option tmid) (name : list Z) : M (option tmid) :=
  _ ← lift (fun _ => rt_object_get_information type);
  match mem with
  | None => mret None
  | Some object =>
      modify (fun k => set_k_objects
        (<[(type, object) := {| o_type := type;
                                o_name := rt_strncpy name RT_NAME_MAX |}]> (k_objects k)) k);;
      modify (fun k => set_k_container (<[type := object :: container k type]> (k_container k)) k);;
      mret (Some object)
  end.

Definition object_get (type : Z) (object : tmid) : M rt_object :=
  lift (fun k => k_objects k !! (type, object)).

Definition rt_object_detach (type : Z) (object : tmid) : M unit :=
  o ← object_get type object;
  modify (fun k => set_k_objects (<[(type, object) := set_o_type 0 o]> (k_objects k)) k);;
  modify (fun k => set_k_container
    (<[type := filter (fun o => o <> object) (container k type)]> (k_container k)) k).

(** [RT_KERNEL_FREE] of the object: it is gone from the store. *)
Definition rt_object_delete (type : Z) (object : tmid) : M unit :=
  o ← object_get type object;
  modify (fun k => set_k_container
    (<[type := filter (fun o => o <> object) (container k type)]> (k_container k)) k);;
  modify (fun k => set_k_objects (delete (type, object) (k_objects k)) k).

Definition rt_object_is_systemobject (type : Z) (object : tmid) : M bool :=
  o ← object_get type object;
  mret (negb (Z.land (o_type o) RT_Object_Class_Static =? 0)).

Definition rt_object_get_type (type : Z) (object : tmid) : M Z :=
  o ← object_get type object;
  mret (Z.land (o_type o) (wnot 8 RT_Object_Class_Static)).

(** The search of a container by name. *)
Fixpoint find_by_name (k : kernel) (type : Z) (name : list Z) (l : list tmid) : option tmid :=
  match l with
  | [] => None
  | object :: l =>
      match k_objects k !! (type, object) with
      | Some o =>
          if rt_strncmp_eq (o_name o) name (Z.to_nat RT_NAME_MAX)
          then Some object else find_by_name k type name l
      | None => None
      end
  end.

Definition rt_object_find (name : list Z) (type : Z) : M (option tmid) :=
  if type >? RT_Object_Class_Unknown then mret None else
  rt_enter_critical;;
  _ ← lift (fun _ => rt_object_get_information type);
  k ← get;
  let object := find_by_name k type name (container k type) in
  rt_exit_critical;;
  mret object.
