(* ===== verification/Thread.v ===== *)
(** * Threads, timers and the tick: thread.c, timer.c, clock.c, idle.c

    The timer list has one level ([RT_TIMER_SKIP_LIST_LEVEL] is 1), kept sorted
    by expiry; a thread's own timer ([inl t]) wakes it with [-RT_ETIMEOUT].
    Blocking calls are split at [rt_schedule]: what follows it runs when the
    thread is scheduled again and is a definition of its own. *)

From S2P Require Import Prelude Kernel Sched Object.

(** ** Timers that need no thread operation *)

Definition flag_set (flag bit : Z) : bool := negb (Z.land flag bit =? 0).
Definition flag_clear (flag bit : Z) : Z := Z.land flag (wnot 8 bit).

Definition _rt_timer_init (timer : tmid) (timeout : timeout_fn) (time flag : Z) : M unit :=
  modify (fun k => set_k_timers
    (<[timer := {| tm_flag := flag_clear flag RT_TIMER_FLAG_ACTIVATED;
                   timeout_func := timeout;
                   tm_init_tick := time;
                   timeout_tick := 0 |}]> (k_timers k)) k).

Definition rt_timer_init (timer : tmid) (name : list Z) (timeout : timeout_fn) (time flag : Z) : M unit :=
  rt_object_init RT_Object_Class_Timer timer name;;
  _rt_timer_init timer timeout time flag.

Definition _rt_timer_remove (timer : tmid) : M unit :=
  modify (fun k => set_k_timer_list (filter (fun i => i <> timer) (k_timer_list k))
                  (set_k_soft_timer_list (filter (fun i => i <> timer) (k_soft_timer_list k)) k)).

Definition rt_timer_detach (timer : tmid) : M Z :=
  _rt_timer_remove timer;;
  rt_object_detach RT_Object_Class_Timer timer;;
  mret RT_EOK.

Definition rt_timer_create (mem : option tmid) (name : list Z) (timeout : timeout_fn) (time flag : Z)
  : M (option tmid) :=
  timer ← rt_object_allocate RT_Object_Class_Timer mem name;
  match timer with
  | None => mret None
  | Some i => _rt_timer_init i timeout time flag;; mret (Some i)
  end.

Definition rt_timer_delete (timer : tmid) : M Z :=
  _rt_timer_remove timer;;
  rt_object_delete RT_Object_Class_Timer timer;;
  mret RT_EOK.

Definition rt_timer_stop (timer : tmid) : M Z :=
  tm ← timer_get timer;
  if negb (flag_set (tm_flag tm) RT_TIMER_FLAG_ACTIVATED) then mret (- RT_ERROR) else
  _rt_timer_remove timer;;
  timer_mod timer (fun tm => set_tm_flag (flag_clear (tm_flag tm) RT_TIMER_FLAG_ACTIVATED) tm);;
  mret RT_EOK.

Inductive timer_cmd :=
  | RT_TIMER_CTRL_SET_TIME (arg : Z)
  | RT_TIMER_CTRL_GET_TIME
  | RT_TIMER_CTRL_SET_ONESHOT
  | RT_TIMER_CTRL_SET_PERIODIC.

(** The result of [GET_TIME] is what is stored through [arg]. *)
Definition rt_timer_control (timer : tmid) (cmd : timer_cmd) : M (option Z) :=
  tm ← timer_get timer;
  match cmd with
  | RT_TIMER_CTRL_GET_TIME => mret (Some (tm_init_tick tm))
  | RT_TIMER_CTRL_SET_TIME arg => timer_mod timer (set_tm_init_tick (u32 arg));; mret None
  | RT_TIMER_CTRL_SET_ONESHOT =>
      timer_mod timer (fun tm => set_tm_flag (flag_clear (tm_flag tm) RT_TIMER_FLAG_PERIODIC) tm);; mret None
  | RT_TIMER_CTRL_SET_PERIODIC =>
      timer_mod timer (fun tm => set_tm_flag (Z.lor (tm_flag tm) RT_TIMER_FLAG_PERIODIC) tm);; mret None
  end.

(** ** Suspend and resume *)

Definition rt_thread_suspend (thread : nat) : M Z :=
  th ← thread_get thread;
  if negb (stat_of th =? RT_THREAD_READY) && negb (stat_of th =? RT_THREAD_RUNNING)
  then mret (- RT_ERROR) else
  rt_schedule_remove_thread thread;;
  thread_mod thread (with_stat RT_THREAD_SUSPEND);;
  rt_timer_stop (inl thread);;
  mret RT_EOK.

Definition rt_thread_resume (thread : nat) : M Z :=
  th ← thread_get thread;
  if negb (stat_of th =? RT_THREAD_SUSPEND) then mret (- RT_ERROR) else
  rt_list_remove thread;;
  rt_timer_stop (inl thread);;
  rt_schedule_insert_thread thread;;
  mret RT_EOK.

(** ** Starting a timer *)

(** The walk over the sorted list: past timers that expire earlier or at the
    same tick, in the modular order of the 32-bit tick. *)
Fixpoint timer_insert (timers : gmap tmid rt_timer) (timer : tmid) (tick : Z) (l : list tmid)
  : option (list tmid) :=
  match l with
  | [] => Some [timer]
  | i :: l' =>
      t ← timers !! i;
      let d := u32 (timeout_tick t - tick) in
      if d =? 0 then l'' ← timer_insert timers timer tick l'; Some (i :: l'')
      else if d <? RT_TICK_MAX / 2 then Some (timer :: i :: l')
      else l'' ← timer_insert timers timer tick l'; Some (i :: l'')
  end.

Definition rt_timer_start (timer : tmid) : M Z :=
  _rt_timer_remove timer;;
  timer_mod timer (fun tm => set_tm_flag (flag_clear (tm_flag tm) RT_TIMER_FLAG_ACTIVATED) tm);;
  k ← get;
  timer_mod timer (fun tm => set_timeout_tick (u32 (k_tick k + tm_init_tick tm)) tm);;
  tm ← timer_get timer;
  let soft := flag_set (tm_flag tm) RT_TIMER_FLAG_SOFT_TIMER in
  l ← lift (fun k => timer_insert (k_timers k) timer (timeout_tick tm)
                       (if soft then k_soft_timer_list k else k_timer_list k));
  modify (fun k => set_k_random_nr (u32 (k_random_nr k + 1)) k);;
  modify (fun k => if soft then set_k_soft_timer_list l k else set_k_timer_list l k);;
  timer_mod timer (fun tm => set_tm_flag (Z.lor (tm_flag tm) RT_TIMER_FLAG_ACTIVATED) tm);;
  (if soft then
    th ← thread_get (k_timer_thread k);
    when (stat_of th =? RT_THREAD_SUSPEND)
      (rt_thread_resume (k_timer_thread k);; rt_schedule)
  else mret tt);;
  mret RT_EOK.

(** ** Threads *)

(** The initialisation of the struct; the stack memory and the saved context
    ([rt_hw_stack_init]) are not part of the model.  Fields the code does not
    write keep their value, zero in a new struct. *)
Definition _rt_thread_init (thread : nat) (name : list Z) (priority tick : Z) : M Z :=
  modify (fun k =>
    let old := k_threads k !! thread in
    set_k_threads (<[thread :=
      {| stat := RT_THREAD_INIT; error := RT_EOK;
         current_priority := u8 priority; init_priority := u8 priority;
         number_mask := 0;
         event_set := default 0 (event_set <$> old);
         event_info := default 0 (event_info <$> old);
         init_tick := tick; remaining_tick := tick;
         has_cleanup := false |}]> (k_threads k)) k);;
  rt_timer_init (inl thread) name (fn_thread_timeout thread) 0 0;;
  mret RT_EOK.

Definition rt_thread_init (thread : nat) (name : list Z) (priority tick : Z) : M Z :=
  rt_object_init RT_Object_Class_Thread (inr thread) name;;
  _rt_thread_init thread name priority tick.

(** [stack] is what [RT_KERNEL_MALLOC(stack_size)] returned. *)
Definition rt_thread_create (mem : option nat) (stack : option Z) (name : list Z) (priority tick : Z)
  : M (option nat) :=
  o ← rt_object_allocate RT_Object_Class_Thread (inr <$> mem) name;
  match o, mem with
  | Some _, Some thread =>
      match stack with
      | None => rt_object_delete RT_Object_Class_Thread (inr thread);; mret None
      | Some _ => _rt_thread_init thread name priority tick;; mret (Some thread)
      end
  | _, _ => mret None
  end.

Definition set_priority (p : Z) (th : rt_thread) : rt_thread :=
  set_number_mask (u32 (Z.shiftl 1 p)) (set_current_priority p th).

Definition rt_thread_startup (thread : nat) : M Z :=
  thread_mod thread (fun th => set_priority (init_priority th) th);;
  thread_mod thread (set_stat RT_THREAD_SUSPEND);;
  rt_thread_resume thread;;
  s ← rt_thread_self;
  when (bool_decide (s <> None)) rt_schedule;;
  mret RT_EOK.

(** The common tail of exit, detach and delete: a static thread without a
    cleanup function is detached, another one waits for the idle thread. *)
Definition retire (thread : nat) : M unit :=
  th ← thread_get thread;
  b ← rt_object_is_systemobject RT_Object_Class_Thread (inr thread);
  if b && negb (has_cleanup th)
  then rt_object_detach RT_Object_Class_Thread (inr thread)
  else rt_list_insert_head LDefunct thread.

Definition rt_thread_exit : M unit :=
  thread ← self;
  rt_schedule_remove_thread thread;;
  thread_mod thread (set_stat RT_THREAD_CLOSE);;
  rt_timer_detach (inl thread);;
  retire thread;;
  rt_schedule.

Definition rt_thread_detach (thread : nat) : M Z :=
  th ← thread_get thread;
  when (negb (stat_of th =? RT_THREAD_INIT)) (rt_schedule_remove_thread thread);;
  rt_timer_detach (inl thread);;
  thread_mod thread (set_stat RT_THREAD_CLOSE);;
  retire thread;;
  mret RT_EOK.

Definition rt_thread_delete (thread : nat) : M Z :=
  th ← thread_get thread;
  when (negb (stat_of th =? RT_THREAD_INIT)) (rt_schedule_remove_thread thread);;
  rt_timer_detach (inl thread);;
  thread_mod thread (set_stat RT_THREAD_CLOSE);;
  rt_list_insert_head LDefunct thread;;
  mret RT_EOK.

Definition rt_thread_yield : M Z := rt_schedule;; mret RT_EOK.

(** [rt_thread_sleep] up to the point where the caller gives up the CPU, and
    what it does when it runs again. *)
Definition rt_thread_sleep (tick : Z) : M unit :=
  thread ← self;
  rt_thread_suspend thread;;
  rt_timer_control (inl thread) (RT_TIMER_CTRL_SET_TIME tick);;
  rt_timer_start (inl thread);;
  rt_schedule.

Definition rt_thread_sleep_resumed (thread : nat) : M Z :=
  th ← thread_get thread;
  when (error th =? - RT_ETIMEOUT) (thread_mod thread (set_error RT_EOK));;
  mret RT_EOK.

Definition rt_thread_delay (tick : Z) : M unit := rt_thread_sleep tick.

(** Truncating division of C on a non-negative count. *)
Definition rt_tick_from_millisecond (ms : Z) : Z :=
  if ms <? 0 then u32 RT_WAITING_FOREVER
  else u32 (u32 (RT_TICK_PER_SECOND * (ms / 1000)) +
            (RT_TICK_PER_SECOND * (ms mod 1000) + 999) / 1000).

Definition rt_thread_mdelay (ms : Z) : M unit := rt_thread_sleep (rt_tick_from_millisecond ms).

Inductive thread_cmd :=
  | RT_THREAD_CTRL_STARTUP
  | RT_THREAD_CTRL_CLOSE
  | RT_THREAD_CTRL_CHANGE_PRIORITY (arg : Z)
  | RT_THREAD_CTRL_OTHER.

Definition rt_thread_control (thread : nat) (cmd : thread_cmd) : M Z :=
  match cmd with
  | RT_THREAD_CTRL_CHANGE_PRIORITY arg =>
      th ← thread_get thread;
      (if stat_of th =? RT_THREAD_READY then
        rt_schedule_remove_thread thread;;
        thread_mod thread (set_priority (u8 arg));;
        rt_schedule_insert_thread thread
      else thread_mod thread (set_priority (u8 arg)));;
      mret RT_EOK
  | RT_THREAD_CTRL_STARTUP => rt_thread_startup thread
  | RT_THREAD_CTRL_CLOSE => rt_thread_delete thread
  | RT_THREAD_CTRL_OTHER => mret RT_EOK
  end.

Definition rt_thread_timeout (thread : nat) : M unit :=
  thread_mod thread (set_error (- RT_ETIMEOUT));;
  rt_list_remove thread;;
  rt_schedule_insert_thread thread;;
  rt_schedule.

Definition rt_thread_find (name : list Z) : M (option tmid) :=
  s ← rt_thread_self;
  when (bool_decide (s <> None)) rt_enter_critical;;
  k ← get;
  let o := find_by_name k RT_Object_Class_Thread name (container k RT_Object_Class_Thread) in
  s ← rt_thread_self;
  when (bool_decide (s <> None)) rt_exit_critical;;
  mret o.

(** ** The tick and the expiry of timers *)

(** Loops that may not end are given fuel; running out of it is undefined. *)
Definition stuck {A} : M A := fun _ => None.

Definition rt_timer_list_next_timeout (k : kernel) (timer_list : list tmid) : option Z :=
  match timer_list with
  | [] => Some RT_TICK_MAX
  | i :: _ => timeout_tick <$> k_timers k !! i
  end.

Definition rt_timer_next_timeout_tick : M Z :=
  lift (fun k => rt_timer_list_next_timeout k (k_timer_list k)).

Section callbacks.
(** The application's timer callbacks and thread cleanup functions. *)
Variable user_timeout : nat -> M unit.
Variable user_cleanup : nat -> M unit.

Definition run_timeout (f : timeout_fn) : M unit :=
  match f with
  | fn_thread_timeout t => rt_thread_timeout t
  | fn_user n => user_timeout n
  end.

(** After the callback: a periodic timer that is still active starts again. *)
Definition timer_rearm (i : tmid) : M unit :=
  t ← timer_get i;
  let again := flag_set (tm_flag t) RT_TIMER_FLAG_PERIODIC
               && flag_set (tm_flag t) RT_TIMER_FLAG_ACTIVATED in
  timer_mod i (fun tm => set_tm_flag (flag_clear (tm_flag tm) RT_TIMER_FLAG_ACTIVATED) tm);;
  when again (rt_timer_start i;; mret tt).

Fixpoint rt_timer_check_loop (fuel : nat) (current_tick : Z) : M unit :=
  match fuel with
  | O => stuck
  | S fuel =>
      k ← get;
      match k_timer_list k with
      | [] => mret tt
      | i :: _ =>
          t ← timer_get i;
          if u32 (current_tick - timeout_tick t) <? RT_TICK_MAX / 2 then
            _rt_timer_remove i;;
            run_timeout (timeout_func t);;
            k ← get;
            timer_rearm i;;
            rt_timer_check_loop fuel (k_tick k)
          else mret tt
      end
  end.

Definition rt_timer_check (fuel : nat) : M unit :=
  k ← get; rt_timer_check_loop fuel (k_tick k).

Definition rt_tick_increase (fuel : nat) : M unit :=
  modify (fun k => set_k_tick (u32 (k_tick k + 1)) k);;
  thread ← self;
  thread_mod thread (fun th => set_remaining_tick (u32 (remaining_tick th - 1)) th);;
  th ← thread_get thread;
  when (remaining_tick th =? 0)
    (thread_mod thread (fun th => set_remaining_tick (init_tick th) th);;
     rt_thread_yield;; mret tt);;
  rt_timer_check fuel.

(** [n->next] for a row node: its successor, the head ([None]) at the end, the
    node itself once it has been unlinked. *)
Fixpoint row_next (l : list tmid) (n : tmid) : option tmid :=
  match l with
  | [] => Some n
  | i :: l => if decide (i = n) then head l else row_next l n
  end.

Fixpoint rt_soft_timer_check_loop (fuel : nat) (n : option tmid) (current_tick : Z) : M unit :=
  match fuel with
  | O => stuck
  | S fuel =>
      match n with
      | None => mret tt
      | Some i =>
          t ← timer_get i;
          if u32 (current_tick - timeout_tick t) <? RT_TICK_MAX / 2 then
            k ← get;
            let n := row_next (k_soft_timer_list k) i in
            _rt_timer_remove i;;
            rt_exit_critical;;
            run_timeout (timeout_func t);;
            k ← get;
            rt_enter_critical;;
            timer_rearm i;;
            rt_soft_timer_check_loop fuel n (k_tick k)
          else mret tt
      end
  end.

Definition rt_soft_timer_check (fuel : nat) : M unit :=
  k ← get;
  rt_enter_critical;;
  rt_soft_timer_check_loop fuel (head (k_soft_timer_list k)) (k_tick k);;
  rt_exit_critical.

(** One turn of the timer thread: it gives up the CPU until the next soft
    timer is due (or until one is started), then runs the expired ones. *)
Definition rt_thread_timer_entry_wait : M unit :=
  next_timeout ← lift (fun k => rt_timer_list_next_timeout k (k_soft_timer_list k));
  if next_timeout =? RT_TICK_MAX then
    thread ← self;
    rt_thread_suspend thread;;
    rt_schedule
  else
    k ← get;
    when (u32 (next_timeout - k_tick k) <? RT_TICK_MAX / 2)
      (rt_thread_delay (u32 (next_timeout - k_tick k))).

Definition rt_thread_timer_entry_run (fuel : nat) : M unit := rt_soft_timer_check fuel.

(** idle.c: release the threads that have exited.  The freed struct of a
    dynamic thread, which holds its timer, leaves the store. *)
Fixpoint rt_thread_idle_excute (fuel : nat) : M unit :=
  match fuel with
  | O => stuck
  | S fuel =>
      k ← get;
      match lst k LDefunct with
      | [] => mret tt
      | thread :: _ =>
          th ← thread_get thread;
          rt_list_remove thread;;
          rt_enter_critical;;
          when (has_cleanup th) (user_cleanup thread);;
          b ← rt_object_is_systemobject RT_Object_Class_Thread (inr thread);
          if (b : bool) then
            rt_object_detach RT_Object_Class_Thread (inr thread);;
            rt_exit_critical
          else
            rt_exit_critical;;
            rt_object_delete RT_Object_Class_Thread (inr thread);;
            modify (fun k => set_k_timers (delete (inl thread) (k_timers k))
                               (set_k_threads (delete thread (k_threads k)) k));;
            rt_thread_idle_excute fuel
      end
  end.
End callbacks.

Definition rt_tick_get : M Z := k ← get; mret (k_tick k).
Definition rt_tick_set (tick : Z) : M unit := modify (set_k_tick tick).

Definition rt_system_timer_init : M unit := modify (set_k_timer_list []).

(** [rt_system_timer_thread_init]: the soft timer list and the timer thread. *)
Definition RT_TIMER_THREAD_PRIO : Z := 4.
Definition rt_system_timer_thread_init (name : list Z) : M unit :=
  modify (set_k_soft_timer_list []);;
  k ← get;
  rt_thread_init (k_timer_thread k) name RT_TIMER_THREAD_PRIO 10;;
  rt_thread_startup (k_timer_thread k);;
  mret tt.
