(* ===== verification/ThreadInv.v ===== *)
(** * Invariants of the thread and timer layer

    [tinv] ties the timer lists to the threads: a thread's timer is in the list
    only while the thread is suspended.  [kok] is [kinv] and [tinv] together;
    every operation of Thread preserves it and runs without undefined
    behaviour. *)

From S2P Require Import Prelude Kernel Sched Object Thread.

Record tinv (k : kernel) : Prop := {
  ti_thread : forall t, is_Some (k_threads k !! t) -> exists tm,
    k_timers k !! inl t = Some tm /\ timeout_func tm = fn_thread_timeout t;
  ti_flag : forall i tm, k_timers k !! i = Some tm -> 0 <= tm_flag tm < 2 ^ 8;
  ti_hard : forall t tm, k_timers k !! inl t = Some tm ->
    flag_set (tm_flag tm) RT_TIMER_FLAG_SOFT_TIMER = false;
  ti_list : forall i, i ∈ k_timer_list k \/ i ∈ k_soft_timer_list k -> exists tm,
    k_timers k !! i = Some tm /\ flag_set (tm_flag tm) RT_TIMER_FLAG_ACTIVATED = true;
  ti_nodup : NoDup (k_timer_list k) /\ NoDup (k_soft_timer_list k);
  ti_soft : forall t, inl t ∉ k_soft_timer_list k;
  ti_armed : forall t, inl t ∈ k_timer_list k -> exists th,
    k_threads k !! t = Some th /\ stat th = RT_THREAD_SUSPEND
}.

Definition kok (k : kernel) : Prop := kinv None k /\ tinv k.

(** ** Flags *)

Lemma flag_set_testbit f j : 0 <= j -> flag_set f (2 ^ j) = Z.testbit f j.
Proof.
  intros Hj. unfold flag_set.
  assert (Z.land f (2 ^ j) = if Z.testbit f j then 2 ^ j else 0) as ->.
  { apply Z.bits_inj'. intros n Hn. rewrite Z.land_spec, testbit_pow2 by done.
    case_bool_decide as E; subst.
    - destruct (Z.testbit f n) eqn:E; [by rewrite Z.pow2_bits_true|by rewrite Z.bits_0].
    - rewrite andb_false_r. destruct (Z.testbit f j); [|by rewrite Z.bits_0].
      by rewrite Z.pow2_bits_false. }
  destruct (Z.testbit f j); [|done].
  destruct (Z.eqb_spec (2 ^ j) 0) as [E|]; [|done].
  pose proof (Z.pow_pos_nonneg 2 j). lia.
Qed.

Lemma flag_clear_testbit f i j : 0 <= i < 8 -> 0 <= j < 8 ->
  Z.testbit (flag_clear f (2 ^ i)) j = Z.testbit f j && negb (bool_decide (i = j)).
Proof.
  intros Hi Hj. unfold flag_clear. rewrite Z.land_spec, wnot_testbit, testbit_pow2 by lia. done.
Qed.

Lemma flag_clear_range f b : 0 <= flag_clear f b < 2 ^ 8.
Proof. apply land_bounds; [lia|]. apply wnot_bounds. lia. Qed.

Lemma flag_clear_act f : flag_set (flag_clear f RT_TIMER_FLAG_ACTIVATED) RT_TIMER_FLAG_ACTIVATED = false.
Proof.
  change RT_TIMER_FLAG_ACTIVATED with (2 ^ 0). rewrite flag_set_testbit, flag_clear_testbit by lia.
  rewrite bool_decide_eq_true_2 by done. apply andb_false_r.
Qed.

Lemma flag_clear_soft f :
  flag_set (flag_clear f RT_TIMER_FLAG_ACTIVATED) RT_TIMER_FLAG_SOFT_TIMER =
  flag_set f RT_TIMER_FLAG_SOFT_TIMER.
Proof.
  change RT_TIMER_FLAG_ACTIVATED with (2 ^ 0). change RT_TIMER_FLAG_SOFT_TIMER with (2 ^ 2).
  rewrite !flag_set_testbit, flag_clear_testbit by lia.
  rewrite bool_decide_eq_false_2 by done. apply andb_true_r.
Qed.

Lemma flag_or_act f : flag_set (Z.lor f RT_TIMER_FLAG_ACTIVATED) RT_TIMER_FLAG_ACTIVATED = true.
Proof.
  change RT_TIMER_FLAG_ACTIVATED with (2 ^ 0). rewrite flag_set_testbit, Z.lor_spec by lia.
  rewrite Z.pow2_bits_true by lia. apply orb_true_r.
Qed.

Lemma flag_or_soft f :
  flag_set (Z.lor f RT_TIMER_FLAG_ACTIVATED) RT_TIMER_FLAG_SOFT_TIMER =
  flag_set f RT_TIMER_FLAG_SOFT_TIMER.
Proof.
  change RT_TIMER_FLAG_ACTIVATED with (2 ^ 0). change RT_TIMER_FLAG_SOFT_TIMER with (2 ^ 2).
  rewrite !flag_set_testbit, Z.lor_spec by lia. rewrite Z.pow2_bits_false by lia. apply orb_false_r.
Qed.

(** ** Framing *)

Lemma tinv_ext k k' : tinv k ->
  k_threads k' = k_threads k -> k_timers k' = k_timers k ->
  k_timer_list k' = k_timer_list k -> k_soft_timer_list k' = k_soft_timer_list k -> tinv k'.
Proof. intros [] Et Em El Es. split; intros *; rewrite ?Et, ?Em, ?El, ?Es; eauto. Qed.

Lemma tinv_sched k k' : tinv k -> sched_rel k k' -> tinv k'.
Proof.
  intros T [F _ Ht Hd _]. rewrite F. pose proof T as []. split; simpl; try done.
  - intros t Hs. apply ti_thread0. apply elem_of_dom. rewrite <- Hd. by apply elem_of_dom.
  - intros t Hin. destruct (ti_armed0 t Hin) as (th & Hth & Hs).
    destruct (Ht t th Hth) as (s & Hs' & [->|[[E|E] _]]); [|by rewrite E in Hs..].
    rewrite Hs'. eauto.
Qed.

(** Changing a thread: its status is free while its timer is not armed. *)
Lemma tinv_put t th th' k : tinv k -> k_threads k !! t = Some th ->
  inl t ∉ k_timer_list k \/ stat th' = stat th -> tinv (put_thread t th' k).
Proof.
  intros T Ht Hor. pose proof T as []. split; try done; simpl; intros u.
  - rewrite lookup_insert. case_decide; subst; eauto.
  - intros Hin. rewrite lookup_insert. case_decide; subst; [|eauto].
    destruct Hor as [?|Hs]; [done|]. destruct (ti_armed0 _ Hin) as (th0 & ? & ?). simplify_eq.
    exists th'. by rewrite Hs.
Qed.

(** ** Stopping a timer *)

Definition unlinked (i : tmid) (k : kernel) : kernel :=
  set_k_timer_list (filter (fun j => j <> i) (k_timer_list k))
    (set_k_soft_timer_list (filter (fun j => j <> i) (k_soft_timer_list k)) k).

Definition put_timer (i : tmid) (tm : rt_timer) (k : kernel) : kernel :=
  set_k_timers (<[i := tm]> (k_timers k)) k.

Definition deactivate (tm : rt_timer) : rt_timer :=
  set_tm_flag (flag_clear (tm_flag tm) RT_TIMER_FLAG_ACTIVATED) tm.

Definition stopped (i : tmid) (tm : rt_timer) (k : kernel) : kernel :=
  if flag_set (tm_flag tm) RT_TIMER_FLAG_ACTIVATED
  then put_timer i (deactivate tm) (unlinked i k) else k.

Lemma timer_stop_run i tm k : k_timers k !! i = Some tm ->
  exists r, rt_timer_stop i k = Some (r, stopped i tm k).
Proof.
  intros Hi. unfold rt_timer_stop, timer_get, stopped. erewrite lift_bind by done.
  destruct (flag_set _ _); simpl; [|eauto].
  unfold _rt_timer_remove. rewrite modify_bind.
  erewrite bind_some by (apply timer_mod_run; done). eauto.
Qed.

Lemma elem_of_unlinked i j (l : list tmid) : j ∈ filter (fun j => j <> i) l <-> j <> i /\ j ∈ l.
Proof. by rewrite list_elem_of_filter. Qed.

Lemma tinv_unlinked i k : tinv k -> tinv (unlinked i k).
Proof.
  intros []. split; try done; simpl.
  - intros j. rewrite !elem_of_unlinked. naive_solver.
  - destruct ti_nodup0. split; by apply NoDup_filter.
  - intros t. rewrite elem_of_unlinked. naive_solver.
  - intros t. rewrite elem_of_unlinked. naive_solver.
Qed.

Lemma tinv_put_timer i tm tm' k : tinv k -> k_timers k !! i = Some tm ->
  timeout_func tm' = timeout_func tm -> 0 <= tm_flag tm' < 2 ^ 8 ->
  flag_set (tm_flag tm') RT_TIMER_FLAG_SOFT_TIMER = flag_set (tm_flag tm) RT_TIMER_FLAG_SOFT_TIMER ->
  (i ∉ k_timer_list k) /\ (i ∉ k_soft_timer_list k) \/
  flag_set (tm_flag tm') RT_TIMER_FLAG_ACTIVATED = true ->
  tinv (put_timer i tm' k).
Proof.
  intros T Hi Hf Hr Hsoft Hor. pose proof T as []. split; try done; simpl.
  - intros t Ht. destruct (ti_thread0 t Ht) as (tm0 & ? & ?).
    rewrite lookup_insert. case_decide; subst; simplify_eq; [|eauto].
    eexists. split; [done|congruence].
  - intros j tm0. rewrite lookup_insert. case_decide; intros; simplify_eq; eauto.
  - intros t tm0. rewrite lookup_insert. case_decide; intros; simplify_eq; [rewrite Hsoft|]; eauto.
  - intros j Hj. destruct (ti_list0 j Hj) as (tm0 & ? & ?).
    rewrite lookup_insert. case_decide; subst; simplify_eq; [|eauto].
    eexists. split; [done|]. naive_solver.
Qed.

Lemma tinv_stopped i tm k : tinv k -> k_timers k !! i = Some tm ->
  tinv (stopped i tm k) /\ (i ∉ k_timer_list (stopped i tm k)) /\ (i ∉ k_soft_timer_list (stopped i tm k)).
Proof.
  intros T Hi. unfold stopped. destruct (flag_set _ _) eqn:E.
  - split_and!; simpl; [|rewrite elem_of_unlinked; naive_solver..].
    eapply tinv_put_timer; [by apply tinv_unlinked|done|done|apply flag_clear_range|
      apply flag_clear_soft|]. left. simpl. rewrite !elem_of_unlinked. naive_solver.
  - split; [done|]. split; intros Hin; destruct (ti_list _ T i) as (tm0 & ? & ?); auto; simplify_eq; congruence.
Qed.

(** Stopping a timer does not touch what [kinv] reads. *)
Lemma kinv_stopped x i tm k : kinv x k -> kinv x (stopped i tm k).
Proof. intros K. unfold stopped. destruct (flag_set _ _); [by eapply kinv_ext|done]. Qed.

Lemma stopped_threads i tm k : k_threads (stopped i tm k) = k_threads k.
Proof. unfold stopped. by destruct (flag_set _ _). Qed.
Lemma stopped_current i tm k : k_current (stopped i tm k) = k_current k.
Proof. unfold stopped. by destruct (flag_set _ _). Qed.
Lemma lst_stopped i tm k l : lst (stopped i tm k) l = lst k l.
Proof. unfold stopped. by destruct (flag_set _ _). Qed.

(** ** Suspend *)

Definition suspended (t : nat) (th : rt_thread) (tm : rt_timer) (k : kernel) : kernel :=
  stopped (inl t) tm (put_thread t (set_stat RT_THREAD_SUSPEND th) (removed t th k)).

Lemma removed_timers t th k : k_timers (removed t th k) = k_timers k /\
  k_timer_list (removed t th k) = k_timer_list k /\
  k_soft_timer_list (removed t th k) = k_soft_timer_list k.
Proof. unfold removed. by destruct (bool_decide _). Qed.

Lemma suspend_run t th tm k : k_threads k !! t = Some th -> k_timers k !! inl t = Some tm ->
  thread_ok th -> ready_or_running (stat th) ->
  rt_thread_suspend t k = Some (RT_EOK, suspended t th tm k).
Proof.
  intros Ht Hm Hok Hs. unfold rt_thread_suspend, thread_get. erewrite lift_bind by done.
  rewrite stat_of_eq by done. replace (_ && _) with false by (by destruct Hs as [->| ->]).
  erewrite bind_some by (by apply remove_thread_run).
  erewrite bind_some by (apply thread_mod_run; by rewrite removed_threads).
  rewrite with_stat_eq by done.
  destruct (timer_stop_run (inl t) tm (put_thread t (set_stat RT_THREAD_SUSPEND th) (removed t th k)))
    as [r Hr]; [by rewrite <- Hm; apply (f_equal (.!! inl t)), removed_timers|].
  by erewrite bind_some by exact Hr.
Qed.

Lemma not_armed t th k : tinv k -> k_threads k !! t = Some th -> stat th <> RT_THREAD_SUSPEND ->
  inl t ∉ k_timer_list k.
Proof. intros T Ht Hs Hin. destruct (ti_armed _ T _ Hin) as (? & ? & ?). simplify_eq. Qed.

(** A thread that is ready or runs becomes suspended, off every list. *)
Lemma suspended_ok t th tm k : kok k -> k_threads k !! t = Some th -> k_timers k !! inl t = Some tm ->
  ready_or_running (stat th) ->
  kok (suspended t th tm k) /\
  k_threads (suspended t th tm k) = <[t := set_stat RT_THREAD_SUSPEND th]> (k_threads k) /\
  (forall l, lst (suspended t th tm k) l = filter (fun u => u <> t) (lst k l)).
Proof.
  intros [K T] Ht Hm Hs. pose proof (ki_thread _ _ K _ _ Ht) as Hok.
  assert (number_mask th = 2 ^ current_priority th) as Hmask.
  { apply started_mask; [done|by destruct Hs as [->| ->]..]. }
  assert (kinv (Some t) (removed t th k)) as Kr by (eapply kinv_removed; [done|by left|done]).
  destruct (removed_timers t th k) as (Em & El & Es).
  split_and!.
  - split.
    + apply kinv_stopped. eapply kinv_close; [apply kinv_put; [done|]|apply lookup_insert_eq|done|done].
      apply thread_ok_stat; [done|done|by right].
    + apply tinv_stopped; [|by simpl; rewrite Em].
      eapply tinv_put; [|by rewrite removed_threads|left].
      * eapply tinv_ext; [done|by rewrite removed_threads|done..].
      * rewrite El. eapply not_armed; [done..|]. by destruct Hs as [->| ->].
  - unfold suspended. rewrite stopped_threads. simpl. by rewrite removed_threads.
  - intros l. unfold suspended. rewrite lst_stopped. apply lst_removed.
Qed.

(** ** Resume *)

Definition unlink_thread (t : nat) (k : kernel) : kernel :=
  set_k_lists (filter (fun u => u <> t) <$> k_lists k) k.

Lemma lst_unlink t k l : lst (unlink_thread t k) l = filter (fun u => u <> t) (lst k l).
Proof. apply lst_remove. Qed.

(** A thread that is not ready leaves its list without a change of the bitmap. *)
Lemma kinv_unlink t th k : kinv None k -> k_threads k !! t = Some th ->
  stat th <> RT_THREAD_READY -> kinv (Some t) (unlink_thread t k).
Proof.
  intros K Ht Hs. pose proof K as [? Hm ? Hd Hr Hrun Hc Hg Hb].
  split; try (by apply K); unfold unlink_thread; simpl; intros *; rewrite ?lst_remove.
  - intros [Hne Hin]%list_elem_of_filter. split; [congruence|]. by apply Hm.
  - by apply NoDup_filter.
  - intros [_ ?]%list_elem_of_filter [_ ?]%list_elem_of_filter. eauto.
  - intros Hu Hne Hsu. apply list_elem_of_filter. split; [congruence|]. eauto.
  - intros Hu Hne. eauto.
  - intros Hp. rewrite filter_not_in; [by apply Hb|]. intros Hin.
    destruct (Hm _ _ Hin) as (_ & th' & ? & ? & ?). simplify_eq.
Qed.

Definition resumed (t : nat) (th : rt_thread) (tm : rt_timer) (k : kernel) : kernel :=
  inserted t th (stopped (inl t) tm (unlink_thread t k)).

Lemma resume_run t th tm k : k_threads k !! t = Some th -> k_timers k !! inl t = Some tm ->
  thread_ok th -> stat th = RT_THREAD_SUSPEND ->
  rt_thread_resume t k = Some (RT_EOK, resumed t th tm k).
Proof.
  intros Ht Hm Hok Hs. unfold rt_thread_resume, thread_get. erewrite lift_bind by done.
  rewrite stat_of_eq, Hs by done. simpl. unfold rt_list_remove. rewrite modify_bind.
  fold (unlink_thread t k). destruct (timer_stop_run (inl t) tm (unlink_thread t k)) as [r Hr]; [done|].
  erewrite bind_some by exact Hr.
  by erewrite bind_some by (apply insert_thread_run; [by rewrite stopped_threads|done]).
Qed.

Lemma inserted_timers t th k : k_timers (inserted t th k) = k_timers k /\
  k_timer_list (inserted t th k) = k_timer_list k /\
  k_soft_timer_list (inserted t th k) = k_soft_timer_list k.
Proof. unfold inserted. by destruct (bool_decide _). Qed.

Lemma inserted_current t th k : k_current (inserted t th k) = k_current k.
Proof. unfold inserted. by destruct (bool_decide _). Qed.

(** The state a thread has once it is back with the scheduler. *)
Definition live_stat (t : nat) (k : kernel) : Z :=
  if bool_decide (k_current k = Some t) then RT_THREAD_RUNNING else RT_THREAD_READY.

Lemma inserted_threads t th k :
  k_threads (inserted t th k) = <[t := set_stat (live_stat t k) th]> (k_threads k).
Proof. unfold inserted, live_stat. by destruct (bool_decide _). Qed.

Lemma lst_inserted t th k l : lst (inserted t th k) l =
  if decide (k_current k <> Some t /\ l = LReady (current_priority th))
  then lst k l ++ [t] else lst k l.
Proof.
  unfold inserted. case_bool_decide as E.
  - rewrite decide_False by naive_solver. done.
  - case_decide as D.
    + destruct D as [_ ->]. unfold lst at 1; simpl. by rewrite lookup_insert_eq.
    + unfold lst at 1; simpl. rewrite lookup_insert_ne; [done|]. naive_solver.
Qed.

Lemma tinv_inserted t th k : tinv k -> k_threads k !! t = Some th -> inl t ∉ k_timer_list k ->
  tinv (inserted t th k).
Proof.
  intros T Ht Hno. destruct (inserted_timers t th k) as (Em & El & Es).
  apply (tinv_ext (put_thread t (set_stat (live_stat t k) th) k)); try done.
  - eapply tinv_put; [done|done|by left].
  - by rewrite inserted_threads.
Qed.

(** Taking a suspended thread off its list and handing it to the scheduler. *)
Lemma resumed_ok t th tm k : kok k -> k_threads k !! t = Some th -> k_timers k !! inl t = Some tm ->
  stat th = RT_THREAD_SUSPEND ->
  kok (resumed t th tm k) /\
  k_threads (resumed t th tm k) = <[t := set_stat (live_stat t k) th]> (k_threads k) /\
  (forall l, lst (resumed t th tm k) l =
     if decide (k_current k <> Some t /\ l = LReady (current_priority th))
     then filter (fun u => u <> t) (lst k l) ++ [t] else filter (fun u => u <> t) (lst k l)).
Proof.
  intros [K T] Ht Hm Hs. pose proof (ki_thread _ _ K _ _ Ht) as Hok.
  assert (number_mask th = 2 ^ current_priority th) as Hmask.
  { apply started_mask; [done|by rewrite Hs..]. }
  set (k1 := stopped (inl t) tm (unlink_thread t k)).
  assert (kinv (Some t) k1) as K1 by (apply kinv_stopped; eapply kinv_unlink; [done..|by rewrite Hs]).
  assert (tinv (unlink_thread t k)) as T1 by (by eapply tinv_ext).
  destruct (tinv_stopped (inl t) tm _ T1 Hm) as (T2 & Hno & _).
  assert (k_threads k1 !! t = Some th) as Ht1 by (unfold k1; by rewrite stopped_threads).
  split_and!.
  - split; [by apply kinv_inserted|by apply tinv_inserted].
  - unfold resumed. rewrite inserted_threads. fold k1. unfold live_stat, k1.
    by rewrite stopped_current, stopped_threads.
  - intros l. unfold resumed. rewrite lst_inserted, stopped_current, lst_stopped, lst_unlink.
    done.
Qed.

(** ** Starting a timer of the hard list *)

Lemma timer_insert_ext m1 m2 i tick l : (forall j, j ∈ l -> m1 !! j = m2 !! j) ->
  timer_insert m1 i tick l = timer_insert m2 i tick l.
Proof.
  induction l as [|j l IH]; intros He; [done|]. simpl.
  rewrite (He j) by apply list_elem_of_here. rewrite IH; [done|].
  intros ??. apply He. by apply list_elem_of_further.
Qed.

(** The new timer goes between two parts of the list. *)
Lemma timer_insert_split m i tick l : (forall j, j ∈ l -> is_Some (m !! j)) ->
  exists l1 l2, l = l1 ++ l2 /\ timer_insert m i tick l = Some (l1 ++ i :: l2).
Proof.
  induction l as [|j l IH]; intros Hl; [by exists [], []|]. simpl.
  destruct (Hl j) as [t ->]; [apply list_elem_of_here|]. simpl.
  destruct IH as (l1 & l2 & -> & ->). { intros ??. apply Hl. by apply list_elem_of_further. }
  split_ifs; simpl; try (by exists (j :: l1), l2). by exists [], (j :: l1 ++ l2).
Qed.

Definition armed_timer (now : Z) (tm : rt_timer) : rt_timer :=
  set_tm_flag (Z.lor (flag_clear (tm_flag tm) RT_TIMER_FLAG_ACTIVATED) RT_TIMER_FLAG_ACTIVATED)
    (set_timeout_tick (u32 (now + tm_init_tick tm)) tm).

Definition started (i : tmid) (tm : rt_timer) (l : list tmid) (k : kernel) : kernel :=
  put_timer i (armed_timer (k_tick k) tm)
    (set_k_timer_list l (set_k_random_nr (u32 (k_random_nr k + 1))
      (set_k_soft_timer_list (filter (fun j => j <> i) (k_soft_timer_list k)) k))).

Lemma start_run i tm k : tinv k -> k_timers k !! i = Some tm ->
  flag_set (tm_flag tm) RT_TIMER_FLAG_SOFT_TIMER = false ->
  exists l1 l2, filter (fun j => j <> i) (k_timer_list k) = l1 ++ l2 /\
    timer_insert (k_timers k) i (u32 (k_tick k + tm_init_tick tm)) (l1 ++ l2) = Some (l1 ++ i :: l2) /\
    rt_timer_start i k = Some (RT_EOK, started i tm (l1 ++ i :: l2) k).
Proof.
  intros T Hi Hsoft. destruct (timer_insert_split (k_timers k) i (u32 (k_tick k + tm_init_tick tm))
    (filter (fun j => j <> i) (k_timer_list k))) as (l1 & l2 & El & Ei).
  { intros j [_ Hj]%elem_of_unlinked. destruct (ti_list _ T j) as (? & ? & _); eauto. }
  exists l1, l2. split; [done|]. rewrite El in Ei. split; [done|].
  unfold rt_timer_start, _rt_timer_remove. rewrite modify_bind.
  erewrite bind_some by (apply timer_mod_run; done). rewrite get_bind.
  erewrite bind_some by (apply timer_mod_run; apply lookup_insert_eq).
  unfold timer_get. erewrite lift_bind by (apply lookup_insert_eq).
  simpl. rewrite flag_clear_soft, Hsoft.
  erewrite lift_bind.
  2:{ rewrite El, <- Ei. apply timer_insert_ext. intros j Hj. rewrite <- El in Hj.
      apply elem_of_unlinked in Hj as [Hne _]. simpl. by rewrite !lookup_insert_ne by congruence. }
  rewrite !modify_bind.
  erewrite bind_some by (apply timer_mod_run; apply lookup_insert_eq). simpl.
  unfold mbind, M_bind, mret, M_ret. do 2 f_equal. unfold started, put_timer, armed_timer; simpl.
  by rewrite !insert_insert_eq.
Qed.

Lemma tinv_started i tm l1 l2 k : tinv k -> k_timers k !! i = Some tm ->
  flag_set (tm_flag tm) RT_TIMER_FLAG_SOFT_TIMER = false ->
  filter (fun j => j <> i) (k_timer_list k) = l1 ++ l2 ->
  (forall t, i = inl t -> exists th, k_threads k !! t = Some th /\ stat th = RT_THREAD_SUSPEND) ->
  tinv (started i tm (l1 ++ i :: l2) k).
Proof.
  intros T Hi Hsoft El Hth. pose proof (tinv_unlinked i k T) as T1.
  pose proof (flag_clear_range (tm_flag tm) RT_TIMER_FLAG_ACTIVATED) as Hr.
  assert (tinv (put_timer i (armed_timer (k_tick k) tm) (unlinked i k))) as T2.
  { eapply tinv_put_timer; [done|done|done| | |right].
    - unfold armed_timer; simpl. apply lor_bounds; [lia|done|]. unfold RT_TIMER_FLAG_ACTIVATED. lia.
    - simpl. by rewrite flag_or_soft, flag_clear_soft.
    - simpl. apply flag_or_act. }
  pose proof T2 as []. unfold put_timer, unlinked in *; simpl in *. rewrite El in *.
  split; try done; unfold started, put_timer; simpl.
  - intros j Hj. rewrite <- Permutation_middle, elem_of_cons in Hj.
    destruct (decide (j = i)) as [->|Hne]; [|by apply ti_list0; naive_solver].
    exists (armed_timer (k_tick k) tm). rewrite lookup_insert_eq. split; [done|]. apply flag_or_act.
  - destruct ti_nodup0 as [Hn ?]. split; [|done]. rewrite <- Permutation_middle.
    constructor; [|done]. rewrite <- El, elem_of_unlinked. naive_solver.
  - intros t Hin. rewrite <- Permutation_middle, elem_of_cons in Hin.
    destruct Hin as [E|Hin]; auto.
Qed.

(** ** What the thread layer leaves alone *)

Definition ipc_part (k : kernel) :=
  (k_sems k, k_mutexes k, k_events k, k_mbs k, k_mqs k, k_mps k, k_mp_words k, k_objects k, k_container k,
   k_lock_nest k, k_tick k).

Definition ipc_same (k k' : kernel) : Prop := ipc_part k' = ipc_part k.

#[export] Instance ipc_same_preorder : PreOrder ipc_same.
Proof. split; unfold ipc_same; [done|]. intros ??? H1 H2. by rewrite H2. Qed.

Lemma ipc_same_parts k k' : ipc_same k k' ->
  k_sems k' = k_sems k /\ k_mutexes k' = k_mutexes k /\ k_events k' = k_events k /\
  k_mbs k' = k_mbs k /\ k_mqs k' = k_mqs k /\ k_lock_nest k' = k_lock_nest k /\
  k_tick k' = k_tick k.
Proof. unfold ipc_same, ipc_part. intros [= ]. done. Qed.

Lemma ipc_same_pools k k' : ipc_same k k' -> k_mps k' = k_mps k /\ k_mp_words k' = k_mp_words k.
Proof. unfold ipc_same, ipc_part. intros [= ]. done. Qed.

Lemma ipc_same_sched k k' : sched_rel k k' -> ipc_same k k'.
Proof. intros [F _ _ _ _]. unfold ipc_same. by rewrite F. Qed.

Lemma ipc_same_removed t th k : ipc_same k (removed t th k).
Proof. unfold ipc_same, removed. by destruct (bool_decide _). Qed.

Lemma ipc_same_inserted t th k : ipc_same k (inserted t th k).
Proof. unfold ipc_same, inserted. by destruct (bool_decide _). Qed.

Lemma ipc_same_stopped i tm k : ipc_same k (stopped i tm k).
Proof. unfold ipc_same, stopped. by destruct (flag_set _ _). Qed.

Lemma ipc_same_suspended t th tm k : ipc_same k (suspended t th tm k).
Proof.
  unfold suspended. etrans; [apply (ipc_same_removed t th)|].
  etrans; [|apply ipc_same_stopped]. done.
Qed.

Lemma ipc_same_resumed t th tm k : ipc_same k (resumed t th tm k).
Proof.
  unfold resumed. etrans; [|apply ipc_same_inserted].
  etrans; [|apply ipc_same_stopped]. done.
Qed.

#[export] Hint Resolve ipc_same_sched ipc_same_removed ipc_same_inserted ipc_same_stopped
  ipc_same_suspended ipc_same_resumed : rtboot.

Lemma kok_sched k k' : kok k -> kinv None k' -> sched_rel k k' -> kok k'.
Proof. intros [_ T] K' R. split; [done|by eapply tinv_sched]. Qed.

Lemma kok_ext k k' : kok k ->
  k_threads k' = k_threads k -> k_lists k' = k_lists k ->
  k_group k' = k_group k -> k_current k' = k_current k ->
  k_timers k' = k_timers k -> k_timer_list k' = k_timer_list k ->
  k_soft_timer_list k' = k_soft_timer_list k -> kok k'.
Proof. intros [K T] ???????. split; [by eapply kinv_ext|by eapply tinv_ext]. Qed.

(** A pass of the scheduler from a consistent state. *)
Lemma schedule_kok k c : kok k -> k_current k = Some c ->
  exists k', rt_schedule k = Some (tt, k') /\ kok k' /\ sched_rel k k' /\
    (k_lock_nest k = 0 -> k_group k <> 0 -> highest_running k') /\
    (k_lock_nest k <> 0 \/ k_group k = 0 -> k' = k).
Proof.
  intros Hk Hc. destruct (schedule_spec k c) as (k' & ? & ? & ? & ? & ?); [apply Hk|done|].
  exists k'. split_and!; try done. by eapply kok_sched.
Qed.

(** The timer of a thread. *)
Lemma kok_timer t th k : kok k -> k_threads k !! t = Some th -> exists tm,
  k_timers k !! inl t = Some tm /\ timeout_func tm = fn_thread_timeout t.
Proof. intros [_ T] Ht. apply (ti_thread _ T). eauto. Qed.

Lemma kok_thread t th k : kok k -> k_threads k !! t = Some th -> thread_ok th.
Proof. intros [K _]. apply (ki_thread _ _ K). Qed.

#[export] Hint Resolve kok_thread : rtboot.

(** Fields of a thread that neither invariant reads. *)
Lemma kok_put_data t th th' k : kok k -> k_threads k !! t = Some th ->
  stat th' = stat th -> current_priority th' = current_priority th ->
  init_priority th' = init_priority th -> number_mask th' = number_mask th ->
  kok (put_thread t th' k).
Proof.
  intros [K T] Ht Es Ep Ei Em. split; [|by eapply tinv_put; eauto].
  pose proof K as [Hth Hm ? ? Hr Hrun Hc ? ?].
  split; try done; simpl; intros *; rewrite ?lookup_insert.
  - case_decide; intros; simplify_eq; [|eauto]. destruct (Hth _ _ Ht) as (?&?&?&?).
    unfold thread_ok. by rewrite Es, Ep, Ei, Em.
  - intros Hin. destruct (Hm _ _ Hin) as (? & th0 & Ht0 & Hls). split; [done|].
    case_decide; subst; [|eauto]. simplify_eq. exists th'. split; [done|].
    destruct l; simpl in *; by rewrite ?Es, ?Ep.
  - case_decide; intros; simplify_eq; [|eauto]. rewrite Ep. apply Hr; [done..|congruence].
  - case_decide; intros; simplify_eq; [|eauto]. eapply Hrun; [done..|congruence].
  - case_decide; eauto.
Qed.
