(* ===== verification/ThreadSpec.v ===== *)
(** * Correctness of the thread operations

    Each operation runs without undefined behaviour from a consistent state
    ([kok]), ends in one, and does to the thread what its comment in thread.c
    says. *)

From S2P Require Import Prelude Kernel Sched Object Thread ThreadInv.

(** ** Threads in no list *)

Definition in_no_list (t : nat) (k : kernel) : Prop := forall l, t ∉ lst k l.

Lemma stat_no_list t th k x : kinv x k -> k_threads k !! t = Some th ->
  stat th = RT_THREAD_INIT \/ stat th = RT_THREAD_RUNNING -> in_no_list t k.
Proof.
  intros K Ht Hs l Hin. destruct (ki_member _ _ K _ _ Hin) as (_ & th' & Ht' & Hl). simplify_eq.
  destruct l; simpl in Hl; destruct_and?; destruct Hs as [Hs|Hs]; rewrite Hs in *; done.
Qed.

Lemma kok_put_free t th th' k : kok k -> k_threads k !! t = Some th -> in_no_list t k ->
  inl t ∉ k_timer_list k -> thread_ok th' -> stat th' <> RT_THREAD_READY ->
  (stat th' = RT_THREAD_RUNNING -> k_current k = Some t) -> kok (put_thread t th' k).
Proof.
  intros [K T] Ht Hno Hti Hok Hr Hrun. split.
  - eapply kinv_close; [apply kinv_put; [by apply kinv_open|done]|apply lookup_insert_eq|done|done].
  - eapply tinv_put; [done..|by left].
Qed.

Lemma mask_of_priority p : 0 <= p < RT_THREAD_PRIORITY_MAX -> u32 (Z.shiftl 1 p) = 2 ^ p.
Proof.
  unfold RT_THREAD_PRIORITY_MAX. intros Hp. rewrite Z.shiftl_1_l. apply wrap_small.
  split; [apply Z.pow_nonneg; lia|]. apply Z.pow_lt_mono_r; lia.
Qed.

Lemma thread_ok_priority p th : thread_ok th -> 0 <= p < RT_THREAD_PRIORITY_MAX ->
  thread_ok (set_priority p th).
Proof.
  intros (?&?&?&_) Hp. unfold thread_ok, set_priority; simpl. rewrite mask_of_priority by done.
  split_and!; [lia..|by left].
Qed.

(** ** Suspend, resume *)

Lemma suspend_kok t th k : kok k -> k_threads k !! t = Some th -> ready_or_running (stat th) ->
  exists k', rt_thread_suspend t k = Some (RT_EOK, k') /\ kok k' /\ ipc_same k k' /\
    k_current k' = k_current k /\
    k_threads k' = <[t := set_stat RT_THREAD_SUSPEND th]> (k_threads k) /\
    (forall l, lst k' l = filter (fun u => u <> t) (lst k l)) /\
    inl t ∉ k_timer_list k'.
Proof.
  intros Hk Ht Hs. destruct (kok_timer _ _ _ Hk Ht) as (tm & Hm & _).
  destruct (suspended_ok t th tm k) as (Hk' & Eth & El); try done.
  exists (suspended t th tm k). split_and!; try done.
  - eapply suspend_run; eauto with rtboot.
  - apply ipc_same_suspended.
  - unfold suspended. rewrite stopped_current. simpl. apply removed_current.
  - destruct (removed_timers t th k) as (Em & Elt & Est).
    apply tinv_stopped; [|simpl; by rewrite Em].
    eapply tinv_put; [eapply tinv_ext; [apply Hk|by rewrite removed_threads|done..]|
      by rewrite removed_threads|left].
    rewrite Elt. eapply not_armed; [apply Hk|done|]. by destruct Hs as [->| ->].
Qed.

Lemma resume_kok t th k : kok k -> k_threads k !! t = Some th -> stat th = RT_THREAD_SUSPEND ->
  exists k', rt_thread_resume t k = Some (RT_EOK, k') /\ kok k' /\ ipc_same k k' /\
    k_current k' = k_current k /\
    k_threads k' = <[t := set_stat (live_stat t k) th]> (k_threads k) /\
    (forall l, lst k' l = if decide (k_current k <> Some t /\ l = LReady (current_priority th))
       then filter (fun u => u <> t) (lst k l) ++ [t] else filter (fun u => u <> t) (lst k l)).
Proof.
  intros Hk Ht Hs. destruct (kok_timer _ _ _ Hk Ht) as (tm & Hm & _).
  destruct (resumed_ok t th tm k) as (Hk' & Eth & El); try done.
  exists (resumed t th tm k). split_and!; try done.
  - eapply resume_run; eauto with rtboot.
  - apply ipc_same_resumed.
  - unfold resumed. by rewrite inserted_current, stopped_current.
Qed.

Lemma suspend_refused t th k : k_threads k !! t = Some th -> thread_ok th ->
  ~ ready_or_running (stat th) -> rt_thread_suspend t k = Some (- RT_ERROR, k).
Proof.
  intros Ht Hok Hs. unfold rt_thread_suspend, thread_get. erewrite lift_bind by done.
  rewrite stat_of_eq by done. unfold ready_or_running in Hs.
  destruct (stat th =? RT_THREAD_READY) eqn:E1, (stat th =? RT_THREAD_RUNNING) eqn:E2;
    zify_bool; naive_solver.
Qed.

Lemma resume_refused t th k : k_threads k !! t = Some th -> thread_ok th ->
  stat th <> RT_THREAD_SUSPEND -> rt_thread_resume t k = Some (- RT_ERROR, k).
Proof.
  intros Ht Hok Hs. unfold rt_thread_resume, thread_get. erewrite lift_bind by done.
  rewrite stat_of_eq by done. by destruct (stat th =? RT_THREAD_SUSPEND) eqn:E; zify_bool.
Qed.

(** ** Yield *)

Lemma schedule_preempt k c thc t ts p : kok k -> k_current k = Some c ->
  k_threads k !! c = Some thc -> stat thc = RT_THREAD_RUNNING -> current_priority thc = p ->
  k_lock_nest k = 0 -> lst k (LReady p) = t :: ts -> (forall q, q < p -> lst k (LReady q) = []) ->
  exists k', rt_schedule k = Some (tt, k') /\ kok k' /\ sched_rel k k' /\
    k_current k' = Some t /\ lst k' (LReady p) = ts ++ [c].
Proof.
  intros [K T] Hc Hthc Es Ep Hl Hts Hbest.
  assert (t ∈ lst k (LReady p)) as Hin by (rewrite Hts; apply list_elem_of_here).
  destruct (ki_member _ _ K _ _ Hin) as (_ & tht & Htht & Hst & Hpt).
  pose proof (ki_thread _ _ K _ _ Htht) as Hokt. pose proof (ki_thread _ _ K _ _ Hthc) as Hokc.
  assert (k_group k <> 0) as Hg.
  { intros E. pose proof (ki_bits _ _ K p) as Hb. rewrite E, Z.bits_0 in Hb.
    destruct Hb as [_ Hb]; [subst p; apply Hokc|]. rewrite Hts in Hb. by specialize (Hb ltac:(done)). }
  destruct (highest_run k None K Hg) as (to & p' & Hrun & Hp & Hhd & Hmin).
  assert (p' = p) as ->.
  { apply Z.le_antisymm; [apply Hmin; by rewrite Hts|]. apply Z.nlt_ge. intros Hlt.
    by rewrite Hbest in Hhd. }
  rewrite Hts in Hhd. injection Hhd as <-.
  assert (t <> c) as Hne by (intros ->; simplify_eq; by rewrite Hst in Es).
  destruct (pass_preempt k c t thc tht p) as [Ht2 (K' & R & _)]; try done; [lia|].
  exists (dispatch t tht (inserted c thc (set_k_current (Some t) (set_k_current_priority (u8 p) k)))).
  split_and!; [|by apply (kok_sched k)|exact R| |].
  - unfold rt_schedule. rewrite get_bind, Hl; simpl.
    destruct (k_group k =? 0) eqn:E; zify_bool; [done|].
    erewrite bind_some by exact Hrun. unfold self. erewrite lift_bind by exact Hc.
    unfold thread_get. erewrite lift_bind by exact Hthc.
    rewrite stat_of_eq, Es, Ep, Z.ltb_irrefl, Z.eqb_refl by done.
    rewrite bool_decide_eq_true_2, !modify_bind, when_bind by done.
    erewrite bind_some by (by apply insert_thread_run).
    by rewrite dispatch_run with (th := tht).
  - unfold dispatch, put_thread; simpl. by rewrite removed_current, inserted_current.
  - rewrite lst_dispatch, lst_inserted. simpl. rewrite decide_True by naive_solver.
    change (lst (set_k_current _ _) _) with (lst k (LReady p)). rewrite Hts.
    pose proof (ki_nodup _ _ K (LReady p)) as Hnd. rewrite Hts in Hnd.
    apply NoDup_cons in Hnd as [Hnt _]. simpl.
    rewrite filter_cons, decide_False by naive_solver.
    rewrite filter_app, filter_not_in by done. by rewrite filter_cons, decide_True by done.
Qed.

(** ** Arming the timer of a suspended thread *)

Lemma control_set_time i tm k n : k_timers k !! i = Some tm ->
  rt_timer_control i (RT_TIMER_CTRL_SET_TIME n) k
  = Some (None, put_timer i (set_tm_init_tick (u32 n) tm) k).
Proof.
  intros Hi. unfold rt_timer_control, timer_get. erewrite lift_bind by done.
  by erewrite bind_some by (by apply timer_mod_run).
Qed.

Lemma kok_set_time t tm n k : kok k -> k_timers k !! inl t = Some tm ->
  inl t ∉ k_timer_list k -> kok (put_timer (inl t) (set_tm_init_tick n tm) k).
Proof.
  intros [K T] Hm Hno. split; [by eapply kinv_ext|].
  eapply tinv_put_timer; [done..|apply (ti_flag _ T _ _ Hm)|done|].
  left. split; [done|]. apply (ti_soft _ T).
Qed.

(** The timer expires [n] ticks from now. *)
Definition expires (t : nat) (n : Z) (k : kernel) : Prop :=
  exists tm, k_timers k !! inl t = Some tm /\ timeout_func tm = fn_thread_timeout t /\
    timeout_tick tm = u32 (k_tick k + u32 n) /\
    flag_set (tm_flag tm) RT_TIMER_FLAG_ACTIVATED = true /\ inl t ∈ k_timer_list k.

(** The state parts a timer operation leaves alone. *)
Definition same_threads (k k' : kernel) : Prop :=
  k_threads k' = k_threads k /\ k_lists k' = k_lists k /\ k_group k' = k_group k /\
  k_current k' = k_current k.

Lemma arm_kok t th n k : kok k -> k_threads k !! t = Some th -> stat th = RT_THREAD_SUSPEND ->
  inl t ∉ k_timer_list k ->
  exists k1 k', rt_timer_control (inl t) (RT_TIMER_CTRL_SET_TIME n) k = Some (None, k1) /\
    k_tick k1 = k_tick k /\
    rt_timer_start (inl t) k1 = Some (RT_EOK, k') /\ kok k' /\ ipc_same k k' /\
    same_threads k k' /\ expires t n k'.
Proof.
  intros Hk Ht Hs Hno. destruct (kok_timer _ _ _ Hk Ht) as (tm & Hm & Hf).
  pose proof (kok_set_time t tm (u32 n) k Hk Hm Hno) as [K1 T1].
  set (tm1 := set_tm_init_tick (u32 n) tm) in *. set (k1 := put_timer (inl t) tm1 k) in *.
  assert (k_timers k1 !! inl t = Some tm1) as Hm1 by apply lookup_insert_eq.
  assert (flag_set (tm_flag tm1) RT_TIMER_FLAG_SOFT_TIMER = false) as Hsoft
    by (by eapply ti_hard).
  destruct (start_run (inl t) tm1 k1 T1 Hm1 Hsoft) as (l1 & l2 & El & _ & Hrun).
  exists k1, (started (inl t) tm1 (l1 ++ inl t :: l2) k1).
  split_and!; [by apply control_set_time|done|done| |done|done|].
  - split; [by eapply kinv_ext|]. eapply tinv_started; [done..|].
    intros t' [= <-]. exists th. done.
  - exists (armed_timer (k_tick k1) tm1). split_and!; [apply lookup_insert_eq|done|done| |].
    + apply flag_or_act.
    + simpl. apply elem_of_app. right. apply list_elem_of_here.
Qed.

(** [kok] after a change of the components [same_threads] fixes. *)
Lemma same_threads_lst k k' l : same_threads k k' -> lst k' l = lst k l.
Proof. intros (_ & E & _). unfold lst. by rewrite E. Qed.

(** ** Sleep *)

(** A waiting thread: suspended, off the run queues, its timer set. *)
Definition waiting (t : nat) (th : rt_thread) (k : kernel) : Prop :=
  k_threads k !! t = Some (set_stat RT_THREAD_SUSPEND th).

Lemma sched_rel_thread k k' t th : sched_rel k k' -> k_threads k !! t = Some th ->
  ~ ready_or_running (stat th) -> k_threads k' !! t = Some th.
Proof.
  intros R Ht Hs. destruct (sr_thread _ _ R _ _ Ht) as (s & Hs' & [->|[? _]]); [|done].
  by rewrite set_stat_same in Hs'.
Qed.

Lemma sched_rel_expires k k' t n : sched_rel k k' -> expires t n k -> expires t n k'.
Proof. intros [F _ _ _ _] H. rewrite F. exact H. Qed.

Lemma group_ready k p : kok k -> lst k (LReady p) <> [] -> k_group k <> 0.
Proof.
  intros [K _] Hp E. apply list_ne_nil_iff in Hp as Hp'. destruct Hp' as [u Hu].
  destruct (ki_member _ _ K _ _ Hu) as (_ & th & Ht & _ & <-).
  destruct (ki_thread _ _ K _ _ Ht) as (Hr & _).
  apply (ki_bits _ _ K) in Hp; [|done]. by rewrite E, Z.bits_0 in Hp.
Qed.

Lemma suspended_ready k k' t p : (forall l, lst k' l = filter (fun u => u <> t) (lst k l)) ->
  in_no_list t k -> lst k (LReady p) <> [] -> lst k' (LReady p) <> [].
Proof. intros El Hno Hp. rewrite El, filter_not_in; [done|apply Hno]. Qed.

Lemma suspend_not_live : ~ ready_or_running RT_THREAD_SUSPEND.
Proof. by intros [?|?]. Qed.

Lemma sleep_kok k c th n p : kok k -> k_current k = Some c -> k_threads k !! c = Some th ->
  stat th = RT_THREAD_RUNNING -> k_lock_nest k = 0 -> lst k (LReady p) <> [] ->
  exists k', rt_thread_sleep n k = Some (tt, k') /\ kok k' /\ highest_running k' /\
    waiting c th k' /\ expires c n k' /\ k_current k' <> Some c.
Proof.
  intros Hk Hc Ht Hs Hl Hp. unfold rt_thread_sleep, self. erewrite lift_bind by done.
  assert (in_no_list c k) as Hno by (eapply stat_no_list; [apply Hk|done|by right]).
  destruct (suspend_kok c th k) as (k1 & E1 & Hk1 & S1 & Ec1 & Eth1 & El1 & Hti1); try done; [by right|].
  erewrite bind_some by exact E1.
  assert (k_threads k1 !! c = Some (set_stat RT_THREAD_SUSPEND th)) as Ht1
    by (rewrite Eth1; apply lookup_insert_eq).
  destruct (arm_kok c _ n k1 Hk1 Ht1) as (k2 & k3 & E2 & _ & E3 & Hk3 & S3 & Sm & Hx); [done..|].
  erewrite bind_some by exact E2. erewrite bind_some by exact E3.
  pose proof Sm as (Eth3 & El3 & Eg3 & Ec3).
  destruct (schedule_kok k3 c Hk3) as (k4 & E4 & Hk4 & R & Hh & _); [by rewrite Ec3, Ec1|].
  assert (highest_running k4) as Hhr.
  { apply Hh.
    - unfold ipc_same, ipc_part in *. congruence.
    - apply (group_ready k3 p Hk3). rewrite (same_threads_lst k1) by done.
      by apply (suspended_ready k k1 c p). }
  exists k4. assert (k_threads k4 !! c = Some (set_stat RT_THREAD_SUSPEND th)) as Ht4.
  { eapply sched_rel_thread; [done|by rewrite Eth3|apply suspend_not_live]. }
  split_and!; try done; [by eapply sched_rel_expires|].
  destruct Hhr as (c' & th' & -> & Hc' & Hs' & _). intros [= ->]. by simplify_eq.
Qed.

(** ** Startup *)

Lemma live_stat_live t k : ready_or_running (live_stat t k).
Proof. unfold live_stat. destruct (bool_decide _); [by right|by left]. Qed.

Lemma sched_rel_live k k' t th s : sched_rel k k' -> k_threads k !! t = Some (set_stat s th) ->
  ready_or_running s -> exists s', k_threads k' !! t = Some (set_stat s' th) /\ ready_or_running s'.
Proof.
  intros R Ht Hs. destruct (sr_thread _ _ R _ _ Ht) as (s' & Ht' & Hor). exists s'.
  split; [done|]. simpl in Hor. destruct Hor as [->|[_ ?]]; done.
Qed.

(** [rt_schedule] from a state where somebody is ready. *)
Lemma schedule_highest k c t th : kok k -> k_current k = Some c -> k_lock_nest k = 0 ->
  k_threads k !! t = Some th -> ready_or_running (stat th) -> t <> c ->
  exists k', rt_schedule k = Some (tt, k') /\ kok k' /\ sched_rel k k' /\ highest_running k'.
Proof.
  intros Hk Hc Hl Ht Hs Hne. destruct (schedule_kok k c Hk Hc) as (k' & E & Hk' & R & Hh & _).
  exists k'. split_and!; try done. apply Hh; [done|].
  destruct Hk as [K T]. destruct Hs as [Hs|Hs].
  - apply (group_ready k (current_priority th)); [done|].
    apply list_ne_nil_iff. exists t. by eapply (ki_ready _ _ K).
  - pose proof (ki_running _ _ K _ _ Ht ltac:(done) Hs). congruence.
Qed.

Lemma startup_kok k c t th : kok k -> k_current k = Some c -> k_lock_nest k = 0 ->
  k_threads k !! t = Some th -> stat th = RT_THREAD_INIT -> t <> c ->
  exists k', rt_thread_startup t k = Some (RT_EOK, k') /\ kok k' /\ highest_running k' /\
    exists s, k_threads k' !! t = Some (set_stat s (set_priority (init_priority th) th)) /\
      ready_or_running s.
Proof.
  intros Hk Hc Hl Ht Hs Hne. pose proof (kok_thread _ _ _ Hk Ht) as Hok.
  assert (in_no_list t k) as Hno by (eapply stat_no_list; [apply Hk|done|by left]).
  set (th1 := set_stat RT_THREAD_SUSPEND (set_priority (init_priority th) th)).
  assert (kok (put_thread t th1 k)) as Hk1.
  { eapply kok_put_free; try done.
    - eapply not_armed; [apply Hk|done|by rewrite Hs].
    - apply thread_ok_stat; [apply thread_ok_priority; [done|apply Hok]|done|right].
      simpl. apply mask_of_priority, Hok. }
  unfold rt_thread_startup. erewrite bind_some by (by apply thread_mod_run).
  erewrite bind_some by (apply thread_mod_run, lookup_insert_eq). simpl.
  rewrite insert_insert_eq. fold th1.
  change (set_k_threads (<[t:=th1]> (k_threads k)) (set_k_threads _ k)) with (put_thread t th1 k).
  destruct (resume_kok t th1 (put_thread t th1 k)) as (k2 & E2 & Hk2 & S2 & Ec2 & Eth2 & _);
    [done|apply lookup_insert_eq|done|].
  erewrite bind_some by exact E2. unfold rt_thread_self. erewrite lift_bind by done.
  rewrite when_bind, Ec2. simpl. rewrite bool_decide_eq_true_2 by congruence.
  assert (k_threads k2 !! t = Some (set_stat (live_stat t (put_thread t th1 k)) th1)) as Ht2
    by (rewrite Eth2; apply lookup_insert_eq).
  edestruct (schedule_highest k2 c t) as (k3 & E3 & Hk3 & R & Hh);
    [done|by rewrite Ec2| |exact Ht2|apply live_stat_live|done|].
  { unfold ipc_same, ipc_part in S2. simpl in S2. congruence. }
  erewrite bind_some by exact E3. exists k3. split_and!; try done.
  by apply (sched_rel_live k2 k3 t (set_priority (init_priority th) th) _ R Ht2), live_stat_live.
Qed.

(** ** Change of priority *)

(** A thread that is not ready may change its priority where it is. *)
Lemma kok_priority t th p k : kok k -> k_threads k !! t = Some th ->
  stat th <> RT_THREAD_READY -> 0 <= p < RT_THREAD_PRIORITY_MAX ->
  kok (put_thread t (set_priority p th) k).
Proof.
  intros [K T] Ht Hs Hp. split; [|by eapply tinv_put; eauto].
  pose proof K as [Hth Hm ? ? Hr Hrun Hc ? ?].
  split; try done; simpl; intros *; rewrite ?lookup_insert.
  - case_decide; intros; simplify_eq; [|eauto]. apply thread_ok_priority; eauto.
  - intros Hin. destruct (Hm _ _ Hin) as (? & th0 & Ht0 & Hls). split; [done|].
    case_decide; subst; [|eauto]. simplify_eq. exists (set_priority p th). split; [done|].
    destruct l; simpl in *; naive_solver.
  - case_decide; intros; simplify_eq; eauto.
  - case_decide; intros; simplify_eq; eauto.
  - case_decide; eauto.
Qed.

Lemma control_priority_kok t th p k : kok k -> k_threads k !! t = Some th ->
  0 <= p < RT_THREAD_PRIORITY_MAX ->
  exists k', rt_thread_control t (RT_THREAD_CTRL_CHANGE_PRIORITY p) k = Some (RT_EOK, k') /\
    kok k' /\ ipc_same k k' /\ k_current k' = k_current k /\
    (exists s, k_threads k' = <[t := set_stat s (set_priority p th)]> (k_threads k) /\
      (s = stat th \/ ready_or_running s /\ stat th = RT_THREAD_READY)) /\
    (forall l, (forall q, l <> LReady q) -> lst k' l = lst k l).
Proof.
  intros Hk Ht Hp. pose proof (kok_thread _ _ _ Hk Ht) as Hok.
  unfold rt_thread_control, thread_get. erewrite lift_bind by done.
  rewrite stat_of_eq, (wrap_small 8) by (done || unfold RT_THREAD_PRIORITY_MAX in *; lia).
  destruct (stat th =? RT_THREAD_READY) eqn:E; zify_bool.
  - destruct Hk as [K T]. set (k1 := put_thread t (set_priority p th) (removed t th k)).
    assert (kinv (Some t) k1) as K1.
    { apply kinv_put; [eapply kinv_removed; [done|by left|done]|by apply thread_ok_priority]. }
    assert (k_threads k1 !! t = Some (set_priority p th)) as Ht1 by apply lookup_insert_eq.
    destruct (removed_timers t th k) as (Em & Elt & Est).
    exists (inserted t (set_priority p th) k1). split_and!.
    + assert ((rt_schedule_remove_thread t;; thread_mod t (set_priority p);;
        rt_schedule_insert_thread t) k = Some (tt, inserted t (set_priority p th) k1)) as R.
      { erewrite bind_some by (by apply remove_thread_run).
        erewrite bind_some by (apply thread_mod_run; by rewrite removed_threads).
        apply insert_thread_run; [done|by apply thread_ok_priority]. }
      by erewrite bind_some by exact R.
    + split; [apply kinv_inserted; [done..|by apply mask_of_priority]|].
      apply tinv_inserted; [|done|simpl; rewrite Elt; eapply not_armed; [done..|by rewrite E]].
      eapply tinv_put; [|by rewrite removed_threads|by right].
      eapply tinv_ext; [done|apply removed_threads|done..].
    + etrans; [apply (ipc_same_removed t th)|]. etrans; [|apply ipc_same_inserted]. done.
    + rewrite inserted_current. simpl. apply removed_current.
    + exists (live_stat t k1). rewrite inserted_threads. simpl. rewrite removed_threads, insert_insert_eq.
      split; [done|]. right. split; [apply live_stat_live|done].
    + intros l Hl. rewrite lst_inserted, decide_False by naive_solver.
      change (lst k1 l) with (lst (removed t th k) l). rewrite lst_removed. apply filter_not_in.
      intros Hin. destruct (ki_member _ _ K _ _ Hin) as (_ & th0 & ? & Hls). simplify_eq.
      destruct l; simpl in Hls; try (by rewrite E in Hls). by edestruct Hl.
  - exists (put_thread t (set_priority p th) k).
    erewrite bind_some by (by apply thread_mod_run).
    split_and!; try done; [by apply kok_priority|]. exists (stat th).
    split; [|by left]. by destruct th.
Qed.

(** ** Timeout *)

Definition timed_out (th : rt_thread) : rt_thread := set_error (- RT_ETIMEOUT) th.

(** [rt_thread_timeout] on a suspended thread whose timer has left the list. *)
Lemma timeout_kok t th k c : kok k -> k_current k = Some c -> k_threads k !! t = Some th ->
  stat th = RT_THREAD_SUSPEND -> inl t ∉ k_timer_list k ->
  exists k1 k', rt_thread_timeout t k = Some (tt, k') /\ kok k' /\ ipc_same k k' /\
    k_threads k1 = <[t := set_stat (live_stat t k) (timed_out th)]> (k_threads k) /\
    k_current k1 = Some c /\ sched_rel k1 k' /\
    (k_timers k', k_timer_list k', k_soft_timer_list k') =
    (k_timers k, k_timer_list k, k_soft_timer_list k) /\
    (forall l, (forall p, l <> LReady p) -> lst k' l = filter (fun u => u <> t) (lst k l)).
Proof.
  intros Hk Hc Ht Hs Hno.
  assert (kok (put_thread t (timed_out th) k)) as [K1 T1] by (by eapply kok_put_data).
  set (k1 := unlink_thread t (put_thread t (timed_out th) k)).
  assert (k_threads k1 !! t = Some (timed_out th)) as Ht1 by apply lookup_insert_eq.
  assert (thread_ok (timed_out th)) as Hok.
  { destruct (kok_thread _ _ _ Hk Ht) as (?&?&?&?). done. }
  assert (kinv (Some t) k1) as Ki1.
  { eapply kinv_unlink; [done|apply lookup_insert_eq|]. simpl. by rewrite Hs. }
  set (k2 := inserted t (timed_out th) k1).
  assert (kok k2) as Hk2.
  { split; [apply kinv_inserted; [done..|apply started_mask; [done|simpl; by rewrite Hs..]]|].
    apply tinv_inserted; [by eapply tinv_ext|done|done]. }
  assert (k_current k2 = Some c) as Hc2 by (unfold k2; by rewrite inserted_current).
  destruct (schedule_kok k2 c Hk2 Hc2) as (k3 & E3 & Hk3 & R & _).
  destruct (inserted_timers t (timed_out th) k1) as (Em & El & Es).
  exists k2, k3. split_and!; try done.
  - unfold rt_thread_timeout. erewrite bind_some by (by apply thread_mod_run).
    unfold rt_list_remove. rewrite modify_bind.
    by erewrite bind_some by (by apply insert_thread_run).
  - etrans; [|by apply ipc_same_sched]. etrans; [|apply ipc_same_inserted]. done.
  - unfold k2. rewrite inserted_threads. simpl. by rewrite insert_insert_eq.
  - destruct R as [F _ _ _ _]. rewrite F. simpl. unfold k2. by rewrite Em, El, Es.
  - intros l Hl. rewrite (sr_wait _ _ R l Hl). unfold k2. rewrite lst_inserted, decide_False by naive_solver. exact (lst_unlink t (put_thread t (timed_out th) k) l).
Qed.
