(* ===== verification/TimerSpec.v ===== *)
(** * Correctness of the timer queue and of the tick

    The hard timer list is ordered by the time left ([left]), in the modular
    arithmetic of the 32-bit tick.  A tick fires exactly the timers whose time
    has come; [n] ticks wake a thread that sleeps for [n]. *)

From Stdlib Require Import Sorted.
From S2P Require Import Prelude Kernel Sched Object Thread ThreadInv ThreadSpec.

(** ** Time left *)

Definition HALF : Z := RT_TICK_MAX / 2.

Definition timer_left (m : gmap tmid rt_timer) (now : Z) (i : tmid) : Z :=
  match m !! i with Some tm => u32 (timeout_tick tm - now) | None => 0 end.

Definition left (k : kernel) (i : tmid) : Z := timer_left (k_timers k) (k_tick k) i.

(** Every timer of the list is still to come, nearest first. *)
Definition ordered (f : tmid -> Z) (l : list tmid) : Prop :=
  StronglySorted (fun i j => f i <= f j) l /\ Forall (fun i => 0 < f i < HALF) l.

(** The timers of the list are the threads' own, which are one-shot. *)
Definition thread_timers (k : kernel) : Prop := forall i, i ∈ k_timer_list k ->
  exists t tm, i = inl t /\ k_timers k !! i = Some tm /\
    flag_set (tm_flag tm) RT_TIMER_FLAG_PERIODIC = false.

Definition timers_in_range (m : gmap tmid rt_timer) (l : list tmid) : Prop :=
  forall j, j ∈ l -> exists tm, m !! j = Some tm /\ 0 <= timeout_tick tm < 2 ^ 32.

Record pending (k : kernel) : Prop := {
  pd_tick : 0 <= k_tick k < 2 ^ 32;
  pd_range : timers_in_range (k_timers k) (k_timer_list k);
  pd_ordered : ordered (left k) (k_timer_list k);
  pd_threads : thread_timers k
}.

Lemma u32_sub_cases a b : 0 <= a < 2 ^ 32 -> 0 <= b < 2 ^ 32 ->
  u32 (a - b) = if a <? b then a - b + 2 ^ 32 else a - b.
Proof.
  intros Ha Hb. unfold wrap. destruct (Z.ltb_spec a b).
  - symmetry. apply (Z.mod_unique_pos _ _ (-1)); lia.
  - apply Z.mod_small. lia.
Qed.

(** The comparison of two expiry times is the comparison of the times left. *)
Lemma tick_diff a b now : let x := u32 (a - now) in let y := u32 (b - now) in
  0 <= x < HALF -> 0 <= y < HALF -> 0 <= a < 2 ^ 32 -> 0 <= b < 2 ^ 32 -> 0 <= now < 2 ^ 32 ->
  (u32 (a - b) = 0 <-> x = y) /\ (u32 (a - b) < HALF <-> y <= x).
Proof.
  cbv zeta. intros Hx Hy Ha Hb Hn. unfold HALF, RT_TICK_MAX in *.
  change (4294967295 / 2) with 2147483647 in *.
  rewrite !u32_sub_cases in * by lia.
  destruct (Z.ltb_spec a now), (Z.ltb_spec b now), (Z.ltb_spec a b); lia.
Qed.

Lemma ordered_nil f : ordered f [].
Proof. split; constructor. Qed.

Lemma ordered_cons f i l : ordered f (i :: l) <->
  0 < f i < HALF /\ Forall (fun j => f i <= f j) l /\ ordered f l.
Proof.
  unfold ordered. rewrite Forall_cons. split.
  - intros [Hs [? ?]]. apply StronglySorted_inv in Hs as [? ?]. done.
  - intros (? & ? & ? & ?). split; [by constructor|done].
Qed.

Lemma ordered_app f l1 l2 : ordered f (l1 ++ l2) -> ordered f l2.
Proof.
  induction l1 as [|i l1 IH]; [done|]. simpl. rewrite ordered_cons. naive_solver.
Qed.

Lemma ordered_shift f g l : (forall i, i ∈ l -> g i = f i - 1 /\ 1 < f i) ->
  ordered f l -> ordered g l.
Proof.
  induction l as [|i l IH]; intros He; [intros; apply ordered_nil|]. rewrite !ordered_cons.
  destruct (He i) as [-> ?]; [apply list_elem_of_here|].
  assert (forall j, j ∈ l -> g j = f j - 1 /\ 1 < f j) as He'
    by (intros ??; apply He; by apply list_elem_of_further).
  intros (? & Hf & ?). split_and!; [lia..| |by apply IH].
  rewrite Forall_forall in *. intros j Hj. destruct (He' j Hj) as [-> _]. specialize (Hf j Hj). lia.
Qed.

Lemma ordered_ext f g l : (forall i, i ∈ l -> f i = g i) -> ordered f l -> ordered g l.
Proof.
  induction l as [|i l IH]; intros He; [intros; apply ordered_nil|].
  rewrite !ordered_cons. rewrite <- (He i) by apply list_elem_of_here.
  assert (forall j, j ∈ l -> f j = g j) as He' by (intros ??; apply He; by apply list_elem_of_further).
  intros (? & Hf & ?). split_and!; [lia..| |by apply IH].
  rewrite Forall_forall in *. intros j Hj. rewrite <- He' by done. auto.
Qed.

(** ** Inserting keeps the order *)

Section insert.
Variables (m : gmap tmid rt_timer) (now : Z) (i : tmid) (tick : Z).
Hypothesis Hnow : 0 <= now < 2 ^ 32.
Hypothesis Htick : 0 <= tick < 2 ^ 32.
Let f := timer_left m now.
(** The time left of the new timer, which is not yet in the map. *)
Let g (j : tmid) := if decide (j = i) then u32 (tick - now) else f j.
Hypothesis Hi : 0 < u32 (tick - now) < HALF.

Lemma timer_insert_ordered l r : i ∉ l -> timers_in_range m l -> ordered f l ->
  timer_insert m i tick l = Some r -> ordered g r.
Proof.
  assert (g i = u32 (tick - now)) as Egi by (unfold g; by rewrite decide_True).
  revert r. induction l as [|j l IH]; intros r Hni Hr Ho.
  { intros [= <-]. apply ordered_cons. rewrite Egi. split_and!; [lia..|done|apply ordered_nil]. }
  apply not_elem_of_cons in Hni as [Hij Hni]. pose proof Ho as Ho'.
  apply ordered_cons in Ho as (Hj & Hall & Ho).
  destruct (Hr j) as (tm & Em & Htm); [apply list_elem_of_here|]. simpl. rewrite Em. simpl.
  assert (f j = u32 (timeout_tick tm - now)) as Ef by (unfold f, timer_left; by rewrite Em).
  destruct (tick_diff (timeout_tick tm) tick now) as [Hz Hlt]; [lia..|].
  rewrite <- Ef in Hz, Hlt.
  assert (forall h, h ∈ j :: l -> g h = f h) as Eg.
  { intros h Hh. unfold g. rewrite decide_False; [done|]. intros ->.
    apply elem_of_cons in Hh as [->|]; done. }
  fold HALF. destruct (u32 (timeout_tick tm - tick) =? 0) eqn:E0; zify_bool;
    [|destruct (u32 (timeout_tick tm - tick) <? HALF) eqn:E1; zify_bool].
  2:{ intros [= <-]. apply ordered_cons. rewrite Egi. apply Hlt in E1. split_and!; [lia..| |].
      - constructor; [rewrite Eg by apply list_elem_of_here; lia|].
        rewrite Forall_forall in *. intros h Hh. specialize (Hall h Hh).
        rewrite Eg by (by apply list_elem_of_further). lia.
      - eapply ordered_ext; [|exact Ho']. intros h Hh. by rewrite Eg. }
  all: destruct (timer_insert m i tick l) as [r'|] eqn:Er; intros [= <-];
    apply ordered_cons; rewrite Eg by apply list_elem_of_here; split_and!; [lia..| |].
  all: try (apply IH; [done| |done|done]; intros h Hh; apply Hr; by apply list_elem_of_further).
  all: destruct (timer_insert_split m i tick l) as (l1 & l2 & -> & Es);
    [intros h Hh; destruct (Hr h) as (? & ? & _); [by apply list_elem_of_further|eauto]|].
  all: rewrite Er in Es; injection Es as ->; rewrite Forall_forall in *; intros h Hh;
    rewrite <- Permutation_middle, elem_of_cons in Hh; destruct Hh as [->|Hh];
    [rewrite Egi; lia|rewrite Eg by (by apply list_elem_of_further); auto].
Qed.
End insert.

Lemma ordered_filter f i l : ordered f l -> ordered f (filter (fun j => j <> i) l).
Proof.
  induction l as [|j l IH]; [done|]. rewrite ordered_cons, filter_cons.
  intros (? & Ha & ?). case_decide; [|auto]. apply ordered_cons. split_and!; [lia..| |auto].
  rewrite Forall_forall in *. intros h [_ ?]%list_elem_of_filter. auto.
Qed.

Lemma left_armed now n : 0 <= now < 2 ^ 32 -> 0 < n < HALF -> u32 (u32 (now + n) - now) = n.
Proof.
  intros Hn Hl. unfold HALF, RT_TICK_MAX in *. change (4294967295 / 2) with 2147483647 in *.
  rewrite u32_sub_cases by (lia || (apply wrap_bounds; lia)). unfold wrap.
  destruct (decide (now + n < 2 ^ 32)).
  - rewrite Z.mod_small by lia. destruct (Z.ltb_spec (now + n) now); lia.
  - replace ((now + n) mod 2 ^ 32) with (now + n - 2 ^ 32)
      by (apply (Z.mod_unique_pos _ _ 1); lia).
    destruct (Z.ltb_spec (now + n - 2 ^ 32) now); lia.
Qed.

Lemma flag_or_periodic f :
  flag_set (Z.lor (flag_clear f RT_TIMER_FLAG_ACTIVATED) RT_TIMER_FLAG_ACTIVATED) RT_TIMER_FLAG_PERIODIC
  = flag_set f RT_TIMER_FLAG_PERIODIC.
Proof.
  change RT_TIMER_FLAG_ACTIVATED with (2 ^ 0). change RT_TIMER_FLAG_PERIODIC with (2 ^ 1).
  rewrite !flag_set_testbit, Z.lor_spec, flag_clear_testbit, Z.pow2_bits_false by lia.
  rewrite bool_decide_eq_false_2 by done. by rewrite andb_true_r, orb_false_r.
Qed.

Lemma start_pending t th tm k : kok k -> pending k -> k_threads k !! t = Some th ->
  stat th = RT_THREAD_SUSPEND -> k_timers k !! inl t = Some tm ->
  flag_set (tm_flag tm) RT_TIMER_FLAG_PERIODIC = false -> 0 < tm_init_tick tm < HALF ->
  exists k', rt_timer_start (inl t) k = Some (RT_EOK, k') /\ kok k' /\ pending k' /\
    left k' (inl t) = tm_init_tick tm /\
    k_timer_list k' ≡ₚ inl t :: filter (fun j => j <> inl t) (k_timer_list k) /\
    same_threads k k' /\ ipc_same k k'.
Proof.
  intros [K T] [Pn Pr Po Pt] Ht Hs Hm Hper Hinit.
  assert (flag_set (tm_flag tm) RT_TIMER_FLAG_SOFT_TIMER = false) as Hsoft by (by eapply ti_hard).
  destruct (start_run (inl t) tm k T Hm Hsoft) as (l1 & l2 & El & Ei & Hrun).
  set (k' := started (inl t) tm (l1 ++ inl t :: l2) k) in *.
  assert (k_timers k' = <[inl t := armed_timer (k_tick k) tm]> (k_timers k)) as Em by done.
  pose proof (left_armed (k_tick k) (tm_init_tick tm) Pn Hinit) as Hleft.
  assert (forall j, left k' j = if decide (j = inl t)
    then u32 (u32 (k_tick k + tm_init_tick tm) - k_tick k) else left k j) as Elf.
  { intros j. unfold left, timer_left. rewrite Em, lookup_insert.
    case_decide; [by rewrite decide_True|by rewrite decide_False by congruence]. }
  assert (forall j, j ∈ l1 ++ l2 -> j <> inl t /\ j ∈ k_timer_list k) as Hin.
  { intros j Hj. rewrite <- El in Hj. by apply elem_of_unlinked in Hj. }
  exists k'. split_and!; try done.
  - split; [by eapply kinv_ext|]. eapply tinv_started; [done..|]. intros ? [= <-]. eauto.
  - split; [done| | |]; unfold thread_timers; change (k_timer_list k') with (l1 ++ inl t :: l2).
    + intros j Hj. rewrite <- Permutation_middle, elem_of_cons in Hj. rewrite Em, lookup_insert.
      case_decide as E; [subst|].
      * eexists. split; [done|]. simpl. apply wrap_bounds. lia.
      * destruct Hj as [->|Hj]; [done|]. apply Pr. by apply Hin.
    + eapply ordered_ext; [intros j _; symmetry; apply Elf|].
      eapply timer_insert_ordered; [done|apply wrap_bounds; lia|lia| | | |exact Ei].
      * intros Hj. by apply Hin in Hj as [? _].
      * intros j Hj. apply Pr. by apply Hin.
      * rewrite <- El. by apply ordered_filter.
    + intros j Hj. rewrite <- Permutation_middle, elem_of_cons in Hj. rewrite Em.
      destruct (decide (j = inl t)) as [->|Hne].
      * exists t. eexists. rewrite lookup_insert_eq. split_and!; [done..|].
        simpl. by rewrite flag_or_periodic.
      * destruct Hj as [?|Hj]; [done|]. rewrite lookup_insert_ne by done.
        apply Pt. by apply Hin.
  - rewrite Elf, decide_True by done. done.
  - change (k_timer_list k') with (l1 ++ inl t :: l2). rewrite <- Permutation_middle. by rewrite El.
Qed.

(** ** Expiry *)

(** What happens to the threads while the timers in [fired] expire. *)
Definition expiry_rel (fired : list tmid) (k k' : kernel) : Prop :=
  forall t th, k_threads k !! t = Some th -> exists s,
    k_threads k' !! t = Some (set_stat s (if decide (inl t ∈ fired) then timed_out th else th)) /\
    (if decide (inl t ∈ fired) then ready_or_running s
     else s = stat th \/ ready_or_running (stat th) /\ ready_or_running s).

Lemma expiry_nil k k' : sched_rel k k' -> expiry_rel [] k k'.
Proof.
  intros R t th Ht. rewrite !decide_False by apply not_elem_of_nil. apply (sr_thread _ _ R _ _ Ht).
Qed.

Lemma expiry_app f1 f2 k1 k2 k3 : NoDup (f1 ++ f2) ->
  expiry_rel f1 k1 k2 -> expiry_rel f2 k2 k3 -> expiry_rel (f1 ++ f2) k1 k3.
Proof.
  intros (_ & Hd & _)%NoDup_app H1 H2 t th Ht.
  destruct (H1 t th Ht) as (s1 & Ht1 & Hs1). destruct (H2 t _ Ht1) as (s2 & Ht2 & Hs2).
  exists s2. pose proof (elem_of_app f1 f2 (inl t)) as He. specialize (Hd (inl t)).
  destruct (decide (inl t ∈ f1)), (decide (inl t ∈ f2)), (decide (inl t ∈ f1 ++ f2));
    try tauto; simpl in *; (split; [done|naive_solver]).
Qed.

(** The test of the loop: the timer's tick is not after now. *)
Definition expired (k : kernel) (i : tmid) : bool :=
  match k_timers k !! i with
  | Some tm => u32 (k_tick k - timeout_tick tm) <? HALF
  | None => false
  end.

Section check.
Variable user_timeout : nat -> M unit.

(** One turn of the loop: the first timer is due. *)
Lemma fire_kok k c t l tm : kok k -> k_current k = Some c -> k_timer_list k = inl t :: l ->
  k_timers k !! inl t = Some tm -> flag_set (tm_flag tm) RT_TIMER_FLAG_PERIODIC = false ->
  exists k1 k2 c', run_timeout user_timeout (timeout_func tm) (unlinked (inl t) k) = Some (tt, k1) /\
    timer_rearm (inl t) k1 = Some (tt, k2) /\ k_tick k1 = k_tick k /\ ipc_same k k2 /\
    kok k2 /\ k_current k2 = Some c' /\ k_timer_list k2 = l /\
    k_timers k2 = <[inl t := deactivate tm]> (k_timers k) /\ expiry_rel [inl t] k k2.
Proof.
  intros [K T] Hc El Hm Hper.
  destruct (ti_armed _ T t) as (th & Ht & Hs); [rewrite El; apply list_elem_of_here|].
  destruct (ti_thread _ T t) as (tm0 & Hm0 & Hf); [eauto|]. rewrite Hm in Hm0. injection Hm0 as <-.
  destruct (ti_nodup _ T) as [Hnd _]. rewrite El in Hnd. apply NoDup_cons in Hnd as [Hnt Hnd].
  assert (k_timer_list (unlinked (inl t) k) = l) as El1.
  { simpl. rewrite El, filter_cons, decide_False by naive_solver.
    clear -Hnt. induction l as [|j l IH]; [done|]. apply not_elem_of_cons in Hnt as [? ?].
    rewrite filter_cons, decide_True by congruence. f_equal. auto. }
  assert (kok (unlinked (inl t) k)) as Hk1 by (split; [by eapply kinv_ext|by apply tinv_unlinked]).
  destruct (timeout_kok t th (unlinked (inl t) k) c) as (k0 & k1 & E1 & Hk1' & S1 & Eth & Ec & R & Et & _);
    [done|done|done|done|by rewrite El1|].
  simplify_eq Et. intros Etm Etl Ets.
  exists k1, (put_timer (inl t) (deactivate tm) k1).
  destruct (ki_current _ _ (proj1 Hk1) c Hc) as [thc Hthc].
  destruct (sr_current _ _ R) as [c' Hc']; [by rewrite Ec|].
  assert (k_timers k1 !! inl t = Some tm) as Hm1 by (by rewrite Etm).
  exists c'. split_and!; try done.
  - by rewrite Hf.
  - unfold timer_rearm, timer_get. erewrite lift_bind by done. rewrite Hper. simpl.
    by erewrite bind_some by (by apply timer_mod_run).
  - unfold ipc_same, ipc_part in S1. simpl in S1. congruence.
  - destruct Hk1' as [K1 T1]. split; [by eapply kinv_ext|].
    eapply tinv_put_timer; [done|done|done|apply flag_clear_range|apply flag_clear_soft|].
    left. rewrite Etl, Ets, !elem_of_unlinked. naive_solver.
  - simpl. by rewrite Etl.
  - simpl. by rewrite Etm.
  - intros u thu Hu. simpl.
    assert (exists s, k_threads k0 !! u = Some (set_stat s (if decide ((inl u : tmid) ∈ ([inl t] : list tmid)) then timed_out thu else thu)) /\
      (if decide ((inl u : tmid) ∈ ([inl t] : list tmid)) then ready_or_running s else s = stat thu)) as (s & Hs0 & Hss).
    { rewrite Eth, lookup_insert. case_decide as E; subst.
      - simplify_eq. eexists. rewrite !decide_True by apply list_elem_of_here.
        split; [done|]. apply live_stat_live.
      - exists (stat thu). rewrite !decide_False by (rewrite list_elem_of_singleton; congruence).
        by rewrite set_stat_same. }
    destruct (sr_thread _ _ R _ _ Hs0) as (s' & Hs' & Hor). exists s'.
    split; [by rewrite Hs'|]. simpl in Hor. case_decide; naive_solver.
Qed.

Lemma check_loop_kok l : forall k c fuel, kok k -> k_current k = Some c -> k_timer_list k = l ->
  thread_timers k -> (length l < fuel)%nat ->
  exists fired rest k' c', rt_timer_check_loop user_timeout fuel (k_tick k) k = Some (tt, k') /\
    kok k' /\ ipc_same k k' /\ k_current k' = Some c' /\ l = fired ++ rest /\
    k_timer_list k' = rest /\ expiry_rel fired k k' /\
    Forall (fun i => expired k i = true) fired /\
    (forall i, head rest = Some i -> expired k i = false) /\
    (forall j, j ∉ fired -> k_timers k' !! j = k_timers k !! j).
Proof.
  induction l as [|i l IH]; intros k c [|fuel] Hk Hc El Hth Hfuel; simpl in Hfuel; try lia.
  { exists [], [], k, c. simpl. rewrite get_bind, El.
    split_and!; try done. apply expiry_nil, sched_rel_refl. }
  simpl. rewrite get_bind, El.
  destruct (Hth i) as (t & tm & -> & Hm & Hper); [rewrite El; apply list_elem_of_here|].
  unfold timer_get. erewrite lift_bind by done. fold HALF.
  assert (expired k (inl t) = (u32 (k_tick k - timeout_tick tm) <? HALF)) as Ex
    by (unfold expired; by rewrite Hm).
  destruct (u32 (k_tick k - timeout_tick tm) <? HALF).
  2:{ exists [], (inl t :: l), k, c. split_and!; try done;
        [apply expiry_nil, sched_rel_refl|by intros ? [= <-]]. }
  destruct (fire_kok k c t l tm) as (k1 & k2 & c2 & E1 & E2 & Et & S2 & Hk2 & Hc2 & El2 & Em2 & X2);
    try done.
  unfold _rt_timer_remove. rewrite modify_bind. fold (unlinked (inl t) k).
  erewrite bind_some by exact E1. rewrite get_bind. erewrite bind_some by exact E2. rewrite Et.
  assert (NoDup (inl t :: l)) as Hnd by (rewrite <- El; apply (ti_nodup _ (proj2 Hk))).
  apply NoDup_cons in Hnd as Hnd'. destruct Hnd' as [Hnt _].
  assert (forall j, j ∈ l -> k_timers k2 !! j = k_timers k !! j) as Em.
  { intros j Hj. rewrite Em2, lookup_insert_ne; [done|]. by intros <-. }
  assert (k_tick k2 = k_tick k) as Et2 by (unfold ipc_same, ipc_part in S2; congruence).
  assert (forall j, j ∈ l -> expired k2 j = expired k j) as Ee.
  { intros j Hj. unfold expired. by rewrite Em, Et2. }
  destruct (IH k2 c2 fuel) as (fired & rest & k' & c' & E3 & Hk' & S3 & Hc' & -> & El3 & X3 & Hf & Hh & Hm3);
    [done|done|done| |lia|].
  { intros j Hj. rewrite El2 in Hj. rewrite Em by done. apply Hth. rewrite El.
    by apply list_elem_of_further. }
  exists (inl t :: fired), rest, k', c'. rewrite Et2 in E3.
  split_and!; try done.
  - by etrans.
  - apply (expiry_app [inl t] fired k k2 k'); try done.
    apply (NoDup_app ([inl t] ++ fired) rest). exact Hnd.
  - constructor; [done|]. rewrite Forall_forall in *. intros j Hj. rewrite <- Ee; [auto|].
    apply elem_of_app. auto.
  - intros j Hj. rewrite <- Ee; [auto|]. apply elem_of_app. right. by apply head_Some_elem_of.
  - intros j [Hne Hj]%not_elem_of_cons. rewrite Hm3 by done.
    rewrite Em2. by rewrite lookup_insert_ne by congruence.
Qed.
End check.

(** ** The tick *)

Lemma pending_frame k k' : pending k -> k_tick k' = k_tick k -> k_timer_list k' = k_timer_list k ->
  (forall j, j ∈ k_timer_list k -> k_timers k' !! j = k_timers k !! j) -> pending k'.
Proof.
  intros [Pn Pr Po Pt] En El Em.
  assert (forall j, j ∈ k_timer_list k -> left k' j = left k j) as Elf.
  { intros j Hj. unfold left, timer_left. by rewrite En, Em. }
  split; unfold thread_timers; rewrite ?En, ?El; try done.
  - intros j Hj. rewrite Em by done. auto.
  - eapply ordered_ext; [|exact Po]. intros j Hj. by rewrite Elf.
  - intros j Hj. rewrite Em by done. auto.
Qed.

(** One tick takes one from the time left. *)
Lemma left_tick a now : 0 <= a < 2 ^ 32 -> 0 <= now < 2 ^ 32 -> 0 < u32 (a - now) ->
  u32 (a - u32 (now + 1)) = u32 (a - now) - 1.
Proof.
  intros Ha Hn. rewrite (u32_sub_cases a now), (u32_sub_cases a (u32 (now + 1)))
    by (lia || (apply wrap_bounds; lia)).
  destruct (decide (now + 1 < 2 ^ 32)).
  - rewrite (wrap_small 32 (now + 1)) by lia.
    destruct (Z.ltb_spec a now), (Z.ltb_spec a (now + 1)); lia.
  - replace (u32 (now + 1)) with 0 by (unfold wrap; apply (Z.mod_unique_pos _ _ 1); lia).
    destruct (Z.ltb_spec a now), (Z.ltb_spec a 0); lia.
Qed.

Lemma due_now a now : 0 <= a < 2 ^ 32 -> 0 <= now < 2 ^ 32 -> 0 <= u32 (a - now) < HALF ->
  (u32 (now - a) < HALF <-> u32 (a - now) = 0).
Proof.
  unfold HALF, RT_TICK_MAX. change (4294967295 / 2) with 2147483647.
  intros Ha Hn. rewrite !u32_sub_cases by lia.
  destruct (Z.ltb_spec a now), (Z.ltb_spec now a); lia.
Qed.

Section tick.
Variable user_timeout : nat -> M unit.

(** The first part of [rt_tick_increase]: the time slice of the running thread. *)
Definition tick_slice : M unit :=
  modify (fun k => set_k_tick (u32 (k_tick k + 1)) k);;
  thread ← self;
  thread_mod thread (fun th => set_remaining_tick (u32 (remaining_tick th - 1)) th);;
  th ← thread_get thread;
  when (remaining_tick th =? 0)
    (thread_mod thread (fun th => set_remaining_tick (init_tick th) th);;
     rt_thread_yield;; mret tt).

Lemma tick_split fuel k : rt_tick_increase user_timeout fuel k =
  (tick_slice;; rt_timer_check user_timeout fuel) k.
Proof.
  unfold rt_tick_increase, tick_slice, mbind, M_bind, mret, M_ret, modify, self, lift; simpl.
  destruct (k_current k) as [c|]; [|done].
  unfold thread_mod at 1 3, thread_get, mbind, M_bind, lift; simpl.
  destruct (k_threads k !! c) as [th|]; [|done]. simpl. by rewrite lookup_insert_eq.
Qed.

Lemma slice_kok k c : kok k -> k_current k = Some c ->
  exists k' c', tick_slice k = Some (tt, k') /\ kok k' /\ k_current k' = Some c' /\
    k_tick k' = u32 (k_tick k + 1) /\ k_timers k' = k_timers k /\
    k_timer_list k' = k_timer_list k /\
    (forall t th, k_threads k !! t = Some th -> exists r s,
       k_threads k' !! t = Some (set_stat s (set_remaining_tick r th)) /\
       (s = stat th \/ ready_or_running (stat th) /\ ready_or_running s)).
Proof.
  intros Hk Hc. set (k1 := set_k_tick (u32 (k_tick k + 1)) k).
  assert (kok k1) as Hk1 by (by eapply kok_ext).
  destruct (ki_current _ _ (proj1 Hk) c Hc) as [thc Hthc].
  assert (forall r k2, k2 = put_thread c (set_remaining_tick r thc) k1 ->
    kok k2 /\ k_current k2 = Some c /\ k_tick k2 = u32 (k_tick k + 1) /\
    (forall t th, k_threads k !! t = Some th -> exists r,
       k_threads k2 !! t = Some (set_remaining_tick r th))) as Hput.
  { intros r k2 ->. split_and!; [by eapply kok_put_data|done|done|].
    intros t th Ht. simpl. rewrite lookup_insert. case_decide; simplify_eq; [by eauto|].
    exists (remaining_tick th). by destruct th. }
  unfold tick_slice. rewrite modify_bind. fold k1. unfold self. erewrite lift_bind by done.
  erewrite bind_some by (by apply thread_mod_run). unfold thread_get.
  erewrite lift_bind by apply lookup_insert_eq. simpl.
  set (r1 := u32 (remaining_tick thc - 1)). fold (put_thread c (set_remaining_tick r1 thc) k1).
  destruct (r1 =? 0); simpl.
  - erewrite bind_some by (apply thread_mod_run, lookup_insert_eq). simpl.
    rewrite insert_insert_eq. change (set_remaining_tick _ (set_remaining_tick r1 thc))
      with (set_remaining_tick (init_tick thc) thc).
    change (set_k_threads ?m (put_thread c _ k1)) with (set_k_threads m k1).
    destruct (Hput (init_tick thc) _ eq_refl) as (Hk2 & Hc2 & Et2 & Hth2).
    destruct (schedule_kok _ c Hk2 Hc2) as (k3 & E3 & Hk3 & R & _).
    unfold rt_thread_yield. rewrite (bind_some _ _ _ RT_EOK k3) by (by erewrite bind_some by exact E3).
    destruct (sr_current _ _ R) as [c' Hc']; [by rewrite Hc2|].
    exists k3, c'. split_and!; try done; try (rewrite (sr_frame _ _ R); done).
    intros t th Ht. destruct (Hth2 t th Ht) as (r & Hr). destruct (sr_thread _ _ R _ _ Hr) as (s & Hs & Hor).
    eauto.
  - destruct (Hput r1 _ eq_refl) as (Hk2 & Hc2 & Et2 & Hth2).
    eexists _, c. split_and!; try done. intros t th Ht. destruct (Hth2 t th Ht) as (r & Hr).
    exists r, (stat th). split; [|by left]. etrans; [exact Hr|]. by destruct th.
Qed.

(** What a tick does to a thread that waits with a timer. *)
Definition woken (t : nat) (k' : kernel) : Prop :=
  exists th', k_threads k' !! t = Some th' /\ error th' = - RT_ETIMEOUT /\
    ready_or_running (stat th') /\ inl t ∉ k_timer_list k'.
Definition still_waiting (t : nat) (k k' : kernel) : Prop :=
  (exists th', k_threads k' !! t = Some th' /\ stat th' = RT_THREAD_SUSPEND) /\
  inl t ∈ k_timer_list k' /\ left k' (inl t) = left k (inl t) - 1.

(** The times left after the tick has advanced. *)
Lemma left_after k k1 j : pending k -> k_tick k1 = u32 (k_tick k + 1) -> k_timers k1 = k_timers k ->
  j ∈ k_timer_list k -> left k1 j = left k j - 1 /\ 0 < left k j < HALF /\
  (expired k1 j = true <-> left k j = 1).
Proof.
  intros [Pn Pr [_ Po] _] Et Em Hj. destruct (Pr j Hj) as (tm & Htm & Hr).
  rewrite Forall_forall in Po. specialize (Po j Hj). revert Po.
  unfold left, expired, timer_left. rewrite Em, Et, Htm. intros Po.
  assert (u32 (timeout_tick tm - u32 (k_tick k + 1)) = u32 (timeout_tick tm - k_tick k) - 1) as E
    by (apply left_tick; lia).
  split_and!; [done|lia..|]. pose proof (wrap_bounds 32 (k_tick k + 1) ltac:(lia)).
  rewrite Z.ltb_lt, due_now by lia. lia.
Qed.

Lemma tick_kok k c fuel : kok k -> pending k -> k_current k = Some c ->
  (length (k_timer_list k) < fuel)%nat ->
  exists k' c', rt_tick_increase user_timeout fuel k = Some (tt, k') /\ kok k' /\ pending k' /\
    k_current k' = Some c' /\ k_tick k' = u32 (k_tick k + 1) /\
    (length (k_timer_list k') <= length (k_timer_list k))%nat /\
    (forall t, inl t ∈ k_timer_list k ->
       if decide (left k (inl t) = 1) then woken t k' else still_waiting t k k').
Proof.
  intros Hk P Hc Hfuel. rewrite tick_split.
  destruct (slice_kok k c Hk Hc) as (k1 & c1 & E1 & Hk1 & Hc1 & Et1 & Em1 & El1 & Hth1).
  erewrite bind_some by exact E1. unfold rt_timer_check. rewrite get_bind.
  assert (thread_timers k1) as Hth by (unfold thread_timers; rewrite El1, Em1; apply P).
  destruct (check_loop_kok user_timeout (k_timer_list k1) k1 c1 fuel)
    as (fired & rest & k2 & c2 & E2 & Hk2 & S2 & Hc2 & Ef & El2 & X & Hfired & Hhead & Hm2);
    [done..|by rewrite El1|].
  pose proof (fun j => left_after k k1 j P Et1 Em1) as Hleft.
  assert (k_tick k2 = k_tick k1) as Et2 by (unfold ipc_same, ipc_part in S2; congruence).
  rewrite El1 in Ef. destruct (ti_nodup _ (proj2 Hk)) as [Hnd _]. rewrite Ef in Hnd.
  apply NoDup_app in Hnd as (_ & Hdis & _).
  assert (forall j, j ∈ rest -> k_timers k2 !! j = k_timers k !! j) as Hm.
  { intros j Hj. rewrite Hm2, Em1; [done|]. intros Hjf. by eapply Hdis. }
  assert (forall j, j ∈ rest -> left k2 j = left k j - 1) as Hl2.
  { intros j Hj. destruct (Hleft j) as (<- & _); [rewrite Ef; apply elem_of_app; auto|].
    unfold left, timer_left. by rewrite Et2, Hm, Em1. }
  assert (forall j, j ∈ rest -> 1 < left k j < HALF) as Hrest.
  { intros j Hj. pose proof (pd_ordered _ P) as Ho. rewrite Ef in Ho. apply ordered_app in Ho.
    destruct (Hleft j) as (_ & ? & _); [rewrite Ef; apply elem_of_app; auto|].
    destruct rest as [|h rest]; [by apply not_elem_of_nil in Hj|].
    destruct (Hleft h) as (_ & ? & Hx); [rewrite Ef; apply elem_of_app; right; apply list_elem_of_here|].
    rewrite Hhead in Hx by done. apply ordered_cons in Ho as (_ & Ho & _).
    rewrite Forall_forall in Ho. apply elem_of_cons in Hj as [->|Hj]; [|specialize (Ho j Hj)];
      assert (left k h <> 1) by naive_solver; lia. }
  exists k2, c2. split_and!; try done.
  - split; unfold thread_timers; rewrite ?El2.
    + rewrite Et2, Et1. apply wrap_bounds. lia.
    + intros j Hj. rewrite Hm by done. apply P. rewrite Ef. apply elem_of_app. auto.
    + apply (ordered_shift (left k)).
      * intros j Hj. rewrite Hl2 by done. specialize (Hrest j Hj). lia.
      * apply (ordered_app _ fired). rewrite <- Ef. apply P.
    + intros j Hj. rewrite Hm by done. apply P. rewrite Ef. apply elem_of_app. auto.
  - congruence.
  - rewrite El2, Ef, length_app. lia.
  - intros t Hin. destruct (ti_armed _ (proj2 Hk) t Hin) as (th & Ht & Hs).
    destruct (Hth1 t th Ht) as (r & s & Ht1 & Hor). destruct (X t _ Ht1) as (s2 & Ht2 & Hor2).
    destruct (Hleft _ Hin) as (_ & _ & Hx).
    rewrite Ef in Hin. apply elem_of_app in Hin.
    destruct (decide (left k (inl t) = 1)) as [D|D]; unfold woken, still_waiting; rewrite ?El2.
    + assert (inl t ∈ fired) as Hf.
      { destruct Hin as [?|Hin]; [done|]. specialize (Hrest _ Hin). lia. }
      rewrite decide_True in Ht2 by done. rewrite decide_True in Hor2 by done. eexists. split_and!; [done..|]. by apply Hdis.
    + destruct Hin as [Hin|Hin].
      { rewrite Forall_forall in Hfired. by apply Hx in Hfired. }
      assert (inl t ∉ fired) as Hnf by (intros ?; by eapply Hdis).
      rewrite decide_False in Ht2 by done. rewrite decide_False in Hor2 by done.
      split_and!; [|done|by apply Hl2]. eexists. split; [done|]. simpl in *.
      pose proof suspend_not_live. rewrite Hs in Hor. naive_solver.
Qed.
End tick.

(** ** Sleeping *)

Lemma filter_not_in_timer (i : tmid) (l : list tmid) : i ∉ l -> filter (fun j => j <> i) l = l.
Proof.
  induction l as [|j l IH]; [done|]. rewrite not_elem_of_cons. intros [? ?].
  rewrite filter_cons, decide_True by congruence. f_equal. auto.
Qed.

Lemma flag_clear_periodic f :
  flag_set (flag_clear f RT_TIMER_FLAG_ACTIVATED) RT_TIMER_FLAG_PERIODIC
  = flag_set f RT_TIMER_FLAG_PERIODIC.
Proof.
  change RT_TIMER_FLAG_ACTIVATED with (2 ^ 0). change RT_TIMER_FLAG_PERIODIC with (2 ^ 1).
  rewrite !flag_set_testbit, flag_clear_testbit by lia.
  rewrite bool_decide_eq_false_2 by done. apply andb_true_r.
Qed.

(** Suspending a thread whose timer is not armed leaves the timer list alone. *)
Lemma suspend_timers t th tm k k' r : kok k -> k_threads k !! t = Some th ->
  ready_or_running (stat th) -> k_timers k !! inl t = Some tm ->
  rt_thread_suspend t k = Some (r, k') ->
  k_timer_list k' = k_timer_list k /\
  (forall j, j <> inl t -> k_timers k' !! j = k_timers k !! j) /\
  exists tm', k_timers k' !! inl t = Some tm' /\
    flag_set (tm_flag tm') RT_TIMER_FLAG_PERIODIC = flag_set (tm_flag tm) RT_TIMER_FLAG_PERIODIC.
Proof.
  intros Hk Ht Hs Hm Hrun.
  rewrite (suspend_run t th tm k) in Hrun by eauto with rtboot. injection Hrun as _ <-.
  destruct (removed_timers t th k) as (Em & El & _).
  assert (inl t ∉ k_timer_list k) as Hno.
  { eapply not_armed; [apply Hk|done|]. intros E. rewrite E in Hs. by apply suspend_not_live in Hs. }
  unfold suspended, stopped. destruct (flag_set _ RT_TIMER_FLAG_ACTIVATED); simpl; rewrite ?Em, ?El.
  - split_and!; [by apply filter_not_in_timer| |].
    + intros j Hj. by rewrite lookup_insert_ne by congruence.
    + eexists. rewrite lookup_insert_eq. split; [done|]. apply flag_clear_periodic.
  - split_and!; [done..|]. eauto.
Qed.

Lemma pending_sched k k' : pending k -> sched_rel k k' -> pending k'.
Proof. intros P [F _ _ _ _]. rewrite F. by eapply pending_frame. Qed.

(** A thread of which nothing but its own timer can be said. *)
Definition one_shot (t : nat) (k : kernel) : Prop := exists tm, k_timers k !! inl t = Some tm /\
  flag_set (tm_flag tm) RT_TIMER_FLAG_PERIODIC = false.

Lemma sleep_pending k c th n p : kok k -> pending k -> k_current k = Some c ->
  k_threads k !! c = Some th -> stat th = RT_THREAD_RUNNING -> one_shot c k ->
  k_lock_nest k = 0 -> lst k (LReady p) <> [] -> 0 < n < HALF ->
  exists k', rt_thread_sleep n k = Some (tt, k') /\ kok k' /\ pending k' /\ highest_running k' /\
    k_threads k' !! c = Some (set_stat RT_THREAD_SUSPEND th) /\ k_current k' <> Some c /\
    inl c ∈ k_timer_list k' /\ left k' (inl c) = n /\ k_tick k' = k_tick k /\
    length (k_timer_list k') = S (length (k_timer_list k)).
Proof.
  intros Hk P Hc Ht Hs (tm & Hm & Hper) Hl Hp Hn. unfold rt_thread_sleep, self.
  erewrite lift_bind by done.
  assert (in_no_list c k) as Hno by (eapply stat_no_list; [apply Hk|done|by right]).
  destruct (suspend_kok c th k) as (k1 & E1 & Hk1 & S1 & Ec1 & Eth1 & El1 & Hti1); try done; [by right|].
  erewrite bind_some by exact E1.
  destruct (suspend_timers c th tm k k1 RT_EOK) as (Etl & Etm & tm1 & Hm1 & Hper1); try done; [by right|].
  assert (k_threads k1 !! c = Some (set_stat RT_THREAD_SUSPEND th)) as Ht1
    by (rewrite Eth1; apply lookup_insert_eq).
  erewrite bind_some by (by apply control_set_time).
  set (k2 := put_timer (inl c) (set_tm_init_tick (u32 n) tm1) k1).
  assert (u32 n = n) as En.
  { apply wrap_small. unfold HALF, RT_TICK_MAX in Hn. change (4294967295 / 2) with 2147483647 in Hn. lia. }
  assert (k_tick k1 = k_tick k /\ k_lock_nest k1 = k_lock_nest k) as [Et1 Ell1]
    by (unfold ipc_same, ipc_part in S1; split; congruence).
  assert (pending k2) as P2.
  { eapply (pending_frame k); [done..|]. intros j Hj. rewrite Etl in Hti1.
    unfold k2; simpl. rewrite lookup_insert_ne, Etm; [done|..]; congruence. }
  destruct (start_pending c (set_stat RT_THREAD_SUSPEND th) (set_tm_init_tick (u32 n) tm1) k2)
    as (k3 & E3 & Hk3 & P3 & Hleft & Hperm & Sm & S3); try done.
  { by apply kok_set_time. } { apply lookup_insert_eq. } { simpl. congruence. } { simpl. by rewrite En. }
  erewrite bind_some by exact E3. pose proof Sm as (Eth3 & El3 & Eg3 & Ec3).
  destruct (schedule_kok k3 c Hk3) as (k4 & E4 & Hk4 & R & Hh & _); [rewrite Ec3; simpl; by rewrite Ec1|].
  assert (highest_running k4) as Hhr.
  { apply Hh.
    - unfold ipc_same, ipc_part in S3. simpl in S3. congruence.
    - apply (group_ready k3 p Hk3). rewrite (same_threads_lst k2) by done.
      by apply (suspended_ready k k1 c p). }
  exists k4.
  assert (k_threads k4 !! c = Some (set_stat RT_THREAD_SUSPEND th)) as Ht4.
  { eapply sched_rel_thread; [done|by rewrite Eth3|apply suspend_not_live]. }
  assert (k_timer_list k4 = k_timer_list k3 /\ k_timers k4 = k_timers k3 /\ k_tick k4 = k_tick k3)
    as (Etl4 & Etm4 & Et4) by (rewrite (sr_frame _ _ R); done).
  split_and!; try done.
  - by eapply pending_sched.
  - destruct Hhr as (c' & th' & -> & Hc' & Hs' & _). intros [= ->]. by simplify_eq.
  - rewrite Etl4, Hperm. apply list_elem_of_here.
  - unfold left. rewrite Etm4, Et4. unfold left in Hleft. rewrite Hleft. simpl. done.
  - unfold ipc_same, ipc_part in S3. simpl in S3. congruence.
  - rewrite Etl4, Hperm. simpl. rewrite filter_not_in_timer by done. by rewrite Etl.
Qed.
