(* ===== verification/ThreadEnd.v ===== *)
(** * The end of a thread: delete, and the idle thread's clean-up

    A deleted thread waits, closed, on the defunct list; the idle thread frees
    the threads of that list. *)

From S2P Require Import Prelude Kernel Sched Object Thread ThreadInv ThreadSpec.

(** ** Deleting a thread *)

(** Off every list, whatever its state. *)
Definition taken_off (t : nat) (th : rt_thread) (k : kernel) : kernel :=
  if stat th =? RT_THREAD_INIT then k else removed t th k.

Definition defunct (t : nat) (th : rt_thread) (k : kernel) : kernel :=
  let k1 := put_thread t (set_stat RT_THREAD_CLOSE th) (unlinked (inl t) (taken_off t th k)) in
  set_k_lists (<[LDefunct := t :: lst k1 LDefunct]> (k_lists k1)) k1.

Lemma kinv_taken_off t th k : kinv None k -> k_threads k !! t = Some th ->
  kinv (Some t) (taken_off t th k).
Proof.
  intros K Ht. unfold taken_off. destruct (stat th =? RT_THREAD_INIT) eqn:E; zify_bool.
  - apply kinv_open; [done|]. eapply stat_no_list; [done..|by left].
  - eapply kinv_removed; [done|by left|done].
Qed.

Lemma taken_off_parts t th k : k_threads (taken_off t th k) = k_threads k /\
  k_timers (taken_off t th k) = k_timers k /\ k_timer_list (taken_off t th k) = k_timer_list k /\
  k_soft_timer_list (taken_off t th k) = k_soft_timer_list k /\
  k_current (taken_off t th k) = k_current k /\ ipc_same k (taken_off t th k).
Proof.
  unfold taken_off. destruct (stat th =? RT_THREAD_INIT); [by split_and!|].
  destruct (removed_timers t th k) as (?&?&?).
  split_and!; try done; [apply removed_threads|apply removed_current|apply ipc_same_removed].
Qed.

Lemma lst_taken_off t th k l : kinv None k -> k_threads k !! t = Some th ->
  lst (taken_off t th k) l = filter (fun u => u <> t) (lst k l).
Proof.
  intros K Ht. unfold taken_off. destruct (stat th =? RT_THREAD_INIT) eqn:E; zify_bool.
  - symmetry. apply filter_not_in. by eapply stat_no_list; [..|left].
  - apply lst_removed.
Qed.

Lemma defunct_kok t th k : kok k -> k_threads k !! t = Some th ->
  kok (defunct t th k) /\
  k_threads (defunct t th k) = <[t := set_stat RT_THREAD_CLOSE th]> (k_threads k) /\
  (forall l, lst (defunct t th k) l =
     if decide (l = LDefunct) then t :: filter (fun u => u <> t) (lst k l)
     else filter (fun u => u <> t) (lst k l)) /\
  (inl t ∉ k_timer_list (defunct t th k)) /\ k_current (defunct t th k) = k_current k.
Proof.
  intros [K T] Ht. pose proof (ki_thread _ _ K _ _ Ht) as Hok.
  destruct (taken_off_parts t th k) as (Eth & Em & El & Es & Ec & _).
  set (k1 := put_thread t (set_stat RT_THREAD_CLOSE th) (unlinked (inl t) (taken_off t th k))).
  assert (kinv (Some t) k1) as K1.
  { apply kinv_put; [|by apply thread_ok_close]. apply (kinv_ext _ (taken_off t th k)); [|done..].
    by apply kinv_taken_off. }
  assert (forall l, lst k1 l = filter (fun u => u <> t) (lst k l)) as Hl1.
  { intros l. by apply (lst_taken_off t th k l). }
  split_and!.
  - split.
    + apply (kinv_ext _ (set_k_group (k_group k1) (set_k_lists (<[LDefunct := t :: lst k1 LDefunct]> (k_lists k1)) k1)));
        [|done..].
      eapply kinv_link; [done|apply lookup_insert_eq|done|done|apply K1|].
      intros p Hp. by rewrite orb_false_r.
    + apply (tinv_ext k1); [|done..]. eapply tinv_put; [|by simpl; rewrite Eth|left].
      * apply tinv_unlinked. by eapply tinv_ext.
      * simpl. rewrite elem_of_unlinked. naive_solver.
  - simpl. by rewrite Eth.
  - intros l. unfold defunct. fold k1. rewrite lst_set, !Hl1. destruct (decide (LDefunct = l)); subst;
      [by rewrite decide_True|by rewrite decide_False by congruence].
  - simpl. rewrite elem_of_unlinked. naive_solver.
  - done.
Qed.

(** The object of the thread's timer leaves its container. *)
Definition timer_detached (t : nat) (o : rt_object) (k : kernel) : kernel :=
  set_k_container (<[RT_Object_Class_Timer :=
      filter (fun o => o <> inl t) (container k RT_Object_Class_Timer)]> (k_container k))
    (set_k_objects (<[(RT_Object_Class_Timer, inl t) := set_o_type 0 o]> (k_objects k)) k).

Lemma delete_run t th k o : kok k -> k_threads k !! t = Some th ->
  k_objects k !! (RT_Object_Class_Timer, inl t) = Some o ->
  rt_thread_delete t k = Some (RT_EOK, timer_detached t o (defunct t th k)).
Proof.
  intros Hk Ht Ho. destruct (taken_off_parts t th k) as (Eth & Em & El & Es & Ec & Sm).
  unfold ipc_same, ipc_part in Sm.
  assert (when (negb (stat_of th =? RT_THREAD_INIT)) (rt_schedule_remove_thread t) k
    = Some (tt, taken_off t th k)) as E1.
  { rewrite stat_of_eq by eauto with rtboot. unfold taken_off.
    destruct (stat th =? RT_THREAD_INIT); [done|]. by apply remove_thread_run. }
  unfold rt_thread_delete, thread_get. erewrite lift_bind by done.
  erewrite bind_some by exact E1.
  assert (rt_timer_detach (inl t) (taken_off t th k)
    = Some (RT_EOK, timer_detached t o (unlinked (inl t) (taken_off t th k)))) as E2.
  { unfold rt_timer_detach, _rt_timer_remove. rewrite modify_bind. fold (unlinked (inl t) (taken_off t th k)).
    unfold rt_object_detach, object_get. erewrite bind_some; [done|].
    erewrite lift_bind; [done|]. simpl. congruence. }
  erewrite bind_some by exact E2.
  erewrite bind_some by (apply thread_mod_run; simpl; by rewrite Eth). done.
Qed.

(** ** The scheduler lock *)

Lemma set_lock_same k n : k_lock_nest k = n -> set_k_lock_nest n k = k.
Proof. intros <-. by destruct k. Qed.

Lemma enter_critical_run k n : k_lock_nest k = n -> 0 <= n < 2 ^ 15 - 1 ->
  rt_enter_critical k = Some (tt, set_k_lock_nest (n + 1) k).
Proof. intros <- Hn. unfold rt_enter_critical, modify. by rewrite swrap_small by lia. Qed.

Lemma exit_critical_inner k n : k_lock_nest k = n -> 1 < n < 2 ^ 15 ->
  rt_exit_critical k = Some (tt, set_k_lock_nest (n - 1) k).
Proof.
  intros <- Hn. unfold rt_exit_critical. rewrite modify_bind, get_bind. simpl.
  rewrite swrap_small by lia. by destruct (Z.leb_spec (k_lock_nest k - 1) 0); [lia|].
Qed.

(** Leaving the outermost critical section runs the scheduler. *)
Lemma exit_critical_outer k c : k_lock_nest k = 1 -> k_current k = Some c ->
  rt_exit_critical k = rt_schedule (set_k_lock_nest 0 k).
Proof.
  intros Hl Hc. unfold rt_exit_critical. rewrite modify_bind, get_bind. simpl. rewrite Hl.
  rewrite swrap_small by lia. simpl. rewrite modify_bind. simpl.
  by rewrite bool_decide_eq_true_2 by congruence.
Qed.

(** ** The idle thread *)

(** The thread in [k_current] runs. *)
Definition running (k : kernel) : Prop := exists c th,
  k_current k = Some c /\ k_threads k !! c = Some th /\ stat th = RT_THREAD_RUNNING.

Lemma schedule_running k : kok k -> running k -> exists k', rt_schedule k = Some (tt, k') /\
  kok k' /\ sched_rel k k' /\ running k'.
Proof.
  intros Hk Hr. pose proof Hr as (c & th & Hc & Ht & Hs).
  destruct (schedule_kok k c Hk Hc) as (k' & E & Hk' & R & Hh & Hn).
  exists k'. split_and!; try done.
  destruct (decide (k_lock_nest k = 0)) as [Hl|]; [|by rewrite Hn by auto].
  destruct (decide (k_group k = 0)) as [|Hg]; [by rewrite Hn by auto|].
  destruct (Hh Hl Hg) as (c' & th' & ? & ? & ? & _). by exists c', th'.
Qed.

Definition freed (t : nat) (k : kernel) : kernel :=
  set_k_timers (delete (inl t) (k_timers k)) (set_k_threads (delete t (k_threads k)) k).

Lemma freed_kok t th k : kok k -> k_threads k !! t = Some th -> stat th = RT_THREAD_CLOSE ->
  in_no_list t k -> k_current k <> Some t -> kok (freed t k).
Proof.
  intros [K T] Ht Hs Hno Hc.
  assert (inl t ∉ k_timer_list k) as Hti by (eapply not_armed; [done..|by rewrite Hs]).
  assert (forall u x, delete t (k_threads k) !! u = Some x -> k_threads k !! u = Some x) as Hd.
  { intros u x. rewrite lookup_delete. by case_decide. }
  split.
  - pose proof K as [Hth Hm ? ? Hr Hrun Hcur ? ?]. split; simpl; try done;
      try (intros u thu Hu%Hd; by eauto).
    + intros l u Hu. destruct (Hm l u Hu) as (? & thu & ? & ?). split; [done|]. exists thu.
      rewrite lookup_delete_ne; [done|]. intros ->. by eapply Hno.
    + intros u Hu. rewrite lookup_delete_ne; [auto|]. congruence.
  - pose proof T as []. split; simpl; try done.
    + intros u [thu Hu]. rewrite lookup_delete_ne; [eauto|]. intros [= ->].
      by rewrite lookup_delete_eq in Hu.
    + intros i tm. rewrite lookup_delete. case_decide; [done|eauto].
    + intros u tm. rewrite lookup_delete. case_decide; [done|eauto].
    + intros i Hi. rewrite lookup_delete_ne; [eauto|]. intros <-. destruct Hi as [Hi|Hi]; [done|].
      by apply ti_soft in Hi.
    + intros u Hu. rewrite lookup_delete_ne; [eauto|]. by intros ->.
Qed.

(** A thread the idle thread can free: dynamic, without a cleanup function. *)
Definition reapable (k : kernel) (t : nat) : Prop :=
  (forall th, k_threads k !! t = Some th -> has_cleanup th = false) /\
  exists o, k_objects k !! (RT_Object_Class_Thread, inr t) = Some o /\
    Z.land (o_type o) RT_Object_Class_Static = 0.

Section idle.
Variable user_cleanup : nat -> M unit.

(** One turn of the loop. *)
Lemma reap_kok k t l : kok k -> running k -> k_lock_nest k = 0 -> lst k LDefunct = t :: l ->
  reapable k t ->
  exists k', kok k' /\ running k' /\ k_lock_nest k' = 0 /\ lst k' LDefunct = l /\
    (forall u, u <> t -> reapable k u -> reapable k' u) /\
    k_threads k' !! t = None /\
    (forall u, u <> t -> is_Some (k_threads k !! u) -> is_Some (k_threads k' !! u)) /\
    (forall u, k_threads k !! u = None -> k_threads k' !! u = None) /\
    forall fuel, rt_thread_idle_excute user_cleanup (S fuel) k
      = rt_thread_idle_excute user_cleanup fuel k'.
Proof.
  intros Hk Hr Hl El (Hcl & o & Ho & Hst). pose proof Hk as [K T].
  assert (t ∈ lst k LDefunct) as Hin by (rewrite El; apply list_elem_of_here).
  destruct (ki_member _ _ K _ _ Hin) as (_ & th & Ht & Hs). simpl in Hs.
  set (k1 := unlink_thread t k).
  assert (kok k1) as Hk1.
  { split; [|by eapply tinv_ext]. eapply kinv_close; [eapply kinv_unlink; [done..|]|done|..];
      rewrite Hs; done. }
  assert (running k1) as Hr1 by done.
  destruct (schedule_running k1 Hk1 Hr1) as (k2 & E2 & Hk2 & R & Hr2).
  assert (rt_schedule (set_k_lock_nest 0 (set_k_lock_nest (0 + 1) k1)) = Some (tt, k2)) as E2'.
  { rewrite <- E2. f_equal. change (set_k_lock_nest 0 (set_k_lock_nest _ k1)) with (set_k_lock_nest 0 k1).
    by apply set_lock_same. }
  assert (k_threads k2 !! t = Some th) as Ht2.
  { eapply sched_rel_thread; [done..|]. rewrite Hs. by intros [?|?]. }
  assert (k_objects k2 = k_objects k /\ k_lock_nest k2 = 0) as [Eo2 El2]
    by (rewrite (sr_frame _ _ R); done).
  assert (k_current k2 <> Some t) as Hc2.
  { destruct Hr2 as (c & thc & -> & Hthc & Hsc). intros [= ->]. simplify_eq. by rewrite Hs in Hsc. }
  assert (in_no_list t k2) as Hno2.
  { intros l' Hin'. destruct (ki_member _ _ (proj1 Hk2) _ _ Hin') as (_ & th' & ? & Hls). simplify_eq.
    destruct l'; simpl in Hls; destruct_and?; rewrite Hs in *; try done.
    rewrite (sr_wait _ _ R) in Hin' by done. unfold k1 in Hin'. rewrite lst_unlink in Hin'.
    by apply list_elem_of_filter in Hin' as [? _]. }
  set (k3 := set_k_container (<[RT_Object_Class_Thread :=
    filter (fun o => o <> inr t) (container k2 RT_Object_Class_Thread)]> (k_container k2)) k2).
  set (k4 := set_k_objects (delete (RT_Object_Class_Thread, inr t) (k_objects k3)) k3).
  assert (kok k4) as Hk4 by (by eapply kok_ext).
  exists (freed t k4). split_and!.
  - by eapply freed_kok.
  - destruct Hr2 as (c & thc & Hc & Hthc & Hsc). exists c, thc. split_and!; try done.
    simpl. rewrite lookup_delete_ne; [done|]. simpl in Hc2. congruence.
  - done.
  - change (lst (freed t k4) LDefunct) with (lst k2 LDefunct). rewrite (sr_wait _ _ R) by done.
    unfold k1. rewrite lst_unlink, El, filter_cons, decide_False by naive_solver.
    apply filter_not_in. pose proof (ki_nodup _ _ K LDefunct) as Hnd. rewrite El in Hnd.
    by apply NoDup_cons in Hnd as [? _].
  - intros u Hu (Hcu & ou & Hou & Hsu). split.
    + intros thu. simpl. rewrite lookup_delete_ne by done. intros Hthu.
      destruct (k_threads k !! u) as [th0|] eqn:E0.
      * destruct (sr_thread _ _ R u th0 E0) as (s & Hs2 & _). rewrite Hs2 in Hthu. simplify_eq.
        by apply (Hcu th0).
      * apply not_elem_of_dom in E0. change (k_threads k) with (k_threads k1) in E0.
        rewrite <- (sr_dom _ _ R) in E0. apply not_elem_of_dom in E0. by simplify_eq.
    + exists ou. simpl. rewrite lookup_delete_ne by congruence. by rewrite Eo2.
  - apply lookup_delete_eq.
  - intros u Hu Hsome. simpl. rewrite lookup_delete_ne by done. apply elem_of_dom.
    rewrite (sr_dom _ _ R). by apply elem_of_dom.
  - intros u Hu. simpl. rewrite lookup_delete. case_decide; [done|].
    apply not_elem_of_dom. rewrite (sr_dom _ _ R). by apply not_elem_of_dom.
  - intros fuel. cbn [rt_thread_idle_excute]. rewrite get_bind, El. unfold thread_get.
    erewrite lift_bind by done. unfold rt_list_remove. rewrite modify_bind. fold (unlink_thread t k).
    erewrite bind_some by (by apply (enter_critical_run _ 0)).
    rewrite when_bind, (Hcl th) by done. unfold rt_object_is_systemobject, object_get.
    erewrite bind_some by (by erewrite lift_bind by done). rewrite Hst. simpl.
    destruct Hr1 as (c & thc & Hc & _). erewrite bind_some.
    2:{ rewrite (exit_critical_outer _ c) by done. exact E2'. }
    unfold rt_object_delete, object_get.
    erewrite bind_some by (erewrite lift_bind by (by rewrite Eo2); done). done.
Qed.
End idle.
