(* ===== verification/Demo.v ===== *)
(** * A concrete kernel

    Threads created one after the other from the empty kernel: the state on
    which the statements of the other files are evaluated. *)

From S2P Require Import Prelude Kernel Sched Object Thread ThreadInv ThreadSpec.

Definition empty_kernel : kernel :=
  {| k_threads := ∅; k_lists := ∅; k_group := 0; k_lock_nest := 0; k_irq_nest := 0;
     k_current := None; k_current_priority := 31; k_tick := 0; k_timers := ∅;
     k_timer_list := []; k_soft_timer_list := []; k_timer_thread := 0; k_random_nr := 0;
     k_objects := ∅; k_container := ∅; k_sems := ∅; k_mutexes := ∅; k_events := ∅;
     k_mbs := ∅; k_mqs := ∅; k_mps := ∅; k_mp_words := ∅ |}.

Lemma empty_kok : kok empty_kernel.
Proof.
  assert (forall l, lst empty_kernel l = []) as El by done.
  split; split; intros *; rewrite ?El; simpl; rewrite ?lookup_empty, ?elem_of_nil; try done.
  - apply NoDup_nil_2.
  - rewrite Z.bits_0. done.
  - by intros [?|?].
  - split; apply NoDup_nil_2.
  - tauto.
Qed.

(** ** New threads *)

Definition fresh_timer (t : nat) : rt_timer :=
  {| tm_flag := 0; timeout_func := fn_thread_timeout t; tm_init_tick := 0; timeout_tick := 0 |}.

Definition fresh_thread (p : Z) : rt_thread :=
  {| stat := RT_THREAD_INIT; error := RT_EOK; current_priority := p; init_priority := p;
     number_mask := 0; event_set := 0; event_info := 0; init_tick := 10; remaining_tick := 10;
     has_cleanup := false |}.

Definition new_thread (t : nat) (th : rt_thread) (k : kernel) : kernel :=
  put_thread t th (put_timer (inl t) (fresh_timer t) k).

Lemma not_thread_no_list t k : kok k -> k_threads k !! t = None -> in_no_list t k.
Proof.
  intros [K _] Ht l Hin. destruct (ki_member _ _ K _ _ Hin) as (_ & th & ? & _). by simplify_eq.
Qed.

Lemma new_thread_inv t th k : kok k -> k_threads k !! t = None -> k_timers k !! inl t = None ->
  thread_ok th -> kinv (Some t) (new_thread t th k) /\ tinv (new_thread t th k) /\
    inl t ∉ k_timer_list (new_thread t th k).
Proof.
  intros Hk Ht Hm Hok. pose proof Hk as [K T].
  assert (forall i, i ∈ k_timer_list k \/ i ∈ k_soft_timer_list k -> i <> inl t) as Hne.
  { intros i Hi ->. destruct (ti_list _ T _ Hi) as (? & ? & _). by simplify_eq. }
  split_and!.
  - apply kinv_put; [|done]. apply (kinv_ext _ k); [|done..]. apply kinv_open; [done|].
    by apply not_thread_no_list.
  - pose proof T as []. split; simpl; try done.
    + intros u. rewrite lookup_insert. intros Hu. case_decide as E; subst.
      * rewrite lookup_insert_eq. by eexists.
      * rewrite lookup_insert_ne by congruence. auto.
    + intros i tm0. rewrite lookup_insert. case_decide; intros; simplify_eq; simpl; [lia|eauto].
    + intros u tm0. rewrite lookup_insert. case_decide; intros; simplify_eq; eauto.
    + intros i Hi. rewrite lookup_insert_ne; [auto|]. by apply not_eq_sym, Hne.
    + intros u Hu. rewrite lookup_insert_ne; [auto|]. intros ->. by apply (Hne (inl u)); auto.
  - simpl. intros Hin. by apply (Hne (inl t)); auto.
Qed.

(** A thread that has been initialised and not started. *)
Lemma new_thread_kok t p k : kok k -> k_threads k !! t = None -> k_timers k !! inl t = None ->
  0 <= p < RT_THREAD_PRIORITY_MAX -> kok (new_thread t (fresh_thread p) k).
Proof.
  intros Hk Ht Hm Hp. destruct (new_thread_inv t (fresh_thread p) k) as (K & T & _); try done.
  { unfold thread_ok; simpl. unfold RT_THREAD_CLOSE, RT_THREAD_INIT. split_and!; [lia..|right; by auto]. }
  split; [|done]. eapply kinv_close; [done|apply lookup_insert_eq|done|done].
Qed.

(** A thread that is ready, and the first thread, which runs. *)
Definition live_thread (p : Z) : rt_thread := set_number_mask (2 ^ p) (fresh_thread p).

Lemma live_thread_ok p : 0 <= p < RT_THREAD_PRIORITY_MAX -> thread_ok (live_thread p).
Proof.
  intros Hp. unfold thread_ok; simpl. unfold RT_THREAD_CLOSE, RT_THREAD_INIT.
  split_and!; [lia..|by left].
Qed.

Definition add_ready (t : nat) (p : Z) (k : kernel) : kernel :=
  inserted t (live_thread p) (new_thread t (live_thread p) k).

Definition add_running (t : nat) (p : Z) (k : kernel) : kernel :=
  inserted t (live_thread p) (set_k_current (Some t) (set_k_current_priority p
    (new_thread t (live_thread p) k))).

Lemma add_ready_kok t p k : kok k -> k_threads k !! t = None -> k_timers k !! inl t = None ->
  0 <= p < RT_THREAD_PRIORITY_MAX -> kok (add_ready t p k).
Proof.
  intros Hk Ht Hm Hp.
  destruct (new_thread_inv t (live_thread p) k) as (K & T & Hno); try done; [by apply live_thread_ok|].
  split; [apply kinv_inserted; [done|apply lookup_insert_eq|done]|].
  apply tinv_inserted; [done|apply lookup_insert_eq|done].
Qed.

Lemma add_running_kok t p k : kok k -> k_threads k = ∅ -> k_timers k !! inl t = None ->
  0 <= p < RT_THREAD_PRIORITY_MAX -> kok (add_running t p k).
Proof.
  intros Hk Ht Hm Hp.
  destruct (new_thread_inv t (live_thread p) k) as (K & T & Hno); try done;
    [by rewrite Ht|by apply live_thread_ok|].
  split; [apply kinv_inserted; [|apply lookup_insert_eq|done]|].
  - apply kinv_switch; [done|simpl; rewrite lookup_insert_eq; eauto|].
    intros u th. simpl. rewrite Ht, lookup_insert. case_decide; [intros; simplify_eq|done].
  - apply tinv_inserted; [by eapply tinv_ext|apply lookup_insert_eq|done].
Qed.

(** Thread 0 runs at priority 10; 1 and 2 are ready at 10 and 20; 3 is
    initialised with priority 5.  All are objects of the system. *)
Definition demo_objects : gmap (Z * tmid) rt_object :=
  list_to_map (flat_map (fun t =>
    [((RT_Object_Class_Thread, inr t), mk_object RT_Object_Class_Thread []);
     ((RT_Object_Class_Timer, inl t),
      mk_object (Z.lor RT_Object_Class_Timer RT_Object_Class_Static) [])]) [0; 1; 2; 3]%nat).

Definition demo : kernel :=
  set_k_objects demo_objects
    (new_thread 3 (fresh_thread 5) (add_ready 2 20 (add_ready 1 10 (add_running 0 10 empty_kernel)))).

Lemma demo_kok : kok demo.
Proof.
  apply (kok_ext (new_thread 3 (fresh_thread 5)
    (add_ready 2 20 (add_ready 1 10 (add_running 0 10 empty_kernel))))); try done.
  unfold RT_THREAD_PRIORITY_MAX in *.
  apply new_thread_kok; [|by vm_compute..].
  apply add_ready_kok; [|by vm_compute..].
  apply add_ready_kok; [|by vm_compute..].
  apply add_running_kok; [apply empty_kok|by vm_compute..].
Qed.
