(* ===== verification/Device.v ===== *)
(** * Devices: kernel/device.c

    The device layer between programs and drivers: a table of named devices, each
    with its flags, the count of its openings, two callbacks and the operations of
    its driver, which may be null pointers.  A driver works on its device and on
    what it keeps itself, [W].  The state is the kernel, whose objects the devices
    are, the devices and [W]. *)

From S2P Require Import Prelude Kernel Sched Object Thread.

Definition RT_ENOSYS : Z := 6.
Definition RT_EBUSY : Z := 7.

Definition RT_DEVICE_FLAG_RDWR : Z := 0x003.
Definition RT_DEVICE_FLAG_STANDALONE : Z := 0x008.
Definition RT_DEVICE_FLAG_ACTIVATED : Z := 0x010.
Definition RT_DEVICE_FLAG_STREAM : Z := 0x040.
Definition RT_DEVICE_FLAG_INT_RX : Z := 0x100.
Definition RT_DEVICE_OFLAG_CLOSE : Z := 0x000.
Definition RT_DEVICE_OFLAG_RDWR : Z := 0x003.
Definition RT_DEVICE_OFLAG_OPEN : Z := 0x008.
Definition RT_DEVICE_OFLAG_MASK : Z := 0xf0f.

(** The functions a callback may point to: the one of main/main.c, and others. *)
Inductive dev_fn := fn_boot_break_uart_notisfy | fn_dev (n : nat).

(** [struct rt_device] without its object, its operations and [user_data]. *)
Record dev_data := mk_dev_data {
  d_type : Z; d_flag : Z; open_flag : Z; ref_count : Z; rx_indicate : option dev_fn; tx_complete : option dev_fn }.
Implicit Type d : dev_data.
Definition set_d_flag (v : Z) d : dev_data := mk_dev_data (d_type d) v (open_flag d) (ref_count d) (rx_indicate d) (tx_complete d).
Definition set_open_flag (v : Z) d : dev_data := mk_dev_data (d_type d) (d_flag d) v (ref_count d) (rx_indicate d) (tx_complete d).
Definition set_ref_count (v : Z) d : dev_data := mk_dev_data (d_type d) (d_flag d) (open_flag d) v (rx_indicate d) (tx_complete d).
Definition set_rx_indicate (v : option dev_fn) d : dev_data := mk_dev_data (d_type d) (d_flag d) (open_flag d) (ref_count d) v (tx_complete d).
Definition set_tx_complete (v : option dev_fn) d : dev_data := mk_dev_data (d_type d) (d_flag d) (open_flag d) (ref_count d) (rx_indicate d) v.

Section device.
Context {W : Type}.

(** A driver's function: a step of its device and its own state, [None] where it
    has no meaning. *)
Definition driver (A : Type) : Type := dev_data * W -> option (A * (dev_data * W)).

Record dev_ops := mk_dev_ops {
  dev_init : option (driver Z);
  dev_open : option (Z -> driver Z);
  dev_close : option (driver Z);
  dev_read : option (Z -> Z -> driver (Z * list Z));
  dev_write : option (Z -> list Z -> driver Z);
  dev_control : option (Z -> Z -> driver Z) }.

Record dev_sys := mk_dev_sys { dk : kernel; devices : gmap nat (dev_data * dev_ops); hw : W }.

Definition D (A : Type) : Type := dev_sys -> option (A * dev_sys).
#[export] Instance D_ret : MRet D := fun A a s => Some (a, s).
#[export] Instance D_bind : MBind D := fun A B f m s => match m s with Some (a, s') => f a s' | None => None end.

Definition kcall {A} (m : M A) : D A := fun s =>
  match m (dk s) with Some (a, k) => Some (a, mk_dev_sys k (devices s) (hw s)) | None => None end.
Definition dev_get (dev : nat) : D (dev_data * dev_ops) := fun s =>
  match devices s !! dev with Some d => Some (d, s) | None => None end.
Definition dev_put (dev : nat) (d : dev_data * dev_ops) : D unit := fun s =>
  Some (tt, mk_dev_sys (dk s) (<[dev := d]> (devices s)) (hw s)).
Definition dev_free (dev : nat) : D unit := fun s => Some (tt, mk_dev_sys (dk s) (delete dev (devices s)) (hw s)).
Definition dev_mod (dev : nat) (f : dev_data -> dev_data) : D unit := d ← dev_get dev; dev_put dev (f d.1, d.2).
(** A call of the driver. *)
Definition run_driver {A} (f : driver A) (d : dev_data) : D (A * dev_data) := fun s =>
  match f (d, hw s) with Some (a, (d', w)) => Some ((a, d'), mk_dev_sys (dk s) (devices s) w) | None => None end.
Definition dev_call {A} (dev : nat) (f : driver A) : D A :=
  d ← dev_get dev;
  '(a, d') ← run_driver f d.1;
  dev_put dev (d', d.2);; mret a.

(** [rt_set_errno], in a thread. *)
Definition dev_set_errno (e : Z) : D unit := kcall (
  k ← get; match k_current k with Some t => when (k_irq_nest k =? 0) (thread_mod t (set_error e)) | None => mret tt end).

Definition rt_device_find (name : list Z) : D (option nat) := kcall (
  s ← rt_thread_self;
  when (bool_decide (s <> None)) rt_enter_critical;;
  k ← get;
  let o := find_by_name k RT_Object_Class_Device name (container k RT_Object_Class_Device) in
  s ← rt_thread_self;
  when (bool_decide (s <> None)) rt_exit_critical;;
  lift (fun _ => match o with None => Some None | Some (inr dev) => Some (Some dev) | Some (inl _) => None end)).

Definition rt_device_register (dev : option nat) (name : list Z) (flags : Z) : D Z :=
  match dev with
  | None => mret (- RT_ERROR)
  | Some dev =>
      o ← rt_device_find name;
      match o with
      | Some _ => mret (- RT_ERROR)
      | None =>
          kcall (rt_object_init RT_Object_Class_Device (inr dev) name);;
          dev_mod dev (fun d => set_open_flag 0 (set_ref_count 0 (set_d_flag (u16 flags) d)));;
          mret RT_EOK
      end
  end.

Definition rt_device_unregister (dev : nat) : D Z :=
  kcall (rt_object_detach RT_Object_Class_Device (inr dev));; mret RT_EOK.

(** [mem] is what rt_malloc gives. *)
Definition rt_device_create (mem : option nat) (type : Z) : D (option nat) :=
  match mem with
  | None => mret None
  | Some dev => dev_put dev (mk_dev_data type 0 0 0 None None, mk_dev_ops None None None None None None);; mret (Some dev)
  end.
Definition rt_device_destroy (dev : nat) : D unit :=
  kcall (rt_object_detach RT_Object_Class_Device (inr dev));; dev_free dev.

Definition activated d : bool := flag_set (d_flag d) RT_DEVICE_FLAG_ACTIVATED.
Definition set_activated d : dev_data := set_d_flag (Z.lor (d_flag d) RT_DEVICE_FLAG_ACTIVATED) d.

Definition rt_device_init (dev : nat) : D Z :=
  '(d, ops) ← dev_get dev;
  match dev_init ops with
  | None => mret RT_EOK
  | Some init =>
      if activated d then mret RT_EOK
      else
        result ← dev_call dev init;
        if negb (result =? RT_EOK) then mret result
        else dev_mod dev set_activated;; mret result
  end.

(** The beginning of rt_device_open. *)
Definition activate (dev : nat) : D Z :=
  '(d, ops) ← dev_get dev;
  if activated d then mret RT_EOK
  else
    result ← match dev_init ops with Some init => dev_call dev init | None => mret RT_EOK end;
    if negb (result =? RT_EOK) then mret result
    else dev_mod dev set_activated;; mret RT_EOK.

(** What rt_device_open and rt_device_close take for success of the driver. *)
Definition accepted (result : Z) : bool := (result =? RT_EOK) || (result =? - RT_ENOSYS).

Definition rt_device_open (dev : nat) (oflag : Z) : D Z :=
  result ← activate dev;
  if negb (result =? RT_EOK) then mret result
  else
    '(d, ops) ← dev_get dev;
    if flag_set (d_flag d) RT_DEVICE_FLAG_STANDALONE && flag_set (open_flag d) RT_DEVICE_OFLAG_OPEN then mret (- RT_EBUSY)
    else
      result ← match dev_open ops with
        | Some f => dev_call dev (f (u16 oflag))
        | None => dev_mod dev (set_open_flag (Z.land (u16 oflag) RT_DEVICE_OFLAG_MASK));; mret RT_EOK
        end;
      if accepted result then
        dev_mod dev (fun d => set_ref_count (u8 (ref_count d + 1)) (set_open_flag (Z.lor (open_flag d) RT_DEVICE_OFLAG_OPEN) d));;
        mret result
      else mret result.

Definition rt_device_close (dev : nat) : D Z :=
  '(d, ops) ← dev_get dev;
  if ref_count d =? 0 then mret (- RT_ERROR)
  else
    dev_mod dev (set_ref_count (ref_count d - 1));;
    if negb (ref_count d - 1 =? 0) then mret RT_EOK
    else
      result ← match dev_close ops with Some f => dev_call dev f | None => mret RT_EOK end;
      if accepted result then dev_mod dev (set_open_flag RT_DEVICE_OFLAG_CLOSE);; mret result
      else mret result.

Definition rt_device_read (dev : nat) (pos size : Z) : D (Z * list Z) :=
  '(d, ops) ← dev_get dev;
  if ref_count d =? 0 then dev_set_errno (- RT_ERROR);; mret (0, [])
  else
    match dev_read ops with
    | Some f => dev_call dev (f pos size)
    | None => dev_set_errno (- RT_ENOSYS);; mret (0, [])
    end.

Definition rt_device_write (dev : nat) (pos : Z) (buffer : list Z) : D Z :=
  '(d, ops) ← dev_get dev;
  if ref_count d =? 0 then dev_set_errno (- RT_ERROR);; mret 0
  else
    match dev_write ops with
    | Some f => dev_call dev (f pos buffer)
    | None => dev_set_errno (- RT_ENOSYS);; mret 0
    end.

Definition rt_device_control (dev : nat) (cmd arg : Z) : D Z :=
  '(_, ops) ← dev_get dev;
  match dev_control ops with Some f => dev_call dev (f cmd arg) | None => mret (- RT_ENOSYS) end.

Definition rt_device_set_rx_indicate (dev : nat) (rx_ind : option dev_fn) : D Z := dev_mod dev (set_rx_indicate rx_ind);; mret RT_EOK.
Definition rt_device_set_tx_complete (dev : nat) (tx_done : option dev_fn) : D Z := dev_mod dev (set_tx_complete tx_done);; mret RT_EOK.
End device.
Arguments dev_ops : clear implicits.
Arguments dev_sys : clear implicits.
Arguments driver : clear implicits.
Arguments D : clear implicits.
