(* ===== verification/DeviceSpec.v ===== *)
(** * What the device layer guarantees

    A driver is written against a protocol: it is initialised before it is opened,
    read and written only while it is open, closed once when its last user is gone,
    and opened by one user at a time when it is standalone.  [use] is this protocol
    as an automaton over the calls of the driver.  Whatever programs ask of the
    layer, the calls it makes are accepted. *)

From S2P Require Import Prelude Kernel Sched Object Thread ThreadInv ThreadSpec Demo Device.

(** ** The protocol *)

Inductive dcall := CInit (r : Z) | COpen (r : Z) | CClose (r : Z) | CRead | CWrite | CControl.

(** Whether the driver has been initialised and how often it has been opened since
    it was closed. *)
Record usage := mk_usage { ready : bool; users : nat }.

Definition use (standalone : bool) (u : usage) (c : dcall) : option usage :=
  match c with
  | CInit r => if ready u then None else Some (mk_usage (r =? RT_EOK) (users u))
  | COpen r =>
      if ready u && negb (standalone && (0 <? users u)%nat) then Some (mk_usage true (users u + (if accepted r then 1 else 0))) else None
  | CClose r => if (0 <? users u)%nat then Some (mk_usage (ready u) (if accepted r then 0 else users u)) else None
  | CRead | CWrite => if (0 <? users u)%nat then Some u else None
  | CControl => Some u
  end.

Definition use_all (standalone : bool) (u : usage) (l : list dcall) : option usage :=
  foldl (fun u c => u ← u; use standalone u c) (Some u) l.

(** ** Drivers *)

Section spec.
Context {W : Type}.

(** A driver whose calls are written down. *)
Abbreviation LW := (W * list dcall)%type.
Definition log_call {A} (c : A -> dcall) (f : driver W A) : driver LW A := fun '(d, (w, l)) =>
  match f (d, w) with Some (a, (d', w')) => Some (a, (d', (w', l ++ [c a]))) | None => None end.
Definition logged (o : dev_ops W) : dev_ops LW := mk_dev_ops
  (log_call CInit <$> dev_init o) ((fun f oflag => log_call COpen (f oflag)) <$> dev_open o) (log_call CClose <$> dev_close o)
  ((fun f pos n => log_call (fun _ => CRead) (f pos n)) <$> dev_read o)
  ((fun f pos b => log_call (fun _ => CWrite) (f pos b)) <$> dev_write o)
  ((fun f cmd arg => log_call (fun _ => CControl) (f cmd arg)) <$> dev_control o).

Definition marked_open (d : dev_data) : bool := flag_set (open_flag d) RT_DEVICE_OFLAG_OPEN.

(** What a driver leaves to the layer: the flags, the count and, unless [may a], the
    mark that the device is open. *)
Definition lawful {A} (may : A -> bool) (f : driver W A) : Prop := forall d w, exists a d' w',
  f (d, w) = Some (a, (d', w')) /\ d_flag d' = d_flag d /\ ref_count d' = ref_count d /\ (may a = false -> marked_open d' = marked_open d).

(** A driver that can be opened and closed.  The layer's caller cannot tell an
    initialisation that answers -RT_ENOSYS from an opening that does. *)
Class LawfulDriver (o : dev_ops W) : Prop := {
  law_opens : is_Some (dev_open o);
  law_closes : is_Some (dev_close o);
  law_init : forall f, dev_init o = Some f -> lawful (fun _ => false) f;
  law_init_result : forall f x a y, dev_init o = Some f -> f x = Some (a, y) -> a <> - RT_ENOSYS;
  law_open : forall f oflag, dev_open o = Some f -> lawful accepted (f oflag);
  law_close : forall f, dev_close o = Some f -> lawful accepted f;
  law_read : forall f pos n, dev_read o = Some f -> lawful (fun _ => false) (f pos n);
  law_write : forall f pos b, dev_write o = Some f -> lawful (fun _ => false) (f pos b);
  law_control : forall f cmd arg, dev_control o = Some f -> lawful (fun _ => false) (f cmd arg)
}.

(** ** Requests *)

Inductive request := RInit | ROpen (oflag : Z) | RClose | RRead (pos size : Z) | RWrite (pos : Z) (buffer : list Z) | RControl (cmd arg : Z).

Definition serve (dev : nat) (r : request) : D LW Z :=
  match r with
  | RInit => rt_device_init dev
  | ROpen oflag => rt_device_open dev oflag
  | RClose => rt_device_close dev
  | RRead pos n => '(n, _) ← rt_device_read dev pos n; mret n
  | RWrite pos b => rt_device_write dev pos b
  | RControl cmd arg => rt_device_control dev cmd arg
  end.

(** The results, with the requests they belong to. *)
Fixpoint serve_all (dev : nat) (l : list request) : D LW (list (request * Z)) :=
  match l with
  | [] => mret []
  | r :: l => a ← serve dev r; rs ← serve_all dev l; mret ((r, a) :: rs)
  end.

(** The users after a request: an opening counts when it is accepted, a closing
    when there was somebody to close. *)
Definition count_users (n : Z) (ra : request * Z) : Z :=
  match ra.1 with
  | ROpen _ => if accepted ra.2 then n + 1 else n
  | RClose => if n mod 256 =? 0 then n else n - 1
  | _ => n
  end.

(** ** The state of a device *)

Context (o : dev_ops W) `{L : !LawfulDriver o} (dev : nat) (standalone : bool).

Definition first_use : usage := mk_usage (bool_decide (dev_init o = None)) 0.

(** The device is [d] and its driver has been used as [u] says. *)
Record at_use (d : dev_data) (u : usage) (s : dev_sys LW) : Prop := {
  au_dev : devices s !! dev = Some (d, logged o);
  au_log : use_all standalone first_use (hw s).2 = Some u;
  au_current : forall t, k_current (dk s) = Some t -> is_Some (k_threads (dk s) !! t)
}.

Definition dwp {A} (m : D LW A) (Q : A -> dev_sys LW -> Prop) (s : dev_sys LW) : Prop :=
  match m s with Some (a, s') => Q a s' | None => False end.

Lemma dwp_bind {A B} (m : D LW A) (f : A -> D LW B) Q s : dwp m (fun a => dwp (f a) Q) s -> dwp (m ≫= f) Q s.
Proof. unfold dwp, mbind, D_bind. by destruct (m s) as [[a s']|]. Qed.

Lemma dwp_mono {A} (m : D LW A) (Q Q' : A -> dev_sys LW -> Prop) s : dwp m Q s -> (forall a s', Q a s' -> Q' a s') -> dwp m Q' s.
Proof. unfold dwp. destruct (m s) as [[a s']|]; naive_solver. Qed.

Lemma dev_get_ok {d u s} (Q : dev_data * dev_ops LW -> dev_sys LW -> Prop) : at_use d u s -> Q (d, logged o) s -> dwp (dev_get dev) Q s.
Proof. intros [Hd _ _]. unfold dwp, dev_get. by rewrite Hd. Qed.

Lemma dev_mod_ok {d u s} f (Q : unit -> dev_sys LW -> Prop) : at_use d u s -> (forall s', at_use (f d) u s' -> Q tt s') -> dwp (dev_mod dev f) Q s.
Proof.
  intros H HQ. apply dwp_bind, (dev_get_ok _ H), HQ. destruct H as [Hd Hl Hc]. split; [|done..]. apply lookup_insert_eq.
Qed.

Lemma dev_call_ok {A d u s} may (c : A -> dcall) (f : driver W A) Q : lawful may f -> at_use d u s ->
  (forall a d' s', (exists x y, f x = Some (a, y)) -> d_flag d' = d_flag d -> ref_count d' = ref_count d -> (may a = false -> marked_open d' = marked_open d) ->
     exists u', use standalone u (c a) = Some u' /\ (at_use d' u' s' -> Q a s')) -> dwp (dev_call dev (log_call c f)) Q s.
Proof.
  intros Hf H HQ. apply dwp_bind, (dev_get_ok _ H). destruct H as [Hd Hl Hc]. destruct s as [k ds [w l]]. simpl in *.
  destruct (Hf d w) as (a & d' & w' & E & E1 & E2 & E3). apply dwp_bind. unfold dwp at 1, run_driver. simpl. rewrite E.
  destruct (HQ a d' (mk_dev_sys k (<[dev := (d', logged o)]> ds) (w', l ++ [c a]))) as (u' & Hu & HQ'); [by eexists _, _|done..|].
  apply HQ'. split; simpl; [apply lookup_insert_eq| |done]. unfold use_all in *. rewrite foldl_app, Hl. exact Hu.
Qed.

Lemma dev_errno_ok {d u s} e (Q : unit -> dev_sys LW -> Prop) : at_use d u s -> (forall s', at_use d u s' -> Q tt s') -> dwp (dev_set_errno e) Q s.
Proof.
  intros H HQ. unfold dwp, dev_set_errno, kcall. rewrite get_bind. destruct (k_current (dk s)) as [t|] eqn:Ec.
  - destruct H as [Hd Hl Hc]. destruct (Hc t Ec) as [th Ht]. destruct (k_irq_nest (dk s) =? 0); simpl.
    + rewrite (thread_mod_run _ _ _ _ Ht). apply HQ. split; [done|done|]. simpl. intros t' Et. simplify_eq. rewrite lookup_insert_eq. by eexists.
    + by apply HQ.
  - apply HQ. destruct H. by split.
Qed.

(** The layer's data agree with the use of the driver; [n] counts the users. *)
Record related (n : Z) (d : dev_data) (u : usage) : Prop := {
  rl_count : ref_count d = n mod 256;
  rl_standalone : flag_set (d_flag d) RT_DEVICE_FLAG_STANDALONE = standalone;
  rl_ready : ready u = activated d || ready first_use;
  rl_opened : marked_open d = (0 <? users u)%nat;
  rl_users : 0 < ref_count d -> (0 < users u)%nat
}.

Lemma related_same n d d' u : related n d u -> d_flag d' = d_flag d -> ref_count d' = ref_count d -> marked_open d' = marked_open d -> related n d' u.
Proof. intros [] E1 E2 E3. split; unfold activated in *; rewrite ?E1, ?E2, ?E3; done. Qed.

Lemma set_activated_flags d : activated (set_activated d) = true /\
  flag_set (d_flag (set_activated d)) RT_DEVICE_FLAG_STANDALONE = flag_set (d_flag d) RT_DEVICE_FLAG_STANDALONE.
Proof.
  unfold activated, flag_set. simpl. split.
  - rewrite Z.land_lor_distr_l. apply negb_true_iff, Z.eqb_neq. intros E%Z.lor_eq_0_iff. destruct E as [_ E]. done.
  - f_equal. f_equal. rewrite Z.land_lor_distr_l. change (Z.land RT_DEVICE_FLAG_ACTIVATED RT_DEVICE_FLAG_STANDALONE) with 0. by rewrite Z.lor_0_r.
Qed.

Lemma mark_opened f : flag_set (Z.lor f RT_DEVICE_OFLAG_OPEN) RT_DEVICE_OFLAG_OPEN = true.
Proof. unfold flag_set. apply negb_true_iff, Z.eqb_neq. rewrite Z.land_lor_distr_l. intros [_ E]%Z.lor_eq_0_iff. done. Qed.

Abbreviation served n := (fun (_ : Z) s' => exists d' u', at_use d' u' s' /\ related n d' u').

(** A call of the driver that leaves the device as it is. *)
Lemma dev_still_ok {A n d u s} (c : A -> dcall) (f : driver W A) Q : lawful (fun _ => false) f -> at_use d u s -> related n d u ->
  (forall a, use standalone u (c a) = Some u) -> (forall a d' s', at_use d' u s' -> related n d' u -> Q a s') -> dwp (dev_call dev (log_call c f)) Q s.
Proof.
  intros Hf H R Hc HQ. apply (dev_call_ok _ c f _ Hf H). intros a d' s' _ E1 E2 E3. exists u. split; [apply Hc|].
  intros H'. apply (HQ a d' s' H'). apply (related_same n d); try done. by apply E3.
Qed.

(** Initialising: with the answer 0 the device is active and the driver ready. *)
Lemma init_call {n d u s} f Q : dev_init o = Some f -> at_use d u s -> related n d u -> activated d = false ->
  (forall a s', a <> - RT_ENOSYS -> (a <> RT_EOK -> exists d', at_use d' u s' /\ related n d' u) ->
     (a = RT_EOK -> exists d' u', at_use d' u' s' /\ related n (set_activated d') u') -> Q a s') ->
  dwp (dev_call dev (log_call CInit f)) Q s.
Proof.
  intros Ef H R Ha HQ. assert (ready first_use = false) as Hn by (simpl; by rewrite Ef).
  pose proof R as [R1 R2 R3 R4 R5]. rewrite Ha, Hn in R3. simpl in R3.
  apply (dev_call_ok _ CInit f _ (law_init f Ef) H). intros a d' s' (x & y & Ex) E1 E2 E3. simpl. rewrite R3. eexists. split; [done|].
  intros H'. apply HQ; [by eapply law_init_result| |].
  - intros Hne. exists d'. destruct (Z.eqb_spec a RT_EOK); [done|]. destruct u as [[] v]; [done|]. split; [done|].
    apply (related_same n d); [done..|by apply E3].
  - intros ->. eexists _, _. split; [done|]. destruct (set_activated_flags d') as [A1 A2]. split; try done.
    + change (ref_count d' = n mod 256). by rewrite E2.
    + rewrite A2, E1. done.
    + rewrite A1. done.
    + change (marked_open d' = (0 <? users u)%nat). by rewrite E3.
    + change (0 < ref_count d' -> (0 < users u)%nat). by rewrite E2.
Qed.

Lemma dev_activate_ok n d u s : at_use d u s -> related n d u ->
  dwp (activate dev) (fun a s' => a <> - RT_ENOSYS /\ exists d' u', at_use d' u' s' /\ related n d' u' /\ (a = RT_EOK -> ready u' = true)) s.
Proof.
  intros H R. apply dwp_bind, (dev_get_ok _ H). destruct (activated d) eqn:Ea.
  { split; [done|]. exists d, u. split_and!; [done..|]. intros _. destruct R as [_ _ -> _ _]. by rewrite Ea. }
  apply dwp_bind. simpl dev_init. destruct (dev_init o) as [f|] eqn:Ef; simpl.
  - apply (init_call f _ Ef H R Ea). intros a s' Hne Hbad Hgood. destruct (Z.eqb_spec a RT_EOK) as [->|He]; simpl.
    + destruct (Hgood eq_refl) as (d' & u' & H' & R'). apply dwp_bind, (dev_mod_ok _ _ H'). intros s'' H''. split; [done|].
      eexists _, _. split_and!; [exact H''|done|]. intros _. destruct R' as [_ _ -> _ _]. by rewrite (proj1 (set_activated_flags d')).
    + split; [done|]. destruct (Hbad He) as (d' & H' & R'). exists d', u. by split_and!.
  - apply dwp_bind, (dev_mod_ok _ _ H). intros s'' H''. split; [done|]. destruct (set_activated_flags d) as [A1 A2]. eexists _, u.
    split_and!; [exact H''| |]; pose proof R as [R1 R2 R3 R4 R5].
    + split; try done; [by rewrite A2|]. rewrite R3, A1, Ea. simpl. by rewrite Ef.
    + intros _. rewrite R3. simpl. rewrite Ef. by rewrite orb_true_r.
Qed.

Lemma dev_init_ok n d u s : at_use d u s -> related n d u -> dwp (rt_device_init dev) (served n) s.
Proof.
  intros H R. apply dwp_bind, (dev_get_ok _ H). simpl dev_init. destruct (dev_init o) as [f|] eqn:Ef; simpl; [|by exists d, u].
  destruct (activated d) eqn:Ea; [by exists d, u|]. apply dwp_bind, (init_call f _ Ef H R Ea). intros a s' _ Hbad Hgood.
  destruct (Z.eqb_spec a RT_EOK) as [->|He]; simpl.
  - destruct (Hgood eq_refl) as (d' & u' & H' & R'). apply dwp_bind, (dev_mod_ok _ _ H'). intros s'' H''. by eexists _, _.
  - destruct (Hbad He) as (d' & H' & R'). by exists d', u.
Qed.

Lemma dev_open_ok n oflag d u s : 0 <= n -> at_use d u s -> related n d u ->
  dwp (rt_device_open dev oflag) (fun a s' => served (count_users n (ROpen oflag, a)) a s') s.
Proof.
  intros Hn H R. unfold count_users. simpl. apply dwp_bind. eapply dwp_mono; [by eapply dev_activate_ok|].
  intros r s1 (Hns & d1 & u1 & H1 & R1 & Hready). destruct (Z.eqb_spec r RT_EOK) as [->|Hne]; simpl.
  2:{ exists d1, u1. split; [done|]. unfold accepted. destruct (Z.eqb_spec r RT_EOK), (Z.eqb_spec r (- RT_ENOSYS)); done. }
  apply dwp_bind, (dev_get_ok _ H1). pose proof R1 as [C1 S1 Y1 O1 U1]. fold (marked_open d1).
  destruct (flag_set (d_flag d1) RT_DEVICE_FLAG_STANDALONE && marked_open d1) eqn:Eb; [by exists d1, u1|].
  destruct (law_opens (o := o)) as [f Ef]. simpl dev_open. rewrite Ef. simpl. apply dwp_bind.
  apply (dev_call_ok accepted COpen _ _ (law_open f (u16 oflag) Ef) H1). intros a d2 s2 _ E1 E2 E3.
  rewrite S1, O1 in Eb. simpl. rewrite Hready, Eb by done. eexists. split; [done|]. intros H2.
  destruct (accepted a) eqn:Eacc.
  - apply dwp_bind, (dev_mod_ok _ _ H2). intros s3 H3. eexists _, _. split; [exact H3|]. rewrite Eacc. split; simpl.
    + rewrite E2, C1. unfold u8, wrap. by rewrite Zplus_mod_idemp_l.
    + by rewrite E1.
    + change (true = activated d2 || ready first_use). unfold activated. rewrite E1. fold (activated d1). rewrite <- Y1. symmetry. by apply Hready.
    + change (flag_set (Z.lor (open_flag d2) RT_DEVICE_OFLAG_OPEN) RT_DEVICE_OFLAG_OPEN = (0 <? users u1 + 1)%nat).
      rewrite mark_opened. symmetry. apply Nat.ltb_lt. lia.
    + lia.
  - exists d2, (mk_usage true (users u1 + 0)). split; [done|]. rewrite Eacc, Nat.add_0_r. apply (related_same n d1); try done; [|by apply E3].
    split; try done. rewrite <- Y1. simpl. symmetry. by apply Hready.
Qed.

Lemma dev_close_ok n d u s : 0 <= n -> at_use d u s -> related n d u -> dwp (rt_device_close dev) (fun a s' => served (count_users n (RClose, a)) a s') s.
Proof.
  intros Hn H R. unfold count_users. simpl. pose proof R as [C S Y O U]. apply dwp_bind, (dev_get_ok _ H). rewrite C.
  destruct (Z.eqb_spec (n mod 256) 0) as [E0|E0]; [by exists d, u|].
  assert (n mod 256 - 1 = (n - 1) mod 256) as En by (Z.to_euclidean_division_equations; lia).
  assert (0 < ref_count d) as Hpos by (rewrite C; Z.to_euclidean_division_equations; lia).
  apply dwp_bind, (dev_mod_ok _ _ H). intros s1 H1. rewrite En. set (d1 := set_ref_count _ d) in *.
  assert (related (n - 1) d1 u) as R1 by (split; try done; intros _; by apply U).
  destruct (Z.eqb_spec ((n - 1) mod 256) 0) as [E1|E1]; simpl; [|by exists d1, u].
  destruct (law_closes (o := o)) as [f Ef]. rewrite Ef. simpl. apply dwp_bind.
  apply (dev_call_ok accepted CClose _ _ (law_close f Ef) H1). intros a d2 s2 _ F1 F2 F3. simpl.
  destruct (Nat.ltb_spec 0 (users u)) as [_|Hu]; [|specialize (U Hpos); lia]. eexists. split; [done|]. intros H2.
  destruct (accepted a) eqn:Eacc.
  - apply dwp_bind, (dev_mod_ok _ _ H2). intros s3 H3. eexists _, _. split; [exact H3|]. split; simpl.
    + by rewrite F2.
    + by rewrite F1.
    + rewrite Y. unfold activated. simpl. by rewrite F1.
    + done.
    + rewrite F2. simpl. lia.
  - exists d2, u. destruct u as [y v]. split; [done|]. apply (related_same (n - 1) d1); try done. by apply F3.
Qed.

Lemma users_open n d u : related n d u -> ref_count d <> 0 -> (0 <? users u)%nat = true.
Proof. intros [C _ _ _ U] Hne. apply Nat.ltb_lt, U. rewrite C in *. Z.to_euclidean_division_equations; lia. Qed.

Lemma dev_read_ok n pos size d u s : at_use d u s -> related n d u -> dwp (rt_device_read dev pos size) (fun _ => served n 0) s.
Proof.
  intros H R. apply dwp_bind, (dev_get_ok _ H). destruct (Z.eqb_spec (ref_count d) 0) as [E0|E0].
  { apply dwp_bind, (dev_errno_ok _ _ H). intros s' H'. by exists d, u. }
  simpl dev_read. destruct (dev_read o) as [f|] eqn:Ef; simpl; [|apply dwp_bind, (dev_errno_ok _ _ H); intros s' H'; by exists d, u].
  apply (dev_still_ok _ _ _ (law_read f pos size Ef) H R); [intros _; simpl; by rewrite (users_open n d u)|]. intros _ d' s' H' R'. by exists d', u.
Qed.

Lemma dev_write_ok n pos b d u s : at_use d u s -> related n d u -> dwp (rt_device_write dev pos b) (served n) s.
Proof.
  intros H R. apply dwp_bind, (dev_get_ok _ H). destruct (Z.eqb_spec (ref_count d) 0) as [E0|E0].
  { apply dwp_bind, (dev_errno_ok _ _ H). intros s' H'. by exists d, u. }
  simpl dev_write. destruct (dev_write o) as [f|] eqn:Ef; simpl; [|apply dwp_bind, (dev_errno_ok _ _ H); intros s' H'; by exists d, u].
  apply (dev_still_ok _ _ _ (law_write f pos b Ef) H R); [intros _; simpl; by rewrite (users_open n d u)|]. intros _ d' s' H' R'. by exists d', u.
Qed.

Lemma dev_control_ok n cmd arg d u s : at_use d u s -> related n d u -> dwp (rt_device_control dev cmd arg) (served n) s.
Proof.
  intros H R. apply dwp_bind, (dev_get_ok _ H). simpl dev_control. destruct (dev_control o) as [f|] eqn:Ef; simpl; [|by exists d, u].
  apply (dev_still_ok _ _ _ (law_control f cmd arg Ef) H R); [done|]. intros _ d' s' H' R'. by exists d', u.
Qed.

Lemma dev_serve_ok n r d u s : 0 <= n -> at_use d u s -> related n d u -> dwp (serve dev r) (fun a s' => served (count_users n (r, a)) a s') s.
Proof.
  intros Hn H R. destruct r; simpl serve.
  - exact (dev_init_ok n d u s H R).
  - exact (dev_open_ok n _ d u s Hn H R).
  - exact (dev_close_ok n d u s Hn H R).
  - apply dwp_bind. eapply dwp_mono; [exact (dev_read_ok n pos size d u s H R)|]. by intros [].
  - exact (dev_write_ok n pos buffer d u s H R).
  - exact (dev_control_ok n cmd arg d u s H R).
Qed.

Lemma count_users_nonneg n ra : 0 <= n -> 0 <= count_users n ra.
Proof. intros Hn. unfold count_users. destruct ra as [[] a]; simpl; repeat case_match; try lia. destruct (Z.eqb_spec (n mod 256) 0); [done|]. assert (n <> 0) by (by intros ->). lia. Qed.

Lemma serve_all_ok l : forall n d u s, 0 <= n -> at_use d u s -> related n d u ->
  dwp (serve_all dev l) (fun rs s' => served (foldl count_users n rs) 0 s') s.
Proof.
  induction l as [|r l IH]; intros n d u s Hn H R; simpl; [by exists d, u|].
  apply dwp_bind. eapply dwp_mono; [by eapply dev_serve_ok|]. intros a s' (d' & u' & H' & R'). apply dwp_bind.
  eapply dwp_mono; [by eapply IH; [apply count_users_nonneg|..]|]. by intros rs s'' HQ.
Qed.
End spec.

Lemma serve_all_requests {W : Type} dev l (s s' : dev_sys (W * list dcall)) : forall rs, serve_all dev l s = Some (rs, s') -> rs.*1 = l.
Proof.
  revert s. induction l as [|r l IH]; intros s rs; simpl; [by intros [= <- _]|]. unfold mbind, D_bind.
  destruct (serve dev r s) as [[a s1]|]; [|done]. destruct (serve_all dev l s1) as [[rs1 s2]|] eqn:E; [|done].
  intros [= <- ->]. simpl. f_equal. by eapply IH.
Qed.


(** ** Names *)

Section names.
Context {W : Type}.
Implicit Types (s : dev_sys W) (name : list Z).

(** A string that fits into the field with its terminator. *)
Definition fits name : Prop := Forall (fun c => c <> 0) name /\ Z.of_nat (length name) < RT_NAME_MAX.

Lemma strncmp_pad a : forall b n k, Forall (fun c => c <> 0) a -> Forall (fun c => c <> 0) b -> (length a < n)%nat -> (length b < n)%nat ->
  rt_strncmp_eq (a ++ replicate (S k) 0) b n = bool_decide (a = b).
Proof.
  induction a as [|x a IH]; intros [|y b] [|n] k Ha Hb La Lb; simpl in *; try lia; try done.
  - apply Forall_cons in Hb as [Hy _]. destruct y; done.
  - apply Forall_cons in Ha as [Hx _]. destruct x; done.
  - apply Forall_cons in Ha as [Hx Ha], Hb as [Hy Hb]. destruct (Z.eqb_spec x y) as [->|Hne]; simpl.
    + destruct (Z.eqb_spec y 0); [done|]. rewrite IH by (done || lia).
      apply bool_decide_ext. naive_solver.
    + symmetry. apply bool_decide_eq_false. naive_solver.
Qed.

Lemma field_matches a b : fits a -> fits b -> rt_strncmp_eq (rt_strncpy a RT_NAME_MAX) b (Z.to_nat RT_NAME_MAX) = bool_decide (a = b).
Proof.
  unfold rt_strncpy, RT_NAME_MAX. intros [Ha La] [Hb Lb]. unfold RT_NAME_MAX in *. rewrite take_ge by lia.
  destruct (Z.to_nat 32 - length a)%nat as [|k] eqn:E; [lia|]. apply strncmp_pad; (done || lia).
Qed.

#[local] Arguments rt_strncmp_eq : simpl never.
#[local] Arguments rt_strncpy : simpl never.

Lemma kcall_bind {A B} (m : M A) (f : A -> D W B) s a k : m (dk s) = Some (a, k) -> (kcall m ≫= f) s = f a (mk_dev_sys k (devices s) (hw s)).
Proof. intros E. unfold mbind, D_bind, kcall. by rewrite E. Qed.
Lemma dev_mod_bind {B} dev f (g : unit -> D W B) s d : devices s !! dev = Some d ->
  (dev_mod dev f ≫= g) s = g tt (mk_dev_sys (dk s) (<[dev := (f d.1, d.2)]> (devices s)) (hw s)).
Proof. intros E. unfold mbind, D_bind, dev_mod, dev_get, mbind, D_bind. by rewrite E. Qed.

(** Before the first thread runs. *)
Lemma find_starting name s : k_current (dk s) = None -> rt_device_find name s =
  match find_by_name (dk s) RT_Object_Class_Device name (container (dk s) RT_Object_Class_Device) with
  | None => Some (None, s) | Some (inr dev) => Some (Some dev, s) | Some (inl _) => None end.
Proof.
  intros Hc. unfold rt_device_find, kcall, rt_thread_self. erewrite lift_bind by reflexivity. rewrite Hc, when_bind. simpl.
  rewrite get_bind. erewrite lift_bind by reflexivity. rewrite Hc, when_bind. simpl.
  destruct s as [k ds w]. simpl in *. unfold lift. by destruct (find_by_name k _ _ _) as [[]|].
Qed.

Lemma find_by_name_ext k k' type name l : (forall x, x ∈ l -> k_objects k' !! (type, x) = k_objects k !! (type, x)) ->
  find_by_name k' type name l = find_by_name k type name l.
Proof.
  induction l as [|x l IH]; intros H; [done|]. simpl. rewrite H by apply list_elem_of_here.
  destruct (k_objects k !! (type, x)); [|done]. rewrite IH; [done|]. intros y Hy. apply H. by apply list_elem_of_further.
Qed.

(** While the system starts, a device that is registered under a new name is found
    under it, and the others as before; a name that is taken is refused. *)
Theorem rt_device_register_finds dev name flags d s : k_current (dk s) = None -> k_lock_nest (dk s) = 0 -> devices s !! dev = Some d ->
  fits name -> inr dev ∉ container (dk s) RT_Object_Class_Device ->
  (rt_device_find name s = Some (None, s) -> exists s', rt_device_register (Some dev) name flags s = Some (RT_EOK, s') /\
     rt_device_find name s' = Some (Some dev, s') /\
     forall name', fits name' -> name' <> name -> option_map fst (rt_device_find name' s') = option_map fst (rt_device_find name' s)) /\
  (forall dev', rt_device_find name s = Some (Some dev', s) -> rt_device_register (Some dev) name flags s = Some (- RT_ERROR, s)).
Proof.
  intros Hc Hl Hd Hf Hin. split.
  2:{ intros dev' E. unfold rt_device_register, mbind, D_bind. by rewrite E. }
  intros E. set (c := RT_Object_Class_Device) in *.
  set (k' := set_k_container (<[c := inr dev :: container (dk s) c]> (k_container (dk s)))
    (set_k_objects (<[(c, inr dev) := {| o_type := Z.lor c RT_Object_Class_Static; o_name := rt_strncpy name RT_NAME_MAX |}]> (k_objects (dk s))) (dk s))).
  set (s' := mk_dev_sys k' (<[dev := (set_open_flag 0 (set_ref_count 0 (set_d_flag (u16 flags) d.1)), d.2)]> (devices s)) (hw s)).
  assert (container k' c = inr dev :: container (dk s) c) as Ek by (unfold container, k'; simpl; by rewrite lookup_insert_eq).
  assert (forall n, fits n -> find_by_name k' c n (inr dev :: container (dk s) c) =
    if bool_decide (name = n) then Some (inr dev) else find_by_name (dk s) c n (container (dk s) c)) as Efind.
  { intros n Hn. simpl. rewrite lookup_insert_eq. simpl. rewrite field_matches by done. case_bool_decide; [done|].
    apply find_by_name_ext. intros x Hx. simpl. rewrite lookup_insert_ne; [done|]. intros [= <-]. done. }
  assert (rt_object_init c (inr dev) name (dk s) = Some (tt, k')) as Eo.
  { unfold rt_object_init. erewrite lift_bind by reflexivity. unfold rt_enter_critical, rt_exit_critical.
    rewrite modify_bind, bind_bind, modify_bind, bind_bind, get_bind. simpl. rewrite Hl. simpl. rewrite bind_bind, modify_bind, when_bind. simpl. rewrite Hc. simpl.
    rewrite modify_bind. unfold modify. unfold k'. clear - Hl. destruct (dk s). simpl in *. by subst. }
  exists s'. split_and!.
  - unfold rt_device_register, mbind at 1, D_bind at 1. rewrite E. erewrite kcall_bind by exact Eo. by rewrite (dev_mod_bind _ _ _ _ d).
  - rewrite find_starting by done. change (dk s') with k'. fold c. by rewrite Ek, Efind, bool_decide_true.
  - intros n Hn Hne. rewrite !find_starting by done. change (dk s') with k'. fold c. rewrite Ek, Efind, bool_decide_false by congruence || done.
    by destruct (find_by_name (dk s) c n _) as [[]|].
Qed.
End names.

(** ** A driver *)

(** It counts the bytes it is given; it is opened for one user. *)
Definition demo_ops : dev_ops Z := mk_dev_ops
  (Some (fun '(d, w) => Some (RT_EOK, (d, 0)))) (Some (fun oflag '(d, w) => Some (RT_EOK, (set_open_flag oflag d, w))))
  (Some (fun '(d, w) => Some (RT_EOK, (d, w)))) None (Some (fun _ b '(d, w) => Some (Z.of_nat (length b), (d, w + Z.of_nat (length b))))) None.

#[export] Instance demo_lawful : LawfulDriver demo_ops.
Proof.
  split; simpl; try done; try by eexists.
  - intros f [= <-] d w. by eexists _, _, _.
  - by intros f [d w] a y [= <-] [= <- _].
  - intros f oflag [= <-] d w. eexists _, _, _. split; [done|]. by split_and!.
  - intros f [= <-] d w. by eexists _, _, _.
  - intros f pos b [= <-] d w. by eexists _, _, _.
Qed.

Definition demo_device : dev_data := mk_dev_data 0 RT_DEVICE_FLAG_STANDALONE 0 0 None None.
Definition demo_devices (d : dev_data) (o : dev_ops Z) : dev_sys (Z * list dcall) := mk_dev_sys empty_kernel {[0%nat := (d, logged o)]} (0, []).
Definition demo_requests : list request := [RWrite 0 [1]; ROpen 3; ROpen 3; RWrite 0 [1; 2]; RClose; RWrite 0 [1]; RClose].


(** 256 openings are none: the layer refuses the next write and the next closing. *)
Example opened_256_times : (let d := set_d_flag 0 demo_device in
  '(rs, _) ← serve_all 0 (replicate 256 (ROpen 3) ++ [RWrite 0 [1]; RClose]) (demo_devices d demo_ops); Some (drop 256 rs.*2)) = Some [0; -1].
Proof. vm_compute. reflexivity. Qed.

(** A standalone device whose driver fails to close is not open, but can never be
    opened again. *)
Definition stuck_ops : dev_ops Z := mk_dev_ops (dev_init demo_ops) (dev_open demo_ops) (Some (fun '(d, w) => Some (- RT_ERROR, (d, w)))) None None None.
Example closed_but_busy : ('(rs, _) ← serve_all 0 [ROpen 3; RClose; RClose; ROpen 3] (demo_devices demo_device stuck_ops); Some rs.*2)
  = Some [0; -1; -1; -7].
Proof. vm_compute. reflexivity. Qed.
