(* ===== verification/KernelTheorems.v ===== *)
(** * What the scheduler, the threads and the timers guarantee

    The statements about scheduler.c, thread.c, timer.c, clock.c and idle.c, each
    with an instance on the kernel of Demo. *)

From S2P Require Import Prelude Kernel Sched Object Thread ThreadInv ThreadSpec TimerSpec.
From S2P Require Import ThreadEnd Demo.

(** ** The scheduler *)

(** C1: [rt_schedule] from a consistent state with the scheduler unlocked and a
    thread ready: it ends in a consistent state where the current thread runs
    and no ready thread has a better (smaller) priority; threads that wait, and
    their lists, are untouched ([sched_rel]). *)
Theorem rt_schedule_correct k c : kok k -> k_current k = Some c ->
  k_lock_nest k = 0 -> k_group k <> 0 ->
  exists k', rt_schedule k = Some (tt, k') /\ kok k' /\ sched_rel k k' /\ highest_running k'.
Proof.
  intros Hk Hc Hl Hg. destruct (schedule_kok k c Hk Hc) as (k' & ? & ? & ? & Hh & _).
  exists k'. auto.
Qed.

Lemma rt_schedule_correct_witness :
  exists k', rt_schedule demo = Some (tt, k') /\ kok k' /\ sched_rel demo k' /\ highest_running k'.
Proof.
  apply (rt_schedule_correct demo 0); [apply demo_kok|reflexivity|reflexivity|vm_compute; discriminate].
Defined.

(** a thread that yields to threads of its own priority goes behind them:
    the first of the queue runs, the caller becomes the last. *)
Theorem rt_thread_yield_round_robin k c thc t ts p : kok k -> k_current k = Some c ->
  k_threads k !! c = Some thc -> stat thc = RT_THREAD_RUNNING -> current_priority thc = p ->
  k_lock_nest k = 0 -> lst k (LReady p) = t :: ts -> (forall q, q < p -> lst k (LReady q) = []) ->
  exists k', rt_thread_yield k = Some (RT_EOK, k') /\ kok k' /\ sched_rel k k' /\
    k_current k' = Some t /\ lst k' (LReady p) = ts ++ [c].
Proof.
  intros Hk Hc Ht Hs Hp Hl Hts Hb.
  destruct (schedule_preempt k c thc t ts p) as (k' & E & ? & ? & ? & ?); try done.
  exists k'. split_and!; try done. unfold rt_thread_yield. by erewrite bind_some by exact E.
Qed.

Lemma demo_ready q : q < 10 -> lst demo (LReady q) = [].
Proof.
  intros Hq. change (lst demo (LReady q)) with
    (default [] ((<[LReady 20 := [2%nat]]> (<[LReady 10 := [1%nat]]> (∅ : gmap lid (list nat)))) !! LReady q)).
  rewrite !lookup_insert_ne by (intros [=]; lia). done.
Qed.

Lemma rt_thread_yield_round_robin_witness : exists k',
  rt_thread_yield demo = Some (RT_EOK, k') /\ kok k' /\
  sched_rel demo k' /\ k_current k' = Some 1%nat /\ lst k' (LReady 10) = [] ++ [0%nat].
Proof.
  apply (rt_thread_yield_round_robin demo 0 (set_stat RT_THREAD_RUNNING (live_thread 10)) 1 [] 10);
    [apply demo_kok|reflexivity|vm_compute; reflexivity|reflexivity|reflexivity|reflexivity|
     vm_compute; reflexivity|apply demo_ready].
Defined.

(** [n] times the same operation. *)
Fixpoint times (n : nat) (m : M unit) : M unit :=
  match n with
  | O => mret tt
  | S n => m;; times n m
  end.

Lemma enter_times n : forall k m, k_lock_nest k = m -> 0 <= m -> m + Z.of_nat n < 2 ^ 15 ->
  times n rt_enter_critical k = Some (tt, set_k_lock_nest (m + Z.of_nat n) k).
Proof.
  induction n as [|n IH]; intros k m Hm H0 Hn.
  - simpl. rewrite Z.add_0_r. by rewrite set_lock_same.
  - cbn [times]. erewrite bind_some by (apply (enter_critical_run k m); [done|lia]).
    rewrite (IH _ (m + 1)) by (done || lia). do 2 f_equal.
    change (set_k_lock_nest ?a (set_k_lock_nest ?b k)) with (set_k_lock_nest a k). f_equal. lia.
Qed.

Lemma exit_times n : forall k c, k_lock_nest k = Z.of_nat (S n) -> Z.of_nat (S n) < 2 ^ 15 ->
  k_current k = Some c ->
  times (S n) rt_exit_critical k = (rt_schedule;; mret tt) (set_k_lock_nest 0 k).
Proof.
  induction n as [|n IH]; intros k c Hm Hn Hc.
  - cbn [times]. unfold mbind, M_bind. by rewrite (exit_critical_outer k c).
  - cbn [times]. erewrite bind_some by (apply (exit_critical_inner k _ Hm); lia).
    change (?m;; times n ?m) with (times (S n) m). rewrite (IH _ c); [done|simpl; lia|lia|done].
Qed.

(** Critical sections nest: inside [n] of them [rt_critical_level] is [n] and
    [rt_schedule] has no effect; only the last of [n] calls of
    [rt_exit_critical] runs the scheduler. *)
Theorem rt_critical_nesting k c n : k_lock_nest k = 0 -> k_current k = Some c ->
  (0 < n)%nat -> Z.of_nat n < 2 ^ 15 ->
  exists k1, times n rt_enter_critical k = Some (tt, k1) /\
    rt_critical_level k1 = Some (Z.of_nat n, k1) /\
    rt_schedule k1 = Some (tt, k1) /\
    times n rt_exit_critical k1 = (rt_schedule;; mret tt) k.
Proof.
  intros Hl Hc Hn Hb. exists (set_k_lock_nest (Z.of_nat n) k). split_and!.
  - by rewrite (enter_times n k 0) by (done || lia).
  - unfold rt_critical_level. rewrite get_bind. simpl. by rewrite wrap_small by lia.
  - unfold rt_schedule. rewrite get_bind. simpl. by destruct (Z.eqb_spec (Z.of_nat n) 0); [lia|].
  - destruct n as [|n]; [lia|]. rewrite (exit_times n _ c) by done.
    change (set_k_lock_nest 0 (set_k_lock_nest _ k)) with (set_k_lock_nest 0 k).
    by rewrite set_lock_same.
Qed.

Lemma rt_critical_nesting_witness : exists k1, times 3 rt_enter_critical demo = Some (tt, k1) /\
  rt_critical_level k1 = Some (3, k1) /\ rt_schedule k1 = Some (tt, k1) /\
  times 3 rt_exit_critical k1 = (rt_schedule;; mret tt) demo.
Proof. apply (rt_critical_nesting demo 0 3); [reflexivity|reflexivity|lia|lia]. Defined.

(** ** Threads *)

(** Suspending a ready thread and resuming it gives back the same threads,
    with the thread at the end of the queue of its priority; in between it is on
    no list.  Both calls succeed and keep the state consistent. *)
Theorem rt_thread_suspend_resume k t th : kok k -> k_threads k !! t = Some th ->
  stat th = RT_THREAD_READY -> k_current k <> Some t ->
  exists k1 k2, rt_thread_suspend t k = Some (RT_EOK, k1) /\ in_no_list t k1 /\ kok k1 /\
    rt_thread_resume t k1 = Some (RT_EOK, k2) /\ kok k2 /\ k_threads k2 = k_threads k /\
    lst k2 (LReady (current_priority th)) =
      filter (fun u => u <> t) (lst k (LReady (current_priority th))) ++ [t].
Proof.
  intros Hk Ht Hs Hc.
  destruct (suspend_kok t th k) as (k1 & E1 & Hk1 & _ & Ec1 & Eth1 & El1 & _); [done|done|by left|].
  destruct (resume_kok t (set_stat RT_THREAD_SUSPEND th) k1) as (k2 & E2 & Hk2 & _ & _ & Eth2 & El2);
    [done|rewrite Eth1; apply lookup_insert_eq|done|].
  exists k1, k2. split_and!; try done.
  - intros l. rewrite El1. intros [? _]%list_elem_of_filter. done.
  - rewrite Eth2, Eth1, insert_insert_eq. unfold live_stat. rewrite Ec1, bool_decide_eq_false_2 by done.
    change (set_stat RT_THREAD_READY (set_stat _ th)) with (set_stat RT_THREAD_READY th).
    rewrite <- Hs, set_stat_same. by apply insert_id.
  - rewrite El2. simpl. rewrite decide_True by (by rewrite Ec1). rewrite El1.
    f_equal. apply filter_not_in. intros [? _]%list_elem_of_filter. done.
Qed.

Lemma rt_thread_suspend_resume_witness : exists k1 k2,
  rt_thread_suspend 1 demo = Some (RT_EOK, k1) /\ in_no_list 1 k1 /\ kok k1 /\
  rt_thread_resume 1 k1 = Some (RT_EOK, k2) /\ kok k2 /\ k_threads k2 = k_threads demo /\
  lst k2 (LReady 10) = filter (fun u => u <> 1%nat) (lst demo (LReady 10)) ++ [1%nat].
Proof.
  apply (rt_thread_suspend_resume demo 1 (set_stat RT_THREAD_READY (live_thread 10)));
    [apply demo_kok|vm_compute; reflexivity|reflexivity|discriminate].
Defined.

(** starting an initialised thread: the call succeeds, the thread is ready or
    runs with its initial priority and the mask of that priority, and the best
    ready thread runs. *)
Theorem rt_thread_startup_correct k c t th : kok k -> k_current k = Some c -> k_lock_nest k = 0 ->
  k_threads k !! t = Some th -> stat th = RT_THREAD_INIT -> t <> c ->
  exists k', rt_thread_startup t k = Some (RT_EOK, k') /\ kok k' /\ highest_running k' /\
    exists s, k_threads k' !! t = Some (set_stat s (set_priority (init_priority th) th)) /\
      ready_or_running s.
Proof. apply startup_kok. Qed.

Lemma rt_thread_startup_correct_witness :
  exists k', rt_thread_startup 3 demo = Some (RT_EOK, k') /\ kok k' /\ highest_running k' /\
    exists s, k_threads k' !! 3%nat = Some (set_stat s (set_priority 5 (fresh_thread 5))) /\
      ready_or_running s.
Proof.
  apply (rt_thread_startup_correct demo 0 3 (fresh_thread 5));
    [apply demo_kok|reflexivity|reflexivity|vm_compute; reflexivity|reflexivity|lia].
Defined.

(** changing the priority of a thread keeps the run queues consistent in
    every state of the thread: a ready thread is moved to the queue of the new
    priority, another one only gets priority and mask; no waiting list changes. *)
Theorem rt_thread_control_priority k t th p : kok k -> k_threads k !! t = Some th ->
  0 <= p < RT_THREAD_PRIORITY_MAX ->
  exists k' s, rt_thread_control t (RT_THREAD_CTRL_CHANGE_PRIORITY p) k = Some (RT_EOK, k') /\
    kok k' /\ k_current k' = k_current k /\
    k_threads k' = <[t := set_stat s (set_priority p th)]> (k_threads k) /\
    (s = stat th \/ ready_or_running s /\ stat th = RT_THREAD_READY) /\
    (stat th = RT_THREAD_READY -> s = RT_THREAD_READY -> t ∈ lst k' (LReady p)) /\
    (forall l, (forall q, l <> LReady q) -> lst k' l = lst k l).
Proof.
  intros Hk Ht Hp.
  destruct (control_priority_kok t th p k Hk Ht Hp) as (k' & E & Hk' & _ & Ec & (s & Eth & Hs) & El).
  exists k', s. split_and!; try done. intros _ ->.
  apply (ki_ready _ _ (proj1 Hk') t (set_stat RT_THREAD_READY (set_priority p th))); [|done|done].
  rewrite Eth. apply lookup_insert_eq.
Qed.

Lemma rt_thread_control_priority_witness : exists k' s,
  rt_thread_control 2 (RT_THREAD_CTRL_CHANGE_PRIORITY 3) demo = Some (RT_EOK, k') /\
  kok k' /\ k_current k' = k_current demo /\
  k_threads k' = <[2%nat := set_stat s (set_priority 3 (set_stat RT_THREAD_READY (live_thread 20)))]>
    (k_threads demo) /\
  (s = RT_THREAD_READY \/ ready_or_running s /\ RT_THREAD_READY = RT_THREAD_READY) /\
  (RT_THREAD_READY = RT_THREAD_READY -> s = RT_THREAD_READY -> 2%nat ∈ lst k' (LReady 3)) /\
  (forall l, (forall q, l <> LReady q) -> lst k' l = lst demo l).
Proof.
  apply (rt_thread_control_priority demo 2 (set_stat RT_THREAD_READY (live_thread 20)) 3);
    [apply demo_kok|vm_compute; reflexivity|split; [discriminate|reflexivity]].
Defined.

(** ** Timers and the tick *)

(** [rt_timer_start] puts a thread's timer into the list at its place: the
    list stays ordered by the time left, also when the 32-bit tick wraps, and
    the new timer has its full time left. *)
Theorem rt_timer_start_ordered k t th tm : kok k -> pending k -> k_threads k !! t = Some th ->
  stat th = RT_THREAD_SUSPEND -> k_timers k !! inl t = Some tm ->
  flag_set (tm_flag tm) RT_TIMER_FLAG_PERIODIC = false -> 0 < tm_init_tick tm < HALF ->
  exists k', rt_timer_start (inl t) k = Some (RT_EOK, k') /\ kok k' /\ pending k' /\
    left k' (inl t) = tm_init_tick tm /\
    k_timer_list k' ≡ₚ inl t :: filter (fun j => j <> inl t) (k_timer_list k).
Proof.
  intros Hk Hp Ht Hs Hm Hf Hi.
  destruct (start_pending t th tm k) as (k' & ? & ? & ? & ? & ? & _); try done. by exists k'.
Qed.

(** The demo kernel just before the tick counter wraps. *)
Definition late : kernel := set_k_tick (2 ^ 32 - 2) demo.

Lemma late_kok : kok late.
Proof. apply (kok_ext demo); [apply demo_kok|done..]. Qed.

Lemma late_pending : pending late.
Proof.
  split; [vm_compute; split; congruence| |apply ordered_nil|].
  - intros j Hj. by apply not_elem_of_nil in Hj.
  - intros j Hj. by apply not_elem_of_nil in Hj.
Qed.

(** Thread 2 suspended, with 7 ticks to wait. *)
Definition asleep : kernel :=
  default late (snd <$> (rt_thread_suspend 2;;
    rt_timer_control (inl 2%nat) (RT_TIMER_CTRL_SET_TIME 7)) late).

Lemma asleep_ok : kok asleep /\ pending asleep.
Proof.
  destruct (k_threads late !! 2%nat) as [th|] eqn:Ht; [|by vm_compute in Ht].
  assert (ready_or_running (stat th)) as Hs by (revert Ht; vm_compute; intros [= <-]; by left).
  destruct (suspend_kok 2 th late late_kok Ht Hs) as (k1 & E1 & Hk1 & S1 & _ & _ & _ & Hti).
  destruct (suspend_timers 2 th (fresh_timer 2) late k1 RT_EOK late_kok Ht Hs) as (El & Em & tm & Hm & _);
    [vm_compute; reflexivity|done|].
  assert (asleep = put_timer (inl 2%nat) (set_tm_init_tick 7 tm) k1) as ->.
  { unfold asleep. rewrite (bind_some _ _ _ _ _ E1). by rewrite (control_set_time _ tm). }
  split; [by apply kok_set_time|].
  apply (pending_frame late); [apply late_pending| |done|].
  - unfold ipc_same, ipc_part in S1. simpl in *. congruence.
  - intros j Hj. by apply not_elem_of_nil in Hj.
Qed.

Lemma rt_timer_start_ordered_witness : exists k',
  rt_timer_start (inl 2%nat) asleep = Some (RT_EOK, k') /\ kok k' /\ pending k' /\
  left k' (inl 2%nat) = 7 /\
  k_timer_list k' ≡ₚ inl 2%nat :: filter (fun j => j <> inl 2%nat) (k_timer_list asleep).
Proof.
  apply (rt_timer_start_ordered asleep 2 (set_stat RT_THREAD_SUSPEND (live_thread 20))
    (set_tm_init_tick 7 (fresh_timer 2)));
    [apply asleep_ok|apply asleep_ok|vm_compute; reflexivity|reflexivity|vm_compute; reflexivity|
     reflexivity|split; reflexivity].
Defined.


(** Thread 2 of the demo asleep for 7 ticks. *)
Definition dozing : kernel := default asleep (snd <$> rt_timer_start (inl 2%nat) asleep).

Lemma dozing_ok : kok dozing /\ pending dozing.
Proof.
  destruct (start_pending 2 (set_stat RT_THREAD_SUSPEND (live_thread 20))
    (set_tm_init_tick 7 (fresh_timer 2)) asleep) as (k' & E & Hk & Hp & _);
    [apply asleep_ok|apply asleep_ok|vm_compute; reflexivity|reflexivity|vm_compute; reflexivity|
     reflexivity|split; reflexivity|].
  unfold dozing. by rewrite E.
Qed.


Section ticks.
Variable user_timeout : nat -> M unit.
Variable fuel : nat.

Definition ticks (n : nat) : M unit := times n (rt_tick_increase user_timeout fuel).

(** A thread with [n] ticks left waits for [n - 1] of them and is woken by the
    last. *)
Lemma ticks_wake t n : forall k c, kok k -> pending k -> k_current k = Some c ->
  (length (k_timer_list k) < fuel)%nat -> inl t ∈ k_timer_list k -> left k (inl t) = Z.of_nat n ->
  (forall m, (m < n)%nat -> exists km th, ticks m k = Some (tt, km) /\
     k_threads km !! t = Some th /\ stat th = RT_THREAD_SUSPEND) /\
  exists kn, ticks n k = Some (tt, kn) /\ kok kn /\ woken t kn.
Proof.
  induction n as [|n IH]; intros k c Hk Hp Hc Hf Hin Hleft.
  { destruct (pd_ordered _ Hp) as [_ Ho]. rewrite Forall_forall in Ho. specialize (Ho _ Hin). lia. }
  destruct (tick_kok user_timeout k c fuel) as (k1 & c1 & E1 & Hk1 & Hp1 & Hc1 & _ & Hlen & Hall); try done.
  destruct (ti_armed _ (proj2 Hk) t Hin) as (th & Ht & Hs).
  specialize (Hall t Hin).
  assert (forall m k', ticks m k1 = Some (tt, k') -> ticks (S m) k = Some (tt, k')) as Hstep.
  { intros m k' E. unfold ticks. cbn [times]. by erewrite bind_some by exact E1. }
  destruct n as [|n]; case_decide as D; try lia.
  - split.
    + intros m Hm. assert (m = 0%nat) as -> by lia. exists k, th. done.
    + exists k1. split; [by apply Hstep|done].
  - destruct Hall as ((th1 & Ht1 & Hs1) & Hin1 & Hl1).
    destruct (IH k1 c1) as (Hw & kn & En & Hkn & Hwn); try done; [lia..|].
    split.
    + intros [|m] Hm; [exists k, th; done|].
      destruct (Hw m) as (km & thm & Em & ? & ?); [lia|]. exists km, thm.
      split; [by apply Hstep|done].
    + exists kn. split; [by apply Hstep|done].
Qed.
End ticks.

(** C24: a thread that sleeps for [n] ticks gives the CPU to the best ready
    thread; it stays suspended for the next [n - 1] ticks and the [n]-th tick
    makes it ready or running again, with [-RT_ETIMEOUT], also across the wrap
    of the tick counter. *)
Theorem rt_thread_sleep_wakes user_timeout k c th n p fuel : kok k -> pending k ->
  k_current k = Some c -> k_threads k !! c = Some th -> stat th = RT_THREAD_RUNNING ->
  one_shot c k -> k_lock_nest k = 0 -> lst k (LReady p) <> [] ->
  0 < Z.of_nat n < HALF -> (S (length (k_timer_list k)) < fuel)%nat ->
  exists k0, rt_thread_sleep (Z.of_nat n) k = Some (tt, k0) /\ highest_running k0 /\
    k_current k0 <> Some c /\
    (forall m, (m < n)%nat -> exists km thm, ticks user_timeout fuel m k0 = Some (tt, km) /\
       k_threads km !! c = Some thm /\ stat thm = RT_THREAD_SUSPEND) /\
    exists kn, ticks user_timeout fuel n k0 = Some (tt, kn) /\ kok kn /\ woken c kn.
Proof.
  intros Hk Hp Hc Ht Hs Ho Hl Hr Hn Hf.
  destruct (sleep_pending k c th (Z.of_nat n) p) as (k0 & E0 & Hk0 & Hp0 & Hh & Ht0 & Hc0 & Hin & Hleft & _ & Hlen);
    try done.
  pose proof Hh as (c0 & _ & Hc0' & _).
  destruct (ticks_wake user_timeout fuel c n k0 c0) as (Hw & kn & ? & ? & ?); try done; [by rewrite Hlen|].
  exists k0. split_and!; try done. by exists kn.
Qed.

Lemma rt_thread_sleep_wakes_witness : exists k0, rt_thread_sleep 3 late = Some (tt, k0) /\
  highest_running k0 /\ k_current k0 <> Some 0%nat /\
  (forall m, (m < 3)%nat -> exists km thm, ticks (fun _ => mret tt) 2 m k0 = Some (tt, km) /\
     k_threads km !! 0%nat = Some thm /\ stat thm = RT_THREAD_SUSPEND) /\
  exists kn, ticks (fun _ => mret tt) 2 3 k0 = Some (tt, kn) /\ kok kn /\ woken 0 kn.
Proof.
  apply (rt_thread_sleep_wakes (fun _ => mret tt) late 0 (set_stat RT_THREAD_RUNNING (live_thread 10)) 3 10 2);
    [apply late_kok|apply late_pending|reflexivity|vm_compute; reflexivity|reflexivity| |reflexivity|
     vm_compute; discriminate|split; reflexivity|vm_compute; lia].
  exists (fresh_timer 0). split; [vm_compute; reflexivity|reflexivity].
Defined.

(** ** The end of a thread *)

Section idle_all.
Variable user_cleanup : nat -> M unit.

Lemma idle_frees l : forall k, kok k -> running k -> k_lock_nest k = 0 -> lst k LDefunct = l ->
  (forall t, t ∈ l -> reapable k t) ->
  exists k', rt_thread_idle_excute user_cleanup (S (length l)) k = Some (tt, k') /\ kok k' /\
    lst k' LDefunct = [] /\ (forall t, t ∈ l -> k_threads k' !! t = None) /\
    (forall t, t ∉ l -> is_Some (k_threads k !! t) -> is_Some (k_threads k' !! t)) /\
    (forall t, k_threads k !! t = None -> k_threads k' !! t = None).
Proof.
  induction l as [|t l IH]; intros k Hk Hr Hl El Hre.
  { exists k. cbn [rt_thread_idle_excute length]. rewrite get_bind, El. split_and!; try done.
    intros t Ht. by apply not_elem_of_nil in Ht. }
  destruct (reap_kok user_cleanup k t l) as (k1 & Hk1 & Hr1 & Hl1 & El1 & Hre1 & Ht1 & Hkeep & Hnone & Estep);
    try done; [apply Hre, list_elem_of_here|].
  pose proof (ki_nodup _ _ (proj1 Hk) LDefunct) as Hnd. rewrite El in Hnd.
  apply NoDup_cons in Hnd as [Hnt _].
  destruct (IH k1) as (k' & E & Hk' & El' & Hgone & Hkeep' & Hnone'); try done.
  { intros u Hu. apply Hre1; [by intros ->|]. apply Hre. by apply list_elem_of_further. }
  exists k'. cbn [length]. rewrite Estep. split_and!; try done.
  - intros u [->|Hu]%elem_of_cons; auto.
  - intros u [? ?]%not_elem_of_cons ?. auto.
  - auto.
Qed.
End idle_all.

(** a deleted thread is closed, off every run queue and waiting list, its
    timer is stopped, and it waits on the defunct list; the idle thread's next
    pass frees it, together with every other thread of that list (all dynamic,
    without cleanup functions), and no other thread. *)
Theorem rt_thread_delete_reclaims user_cleanup k t th o : kok k -> running k -> k_lock_nest k = 0 ->
  k_threads k !! t = Some th -> k_current k <> Some t ->
  k_objects k !! (RT_Object_Class_Timer, inl t) = Some o ->
  (forall u, u = t \/ u ∈ lst k LDefunct -> reapable k u) ->
  exists k1 k2, rt_thread_delete t k = Some (RT_EOK, k1) /\ kok k1 /\
    k_threads k1 !! t = Some (set_stat RT_THREAD_CLOSE th) /\
    (forall l, t ∈ lst k1 l -> l = LDefunct) /\ (inl t ∉ k_timer_list k1) /\
    rt_thread_idle_excute user_cleanup (S (length (lst k1 LDefunct))) k1 = Some (tt, k2) /\
    kok k2 /\ k_threads k2 !! t = None /\ lst k2 LDefunct = [] /\
    (forall u, u <> t -> u ∉ lst k LDefunct -> is_Some (k_threads k !! u) -> is_Some (k_threads k2 !! u)).
Proof.
  intros Hk (c & thc & Hc & Hthc & Hsc) Hl Ht Hne Ho Hre.
  destruct (defunct_kok t th k Hk Ht) as (Hkd & Eth & El & Hti & Ec).
  set (k1 := timer_detached t o (defunct t th k)).
  assert (kok k1) as Hk1 by (by eapply kok_ext).
  assert (k_threads k1 = <[t := set_stat RT_THREAD_CLOSE th]> (k_threads k)) as Eth1 by done.
  assert (forall l, lst k1 l = lst (defunct t th k) l) as El1 by done.
  destruct (taken_off_parts t th k) as (_&_&_&_&_&Sm). unfold ipc_same, ipc_part in Sm.
  destruct (idle_frees user_cleanup (lst k1 LDefunct) k1) as (k2 & E2 & Hk2 & El2 & Hgone & Hkeep & _); try done.
  - exists c, thc. rewrite Eth1, lookup_insert_ne by congruence. by rewrite <- Hc, <- Ec.
  - change (k_lock_nest k1) with (k_lock_nest (taken_off t th k)). congruence.
  - intros u Hu. rewrite El1, El, decide_True, elem_of_cons, list_elem_of_filter in Hu by done.
    destruct (Hre u) as (Hcl & ou & Hou & Hst); [naive_solver|]. split.
    + intros thu. rewrite Eth1, lookup_insert. case_decide; subst; [|by apply Hcl].
      intros [= <-]. by apply (Hcl th).
    + exists ou. split; [|done]. change (k_objects k1) with
        (<[(RT_Object_Class_Timer, inl t) := set_o_type 0 o]> (k_objects (taken_off t th k))).
      rewrite lookup_insert_ne by done. congruence.
  - exists k1, k2. split_and!; try done.
    + by apply delete_run.
    + rewrite Eth1. apply lookup_insert_eq.
    + intros l. rewrite El1, El. case_decide; [done|]. intros [? _]%list_elem_of_filter. done.
    + apply Hgone. rewrite El1, El, decide_True by done. apply list_elem_of_here.
    + intros u Hu Hnd Hsome. apply Hkeep.
      * rewrite El1, El, decide_True, elem_of_cons, list_elem_of_filter by done. tauto.
      * rewrite Eth1, lookup_insert_ne by done. done.
Qed.

Lemma rt_thread_delete_reclaims_witness : exists k1 k2,
  rt_thread_delete 2 demo = Some (RT_EOK, k1) /\ kok k1 /\
  k_threads k1 !! 2%nat = Some (set_stat RT_THREAD_CLOSE (set_stat RT_THREAD_READY (live_thread 20))) /\
  (forall l, 2%nat ∈ lst k1 l -> l = LDefunct) /\ (inl 2%nat ∉ k_timer_list k1) /\
  rt_thread_idle_excute (fun _ => mret tt) (S (length (lst k1 LDefunct))) k1 = Some (tt, k2) /\
  kok k2 /\ k_threads k2 !! 2%nat = None /\ lst k2 LDefunct = [] /\
  (forall u, u <> 2%nat -> u ∉ lst demo LDefunct -> is_Some (k_threads demo !! u) ->
     is_Some (k_threads k2 !! u)).
Proof.
  apply (rt_thread_delete_reclaims (fun _ => mret tt) demo 2 (set_stat RT_THREAD_READY (live_thread 20))
    (mk_object (Z.lor RT_Object_Class_Timer RT_Object_Class_Static) []));
    [apply demo_kok| |reflexivity|vm_compute; reflexivity|discriminate|vm_compute; reflexivity|].
  - exists 0%nat, (set_stat RT_THREAD_RUNNING (live_thread 10)).
    split; [reflexivity|split; [vm_compute; reflexivity|reflexivity]].
  - intros u [->|Hu]; [|by apply not_elem_of_nil in Hu]. split.
    + vm_compute. by intros th [= <-].
    + exists (mk_object RT_Object_Class_Thread []). split; [vm_compute; reflexivity|reflexivity].
Defined.
