(* ===== verification/Ipc.v ===== *)
(** * Inter-process communication: ipc.c, waiting lists, semaphores, mutexes, events

    A call that has to wait gives up the CPU in [rt_schedule]; the model splits
    it there: the first part ends with [Waits] (and the locals the rest needs),
    the [_resumed] definition is what the thread does when it runs again. *)

From S2P Require Import Prelude Kernel Sched Object Thread.

(** What a call that may wait comes to. *)
Inductive call (R : Type) :=
  | Done (r : R)
  | Waits (timeout tick_delta : Z).
Arguments Done {R} r.
Arguments Waits {R} timeout tick_delta.

(** ** Waiting lists *)

Definition rt_ipc_object_init (l : lid) : M Z := rt_list_init l;; mret RT_EOK.

(** The walk of the [RT_IPC_FLAG_PRIO] case: before the first waiter of a worse
    priority, at the end if there is none. *)
Fixpoint prio_insert (threads : gmap nat rt_thread) (thread : nat) (prio : Z) (l : list nat)
  : option (list nat) :=
  match l with
  | [] => Some [thread]
  | n :: l' =>
      sthread ← threads !! n;
      if prio <? current_priority sthread then Some (thread :: n :: l')
      else r ← prio_insert threads thread prio l'; Some (n :: r)
  end.

Definition rt_ipc_list_suspend (l : lid) (thread : nat) (flag : Z) : M Z :=
  rt_thread_suspend thread;;
  (if flag =? RT_IPC_FLAG_FIFO then rt_list_insert_tail l thread
   else if flag =? RT_IPC_FLAG_PRIO then
     th ← thread_get thread;
     ts ← lift (fun k => prio_insert (k_threads k) thread (current_priority th) (lst k l));
     rt_list_set l ts
   else mret tt);;
  mret RT_EOK.

(** Entry of an empty list: the head itself is taken for a thread. *)
Definition rt_list_first (l : lid) : M nat := lift (fun k => head (lst k l)).

Definition rt_ipc_list_resume (l : lid) : M Z :=
  thread ← rt_list_first l;
  rt_thread_resume thread;;
  mret RT_EOK.

Fixpoint rt_ipc_list_resume_loop (fuel : nat) (l : lid) : M unit :=
  match fuel with
  | O => stuck
  | S fuel =>
      e ← rt_list_isempty l;
      if (e : bool) then mret tt else
      thread ← rt_list_first l;
      thread_mod thread (set_error (- RT_ERROR));;
      rt_thread_resume thread;;
      rt_ipc_list_resume_loop fuel l
  end.

(** One turn per waiter and the test that ends the loop. *)
Definition rt_ipc_list_resume_all (l : lid) : M Z :=
  k ← get;
  rt_ipc_list_resume_loop (S (length (lst k l))) l;;
  mret RT_EOK.

(** A finite timeout arms the thread's timer; the result is the tick the timer
    was started at. *)
Definition arm_timer (thread : nat) (timeout : Z) : M Z :=
  if timeout >? 0 then
    tick_delta ← rt_tick_get;
    rt_timer_control (inl thread) (RT_TIMER_CTRL_SET_TIME timeout);;
    rt_timer_start (inl thread);;
    mret tick_delta
  else mret 0.

(** The code every waiting call shares: onto the list, arm the timer. *)
Definition ipc_wait (l : lid) (thread : nat) (flag timeout : Z) : M Z :=
  rt_ipc_list_suspend l thread flag;;
  arm_timer thread timeout.

(** ** Semaphores *)

Definition sem_get (i : nat) : M rt_semaphore := lift (fun k => k_sems k !! i).
Definition sem_set (i : nat) (s : rt_semaphore) : M unit :=
  modify (fun k => set_k_sems (<[i := s]> (k_sems k)) k).

Definition rt_sem_init (sem : nat) (name : list Z) (value flag : Z) : M Z :=
  rt_object_init RT_Object_Class_Semaphore (inr sem) name;;
  rt_ipc_object_init (LSem sem);;
  sem_set sem {| sem_flag := flag; sem_value := u16 value |};;
  mret RT_EOK.

Definition rt_sem_detach (sem : nat) : M Z :=
  rt_ipc_list_resume_all (LSem sem);;
  rt_object_detach RT_Object_Class_Semaphore (inr sem);;
  mret RT_EOK.

Definition rt_sem_create (mem : option nat) (name : list Z) (value flag : Z) : M (option nat) :=
  o ← rt_object_allocate RT_Object_Class_Semaphore (inr <$> mem) name;
  match o, mem with
  | Some _, Some sem =>
      rt_ipc_object_init (LSem sem);;
      sem_set sem {| sem_flag := flag; sem_value := u16 value |};;
      mret (Some sem)
  | _, _ => mret None
  end.

(** The struct is freed with the object. *)
Definition rt_sem_delete (sem : nat) : M Z :=
  rt_ipc_list_resume_all (LSem sem);;
  rt_object_delete RT_Object_Class_Semaphore (inr sem);;
  modify (fun k => set_k_sems (delete sem (k_sems k)) k);;
  mret RT_EOK.

Definition rt_sem_take (sem : nat) (time : Z) : M (call Z) :=
  s ← sem_get sem;
  if sem_value s >? 0 then
    sem_set sem (set_sem_value (u16 (sem_value s - 1)) s);;
    mret (Done RT_EOK)
  else if time =? 0 then mret (Done (- RT_ETIMEOUT))
  else
    thread ← self;
    thread_mod thread (set_error RT_EOK);;
    tick_delta ← ipc_wait (LSem sem) thread (sem_flag s) time;
    rt_schedule;;
    mret (Waits time tick_delta).

Definition rt_sem_take_resumed (thread : nat) : M Z :=
  th ← thread_get thread;
  if negb (error th =? RT_EOK) then mret (error th) else mret RT_EOK.

Definition rt_sem_trytake (sem : nat) : M (call Z) := rt_sem_take sem 0.

Definition rt_sem_release (sem : nat) : M Z :=
  s ← sem_get sem;
  e ← rt_list_isempty (LSem sem);
  need_schedule ← (if negb e then rt_ipc_list_resume (LSem sem);; mret true
                   else sem_set sem (set_sem_value (u16 (sem_value s + 1)) s);; mret false);
  when need_schedule rt_schedule;;
  mret RT_EOK.

Definition rt_sem_control (sem : nat) (cmd arg : Z) : M Z :=
  if cmd =? RT_IPC_CMD_RESET then
    rt_ipc_list_resume_all (LSem sem);;
    s ← sem_get sem;
    sem_set sem (set_sem_value (u16 arg) s);;
    rt_schedule;;
    mret RT_EOK
  else mret (- RT_ERROR).

(** ** Mutexes *)

Definition mutex_get (i : nat) : M rt_mutex := lift (fun k => k_mutexes k !! i).
Definition mutex_set (i : nat) (m : rt_mutex) : M unit :=
  modify (fun k => set_k_mutexes (<[i := m]> (k_mutexes k)) k).

Definition mutex_fresh (flag : Z) : rt_mutex :=
  {| mtx_flag := flag; mtx_value := 1; original_priority := 0xff; hold := 0; owner := None |}.

Definition rt_mutex_init (mutex : nat) (name : list Z) (flag : Z) : M Z :=
  rt_object_init RT_Object_Class_Mutex (inr mutex) name;;
  rt_ipc_object_init (LMutex mutex);;
  mutex_set mutex (mutex_fresh flag);;
  mret RT_EOK.

Definition rt_mutex_detach (mutex : nat) : M Z :=
  rt_ipc_list_resume_all (LMutex mutex);;
  rt_object_detach RT_Object_Class_Mutex (inr mutex);;
  mret RT_EOK.

Definition rt_mutex_create (mem : option nat) (name : list Z) (flag : Z) : M (option nat) :=
  o ← rt_object_allocate RT_Object_Class_Mutex (inr <$> mem) name;
  match o, mem with
  | Some _, Some mutex =>
      rt_ipc_object_init (LMutex mutex);;
      mutex_set mutex (mutex_fresh flag);;
      mret (Some mutex)
  | _, _ => mret None
  end.

Definition rt_mutex_delete (mutex : nat) : M Z :=
  rt_ipc_list_resume_all (LMutex mutex);;
  rt_object_delete RT_Object_Class_Mutex (inr mutex);;
  modify (fun k => set_k_mutexes (delete mutex (k_mutexes k)) k);;
  mret RT_EOK.

(** The code from the label [__again] to the call of [rt_schedule]. *)
Definition mutex_take_again (mutex thread : nat) (time : Z) : M (call Z) :=
  m ← mutex_get mutex;
  th ← thread_get thread;
  if mtx_value m >? 0 then
    mutex_set mutex {| mtx_flag := mtx_flag m; mtx_value := u16 (mtx_value m - 1);
                       original_priority := current_priority th;
                       hold := u8 (hold m + 1); owner := Some thread |};;
    mret (Done RT_EOK)
  else if time =? 0 then
    thread_mod thread (set_error (- RT_ETIMEOUT));;
    mret (Done (- RT_ETIMEOUT))
  else
    o ← lift (fun _ => owner m);
    tho ← thread_get o;
    when (current_priority th <? current_priority tho)
      (rt_thread_control o (RT_THREAD_CTRL_CHANGE_PRIORITY (current_priority th));; mret tt);;
    tick_delta ← ipc_wait (LMutex mutex) thread (mtx_flag m) time;
    rt_schedule;;
    mret (Waits time tick_delta).

Definition rt_mutex_take (mutex : nat) (time : Z) : M (call Z) :=
  thread ← self;
  thread_mod thread (set_error RT_EOK);;
  m ← mutex_get mutex;
  if bool_decide (owner m = Some thread) then
    mutex_set mutex (set_hold (u8 (hold m + 1)) m);;
    mret (Done RT_EOK)
  else mutex_take_again mutex thread time.

Definition rt_mutex_take_resumed (mutex thread : nat) (time : Z) : M (call Z) :=
  th ← thread_get thread;
  if negb (error th =? RT_EOK) then
    if error th =? - RT_EINTR then mutex_take_again mutex thread time
    else mret (Done (error th))
  else mret (Done RT_EOK).

Definition rt_mutex_release (mutex : nat) : M Z :=
  thread ← self;
  m ← mutex_get mutex;
  if bool_decide (owner m <> Some thread) then
    thread_mod thread (set_error (- RT_ERROR));;
    mret (- RT_ERROR)
  else
    let m := set_hold (u8 (hold m - 1)) m in
    mutex_set mutex m;;
    need_schedule ← (if hold m =? 0 then
        th ← thread_get thread;
        when (negb (original_priority m =? current_priority th))
          (rt_thread_control thread (RT_THREAD_CTRL_CHANGE_PRIORITY (original_priority m));; mret tt);;
        e ← rt_list_isempty (LMutex mutex);
        if negb e then
          next ← rt_list_first (LMutex mutex);
          thn ← thread_get next;
          mutex_set mutex (set_owner (Some next) (set_original_priority (current_priority thn)
                            (set_hold (u8 (hold m + 1)) m)));;
          rt_ipc_list_resume (LMutex mutex);;
          mret true
        else
          mutex_set mutex (set_mtx_value (u16 (mtx_value m + 1))
                            (set_owner None (set_original_priority 0xff m)));;
          mret false
      else mret false);
    when need_schedule rt_schedule;;
    mret RT_EOK.

Definition rt_mutex_control (mutex : nat) (cmd arg : Z) : M Z := mret (- RT_ERROR).

(** ** Events *)

Definition event_get (i : nat) : M rt_event := lift (fun k => k_events k !! i).
Definition event_put (i : nat) (e : rt_event) : M unit :=
  modify (fun k => set_k_events (<[i := e]> (k_events k)) k).

Definition rt_event_init (event : nat) (name : list Z) (flag : Z) : M Z :=
  rt_object_init RT_Object_Class_Event (inr event) name;;
  rt_ipc_object_init (LEvent event);;
  event_put event {| ev_flag := flag; ev_set := 0 |};;
  mret RT_EOK.

Definition rt_event_detach (event : nat) : M Z :=
  rt_ipc_list_resume_all (LEvent event);;
  rt_object_detach RT_Object_Class_Event (inr event);;
  mret RT_EOK.

Definition rt_event_create (mem : option nat) (name : list Z) (flag : Z) : M (option nat) :=
  o ← rt_object_allocate RT_Object_Class_Event (inr <$> mem) name;
  match o, mem with
  | Some _, Some event =>
      rt_ipc_object_init (LEvent event);;
      event_put event {| ev_flag := flag; ev_set := 0 |};;
      mret (Some event)
  | _, _ => mret None
  end.

Definition rt_event_delete (event : nat) : M Z :=
  rt_ipc_list_resume_all (LEvent event);;
  rt_object_delete RT_Object_Class_Event (inr event);;
  modify (fun k => set_k_events (delete event (k_events k)) k);;
  mret RT_EOK.

(** Is a request for [set] satisfied by the events in [have]? *)
Definition event_match (info set have : Z) : bool :=
  if flag_set info RT_EVENT_FLAG_AND then Z.land set have =? set
  else if flag_set info RT_EVENT_FLAG_OR then negb (Z.land set have =? 0)
  else false.

(** The walk over the waiters; [n->next] is read before the waiter is resumed,
    so it visits the threads the list held at the start.  The result is
    [need_schedule]. *)
Fixpoint event_send_loop (event : nat) (l : list nat) (need_schedule : bool) : M bool :=
  match l with
  | [] => mret need_schedule
  | thread :: l =>
      th ← thread_get thread;
      e ← event_get event;
      if event_match (event_info th) (event_set th) (ev_set e) then
        when (negb (flag_set (event_info th) RT_EVENT_FLAG_AND))
          (thread_mod thread (set_event_set (Z.land (event_set th) (ev_set e))));;
        th ← thread_get thread;
        when (flag_set (event_info th) RT_EVENT_FLAG_CLEAR)
          (event_put event (set_ev_set (Z.land (ev_set e) (wnot 32 (event_set th))) e));;
        rt_thread_resume thread;;
        event_send_loop event l true
      else event_send_loop event l need_schedule
  end.

Definition rt_event_send (event : nat) (set : Z) : M Z :=
  if set =? 0 then mret (- RT_ERROR) else
  e ← event_get event;
  event_put event (set_ev_set (Z.lor (ev_set e) set) e);;
  k ← get;
  need_schedule ← event_send_loop event (lst k (LEvent event)) false;
  when need_schedule rt_schedule;;
  mret RT_EOK.

(** The result is the return value and what is stored through [recved], if
    anything is. *)
Definition rt_event_recv (event : nat) (set option timeout : Z) : M (call (Z * Datatypes.option Z)) :=
  if set =? 0 then mret (Done (- RT_ERROR, None)) else
  thread ← self;
  thread_mod thread (set_error RT_EOK);;
  e ← event_get event;
  if event_match option set (ev_set e) then
    when (flag_set option RT_EVENT_FLAG_CLEAR)
      (event_put event (set_ev_set (Z.land (ev_set e) (wnot 32 set)) e));;
    th ← thread_get thread;
    mret (Done (error th, Some (Z.land (ev_set e) set)))
  else if timeout =? 0 then
    thread_mod thread (set_error (- RT_ETIMEOUT));;
    th ← thread_get thread;
    mret (Done (error th, None))
  else
    thread_mod thread (fun th => set_event_info option (set_event_set set th));;
    tick_delta ← ipc_wait (LEvent event) thread (ev_flag e) timeout;
    rt_schedule;;
    mret (Waits timeout tick_delta).

Definition rt_event_recv_resumed (thread : nat) : M (Z * option Z) :=
  th ← thread_get thread;
  if negb (error th =? RT_EOK) then mret (error th, None)
  else mret (error th, Some (event_set th)).

Definition rt_event_control (event : nat) (cmd arg : Z) : M Z :=
  if cmd =? RT_IPC_CMD_RESET then
    rt_ipc_list_resume_all (LEvent event);;
    e ← event_get event;
    event_put event (set_ev_set 0 e);;
    rt_schedule;;
    mret RT_EOK
  else mret (- RT_ERROR).
