(* ===== verification/Msg.v ===== *)
(** * Mailboxes and message queues: ipc.c

    A mailbox is a ring of machine words with waiting receivers and waiting
    senders.  A message queue keeps its messages in slots of a pool, linked into
    a queue and a free list; a slot is addressed by its index in the pool. *)

From S2P Require Import Prelude Kernel Sched Object Thread Ipc.

(** The remaining time after a wait, with C's conversions: the subtraction is
    unsigned, the result signed. *)
Definition timeout_left (timeout tick_delta now : Z) : Z :=
  if timeout >? 0 then
    let left := i32 (timeout - u32 (now - tick_delta)) in
    if left <? 0 then 0 else left
  else timeout.

(** ** Mailboxes *)

Definition mb_get (i : nat) : M rt_mailbox := lift (fun k => k_mbs k !! i).
Definition mb_set (i : nat) (m : rt_mailbox) : M unit :=
  modify (fun k => set_k_mbs (<[i := m]> (k_mbs k)) k).

Definition mb_fresh (pool : list Z) (size flag : Z) : rt_mailbox :=
  {| mb_flag := flag; mb_pool := pool; mb_size := u16 size; mb_entry := 0;
     in_offset := 0; out_offset := 0 |}.

Definition rt_mb_init (mb : nat) (name : list Z) (msgpool : list Z) (size flag : Z) : M Z :=
  rt_object_init RT_Object_Class_MailBox (inr mb) name;;
  rt_ipc_object_init (LMbRecv mb);;
  mb_set mb (mb_fresh msgpool size flag);;
  rt_list_init (LMbSend mb);;
  mret RT_EOK.

Definition rt_mb_detach (mb : nat) : M Z :=
  rt_ipc_list_resume_all (LMbRecv mb);;
  rt_ipc_list_resume_all (LMbSend mb);;
  rt_object_detach RT_Object_Class_MailBox (inr mb);;
  mret RT_EOK.

(** [pool] is the memory [RT_KERNEL_MALLOC] returned for the messages. *)
Definition rt_mb_create (mem : option nat) (pool : option (list Z)) (name : list Z) (size flag : Z)
  : M (option nat) :=
  o ← rt_object_allocate RT_Object_Class_MailBox (inr <$> mem) name;
  match o, mem with
  | Some _, Some mb =>
      rt_ipc_object_init (LMbRecv mb);;
      match pool with
      | None => rt_object_delete RT_Object_Class_MailBox (inr mb);; mret None
      | Some p =>
          mb_set mb (mb_fresh p size flag);;
          rt_list_init (LMbSend mb);;
          mret (Some mb)
      end
  | _, _ => mret None
  end.

Definition rt_mb_delete (mb : nat) : M Z :=
  rt_ipc_list_resume_all (LMbRecv mb);;
  rt_ipc_list_resume_all (LMbSend mb);;
  rt_object_delete RT_Object_Class_MailBox (inr mb);;
  modify (fun k => set_k_mbs (delete mb (k_mbs k)) k);;
  mret RT_EOK.

(** Storing and fetching one word of the pool; an index outside it is
    undefined. *)
Definition mb_push (m : rt_mailbox) (value : Z) : option rt_mailbox :=
  guard (in_offset m < Z.of_nat (length (mb_pool m)));;
  let i := u16 (in_offset m + 1) in
  Some {| mb_flag := mb_flag m;
          mb_pool := <[Z.to_nat (in_offset m) := value]> (mb_pool m);
          mb_size := mb_size m;
          mb_entry := u16 (mb_entry m + 1);
          in_offset := if i >=? mb_size m then 0 else i;
          out_offset := out_offset m |}.

Definition mb_pop (m : rt_mailbox) : option (Z * rt_mailbox) :=
  v ← mb_pool m !! Z.to_nat (out_offset m);
  let o := u16 (out_offset m + 1) in
  Some (v, {| mb_flag := mb_flag m; mb_pool := mb_pool m; mb_size := mb_size m;
              mb_entry := u16 (mb_entry m - 1);
              in_offset := in_offset m;
              out_offset := if o >=? mb_size m then 0 else o |}).

(** Wake the first waiter of a list and schedule, if there is one. *)
Definition wake_one (l : lid) : M unit :=
  e ← rt_list_isempty l;
  if (e : bool) then mret tt else rt_ipc_list_resume l;; rt_schedule.

(** [rt_mb_send_wait] from the test of the [while] loop on. *)
Definition mb_send_loop (mb : nat) (value timeout tick_delta : Z) : M (call Z) :=
  m ← mb_get mb;
  if mb_entry m =? mb_size m then
    thread ← self;
    thread_mod thread (set_error RT_EOK);;
    if timeout =? 0 then mret (Done (- RT_EFULL)) else
    start ← ipc_wait (LMbSend mb) thread (mb_flag m) timeout;
    rt_schedule;;
    mret (Waits timeout (if timeout >? 0 then start else tick_delta))
  else
    m ← lift (fun _ => mb_push m value);
    mb_set mb m;;
    wake_one (LMbRecv mb);;
    mret (Done RT_EOK).

Definition rt_mb_send_wait (mb : nat) (value timeout : Z) : M (call Z) :=
  m ← mb_get mb;
  if (mb_entry m =? mb_size m) && (timeout =? 0) then mret (Done (- RT_EFULL))
  else mb_send_loop mb value timeout 0.

Definition rt_mb_send_wait_resumed (thread mb : nat) (value timeout tick_delta : Z) : M (call Z) :=
  th ← thread_get thread;
  if negb (error th =? RT_EOK) then mret (Done (error th)) else
  now ← rt_tick_get;
  mb_send_loop mb value (timeout_left timeout tick_delta now)
    (if timeout >? 0 then u32 (now - tick_delta) else tick_delta).

Definition rt_mb_send (mb : nat) (value : Z) : M (call Z) := rt_mb_send_wait mb value 0.

(** The result is the return value and what is stored through [value]. *)
Definition mb_recv_loop (mb : nat) (timeout tick_delta : Z) : M (call (Z * option Z)) :=
  m ← mb_get mb;
  if mb_entry m =? 0 then
    thread ← self;
    thread_mod thread (set_error RT_EOK);;
    if timeout =? 0 then
      thread_mod thread (set_error (- RT_ETIMEOUT));;
      mret (Done (- RT_ETIMEOUT, None))
    else
      start ← ipc_wait (LMbRecv mb) thread (mb_flag m) timeout;
      rt_schedule;;
      mret (Waits timeout (if timeout >? 0 then start else tick_delta))
  else
    '(v, m) ← lift (fun _ => mb_pop m);
    mb_set mb m;;
    wake_one (LMbSend mb);;
    mret (Done (RT_EOK, Some v)).

Definition rt_mb_recv (mb : nat) (timeout : Z) : M (call (Z * option Z)) :=
  m ← mb_get mb;
  if (mb_entry m =? 0) && (timeout =? 0) then mret (Done (- RT_ETIMEOUT, None))
  else mb_recv_loop mb timeout 0.

Definition rt_mb_recv_resumed (thread mb : nat) (timeout tick_delta : Z) : M (call (Z * option Z)) :=
  th ← thread_get thread;
  if negb (error th =? RT_EOK) then mret (Done (error th, None)) else
  now ← rt_tick_get;
  mb_recv_loop mb (timeout_left timeout tick_delta now)
    (if timeout >? 0 then u32 (now - tick_delta) else tick_delta).

Definition rt_mb_control (mb : nat) (cmd arg : Z) : M Z :=
  if cmd =? RT_IPC_CMD_RESET then
    rt_ipc_list_resume_all (LMbRecv mb);;
    rt_ipc_list_resume_all (LMbSend mb);;
    m ← mb_get mb;
    mb_set mb (set_out_offset 0 (set_in_offset 0 (set_mb_entry 0 m)));;
    rt_schedule;;
    mret RT_EOK
  else mret (- RT_ERROR).

(** ** Message queues *)

Definition mq_get (i : nat) : M rt_messagequeue := lift (fun k => k_mqs k !! i).
Definition mq_set (i : nat) (q : rt_messagequeue) : M unit :=
  modify (fun k => set_k_mqs (<[i := q]> (k_mqs k)) k).

(** The loop that threads the slots of the pool onto the free list. *)
Fixpoint mq_link (n : nat) : gmap nat (option nat) * option nat :=
  match n with
  | O => (∅, None)
  | S temp =>
      let '(next, free) := mq_link temp in
      (<[temp := free]> next, Some temp)
  end.

(** [sizeof(struct rt_mq_message)]: one pointer. *)
Definition mq_header : Z := 4.

(** The contents of the slots of new memory are unspecified: the argument
    [pool] gives the bytes of each slot. *)
Definition mq_fresh (pool : nat -> list Z) (size max flag : Z) : rt_messagequeue :=
  let '(next, free) := mq_link (Z.to_nat max) in
  {| mq_flag := flag; msg_size := size; max_msgs := max; mq_entry := 0;
     mq_next := next;
     mq_data := list_to_map ((fun i => (i, pool i)) <$> seq 0 (Z.to_nat max));
     msg_queue_head := None; msg_queue_tail := None; msg_queue_free := free |}.

Definition rt_mq_init (mq : nat) (name : list Z) (pool : nat -> list Z)
  (size pool_size flag : Z) : M Z :=
  rt_object_init RT_Object_Class_MessageQueue (inr mq) name;;
  rt_ipc_object_init (LMq mq);;
  let sz := u16 (RT_ALIGN size RT_ALIGN_SIZE) in
  mq_set mq (mq_fresh pool sz (u16 (pool_size / (sz + mq_header))) flag);;
  mret RT_EOK.

Definition rt_mq_detach (mq : nat) : M Z :=
  rt_ipc_list_resume_all (LMq mq);;
  rt_object_detach RT_Object_Class_MessageQueue (inr mq);;
  mret RT_EOK.

Definition rt_mq_delete (mq : nat) : M Z :=
  rt_ipc_list_resume_all (LMq mq);;
  rt_object_delete RT_Object_Class_MessageQueue (inr mq);;
  modify (fun k => set_k_mqs (delete mq (k_mqs k)) k);;
  mret RT_EOK.

Definition rt_mq_create (mem : option nat) (pool : option (nat -> list Z)) (name : list Z)
  (size max flag : Z) : M (option nat) :=
  o ← rt_object_allocate RT_Object_Class_MessageQueue (inr <$> mem) name;
  match o, mem with
  | Some _, Some mq =>
      rt_ipc_object_init (LMq mq);;
      match pool with
      | None => rt_mq_delete mq;; mret None
      | Some p =>
          mq_set mq (mq_fresh p (u16 (RT_ALIGN size RT_ALIGN_SIZE)) (u16 max) flag);;
          mret (Some mq)
      end
  | _, _ => mret None
  end.

(** [rt_memcpy(msg + 1, buffer, size)]. *)
Definition mq_fill (buffer : list Z) (size : Z) (old : list Z) : list Z :=
  take (Z.to_nat size) buffer ++ drop (Z.to_nat size) old.

(** Take a slot off the free list and copy the message into it. *)
Definition mq_alloc (q : rt_messagequeue) (msg : nat) (buffer : list Z) (size : Z)
  : option rt_messagequeue :=
  next ← mq_next q !! msg;
  old ← mq_data q !! msg;
  Some (set_msg_queue_free next (set_mq_data (<[msg := mq_fill buffer size old]> (mq_data q)) q)).

(** Link a filled slot behind the tail. *)
Definition mq_push_tail (q : rt_messagequeue) (msg : nat) : rt_messagequeue :=
  let next := <[msg := None]> (mq_next q) in
  let next := match msg_queue_tail q with Some t => <[t := Some msg]> next | None => next end in
  {| mq_flag := mq_flag q; msg_size := msg_size q; max_msgs := max_msgs q;
     mq_entry := u16 (mq_entry q + 1);
     mq_next := next; mq_data := mq_data q;
     msg_queue_head := match msg_queue_head q with None => Some msg | h => h end;
     msg_queue_tail := Some msg;
     msg_queue_free := msg_queue_free q |}.

(** Link a filled slot before the head. *)
Definition mq_push_head (q : rt_messagequeue) (msg : nat) : rt_messagequeue :=
  {| mq_flag := mq_flag q; msg_size := msg_size q; max_msgs := max_msgs q;
     mq_entry := u16 (mq_entry q + 1);
     mq_next := <[msg := msg_queue_head q]> (mq_next q); mq_data := mq_data q;
     msg_queue_head := Some msg;
     msg_queue_tail := match msg_queue_tail q with None => Some msg | t => t end;
     msg_queue_free := msg_queue_free q |}.

(** Interrupts are enabled during the copy, but an interrupted copy owns its
    slot, so the two critical sections are taken together. *)
Definition mq_post (push : rt_messagequeue -> nat -> rt_messagequeue)
  (mq : nat) (buffer : list Z) (size : Z) : M Z :=
  q ← mq_get mq;
  if size >? msg_size q then mret (- RT_ERROR) else
  match msg_queue_free q with
  | None => mret (- RT_EFULL)
  | Some msg =>
      q ← lift (fun _ => mq_alloc q msg buffer size);
      mq_set mq (push q msg);;
      wake_one (LMq mq);;
      mret RT_EOK
  end.

Definition rt_mq_send (mq : nat) (buffer : list Z) (size : Z) : M Z :=
  mq_post mq_push_tail mq buffer size.

Definition rt_mq_urgent (mq : nat) (buffer : list Z) (size : Z) : M Z :=
  mq_post mq_push_head mq buffer size.

(** Take the first message off the queue and give its slot back; the result is
    the bytes copied to the caller's buffer. *)
Definition mq_take (q : rt_messagequeue) (size : Z) : option (list Z * rt_messagequeue) :=
  msg ← msg_queue_head q;
  next ← mq_next q !! msg;
  data ← mq_data q !! msg;
  let size := if size >? msg_size q then msg_size q else size in
  Some (take (Z.to_nat size) data,
    {| mq_flag := mq_flag q; msg_size := msg_size q; max_msgs := max_msgs q;
       mq_entry := u16 (mq_entry q - 1);
       mq_next := <[msg := msg_queue_free q]> (mq_next q); mq_data := mq_data q;
       msg_queue_head := next;
       msg_queue_tail := if bool_decide (msg_queue_tail q = Some msg) then None else msg_queue_tail q;
       msg_queue_free := Some msg |}).

Definition mq_recv_loop (mq : nat) (size timeout tick_delta : Z) : M (call (Z * option (list Z))) :=
  q ← mq_get mq;
  if mq_entry q =? 0 then
    thread ← self;
    thread_mod thread (set_error RT_EOK);;
    if timeout =? 0 then
      thread_mod thread (set_error (- RT_ETIMEOUT));;
      mret (Done (- RT_ETIMEOUT, None))
    else
      start ← ipc_wait (LMq mq) thread (mq_flag q) timeout;
      rt_schedule;;
      mret (Waits timeout (if timeout >? 0 then start else tick_delta))
  else
    '(data, q) ← lift (fun _ => mq_take q size);
    mq_set mq q;;
    mret (Done (RT_EOK, Some data)).

Definition rt_mq_recv (mq : nat) (size timeout : Z) : M (call (Z * option (list Z))) :=
  q ← mq_get mq;
  if (mq_entry q =? 0) && (timeout =? 0) then mret (Done (- RT_ETIMEOUT, None))
  else mq_recv_loop mq size timeout 0.

Definition rt_mq_recv_resumed (thread mq : nat) (size timeout tick_delta : Z)
  : M (call (Z * option (list Z))) :=
  th ← thread_get thread;
  if negb (error th =? RT_EOK) then mret (Done (error th, None)) else
  now ← rt_tick_get;
  mq_recv_loop mq size (timeout_left timeout tick_delta now)
    (if timeout >? 0 then u32 (now - tick_delta) else tick_delta).

(** The loop that empties the queue; it runs until [msg_queue_head] is null. *)
Fixpoint mq_flush (fuel : nat) (q : rt_messagequeue) : option rt_messagequeue :=
  match fuel with
  | O => None
  | S fuel =>
      match msg_queue_head q with
      | None => Some q
      | Some msg =>
          next ← mq_next q !! msg;
          mq_flush fuel
            {| mq_flag := mq_flag q; msg_size := msg_size q; max_msgs := max_msgs q;
               mq_entry := mq_entry q;
               mq_next := <[msg := msg_queue_free q]> (mq_next q); mq_data := mq_data q;
               msg_queue_head := next;
               msg_queue_tail :=
                 if bool_decide (msg_queue_tail q = Some msg) then None else msg_queue_tail q;
               msg_queue_free := Some msg |}
      end
  end.

(** Fuel: one turn per slot and the test that ends the loop. *)
Definition rt_mq_control (mq : nat) (cmd arg : Z) : M Z :=
  if cmd =? RT_IPC_CMD_RESET then
    rt_ipc_list_resume_all (LMq mq);;
    q ← mq_get mq;
    q ← lift (fun _ => mq_flush (S (Z.to_nat (max_msgs q))) q);
    mq_set mq (set_mq_entry 0 q);;
    rt_schedule;;
    mret RT_EOK
  else mret (- RT_ERROR).
