(* ===== verification/IpcInv.v ===== *)
(** * Waiting lists: what suspending on a list and waking from it do

    Shared by the five kinds of IPC object. *)

From Stdlib Require Import Sorted.
From S2P Require Import Prelude Kernel Sched Object Thread ThreadInv ThreadSpec Ipc.

(** The lists of IPC objects. *)
Definition wait_list (l : lid) : Prop := l <> LDefunct /\ forall p, l <> LReady p.

Lemma wait_list_stat l th : wait_list l -> list_stat l th <-> stat th = RT_THREAD_SUSPEND.
Proof. intros [? Hr]. destruct l; simpl; try done. by edestruct Hr. Qed.

(** ** Order of a priority list *)

Definition prio_of (k : kernel) (t : nat) : Z :=
  match k_threads k !! t with Some th => current_priority th | None => 0 end.

Definition prio_sorted (k : kernel) (l : list nat) : Prop :=
  StronglySorted (fun t u => prio_of k t <= prio_of k u) l.

(** The new waiter goes behind those of its own or a better priority and before
    the others. *)
Lemma prio_insert_split m t p l : (forall u, u ∈ l -> is_Some (m !! u)) ->
  exists l1 l2, l = l1 ++ l2 /\ prio_insert m t p l = Some (l1 ++ t :: l2) /\
    Forall (fun u => exists th, m !! u = Some th /\ current_priority th <= p) l1 /\
    (forall u th, head l2 = Some u -> m !! u = Some th -> p < current_priority th).
Proof.
  induction l as [|u l IH]; intros Hl; [by exists [], []|]. simpl.
  destruct (Hl u) as [th Hu]; [apply list_elem_of_here|]. rewrite Hu. simpl.
  destruct (p <? current_priority th) eqn:E; zify_bool.
  - exists [], (u :: l). split_and!; try done. intros ? ? [= <-] ?. by simplify_eq.
  - destruct IH as (l1 & l2 & -> & -> & Hf & Hh).
    { intros v Hv. apply Hl. by apply list_elem_of_further. }
    exists (u :: l1), l2. split_and!; try done. constructor; [|done]. eauto.
Qed.

(** ** Suspending the running thread on a list *)

(** Where a waiter goes: at the end, or at its place by priority. *)
Definition queued (k : kernel) (flag : Z) (t : nat) (l r : list nat) : Prop :=
  exists l1 l2, l = l1 ++ l2 /\ r = l1 ++ t :: l2 /\
    (flag = RT_IPC_FLAG_FIFO -> l2 = []) /\
    (flag = RT_IPC_FLAG_PRIO ->
       Forall (fun u => prio_of k u <= prio_of k t) l1 /\
       forall u, head l2 = Some u -> prio_of k t < prio_of k u).

Definition ipc_flag (flag : Z) : Prop := flag = RT_IPC_FLAG_FIFO \/ flag = RT_IPC_FLAG_PRIO.

Lemma queued_perm k flag t l r : queued k flag t l r -> r ≡ₚ t :: l.
Proof. intros (l1 & l2 & -> & -> & _). by rewrite Permutation_middle. Qed.

Lemma queued_sorted k t l r : queued k RT_IPC_FLAG_PRIO t l r -> prio_sorted k l -> prio_sorted k r.
Proof.
  intros (l1 & l2 & -> & -> & _ & Hp) Hs. destruct (Hp eq_refl) as [Hl1 Hl2].
  unfold prio_sorted in *. induction l1 as [|u l1 IH]; simpl in *.
  - constructor; [done|]. destruct l2 as [|v l2]; constructor; [specialize (Hl2 v eq_refl); lia|].
    apply StronglySorted_inv in Hs as [_ Hs]. specialize (Hl2 v eq_refl).
    rewrite Forall_forall in *. intros w Hw. specialize (Hs w Hw). lia.
  - apply Forall_cons in Hl1 as [Hu Hl1]. inversion_clear Hs as [|? ? Hs' Hf].
    constructor; [by apply IH|]. apply Forall_app in Hf as [? ?]. apply Forall_app. split; [done|].
    by constructor.
Qed.

Lemma prio_of_stat k k' t th s u : k_threads k !! t = Some th ->
  k_threads k' = <[t := set_stat s th]> (k_threads k) -> prio_of k' u = prio_of k u.
Proof.
  intros Ht E. unfold prio_of. rewrite E, lookup_insert. case_decide; subst; [|done]. by rewrite Ht.
Qed.

(** Linking a suspended thread that is on no list. *)
Lemma link_kok t th k l r : kok k -> k_threads k !! t = Some th -> stat th = RT_THREAD_SUSPEND ->
  in_no_list t k -> wait_list l -> r ≡ₚ t :: lst k l ->
  kok (set_k_lists (<[l := r]> (k_lists k)) k).
Proof.
  intros [K T] Ht Hs Hno Hw Hp. split; [|by eapply tinv_ext].
  apply (kinv_ext _ (set_k_group (k_group k) (set_k_lists (<[l := r]> (k_lists k)) k))); [|done..].
  eapply kinv_link; [by apply kinv_open|done|by apply wait_list_stat|done|apply K|].
  intros p Hpr. rewrite bool_decide_eq_false_2 by (apply Hw). by rewrite orb_false_r.
Qed.

Lemma list_suspend_kok l t th flag k : kok k -> k_current k = Some t -> k_threads k !! t = Some th ->
  stat th = RT_THREAD_RUNNING -> wait_list l -> ipc_flag flag ->
  exists k', rt_ipc_list_suspend l t flag k = Some (RT_EOK, k') /\ kok k' /\ ipc_same k k' /\
    k_current k' = Some t /\
    k_threads k' = <[t := set_stat RT_THREAD_SUSPEND th]> (k_threads k) /\
    queued k flag t (lst k l) (lst k' l) /\
    (forall l', l' <> l -> lst k' l' = lst k l') /\ inl t ∉ k_timer_list k'.
Proof.
  intros Hk Hc Ht Hs Hw Hf.
  assert (in_no_list t k) as Hno by (eapply stat_no_list; [apply Hk|done|by right]).
  destruct (suspend_kok t th k) as (k1 & E1 & Hk1 & S1 & Ec1 & Eth1 & El1 & Hti); try done; [by right|].
  assert (forall l', lst k1 l' = lst k l') as El by (intros l'; rewrite El1; apply filter_not_in, Hno).
  assert (k_threads k1 !! t = Some (set_stat RT_THREAD_SUSPEND th)) as Ht1
    by (rewrite Eth1; apply lookup_insert_eq).
  assert (in_no_list t k1) as Hno1 by (intros l'; rewrite El; apply Hno).
  assert (forall u, prio_of k1 u = prio_of k u) as Ep by (intros u; by eapply prio_of_stat).
  assert (exists r, queued k flag t (lst k l) r /\
    (if flag =? RT_IPC_FLAG_FIFO then rt_list_insert_tail l t
     else if flag =? RT_IPC_FLAG_PRIO then
       th ← thread_get t;
       ts ← lift (fun k => prio_insert (k_threads k) t (current_priority th) (lst k l));
       rt_list_set l ts
     else mret tt) k1 = Some (tt, set_k_lists (<[l := r]> (k_lists k1)) k1)) as (r & Hq & E2).
  { destruct Hf as [->| ->]; simpl.
    - exists (lst k l ++ [t]). split; [|unfold rt_list_insert_tail; by erewrite lift_bind by (by rewrite El)].
      exists (lst k l), []. by rewrite app_nil_r.
    - destruct (prio_insert_split (k_threads k1) t (current_priority th) (lst k l)) as (l1 & l2 & Es & Ei & H1 & H2).
      { intros u Hu. rewrite <- El in Hu. destruct (ki_member _ _ (proj1 Hk1) _ _ Hu) as (_ & ? & ? & _). eauto. }
      exists (l1 ++ t :: l2). assert (prio_of k t = current_priority th) as Ept by (unfold prio_of; by rewrite Ht).
      split.
      + exists l1, l2. split_and!; try done. intros _. split.
        * eapply Forall_impl; [exact H1|]. intros u (thu & Hu & ?). rewrite Ept, <- Ep.
          unfold prio_of. by rewrite Hu.
        * intros u Hu. rewrite Ept, <- Ep. unfold prio_of.
          assert (u ∈ lst k1 l) as Hin.
          { rewrite El, Es. apply elem_of_app. right. by apply head_Some_elem_of. }
          destruct (ki_member _ _ (proj1 Hk1) _ _ Hin) as (_ & thu & Hthu & _). rewrite Hthu. eauto.
      + unfold thread_get. erewrite lift_bind by done. simpl. by erewrite lift_bind by (by rewrite El). }
  exists (set_k_lists (<[l := r]> (k_lists k1)) k1). split_and!; try done.
  - unfold rt_ipc_list_suspend. erewrite bind_some by exact E1. by erewrite bind_some by exact E2.
  - eapply link_kok; try done. rewrite El. by eapply queued_perm.
  - simpl. by rewrite Ec1.
  - by rewrite lst_set, decide_True.
  - intros l' Hl'. rewrite lst_set, decide_False by congruence. apply El.
Qed.

(** ** Everything but the states of the threads *)

Definition upto_stat (k k' : kernel) : Prop :=
  forall u th, k_threads k !! u = Some th -> exists s, k_threads k' !! u = Some (set_stat s th).

#[export] Instance upto_stat_preorder : PreOrder upto_stat.
Proof.
  split.
  - intros k u th Hu. exists (stat th). by rewrite set_stat_same.
  - intros k1 k2 k3 H1 H2 u th Hu. destruct (H1 u th Hu) as [s Hs].
    destruct (H2 u _ Hs) as [s' Hs']. by exists s'.
Qed.

Lemma upto_stat_sched k k' : sched_rel k k' -> upto_stat k k'.
Proof. intros R u th Hu. destruct (sr_thread _ _ R u th Hu) as (s & ? & _). eauto. Qed.

Lemma upto_stat_insert t th s k k' : k_threads k !! t = Some th ->
  k_threads k' = <[t := set_stat s th]> (k_threads k) -> upto_stat k k'.
Proof.
  intros Ht E u thu Hu. rewrite E, lookup_insert. case_decide; subst; [simplify_eq; eauto|].
  exists (stat thu). by rewrite set_stat_same.
Qed.

Lemma upto_stat_eq k k' : k_threads k' = k_threads k -> upto_stat k k'.
Proof. intros E u th Hu. exists (stat th). by rewrite E, set_stat_same. Qed.

Lemma upto_stat_prio k k' t : upto_stat k k' -> is_Some (k_threads k !! t) ->
  prio_of k' t = prio_of k t.
Proof.
  intros H [th Ht]. destruct (H t th Ht) as [s Hs]. unfold prio_of. by rewrite Ht, Hs.
Qed.

(** ** Waiting: the tail that every blocking call shares *)

(** Preconditions of a call that may wait: thread context, scheduler unlocked,
    somebody else to run. *)
Record may_wait (k : kernel) (t : nat) (th : rt_thread) : Prop := {
  mw_kok : kok k;
  mw_current : k_current k = Some t;
  mw_thread : k_threads k !! t = Some th;
  mw_running : stat th = RT_THREAD_RUNNING;
  mw_lock : k_lock_nest k = 0;
  mw_ready : k_group k <> 0
}.

(** What holds while the caller waits. *)
Record waits_on (l : lid) (t : nat) (th : rt_thread) (flag timeout : Z) (k k' : kernel) : Prop := {
  wo_kok : kok k';
  wo_highest : highest_running k';
  wo_current : k_current k' <> Some t;
  wo_ipc : ipc_same k k';
  wo_thread : k_threads k' !! t = Some (set_stat RT_THREAD_SUSPEND th);
  wo_others : upto_stat k k';
  wo_queued : queued k flag t (lst k l) (lst k' l);
  wo_lists : forall l', wait_list l' -> l' <> l -> lst k' l' = lst k l';
  wo_timer : timeout > 0 -> expires t timeout k'
}.

Lemma ready_lst k : kok k -> k_group k <> 0 -> exists p, lst k (LReady p) <> [].
Proof.
  intros [K _] Hg. destruct (highest_run k None K Hg) as (t & p & _ & _ & Hh & _).
  exists p. intros E. by rewrite E in Hh.
Qed.

(** The part behind the suspension: [k1] is [k] with [t] suspended and put onto
    the list [l]. *)
Record suspended_on (l : lid) (t : nat) (th : rt_thread) (k k1 : kernel) : Prop := {
  so_kok : kok k1;
  so_ipc : ipc_same k k1;
  so_current : k_current k1 = Some t;
  so_threads : k_threads k1 = <[t := set_stat RT_THREAD_SUSPEND th]> (k_threads k);
  so_lists : forall l', l' <> l -> lst k1 l' = lst k l';
  so_timer : inl t ∉ k_timer_list k1
}.

(** What holds while the caller waits, whatever the order of the list. *)
Record parked_on (l : lid) (t : nat) (th : rt_thread) (timeout : Z) (r : list nat) (k k' : kernel) : Prop := {
  po_kok : kok k';
  po_highest : highest_running k';
  po_current : k_current k' <> Some t;
  po_ipc : ipc_same k k';
  po_thread : k_threads k' !! t = Some (set_stat RT_THREAD_SUSPEND th);
  po_others : upto_stat k k';
  po_queue : lst k' l = r;
  po_lists : forall l', wait_list l' -> l' <> l -> lst k' l' = lst k l';
  po_timer : timeout > 0 -> expires t timeout k'
}.

Lemma arm_timer_kok t th timeout k1 : kok k1 -> k_threads k1 !! t = Some th ->
  stat th = RT_THREAD_SUSPEND -> inl t ∉ k_timer_list k1 ->
  exists d k2, arm_timer t timeout k1 = Some (d, k2) /\ kok k2 /\ ipc_same k1 k2 /\
    same_threads k1 k2 /\ (timeout > 0 -> d = k_tick k1 /\ expires t timeout k2).
Proof.
  intros Hk1 Ht1 Hs Hti. unfold arm_timer. rewrite Z.gtb_ltb. destruct (Z.ltb_spec 0 timeout).
  - destruct (arm_kok t _ timeout k1 Hk1 Ht1) as (k2 & k3 & E2 & _ & E3 & Hk3 & S3 & Sm & Hx); try done.
    exists (k_tick k1), k3. split_and!; try done.
    unfold rt_tick_get. erewrite bind_some by (by rewrite get_bind).
    erewrite bind_some by exact E2. by erewrite bind_some by exact E3.
  - exists 0, k1. split_and!; try done.
Qed.

Lemma park_kok l t th timeout k k1 : may_wait k t th -> wait_list l -> suspended_on l t th k k1 ->
  exists d k2 k3, arm_timer t timeout k1 = Some (d, k2) /\ rt_schedule k2 = Some (tt, k3) /\
    parked_on l t th timeout (lst k1 l) k k3 /\ (timeout > 0 -> d = k_tick k).
Proof.
  intros [Hk Hc Ht Hs Hl Hg] Hw [Hk1 S1 Ec1 Eth1 El Hti].
  assert (k_threads k1 !! t = Some (set_stat RT_THREAD_SUSPEND th)) as Ht1
    by (rewrite Eth1; apply lookup_insert_eq).
  destruct (arm_timer_kok t _ timeout k1 Hk1 Ht1) as (d & k2 & E2 & Hk2 & S2 & Sm & Hx); try done.
  pose proof Sm as (Eth2 & El2 & _ & Ec2).
  destruct (schedule_kok k2 t Hk2) as (k3 & E3 & Hk3 & R & Hh & _); [congruence|].
  destruct (ipc_same_parts _ _ S1) as (_&_&_&_&_&Hn1&Htk1), (ipc_same_parts _ _ S2) as (_&_&_&_&_&Hn2&_).
  assert (highest_running k3) as Hhr.
  { apply Hh; [congruence|]. destruct (ready_lst k Hk Hg) as [p Hp]. apply (group_ready k2 p Hk2).
    rewrite (same_threads_lst k1), El by (done || apply not_eq_sym, Hw). done. }
  assert (forall l', wait_list l' -> lst k3 l' = lst k1 l') as El3.
  { intros l' Hl'. rewrite (sr_wait _ _ R) by apply Hl'. by apply same_threads_lst. }
  exists d, k2, k3. split_and!; [done|done| |by intros; rewrite <- Htk1; apply Hx].
  split; try done.
  - destruct Hhr as (c & thc & -> & Hthc & Hsc & _). intros [= ->].
    assert (k_threads k3 !! t = Some (set_stat RT_THREAD_SUSPEND th)) as Ht3
      by (eapply sched_rel_thread; [done|by rewrite Eth2|apply suspend_not_live]). by simplify_eq.
  - etrans; [done|]. etrans; [done|]. by apply ipc_same_sched.
  - eapply sched_rel_thread; [done|by rewrite Eth2|apply suspend_not_live].
  - etrans; [by eapply upto_stat_insert|]. etrans; [by apply upto_stat_eq|]. by apply upto_stat_sched.
  - by apply El3.
  - intros l' Hl' Hne. rewrite El3 by done. by apply El.
  - intros Hto. eapply sched_rel_expires; [done|]. by apply Hx.
Qed.

Lemma wait_kok l t th flag timeout k : may_wait k t th -> wait_list l -> ipc_flag flag ->
  exists d k1 k2, ipc_wait l t flag timeout k = Some (d, k1) /\ rt_schedule k1 = Some (tt, k2) /\
    waits_on l t th flag timeout k k2 /\ (timeout > 0 -> d = k_tick k).
Proof.
  intros Hm Hw Hf. pose proof Hm as [Hk Hc Ht Hs Hl Hg].
  destruct (list_suspend_kok l t th flag k) as (k1 & E1 & Hk1 & S1 & Ec1 & Eth1 & Hq & El & Hti); try done.
  destruct (park_kok l t th timeout k k1) as (d & k2 & k3 & E2 & E3 & [] & Hd); try done.
  exists d, k2, k3. split_and!; [|done| |done].
  - unfold ipc_wait. by erewrite bind_some by exact E1.
  - split; try done. congruence.
Qed.

(** ** Waking *)

(** The waiter [t] is back with the scheduler; nothing else has changed. *)
Record wakes (l : lid) (t : nat) (ts : list nat) (k k' : kernel) : Prop := {
  wk_kok : kok k';
  wk_ipc : ipc_same k k';
  wk_current : is_Some (k_current k) -> is_Some (k_current k');
  wk_live : exists th s, k_threads k !! t = Some th /\ k_threads k' !! t = Some (set_stat s th) /\
    ready_or_running s;
  wk_others : upto_stat k k';
  wk_list : lst k' l = ts;
  wk_lists : forall l', wait_list l' -> l' <> l -> lst k' l' = lst k l'
}.

Lemma waiter_thread l t k : kok k -> wait_list l -> t ∈ lst k l -> exists th,
  k_threads k !! t = Some th /\ stat th = RT_THREAD_SUSPEND.
Proof.
  intros [K _] Hw Hin. destruct (ki_member _ _ K _ _ Hin) as (_ & th & Ht & Hs).
  exists th. split; [done|]. by apply (wait_list_stat l).
Qed.

(** A waiter that is on one list is on no other. *)
Lemma waiter_only l l' t k : kok k -> t ∈ lst k l -> l' <> l -> t ∉ lst k l'.
Proof. intros [K _] Hin Hne Hin'. apply Hne. by eapply (ki_disjoint _ _ K). Qed.

Lemma resume_waiter l t l1 l2 k : kok k -> wait_list l -> lst k l = l1 ++ t :: l2 ->
  exists k', rt_thread_resume t k = Some (RT_EOK, k') /\ wakes l t (l1 ++ l2) k k' /\
    k_current k' = k_current k /\
    exists th, k_threads k !! t = Some th /\
      k_threads k' = <[t := set_stat (live_stat t k) th]> (k_threads k).
Proof.
  intros Hk Hw El.
  assert (t ∈ lst k l) as Hin by (rewrite El; apply elem_of_app; right; apply list_elem_of_here).
  destruct (waiter_thread l t k Hk Hw Hin) as (th & Ht & Hs).
  destruct (resume_kok t th k Hk Ht Hs) as (k' & E & Hk' & S & Ec & Eth & El').
  exists k'. split; [done|]. split; [|by eauto]. split; try done.
  - by rewrite Ec.
  - exists th, (live_stat t k). split_and!; [done|rewrite Eth; apply lookup_insert_eq|apply live_stat_live].
  - by eapply upto_stat_insert.
  - rewrite El', decide_False by (intros [_ ->]; by eapply Hw). rewrite El.
    pose proof (ki_nodup _ _ (proj1 Hk) l) as Hnd. rewrite El in Hnd.
    apply NoDup_app in Hnd as (_ & Hd & Hnd). apply NoDup_cons in Hnd as [Hn2 _].
    rewrite filter_app, filter_cons, decide_False by naive_solver.
    rewrite !filter_not_in; [done|done|]. intros H1. apply (Hd t H1). apply list_elem_of_here.
  - intros l' Hl' Hne. rewrite El', decide_False by (intros [_ ->]; by eapply Hl').
    apply filter_not_in. by eapply waiter_only.
Qed.

Lemma list_resume_kok l t ts k : kok k -> wait_list l -> lst k l = t :: ts ->
  exists k', rt_ipc_list_resume l k = Some (RT_EOK, k') /\ wakes l t ts k k' /\
    k_current k' = k_current k.
Proof.
  intros Hk Hw El. destruct (resume_waiter l t [] ts k Hk Hw El) as (k' & E & W & Ec & _).
  exists k'. split_and!; try done. unfold rt_ipc_list_resume, rt_list_first.
  erewrite lift_bind by (by rewrite El). by erewrite bind_some by exact E.
Qed.

Lemma wakes_sched l t ts k k1 k2 : wait_list l -> wakes l t ts k k1 -> sched_rel k1 k2 -> kok k2 ->
  wakes l t ts k k2.
Proof.
  intros Hw [Hk1 S1 C1 (th & s & Ht & Ht1 & Hs) U1 El1 Els1] R Hk2. split; try done.
  - etrans; [done|by apply ipc_same_sched].
  - intros Hc. by apply (sr_current _ _ R), C1.
  - destruct (sched_rel_live k1 k2 t th s R Ht1 Hs) as (s' & ? & ?). by exists th, s'.
  - etrans; [done|by apply upto_stat_sched].
  - rewrite (sr_wait _ _ R) by apply Hw. done.
  - intros l' Hl' Hne. rewrite (sr_wait _ _ R) by apply Hl'. auto.
Qed.

(** Wake the first waiter and schedule. *)
Lemma wake_kok l t ts k c : kok k -> k_current k = Some c -> wait_list l -> lst k l = t :: ts ->
  exists k1 k2, rt_ipc_list_resume l k = Some (RT_EOK, k1) /\ rt_schedule k1 = Some (tt, k2) /\
    wakes l t ts k k2.
Proof.
  intros Hk Hc Hw El. destruct (list_resume_kok l t ts k Hk Hw El) as (k1 & E1 & W & Ec).
  destruct (schedule_kok k1 c) as (k2 & E2 & Hk2 & R & _); [apply W|congruence|].
  exists k1, k2. split_and!; try done. by eapply wakes_sched.
Qed.

(** ** Waking every waiter with an error *)

(** The waiters in [ts] have been resumed with [-RT_ERROR], the others are as
    they were. *)
Definition released (ts : list nat) (k k' : kernel) : Prop :=
  forall u th, k_threads k !! u = Some th ->
    if decide (u ∈ ts)
    then exists s, k_threads k' !! u = Some (set_stat s (set_error (- RT_ERROR) th)) /\ ready_or_running s
    else k_threads k' !! u = Some th.

Lemma resume_all_loop ts l : forall k, kok k -> wait_list l -> lst k l = ts ->
  exists k', rt_ipc_list_resume_loop (S (length ts)) l k = Some (tt, k') /\ kok k' /\ ipc_same k k' /\
    k_current k' = k_current k /\ released ts k k' /\ lst k' l = [] /\
    (forall l', wait_list l' -> l' <> l -> lst k' l' = lst k l').
Proof.
  induction ts as [|t ts IH]; intros k Hk Hw El; cbn [rt_ipc_list_resume_loop length].
  { exists k. unfold rt_list_isempty. erewrite lift_bind by (by rewrite El). simpl.
    split_and!; try done. intros u th Hu. by rewrite decide_False by apply not_elem_of_nil. }
  assert (t ∈ lst k l) as Hin by (rewrite El; apply list_elem_of_here).
  destruct (waiter_thread l t k Hk Hw Hin) as (th & Ht & Hs).
  set (k1 := put_thread t (set_error (- RT_ERROR) th) k).
  assert (kok k1) as Hk1 by (by eapply kok_put_data).
  destruct (resume_waiter l t [] ts k1 Hk1 Hw El) as (k2 & E2 & W & Ec & th2 & Ht2 & Eth2).
  assert (th2 = set_error (- RT_ERROR) th) as ->.
  { unfold k1 in Ht2. simpl in Ht2. rewrite lookup_insert_eq in Ht2. by simplify_eq. }
  destruct (IH k2) as (k' & E & Hk' & S' & Ec' & Hrel & El' & Els'); [apply W|done|apply W|].
  exists k'. split_and!; try done.
  - unfold rt_list_isempty. erewrite lift_bind by (by rewrite El). simpl.
    unfold rt_list_first. erewrite lift_bind by (by rewrite El).
    erewrite bind_some by (by apply thread_mod_run). by erewrite bind_some by exact E2.
  - etrans; [apply (wk_ipc _ _ _ _ _ W)|done].
  - by rewrite Ec', Ec.
  - pose proof (ki_nodup _ _ (proj1 Hk) l) as Hnd. rewrite El in Hnd. apply NoDup_cons in Hnd as [Hnt _].
    intros u thu Hu. destruct (decide (u = t)) as [->|Hne].
    + rewrite decide_True by apply list_elem_of_here. rewrite Ht in Hu. injection Hu as <-.
      specialize (Hrel t (set_stat (live_stat t k1) (set_error (- RT_ERROR) th))).
      rewrite decide_False in Hrel by done. rewrite Hrel by (rewrite Eth2; apply lookup_insert_eq).
      eexists. split; [done|]. apply live_stat_live.
    + specialize (Hrel u thu). rewrite Eth2, lookup_insert_ne in Hrel by done.
      unfold k1 in Hrel; simpl in Hrel. rewrite lookup_insert_ne in Hrel by done. specialize (Hrel Hu).
      destruct (decide (u ∈ ts)), (decide (u ∈ t :: ts)) as [Hx|Hx]; rewrite elem_of_cons in Hx; tauto.
  - intros l' Hl' Hne. rewrite Els' by done. by apply (wk_lists _ _ _ _ _ W).
Qed.

Lemma resume_all_kok l k : kok k -> wait_list l ->
  exists k', rt_ipc_list_resume_all l k = Some (RT_EOK, k') /\ kok k' /\ ipc_same k k' /\
    k_current k' = k_current k /\ released (lst k l) k k' /\ lst k' l = [] /\
    (forall l', wait_list l' -> l' <> l -> lst k' l' = lst k l').
Proof.
  intros Hk Hw. destruct (resume_all_loop (lst k l) l k Hk Hw eq_refl) as (k' & E & H).
  exists k'. split; [|exact H]. unfold rt_ipc_list_resume_all. rewrite get_bind.
  by erewrite bind_some by exact E.
Qed.
