(* ===== verification/SemTheorems.v ===== *)
(** * What semaphores guarantee

    [sem_ok] is the invariant of one semaphore: a 16-bit value, nobody waiting
    while it is positive, and waiters that no error has been reported to. *)

From S2P Require Import Prelude Kernel Sched Object Thread ThreadInv ThreadSpec Ipc.
From S2P Require Import IpcInv Demo.

Definition no_error (k : kernel) (t : nat) : Prop :=
  exists th, k_threads k !! t = Some th /\ error th = RT_EOK.

Record sem_ok (k : kernel) (i : nat) (s : rt_semaphore) : Prop := {
  so_sem : k_sems k !! i = Some s;
  so_flag : ipc_flag (sem_flag s);
  so_value : 0 <= sem_value s < 2 ^ 16;
  so_idle : 0 < sem_value s -> lst k (LSem i) = [];
  so_waiters : Forall (no_error k) (lst k (LSem i))
}.

Lemma sem_wait_list i : wait_list (LSem i).
Proof. by split. Qed.

Lemma no_error_upto k k' t : upto_stat k k' -> no_error k t -> no_error k' t.
Proof. intros H (th & Ht & He). destruct (H t th Ht) as [s Hs]. by exists (set_stat s th). Qed.

Lemma no_error_mono k k' l l' : upto_stat k k' -> l' ⊆ l -> Forall (no_error k) l -> Forall (no_error k') l'.
Proof.
  intros H Hs Hf. rewrite Forall_forall in *. intros t Ht. eapply no_error_upto; [done|]. auto.
Qed.

(** The running thread may be given other data. *)
Lemma may_wait_data k t th th' : may_wait k t th -> stat th' = stat th ->
  current_priority th' = current_priority th -> init_priority th' = init_priority th ->
  number_mask th' = number_mask th -> may_wait (put_thread t th' k) t th'.
Proof.
  intros [Hk Hc Ht Hs Hl Hg] Es Ep Ei Em. split; try done.
  - by eapply kok_put_data.
  - apply lookup_insert_eq.
  - congruence.
Qed.

Lemma no_error_put k t th u : error th = RT_EOK -> no_error k u -> no_error (put_thread t th k) u.
Proof.
  intros He (thu & Hu & Heu). unfold no_error; simpl. rewrite lookup_insert.
  case_decide; [by exists th|by exists thu].
Qed.

(** Waiters after one more has been queued. *)
Lemma queued_no_error l t th flag timeout k k' : error th = RT_EOK -> k_threads k !! t = Some th ->
  waits_on l t th flag timeout k k' -> Forall (no_error k) (lst k l) -> Forall (no_error k') (lst k' l).
Proof.
  intros He Ht W Hf. pose proof (queued_perm _ _ _ _ _ (wo_queued _ _ _ _ _ _ _ W)) as Hp. rewrite Hp.
  constructor; [|by eapply no_error_mono; [apply W| |]].
  exists (set_stat RT_THREAD_SUSPEND th). split; [apply W|done].
Qed.

(** The branch of [rt_sem_take] that waits. *)
Lemma sem_take_waits k i s t th time : sem_ok k i s -> may_wait k t th -> sem_value s = 0 ->
  time <> 0 -> exists d k', rt_sem_take i time k = Some (Waits time d, k') /\
    waits_on (LSem i) t (set_error RT_EOK th) (sem_flag s) time
      (put_thread t (set_error RT_EOK th) k) k' /\ sem_ok k' i s.
Proof.
  intros [Hsem Hfl Hv Hi Hwt] Hmw Hz Ht. unfold rt_sem_take, sem_get.
  erewrite lift_bind by exact Hsem. rewrite Hz. simpl. destruct (Z.eqb_spec time 0); [done|].
  unfold self. erewrite lift_bind by apply Hmw.
  erewrite bind_some by (apply thread_mod_run, Hmw).
  set (k1 := put_thread t (set_error RT_EOK th) k).
  assert (may_wait k1 t (set_error RT_EOK th)) as Hmw1 by (by eapply may_wait_data).
  destruct (wait_kok (LSem i) t _ (sem_flag s) time k1 Hmw1 (sem_wait_list i) Hfl)
    as (d & k2 & k3 & E1 & E2 & W & _).
  erewrite bind_some by exact E1. erewrite bind_some by exact E2.
  exists d, k3. split_and!; try done. split; try done.
  - pose proof (wo_ipc _ _ _ _ _ _ _ W) as S. unfold ipc_same, ipc_part in S. simpl in S. congruence.
  - lia.
  - apply (queued_no_error _ t (set_error RT_EOK th) (sem_flag s) time k1); [done|apply lookup_insert_eq|done|].
    eapply Forall_impl; [exact Hwt|]. intros u. by apply no_error_put.
Qed.

(** [rt_sem_take] on every branch.  A positive value is taken at once; an
    unavailable semaphore with a zero timeout returns [-RT_ETIMEOUT] and changes
    nothing; otherwise the caller joins the waiters (at the end, or at its place
    by priority), its timer is armed for a positive timeout, and the best ready
    thread runs. *)
Theorem rt_sem_take_correct k i s t th time : sem_ok k i s -> may_wait k t th ->
  (0 < sem_value s -> exists k', rt_sem_take i time k = Some (Done RT_EOK, k') /\ kok k' /\
     sem_ok k' i (set_sem_value (sem_value s - 1) s) /\ k_threads k' = k_threads k) /\
  (sem_value s = 0 -> time = 0 -> rt_sem_take i time k = Some (Done (- RT_ETIMEOUT), k)) /\
  (sem_value s = 0 -> time <> 0 -> exists d k', rt_sem_take i time k = Some (Waits time d, k') /\
     waits_on (LSem i) t (set_error RT_EOK th) (sem_flag s) time
       (put_thread t (set_error RT_EOK th) k) k' /\ sem_ok k' i s).
Proof.
  intros Hok Hmw. split_and!; [| |by intros; eapply sem_take_waits];
    destruct Hok as [Hsem Hfl Hv Hi Hwt]; unfold rt_sem_take, sem_get; erewrite lift_bind by exact Hsem.
  - intros Hp. destruct (sem_value s >? 0) eqn:E; [|rewrite Z.gtb_ltb in E; zify_bool; lia].
    eexists. split; [reflexivity|]. rewrite (wrap_small 16) by lia.
    split_and!; [by eapply kok_ext; [apply Hmw|..]| |done]. split; try done.
    + apply lookup_insert_eq.
    + simpl. lia.
    + intros _. by apply Hi.
  - intros -> ->. done.
Qed.

(** [rt_sem_release] on every branch.  With waiters, the first of them is
    made ready and its pending [rt_sem_take] returns [RT_EOK]: the permit is
    handed over, the value stays.  Without, the value grows by one, as long as it
    fits 16 bits. *)
Theorem rt_sem_release_correct k i s c : sem_ok k i s -> kok k -> k_current k = Some c ->
  (forall t ts, lst k (LSem i) = t :: ts -> exists k', rt_sem_release i k = Some (RT_EOK, k') /\
     wakes (LSem i) t ts k k' /\ sem_ok k' i s /\ rt_sem_take_resumed t k' = Some (RT_EOK, k')) /\
  (lst k (LSem i) = [] -> sem_value s < 2 ^ 16 - 1 -> exists k', rt_sem_release i k = Some (RT_EOK, k') /\
     kok k' /\ sem_ok k' i (set_sem_value (sem_value s + 1) s) /\ k_threads k' = k_threads k).
Proof.
  intros [Hsem Hfl Hv Hi Hwt] Hk Hc. unfold rt_sem_release, sem_get, rt_list_isempty.
  split.
  - intros t ts El. erewrite lift_bind by exact Hsem. erewrite lift_bind by (by rewrite El). simpl.
    destruct (wake_kok (LSem i) t ts k c Hk Hc (sem_wait_list i) El) as (k1 & k2 & E1 & E2 & W).
    erewrite bind_some by (by erewrite bind_some by exact E1).
    rewrite when_bind. erewrite bind_some by exact E2.
    exists k2. split_and!; try done.
    + pose proof (wk_ipc _ _ _ _ _ W) as S. unfold ipc_same, ipc_part in S.
      split; try done; [congruence| |].
      * intros Hp. by rewrite Hi in El.
      * eapply no_error_mono; [apply W| |exact Hwt]. rewrite (wk_list _ _ _ _ _ W), El.
        intros u Hu. by apply list_elem_of_further.
    + rewrite El in Hwt. apply Forall_cons in Hwt as [He _].
      destruct (no_error_upto k k2 t (wk_others _ _ _ _ _ W) He) as (th & Ht & Heth).
      unfold rt_sem_take_resumed, thread_get. erewrite lift_bind by done. by rewrite Heth.
  - intros El Hb. erewrite lift_bind by exact Hsem. erewrite lift_bind by (by rewrite El). simpl.
    eexists. split; [reflexivity|]. rewrite (wrap_small 16) by lia.
    split_and!; [by eapply kok_ext| |done]. split; try done.
    + apply lookup_insert_eq.
    + simpl. lia.
Qed.

(** The value of a semaphore is 16 bits wide and [rt_sem_release] does not
    check it: released 65536 times more than taken, it is zero again and the
    permits are lost. *)
Theorem rt_sem_release_overflows k i s : k_sems k !! i = Some s -> sem_value s = 2 ^ 16 - 1 ->
  lst k (LSem i) = [] ->
  exists k', rt_sem_release i k = Some (RT_EOK, k') /\
    k_sems k' !! i = Some (set_sem_value 0 s) /\
    rt_sem_trytake i k' = Some (Done (- RT_ETIMEOUT), k').
Proof.
  intros Hs Hv El. unfold rt_sem_release, sem_get, rt_list_isempty.
  erewrite lift_bind by exact Hs. erewrite lift_bind by (by rewrite El). simpl.
  eexists. split; [reflexivity|]. rewrite Hv. change (u16 (2 ^ 16 - 1 + 1)) with 0. simpl.
  split; [apply lookup_insert_eq|].
  unfold rt_sem_trytake, rt_sem_take, sem_get. by erewrite lift_bind by apply lookup_insert_eq.
Qed.

(** resetting a semaphore wakes every waiter with [-RT_ERROR], so that each
    pending [rt_sem_take] fails, and sets the value. *)
Theorem rt_sem_control_reset k i s c v : sem_ok k i s -> kok k -> k_current k = Some c ->
  0 <= v < 2 ^ 16 ->
  exists k', rt_sem_control i RT_IPC_CMD_RESET v k = Some (RT_EOK, k') /\ kok k' /\
    sem_ok k' i (set_sem_value v s) /\
    forall t, t ∈ lst k (LSem i) -> rt_sem_take_resumed t k' = Some (- RT_ERROR, k').
Proof.
  intros [Hsem Hfl Hv Hi Hwt] Hk Hc Hr.
  destruct (resume_all_kok (LSem i) k Hk (sem_wait_list i)) as (k1 & E1 & Hk1 & S1 & Ec1 & Hrel & El1 & _).
  set (k2 := set_k_sems (<[i := set_sem_value v s]> (k_sems k1)) k1).
  assert (kok k2) as Hk2 by (by eapply kok_ext).
  destruct (schedule_kok k2 c) as (k3 & E3 & Hk3 & R & _); [done|simpl; congruence|].
  exists k3. split_and!; try done.
  - unfold rt_sem_control. simpl. erewrite bind_some by exact E1. unfold sem_get.
    erewrite lift_bind.
    2:{ unfold ipc_same, ipc_part in S1. replace (k_sems k1) with (k_sems k) by congruence. exact Hsem. }
    unfold sem_set. rewrite (wrap_small 16), modify_bind by lia. fold k2. by erewrite bind_some by exact E3.
  - assert (lst k3 (LSem i) = []) as El3.
    { rewrite (sr_wait _ _ R) by apply (sem_wait_list i). exact El1. }
    split; rewrite ?El3; try done.
    rewrite (sr_frame _ _ R). simpl. apply lookup_insert_eq.
  - intros t Ht. rewrite Forall_forall in Hwt. destruct (Hwt t Ht) as (th & Hth & _).
    specialize (Hrel t th Hth). rewrite decide_True in Hrel by done. destruct Hrel as (s' & Ht1 & _).
    destruct (upto_stat_sched k2 k3 R t _ Ht1) as [s'' Ht3].
    unfold rt_sem_take_resumed, thread_get. by erewrite lift_bind by exact Ht3.
Qed.

(** ** Instances *)

(** The demo kernel with a binary semaphore that has been taken. *)
Definition sem0 : rt_semaphore := {| sem_flag := RT_IPC_FLAG_PRIO; sem_value := 0 |}.
Definition demo_sem : kernel := set_k_sems (<[0%nat := sem0]> ∅) demo.
Definition demo_main : rt_thread := set_stat RT_THREAD_RUNNING (live_thread 10).

Lemma demo_may_wait : may_wait demo_sem 0 demo_main.
Proof.
  split; [apply (kok_ext demo); [apply demo_kok|done..]|done|vm_compute; reflexivity|done|done|].
  vm_compute. discriminate.
Qed.

Lemma demo_sem_ok : sem_ok demo_sem 0 sem0.
Proof. by split; [vm_compute; reflexivity|right| |vm_compute|vm_compute; constructor]. Qed.

(** Thread 0 waits for the semaphore, for five ticks. *)
Definition demo_waiter : kernel := default demo_sem (snd <$> rt_sem_take 0 5 demo_sem).

Lemma demo_waiter_ok : kok demo_waiter /\ sem_ok demo_waiter 0 sem0.
Proof.
  destruct (sem_take_waits demo_sem 0 sem0 0 demo_main 5 demo_sem_ok demo_may_wait)
    as (d & k' & E & W & S); [done..|].
  unfold demo_waiter. rewrite E. split; [apply W|apply S].
Qed.

Lemma rt_sem_take_correct_witness : exists d k',
  rt_sem_take 0 5 demo_sem = Some (Waits 5 d, k') /\
  waits_on (LSem 0) 0 (set_error RT_EOK demo_main) RT_IPC_FLAG_PRIO 5
    (put_thread 0 (set_error RT_EOK demo_main) demo_sem) k' /\ sem_ok k' 0 sem0.
Proof.
  apply (rt_sem_take_correct demo_sem 0 sem0 0 demo_main 5 demo_sem_ok demo_may_wait);
    [reflexivity|lia].
Defined.

Lemma rt_sem_release_correct_witness : exists k', rt_sem_release 0 demo_waiter = Some (RT_EOK, k') /\
  wakes (LSem 0) 0 [] demo_waiter k' /\ sem_ok k' 0 sem0 /\
  rt_sem_take_resumed 0 k' = Some (RT_EOK, k').
Proof.
  apply (rt_sem_release_correct demo_waiter 0 sem0 1);
    [apply demo_waiter_ok|apply demo_waiter_ok|vm_compute; reflexivity|vm_compute; reflexivity].
Defined.

Lemma rt_sem_release_overflows_witness :
  let k := set_k_sems (<[0%nat := set_sem_value (2 ^ 16 - 1) sem0]> ∅) demo in
  exists k', rt_sem_release 0 k = Some (RT_EOK, k') /\
    k_sems k' !! 0%nat = Some (set_sem_value 0 sem0) /\
    rt_sem_trytake 0 k' = Some (Done (- RT_ETIMEOUT), k').
Proof.
  intros k. apply (rt_sem_release_overflows k 0 (set_sem_value (2 ^ 16 - 1) sem0));
    [vm_compute; reflexivity|reflexivity|vm_compute; reflexivity].
Defined.

Lemma rt_sem_control_reset_witness : exists k',
  rt_sem_control 0 RT_IPC_CMD_RESET 1 demo_waiter = Some (RT_EOK, k') /\ kok k' /\
  sem_ok k' 0 (set_sem_value 1 sem0) /\
  forall t, t ∈ lst demo_waiter (LSem 0) -> rt_sem_take_resumed t k' = Some (- RT_ERROR, k').
Proof.
  apply (rt_sem_control_reset demo_waiter 0 sem0 1 1);
    [apply demo_waiter_ok|apply demo_waiter_ok|vm_compute; reflexivity|lia].
Defined.
