(* ===== verification/MutexTheorems.v ===== *)
(** * What mutexes guarantee

    [mutex_ok] is the invariant of one mutex: it is free, with nobody waiting,
    or it has an owner, who is not among the waiters; on a mutex with a priority
    queue the owner runs at least at the priority of every waiter (priority
    inheritance). *)

From Stdlib Require Import Sorted.
From S2P Require Import Prelude Kernel Sched Object Thread ThreadInv ThreadSpec Ipc.
From S2P Require Import IpcInv SemTheorems Demo.

Definition inherits (k : kernel) (o : nat) (ws : list nat) : Prop :=
  Forall (fun w => prio_of k o <= prio_of k w) ws.

Record owned (k : kernel) (i : nat) (m : rt_mutex) (o : nat) : Prop := {
  ow_owner : owner m = Some o;
  ow_value : mtx_value m = 0;
  ow_thread : is_Some (k_threads k !! o);
  ow_hold : 0 < hold m < 2 ^ 8;
  ow_prio : 0 <= original_priority m < RT_THREAD_PRIORITY_MAX;
  ow_waits : o ∉ lst k (LMutex i);
  ow_inherits : mtx_flag m = RT_IPC_FLAG_PRIO -> inherits k o (lst k (LMutex i))
}.

Record mutex_ok (k : kernel) (i : nat) (m : rt_mutex) : Prop := {
  mo_mutex : k_mutexes k !! i = Some m;
  mo_flag : ipc_flag (mtx_flag m);
  mo_state : m = mutex_fresh (mtx_flag m) /\ lst k (LMutex i) = [] \/ exists o, owned k i m o;
  mo_sorted : mtx_flag m = RT_IPC_FLAG_PRIO -> prio_sorted k (lst k (LMutex i));
  mo_waiters : Forall (no_error k) (lst k (LMutex i))
}.

Lemma mutex_wait_list i : wait_list (LMutex i).
Proof. by split. Qed.

(** Somebody is ready to run, in terms of the threads. *)
Lemma group_thread k : kok k -> k_group k <> 0 <->
  exists u th, k_threads k !! u = Some th /\ stat th = RT_THREAD_READY.
Proof.
  intros Hk. split.
  - intros Hg. destruct (ready_lst k Hk Hg) as [p Hp]. apply list_ne_nil_iff in Hp as [u Hu].
    destruct (ki_member _ _ (proj1 Hk) _ _ Hu) as (_ & th & ? & ? & _). eauto.
  - intros (u & th & Hu & Hs). apply (group_ready k (current_priority th) Hk).
    apply list_ne_nil_iff. exists u. by apply (ki_ready _ _ (proj1 Hk)).
Qed.

(** Sorting and inheritance read the priorities of the waiters only. *)
Lemma prio_sorted_ext k k' l : (forall u, u ∈ l -> prio_of k' u = prio_of k u) ->
  prio_sorted k l -> prio_sorted k' l.
Proof.
  unfold prio_sorted. induction l as [|u l IH]; intros He; [constructor|].
  intros Hs. inversion_clear Hs as [|? ? Hs' Hf].
  assert (forall v, v ∈ l -> prio_of k' v = prio_of k v) as He'
    by (intros v Hv; apply He; by apply list_elem_of_further).
  constructor; [by apply IH|]. rewrite Forall_forall in *. intros v Hv.
  rewrite (He u), He' by (done || apply list_elem_of_here). auto.
Qed.

Lemma inherits_ext k k' o l : (forall u, u ∈ l -> prio_of k' u = prio_of k u) ->
  prio_of k' o <= prio_of k o -> inherits k o l -> inherits k' o l.
Proof.
  intros He Ho Hi. unfold inherits in *. rewrite Forall_forall in *. intros u Hu.
  specialize (Hi u Hu). rewrite (He u) by done. lia.
Qed.

Lemma waiters_exist k l u : kok k -> u ∈ lst k l -> is_Some (k_threads k !! u).
Proof. intros [K _] Hu. destruct (ki_member _ _ K _ _ Hu) as (_ & th & ? & _). eauto. Qed.

Lemma running_not_waiting k t th l : kok k -> k_threads k !! t = Some th ->
  stat th = RT_THREAD_RUNNING -> t ∉ lst k l.
Proof. intros [K _] Ht Hs. eapply stat_no_list; [done..|by right]. Qed.

(** ** The steps of [rt_mutex_take] *)

(** Raising the owner to the caller's priority. *)
Lemma boost_kok k t th o tho : may_wait k t th -> k_threads k !! o = Some tho -> o <> t ->
  exists k', when (current_priority th <? current_priority tho)
      (rt_thread_control o (RT_THREAD_CTRL_CHANGE_PRIORITY (current_priority th));; mret tt) k
      = Some (tt, k') /\
    may_wait k' t th /\ ipc_same k k' /\
    (forall u, u <> o -> k_threads k' !! u = k_threads k !! u) /\
    (exists s, k_threads k' !! o = Some (set_stat s
       (if current_priority th <? current_priority tho then set_priority (current_priority th) tho else tho))) /\
    prio_of k' o = Z.min (prio_of k o) (current_priority th) /\
    (forall l, wait_list l -> lst k' l = lst k l).
Proof.
  intros [Hk Hc Ht Hs Hl Hg] Ho Hne.
  destruct (current_priority th <? current_priority tho) eqn:E; zify_bool; unfold prio_of at 2; rewrite Ho.
  - pose proof (kok_thread _ _ _ Hk Ht) as (Hp & _).
    destruct (control_priority_kok o tho (current_priority th) k Hk Ho Hp)
      as (k' & E1 & Hk' & S & Ec & (s & Eth & Hs') & El).
    exists k'. split_and!.
    + unfold when. by erewrite bind_some by exact E1.
    + split; try done.
      * congruence.
      * rewrite Eth. by rewrite lookup_insert_ne by done.
      * unfold ipc_same, ipc_part in S. congruence.
      * apply group_thread; [done|]. apply group_thread in Hg as (u & thu & Hu & Hsu); [|done].
        destruct (decide (u = o)) as [->|Hno].
        -- simplify_eq. exists o, (set_stat s (set_priority (current_priority th) thu)).
           rewrite Eth, lookup_insert_eq. split; [done|]. simpl.
           destruct Hs' as [->|[[?|Hr] _]]; try done. exfalso. apply Hne.
           assert (k_current k' = Some o); [|congruence].
           eapply (ki_running _ _ (proj1 Hk')); [rewrite Eth; apply lookup_insert_eq|done|done].
        -- exists u, thu. rewrite Eth. by rewrite lookup_insert_ne by done.
    + done.
    + intros u Hu. rewrite Eth. by rewrite lookup_insert_ne by done.
    + exists s. rewrite Eth. apply lookup_insert_eq.
    + unfold prio_of. rewrite Eth, lookup_insert_eq. simpl. lia.
    + intros l Hl'. apply El. apply Hl'.
  - exists k. split_and!; try done.
    + exists (stat tho). by rewrite set_stat_same.
    + unfold prio_of. rewrite Ho. lia.
Qed.

(** The invariant depends on the mutex, its waiters, and the priorities and
    errors of the threads. *)
Lemma mutex_ok_frame k k' i m : mutex_ok k i m -> k_mutexes k' !! i = Some m ->
  lst k' (LMutex i) = lst k (LMutex i) -> (forall u, prio_of k' u = prio_of k u) ->
  (forall u, is_Some (k_threads k !! u) -> is_Some (k_threads k' !! u)) ->
  (forall u, u ∈ lst k (LMutex i) -> no_error k u -> no_error k' u) -> mutex_ok k' i m.
Proof.
  intros [Hm Hf Hst Hso Hw] Hm' El Ep Ht He. split; rewrite ?El; try done.
  - destruct Hst as [[? ?]|[o Ho]]; [by left|right]. exists o. destruct Ho.
    split; rewrite ?El; try done; [by apply Ht|]. intros HF. eapply inherits_ext; [..|by auto]; intros;
      by rewrite Ep.
  - intros HF. eapply prio_sorted_ext; [|by auto]. done.
  - rewrite Forall_forall in *. auto.
Qed.

Lemma prio_of_put k t th th' u : k_threads k !! t = Some th ->
  current_priority th' = current_priority th -> prio_of (put_thread t th' k) u = prio_of k u.
Proof.
  intros Ht E. unfold prio_of; simpl. rewrite lookup_insert. case_decide; subst; [|done]. by rewrite Ht.
Qed.

Lemma is_Some_put k t th u : is_Some (k_threads k !! u) -> is_Some (k_threads (put_thread t th k) !! u).
Proof. intros Hu. simpl. rewrite lookup_insert. case_decide; eauto. Qed.

(** Writing the caller's error code, when it does not wait on the mutex. *)
Lemma mutex_ok_error k i m t th e : mutex_ok k i m -> k_threads k !! t = Some th ->
  t ∉ lst k (LMutex i) -> mutex_ok (put_thread t (set_error e th) k) i m.
Proof.
  intros Hok Ht Hno. eapply mutex_ok_frame; [done|apply Hok|done|..].
  - intros u. by eapply prio_of_put.
  - intros u. apply is_Some_put.
  - intros u Hu (thu & ? & ?). exists thu. simpl. rewrite lookup_insert_ne; [done|]. by intros ->.
Qed.

(** The mutex as [t] holds it after taking it free. *)
Definition taken_by (t : nat) (p : Z) (m : rt_mutex) : rt_mutex :=
  {| mtx_flag := mtx_flag m; mtx_value := 0; original_priority := p; hold := 1; owner := Some t |}.

Lemma mutex_take_free k i m t th time : mutex_ok k i m -> may_wait k t th -> owner m = None ->
  exists k', rt_mutex_take i time k = Some (Done RT_EOK, k') /\ kok k' /\
    mutex_ok k' i (taken_by t (current_priority th) m) /\ k_current k' = Some t.
Proof.
  intros [Hm Hf Hst _ _] [Hk Hc Ht Hs Hl Hg] Ho.
  destruct Hst as [[Em El]|[o Hw]]; [|destruct Hw; congruence].
  unfold rt_mutex_take, self. erewrite lift_bind by exact Hc.
  erewrite bind_some by (by apply thread_mod_run). unfold mutex_get. erewrite lift_bind by exact Hm.
  rewrite Ho, bool_decide_eq_false_2 by done. unfold mutex_take_again, mutex_get.
  erewrite lift_bind by exact Hm. unfold thread_get. erewrite lift_bind by apply lookup_insert_eq.
  rewrite Em. simpl. eexists. split; [reflexivity|].
  assert (kok (put_thread t (set_error RT_EOK th) k)) as Hk1 by (by eapply kok_put_data).
  split_and!; [by eapply kok_ext| |done].
  pose proof (kok_thread _ _ _ Hk Ht) as (Hp & _).
  assert (forall k', k_lists k' = k_lists k -> lst k' (LMutex i) = []) as El'.
  { intros k' E. unfold lst. rewrite E. exact El. }
  split; try done; rewrite ?El' by done; try done.
  - apply lookup_insert_eq.
  - right. exists t. split; rewrite ?El' by done; try done.
    + simpl. rewrite lookup_insert_eq. by eexists.
    + apply not_elem_of_nil.
    + constructor.
  - constructor.
Qed.

Lemma mutex_take_recursive k i m t th time : mutex_ok k i m -> may_wait k t th ->
  owner m = Some t -> hold m < 2 ^ 8 - 1 ->
  exists k', rt_mutex_take i time k = Some (Done RT_EOK, k') /\ kok k' /\
    mutex_ok k' i (set_hold (hold m + 1) m).
Proof.
  intros Hok [Hk Hc Ht Hs Hl Hg] Ho Hh.
  assert (t ∉ lst k (LMutex i)) as Hno by (by eapply running_not_waiting).
  pose proof (mutex_ok_error k i m t th RT_EOK Hok Ht Hno) as [Hm Hf Hst Hso Hw].
  destruct Hst as [[Em _]|[o Hown]]; [rewrite Em in Ho; done|].
  pose proof Hown as [Hoo Hv Hth Hho Hpr Hno' Hin].
  unfold rt_mutex_take, self. erewrite lift_bind by exact Hc.
  erewrite bind_some by (by apply thread_mod_run). unfold mutex_get. erewrite lift_bind by exact Hm.
  rewrite Ho, bool_decide_eq_true_2 by done. rewrite (wrap_small 8) by lia.
  eexists. split; [reflexivity|].
  assert (kok (put_thread t (set_error RT_EOK th) k)) as Hk1 by (by eapply kok_put_data).
  split; [by eapply kok_ext|]. split; try done.
  - apply lookup_insert_eq.
  - right. exists o. split; try done. simpl. lia.
Qed.

Lemma mutex_take_refused k i m t th o : mutex_ok k i m -> may_wait k t th ->
  owner m = Some o -> o <> t ->
  exists k', rt_mutex_take i 0 k = Some (Done (- RT_ETIMEOUT), k') /\ kok k' /\ mutex_ok k' i m /\
    k_threads k' = <[t := set_error (- RT_ETIMEOUT) th]> (k_threads k).
Proof.
  intros Hok [Hk Hc Ht Hs Hl Hg] Ho Hne.
  assert (t ∉ lst k (LMutex i)) as Hno by (by eapply running_not_waiting).
  pose proof Hok as [Hm Hf Hst _ _].
  destruct Hst as [[Em _]|[o' Hown]]; [rewrite Em in Ho; done|]. destruct Hown as [Hoo Hv].
  exists (put_thread t (set_error (- RT_ETIMEOUT) th) k). split_and!.
  - unfold rt_mutex_take, self. erewrite lift_bind by exact Hc.
    erewrite bind_some by (by apply thread_mod_run). unfold mutex_get. erewrite lift_bind by exact Hm.
    rewrite Ho, bool_decide_eq_false_2 by congruence. unfold mutex_take_again, mutex_get.
    erewrite lift_bind by exact Hm. unfold thread_get. erewrite lift_bind by apply lookup_insert_eq.
    rewrite Hv. simpl. erewrite bind_some by (apply thread_mod_run, lookup_insert_eq).
    unfold mret, M_ret, put_thread. simpl. by rewrite insert_insert_eq.
  - by eapply kok_put_data.
  - by apply mutex_ok_error.
  - done.
Qed.

(** A contended take: the owner inherits the caller's priority, the caller waits. *)
Lemma mutex_take_waits k i m t th o time : mutex_ok k i m -> may_wait k t th ->
  owner m = Some o -> o <> t -> time <> 0 ->
  exists d k', rt_mutex_take i time k = Some (Waits time d, k') /\ kok k' /\ mutex_ok k' i m /\
    highest_running k' /\ k_threads k' !! t = Some (set_stat RT_THREAD_SUSPEND (set_error RT_EOK th)) /\
    t ∈ lst k' (LMutex i) /\ (time > 0 -> expires t time k') /\
    prio_of k' o = Z.min (prio_of k o) (current_priority th).
Proof.
  intros Hok0 Hmw0 Ho Hne Htime.
  pose proof Hmw0 as [Hk0 Hc0 Ht0 Hs0 _ _].
  assert (t ∉ lst k (LMutex i)) as Hno by (by eapply running_not_waiting).
  set (th1 := set_error RT_EOK th). set (k1 := put_thread t th1 k).
  assert (mutex_ok k1 i m) as Hok by (by apply mutex_ok_error).
  assert (may_wait k1 t th1) as Hmw by (by eapply may_wait_data).
  pose proof Hok as [Hm Hf Hst Hso Hwt].
  destruct Hst as [[Em _]|[o' Hown]]; [rewrite Em in Ho; done|].
  assert (o' = o) as -> by (destruct Hown; congruence).
  destruct Hown as [_ Hv [tho Htho] Hho Hpr Hno' Hin].
  destruct (boost_kok k1 t th1 o tho Hmw Htho Hne) as (k2 & E2 & Hmw2 & S2 & Eth2 & [so Hso2] & Hpo & El2).
  assert (forall u, u <> o -> prio_of k2 u = prio_of k1 u) as Ep2
    by (intros u Hu; unfold prio_of; by rewrite Eth2).
  destruct (wait_kok (LMutex i) t th1 (mtx_flag m) time k2 Hmw2 (mutex_wait_list i) Hf)
    as (d & k3 & k4 & E3 & E4 & W & _).
  pose proof W as [Hk4 Hh4 Hc4 S4 Ht4 U4 Q4 _ X4].
  assert (forall u, is_Some (k_threads k2 !! u) -> prio_of k4 u = prio_of k2 u) as Ep4
    by (intros u Hu; by apply upto_stat_prio).
  assert (lst k2 (LMutex i) = lst k1 (LMutex i)) as El by (by apply El2).
  assert (forall u, u ∈ lst k1 (LMutex i) -> u <> o /\ is_Some (k_threads k2 !! u)) as Hwu.
  { intros u Hu. split; [by intros ->|]. rewrite <- El in Hu. by apply (waiters_exist _ _ _ (mw_kok _ _ _ Hmw2)) in Hu. }
  assert (is_Some (k_threads k2 !! t)) as Hst2 by (rewrite (mw_thread _ _ _ Hmw2); eauto).
  rewrite El in Q4. pose proof (queued_perm _ _ _ _ _ Q4) as Hperm.
  exists d, k4. split_and!; try done.
  - unfold rt_mutex_take, self. erewrite lift_bind by exact Hc0.
    erewrite bind_some by (by apply thread_mod_run). fold th1. fold (put_thread t th1 k). fold k1.
    unfold mutex_get. erewrite lift_bind by exact Hm.
    rewrite Ho, bool_decide_eq_false_2 by congruence. unfold mutex_take_again, mutex_get.
    erewrite lift_bind by exact Hm. unfold thread_get. erewrite lift_bind by apply lookup_insert_eq.
    rewrite Hv. simpl. destruct (Z.eqb_spec time 0); [done|].
    rewrite Ho. erewrite lift_bind by done. erewrite lift_bind by exact Htho.
    erewrite bind_some by exact E2. erewrite bind_some by exact E3. by erewrite bind_some by exact E4.
  - split; try done.
    + destruct (ipc_same_parts _ _ S2) as (_&Em2&_), (ipc_same_parts _ _ S4) as (_&->&_). by rewrite Em2.
    + right. exists o. split; try done.
      * destruct (U4 o _ Hso2) as [s' ->]. by eexists.
      * rewrite Hperm, elem_of_cons. naive_solver.
      * intros HF. unfold inherits. rewrite Hperm. rewrite Ep4 by (rewrite Hso2; by eexists).
        constructor.
        -- rewrite Ep4, Hpo by done. unfold prio_of at 2. rewrite (mw_thread _ _ _ Hmw2). simpl. lia.
        -- specialize (Hin HF). unfold inherits in Hin. rewrite Forall_forall in *. intros u Hu.
           destruct (Hwu u Hu). specialize (Hin u Hu). rewrite (Ep4 u), (Ep2 u), Hpo by done. lia.
    + intros HF. rewrite HF in Q4. apply (prio_sorted_ext k2).
      { intros u Hu. apply Ep4. rewrite Hperm, elem_of_cons in Hu.
        destruct Hu as [->|Hu]; [done|by apply Hwu]. }
      eapply queued_sorted; [exact Q4|]. eapply prio_sorted_ext; [|by apply Hso].
      intros u Hu. apply Ep2. by apply Hwu.
    + rewrite Hperm. constructor.
      * eexists. split; [exact Ht4|done].
      * rewrite Forall_forall in *. intros u Hu. apply (no_error_upto k2); [done|].
        destruct (Hwt u Hu) as (thu & ? & ?). exists thu. rewrite Eth2 by (by apply Hwu). done.
  - rewrite Hperm. apply list_elem_of_here.
  - rewrite Ep4, Hpo by (rewrite Hso2; by eexists). f_equal. by eapply prio_of_put.
Qed.

(** ** The steps of [rt_mutex_release] *)

(** Back to the priority the owner had when it took the mutex. *)
Lemma restore_kok k t th p : kok k -> k_threads k !! t = Some th -> 0 <= p < RT_THREAD_PRIORITY_MAX ->
  exists k', when (negb (p =? current_priority th))
      (rt_thread_control t (RT_THREAD_CTRL_CHANGE_PRIORITY p);; mret tt) k = Some (tt, k') /\
    kok k' /\ ipc_same k k' /\ k_current k' = k_current k /\
    (forall u, u <> t -> k_threads k' !! u = k_threads k !! u) /\
    is_Some (k_threads k' !! t) /\ prio_of k' t = p /\
    (forall l, wait_list l -> lst k' l = lst k l).
Proof.
  intros Hk Ht Hp. destruct (Z.eqb_spec p (current_priority th)) as [->|Hne]; simpl.
  - exists k. split_and!; try done. unfold prio_of. by rewrite Ht.
  - destruct (control_priority_kok t th p k Hk Ht Hp) as (k' & E & Hk' & S & Ec & (s & Eth & _) & El).
    exists k'. split_and!; try done.
    + by erewrite bind_some by exact E.
    + intros u Hu. rewrite Eth. by rewrite lookup_insert_ne by done.
    + rewrite Eth, lookup_insert_eq. by eexists.
    + unfold prio_of. by rewrite Eth, lookup_insert_eq.
    + intros l Hl. apply El, Hl.
Qed.

Lemma mutex_release_refused k i m t th : k_current k = Some t -> k_threads k !! t = Some th ->
  k_mutexes k !! i = Some m -> owner m <> Some t ->
  rt_mutex_release i k = Some (- RT_ERROR, put_thread t (set_error (- RT_ERROR) th) k).
Proof.
  intros Hc Ht Hm Ho. unfold rt_mutex_release, self. erewrite lift_bind by exact Hc.
  unfold mutex_get. erewrite lift_bind by exact Hm. rewrite bool_decide_eq_true_2 by done.
  by erewrite bind_some by (by apply thread_mod_run).
Qed.

Section release.
Variables (k : kernel) (i t : nat) (m : rt_mutex) (th : rt_thread).
Hypothesis Hok : mutex_ok k i m.
Hypothesis Hk : kok k.
Hypothesis Hc : k_current k = Some t.
Hypothesis Ht : k_threads k !! t = Some th.
Hypothesis Ho : owner m = Some t.

Lemma release_owned : owned k i m t.
Proof.
  destruct (mo_state _ _ _ Hok) as [[Em _]|[o Hw]]; [rewrite Em in Ho; done|].
  assert (o = t) as -> by (destruct Hw; congruence). done.
Qed.

Let k1 (h : Z) := set_k_mutexes (<[i := set_hold h m]> (k_mutexes k)) k.

Lemma release_start : rt_mutex_release i k =
  (need_schedule ← (if u8 (hold m - 1) =? 0 then
      th ← thread_get t;
      when (negb (original_priority m =? current_priority th))
        (rt_thread_control t (RT_THREAD_CTRL_CHANGE_PRIORITY (original_priority m));; mret tt);;
      e ← rt_list_isempty (LMutex i);
      if negb e then
        next ← rt_list_first (LMutex i);
        thn ← thread_get next;
        mutex_set i (set_owner (Some next) (set_original_priority (current_priority thn)
                      (set_hold (u8 (u8 (hold m - 1) + 1)) (set_hold (u8 (hold m - 1)) m))));;
        rt_ipc_list_resume (LMutex i);;
        mret true
      else
        mutex_set i (set_mtx_value (u16 (mtx_value m + 1))
                      (set_owner None (set_original_priority 0xff (set_hold (u8 (hold m - 1)) m))));;
        mret false
    else mret false);
  when need_schedule rt_schedule;;
  mret RT_EOK) (k1 (u8 (hold m - 1))).
Proof.
  unfold rt_mutex_release, self. erewrite lift_bind by exact Hc. unfold mutex_get.
  erewrite lift_bind by apply Hok. rewrite bool_decide_eq_false_2 by tauto. done.
Qed.

Lemma mutex_release_nested : 1 < hold m -> exists k', rt_mutex_release i k = Some (RT_EOK, k') /\
  kok k' /\ mutex_ok k' i (set_hold (hold m - 1) m) /\ k_threads k' = k_threads k.
Proof.
  intros Hh. pose proof release_owned as Hw. pose proof (ow_hold _ _ _ _ Hw) as Hb.
  exists (k1 (hold m - 1)). split_and!; [|by eapply kok_ext| |done].
  - rewrite release_start, (wrap_small 8) by lia. destruct (Z.eqb_spec (hold m - 1) 0); [lia|done].
  - destruct Hok as [Hm Hf _ Hso Hwt]. split; try done; [apply lookup_insert_eq|].
    right. exists t. destruct Hw. split; try done. simpl. lia.
Qed.

Hypothesis Hone : hold m = 1.

(** The last release: the owner's priority is restored first. *)
Lemma release_restore : exists k2, kok k2 /\ ipc_same (k1 0) k2 /\ k_current k2 = Some t /\
  (forall u, u <> t -> k_threads k2 !! u = k_threads k !! u) /\
  is_Some (k_threads k2 !! t) /\ prio_of k2 t = original_priority m /\
  (forall l, wait_list l -> lst k2 l = lst k l) /\
  rt_mutex_release i k =
  (need_schedule ← (e ← rt_list_isempty (LMutex i);
      if negb e then
        next ← rt_list_first (LMutex i);
        thn ← thread_get next;
        mutex_set i (taken_by next (current_priority thn) (set_hold 0 m));;
        rt_ipc_list_resume (LMutex i);;
        mret true
      else mutex_set i (mutex_fresh (mtx_flag m));; mret false);
  when need_schedule rt_schedule;;
  mret RT_EOK) k2.
Proof.
  pose proof release_owned as Hw.
  destruct (restore_kok (k1 0) t th (original_priority m)) as (k2 & E & Hk2 & S & Ec & Eo & Hs & Hp & El);
    [by eapply kok_ext|done|apply Hw|].
  exists k2. split_and!; try done; [by rewrite Ec|].
  rewrite release_start, Hone. change (u8 (1 - 1)) with 0. cbn [Z.eqb].
  rewrite bind_bind. rewrite (bind_some (thread_get t) _ _ th (k1 0)) by (unfold thread_get, lift; simpl; by rewrite Ht).
  rewrite bind_bind. erewrite bind_some by exact E.
  destruct Hw as [_ Hv _ _ _ _ _]. rewrite Hv. unfold taken_by, mutex_fresh.
  destruct m; simpl in *; subst. done.
Qed.

Lemma mutex_release_free : lst k (LMutex i) = [] -> exists k',
  rt_mutex_release i k = Some (RT_EOK, k') /\ kok k' /\ mutex_ok k' i (mutex_fresh (mtx_flag m)) /\
  prio_of k' t = original_priority m.
Proof.
  intros El. destruct release_restore as (k2 & Hk2 & S & Ec & _ & _ & Hp & El2 & ->).
  unfold rt_list_isempty. erewrite bind_some.
  2:{ erewrite lift_bind by (rewrite El2 by apply mutex_wait_list; by rewrite El). simpl.
      unfold mutex_set. rewrite modify_bind. reflexivity. }
  eexists. split; [reflexivity|]. split_and!; [by eapply kok_ext| |done].
  assert (forall k', k_lists k' = k_lists k2 -> lst k' (LMutex i) = []) as El'.
  { intros k' E. unfold lst. rewrite E. change (lst k2 (LMutex i) = []).
    by rewrite El2 by apply mutex_wait_list. }
  split; rewrite ?El' by done; try done.
  - apply lookup_insert_eq.
  - apply Hok.
  - by left.
  - constructor.
Qed.

(** The hand-over to the first waiter. *)
Lemma mutex_release_handover w ws : lst k (LMutex i) = w :: ws -> exists k',
  rt_mutex_release i k = Some (RT_EOK, k') /\ kok k' /\
  mutex_ok k' i (taken_by w (prio_of k w) m) /\ lst k' (LMutex i) = ws /\
  (exists thw s, k_threads k !! w = Some thw /\ k_threads k' !! w = Some (set_stat s thw) /\
     ready_or_running s) /\
  prio_of k' t = original_priority m /\
  (forall time, rt_mutex_take_resumed i w time k' = Some (Done RT_EOK, k')) /\
  (forall u, u ∈ w :: ws -> prio_of k' u = prio_of k u).
Proof.
  intros El. pose proof release_owned as Hw. pose proof (ow_waits _ _ _ _ Hw) as Hnt.
  destruct Hok as [Hm Hf _ Hso Hwt].
  destruct release_restore as (k2 & Hk2 & S & Ec & Eth & Hst & Hp & El2 & ->).
  assert (forall u, u ∈ w :: ws -> u <> t) as Hne by (intros u Hu ->; by rewrite El in Hnt).
  assert (lst k2 (LMutex i) = w :: ws) as El2' by (rewrite El2 by apply mutex_wait_list; done).
  assert (w <> t) as Hwt' by apply Hne, list_elem_of_here.
  destruct (waiter_thread (LMutex i) w k2) as (thw & Hthw & _);
    [done|apply mutex_wait_list|rewrite El2'; apply list_elem_of_here|].
  pose proof Hthw as Hthw0. rewrite Eth in Hthw0 by done.
  assert (prio_of k w = current_priority thw) as Epw by (unfold prio_of; by rewrite Hthw0).
  set (k3 := set_k_mutexes (<[i := taken_by w (current_priority thw) m]> (k_mutexes k2)) k2).
  assert (kok k3) as Hk3 by (by eapply kok_ext).
  destruct (wake_kok (LMutex i) w ws k3 t Hk3 Ec (mutex_wait_list i) El2') as (k4 & k5 & E4 & E5 & W).
  exists k5. pose proof W as [Hk5 S5 _ _ U5 El5 _].
  assert (forall u, is_Some (k_threads k2 !! u) -> prio_of k5 u = prio_of k2 u) as Ep5
    by (intros u Hu; by apply (upto_stat_prio k3)).
  assert (forall u, u ∈ w :: ws -> prio_of k5 u = prio_of k u) as Epk.
  { intros u Hu. rewrite Ep5.
    - unfold prio_of. by rewrite Eth by (by apply Hne).
    - rewrite <- El2' in Hu. by apply (waiters_exist _ _ _ Hk2) in Hu. }
  assert (Forall (no_error k5) (w :: ws)) as Herr.
  { rewrite El in Hwt. rewrite Forall_forall in *. intros u Hu. apply (no_error_upto k3); [done|].
    destruct (Hwt u Hu) as (thu & ? & ?). exists thu. simpl. by rewrite Eth by (by apply Hne). }
  split_and!; try done.
  - unfold rt_list_isempty, rt_list_first, thread_get. erewrite bind_some.
    2:{ erewrite lift_bind by (by rewrite El2'). simpl. erewrite lift_bind by (by rewrite El2').
        erewrite lift_bind by exact Hthw. unfold mutex_set. rewrite modify_bind.
        change (taken_by w (current_priority thw) (set_hold 0 m)) with (taken_by w (current_priority thw) m).
        fold k3. erewrite bind_some by exact E4. reflexivity. }
    rewrite when_bind. by erewrite bind_some by exact E5.
  - rewrite Epw. split; rewrite ?El5; try done.
    + destruct (ipc_same_parts _ _ S5) as (_ & -> & _). apply lookup_insert_eq.
    + right. exists w. split; rewrite ?El5; try done.
      * destruct (U5 w _ Hthw) as [s ->]. by eexists.
      * simpl. apply (kok_thread _ _ _ Hk2 Hthw).
      * pose proof (ki_nodup _ _ (proj1 Hk2) (LMutex i)) as Hnd. rewrite El2' in Hnd.
        by apply NoDup_cons in Hnd as [? _].
      * simpl. intros HF. specialize (Hso HF). rewrite El in Hso.
        inversion_clear Hso as [|? ? _ Hfa]. unfold inherits. rewrite Forall_forall in *.
        intros u Hu. rewrite !Epk; [auto|by apply list_elem_of_further|apply list_elem_of_here].
    + simpl. intros HF. specialize (Hso HF). rewrite El in Hso. inversion_clear Hso as [|? ? Hss _].
      eapply prio_sorted_ext; [|exact Hss]. intros u Hu. apply Epk. by apply list_elem_of_further.
    + by apply Forall_cons in Herr as [_ ?].
  - destruct (wk_live _ _ _ _ _ W) as (thw' & s & Hw1 & Hw2 & Hs).
    change (k_threads k3) with (k_threads k2) in Hw1. rewrite Hthw in Hw1. injection Hw1 as <-.
    by exists thw, s.
  - by rewrite Ep5.
  - intros time. apply Forall_cons in Herr as [(th5 & Hth5 & He5) _].
    unfold rt_mutex_take_resumed, thread_get. erewrite lift_bind by exact Hth5. by rewrite He5.
Qed.
End release.

(** C3: [rt_mutex_take] on every branch.  A free mutex is taken; its owner takes
    it again (up to 255 times); for another thread a zero timeout fails with
    [-RT_ETIMEOUT]; otherwise the caller waits and the owner's priority becomes
    the better of its own and the caller's.  Priority inheritance is part of
    [mutex_ok], which every branch keeps. *)
Theorem rt_mutex_take_correct k i m t th time : mutex_ok k i m -> may_wait k t th ->
  (owner m = None -> exists k', rt_mutex_take i time k = Some (Done RT_EOK, k') /\ kok k' /\
     mutex_ok k' i (taken_by t (current_priority th) m)) /\
  (owner m = Some t -> hold m < 2 ^ 8 - 1 -> exists k',
     rt_mutex_take i time k = Some (Done RT_EOK, k') /\ kok k' /\ mutex_ok k' i (set_hold (hold m + 1) m)) /\
  (forall o, owner m = Some o -> o <> t -> time = 0 -> exists k',
     rt_mutex_take i time k = Some (Done (- RT_ETIMEOUT), k') /\ kok k' /\ mutex_ok k' i m) /\
  (forall o, owner m = Some o -> o <> t -> time <> 0 -> exists d k',
     rt_mutex_take i time k = Some (Waits time d, k') /\ kok k' /\ mutex_ok k' i m /\
     highest_running k' /\ t ∈ lst k' (LMutex i) /\ (time > 0 -> expires t time k') /\
     prio_of k' o = Z.min (prio_of k o) (current_priority th)).
Proof.
  intros Hok Hmw. split_and!.
  - intros Ho. destruct (mutex_take_free k i m t th time) as (k' & ? & ? & ? & _); try done. by exists k'.
  - intros Ho Hh. by apply (mutex_take_recursive k i m t th).
  - intros o Ho Hne ->. destruct (mutex_take_refused k i m t th o) as (k' & ? & ? & ? & _); try done. by exists k'.
  - intros o Ho Hne Ht.
    destruct (mutex_take_waits k i m t th o time) as (d & k' & ? & ? & ? & ? & _ & ? & ? & ?); try done.
    by exists d, k'.
Qed.

(** C4: [rt_mutex_release] on every branch.  A thread that is not the owner is
    refused; a nested release only counts down; the last one gives the owner its
    original priority back and frees the mutex, or hands it over to the first
    waiter, whose pending [rt_mutex_take] returns [RT_EOK]. *)
Theorem rt_mutex_release_correct k i m t th : mutex_ok k i m -> kok k -> k_current k = Some t ->
  k_threads k !! t = Some th ->
  (owner m <> Some t ->
     rt_mutex_release i k = Some (- RT_ERROR, put_thread t (set_error (- RT_ERROR) th) k)) /\
  (owner m = Some t -> 1 < hold m -> exists k', rt_mutex_release i k = Some (RT_EOK, k') /\ kok k' /\
     mutex_ok k' i (set_hold (hold m - 1) m) /\ k_threads k' = k_threads k) /\
  (owner m = Some t -> hold m = 1 -> lst k (LMutex i) = [] -> exists k',
     rt_mutex_release i k = Some (RT_EOK, k') /\ kok k' /\ mutex_ok k' i (mutex_fresh (mtx_flag m)) /\
     prio_of k' t = original_priority m) /\
  (forall w ws, owner m = Some t -> hold m = 1 -> lst k (LMutex i) = w :: ws -> exists k',
     rt_mutex_release i k = Some (RT_EOK, k') /\ kok k' /\
     mutex_ok k' i (taken_by w (prio_of k w) m) /\ lst k' (LMutex i) = ws /\
     (exists thw s, k_threads k !! w = Some thw /\ k_threads k' !! w = Some (set_stat s thw) /\
        ready_or_running s) /\
     prio_of k' t = original_priority m /\
     (forall time, rt_mutex_take_resumed i w time k' = Some (Done RT_EOK, k'))).
Proof.
  intros Hok Hk Hc Ht. split_and!.
  - intros Ho. apply (mutex_release_refused k i m); [done..|apply Hok|done].
  - intros Ho Hh. by apply mutex_release_nested with (t := t).
  - intros Ho Hh El. by apply mutex_release_free with (th := th).
  - intros w ws Ho Hh El.
    destruct (mutex_release_handover k i t m th Hok Hk Hc Ht Ho Hh w ws El) as (k' & H).
    exists k'. destruct_and! H. by split_and!.
Qed.

(** On a mutex with a FIFO queue the hand-over does not look at the other
    waiters: when the first waiter has a worse priority than one behind it, the
    new owner keeps its own priority and the better waiter is held up by it
    (priority inversion). *)
Theorem rt_mutex_fifo_inversion k i m t th w ws u : mutex_ok k i m -> kok k -> k_current k = Some t ->
  k_threads k !! t = Some th -> owner m = Some t -> hold m = 1 ->
  lst k (LMutex i) = w :: ws -> u ∈ ws -> prio_of k u < prio_of k w ->
  exists k', rt_mutex_release i k = Some (RT_EOK, k') /\
    k_mutexes k' !! i = Some (taken_by w (prio_of k w) m) /\
    u ∈ lst k' (LMutex i) /\ prio_of k' u < prio_of k' w.
Proof.
  intros Hok Hk Hc Ht Ho Hh El Hu Hp.
  destruct (mutex_release_handover k i t m th Hok Hk Hc Ht Ho Hh w ws El)
    as (k' & E & _ & Hok' & El' & _ & _ & _ & Ep).
  exists k'. split_and!; [done|apply Hok'|by rewrite El'|].
  rewrite !Ep; [done|apply list_elem_of_here|by apply list_elem_of_further].
Qed.

(** ** Instances *)

(** Thread 2 holds the mutex of the demo kernel; thread 0 runs. *)
Definition mtx2 : rt_mutex :=
  {| mtx_flag := RT_IPC_FLAG_PRIO; mtx_value := 0; original_priority := 20; hold := 1; owner := Some 2%nat |}.
Definition demo_mutex : kernel := set_k_mutexes (<[0%nat := mtx2]> ∅) demo.

Lemma demo_mutex_wait : may_wait demo_mutex 0 demo_main.
Proof.
  split; [apply (kok_ext demo); [apply demo_kok|done..]|done|vm_compute; reflexivity|done|done|].
  vm_compute. discriminate.
Qed.

Lemma demo_mutex_ok : mutex_ok demo_mutex 0 mtx2.
Proof.
  split; [vm_compute; reflexivity|by right|right; exists 2%nat| |vm_compute; constructor].
  - split; [done|done|vm_compute; by eexists|done|done|vm_compute; apply not_elem_of_nil|intros _; vm_compute; constructor].
  - intros _. vm_compute. constructor.
Qed.

Lemma rt_mutex_take_correct_witness : exists d k',
  rt_mutex_take 0 5 demo_mutex = Some (Waits 5 d, k') /\ kok k' /\ mutex_ok k' 0 mtx2 /\
  highest_running k' /\ 0%nat ∈ lst k' (LMutex 0) /\ (5 > 0 -> expires 0 5 k') /\
  prio_of k' 2 = Z.min (prio_of demo_mutex 2) (current_priority demo_main).
Proof.
  apply (rt_mutex_take_correct demo_mutex 0 mtx2 0 demo_main 5 demo_mutex_ok demo_mutex_wait);
    [reflexivity|lia|lia].
Defined.

(** Thread 0 holds it; threads 2 and 1 wait, in this order. *)
Definition mtx0 : rt_mutex :=
  {| mtx_flag := RT_IPC_FLAG_FIFO; mtx_value := 0; original_priority := 10; hold := 1; owner := Some 0%nat |}.
Definition demo_both : kernel :=
  default demo (snd <$> (rt_thread_suspend 1;; rt_thread_suspend 2) demo).
Definition demo_queue : kernel :=
  set_k_mutexes (<[0%nat := mtx0]> ∅)
    (set_k_lists (<[LMutex 0 := [2%nat; 1%nat]]> (k_lists demo_both)) demo_both).

Lemma demo_both_kok : kok demo_both.
Proof.
  destruct (suspend_kok 1 (set_stat RT_THREAD_READY (live_thread 10)) demo) as (k1 & E1 & Hk1 & _ & _ & Eth & _);
    [apply demo_kok|vm_compute; reflexivity|by left|].
  destruct (suspend_kok 2 (set_stat RT_THREAD_READY (live_thread 20)) k1) as (k2 & E2 & Hk2 & _);
    [done|rewrite Eth; vm_compute; reflexivity|by left|].
  unfold demo_both. by rewrite (bind_some _ _ _ _ _ E1), E2.
Qed.

Definition asleep_thread (p : Z) : rt_thread := set_stat RT_THREAD_SUSPEND (live_thread p).

Lemma off_list t k : forallb (fun l => negb (existsb (Nat.eqb t) l)) (snd <$> map_to_list (k_lists k)) = true ->
  in_no_list t k.
Proof.
  intros Hf l Hin. unfold lst in Hin. destruct (k_lists k !! l) as [ts|] eqn:E;
    [simpl in Hin|by apply not_elem_of_nil in Hin].
  rewrite forallb_forall in Hf. specialize (Hf ts). rewrite <- list_elem_of_In in Hf.
  apply elem_of_map_to_list in E. specialize (Hf ltac:(apply list_elem_of_fmap; by exists (l, ts))).
  apply negb_true_iff in Hf. rewrite <- not_true_iff_false in Hf. apply Hf.
  apply existsb_exists. exists t. rewrite <- list_elem_of_In. split; [done|]. apply Nat.eqb_refl.
Qed.

Lemma demo_queue_kok : kok demo_queue.
Proof.
  assert (kok (set_k_lists (<[LMutex 0 := [1%nat]]> (k_lists demo_both)) demo_both)) as H1.
  { apply (link_kok 1 (asleep_thread 10)); [apply demo_both_kok|vm_compute; reflexivity|done| |apply mutex_wait_list|
      vm_compute; reflexivity]. apply off_list. vm_compute. reflexivity. }
  set (k1 := set_k_lists (<[LMutex 0 := [1%nat]]> (k_lists demo_both)) demo_both) in *.
  assert (kok (set_k_lists (<[LMutex 0 := [2%nat; 1%nat]]> (k_lists k1)) k1)) as H2.
  { apply (link_kok 2 (asleep_thread 20)); [done|vm_compute; reflexivity|done| |apply mutex_wait_list|
      vm_compute; reflexivity]. apply off_list. vm_compute. reflexivity. }
  apply (kok_ext _ demo_queue) in H2; [done|done| |done..]. simpl. by rewrite insert_insert_eq.
Qed.

Lemma demo_queue_ok : mutex_ok demo_queue 0 mtx0.
Proof.
  assert (lst demo_queue (LMutex 0) = [2%nat; 1%nat]) as El by (vm_compute; reflexivity).
  split; rewrite ?El; [vm_compute; reflexivity|by left|right; exists 0%nat|done|].
  - split; rewrite ?El; try done. rewrite !not_elem_of_cons.
    split_and!; [done|done|apply not_elem_of_nil].
  - repeat constructor; eexists; (split; [vm_compute; reflexivity|reflexivity]).
Qed.

Lemma rt_mutex_release_correct_witness : exists k',
  rt_mutex_release 0 demo_queue = Some (RT_EOK, k') /\ kok k' /\
  mutex_ok k' 0 (taken_by 2 (prio_of demo_queue 2) mtx0) /\ lst k' (LMutex 0) = [1%nat] /\
  (exists thw s, k_threads demo_queue !! 2%nat = Some thw /\ k_threads k' !! 2%nat = Some (set_stat s thw) /\
     ready_or_running s) /\
  prio_of k' 0 = 10 /\
  (forall time, rt_mutex_take_resumed 0 2 time k' = Some (Done RT_EOK, k')).
Proof.
  apply (rt_mutex_release_correct demo_queue 0 mtx0 0 demo_main demo_queue_ok demo_queue_kok);
    [vm_compute; reflexivity|vm_compute; reflexivity|reflexivity|reflexivity|vm_compute; reflexivity].
Defined.

Lemma rt_mutex_fifo_inversion_witness : exists k', rt_mutex_release 0 demo_queue = Some (RT_EOK, k') /\
  k_mutexes k' !! 0%nat = Some (taken_by 2 (prio_of demo_queue 2) mtx0) /\
  1%nat ∈ lst k' (LMutex 0) /\ prio_of k' 1 < prio_of k' 2.
Proof.
  apply (rt_mutex_fifo_inversion demo_queue 0 mtx0 0 demo_main 2 [1%nat] 1 demo_queue_ok demo_queue_kok);
    [vm_compute; reflexivity|vm_compute; reflexivity|reflexivity|reflexivity|vm_compute; reflexivity|
     apply list_elem_of_here|vm_compute; reflexivity].
Defined.
