(* ===== verification/EventTheorems.v ===== *)
(** * What event sets guarantee

    [deliver] is the abstract specification of a delivery: a pass over the
    waiters in queue order, each of which takes what it asked for and may clear
    it.  [rt_event_send] implements it, and afterwards no thread waits for what
    is already there ([event_ok]). *)

From S2P Require Import Prelude Kernel Sched Object Thread ThreadInv ThreadSpec Ipc.
From S2P Require Import IpcInv SemTheorems Demo.

(** ** The abstract delivery *)

Definition event_got (info set have : Z) : Z :=
  if flag_set info RT_EVENT_FLAG_AND then set else Z.land set have.

Definition event_left (info got have : Z) : Z :=
  if flag_set info RT_EVENT_FLAG_CLEAR then Z.land have (wnot 32 got) else have.

(** The events that remain, the threads woken with what they got, and the
    threads that go on waiting. *)
Fixpoint deliver (m : gmap nat rt_thread) (have : Z) (l : list nat) : Z * list (nat * Z) * list nat :=
  match l with
  | [] => (have, [], [])
  | t :: l =>
      let th := default (mk_thread 0 0 0 0 0 0 0 0 0 false) (m !! t) in
      if event_match (event_info th) (event_set th) have then
        let got := event_got (event_info th) (event_set th) have in
        let '(h, w, r) := deliver m (event_left (event_info th) got have) l in
        (h, (t, got) :: w, r)
      else
        let '(h, w, r) := deliver m have l in (h, w, t :: r)
  end.

(** Fewer events satisfy fewer requests. *)
Definition sub_events (a b : Z) : Prop := Z.land a b = a.

Lemma sub_events_trans a b c : sub_events a b -> sub_events b c -> sub_events a c.
Proof. unfold sub_events. intros H1 H2. by rewrite <- H1, <- Z.land_assoc, H2. Qed.

Lemma event_match_mono info set a b : sub_events a b -> event_match info set a = true ->
  event_match info set b = true.
Proof.
  unfold sub_events, event_match. intros Hs. destruct (flag_set info RT_EVENT_FLAG_AND).
  - rewrite !Z.eqb_eq. intros E. rewrite <- E at 1. rewrite <- Z.land_assoc, Hs. done.
  - destruct (flag_set info RT_EVENT_FLAG_OR); [|done]. rewrite !negb_true_iff, !Z.eqb_neq.
    intros Hne E. apply Hne. rewrite <- Hs, (Z.land_comm a b), Z.land_assoc, E. done.
Qed.

Lemma event_left_sub info got have : sub_events (event_left info got have) have.
Proof.
  unfold sub_events, event_left. destruct (flag_set _ _); [|apply Z.land_diag].
  by rewrite <- Z.land_assoc, (Z.land_comm _ have), Z.land_assoc, Z.land_diag.
Qed.

Lemma deliver_sub m l : forall have h w r, deliver m have l = (h, w, r) -> sub_events h have.
Proof.
  induction l as [|t l IH]; intros have h w r; simpl.
  - intros [= <- _ _]. apply Z.land_diag.
  - destruct (event_match _ _ _).
    + destruct (deliver _ _ l) as [[h' w'] r'] eqn:E. intros [= <- _ _].
      eapply sub_events_trans; [by eapply IH|apply event_left_sub].
    + destruct (deliver _ _ l) as [[h' w'] r'] eqn:E. intros [= <- _ _]. by eapply IH.
Qed.

(** Whoever still waits is not satisfied by what remains. *)
Lemma deliver_unsatisfied m l : forall have h w r, deliver m have l = (h, w, r) ->
  Forall (fun t => exists th, default (mk_thread 0 0 0 0 0 0 0 0 0 false) (m !! t) = th /\
    event_match (event_info th) (event_set th) h = false) r.
Proof.
  induction l as [|t l IH]; intros have h w r; simpl.
  - intros [= _ _ <-]. constructor.
  - destruct (event_match _ _ have) eqn:Em.
    + destruct (deliver _ _ l) as [[h' w'] r'] eqn:E. intros [= <- _ <-]. by eapply IH.
    + destruct (deliver _ _ l) as [[h' w'] r'] eqn:E. intros [= <- _ <-].
      constructor; [|by eapply IH]. eexists. split; [done|]. apply not_true_is_false. intros Hc.
      pose proof (deliver_sub _ _ _ _ _ _ E) as Hs.
      by rewrite (event_match_mono _ _ _ _ Hs Hc) in Em.
Qed.

Lemma deliver_ext m m' l : (forall t, t ∈ l -> m' !! t = m !! t) -> forall have,
  deliver m' have l = deliver m have l.
Proof.
  induction l as [|t l IH]; intros He have; [done|]. simpl.
  rewrite (He t) by apply list_elem_of_here.
  assert (forall u, u ∈ l -> m' !! u = m !! u) as He' by (intros u Hu; apply He; by apply list_elem_of_further).
  by rewrite !(IH He').
Qed.

Lemma deliver_members m l : forall have h w r, deliver m have l = (h, w, r) ->
  (forall t, t ∈ w.*1 -> t ∈ l) /\ (forall t, t ∈ r -> t ∈ l).
Proof.
  induction l as [|t l IH]; intros have h w r; simpl; [by intros [= _ <- <-]|].
  destruct (event_match _ _ have); destruct (deliver _ _ l) as [[h' w'] r'] eqn:E;
    intros [= _ <- <-]; destruct (IH _ _ _ _ E); set_solver.
Qed.

Lemma deliver_disjoint m l : NoDup l -> forall have h w r, deliver m have l = (h, w, r) ->
  forall t, t ∈ r -> t ∉ w.*1.
Proof.
  induction 1 as [|t l Hnt Hnd IH]; intros have h w r; simpl;
    [intros [= _ _ <-] u Hu; by apply not_elem_of_nil in Hu|].
  destruct (event_match _ _ have); destruct (deliver _ _ l) as [[h' w'] r'] eqn:E;
    intros [= _ <- <-]; destruct (deliver_members _ _ _ _ _ _ E) as [Hw Hr]; intros u Hu; simpl.
  - rewrite not_elem_of_cons. split; [intros ->; auto|by eapply IH].
  - apply elem_of_cons in Hu as [->|Hu]; [auto|by eapply IH].
Qed.

(** ** The loop of [rt_event_send] *)

Lemma event_wait_list i : wait_list (LEvent i).
Proof. by split. Qed.

(** The state after a delivery. *)
Record delivered (i : nat) (e : rt_event) (w : list (nat * Z)) (k k' : kernel) : Prop := {
  dl_kok : kok k';
  dl_events : k_events k' = <[i := e]> (k_events k);
  dl_current : k_current k' = k_current k;
  dl_woken : forall t got, (t, got) ∈ w -> exists th s, k_threads k !! t = Some th /\
    k_threads k' !! t = Some (set_stat s (set_event_set got th)) /\ ready_or_running s;
  dl_others : forall t, t ∉ w.*1 -> k_threads k' !! t = k_threads k !! t
}.

(** Delivering to one waiter. *)
Lemma deliver_one k i e t th l1 l2 : kok k -> k_events k !! i = Some e ->
  lst k (LEvent i) = l1 ++ t :: l2 -> k_threads k !! t = Some th ->
  event_match (event_info th) (event_set th) (ev_set e) = true ->
  let got := event_got (event_info th) (event_set th) (ev_set e) in
  let e' := set_ev_set (event_left (event_info th) got (ev_set e)) e in
  exists k', delivered i e' [(t, got)] k k' /\ lst k' (LEvent i) = l1 ++ l2 /\
    forall need l, event_send_loop i (t :: l) need k = event_send_loop i l true k'.
Proof.
  intros Hk He El Ht Em got e'.
  set (th1 := set_event_set got th). set (k1 := put_thread t th1 k).
  assert (kok k1) as Hk1 by (by eapply kok_put_data).
  set (k2 := set_k_events (<[i := e']> (k_events k1)) k1).
  assert (kok k2) as Hk2 by (by eapply kok_ext).
  destruct (resume_waiter (LEvent i) t l1 l2 k2 Hk2 (event_wait_list i) El) as (k3 & E3 & W & Ec & th3 & Ht3 & Eth3).
  assert (th3 = th1) as ->.
  { change (k_threads k2) with (<[t := th1]> (k_threads k)) in Ht3. rewrite lookup_insert_eq in Ht3. congruence. }
  pose proof W as [Hk3 S3 _ _ _ El3 _].
  exists k3. split_and!; [split| |].
  - done.
  - by destruct (ipc_same_parts _ _ S3) as (_ & _ & -> & _).
  - by rewrite Ec.
  - intros u g [= -> ->]%list_elem_of_singleton. exists th, (live_stat t k2).
    split_and!; [done|rewrite Eth3; apply lookup_insert_eq|apply live_stat_live].
  - intros u Hu. rewrite Eth3, lookup_insert_ne by (simpl in Hu; set_solver). simpl.
    rewrite lookup_insert_ne by (simpl in Hu; set_solver). done.
  - done.
  - intros need l. cbn [event_send_loop]. unfold thread_get, event_get.
    erewrite lift_bind by exact Ht. erewrite lift_bind by exact He. rewrite Em.
    rewrite when_bind.
    assert (forall B (f : unit -> M B), (if negb (flag_set (event_info th) RT_EVENT_FLAG_AND)
      then (thread_mod t (set_event_set (Z.land (event_set th) (ev_set e))) ≫= f) k else f tt k) = f tt k1) as ->.
    { intros B f. unfold k1, th1, got, event_got. destruct (flag_set _ RT_EVENT_FLAG_AND); simpl.
      - f_equal. unfold put_thread. replace (set_event_set (event_set th) th) with th by (by destruct th).
        rewrite insert_id by done. by destruct k.
      - by erewrite bind_some by (by apply thread_mod_run). }
    erewrite lift_bind by (apply lookup_insert_eq). rewrite when_bind.
    change (event_info th1) with (event_info th). change (event_set th1) with got.
    assert (forall B (f : unit -> M B), (if flag_set (event_info th) RT_EVENT_FLAG_CLEAR
      then (event_put i (set_ev_set (Z.land (ev_set e) (wnot 32 got)) e) ≫= f) k1 else f tt k1) = f tt k2) as ->.
    { intros B f. unfold k2, e', event_left. destruct (flag_set _ RT_EVENT_FLAG_CLEAR); [done|].
      f_equal. replace (set_ev_set (ev_set e) e) with e by (by destruct e).
      rewrite insert_id by done. by destruct k1. }
    by erewrite bind_some by exact E3.
Qed.

Lemma send_loop_deliver i l : forall k e pre need h w r, kok k -> k_events k !! i = Some e ->
  lst k (LEvent i) = pre ++ l -> deliver (k_threads k) (ev_set e) l = (h, w, r) ->
  exists k', event_send_loop i l need k = Some (need || bool_decide (w <> []), k') /\
    delivered i (set_ev_set h e) w k k' /\ lst k' (LEvent i) = pre ++ r.
Proof.
  induction l as [|t l IH]; intros k e pre need h w r Hk He El Hd.
  { simpl in Hd. injection Hd as <- <- <-. exists k. simpl. rewrite orb_false_r. split_and!; try done.
    split; try done.
    - replace (set_ev_set (ev_set e) e) with e by (by destruct e). by rewrite insert_id.
    - intros t got Hin. by apply not_elem_of_nil in Hin. }
  assert (t ∈ lst k (LEvent i)) as Hin by (rewrite El; apply elem_of_app; right; apply list_elem_of_here).
  destruct (waiter_thread (LEvent i) t k Hk (event_wait_list i) Hin) as (th & Ht & _).
  pose proof (ki_nodup _ _ (proj1 Hk) (LEvent i)) as Hnd. rewrite El in Hnd.
  apply NoDup_app in Hnd as (_ & _ & Hnd). apply NoDup_cons in Hnd as [Hnt _].
  simpl in Hd. rewrite Ht in Hd. simpl in Hd.
  destruct (event_match (event_info th) (event_set th) (ev_set e)) eqn:Em.
  - set (got := event_got (event_info th) (event_set th) (ev_set e)) in *.
    destruct (deliver (k_threads k) (event_left (event_info th) got (ev_set e)) l) as [[h' w'] r'] eqn:Ed.
    injection Hd as <- <- <-.
    destruct (deliver_one k i e t th pre l Hk He El Ht Em) as (k1 & D1 & El1 & Estep). fold got in D1.
    set (e1 := set_ev_set (event_left (event_info th) got (ev_set e)) e) in *.
    destruct D1 as [Hk1 Ev1 Ec1 Hw1 Ho1].
    destruct (IH k1 e1 pre true h' w' r') as (k' & E' & [Hk' Ev' Ec' Hw' Ho'] & El'); [done| |done| |].
    { rewrite Ev1. apply lookup_insert_eq. }
    { rewrite <- Ed. apply deliver_ext. intros u Hu. apply Ho1. simpl. intros ->%list_elem_of_singleton. done. }
    destruct (deliver_members _ _ _ _ _ _ Ed) as [Hmw _].
    assert (t ∉ w'.*1) as Htw by (intros Hc; by apply Hnt, Hmw).
    exists k'. split_and!; [|split|done].
    + rewrite Estep, E'. by rewrite orb_true_r.
    + done.
    + rewrite Ev', Ev1, insert_insert_eq. done.
    + by rewrite Ec', Ec1.
    + intros u g [[= -> ->]|Hug]%elem_of_cons.
      * destruct (Hw1 t got) as (th1 & s & ? & ? & ?); [apply list_elem_of_here|].
        exists th1, s. by rewrite Ho'.
      * destruct (Hw' u g Hug) as (th1 & s & Hth1 & ? & ?). exists th1, s. split_and!; try done.
        rewrite <- Hth1. symmetry. apply Ho1. simpl. intros ->%list_elem_of_singleton.
        apply Htw. apply list_elem_of_fmap. by exists (t, g).
    + intros u [Hut Huw]%not_elem_of_cons. rewrite Ho', Ho1; [done| |done]. simpl.
      by intros ?%list_elem_of_singleton.
  - destruct (deliver (k_threads k) (ev_set e) l) as [[h' w'] r'] eqn:Ed. injection Hd as <- <- <-.
    destruct (IH k e (pre ++ [t]) need h' w' r') as (k' & E' & D & El'); [done|done| |done|].
    { by rewrite <- app_assoc. }
    exists k'. split_and!; [|done|by rewrite <- app_assoc in El'].
    cbn [event_send_loop]. unfold thread_get, event_get. erewrite lift_bind by exact Ht.
    erewrite lift_bind by exact He. by rewrite Em.
Qed.

(** ** The invariant and the operations *)

Definition unsatisfied (k : kernel) (have : Z) (t : nat) : Prop := exists th,
  k_threads k !! t = Some th /\ event_match (event_info th) (event_set th) have = false.

Record event_ok (k : kernel) (i : nat) (e : rt_event) : Prop := {
  eo_event : k_events k !! i = Some e;
  eo_flag : ipc_flag (ev_flag e);
  eo_set : 0 <= ev_set e < 2 ^ 32;
  eo_waiters : Forall (no_error k) (lst k (LEvent i));
  eo_unsat : Forall (unsatisfied k (ev_set e)) (lst k (LEvent i))
}.

Lemma unsatisfied_upto k k' h t : upto_stat k k' -> unsatisfied k h t -> unsatisfied k' h t.
Proof. intros H (th & Ht & He). destruct (H t th Ht) as [s Hs]. by exists (set_stat s th). Qed.

Lemma event_left_bounds info got have : 0 <= have < 2 ^ 32 -> 0 <= event_left info got have < 2 ^ 32.
Proof.
  intros Hh. unfold event_left. destruct (flag_set _ _); [|done].
  rewrite Z.land_comm. apply land_bounds; lia.
Qed.

Lemma deliver_bounds m l : forall have h w r, 0 <= have < 2 ^ 32 -> deliver m have l = (h, w, r) ->
  0 <= h < 2 ^ 32.
Proof.
  induction l as [|t l IH]; intros have h w r Hb; simpl; [by intros [= <- _ _]|].
  destruct (event_match _ _ have); destruct (deliver _ _ l) as [[h' w'] r'] eqn:E; intros [= <- _ _];
    eapply IH; [|exact E| |exact E]; [by apply event_left_bounds|done].
Qed.

(** The loop of [rt_event_send] and the scheduling behind it; threads that are not
    woken keep everything but their status. *)
Lemma event_send_ok k i e set c h w r : event_ok k i e -> kok k -> k_current k = Some c ->
  set <> 0 -> 0 <= set < 2 ^ 32 ->
  deliver (k_threads k) (Z.lor (ev_set e) set) (lst k (LEvent i)) = (h, w, r) ->
  exists k', rt_event_send i set k = Some (RT_EOK, k') /\ kok k' /\
    event_ok k' i (set_ev_set h e) /\ lst k' (LEvent i) = r /\
    (forall t got, (t, got) ∈ w -> (exists th, k_threads k' !! t = Some th /\ ready_or_running (stat th)) /\
      rt_event_recv_resumed t k' = Some ((RT_EOK, Some got), k')) /\
    is_Some (k_current k') /\ (forall u th, u ∉ w.*1 -> k_threads k !! u = Some th -> exists s, k_threads k' !! u = Some (set_stat s th)).
Proof.
  intros [He Hf Hb Hw Hu] Hk Hc Hne Hset Hd.
  set (e1 := set_ev_set (Z.lor (ev_set e) set) e).
  set (k1 := set_k_events (<[i := e1]> (k_events k)) k).
  assert (kok k1) as Hk1 by (by eapply kok_ext).
  destruct (send_loop_deliver i (lst k1 (LEvent i)) k1 e1 [] false h w r) as (k2 & E2 & D & El2);
    [done|apply lookup_insert_eq|done|done|].
  pose proof D as [Hk2 Ev2 Ec2 Hw2 Ho2].
  assert (exists k3, when (bool_decide (w <> [])) rt_schedule k2 = Some (tt, k3) /\ kok k3 /\ sched_rel k2 k3)
    as (k3 & E3 & Hk3 & R).
  { case_bool_decide; simpl; [|exists k2; split_and!; try done; apply sched_rel_refl].
    destruct (schedule_kok k2 c Hk2) as (k3 & ? & ? & ? & _); [by rewrite Ec2|]. by exists k3. }
  assert (lst k3 (LEvent i) = r) as El3 by (rewrite (sr_wait _ _ R) by apply (event_wait_list i); done).
  pose proof (deliver_members _ _ _ _ _ _ Hd) as [Hmw Hmr].
  assert (forall t, t ∈ r -> upto_stat k2 k3 /\ k_threads k2 !! t = k_threads k !! t) as Hr.
  { intros t Ht. split; [by apply upto_stat_sched|]. apply Ho2.
    by apply (deliver_disjoint _ _ (ki_nodup _ _ (proj1 Hk) _) _ _ _ _ Hd). }
  exists k3. split_and!; try done.
  - unfold rt_event_send. destruct (Z.eqb_spec set 0); [done|]. unfold event_get.
    erewrite lift_bind by exact He. unfold event_put. rewrite modify_bind. fold e1. fold k1. rewrite get_bind.
    erewrite bind_some by exact E2. simpl. by erewrite bind_some by exact E3.
  - split; rewrite ?El3; try done.
    + rewrite (sr_frame _ _ R). simpl. rewrite Ev2. apply lookup_insert_eq.
    + simpl. eapply deliver_bounds; [|exact Hd]. apply lor_bounds; lia.
    + rewrite Forall_forall in *. intros t Ht. destruct (Hr t Ht) as [U Et].
      apply (no_error_upto k2); [done|]. destruct (Hw t (Hmr t Ht)) as (th & ? & ?). exists th. by rewrite Et.
    + pose proof (deliver_unsatisfied _ _ _ _ _ _ Hd) as Hun. rewrite Forall_forall in *. intros t Ht.
      destruct (Hr t Ht) as [U Et]. apply (unsatisfied_upto k2); [done|].
      destruct (Hun t Ht) as (th & Hth & Hm). destruct (Hw t (Hmr t Ht)) as (th' & Hth' & _).
      exists th. rewrite Et. rewrite Hth' in *. simpl in Hth. subst. done.
  - intros t got Hin. destruct (Hw2 t got Hin) as (th & s & Ht & Ht2 & Hs).
    destruct (sched_rel_live k2 k3 t (set_event_set got th) s R Ht2 Hs) as (s' & Ht3 & Hs').
    split; [by eexists|].
    assert (t ∈ lst k (LEvent i)) as Htl by (apply Hmw, list_elem_of_fmap; by exists (t, got)).
    rewrite Forall_forall in Hw. destruct (Hw t Htl) as (th' & Hth' & Herr).
    change (k_threads k1) with (k_threads k) in Ht. simplify_eq.
    unfold rt_event_recv_resumed, thread_get. erewrite lift_bind by exact Ht3. simpl. by rewrite Herr.
  - apply (sr_current _ _ R). by rewrite Ec2.
  - intros u th Hnw Hth. destruct (upto_stat_sched _ _ R u th) as [s Hs]; [by rewrite Ho2|]. by exists s.
Qed.


(** [rt_event_recv] on every branch: a request that is met returns the
    matching events at once and clears them if asked to; one that is not returns
    [-RT_ETIMEOUT] with a zero timeout, and otherwise is recorded and the caller
    waits.  The invariant is kept: nobody waits for events that are present. *)
Theorem rt_event_recv_correct k i e t th set option timeout : event_ok k i e -> may_wait k t th ->
  set <> 0 ->
  (event_match option set (ev_set e) = true -> exists k',
     rt_event_recv i set option timeout k = Some (Done (RT_EOK, Some (Z.land (ev_set e) set)), k') /\
     kok k' /\ event_ok k' i (set_ev_set (event_left option set (ev_set e)) e)) /\
  (event_match option set (ev_set e) = false -> timeout = 0 -> exists k',
     rt_event_recv i set option timeout k = Some (Done (- RT_ETIMEOUT, None), k') /\
     kok k' /\ event_ok k' i e) /\
  (event_match option set (ev_set e) = false -> timeout <> 0 ->
     let th' := set_event_info option (set_event_set set (set_error RT_EOK th)) in
     exists d k', rt_event_recv i set option timeout k = Some (Waits timeout d, k') /\
       waits_on (LEvent i) t th' (ev_flag e) timeout (put_thread t th' k) k' /\ event_ok k' i e).
Proof.
  intros [He Hf Hb Hw Hu] Hmw Hne. pose proof Hmw as [Hk Hc Ht Hs _ _].
  assert (in_no_list t k) as Hno by (eapply stat_no_list; [apply Hk|done|by right]).
  assert (forall th', event_ok (put_thread t th' k) i e) as Hput.
  { intros th'. split; try done; rewrite Forall_forall in *; intros u Hin; (assert (u <> t) by (intros ->; by eapply Hno)).
    - destruct (Hw u Hin) as (thu & ? & ?). exists thu. simpl. by rewrite lookup_insert_ne by done.
    - destruct (Hu u Hin) as (thu & ? & ?). exists thu. simpl. by rewrite lookup_insert_ne by done. }
  assert (forall th', stat th' = stat th -> current_priority th' = current_priority th ->
    init_priority th' = init_priority th -> number_mask th' = number_mask th -> kok (put_thread t th' k)) as Hkp.
  { intros th' ????. by eapply kok_put_data. }
  unfold rt_event_recv. destruct (Z.eqb_spec set 0); [done|]. unfold self. erewrite lift_bind by exact Hc.
  erewrite bind_some by (by apply thread_mod_run). unfold event_get. erewrite lift_bind by exact He.
  set (th1 := set_error RT_EOK th). fold (put_thread t th1 k). split_and!.
  - intros ->. rewrite when_bind. unfold event_left, thread_get.
    destruct (Hput th1) as [_ _ _ Hw1 Hu1].
    destruct (flag_set option RT_EVENT_FLAG_CLEAR).
    + unfold event_put. rewrite modify_bind. erewrite lift_bind by apply lookup_insert_eq.
      eexists. split; [reflexivity|]. split; [eapply kok_ext; [by apply (Hkp th1)|done..]|]. split; try done.
      * apply lookup_insert_eq.
      * simpl. rewrite Z.land_comm. apply land_bounds; lia.
      * rewrite Forall_forall in *. intros u Hin. destruct (Hu1 u Hin) as (thu & Hthu & Hm).
        exists thu. split; [done|]. apply not_true_is_false. intros Hcon.
        assert (event_match (event_info thu) (event_set thu) (ev_set e) = true); [|congruence].
        eapply event_match_mono; [|exact Hcon]. apply (event_left_sub RT_EVENT_FLAG_CLEAR set).
    + erewrite lift_bind by apply lookup_insert_eq.
      eexists. split; [reflexivity|]. split; [by apply (Hkp th1)|].
      replace (set_ev_set (ev_set e) e) with e by (by destruct e). apply (Hput th1).
  - intros -> ->. simpl. erewrite bind_some by (apply thread_mod_run, lookup_insert_eq).
    unfold thread_get. erewrite lift_bind by apply lookup_insert_eq.
    eexists. split; [reflexivity|]. simpl. rewrite insert_insert_eq.
    change (set_k_threads ?x (put_thread t th1 k)) with (set_k_threads x k).
    change (set_k_threads (<[t := ?x]> (k_threads k)) k) with (put_thread t x k).
    split; [by apply Hkp|apply Hput].
  - intros Hmf Hto. set (th' := set_event_info option (set_event_set set th1)). rewrite Hmf. destruct (Z.eqb_spec timeout 0); [done|].
    erewrite bind_some by (apply thread_mod_run, lookup_insert_eq). simpl. rewrite insert_insert_eq.
    change (set_k_threads ?x (put_thread t th1 k)) with (set_k_threads x k).
    change (set_k_threads (<[t := ?x]> (k_threads k)) k) with (put_thread t x k). fold th'.
    assert (may_wait (put_thread t th' k) t th') as Hmw1 by (by eapply may_wait_data).
    destruct (wait_kok (LEvent i) t th' (ev_flag e) timeout _ Hmw1 (event_wait_list i) Hf)
      as (d & k2 & k3 & E1 & E2 & W & _).
    erewrite bind_some by exact E1. erewrite bind_some by exact E2.
    exists d, k3. split_and!; try done.
    destruct (Hput th') as [_ _ _ Hw1 Hu1].
    pose proof (queued_perm _ _ _ _ _ (wo_queued _ _ _ _ _ _ _ W)) as Hp. split; try done.
    + destruct (ipc_same_parts _ _ (wo_ipc _ _ _ _ _ _ _ W)) as (_ & _ & -> & _). exact He.
    + apply (queued_no_error _ t th' (ev_flag e) timeout (put_thread t th' k)); [done|apply lookup_insert_eq|exact W|exact Hw1].
    + rewrite Hp. constructor; [eexists; split; [apply W|exact Hmf]|].
      rewrite Forall_forall in *. intros u Hin. apply (unsatisfied_upto (put_thread t th' k)); [apply W|].
      by apply Hu1.
Qed.

(** ** Instances *)

Definition ev0 : rt_event := {| ev_flag := RT_IPC_FLAG_FIFO; ev_set := 0 |}.
Definition demo_event : kernel := set_k_events (<[0%nat := ev0]> ∅) demo.

Lemma demo_event_wait : may_wait demo_event 0 demo_main.
Proof.
  split; [apply (kok_ext demo); [apply demo_kok|done..]|done|vm_compute; reflexivity|done|done|].
  vm_compute. discriminate.
Qed.

Lemma demo_event_ok : event_ok demo_event 0 ev0.
Proof. split; [vm_compute; reflexivity|by left|done|vm_compute; constructor|vm_compute; constructor]. Qed.

(** Thread 0 asks for the events 1 and 2 together, and clears them. *)
Definition opts : Z := Z.lor RT_EVENT_FLAG_AND RT_EVENT_FLAG_CLEAR.

Lemma rt_event_recv_correct_witness :
  let th' := set_event_info opts (set_event_set 3 (set_error RT_EOK demo_main)) in
  exists d k', rt_event_recv 0 3 opts 5 demo_event = Some (Waits 5 d, k') /\
    waits_on (LEvent 0) 0 th' RT_IPC_FLAG_FIFO 5 (put_thread 0 th' demo_event) k' /\ event_ok k' 0 ev0.
Proof.
  apply (rt_event_recv_correct demo_event 0 ev0 0 demo_main 3 opts 5 demo_event_ok demo_event_wait);
    [lia|reflexivity|lia].
Defined.

(** The state while it waits. *)
Definition demo_listener : kernel := default demo_event (snd <$> rt_event_recv 0 3 opts (-1) demo_event).

Lemma demo_listener_kok : kok demo_listener.
Proof.
  set (th' := set_event_info opts (set_event_set 3 (set_error RT_EOK demo_main))).
  assert (may_wait (put_thread 0 th' demo_event) 0 th') as Hmw.
  { eapply may_wait_data; [apply demo_event_wait|done..]. }
  destruct (wait_kok (LEvent 0) 0 th' RT_IPC_FLAG_FIFO (-1) _ Hmw (event_wait_list 0) ltac:(by left))
    as (d & k2 & k3 & E1 & E2 & W & _).
  assert (rt_event_recv 0 3 opts (-1) demo_event = Some (Waits (-1) d, k3)) as E.
  { unfold rt_event_recv. simpl. unfold self. erewrite lift_bind by reflexivity.
    erewrite bind_some by (apply thread_mod_run; vm_compute; reflexivity).
    unfold event_get. erewrite lift_bind by (vm_compute; reflexivity). simpl.
    erewrite bind_some by (apply thread_mod_run, lookup_insert_eq). simpl. rewrite insert_insert_eq.
    change (set_k_threads ?x (set_k_threads _ demo_event)) with (set_k_threads x demo_event).
    erewrite bind_some by exact E1. by erewrite bind_some by exact E2. }
  unfold demo_listener. rewrite E. apply W.
Qed.

Lemma demo_listener_ok : event_ok demo_listener 0 ev0.
Proof.
  assert (lst demo_listener (LEvent 0) = [0%nat]) as El by (vm_compute; reflexivity).
  split; rewrite ?El; [vm_compute; reflexivity|by left|done|..];
    (constructor; [eexists; split; [vm_compute; reflexivity|reflexivity]|constructor]).
Qed.

