(* ===== verification/AutoBoot.v ===== *)
(** * Booting by itself: main/main.c

    The main thread looks at an event five times, half a second each.  The console,
    the network and a key notify the event; without a notification the firmware is
    booted.  [boot_turn] is one turn of the loop up to the point where the thread
    waits, [boot_resumed] what it does when it runs again. *)

From S2P Require Import Prelude Kernel Sched Object Thread Ipc Device.

Definition BOOT_BREAK_BY_UART : Z := 0.
Definition BOOT_BREAK_BY_NET : Z := 1.
Definition BOOT_BREAK_BY_KEY : Z := 2.

Section boot_break.
Variable boot_break_event : nat.

Definition boot_break_net_notisfy : M unit := rt_event_send boot_break_event (Z.shiftl 1 BOOT_BREAK_BY_NET);; mret tt.
Definition boot_break_uart_notisfy : M unit := rt_event_send boot_break_event (Z.shiftl 1 BOOT_BREAK_BY_UART);; mret tt.
Definition boot_break_key_notisfy : M unit := rt_event_send boot_break_event (Z.shiftl 1 BOOT_BREAK_BY_KEY);; mret tt.

Definition break_mask : Z := Z.lor (Z.shiftl 1 BOOT_BREAK_BY_UART) (Z.lor (Z.shiftl 1 BOOT_BREAK_BY_NET) (Z.shiftl 1 BOOT_BREAK_BY_KEY)).
Definition break_option : Z := Z.lor RT_EVENT_FLAG_OR RT_EVENT_FLAG_CLEAR.

(** In front of the loop, inside rt_event_recv, behind the loop. *)
Inductive boot_state := BLoop (delay_count flag : Z) | BWait (delay_count flag : Z) | BEnd (break_flag : Z).

Definition boot_check (delay_count flag : Z) : boot_state :=
  if flag_set flag (Z.shiftl 1 BOOT_BREAK_BY_NET) then BEnd 1
  else if flag_set flag (Z.shiftl 1 BOOT_BREAK_BY_UART) then BEnd 1
  else if flag_set flag (Z.shiftl 1 BOOT_BREAK_BY_KEY) then BEnd 1
  else BLoop delay_count flag.

Definition boot_turn (delay_count flag : Z) : M boot_state :=
  if delay_count =? 0 then mret (BEnd 0)
  else
    r ← rt_event_recv boot_break_event break_mask break_option (RT_TICK_PER_SECOND / 2);
    match r with
    | Done (_, recved) => mret (boot_check (delay_count - 1) (default flag recved))
    | Waits _ _ => mret (BWait (delay_count - 1) flag)
    end.

Definition boot_resumed (thread : nat) (delay_count flag : Z) : M boot_state :=
  '(_, recved) ← rt_event_recv_resumed thread; mret (boot_check delay_count (default flag recved)).

(** The loop is entered with a count of 5 and no flags. *)
Definition boot_start : boot_state := BLoop 5 0.
End boot_break.

(** ** The console *)

Section console.
Context {W : Type}.

(** "uart-dev" *)
Definition RT_CONSOLE_DEVICE_NAME : list Z := [117; 97; 114; 116; 45; 100; 101; 118].

Definition boot_break_enter : D W (option nat) :=
  o ← rt_device_find RT_CONSOLE_DEVICE_NAME;
  match o with
  | None => mret None
  | Some dev =>
      r ← rt_device_open dev (Z.lor RT_DEVICE_OFLAG_RDWR (Z.lor RT_DEVICE_FLAG_INT_RX RT_DEVICE_FLAG_STREAM));
      if r =? RT_EOK then rt_device_set_rx_indicate dev (Some fn_boot_break_uart_notisfy);; mret (Some dev) else mret (Some dev)
  end.

Definition boot_break_leave (o : option nat) : D W unit :=
  match o with None => mret tt | Some dev => rt_device_close dev;; rt_device_set_rx_indicate dev None;; mret tt end.
End console.
