(* ===== verification/AutoBootSpec.v ===== *)
(** * What the loop of the main thread guarantees

    The loop runs among other threads and interrupts, which notify the event, let the
    timer of the main thread run out, or do anything else.  [boot_run] are the runs
    of all of these, as lists of steps.  The firmware is booted exactly when the
    timer has run out five times before the first notification. *)

From S2P Require Import Prelude Kernel Sched Object Thread ThreadInv ThreadSpec Ipc IpcInv SemTheorems EventTheorems Demo Device DeviceSpec AutoBoot.

(** One of the three events. *)
Definition seen (x : Z) : bool := negb (Z.land break_mask x =? 0).

#[local] Arguments boot_check : simpl never.
#[local] Arguments seen : simpl never.

Lemma boot_check_seen dc f : boot_check dc f = if seen f then BEnd 1 else BLoop dc f.
Proof.
  unfold boot_check, flag_set, seen. rewrite (Z.land_comm break_mask f). unfold break_mask. rewrite !Z.land_lor_distr_r.
  destruct (Z.eqb_spec (Z.land f (Z.shiftl 1 BOOT_BREAK_BY_NET)) 0) as [E1|E1]; simpl.
  2:{ rewrite (proj2 (Z.eqb_neq _ _)); [done|]. rewrite !Z.lor_eq_0_iff. tauto. }
  destruct (Z.eqb_spec (Z.land f (Z.shiftl 1 BOOT_BREAK_BY_UART)) 0) as [E2|E2]; simpl.
  2:{ rewrite (proj2 (Z.eqb_neq _ _)); [done|]. rewrite !Z.lor_eq_0_iff. tauto. }
  destruct (Z.eqb_spec (Z.land f (Z.shiftl 1 BOOT_BREAK_BY_KEY)) 0) as [E3|E3]; simpl.
  2:{ rewrite (proj2 (Z.eqb_neq _ _)); [done|]. rewrite !Z.lor_eq_0_iff. tauto. }
  by rewrite E1, E2, E3.
Qed.

Lemma match_seen have : event_match break_option break_mask have = seen have.
Proof. reflexivity. Qed.

Lemma seen_got have : seen (Z.land have break_mask) = seen have.
Proof. unfold seen. by rewrite Z.land_assoc, (Z.land_comm _ have), <- Z.land_assoc, Z.land_diag, Z.land_comm. Qed.

Inductive boot_label := Look | Resume | Notify | Timeout | Others.

#[export] Instance boot_label_eq_dec : EqDecision boot_label.
Proof. solve_decision. Defined.

Section runs.
Variables (ev t : nat).

(** ** Runs *)

(** What goes on besides: it keeps the kernel consistent and leaves the event, its
    waiters and the data of the main thread alone. *)
Definition others (k k' : kernel) : Prop := kok k' /\ is_Some (k_current k') /\
  k_events k' !! ev = k_events k !! ev /\ lst k' (LEvent ev) = lst k (LEvent ev) /\
  forall th, k_threads k !! t = Some th -> exists s, k_threads k' !! t = Some (set_stat s th).

Inductive boot_step : boot_label -> boot_state * kernel -> boot_state * kernel -> Prop :=
  | step_look dc f th k b' k' : may_wait k t th -> boot_turn ev dc f k = Some (b', k') -> boot_step Look (BLoop dc f, k) (b', k')
  | step_resume dc f th k b' k' : k_current k = Some t -> k_threads k !! t = Some th -> stat th = RT_THREAD_RUNNING ->
      boot_resumed t dc f k = Some (b', k') -> boot_step Resume (BWait dc f, k) (b', k')
  | step_notify notisfy b k k' : notisfy ∈ [boot_break_uart_notisfy ev; boot_break_net_notisfy ev; boot_break_key_notisfy ev] ->
      notisfy k = Some (tt, k') -> boot_step Notify (b, k) (b, k')
  | step_timeout dc f k k' : t ∈ lst k (LEvent ev) -> inl t ∉ k_timer_list k -> rt_thread_timeout t k = Some (tt, k') ->
      boot_step Timeout (BWait dc f, k) (BWait dc f, k')
  | step_others b k k' : others k k' -> boot_step Others (b, k) (b, k').

Inductive boot_run (x : boot_state * kernel) : list boot_label -> boot_state * kernel -> Prop :=
  | run_nil : boot_run x [] x
  | run_snoc tr y l z : boot_run x tr y -> boot_step l y z -> boot_run x (tr ++ [l]) z.

(** How often the timer has run out before the first notification; [pending]: there
    is one from the beginning. *)
Fixpoint quiet (pending : bool) (tr : list boot_label) : Z :=
  if pending then 0
  else match tr with [] => 0 | Notify :: _ => 0 | Timeout :: tr => 1 + quiet false tr | _ :: tr => quiet false tr end.

Definition notified (pending : bool) (tr : list boot_label) : bool := pending || bool_decide (Notify ∈ tr).
Definition looks (tr : list boot_label) : Z := Z.of_nat (length (filter (fun l => l = Look) tr)).

(** ** The invariant *)

Definition phase (sent : bool) (q : Z) (b : boot_state) (k : kernel) (e : rt_event) : Prop :=
  match b with
  | BLoop dc f => 0 <= dc /\ seen f = false /\ lst k (LEvent ev) = [] /\ seen (ev_set e) = sent /\ q = 5 - dc /\ is_Some (k_threads k !! t)
  | BWait dc f => 0 <= dc /\ seen f = false /\ exists th, k_threads k !! t = Some th /\
      ((lst k (LEvent ev) = [t] /\ sent = false /\ q = 4 - dc /\ error th = RT_EOK /\ event_info th = break_option /\ event_set th = break_mask /\
        seen (ev_set e) = false)
       \/ (lst k (LEvent ev) = [] /\ sent = true /\ q = 4 - dc /\ error th = RT_EOK /\ seen (event_set th) = true)
       \/ (lst k (LEvent ev) = [] /\ q = 5 - dc /\ error th <> RT_EOK /\ seen (ev_set e) = sent))
  | BEnd v => True
  end.

Definition boot_inv (sent : bool) (q : Z) (b : boot_state) (k : kernel) : Prop :=
  match b with
  | BEnd v => v = if q <? 5 then 1 else 0
  | _ => kok k /\ is_Some (k_current k) /\ exists e, event_ok k ev e /\ phase sent q b k e
  end.

Lemma event_ok_empty k e : k_events k !! ev = Some e -> ipc_flag (ev_flag e) -> 0 <= ev_set e < 2 ^ 32 -> lst k (LEvent ev) = [] -> event_ok k ev e.
Proof. intros He Hf Hb El. split; try done; rewrite El; constructor. Qed.

Lemma quiet_snoc p tr l : quiet p (tr ++ [l]) = quiet p tr + (if negb (notified p tr) && bool_decide (l = Timeout) then 1 else 0).
Proof.
  unfold notified. destruct p; simpl; [by destruct tr|]. induction tr as [|x tr IH]; simpl.
  - by destruct l.
  - assert (bool_decide (Notify ∈ x :: tr) = bool_decide (Notify = x) || bool_decide (Notify ∈ tr)) as ->.
    { rewrite <- bool_decide_or. apply bool_decide_ext. apply elem_of_cons. }
    destruct x; simpl; rewrite ?IH; (done || lia).
Qed.

Lemma notified_snoc p tr l : notified p (tr ++ [l]) = notified p tr || bool_decide (l = Notify).
Proof.
  unfold notified. rewrite <- orb_assoc. f_equal. rewrite <- bool_decide_or. apply bool_decide_ext.
  rewrite elem_of_app, list_elem_of_singleton. naive_solver.
Qed.

(** ** The steps *)

Lemma turn_ok dc f th k e sent q : event_ok k ev e -> phase sent q (BLoop dc f) k e -> may_wait k t th ->
  exists b' k', boot_turn ev dc f k = Some (b', k') /\ boot_inv sent q b' k' /\
    match b' with BLoop _ _ => False | BWait dc' _ => dc' = dc - 1 /\ expires t (RT_TICK_PER_SECOND / 2) k' | BEnd _ => True end.
Proof.
  intros Hok (Hdc & Hf & El & Hs & Hq & _) Hmw. unfold boot_turn. destruct (Z.eqb_spec dc 0) as [->|Hne].
  { exists (BEnd 0), k. split_and!; [done| |done]. simpl. by rewrite (proj2 (Z.ltb_ge q 5)) by lia. }
  destruct (rt_event_recv_correct k ev e t th break_mask break_option (RT_TICK_PER_SECOND / 2) Hok Hmw) as (H1 & _ & H2); [done|].
  rewrite match_seen, Hs in H1, H2. destruct sent.
  - destruct (H1 eq_refl) as (k' & E & _). exists (BEnd 1), k'. split_and!; [|simpl; by rewrite (proj2 (Z.ltb_lt q 5)) by lia|done].
    erewrite bind_some by exact E. simpl. by rewrite boot_check_seen, seen_got, Hs.
  - destruct (H2 eq_refl ltac:(done)) as (d & k' & E & W & Hok'). pose proof W as [Hk Hh _ _ Hth _ Hqu _ Hx].
    exists (BWait (dc - 1) f), k'. split_and!; [by erewrite bind_some by exact E| |done|by apply Hx].
    split_and!; [done|destruct Hh as (c & ? & -> & _); by eexists|]. exists e. split; [done|]. split_and!; [lia|done|].
    eexists. split; [exact Hth|]. left. change (lst (put_thread _ _ k) (LEvent ev)) with (lst k (LEvent ev)) in Hqu.
    rewrite El in Hqu. apply queued_perm, Permutation_singleton_r in Hqu. by split_and!; [..|lia| | | |].
Qed.

Lemma boot_resumed_ok dc f th k e sent q : phase sent q (BWait dc f) k e -> k_threads k !! t = Some th -> t ∉ lst k (LEvent ev) ->
  exists b', boot_resumed t dc f k = Some (b', k) /\ match b' with BLoop dc' f' => dc' = dc /\ phase sent q b' k e | BWait _ _ => False | BEnd v => v = if q <? 5 then 1 else 0 end.
Proof.
  intros (Hdc & Hf & th' & Hth' & Hcase) Hth Hin. assert (th' = th) as -> by congruence. unfold boot_resumed, rt_event_recv_resumed, thread_get.
  rewrite bind_bind. erewrite lift_bind by exact Hth.
  destruct Hcase as [(El & _)|[(El & -> & -> & Herr & Hs)|(El & -> & Herr & Hs)]].
  - rewrite El in Hin. by destruct Hin; apply list_elem_of_singleton.
  - rewrite Herr. simpl. exists (BEnd 1). cbv [mbind M_bind mret M_ret]. rewrite boot_check_seen. simpl. rewrite Hs. split; [done|]. by rewrite (proj2 (Z.ltb_lt _ _)) by lia.
  - destruct (Z.eqb_spec (error th) RT_EOK); [done|]. simpl. exists (BLoop dc f). cbv [mbind M_bind mret M_ret]. rewrite boot_check_seen. simpl. rewrite Hf.
    split; [done|]. split; [done|]. split_and!; (done || by eexists).
Qed.

Lemma notify_cases notisfy k k' : notisfy ∈ [boot_break_uart_notisfy ev; boot_break_net_notisfy ev; boot_break_key_notisfy ev] ->
  notisfy k = Some (tt, k') -> exists set r, 0 <= set < 2 ^ 32 /\ set <> 0 /\ (forall x, seen (Z.lor x set) = true) /\ rt_event_send ev set k = Some (r, k').
Proof.
  assert (forall set, rt_event_send ev set ≫= (fun _ => mret tt) = (fun k => match rt_event_send ev set k with Some (_, k1) => Some (tt, k1) | None => None end)) as E by done.
  assert (forall j, j ∈ [0; 1; 2] -> forall x, seen (Z.lor x (Z.shiftl 1 j)) = true) as Hseen.
  { intros j Hj x. unfold seen. rewrite Z.land_lor_distr_r. apply negb_true_iff, Z.eqb_neq. intros [_ E0]%Z.lor_eq_0_iff. revert E0.
    rewrite !elem_of_cons, elem_of_nil in Hj. by destruct Hj as [->|[->|[->|[]]]]. }
  assert (forall j, j ∈ [0; 1; 2] -> 0 <= Z.shiftl 1 j < 2 ^ 32 /\ Z.shiftl 1 j <> 0) as Hb.
  { intros j Hj. rewrite !elem_of_cons, elem_of_nil in Hj. by destruct Hj as [->|[->|[->|[]]]]. }
  rewrite !elem_of_cons, elem_of_nil. intros Hn.
  assert (exists j, j ∈ [0; 1; 2] /\ notisfy = (rt_event_send ev (Z.shiftl 1 j);; mret tt)) as (j & Hj & ->).
  { destruct Hn as [->|[->|[->|[]]]]; [exists 0|exists 1|exists 2]; (split; [set_solver|reflexivity]). }
  rewrite E. destruct (rt_event_send ev (Z.shiftl 1 j) k) as [[r k1]|] eqn:Es; [|done]. intros [= <-].
  exists (Z.shiftl 1 j), r. split; [by apply Hb|]. split; [by apply Hb|]. split; [by apply Hseen|done].
Qed.

(** A notification. *)
Lemma notify_ok set r sent q b k k' : 0 <= set < 2 ^ 32 -> set <> 0 -> (forall x, seen (Z.lor x set) = true) ->
  rt_event_send ev set k = Some (r, k') -> boot_inv sent q b k -> boot_inv true q b k'.
Proof.
  intros Hb Hne Hseen E Hinv. destruct b as [dc f|dc f|v]; [| |exact Hinv].
  - destruct Hinv as (Hk & [c Hc] & e & Hok & Hdc & Hf & El & Hs & Hq & [th Hth]).
    destruct (event_send_ok k ev e set c (Z.lor (ev_set e) set) [] [] Hok Hk Hc Hne Hb) as (k1 & E1 & Hk1 & Hok1 & El1 & _ & Hc1 & Hu); [by rewrite El|].
    simplify_eq. split_and!; [done..|]. eexists. split; [exact Hok1|]. split_and!; [done|done|done|apply Hseen|done|].
    destruct (Hu t th) as [s ->]; [apply not_elem_of_nil|done|by eexists].
  - destruct Hinv as (Hk & [c Hc] & e & Hok & Hdc & Hf & th & Hth & [(El & -> & Hq & Herr & Hi & Hset & Hns)|Hcase]).
    + assert (deliver (k_threads k) (Z.lor (ev_set e) set) (lst k (LEvent ev)) =
        (event_left break_option (Z.land break_mask (Z.lor (ev_set e) set)) (Z.lor (ev_set e) set), [(t, Z.land break_mask (Z.lor (ev_set e) set))], [])) as Hd.
      { rewrite El. simpl. rewrite Hth. simpl. rewrite Hi, Hset, match_seen, Hseen. reflexivity. }
      destruct (event_send_ok k ev e set c _ _ _ Hok Hk Hc Hne Hb Hd) as (k1 & E1 & Hk1 & Hok1 & El1 & Hw & Hc1 & _). simplify_eq.
      destruct (Hw t (Z.land break_mask (Z.lor (ev_set e) set)) ltac:(by apply list_elem_of_singleton)) as [(th1 & Hth1 & _) Hres].
      unfold rt_event_recv_resumed, thread_get in Hres. erewrite lift_bind in Hres by exact Hth1.
      destruct (Z.eqb_spec (error th1) RT_EOK) as [E0|]; [|done]. simpl in Hres. injection Hres as _ Hgot.
      split_and!; [done..|]. eexists. split; [exact Hok1|]. split_and!; [done|done|]. exists th1. split; [done|]. right. left.
      split_and!; try done. rewrite Hgot, Z.land_comm, seen_got. apply Hseen.
    + assert (lst k (LEvent ev) = []) as El by (destruct Hcase as [[-> _]|[-> _]]; done).
      destruct (event_send_ok k ev e set c (Z.lor (ev_set e) set) [] [] Hok Hk Hc Hne Hb) as (k1 & E1 & Hk1 & Hok1 & El1 & _ & Hc1 & Hu); [by rewrite El|].
      simplify_eq. destruct (Hu t th) as [s Hs]; [apply not_elem_of_nil|done|].
      split_and!; [done..|]. eexists. split; [exact Hok1|]. split_and!; [done|done|]. eexists. split; [exact Hs|]. right.
      destruct Hcase as [(_ & _ & Hq & Herr & Hset)|(_ & Hq & Herr & _)]; [by left|]. right. split_and!; try done. apply Hseen.
Qed.

Lemma timeout_ok sent q dc f k k' : t ∈ lst k (LEvent ev) -> inl t ∉ k_timer_list k -> rt_thread_timeout t k = Some (tt, k') ->
  boot_inv sent q (BWait dc f) k -> sent = false /\ boot_inv sent (q + 1) (BWait dc f) k'.
Proof.
  intros Hin Hti E (Hk & [c Hc] & e & Hok & Hdc & Hf & th & Hth & Hcase).
  destruct Hcase as [(El & -> & Hq & Herr & _ & _ & Hns)|Hcase].
  2:{ destruct Hcase as [[El _]|[El _]]; rewrite El in Hin; by apply not_elem_of_nil in Hin. }
  split; [done|]. destruct (waiter_thread (LEvent ev) t k Hk (event_wait_list ev) Hin) as (th' & Hth' & Hst). assert (th' = th) as -> by congruence.
  destruct (timeout_kok t th k c Hk Hc Hth Hst Hti) as (k1 & k2 & E2 & Hk2 & S2 & Eth & Ec & R & _ & Els). rewrite E in E2. injection E2 as <-.
  split; [done|]. split; [apply (sr_current _ _ R); by rewrite Ec|]. exists e. destruct Hok as [He Hfl Hb _ _].
  assert (lst k' (LEvent ev) = []) as El'. { rewrite Els by apply event_wait_list. rewrite El, filter_cons, decide_False by naive_solver. done. }
  split; [apply event_ok_empty; try done; by destruct (ipc_same_parts _ _ S2) as (_ & _ & -> & _)|].
  split; [done|]. split; [done|].
  destruct (sr_thread _ _ R t (set_stat (live_stat t k) (timed_out th))) as (s & Hs & _); [rewrite Eth; apply lookup_insert_eq|].
  eexists. split; [exact Hs|]. right. right. split_and!; [done|lia|done|done].
Qed.

Lemma others_ok sent q b k k' : others k k' -> boot_inv sent q b k -> boot_inv sent q b k'.
Proof.
  intros (Hk' & Hc' & Ee & El & Hu) Hinv. destruct b as [dc f|dc f|v]; [| |exact Hinv].
  - destruct Hinv as (Hk & _ & e & [He Hfl Hb _ _] & Hdc & Hf & El0 & Hs & Hq & [th Hth]). split_and!; [done..|]. exists e.
    split; [apply event_ok_empty; congruence|]. split_and!; [done|done|congruence|done|done|]. destruct (Hu th Hth) as [s ->]. by eexists.
  - destruct Hinv as (Hk & _ & e & [He Hfl Hb Hw Hun] & Hdc & Hf & th & Hth & Hcase). split_and!; [done..|]. exists e.
    destruct (Hu th Hth) as [s Hs]. split.
    + split; try done; [congruence|..]; rewrite El.
      * destruct Hcase as [[E0 (_ & _ & Herr & _)]|[[E0 _]|[E0 _]]]; rewrite E0; try constructor; [|constructor]. by eexists.
      * destruct Hcase as [[E0 (_ & _ & _ & Hi & Hset & Hns)]|[[E0 _]|[E0 _]]]; rewrite E0; try constructor; [|constructor].
        eexists. split; [exact Hs|]. simpl. by rewrite Hi, Hset, match_seen.
    + split; [done|]. split; [done|]. eexists. split; [exact Hs|]. by rewrite El.
Qed.

Definition rank (b : boot_state) : Z := match b with BLoop dc _ => dc + 1 | BWait dc _ => dc + 1 | BEnd _ => 0 end.

Lemma inv_rank sent q b k : boot_inv sent q b k -> 0 <= rank b.
Proof. destruct b; simpl; [|..|lia]; intros (_ & _ & e & _ & Hdc & _); lia. Qed.

Lemma looks_snoc tr l : looks (tr ++ [l]) = looks tr + (if decide (l = Look) then 1 else 0).
Proof. unfold looks. rewrite filter_app, length_app, filter_cons. case_decide; simpl; lia. Qed.

Lemma running_off th k : kok k -> k_threads k !! t = Some th -> stat th = RT_THREAD_RUNNING -> t ∉ lst k (LEvent ev).
Proof.
  intros Hk Hth Hs Hin. destruct (waiter_thread _ _ _ Hk (event_wait_list ev) Hin) as (th' & Hth' & Hs').
  rewrite Hth in Hth'. injection Hth' as <-. by rewrite Hs in Hs'.
Qed.

Lemma step_inv sent q l b k b' k' : boot_inv sent q b k -> boot_step l (b, k) (b', k') ->
  boot_inv (sent || bool_decide (l = Notify)) (q + (if negb sent && bool_decide (l = Timeout) then 1 else 0)) b' k' /\
  rank b' + (if decide (l = Look) then 1 else 0) <= rank b.
Proof.
  intros Hinv Hst. pose proof (inv_rank _ _ _ _ Hinv) as Hr.
  inversion Hst as [dc f th k1 b1 k1' Hmw E|dc f th k1 b1 k1' Hc Hth Hs E|notisfy b1 k1 k1' Hn E|dc f k1 k1' Hin Hti E|b1 k1 k1' Ho]; subst;
    rewrite ?(bool_decide_false (_ = Notify)), ?(bool_decide_false (_ = Timeout)), ?andb_false_r, ?orb_false_r, ?Z.add_0_r by done.
  - destruct Hinv as (Hk & _ & e & Hok & Hph). destruct (turn_ok dc f th k e sent q Hok Hph Hmw) as (b1 & k1 & E1 & Hi & Hb).
    simplify_eq. split; [done|]. rewrite decide_True by done. destruct b'; simpl in *; [done|lia|lia].
  - destruct Hinv as (Hk & Hcur & e & Hok & Hph). destruct (boot_resumed_ok dc f th k e sent q Hph Hth) as (b1 & E1 & Hb).
    { by apply (running_off th). }
    simplify_eq. destruct b' as [dc' f'|dc' f'|v]; [|done|].
    + destruct Hb as [-> Hb]. split; [|simpl; lia]. by split_and!; [..|exists e].
    + split; [done|]. simpl in *. lia.
  - destruct (notify_cases _ _ _ Hn E) as (set & r & H1 & H2 & H3 & H4). rewrite bool_decide_true, orb_true_r by done.
    split; [by apply (notify_ok set r sent q b' k k')|]. simpl. lia.
  - destruct (timeout_ok sent q dc f k k' Hin Hti E Hinv) as [-> Hi]. simpl. split; [exact Hi|lia].
  - split; [by apply (others_ok sent q b' k)|]. simpl. lia.
Qed.

Lemma run_inv k0 e tr b k : kok k0 -> is_Some (k_current k0) -> event_ok k0 ev e -> lst k0 (LEvent ev) = [] -> is_Some (k_threads k0 !! t) ->
  boot_run (boot_start, k0) tr (b, k) ->
  boot_inv (notified (seen (ev_set e)) tr) (quiet (seen (ev_set e)) tr) b k /\ looks tr + rank b <= 6.
Proof.
  intros Hk Hc Hok El Ht Hrun. remember (b, k) as y eqn:Ey. revert b k Ey. induction Hrun as [|tr [b1 k1] l z Hrun IH Hst]; intros b k Ey.
  - injection Ey as <- <-. split; [|done]. unfold notified. rewrite bool_decide_false by apply not_elem_of_nil. rewrite orb_false_r.
    split_and!; [done..|]. exists e. split; [done|]. split_and!; try done. by destruct (seen _).
  - subst z. destruct (IH b1 k1 eq_refl) as [Hi Hl]. destruct (step_inv _ _ _ _ _ _ _ Hi Hst) as [Hi' Hr].
    rewrite notified_snoc, quiet_snoc, looks_snoc. split; [done|]. case_decide; lia.
Qed.
End runs.

(** C5: However the loop runs among other threads and interrupts: after it the
    firmware is booted if the timer of the main thread ran out five times before the
    first notification by the console, the network or a key, and otherwise it is
    not; the loop looks at the event at most six times; it is never stuck, and while
    it waits its timer is set to half a second. *)
Theorem boot_break_correct ev t k0 e tr b k : kok k0 -> is_Some (k_current k0) -> event_ok k0 ev e -> lst k0 (LEvent ev) = [] ->
  is_Some (k_threads k0 !! t) -> boot_run ev t (boot_start, k0) tr (b, k) ->
  (forall v, b = BEnd v -> v = if quiet (seen (ev_set e)) tr <? 5 then 1 else 0) /\ looks tr <= 6 /\
  (forall dc f th, b = BLoop dc f -> may_wait k t th -> exists b' k', boot_turn ev dc f k = Some (b', k') /\
     match b' with BLoop _ _ => False | BWait _ _ => expires t 500 k' | BEnd _ => True end) /\
  (forall dc f th, b = BWait dc f -> k_threads k !! t = Some th -> stat th = RT_THREAD_RUNNING ->
     exists b', boot_resumed t dc f k = Some (b', k) /\ match b' with BWait _ _ => False | _ => True end).
Proof.
  intros Hk Hc Hok El Ht Hrun. destruct (run_inv ev t k0 e tr b k Hk Hc Hok El Ht Hrun) as [Hi Hl].
  pose proof (inv_rank _ _ _ _ _ _ Hi) as Hr. split_and!; [by intros v ->|lia|..].
  - intros dc f th -> Hmw. destruct Hi as (_ & _ & e' & Hok' & Hph). destruct (turn_ok ev t dc f th k e' _ _ Hok' Hph Hmw) as (b' & k' & E & _ & Hb).
    exists b', k'. split; [done|]. destruct b'; [done|apply Hb|done].
  - intros dc f th -> Hth Hs. destruct Hi as (Hk' & _ & e' & Hok' & Hph). destruct (boot_resumed_ok ev t dc f th k e' _ _ Hph Hth) as (b' & E & Hb).
    { by apply (running_off ev t th). }
    exists b'. split; [done|]. by destruct b'.
Qed.

(** ** A key at the console *)

(** The main thread waits; the console notifies; the main thread runs again. *)
Definition demo_waiting : kernel := default demo_event (snd <$> boot_turn 0 5 0 demo_event).
Definition demo_notified : kernel := default demo_event (snd <$> boot_break_uart_notisfy 0 demo_waiting).

Lemma demo_break : boot_run 0 0 (boot_start, demo_event) [Look; Notify; Resume] (BEnd 1, demo_notified).
Proof.
  apply (run_snoc _ _ _ [Look; Notify] (BWait 4 0, demo_notified)).
  - apply (run_snoc _ _ _ [Look] (BWait 4 0, demo_waiting)).
    + apply (run_snoc _ _ _ [] (boot_start, demo_event)); [constructor|]. apply (step_look _ _ _ _ demo_main); [exact demo_event_wait|].
      vm_compute. reflexivity.
    + apply (step_notify _ _ (boot_break_uart_notisfy 0)); [apply list_elem_of_here|]. vm_compute. reflexivity.
  - destruct (k_threads demo_notified !! 0%nat) as [th|] eqn:Eth; [|by vm_compute in Eth].
    apply (step_resume _ _ _ _ th); [vm_compute; reflexivity|done| |vm_compute; reflexivity].
    vm_compute in Eth. injection Eth as <-. reflexivity.
Qed.

Theorem boot_break_correct_witness : boot_run 0 0 (boot_start, demo_event) [Look; Notify; Resume] (BEnd 1, demo_notified) /\
  1 = if quiet (seen 0) [Look; Notify; Resume] <? 5 then 1 else 0.
Proof.
  split; [exact demo_break|].
  destruct (boot_break_correct 0 0 demo_event ev0 [Look; Notify; Resume] (BEnd 1) demo_notified) as [H _].
  - exact (mw_kok _ _ _ demo_event_wait).
  - by eexists.
  - exact demo_event_ok.
  - vm_compute. reflexivity.
  - vm_compute. by eexists.
  - exact demo_break.
  - exact (H 1 eq_refl).
Defined.

(** The console is closed also when it could not be opened: with another user on a
    standalone console it is this user's opening that ends. *)
Definition console_taken : option (Z * list Z * Z) :=
  ('(r, _) ← (_ ← rt_device_register (Some 0%nat) RT_CONSOLE_DEVICE_NAME RT_DEVICE_FLAG_STANDALONE;
    _ ← rt_device_open 0 RT_DEVICE_OFLAG_RDWR;
    n ← rt_device_write 0 0 [1; 2];
    o ← boot_break_enter;
    _ ← boot_break_leave o;
    n' ← rt_device_write 0 0 [1; 2];
    mret (n, match o with Some dev => [Z.of_nat dev] | None => [] end, n')) (demo_devices demo_device demo_ops);
   Some r).
Example console_closed_for_others : console_taken = Some (2, [0], 0).
Proof. vm_compute. reflexivity. Qed.
