(* ===== verification/MailboxTheorems.v ===== *)
(** * What mailboxes guarantee

    A mailbox is a bounded FIFO of machine words: [mb_contents] reads the ring,
    sending appends to it and receiving takes its head, whoever waits. *)

From S2P Require Import Prelude Kernel Sched Object Thread ThreadInv ThreadSpec Ipc.
From S2P Require Import IpcInv Msg SemTheorems Demo.

(** ** The ring *)

Record mb_wf (m : rt_mailbox) : Prop := {
  mw_size : 0 < mb_size m < 2 ^ 16;
  mw_pool : Z.of_nat (length (mb_pool m)) = mb_size m;
  mw_entry : 0 <= mb_entry m <= mb_size m;
  mw_out : 0 <= out_offset m < mb_size m;
  mw_in : in_offset m = (out_offset m + mb_entry m) mod mb_size m;
  mw_flag : ipc_flag (mb_flag m)
}.

Definition mb_slot (m : rt_mailbox) (j : nat) : Z :=
  default 0 (mb_pool m !! Z.to_nat ((out_offset m + Z.of_nat j) mod mb_size m)).

Definition mb_contents (m : rt_mailbox) : list Z := mb_slot m <$> seq 0 (Z.to_nat (mb_entry m)).

Lemma length_mb_contents m : mb_wf m -> Z.of_nat (length (mb_contents m)) = mb_entry m.
Proof. intros []. unfold mb_contents. rewrite length_fmap, length_seq. lia. Qed.

(** The step of an offset around the ring. *)
Lemma ring_step a n : 0 < n < 2 ^ 16 -> 0 <= a < n ->
  (if u16 (a + 1) >=? n then 0 else u16 (a + 1)) = (a + 1) mod n.
Proof.
  intros Hn Ha. rewrite Z.geb_leb. destruct (decide (a + 1 = n)) as [E|E].
  - rewrite E, Z_mod_same_full. destruct (decide (n = 2 ^ 16)); [lia|]. rewrite wrap_small by lia.
    by destruct (Z.leb_spec n n); [|lia].
  - rewrite wrap_small, Z.mod_small by lia. by destruct (Z.leb_spec n (a + 1)); [lia|].
Qed.

(** Two slots of the ring are different. *)
Lemma ring_ne a n i j : 0 < n -> 0 <= i < j -> j < n -> 0 <= a ->
  (a + i) mod n <> (a + j) mod n.
Proof.
  intros Hn Hi Hj Ha E. assert ((j - i) mod n = 0) as H0.
  { replace (j - i) with ((a + j) - (a + i)) by lia. rewrite Zminus_mod, E, Z.sub_diag. apply Z.mod_0_l. lia. }
  rewrite Z.mod_small in H0 by lia. lia.
Qed.

Lemma mb_push_spec m v : mb_wf m -> mb_entry m < mb_size m ->
  exists m', mb_push m v = Some m' /\ mb_wf m' /\ mb_contents m' = mb_contents m ++ [v] /\
    mb_size m' = mb_size m /\ mb_flag m' = mb_flag m.
Proof.
  intros [Hs Hp He Ho Hi Hf] Hlt.
  assert (0 <= in_offset m < mb_size m) as Hin by (rewrite Hi; apply Z.mod_pos_bound; lia).
  unfold mb_push. rewrite option_guard_True by lia. simpl. eexists. split; [reflexivity|].
  rewrite ring_step by lia. rewrite (wrap_small 16 (mb_entry m + 1)) by lia. split_and!; try done.
  - split; simpl; rewrite ?length_insert; try lia; try done.
    rewrite Hi, Zplus_mod_idemp_l. f_equal. lia.
  - unfold mb_contents; simpl. replace (Z.to_nat (mb_entry m + 1)) with (S (Z.to_nat (mb_entry m))) by lia.
    rewrite seq_S, fmap_app. simpl. f_equal.
    + apply list_fmap_ext. intros x j Hj. apply lookup_seq in Hj as [-> Hj]. unfold mb_slot; simpl.
      rewrite list_lookup_insert_ne; [done|]. rewrite Hi. intros E.
      apply (ring_ne (out_offset m) (mb_size m) (Z.of_nat x) (mb_entry m)); try lia.
      pose proof (Z.mod_pos_bound (out_offset m + mb_entry m) (mb_size m)).
      pose proof (Z.mod_pos_bound (out_offset m + Z.of_nat x) (mb_size m)). lia.
    + unfold mb_slot; simpl. f_equal. rewrite Z2Nat.id, <- Hi by lia.
      rewrite list_lookup_insert_eq by lia. done.
Qed.

Lemma mb_pop_spec m : mb_wf m -> 0 < mb_entry m ->
  exists v m', mb_pop m = Some (v, m') /\ mb_wf m' /\ mb_contents m = v :: mb_contents m' /\
    mb_size m' = mb_size m /\ mb_flag m' = mb_flag m.
Proof.
  intros [Hs Hp He Ho Hi Hf] Hpos. unfold mb_pop.
  destruct (lookup_lt_is_Some_2 (mb_pool m) (Z.to_nat (out_offset m))) as [v Hv]; [lia|].
  rewrite Hv. simpl. eexists v, _. split; [reflexivity|].
  rewrite ring_step by lia. rewrite (wrap_small 16 (mb_entry m - 1)) by lia. split_and!; try done.
  - split; simpl; try lia; try done; [apply Z.mod_pos_bound; lia|].
    rewrite Hi, Zplus_mod_idemp_l. f_equal. lia.
  - unfold mb_contents; simpl.
    replace (Z.to_nat (mb_entry m)) with (S (Z.to_nat (mb_entry m - 1))) by lia.
    simpl. rewrite <- fmap_S_seq, <- list_fmap_compose. f_equal.
    + unfold mb_slot. rewrite Z.add_0_r, Z.mod_small, Hv by lia. done.
    + apply list_fmap_ext. intros x j _. unfold mb_slot, compose; simpl.
      rewrite Zplus_mod_idemp_l. do 4 f_equal. lia.
Qed.

(** ** Sending and receiving *)

Record mailbox_ok (k : kernel) (i : nat) (m : rt_mailbox) : Prop := {
  xo_mb : k_mbs k !! i = Some m;
  xo_wf : mb_wf m
}.

Lemma mb_recv_list i : wait_list (LMbRecv i).
Proof. by split. Qed.
Lemma mb_send_list i : wait_list (LMbSend i).
Proof. by split. Qed.

(** The first waiter of a list is woken, if there is one. *)
Definition woke_first (l : lid) (k k' : kernel) : Prop :=
  match lst k l with
  | [] => k' = k
  | t :: ts => wakes l t ts k k'
  end.

Lemma wake_one_kok l k c : kok k -> k_current k = Some c -> wait_list l ->
  exists k', wake_one l k = Some (tt, k') /\ kok k' /\ ipc_same k k' /\ woke_first l k k'.
Proof.
  intros Hk Hc Hw. unfold wake_one, rt_list_isempty, woke_first. erewrite lift_bind by reflexivity.
  destruct (lst k l) as [|t ts] eqn:El; simpl.
  - exists k. by split_and!.
  - destruct (wake_kok l t ts k c Hk Hc Hw El) as (k1 & k2 & E1 & E2 & W).
    erewrite bind_some by exact E1. exists k2. split_and!; try done; apply W.
Qed.

(** The mailbox after an operation, the rest of the state unchanged. *)
Definition put_mb (i : nat) (m : rt_mailbox) (k : kernel) : kernel :=
  set_k_mbs (<[i := m]> (k_mbs k)) k.

Lemma mb_send_stores k i m v timeout td c : mailbox_ok k i m -> kok k -> k_current k = Some c ->
  mb_entry m < mb_size m -> exists m' k', mb_send_loop i v timeout td k = Some (Done RT_EOK, k') /\
    kok k' /\ mailbox_ok k' i m' /\ mb_contents m' = mb_contents m ++ [v] /\ mb_size m' = mb_size m /\
    woke_first (LMbRecv i) (put_mb i m' k) k'.
Proof.
  intros [Hm Hw] Hk Hc Hlt. destruct (mb_push_spec m v Hw Hlt) as (m' & Ep & Hw' & Hc' & Hs & _).
  assert (kok (put_mb i m' k)) as Hk1 by (by eapply kok_ext).
  destruct (wake_one_kok (LMbRecv i) _ c Hk1 Hc (mb_recv_list i)) as (k' & E & Hk' & S & Wf).
  exists m', k'. split_and!; try done.
  - unfold mb_send_loop, mb_get. erewrite lift_bind by exact Hm.
    destruct (Z.eqb_spec (mb_entry m) (mb_size m)); [lia|].
    erewrite lift_bind by exact Ep. unfold mb_set. rewrite modify_bind. fold (put_mb i m' k).
    by erewrite bind_some by exact E.
  - split; [|done]. destruct (ipc_same_parts _ _ S) as (_&_&_&->&_). apply lookup_insert_eq.
Qed.

Lemma mb_recv_fetches k i m timeout td c : mailbox_ok k i m -> kok k -> k_current k = Some c ->
  0 < mb_entry m -> exists v m' k', mb_recv_loop i timeout td k = Some (Done (RT_EOK, Some v), k') /\
    kok k' /\ mailbox_ok k' i m' /\ mb_contents m = v :: mb_contents m' /\ mb_size m' = mb_size m /\
    woke_first (LMbSend i) (put_mb i m' k) k'.
Proof.
  intros [Hm Hw] Hk Hc Hlt. destruct (mb_pop_spec m Hw Hlt) as (v & m' & Ep & Hw' & Hc' & Hs & _).
  assert (kok (put_mb i m' k)) as Hk1 by (by eapply kok_ext).
  destruct (wake_one_kok (LMbSend i) _ c Hk1 Hc (mb_send_list i)) as (k' & E & Hk' & S & Wf).
  exists v, m', k'. split_and!; try done.
  - unfold mb_recv_loop, mb_get. erewrite lift_bind by exact Hm.
    destruct (Z.eqb_spec (mb_entry m) 0); [lia|].
    erewrite lift_bind by exact Ep. unfold mb_set. rewrite modify_bind. fold (put_mb i m' k).
    by erewrite bind_some by exact E.
  - split; [|done]. destruct (ipc_same_parts _ _ S) as (_&_&_&->&_). apply lookup_insert_eq.
Qed.

(** [rt_mb_send_wait] on every branch: with room the word is appended and the
    first waiting receiver is woken; a full mailbox refuses with [-RT_EFULL] for
    a zero timeout and makes the sender wait otherwise. *)
Theorem rt_mb_send_wait_correct k i m t th v timeout : mailbox_ok k i m -> may_wait k t th ->
  (mb_entry m < mb_size m -> exists m' k', rt_mb_send_wait i v timeout k = Some (Done RT_EOK, k') /\
     kok k' /\ mailbox_ok k' i m' /\ mb_contents m' = mb_contents m ++ [v] /\
     woke_first (LMbRecv i) (put_mb i m' k) k') /\
  (mb_entry m = mb_size m -> timeout = 0 -> rt_mb_send_wait i v timeout k = Some (Done (- RT_EFULL), k)) /\
  (mb_entry m = mb_size m -> timeout <> 0 -> exists d k',
     rt_mb_send_wait i v timeout k = Some (Waits timeout d, k') /\
     waits_on (LMbSend i) t (set_error RT_EOK th) (mb_flag m) timeout
       (put_thread t (set_error RT_EOK th) k) k' /\ mailbox_ok k' i m).
Proof.
  intros Hok Hmw. pose proof Hok as [Hm Hw]. unfold rt_mb_send_wait, mb_get.
  erewrite lift_bind by exact Hm. split_and!.
  - intros Hlt. destruct (Z.eqb_spec (mb_entry m) (mb_size m)); [lia|]. simpl.
    destruct (mb_send_stores k i m v timeout 0 t Hok (mw_kok _ _ _ Hmw) (mw_current _ _ _ Hmw) Hlt)
      as (m' & k' & ? & ? & ? & ? & _ & ?).
    by exists m', k'.
  - intros -> ->. by rewrite Z.eqb_refl.
  - intros Hfull Hto. rewrite Hfull, Z.eqb_refl. destruct (Z.eqb_spec timeout 0) as [|_]; [done|]. simpl.
    unfold mb_send_loop, mb_get. erewrite lift_bind by exact Hm. rewrite Hfull, Z.eqb_refl.
    unfold self. erewrite lift_bind by apply Hmw. erewrite bind_some by (apply thread_mod_run, Hmw).
    destruct (Z.eqb_spec timeout 0) as [|_]; [done|].
    assert (may_wait (put_thread t (set_error RT_EOK th) k) t (set_error RT_EOK th)) as Hmw1
      by (by eapply may_wait_data).
    destruct (wait_kok (LMbSend i) t _ (mb_flag m) timeout _ Hmw1 (mb_send_list i) (mw_flag _ Hw))
      as (d & k2 & k3 & E1 & E2 & W & _).
    erewrite bind_some by exact E1. erewrite bind_some by exact E2.
    eexists _, k3. split_and!; [reflexivity|done|]. split; [|done].
    destruct (ipc_same_parts _ _ (wo_ipc _ _ _ _ _ _ _ W)) as (_&_&_&->&_). exact Hm.
Qed.

(** [rt_mb_recv] on every branch: the oldest word is taken and the first
    waiting sender is woken; an empty mailbox returns [-RT_ETIMEOUT] for a zero
    timeout and makes the receiver wait otherwise. *)
Theorem rt_mb_recv_correct k i m t th timeout : mailbox_ok k i m -> may_wait k t th ->
  (0 < mb_entry m -> exists v m' k', rt_mb_recv i timeout k = Some (Done (RT_EOK, Some v), k') /\
     kok k' /\ mailbox_ok k' i m' /\ mb_contents m = v :: mb_contents m' /\
     woke_first (LMbSend i) (put_mb i m' k) k') /\
  (mb_entry m = 0 -> timeout = 0 -> rt_mb_recv i timeout k = Some (Done (- RT_ETIMEOUT, None), k)) /\
  (mb_entry m = 0 -> timeout <> 0 -> exists d k',
     rt_mb_recv i timeout k = Some (Waits timeout d, k') /\
     waits_on (LMbRecv i) t (set_error RT_EOK th) (mb_flag m) timeout
       (put_thread t (set_error RT_EOK th) k) k' /\ mailbox_ok k' i m).
Proof.
  intros Hok Hmw. pose proof Hok as [Hm Hw]. unfold rt_mb_recv, mb_get.
  erewrite lift_bind by exact Hm. split_and!.
  - intros Hlt. destruct (Z.eqb_spec (mb_entry m) 0); [lia|]. simpl.
    destruct (mb_recv_fetches k i m timeout 0 t Hok (mw_kok _ _ _ Hmw) (mw_current _ _ _ Hmw) Hlt)
      as (v & m' & k' & ? & ? & ? & ? & _ & ?).
    by exists v, m', k'.
  - by intros -> ->.
  - intros Hfull Hto. rewrite Hfull. destruct (Z.eqb_spec timeout 0) as [|_]; [done|]. simpl.
    unfold mb_recv_loop, mb_get. erewrite lift_bind by exact Hm. rewrite Hfull. simpl.
    unfold self. erewrite lift_bind by apply Hmw. erewrite bind_some by (apply thread_mod_run, Hmw).
    destruct (Z.eqb_spec timeout 0) as [|_]; [done|].
    assert (may_wait (put_thread t (set_error RT_EOK th) k) t (set_error RT_EOK th)) as Hmw1
      by (by eapply may_wait_data).
    destruct (wait_kok (LMbRecv i) t _ (mb_flag m) timeout _ Hmw1 (mb_recv_list i) (mw_flag _ Hw))
      as (d & k2 & k3 & E1 & E2 & W & _).
    erewrite bind_some by exact E1. erewrite bind_some by exact E2.
    eexists _, k3. split_and!; [reflexivity|done|]. split; [|done].
    destruct (ipc_same_parts _ _ (wo_ipc _ _ _ _ _ _ _ W)) as (_&_&_&->&_). exact Hm.
Qed.

(** ** Streams *)

Inductive mb_op :=
  | Post (v : Z)
  | Fetch.

(** Non-blocking sends and receives one after the other: the words accepted and
    the words delivered. *)
Fixpoint mb_run (i : nat) (ops : list mb_op) : M (list Z * list Z) :=
  match ops with
  | [] => mret ([], [])
  | Post v :: ops =>
      r ← rt_mb_send i v;
      '(acc, del) ← mb_run i ops;
      mret (match r with Done 0 => v :: acc | _ => acc end, del)
  | Fetch :: ops =>
      r ← rt_mb_recv i 0;
      '(acc, del) ← mb_run i ops;
      mret (acc, match r with Done (_, Some v) => v :: del | _ => del end)
  end.

Lemma woke_first_current l k k' : is_Some (k_current k) -> woke_first l k k' -> is_Some (k_current k').
Proof. unfold woke_first. destruct (lst k l); [by intros ? ->|]. intros ? W. by apply W. Qed.

(** C25: a mailbox is a FIFO: whatever sequence of non-blocking sends and receives
    is made, the words delivered and then those still in the mailbox are the
    words that were there followed by the words accepted, in order. *)
Theorem rt_mb_stream i ops : forall k m, mailbox_ok k i m -> kok k -> is_Some (k_current k) ->
  exists acc del k' m', mb_run i ops k = Some ((acc, del), k') /\ kok k' /\ mailbox_ok k' i m' /\
    del ++ mb_contents m' = mb_contents m ++ acc.
Proof.
  induction ops as [|[v|] ops IH]; intros k m Hok Hk Hcur; cbn [mb_run].
  - exists [], [], k, m. split_and!; try done. by rewrite app_nil_r.
  - pose proof Hok as [Hm Hw]. destruct Hcur as [c Hc].
    unfold rt_mb_send, rt_mb_send_wait, mb_get.
    destruct (decide (mb_entry m = mb_size m)) as [Hfull|Hne].
    + destruct (IH k m Hok Hk) as (acc & del & k' & m' & E & Hk' & Hok' & Hs); [by eexists|].
      exists acc, del, k', m'. split_and!; try done. rewrite bind_bind.
      erewrite lift_bind by exact Hm. rewrite Hfull, Z.eqb_refl. simpl.
      erewrite (bind_some (mret _)) by reflexivity. by erewrite bind_some by exact E.
    + pose proof (mw_entry _ Hw).
      destruct (mb_send_stores k i m v 0 0 c) as (m1 & k1 & E1 & Hk1 & Hok1 & Hc1 & _ & Hw1); try done; [lia|].
      destruct (IH k1 m1 Hok1 Hk1) as (acc & del & k' & m' & E & Hk' & Hok' & Hs).
      { eapply woke_first_current; [|exact Hw1]. by eexists. }
      exists (v :: acc), del, k', m'. split_and!; try done.
      * rewrite bind_bind. erewrite lift_bind by exact Hm.
        destruct (Z.eqb_spec (mb_entry m) (mb_size m)); [done|]. simpl.
        erewrite bind_some by exact E1. by erewrite bind_some by exact E.
      * by rewrite Hs, Hc1, <- app_assoc.
  - pose proof Hok as [Hm Hw]. destruct Hcur as [c Hc]. unfold rt_mb_recv, mb_get.
    destruct (decide (mb_entry m = 0)) as [Hfull|Hne].
    + destruct (IH k m Hok Hk) as (acc & del & k' & m' & E & Hk' & Hok' & Hs); [by eexists|].
      exists acc, del, k', m'. split_and!; try done. rewrite bind_bind.
      erewrite lift_bind by exact Hm. rewrite Hfull. simpl.
      erewrite (bind_some (mret _)) by reflexivity. by erewrite bind_some by exact E.
    + pose proof (mw_entry _ Hw).
      destruct (mb_recv_fetches k i m 0 0 c) as (v & m1 & k1 & E1 & Hk1 & Hok1 & Hc1 & _ & Hw1); try done; [lia|].
      destruct (IH k1 m1 Hok1 Hk1) as (acc & del & k' & m' & E & Hk' & Hok' & Hs).
      { eapply woke_first_current; [|exact Hw1]. by eexists. }
      exists acc, (v :: del), k', m'. split_and!; try done.
      * rewrite bind_bind. erewrite lift_bind by exact Hm.
        destruct (Z.eqb_spec (mb_entry m) 0); [done|]. simpl.
        erewrite bind_some by exact E1. by erewrite bind_some by exact E.
      * rewrite Hc1. simpl. by rewrite Hs.
Qed.

(** ** Instances *)

Definition mb0 : rt_mailbox := mb_fresh [0; 0; 0] 3 RT_IPC_FLAG_FIFO.
Definition demo_mb : kernel := set_k_mbs (<[0%nat := mb0]> ∅) demo.

Lemma demo_mb_ok : mailbox_ok demo_mb 0 mb0.
Proof. split; [vm_compute; reflexivity|]. split; try done. by left. Qed.

Lemma demo_mb_wait : may_wait demo_mb 0 demo_main.
Proof.
  split; [apply (kok_ext demo); [apply demo_kok|done..]|done|vm_compute; reflexivity|done|done|].
  vm_compute. discriminate.
Qed.

Lemma rt_mb_send_wait_correct_witness : exists m' k',
  rt_mb_send_wait 0 42 5 demo_mb = Some (Done RT_EOK, k') /\ kok k' /\ mailbox_ok k' 0 m' /\
  mb_contents m' = mb_contents mb0 ++ [42] /\ woke_first (LMbRecv 0) (put_mb 0 m' demo_mb) k'.
Proof.
  apply (rt_mb_send_wait_correct demo_mb 0 mb0 0 demo_main 42 5 demo_mb_ok demo_mb_wait). reflexivity.
Defined.

Lemma rt_mb_recv_correct_witness : exists d k', rt_mb_recv 0 5 demo_mb = Some (Waits 5 d, k') /\
  waits_on (LMbRecv 0) 0 (set_error RT_EOK demo_main) RT_IPC_FLAG_FIFO 5
    (put_thread 0 (set_error RT_EOK demo_main) demo_mb) k' /\ mailbox_ok k' 0 mb0.
Proof.
  apply (rt_mb_recv_correct demo_mb 0 mb0 0 demo_main 5 demo_mb_ok demo_mb_wait); [reflexivity|lia].
Defined.

Lemma rt_mb_stream_witness : exists acc del k' m',
  mb_run 0 [Post 1; Post 2; Fetch; Post 3; Post 4; Post 5; Fetch] demo_mb = Some ((acc, del), k') /\
  kok k' /\ mailbox_ok k' 0 m' /\ del ++ mb_contents m' = mb_contents mb0 ++ acc.
Proof.
  apply (rt_mb_stream 0 _ demo_mb mb0 demo_mb_ok); [apply demo_mb_wait|by eexists].
Defined.
