(* ===== verification/QueueTheorems.v ===== *)
(** * What message queues guarantee

    The slots of the pool form two chains, the queue and the free list; together
    they are all slots, each once ([mq_shape]).  [mq_rep] reads the queue as a list
    of messages: sending appends, an urgent message goes in front, receiving
    takes the first. *)

From S2P Require Import Prelude Kernel Sched Object Thread ThreadInv ThreadSpec Ipc.
From S2P Require Import IpcInv Msg SemTheorems MailboxTheorems Demo.

(** ** Chains of slots *)

Fixpoint chain (next : gmap nat (option nat)) (h : option nat) (l : list nat) : Prop :=
  match l with
  | [] => h = None
  | s :: l => h = Some s /\ exists n, next !! s = Some n /\ chain next n l
  end.

Lemma chain_insert next s x l : s ∉ l -> forall h, chain next h l -> chain (<[s := x]> next) h l.
Proof.
  induction l as [|u l IH]; intros Hs h; [done|]. apply not_elem_of_cons in Hs as [? ?].
  intros (-> & n & Hn & Hc). split; [done|]. exists n. rewrite lookup_insert_ne by done. auto.
Qed.

Lemma chain_cons next s h l : s ∉ l -> chain next h l -> chain (<[s := h]> next) (Some s) (s :: l).
Proof.
  intros Hs Hc. split; [done|]. exists h. rewrite lookup_insert_eq. split; [done|]. by apply chain_insert.
Qed.

(** Linking a new slot behind the last one. *)
Lemma chain_snoc next s t l : s ∉ l ++ [t] -> NoDup (l ++ [t]) -> forall h,
  chain next h (l ++ [t]) ->
  chain (<[t := Some s]> (<[s := None]> next)) h (l ++ [t; s]).
Proof.
  induction l as [|u l IH]; intros Hs Hnd h; simpl.
  - intros (-> & _). simpl in Hs. apply not_elem_of_cons in Hs as [Hst _].
    split; [done|]. exists (Some s). rewrite lookup_insert_eq. split; [done|]. split; [done|].
    exists None. by rewrite lookup_insert_ne, lookup_insert_eq by done.
  - simpl in Hs, Hnd. apply not_elem_of_cons in Hs as [Hsu Hs]. apply NoDup_cons in Hnd as [Hnu Hnd].
    intros (-> & n & Hn & Hc). split; [done|]. exists n.
    rewrite !lookup_insert_ne by (try done; intros ->; apply Hnu, elem_of_app; right; apply list_elem_of_here).
    auto.
Qed.

Lemma chain_next next h l s : chain next h l -> s ∈ l -> is_Some (next !! s).
Proof.
  revert h. induction l as [|u l IH]; intros h Hc Hin; [by apply not_elem_of_nil in Hin|].
  destruct Hc as (-> & n & Hn & Hc). apply elem_of_cons in Hin as [->|Hin]; eauto.
Qed.

(** ** The shape of a message queue *)

Record mq_shape (q : rt_messagequeue) (queue free : list nat) : Prop := {
  qs_queue : chain (mq_next q) (msg_queue_head q) queue;
  qs_free : chain (mq_next q) (msg_queue_free q) free;
  qs_tail : msg_queue_tail q = last queue;
  qs_nodup : NoDup (queue ++ free);
  qs_total : Z.of_nat (length (queue ++ free)) = max_msgs q;
  qs_entry : mq_entry q = Z.of_nat (length queue);
  qs_size : 0 <= msg_size q < 2 ^ 16;
  qs_max : 0 <= max_msgs q < 2 ^ 16;
  qs_data : forall s, s ∈ queue ++ free -> exists d, mq_data q !! s = Some d /\
    Z.of_nat (length d) = msg_size q;
  qs_flag : ipc_flag (mq_flag q)
}.

Definition slot_data (q : rt_messagequeue) (s : nat) : list Z := default [] (mq_data q !! s).

(** The queue holds the messages [ms], oldest first. *)
Definition mq_rep (q : rt_messagequeue) (ms : list (list Z)) : Prop :=
  exists queue free, mq_shape q queue free /\ ms = slot_data q <$> queue.

(** A slot filled with a message. *)
Definition message (buffer : list Z) (size : Z) (m : list Z) : Prop :=
  take (Z.to_nat size) m = take (Z.to_nat size) buffer.

(** ** Fresh queues *)

Lemma mq_link_chain n : let '(next, free) := mq_link n in chain next free (reverse (seq 0 n)).
Proof.
  induction n as [|n IH]; [done|]. cbn [mq_link]. destruct (mq_link n) as [next free].
  rewrite seq_S, reverse_app. cbn [reverse rev_append app Nat.add].
  apply chain_cons; [|done]. rewrite elem_of_reverse, elem_of_seq. lia.
Qed.

Lemma mq_fresh_shape pool size max flag : 0 <= size < 2 ^ 16 -> 0 <= max < 2 ^ 16 -> ipc_flag flag ->
  (forall s, Z.of_nat s < max -> Z.of_nat (length (pool s)) = size) ->
  mq_shape (mq_fresh pool size max flag) [] (reverse (seq 0 (Z.to_nat max))).
Proof.
  intros Hs Hm Hf Hp. unfold mq_fresh. pose proof (mq_link_chain (Z.to_nat max)) as Hc.
  destruct (mq_link (Z.to_nat max)) as [next free]. split; simpl; try done.
  - rewrite reverse_Permutation. apply NoDup_seq.
  - rewrite length_reverse, length_seq. lia.
  - intros s. rewrite elem_of_reverse, elem_of_seq. intros Hin. exists (pool s). split; [|apply Hp; lia].
    apply elem_of_list_to_map_1.
    + rewrite <- list_fmap_compose. apply NoDup_fmap_2; [|apply NoDup_seq]. by intros ?? [=].
    + apply list_elem_of_fmap. exists s. split; [done|]. apply elem_of_seq. lia.
Qed.

(** ** Filling, linking and taking slots *)

Lemma length_mq_fill buffer size old : 0 <= size -> size <= Z.of_nat (length buffer) ->
  size <= Z.of_nat (length old) -> length (mq_fill buffer size old) = length old.
Proof. intros. unfold mq_fill. rewrite length_app, length_take, length_drop. lia. Qed.

Lemma mq_fill_message buffer size old : 0 <= size -> size <= Z.of_nat (length buffer) ->
  message buffer size (mq_fill buffer size old).
Proof.
  intros. unfold message, mq_fill. rewrite take_app_le by (rewrite length_take; lia).
  rewrite take_take. f_equal. lia.
Qed.

(** The first free slot, filled and detached. *)
Lemma mq_alloc_spec q queue s fr buffer size : mq_shape q queue (s :: fr) ->
  0 <= size <= msg_size q -> size <= Z.of_nat (length buffer) ->
  exists n old q1, mq_alloc q s buffer size = Some q1 /\
    q1 = set_msg_queue_free n (set_mq_data (<[s := mq_fill buffer size old]> (mq_data q)) q) /\
    chain (mq_next q) n fr /\ Z.of_nat (length old) = msg_size q.
Proof.
  intros H Hsz Hb. destruct (qs_free _ _ _ H) as (_ & n & Hn & Hc).
  destruct (qs_data _ _ _ H s) as (old & Hold & Hl); [apply elem_of_app; right; apply list_elem_of_here|].
  exists n, old. unfold mq_alloc. rewrite Hn, Hold. simpl. eauto.
Qed.

Section post.
Variables (q : rt_messagequeue) (queue : list nat) (s : nat) (fr : list nat).
Variables (buffer : list Z) (size : Z) (n : option nat) (old : list Z).
Hypothesis H : mq_shape q queue (s :: fr).
Hypothesis Hsize : 0 <= size <= msg_size q.
Hypothesis Hbuf : size <= Z.of_nat (length buffer).
Hypothesis Hfr : chain (mq_next q) n fr.
Hypothesis Hold : Z.of_nat (length old) = msg_size q.

Let q1 := set_msg_queue_free n (set_mq_data (<[s := mq_fill buffer size old]> (mq_data q)) q).

Lemma post_nodup : NoDup (s :: queue ++ fr).
Proof. rewrite Permutation_middle. apply (qs_nodup _ _ _ H). Qed.

Lemma post_fresh : (s ∉ queue) /\ (s ∉ fr) /\ NoDup queue.
Proof.
  pose proof post_nodup as Hnd. apply NoDup_cons in Hnd as [Hs Hnd].
  rewrite elem_of_app in Hs. apply NoDup_app in Hnd as (? & _ & _). naive_solver.
Qed.

(** The data of the slots after the copy. *)
Lemma post_data u : u ∈ s :: queue ++ fr -> exists d,
  <[s := mq_fill buffer size old]> (mq_data q) !! u = Some d /\ Z.of_nat (length d) = msg_size q.
Proof.
  intros Hu. rewrite lookup_insert. case_decide.
  - eexists. split; [done|]. rewrite length_mq_fill by lia. done.
  - apply (qs_data _ _ _ H). by rewrite <- Permutation_middle.
Qed.

Lemma post_entry : mq_entry q + 1 < 2 ^ 16 /\
  Z.of_nat (length (s :: queue ++ fr)) = max_msgs q.
Proof.
  pose proof (qs_total _ _ _ H) as Ht. rewrite (qs_entry _ _ _ H). pose proof (qs_max _ _ _ H).
  rewrite <- Permutation_middle in Ht. simpl in *. rewrite length_app in *. lia.
Qed.

Lemma post_head_empty : msg_queue_head q = None <-> queue = [].
Proof.
  pose proof (qs_queue _ _ _ H) as Hc. destruct queue as [|u l]; [by split|].
  destruct Hc as [-> _]. by split.
Qed.

Lemma push_tail_shape : mq_shape (mq_push_tail q1 s) (queue ++ [s]) fr.
Proof.
  destruct post_fresh as (Hsq & Hsf & Hndq). destruct post_entry as [He Ht].
  assert ((queue ++ [s]) ++ fr ≡ₚ s :: queue ++ fr) as Hp.
  { rewrite <- app_assoc. simpl. by rewrite <- Permutation_middle. }
  split; unfold mq_push_tail; simpl; try apply H.
  - rewrite (qs_tail _ _ _ H). pose proof (qs_queue _ _ _ H) as Hc.
    destruct (last queue) as [u|] eqn:El.
    + apply last_Some in El as [l Eq].
      destruct (msg_queue_head q) eqn:Eh; [|apply post_head_empty in Eh; rewrite Eq in Eh; by destruct l].
      rewrite Eq in *. rewrite <- app_assoc. simpl. by apply chain_snoc.
    + apply last_None in El. destruct post_head_empty as [_ Hh]. rewrite Hh, El by done. simpl.
      split; [done|]. exists None. by rewrite lookup_insert_eq.
  - rewrite (qs_tail _ _ _ H). destruct (last queue) as [u|] eqn:El; [|by apply chain_insert].
    apply chain_insert; [|by apply chain_insert]. intros Hu.
    apply last_Some in El as [l Eq]. pose proof (qs_nodup _ _ _ H) as Hnd.
    apply NoDup_app in Hnd as (_ & Hd & _). apply (Hd u).
    + rewrite Eq. apply elem_of_app. right. apply list_elem_of_here.
    + by apply list_elem_of_further.
  - by rewrite last_snoc.
  - rewrite Hp. apply post_nodup.
  - rewrite Hp. done.
  - rewrite wrap_small, (qs_entry _ _ _ H), length_app by (rewrite (qs_entry _ _ _ H) in *; lia).
    simpl. lia.
  - intros u Hu. apply post_data. by rewrite <- Hp.
Qed.

Lemma push_head_shape : mq_shape (mq_push_head q1 s) (s :: queue) fr.
Proof.
  destruct post_fresh as (Hsq & Hsf & Hndq). destruct post_entry as [He Ht].
  split; unfold mq_push_head; simpl; try apply H.
  - apply chain_cons; [done|apply H].
  - by apply chain_insert.
  - rewrite (qs_tail _ _ _ H). by destruct queue as [|u l] using rev_ind; [|rewrite !last_cons, last_snoc].
  - apply post_nodup.
  - done.
  - rewrite wrap_small, (qs_entry _ _ _ H) by (rewrite (qs_entry _ _ _ H) in *; lia). lia.
  - apply post_data.
Qed.

(** The messages after the copy: the old ones as they were. *)
Lemma post_slots (l : list nat) : (forall u, u ∈ l -> u <> s) -> slot_data q1 <$> l = slot_data q <$> l.
Proof.
  intros Hl. apply list_fmap_ext. intros x u Hu. apply list_elem_of_lookup_2, Hl in Hu.
  unfold slot_data; simpl. by rewrite lookup_insert_ne.
Qed.

Lemma post_slot : slot_data q1 s = mq_fill buffer size old.
Proof. unfold slot_data; simpl. by rewrite lookup_insert_eq. Qed.
End post.

(** Taking the first message gives its slot back. *)
Lemma mq_take_spec q s queue free size : mq_shape q (s :: queue) free -> 0 <= size ->
  exists q', mq_take q size = Some (take (Z.to_nat (Z.min size (msg_size q))) (slot_data q s), q') /\
    mq_shape q' queue (s :: free) /\ mq_data q' = mq_data q /\ max_msgs q' = max_msgs q /\
    msg_size q' = msg_size q.
Proof.
  intros H Hsz. destruct (qs_queue _ _ _ H) as (Hh & n & Hn & Hc).
  destruct (qs_data _ _ _ H s) as (d & Hd & Hl); [apply list_elem_of_here|].
  pose proof (qs_nodup _ _ _ H) as Hnd. apply NoDup_cons in Hnd as [Hs Hnd].
  rewrite elem_of_app in Hs. assert ((s ∉ queue) /\ (s ∉ free)) as [Hsq Hsf] by tauto.
  pose proof (qs_entry _ _ _ H) as He. pose proof (qs_total _ _ _ H) as Ht. pose proof (qs_max _ _ _ H) as Hm.
  unfold mq_take, slot_data. rewrite Hh. simpl. rewrite Hn, Hd. simpl. eexists. split.
  { do 3 f_equal. rewrite Z.gtb_ltb. destruct (Z.ltb_spec (msg_size q) size); f_equal; lia. }
  split_and!; try done. split; simpl; try apply H.
  - by apply chain_insert.
  - apply chain_cons; [done|apply H].
  - rewrite (qs_tail _ _ _ H). destruct queue as [|u l] using rev_ind; simpl.
    + by rewrite bool_decide_eq_true_2.
    + rewrite last_cons, last_snoc, bool_decide_eq_false_2; [done|].
      intros [= ->]. apply Hsq, elem_of_app. right. apply list_elem_of_here.
  - rewrite <- Permutation_middle. constructor; [by rewrite elem_of_app|done].
  - rewrite <- Permutation_middle. exact Ht.
  - simpl in *. rewrite length_app in Ht. rewrite wrap_small; lia.
  - intros u. rewrite <- Permutation_middle. apply (qs_data _ _ _ H).
Qed.

(** The loop of the reset ends after one turn per message and gives every slot
    back; the entry count is only reset afterwards. *)
Lemma mq_flush_spec queue : forall q free fuel,
  mq_shape (set_mq_entry (Z.of_nat (length queue)) q) queue free -> (length queue < fuel)%nat ->
  exists q' free', mq_flush fuel q = Some q' /\ mq_shape (set_mq_entry 0 q') [] free' /\
    msg_size q' = msg_size q /\ mq_flag q' = mq_flag q.
Proof.
  induction queue as [|s queue IH]; intros q free [|fuel] H Hf; simpl in Hf; try lia; cbn [mq_flush].
  - pose proof (qs_queue _ _ _ H) as Hh. simpl in Hh. rewrite Hh. by exists q, free.
  - destruct (mq_take_spec _ s queue free 0 H) as (q1 & E1 & H1 & _); [lia|].
    destruct (qs_queue _ _ _ H) as (Hh & n & Hn & Hc). simpl in Hh, Hn. rewrite Hh. simpl. rewrite Hn. simpl.
    destruct (qs_data _ _ _ H s) as (d & Hd & _); [apply list_elem_of_here|]. simpl in Hd.
    unfold mq_take in E1. simpl in E1. rewrite Hh in E1. simpl in E1. rewrite Hn in E1. simpl in E1.
    rewrite Hd in E1. simpl in E1. injection E1 as _ <-.
    pose proof (qs_entry _ _ _ H1) as He. simpl in He. rewrite He in H1.
    match goal with |- context [mq_flush fuel ?q2] =>
      destruct (IH q2 (s :: free) fuel) as (q' & free' & E & Hq & ? & ?); [exact H1|lia|] end.
    by exists q', free'.
Qed.

(** ** The operations *)

Record queue_ok (k : kernel) (i : nat) (q : rt_messagequeue) (ms : list (list Z)) : Prop := {
  qo_mq : k_mqs k !! i = Some q;
  qo_rep : mq_rep q ms
}.

Definition put_mq (i : nat) (q : rt_messagequeue) (k : kernel) : kernel :=
  set_k_mqs (<[i := q]> (k_mqs k)) k.

Lemma mq_wait_list i : wait_list (LMq i).
Proof. by split. Qed.

Lemma mq_rep_bound q ms : mq_rep q ms -> mq_entry q = Z.of_nat (length ms) /\
  Z.of_nat (length ms) <= max_msgs q.
Proof.
  intros (queue & free & H & ->). rewrite length_fmap. split; [apply H|].
  rewrite <- (qs_total _ _ _ H), length_app. lia.
Qed.

(** The place a message takes: behind the others, or in front of them. *)
Definition post_place (urgent : bool) (ms : list (list Z)) (x : list Z) : list (list Z) :=
  if urgent then x :: ms else ms ++ [x].

Lemma mq_post_ok urgent k i q ms buffer size c : queue_ok k i q ms -> kok k -> k_current k = Some c ->
  0 <= size <= msg_size q -> size <= Z.of_nat (length buffer) -> Z.of_nat (length ms) < max_msgs q ->
  exists x q' k', mq_post (if (urgent : bool) then mq_push_head else mq_push_tail) i buffer size k
      = Some (RT_EOK, k') /\
    kok k' /\ queue_ok k' i q' (post_place urgent ms x) /\ message buffer size x /\
    msg_size q' = msg_size q /\ max_msgs q' = max_msgs q /\ woke_first (LMq i) (put_mq i q' k) k'.
Proof.
  intros [Hm (queue & free & H & ->)] Hk Hc Hsz Hb Hroom. rewrite length_fmap in Hroom.
  destruct free as [|s fr]; [rewrite <- (qs_total _ _ _ H), app_nil_r in Hroom; lia|].
  destruct (mq_alloc_spec q queue s fr buffer size H Hsz Hb) as (n & old & q1 & E1 & Eq1 & Hfr & Hold).
  destruct (post_fresh q queue s fr size H Hsz) as (Hsq & _ & _).
  pose proof (post_slot q s buffer size n old) as Hslot. rewrite <- Eq1 in Hslot.
  pose proof (post_slots q s buffer size n old queue) as Hslots. rewrite <- Eq1 in Hslots.
  assert (exists q', (if urgent then mq_push_head else mq_push_tail) q1 s = q' /\
    mq_rep q' (post_place urgent (slot_data q <$> queue) (mq_fill buffer size old)) /\
    msg_size q' = msg_size q /\ max_msgs q' = max_msgs q) as (q' & Eq' & Hrep & Hs1 & Hs2).
  { eexists. split; [reflexivity|]. destruct urgent; (split; [|by rewrite Eq1]).
    - exists (s :: queue), fr. split; [rewrite Eq1; by apply push_head_shape|].
      unfold post_place. rewrite <- Hslots, <- Hslot by (by intros u Hu ->). done.
    - exists (queue ++ [s]), fr. split; [rewrite Eq1; by apply push_tail_shape|].
      unfold post_place. rewrite <- Hslots, <- Hslot by (by intros u Hu ->). by rewrite fmap_app. }
  assert (kok (put_mq i q' k)) as Hk1 by (by eapply kok_ext).
  destruct (wake_one_kok (LMq i) _ c Hk1 Hc (mq_wait_list i)) as (k' & E & Hk' & S & Wf).
  exists (mq_fill buffer size old), q', k'. split_and!; try done.
  - unfold mq_post, mq_get. erewrite lift_bind by exact Hm.
    rewrite Z.gtb_ltb. destruct (Z.ltb_spec (msg_size q) size); [lia|].
    destruct (qs_free _ _ _ H) as [-> _]. erewrite lift_bind by exact E1.
    unfold mq_set. rewrite modify_bind, Eq'. fold (put_mq i q' k). by erewrite bind_some by exact E.
  - split; [|done]. destruct (ipc_same_parts _ _ S) as (_&_&_&_&->&_). apply lookup_insert_eq.
  - apply mq_fill_message; lia.
Qed.

Lemma mq_post_full (push : rt_messagequeue -> nat -> rt_messagequeue) k i q ms buffer size :
  queue_ok k i q ms -> size <= msg_size q -> Z.of_nat (length ms) = max_msgs q ->
  mq_post push i buffer size k = Some (- RT_EFULL, k).
Proof.
  intros [Hm (queue & free & H & ->)] Hsz Hfull. rewrite length_fmap in Hfull.
  pose proof (qs_total _ _ _ H) as Ht. rewrite length_app in Ht.
  destruct free; [|simpl in Ht; lia]. unfold mq_post, mq_get. erewrite lift_bind by exact Hm.
  rewrite Z.gtb_ltb. destruct (Z.ltb_spec (msg_size q) size); [lia|]. by rewrite (qs_free _ _ _ H).
Qed.

Lemma mq_recv_fetches k i q m ms size timeout td : queue_ok k i q (m :: ms) -> kok k -> 0 <= size ->
  exists q' k', mq_recv_loop i size timeout td k
      = Some (Done (RT_EOK, Some (take (Z.to_nat (Z.min size (msg_size q))) m)), k') /\
    kok k' /\ queue_ok k' i q' ms /\ msg_size q' = msg_size q /\ max_msgs q' = max_msgs q /\
    k_current k' = k_current k.
Proof.
  intros [Hm (queue & free & H & Hms)] Hk Hsz. destruct queue as [|s queue]; [done|].
  simpl in Hms. injection Hms as -> ->.
  destruct (mq_take_spec q s queue free size H Hsz) as (q' & E & H' & Ed & Emx & Es).
  exists q', (put_mq i q' k). split_and!; try done.
  - unfold mq_recv_loop, mq_get. erewrite lift_bind by exact Hm. rewrite (qs_entry _ _ _ H).
    destruct (Z.eqb_spec (Z.of_nat (length (s :: queue))) 0); [done|].
    erewrite lift_bind by exact E. done.
  - by eapply kok_ext.
  - split; [apply lookup_insert_eq|]. exists queue, (s :: free). split; [done|].
    apply list_fmap_ext. intros ???. unfold slot_data. by rewrite Ed.
Qed.

(** C34: [rt_mq_send] and [rt_mq_urgent] on every branch: a message longer than a
    slot is refused with [-RT_ERROR], a full queue with [-RT_EFULL], both without
    a change; otherwise the message goes behind the others (urgent: in front of
    them), the other messages are untouched, and the first waiting receiver is
    woken. *)
Theorem rt_mq_send_correct urgent k i q ms buffer size c : queue_ok k i q ms -> kok k ->
  k_current k = Some c -> 0 <= size <= Z.of_nat (length buffer) ->
  let send := if (urgent : bool) then rt_mq_urgent else rt_mq_send in
  (msg_size q < size -> send i buffer size k = Some (- RT_ERROR, k)) /\
  (size <= msg_size q -> Z.of_nat (length ms) = max_msgs q ->
     send i buffer size k = Some (- RT_EFULL, k)) /\
  (size <= msg_size q -> Z.of_nat (length ms) < max_msgs q -> exists x q' k',
     send i buffer size k = Some (RT_EOK, k') /\ kok k' /\
     queue_ok k' i q' (post_place urgent ms x) /\ message buffer size x /\
     woke_first (LMq i) (put_mq i q' k) k').
Proof.
  intros Hok Hk Hc Hb send. split_and!.
  - intros Hlt. unfold send, rt_mq_send, rt_mq_urgent, mq_post, mq_get.
    destruct urgent; erewrite lift_bind by apply Hok; rewrite Z.gtb_ltb;
      by destruct (Z.ltb_spec (msg_size q) size); [|lia].
  - intros Hsz Hfull. unfold send, rt_mq_send, rt_mq_urgent. destruct urgent; by eapply mq_post_full.
  - intros Hsz Hroom.
    destruct (mq_post_ok urgent k i q ms buffer size c) as (x & q' & k' & E & ? & ? & ? & _ & _ & ?);
      try done; [lia|lia|].
    exists x, q', k'. split_and!; try done. unfold send. by destruct urgent.
Qed.

(** C35: [rt_mq_recv] on every branch: the first message is delivered, cut to the
    caller's buffer, and its slot is free again; an empty queue returns
    [-RT_ETIMEOUT] for a zero timeout and makes the caller wait otherwise. *)
Theorem rt_mq_recv_correct k i q ms t th size timeout : queue_ok k i q ms -> may_wait k t th ->
  0 <= size ->
  (forall m ms', ms = m :: ms' -> exists q' k', rt_mq_recv i size timeout k
      = Some (Done (RT_EOK, Some (take (Z.to_nat (Z.min size (msg_size q))) m)), k') /\
     kok k' /\ queue_ok k' i q' ms') /\
  (ms = [] -> timeout = 0 -> rt_mq_recv i size timeout k = Some (Done (- RT_ETIMEOUT, None), k)) /\
  (ms = [] -> timeout <> 0 -> exists d k', rt_mq_recv i size timeout k = Some (Waits timeout d, k') /\
     waits_on (LMq i) t (set_error RT_EOK th) (mq_flag q) timeout
       (put_thread t (set_error RT_EOK th) k) k' /\ queue_ok k' i q ms).
Proof.
  intros Hok Hmw Hsz. pose proof Hok as [Hm Hrep]. destruct (mq_rep_bound _ _ Hrep) as [He _].
  unfold rt_mq_recv, mq_get. erewrite lift_bind by exact Hm. split_and!.
  - intros m ms' ->. rewrite He. simpl. destruct (mq_recv_fetches k i q m ms' size timeout 0) as (q' & k' & ? & ? & ? & _);
      try done; [apply Hmw|]. by exists q', k'.
  - intros -> ->. by rewrite He.
  - intros -> Hto. rewrite He. simpl. destruct (Z.eqb_spec timeout 0) as [|_]; [done|].
    unfold mq_recv_loop, mq_get. erewrite lift_bind by exact Hm. rewrite He. simpl.
    unfold self. erewrite lift_bind by apply Hmw. erewrite bind_some by (apply thread_mod_run, Hmw).
    destruct (Z.eqb_spec timeout 0) as [|_]; [done|].
    assert (may_wait (put_thread t (set_error RT_EOK th) k) t (set_error RT_EOK th)) as Hmw1
      by (by eapply may_wait_data).
    assert (ipc_flag (mq_flag q)) as Hf by (destruct Hrep as (? & ? & H & _); apply H).
    destruct (wait_kok (LMq i) t _ (mq_flag q) timeout _ Hmw1 (mq_wait_list i) Hf)
      as (d & k2 & k3 & E1 & E2 & W & _).
    erewrite bind_some by exact E1. erewrite bind_some by exact E2.
    eexists _, k3. split_and!; [reflexivity|done|]. split; [|done].
    destruct (ipc_same_parts _ _ (wo_ipc _ _ _ _ _ _ _ W)) as (_&_&_&_&->&_). exact Hm.
Qed.

(** resetting a queue ends, gives every slot back and wakes every waiter with
    [-RT_ERROR]. *)
Theorem rt_mq_control_reset k i q ms arg c : queue_ok k i q ms -> kok k -> k_current k = Some c ->
  exists q' k', rt_mq_control i RT_IPC_CMD_RESET arg k = Some (RT_EOK, k') /\ kok k' /\
    queue_ok k' i q' [] /\ lst k' (LMq i) = [] /\
    forall t size timeout d, t ∈ lst k (LMq i) ->
      rt_mq_recv_resumed t i size timeout d k' = Some (Done (- RT_ERROR, None), k').
Proof.
  intros [Hm (queue & free & H & ->)] Hk Hc.
  destruct (resume_all_kok (LMq i) k Hk (mq_wait_list i)) as (k1 & E1 & Hk1 & S1 & Ec1 & Hrel & El1 & _).
  pose proof (qs_entry _ _ _ H) as He.
  destruct (mq_flush_spec queue q free (S (Z.to_nat (max_msgs q)))) as (q' & free' & Ef & Hq' & _).
  { rewrite <- He. by destruct q. }
  { rewrite <- (qs_total _ _ _ H), length_app. lia. }
  set (k2 := put_mq i (set_mq_entry 0 q') k1). assert (kok k2) as Hk2 by (by eapply kok_ext).
  destruct (schedule_kok k2 c Hk2) as (k3 & E3 & Hk3 & R & _); [by rewrite <- Hc, <- Ec1|].
  exists (set_mq_entry 0 q'), k3. split_and!; try done.
  - unfold rt_mq_control. simpl. erewrite bind_some by exact E1. unfold mq_get.
    erewrite lift_bind by (destruct (ipc_same_parts _ _ S1) as (_&_&_&_&->&_); exact Hm).
    erewrite lift_bind by exact Ef. unfold mq_set. rewrite modify_bind. fold (put_mq i (set_mq_entry 0 q') k1).
    fold k2. by erewrite bind_some by exact E3.
  - split; [|by exists [], free']. rewrite (sr_frame _ _ R). simpl. apply lookup_insert_eq.
  - rewrite (sr_wait _ _ R) by apply (mq_wait_list i). exact El1.
  - intros t size timeout d Ht. destruct (waiter_thread _ _ _ Hk (mq_wait_list i) Ht) as (th & Hth & _).
    specialize (Hrel t th Hth). rewrite decide_True in Hrel by done. destruct Hrel as (s & Ht1 & _).
    destruct (upto_stat_sched k2 k3 R t _ Ht1) as [s' Ht3].
    unfold rt_mq_recv_resumed, thread_get. by erewrite lift_bind by exact Ht3.
Qed.

(** ** Instances *)

(** A queue of two slots of eight bytes, and the same with one message in it. *)
Definition mq0 : rt_messagequeue := mq_fresh (fun _ => replicate 8 0) 8 2 RT_IPC_FLAG_PRIO.
Definition demo_mq : kernel := set_k_mqs (<[0%nat := mq0]> ∅) demo.

Lemma demo_mq_ok : queue_ok demo_mq 0 mq0 [].
Proof.
  split; [vm_compute; reflexivity|]. exists [], (reverse (seq 0 2)). split; [|done].
  apply (mq_fresh_shape _ 8 2); try lia; [by right|done].
Qed.

Lemma demo_mq_wait : may_wait demo_mq 0 demo_main.
Proof.
  split; [apply (kok_ext demo); [apply demo_kok|done..]|done|vm_compute; reflexivity|done|done|].
  vm_compute. discriminate.
Qed.

Definition demo_mq1 : kernel := default demo_mq (snd <$> rt_mq_send 0 [1; 2; 3] 3 demo_mq).
Definition mq1 : rt_messagequeue := default mq0 (k_mqs demo_mq1 !! 0%nat).

Lemma demo_mq1_ok : queue_ok demo_mq1 0 mq1 [[1; 2; 3; 0; 0; 0; 0; 0]].
Proof.
  split; [vm_compute; reflexivity|]. exists [1%nat], [0%nat]. split; [|vm_compute; reflexivity].
  split; [..|by right]; try (vm_compute; reflexivity).
  - vm_compute. split; [done|]. by exists None.
  - vm_compute. split; [done|]. by exists None.
  - apply NoDup_cons. split; [by rewrite list_elem_of_singleton|apply NoDup_singleton].
  - by vm_compute.
  - by vm_compute.
  - intros s Hs. simpl in Hs. rewrite elem_of_cons, list_elem_of_singleton in Hs.
    destruct Hs as [->| ->]; vm_compute; by eexists.
Qed.

Lemma demo_mq1_wait : may_wait demo_mq1 0 demo_main.
Proof.
  split; [|vm_compute; reflexivity|vm_compute; reflexivity|done|vm_compute; reflexivity|].
  - apply (kok_ext demo); [apply demo_kok|vm_compute; reflexivity..].
  - vm_compute. discriminate.
Qed.

Lemma rt_mq_send_correct_witness : exists x q' k',
  rt_mq_urgent 0 [4; 5] 2 demo_mq1 = Some (RT_EOK, k') /\ kok k' /\
  queue_ok k' 0 q' (post_place true [[1; 2; 3; 0; 0; 0; 0; 0]] x) /\ message [4; 5] 2 x /\
  woke_first (LMq 0) (put_mq 0 q' demo_mq1) k'.
Proof.
  apply (rt_mq_send_correct true demo_mq1 0 mq1 [[1; 2; 3; 0; 0; 0; 0; 0]] [4; 5] 2 0 demo_mq1_ok);
    [apply demo_mq1_wait|vm_compute; reflexivity|simpl; lia|vm_compute; discriminate|vm_compute; reflexivity].
Defined.

Lemma rt_mq_recv_correct_witness : exists q' k',
  rt_mq_recv 0 3 5 demo_mq1 = Some (Done (RT_EOK, Some [1; 2; 3]), k') /\ kok k' /\ queue_ok k' 0 q' [].
Proof.
  pose proof (rt_mq_recv_correct demo_mq1 0 mq1 [[1; 2; 3; 0; 0; 0; 0; 0]] 0 demo_main 3 5 demo_mq1_ok
    demo_mq1_wait ltac:(lia)) as [H _].
  apply (H [1; 2; 3; 0; 0; 0; 0; 0] []). reflexivity.
Defined.

Lemma rt_mq_control_reset_witness : exists q' k',
  rt_mq_control 0 RT_IPC_CMD_RESET 0 demo_mq1 = Some (RT_EOK, k') /\ kok k' /\
  queue_ok k' 0 q' [] /\ lst k' (LMq 0) = [] /\
  forall t size timeout d, t ∈ lst demo_mq1 (LMq 0) ->
    rt_mq_recv_resumed t 0 size timeout d k' = Some (Done (- RT_ERROR, None), k').
Proof.
  apply (rt_mq_control_reset demo_mq1 0 mq1 [[1; 2; 3; 0; 0; 0; 0; 0]] 0 0 demo_mq1_ok);
    [apply demo_mq1_wait|vm_compute; reflexivity].
Defined.
