(* ===== verification/Alloc.v ===== *)
(** * What an allocator promises

    The contract between a heap and its clients: the state describes a map from
    the addresses of the blocks in use to their bytes, and the calls change that
    map as malloc, free and realloc should.  [None] is a byte nobody has
    written. *)

From S2P Require Import Prelude.

Abbreviation blocks_map := (gmap Z (list (option Z))).

Class Allocator (S : Type) := {
  al_alloc : Z -> S -> option (Z * S);
  al_free : Z -> S -> option S;
  al_realloc : Z -> Z -> S -> option (Z * S);
  al_write : Z -> list Z -> S -> S;
  al_read : Z -> Z -> S -> list (option Z)
}.

(** The largest request whose size, rounded up, and twelve fit in 32 bits. *)
Definition max_request : Z := 2 ^ 32 - 16.

(** [q] is a new block, or the old one in its place. *)
Class AllocatorLaws (S : Type) `{Allocator S} (describes : S -> blocks_map -> Prop) := {
  al_null s L : describes s L -> L !! 0 = None;
  al_alloc_ok s L n : describes s L -> 0 <= n <= max_request -> exists p s', al_alloc n s = Some (p, s') /\
    (p = 0 /\ describes s' L \/
     p <> 0 /\ L !! p = None /\ exists c, n <= Z.of_nat (length c) /\ describes s' (<[p := c]> L));
  al_free_null s : al_free 0 s = Some s;
  al_free_ok s L p c : describes s L -> L !! p = Some c -> exists s', al_free p s = Some s' /\ describes s' (delete p L);
  al_realloc_null s n : 0 < n <= max_request -> exists k, n <= k <= max_request /\ al_realloc 0 n s = al_alloc k s;
  al_realloc_ok s L p c n : describes s L -> L !! p = Some c -> 0 < n <= max_request ->
    exists q s', al_realloc p n s = Some (q, s') /\
    (q = 0 /\ describes s' L \/
     q <> 0 /\ delete p L !! q = None /\ exists c', n <= Z.of_nat (length c') /\
       (forall i, (i < length c)%nat -> Z.of_nat i < n -> c' !! i = c !! i) /\ describes s' (<[q := c']> (delete p L)));
  al_write_ok s L p c o l : describes s L -> L !! p = Some c -> (o + length l <= length c)%nat ->
    describes (al_write (p + Z.of_nat o) l s) (<[p := list_inserts o (Some <$> l) c]> L);
  al_read_ok s L p c o n : describes s L -> L !! p = Some c -> (o + n <= length c)%nat ->
    al_read (p + Z.of_nat o) (Z.of_nat n) s = take n (drop o c)
}.
