(* ===== verification/Memheap.v ===== *)
(** * Memory heaps: kernel/memheap.c

    A heap whose blocks are linked in the order of their addresses and whose free
    blocks are linked a second time.  Headers are typed cells at their addresses;
    the bytes around them are a function, undefined under a header and where
    nothing was stored.  Writing a header destroys what is under it, and storing
    bytes destroys the headers under them, so a live header is one that nobody
    wrote over.  The lock is held from the first access to the last. *)

From S2P Require Import Prelude Ring.

(** ** Data: rtdef.h *)

Record rt_memheap_item := mk_item { magic : Z; pool_ptr : Z; next : Z; prev : Z; next_free : Z; prev_free : Z }.
Record rt_memheap := mk_heap { start_addr : Z; pool_size : Z; available_size : Z; max_used_size : Z;
  block_list : Z; free_list : Z }.

(** [self] is the address of the [struct rt_memheap]. *)
Record mem := mk_mem { self : Z; heap : rt_memheap; items : gmap Z rt_memheap_item; bytes : Z -> option Z }.

Definition RT_MEMHEAP_MAGIC : Z := 0x1ea01ea0.
Definition RT_MEMHEAP_USED : Z := 1.
Definition RT_MEMHEAP_MINIALLOC : Z := 12.
(** Six words. *)
Definition RT_MEMHEAP_SIZE : Z := RT_ALIGN 24 RT_ALIGN_SIZE.
(** Behind the object, of 44 bytes, and six words. *)
Definition free_header (self : Z) : Z := self + 68.

Definition set_next (v : Z) (i : rt_memheap_item) := mk_item (magic i) (pool_ptr i) v (prev i) (next_free i) (prev_free i).
Definition set_prev (v : Z) (i : rt_memheap_item) := mk_item (magic i) (pool_ptr i) (next i) v (next_free i) (prev_free i).
Definition set_next_free (v : Z) (i : rt_memheap_item) := mk_item (magic i) (pool_ptr i) (next i) (prev i) v (prev_free i).
Definition set_prev_free (v : Z) (i : rt_memheap_item) := mk_item (magic i) (pool_ptr i) (next i) (prev i) (next_free i) v.
Definition set_magic (v : Z) (i : rt_memheap_item) := mk_item v (pool_ptr i) (next i) (prev i) (next_free i) (prev_free i).

Definition set_items (x : gmap Z rt_memheap_item) (m : mem) : mem := mk_mem (self m) (heap m) x (bytes m).
Definition set_heap (h : rt_memheap) (m : mem) : mem := mk_mem (self m) h (items m) (bytes m).
Definition set_available (n : Z) (m : mem) : mem :=
  set_heap (mk_heap (start_addr (heap m)) (pool_size (heap m)) n (max_used_size (heap m)) (block_list (heap m)) (free_list (heap m))) m.
Definition set_max_used (n : Z) (m : mem) : mem :=
  set_heap (mk_heap (start_addr (heap m)) (pool_size (heap m)) (available_size (heap m)) n (block_list (heap m)) (free_list (heap m))) m.

(** Reading and writing a field of a header. *)
Definition rd (f : rt_memheap_item -> Z) (p : Z) (m : mem) : option Z := f <$> items m !! p.
Definition wr (p : Z) (u : rt_memheap_item -> rt_memheap_item) (m : mem) : option mem :=
  i ← items m !! p; Some (set_items (<[p := u i]> (items m)) m).

(** [n] bytes at [p] and [k] bytes at [q] have none in common. *)
Definition apart (p n q k : Z) : bool := (p + n <=? q) || (q + k <=? p).
Definition inside (a p n : Z) : bool := (p <=? a) && (a <? p + n).

(** A new header over whatever is at [p]. *)
Definition place (p : Z) (i : rt_memheap_item) (m : mem) : mem :=
  mk_mem (self m) (heap m)
    (<[p := i]> (filter (fun x => apart x.1 RT_MEMHEAP_SIZE p RT_MEMHEAP_SIZE = true) (items m)))
    (fun a => if inside a p RT_MEMHEAP_SIZE then None else bytes m a).

(** Bytes over whatever is at [p]. *)
Definition overwrite (p n : Z) (f : Z -> option Z) (m : mem) : mem :=
  mk_mem (self m) (heap m) (filter (fun x => apart x.1 RT_MEMHEAP_SIZE p n = true) (items m))
    (fun a => if inside a p n then f (a - p) else bytes m a).
Definition store (p : Z) (l : list Z) : mem -> mem := overwrite p (Z.of_nat (length l)) (fun i => l !! Z.to_nat i).
Definition rt_memcpy (dst src n : Z) (m : mem) : mem := overwrite dst n (fun i => bytes m (src + i)) m.

(** ** The pieces the operations are made of *)

Definition MEMITEM_SIZE (p : Z) (m : mem) : option Z :=
  n ← rd next p m; Some (u32 (u32 (n - p) - RT_MEMHEAP_SIZE)).
Definition RT_MEMHEAP_IS_USED (p : Z) (m : mem) : option bool :=
  g ← rd magic p m; Some (negb (Z.land g RT_MEMHEAP_USED =? 0)).

(** Take [p] off the list of free blocks. *)
Definition free_unlink (p : Z) (m : mem) : option mem :=
  a ← rd next_free p m; b ← rd prev_free p m; m ← wr a (set_prev_free b) m;
  b ← rd prev_free p m; a ← rd next_free p m; wr b (set_next_free a) m.

(** Put [p] in front of the free blocks. *)
Definition free_insert (p : Z) (m : mem) : option mem :=
  let f := free_list (heap m) in
  a ← rd next_free f m; m ← wr p (set_next_free a) m;
  m ← wr p (set_prev_free f) m;
  a ← rd next_free f m; m ← wr a (set_prev_free p) m;
  wr f (set_next_free p) m.

(** A new block [p] behind [h]. *)
Definition block_insert (h p : Z) (m : mem) : option mem :=
  a ← rd next h m;
  let m := place p (mk_item RT_MEMHEAP_MAGIC (self m) a h 0 0) m in
  m ← wr a (set_prev p) m; wr h (set_next p) m.

(** [h] takes in the block [n] behind it. *)
Definition block_merge (h n : Z) (m : mem) : option mem :=
  a ← rd next n m; m ← wr a (set_prev h) m;
  a ← rd next n m; wr h (set_next a) m.

(** Take the block [n] off the list of blocks; rt_memheap_free does the same in
    the other order. *)
Definition block_unlink (n : Z) (m : mem) : option mem :=
  a ← rd next n m; b ← rd prev n m; m ← wr a (set_prev b) m;
  b ← rd prev n m; a ← rd next n m; wr b (set_next a) m.
Definition block_unlink_left (n : Z) (m : mem) : option mem :=
  b ← rd prev n m; a ← rd next n m; m ← wr b (set_next a) m;
  a ← rd next n m; b ← rd prev n m; wr a (set_prev b) m.

(** The statistics after a block was taken. *)
Definition note_used (m : mem) : mem :=
  let used := u32 (pool_size (heap m) - available_size (heap m)) in
  if used >? max_used_size (heap m) then set_max_used used m else m.
Definition add_available (n : Z) (m : mem) : mem := set_available (u32 (available_size (heap m) + n)) m.

(** ** Operations *)

Definition rt_memheap_init (self start size : Z) (bytes : Z -> option Z) : option mem :=
  let pool := RT_ALIGN_DOWN size RT_ALIGN_SIZE in
  let available := u32 (pool - 2 * RT_MEMHEAP_SIZE) in
  let f := free_header self in
  let m := mk_mem self (mk_heap start pool available (u32 (pool - available)) start f) ∅ bytes in
  let m := place f (mk_item RT_MEMHEAP_MAGIC self 0 0 f f) m in
  let m := place start (mk_item RT_MEMHEAP_MAGIC self 0 0 start start) m in
  m ← wr start (set_next (u32 (start + available + RT_MEMHEAP_SIZE))) m;
  a ← rd next start m; m ← wr start (set_prev a) m;
  m ← free_insert start m;
  a ← rd next start m;
  Some (place a (mk_item (Z.lor RT_MEMHEAP_MAGIC RT_MEMHEAP_USED) self start start 0 0) m).

Fixpoint search (fuel : nat) (header_ptr free_size size : Z) (m : mem) : option (Z * Z) :=
  match fuel with
  | O => None
  | S fuel =>
      if negb (header_ptr =? free_list (heap m)) && (free_size <? size) then
        free_size ← MEMITEM_SIZE header_ptr m;
        if free_size <? size then
          header_ptr ← rd next_free header_ptr m; search fuel header_ptr free_size size m
        else search fuel header_ptr free_size size m
      else Some (header_ptr, free_size)
  end.

(** Every header once, and twice the test that ends the loop. *)
Definition search_fuel (m : mem) : nat := S (S (base.size (items m))).

Definition request (size : Z) : Z :=
  let size := RT_ALIGN size RT_ALIGN_SIZE in
  if size <? RT_MEMHEAP_MINIALLOC then RT_MEMHEAP_MINIALLOC else size.

(** Give the block out without or with splitting it. *)
Definition clear_free (p : Z) (m : mem) : option mem :=
  m ← wr p (set_next_free 0) m; wr p (set_prev_free 0) m.
Definition take_split (header_ptr size : Z) (m : mem) : option mem :=
  let new_ptr := u32 (header_ptr + size + RT_MEMHEAP_SIZE) in
  m ← block_insert header_ptr new_ptr m;
  m ← free_unlink header_ptr m; m ← clear_free header_ptr m;
  m ← free_insert new_ptr m;
  Some (note_used (set_available (u32 (u32 (available_size (heap m) - size) - RT_MEMHEAP_SIZE)) m)).
Definition take_whole (header_ptr free_size : Z) (m : mem) : option mem :=
  let m := note_used (set_available (u32 (available_size (heap m) - free_size)) m) in
  m ← free_unlink header_ptr m; clear_free header_ptr m.

(** 0 for [RT_NULL]. *)
Definition rt_memheap_alloc (size : Z) (m : mem) : option (Z * mem) :=
  let size := request size in
  if size <? available_size (heap m) then
    header_ptr ← rd next_free (free_list (heap m)) m;
    '(header_ptr, free_size) ← search (search_fuel m) header_ptr 0 size m;
    if free_size >=? size then
      m ← (if free_size >=? u32 (u32 (size + RT_MEMHEAP_SIZE) + RT_MEMHEAP_MINIALLOC)
           then take_split header_ptr size m else take_whole header_ptr free_size m);
      g ← rd magic header_ptr m;
      m ← wr header_ptr (set_magic (Z.lor g RT_MEMHEAP_USED)) m;
      Some (u32 (header_ptr + RT_MEMHEAP_SIZE), m)
    else Some (0, m)
  else Some (0, m).

Definition rt_memheap_free (ptr : Z) (m : mem) : option mem :=
  if ptr =? 0 then Some m else
  let header_ptr := u32 (ptr - RT_MEMHEAP_SIZE) in
  g ← rd magic header_ptr m;
  m ← wr header_ptr (set_magic (Z.land g (wnot 32 RT_MEMHEAP_USED))) m;
  n ← MEMITEM_SIZE header_ptr m;
  let m := add_available n m in
  p ← rd prev header_ptr m; u ← RT_MEMHEAP_IS_USED p m;
  '(header_ptr, insert_header, m) ← (if negb u then
      let m := add_available RT_MEMHEAP_SIZE m in
      m ← block_unlink_left header_ptr m;
      p ← rd prev header_ptr m; Some (p, false, m)
    else Some (header_ptr, true, m));
  a ← rd next header_ptr m; u ← RT_MEMHEAP_IS_USED a m;
  m ← (if negb u then
      let m := add_available RT_MEMHEAP_SIZE m in
      m ← block_merge header_ptr a m; free_unlink a m
    else Some m);
  if insert_header : bool then free_insert header_ptr m else Some m.

(** A block grows into the free block behind it. *)
Definition grow_in_place (header_ptr next_ptr oldsize newsize : Z) (m : mem) : option mem :=
  let m := note_used (set_available (u32 (available_size (heap m) - u32 (newsize - oldsize))) m) in
  m ← free_unlink next_ptr m;
  m ← block_unlink next_ptr m;
  let new_ptr := u32 (u32 (header_ptr + RT_MEMHEAP_SIZE) + newsize) in
  m ← block_insert header_ptr new_ptr m;
  free_insert new_ptr m.

(** The end of a block becomes a free block. *)
Definition shrink (header_ptr newsize : Z) (m : mem) : option mem :=
  let new_ptr := u32 (header_ptr + newsize + RT_MEMHEAP_SIZE) in
  m ← block_insert header_ptr new_ptr m;
  a ← rd next new_ptr m; u ← RT_MEMHEAP_IS_USED a m;
  m ← (if negb u then
      n ← MEMITEM_SIZE a m;
      let m := set_available (u32 (available_size (heap m) - n)) m in
      m ← block_merge new_ptr a m; free_unlink a m
    else Some m);
  m ← free_insert new_ptr m;
  n ← MEMITEM_SIZE new_ptr m; Some (add_available n m).

(** Elsewhere: a new block, a copy, and the old one is given back. *)
Definition move (ptr oldsize newsize : Z) (m : mem) : option (Z * mem) :=
  '(new_ptr, m) ← rt_memheap_alloc newsize m;
  if new_ptr =? 0 then Some (0, m) else
  m ← rt_memheap_free ptr (rt_memcpy new_ptr ptr (if oldsize <? newsize then oldsize else newsize) m);
  Some (new_ptr, m).

Definition rt_memheap_realloc (ptr newsize : Z) (m : mem) : option (Z * mem) :=
  if newsize =? 0 then m ← rt_memheap_free ptr m; Some (0, m) else
  let newsize := request newsize in
  if ptr =? 0 then rt_memheap_alloc newsize m else
  let header_ptr := u32 (ptr - RT_MEMHEAP_SIZE) in
  oldsize ← MEMITEM_SIZE header_ptr m;
  if newsize >? oldsize then
    next_ptr ← rd next header_ptr m; u ← RT_MEMHEAP_IS_USED next_ptr m;
    if negb u then
      nextsize ← MEMITEM_SIZE next_ptr m;
      if u32 (nextsize + oldsize) >? u32 (newsize + RT_MEMHEAP_MINIALLOC)
      then m ← grow_in_place header_ptr next_ptr oldsize newsize m; Some (ptr, m)
      else move ptr oldsize newsize m
    else move ptr oldsize newsize m
  else if u32 (u32 (newsize + RT_MEMHEAP_SIZE) + RT_MEMHEAP_MINIALLOC) >=? oldsize then Some (ptr, m)
  else m ← shrink header_ptr newsize m; Some (ptr, m).

(** ** The pieces on rings *)

(** A field of all headers. *)
Definition fld (f : rt_memheap_item -> Z) (m : mem) (p : Z) : option Z := rd f p m.
Abbreviation blocks_ring m := (ring (fld next m) (fld prev m)).
Abbreviation free_ring m := (ring (fld next_free m) (fld prev_free m)).

Lemma rd_wr p u m m' : wr p u m = Some m' -> forall f x,
  rd f x m' = if decide (x = p) then (fun i => f (u i)) <$> items m !! p else rd f x m.
Proof.
  unfold wr, rd. destruct (items m !! p) as [i|] eqn:E; [|done]. intros [= <-] f x. simpl.
  rewrite lookup_insert. case_decide; [by subst; rewrite decide_True|by rewrite decide_False].
Qed.

Lemma wr_spec p u m : is_Some (items m !! p) -> exists m', wr p u m = Some m' /\
  self m' = self m /\ heap m' = heap m /\ bytes m' = bytes m /\
  forall f x, rd f x m' = if decide (x = p) then (fun i => f (u i)) <$> items m !! p else rd f x m.
Proof.
  intros [i Hi]. destruct (wr p u m) as [m'|] eqn:E; [|unfold wr in E; by rewrite Hi in E].
  exists m'. pose proof (rd_wr _ _ _ _ E). unfold wr in E. rewrite Hi in E. injection E as <-. by split_and!.
Qed.

Lemma rd_some f p m v : rd f p m = Some v -> is_Some (items m !! p).
Proof. unfold rd. destruct (items m !! p); [by eexists|done]. Qed.

Lemma fld_some f p m v : fld f m p = Some v -> is_Some (items m !! p).
Proof. apply rd_some. Qed.

Lemma some_fld f p m : is_Some (items m !! p) -> exists v, rd f p m = Some v.
Proof. intros [i Hi]. unfold rd. rewrite Hi. by eexists. Qed.

(** What a piece leaves alone. *)
Record keeps (fs : list (rt_memheap_item -> Z)) (m m' : mem) : Prop := {
  k_self : self m' = self m; k_heap : heap m' = heap m; k_bytes : bytes m' = bytes m;
  k_items : forall p, is_Some (items m !! p) -> is_Some (items m' !! p);
  k_flds : forall f, f ∈ fs -> forall x, rd f x m' = rd f x m
}.

Abbreviation block_fields := [next; prev; magic].
Abbreviation free_fields := [next_free; prev_free; magic].

(** Two writes to headers, also to the same one. *)
Lemma write_two (p q : Z) (u v : rt_memheap_item -> rt_memheap_item) m :
  is_Some (items m !! p) -> is_Some (items m !! q) ->
  exists m', (m ← wr p u m; wr q v m) = Some m' /\ self m' = self m /\ heap m' = heap m /\ bytes m' = bytes m /\
    (forall x, is_Some (items m !! x) -> is_Some (items m' !! x)) /\
    (forall f x, (forall i, f (u i) = f i) -> (forall i, f (v i) = f i) -> rd f x m' = rd f x m) /\
    (forall f x w, (forall i, f (u i) = w) -> (forall i, f (v i) = f i) ->
       rd f x m' = if decide (x = p) then Some w else rd f x m) /\
    (forall f x w, (forall i, f (u i) = f i) -> (forall i, f (v i) = w) ->
       rd f x m' = if decide (x = q) then Some w else rd f x m).
Proof.
  intros [i Hi] [j Hj]. unfold wr. rewrite Hi. cbn [mbind option_bind]. unfold set_items. cbn [items].
  assert (exists k, <[p := u i]> (items m) !! q = Some k /\ k = if decide (q = p) then u i else j) as (k & Ek & ->).
  { rewrite lookup_insert. destruct (decide (p = q)) as [->|]; [rewrite decide_True by done|rewrite decide_False by done]; eexists; by split. }
  rewrite Ek. cbn [mbind option_bind]. eexists. split_and!; [done..| | | |]; unfold rd; cbn [items self heap bytes].
  - intros x Hx. rewrite !lookup_insert. repeat case_decide; (done || by eexists).
  - intros f x Hu Hv. rewrite !lookup_insert. repeat case_decide; subst; simpl; rewrite ?Hv, ?Hu, ?Hi, ?Hj; simpl; congruence.
  - intros f x w Hu Hv. rewrite !lookup_insert. repeat case_decide; subst; simpl; rewrite ?Hv, ?Hu, ?Hi, ?Hj; simpl; congruence.
  - intros f x w Hu Hv. rewrite !lookup_insert. repeat case_decide; subst; simpl; rewrite ?Hv, ?Hu, ?Hi, ?Hj; simpl; congruence.
Qed.

Lemma keeps_two fs p q u v m : is_Some (items m !! p) -> is_Some (items m !! q) ->
  Forall (fun f => forall i, f (u i) = f i /\ f (v i) = f i) fs ->
  exists m', (m ← wr p u m; wr q v m) = Some m' /\ keeps fs m m' /\
    (forall f x w, (forall i, f (u i) = w) -> (forall i, f (v i) = f i) ->
       rd f x m' = if decide (x = p) then Some w else rd f x m) /\
    (forall f x w, (forall i, f (u i) = f i) -> (forall i, f (v i) = w) ->
       rd f x m' = if decide (x = q) then Some w else rd f x m).
Proof.
  intros Hp Hq Hfs. destruct (write_two p q u v m Hp Hq) as (m' & E & H1 & H2 & H3 & H4 & H5 & H6 & H7).
  exists m'. split_and!; [done| |done|done]. split; [done..|]. intros f Hf x. rewrite Forall_forall in Hfs.
  apply H5; intros i; by apply (Hfs f Hf).
Qed.

(** Reads between the two writes see what they saw before. *)
Lemma free_unlink_two p m a b : rd next_free p m = Some a -> rd prev_free p m = Some b ->
  free_unlink p m = (m ← wr a (set_prev_free b) m; wr b (set_next_free a) m).
Proof.
  intros Ea Eb. unfold free_unlink. rewrite Ea, Eb. cbn [mbind option_bind].
  destruct (wr a _ m) as [m1|] eqn:E; [|done]. cbn [mbind option_bind]. pose proof (rd_wr _ _ _ _ E) as H.
  rewrite (H prev_free p), (H next_free p), Ea. cbn [next_free prev_free set_prev_free].
  apply rd_some in Eb as Hp. destruct Hp as [i Hi]. assert (Ea' := Ea). unfold rd in Ea'. rewrite Hi in Ea'.
  case_decide; subst; rewrite ?Hi; cbn [fmap option_fmap option_map mbind option_bind]; [by injection Ea' as ->|].
  by rewrite Eb.
Qed.

Lemma block_unlink_two p m a b : rd next p m = Some a -> rd prev p m = Some b ->
  block_unlink p m = (m ← wr a (set_prev b) m; wr b (set_next a) m).
Proof.
  intros Ea Eb. unfold block_unlink. rewrite Ea, Eb. cbn [mbind option_bind].
  destruct (wr a _ m) as [m1|] eqn:E; [|done]. cbn [mbind option_bind]. pose proof (rd_wr _ _ _ _ E) as H.
  rewrite (H prev p), (H next p), Ea. cbn [next prev set_prev].
  apply rd_some in Eb as Hp. destruct Hp as [i Hi]. assert (Ea' := Ea). unfold rd in Ea'. rewrite Hi in Ea'.
  case_decide; subst; rewrite ?Hi; cbn [fmap option_fmap option_map mbind option_bind]; [by injection Ea' as ->|].
  by rewrite Eb.
Qed.

Lemma block_unlink_left_two p m a b : rd next p m = Some a -> rd prev p m = Some b ->
  block_unlink_left p m = (m ← wr b (set_next a) m; wr a (set_prev b) m).
Proof.
  intros Ea Eb. unfold block_unlink_left. rewrite Ea, Eb. cbn [mbind option_bind].
  destruct (wr b _ m) as [m1|] eqn:E; [|done]. cbn [mbind option_bind]. pose proof (rd_wr _ _ _ _ E) as H.
  rewrite (H prev p), (H next p), Eb. cbn [next prev set_next].
  apply rd_some in Eb as Hp. destruct Hp as [i Hi]. assert (Eb' := Eb). unfold rd in Eb'. rewrite Hi in Eb'.
  case_decide; subst; rewrite ?Hi; cbn [fmap option_fmap option_map mbind option_bind]; [by injection Eb' as ->|].
  by rewrite Ea.
Qed.

(** The neighbours of a member of a ring. *)
Lemma ring_neighbours (nx pv : Z -> option Z) g l1 n l2 : ring nx pv g (l1 ++ n :: l2) ->
  exists a b, nx n = Some a /\ pv n = Some b /\ (a ∈ l2 ++ g :: l1) /\ (b ∈ l2 ++ g :: l1) /\ a <> n /\ b <> n.
Proof.
  intros Hr. apply ring_rotate in Hr. destruct (ring_next _ _ _ _ Hr) as (a & Ea & Ha), (ring_prev _ _ _ _ Hr) as (b & Eb & Hb).
  assert (Hne : l2 ++ g :: l1 <> []) by (by destruct l2).
  exists a, b. pose proof (ring_next_ne _ _ _ _ Hr Hne). pose proof (ring_prev_ne _ _ _ _ Hr Hne).
  assert (a <> n) by congruence. assert (b <> n) by congruence.
  split_and!; set_solver.
Qed.

Lemma free_member m g ts x : free_ring m g ts -> x ∈ g :: ts -> is_Some (items m !! x).
Proof. intros [Hs _] Hx. destruct (ring_member _ _ _ _ _ Hs _ Hx) as [v Hv]. by apply fld_some in Hv. Qed.

Lemma block_member m g ts x : blocks_ring m g ts -> x ∈ g :: ts -> is_Some (items m !! x).
Proof. intros [Hs _] Hx. destruct (ring_member _ _ _ _ _ Hs _ Hx) as [v Hv]. by apply fld_some in Hv. Qed.

Lemma free_unlink_spec m g l1 p l2 : free_ring m g (l1 ++ p :: l2) ->
  exists m', free_unlink p m = Some m' /\ keeps block_fields m m' /\ free_ring m' g (l1 ++ l2).
Proof.
  intros Hr. destruct (ring_neighbours _ _ _ _ _ _ Hr) as (a & b & Ea & Eb & Ha & Hb & Hap & Hbp).
  rewrite (free_unlink_two p m a b Ea Eb).
  destruct (keeps_two block_fields a b (set_prev_free b) (set_next_free a) m) as (m' & -> & Hk & H1 & H2).
  - apply (free_member m g _ a Hr). set_solver.
  - apply (free_member m g _ b Hr). set_solver.
  - by repeat constructor.
  - exists m'. split_and!; [done|done|]. eapply (ring_unsplice _ _ _ _ g l1 p l2 b a Hr); [done|done|].
    split; intros x Hx; unfold fld; [by rewrite (H2 next_free x a)|by rewrite (H1 prev_free x b)].
Qed.

Lemma block_unlink_spec m g l1 p l2 : blocks_ring m g (l1 ++ p :: l2) ->
  exists m', block_unlink p m = Some m' /\ keeps free_fields m m' /\ blocks_ring m' g (l1 ++ l2).
Proof.
  intros Hr. destruct (ring_neighbours _ _ _ _ _ _ Hr) as (a & b & Ea & Eb & Ha & Hb & Hap & Hbp).
  rewrite (block_unlink_two p m a b Ea Eb).
  destruct (keeps_two free_fields a b (set_prev b) (set_next a) m) as (m' & -> & Hk & H1 & H2).
  - apply (block_member m g _ a Hr). set_solver.
  - apply (block_member m g _ b Hr). set_solver.
  - by repeat constructor.
  - exists m'. split_and!; [done|done|]. eapply (ring_unsplice _ _ _ _ g l1 p l2 b a Hr); [done|done|].
    split; intros x Hx; unfold fld; [by rewrite (H2 next x a)|by rewrite (H1 prev x b)].
Qed.

Lemma block_unlink_left_spec m g l1 p l2 : blocks_ring m g (l1 ++ p :: l2) ->
  exists m', block_unlink_left p m = Some m' /\ keeps free_fields m m' /\ blocks_ring m' g (l1 ++ l2) /\
    rd prev p m' = rd prev p m.
Proof.
  intros Hr. destruct (ring_neighbours _ _ _ _ _ _ Hr) as (a & b & Ea & Eb & Ha & Hb & Hap & Hbp).
  rewrite (block_unlink_left_two p m a b Ea Eb).
  destruct (keeps_two free_fields b a (set_next a) (set_prev b) m) as (m' & -> & Hk & H1 & H2).
  - apply (block_member m g _ b Hr). set_solver.
  - apply (block_member m g _ a Hr). set_solver.
  - by repeat constructor.
  - exists m'. split_and!; [done|done| |by rewrite (H2 prev p b), decide_False]. eapply (ring_unsplice _ _ _ _ g l1 p l2 b a Hr); [done|done|].
    split; intros x Hx; unfold fld; [by rewrite (H1 next x a)|by rewrite (H2 prev x b)].
Qed.

Lemma block_merge_spec m g l1 h n l2 : blocks_ring m g (l1 ++ h :: n :: l2) ->
  exists m', block_merge h n m = Some m' /\ keeps free_fields m m' /\ blocks_ring m' g (l1 ++ h :: l2).
Proof.
  intros Hr. assert (Hr' := Hr). change (h :: n :: l2) with ([h] ++ n :: l2) in Hr'. rewrite app_assoc in Hr'.
  destruct (ring_neighbours _ _ _ _ _ _ Hr') as (a & b & Ea & Eb & Ha & Hb & Han & Hbn).
  assert (b = h) as -> by (destruct Hr as [Hs _]; apply ring_seg_app in Hs as [_ (? & ? & _)]; congruence).
  assert (E : block_merge h n m = (m ← wr a (set_prev h) m; wr h (set_next a) m)).
  { unfold block_merge. unfold fld in Ea. rewrite Ea. cbn [mbind option_bind]. destruct (wr a _ m) as [m1|] eqn:E; [|done].
    cbn [mbind option_bind]. rewrite (rd_wr _ _ _ _ E next n), decide_False, Ea by done. done. }
  rewrite E. destruct (keeps_two free_fields a h (set_prev h) (set_next a) m) as (m' & -> & Hk & H1 & H2).
  - apply (block_member m g _ a Hr). set_solver.
  - apply (block_member m g _ h Hr). set_solver.
  - by repeat constructor.
  - exists m'. split_and!; [done|done|]. change (h :: l2) with ([h] ++ l2). rewrite app_assoc.
    eapply (ring_unsplice _ _ _ _ g (l1 ++ [h]) n l2 h a Hr'); [done|done|].
    split; intros x Hx; unfold fld; [by rewrite (H2 next x a)|by rewrite (H1 prev x h)].
Qed.

Lemma free_insert_spec p m ts : free_ring m (free_list (heap m)) ts -> is_Some (items m !! p) ->
  p ∉ free_list (heap m) :: ts ->
  exists m', free_insert p m = Some m' /\ keeps block_fields m m' /\ free_ring m' (free_list (heap m)) (p :: ts).
Proof.
  set (g := free_list (heap m)). intros Hr Hp Hn. destruct (ring_next _ _ _ _ Hr) as (a & Ea & Ha).
  assert (Hg : is_Some (items m !! g)) by (by eapply fld_some).
  assert (Hai : is_Some (items m !! a)) by (by eapply free_member).
  unfold free_insert. fold g. unfold fld in Ea. rewrite Ea. cbn [mbind option_bind].
  destruct (keeps_two block_fields p p (set_next_free a) (set_prev_free g) m) as (m1 & E1 & K1 & A1 & A2);
    [done|done|by repeat constructor|].
  destruct (wr p (set_next_free a) m) as [m0|]; [|done]. cbn [mbind option_bind] in E1 |- *. rewrite E1. cbn [mbind option_bind].
  rewrite (A1 next_free g a), decide_False, Ea by (done || set_solver). cbn [mbind option_bind].
  destruct (keeps_two block_fields a g (set_prev_free p) (set_next_free p) m1) as (m2 & E2 & K2 & B1 & B2);
    [by apply K1|by apply K1|by repeat constructor|].
  destruct (wr a (set_prev_free p) m1) as [m3|] eqn:E3; [|done]. cbn [mbind option_bind] in E2 |- *. rewrite E2.
  exists m2. split; [done|]. split.
  - destruct K1 as [S1 S2 S3 S4 S5], K2 as [T1 T2 T3 T4 T5]. split; [congruence..| |]; [by auto|].
    intros f Hf x. by rewrite T5, S5.
  - assert (Hr1 : free_ring m1 g ts).
    { apply (ring_frame _ _ _ _ _ _ Hr). intros x Hx. unfold fld.
      assert (x <> p) by (intros ->; by apply Hn).
      by rewrite (A1 next_free x a), (A2 prev_free x g), !decide_False by done. }
    apply (ring_splice_front _ _ _ _ g ts a p Hr1); [|done|].
    + unfold fld. rewrite (A1 next_free g a) by done. by rewrite decide_False by set_solver.
    + split; intros x; unfold fld.
      * rewrite (B2 next_free x p), (A1 next_free x a) by done. repeat case_decide; subst; (done || set_solver).
      * rewrite (B1 prev_free x p), (A2 prev_free x g) by done. repeat case_decide; subst; (done || set_solver).
Qed.

(** ** Placing headers *)

Lemma rd_place f x p i m : rd f x (place p i m) =
  if decide (x = p) then Some (f i) else if apart x RT_MEMHEAP_SIZE p RT_MEMHEAP_SIZE then rd f x m else None.
Proof.
  unfold rd, place. cbn [items]. rewrite lookup_insert. case_decide as E.
  - subst. by rewrite decide_True.
  - rewrite decide_False by done. rewrite map_lookup_filter. destruct (items m !! x) as [j|]; simpl; [|by destruct (apart _ _ _ _)].
    destruct (apart _ _ _ _) eqn:Ea; case_guard; simpl; congruence.
Qed.

Lemma ring_place f g p i m h ts : ring (fld f m) (fld g m) h ts ->
  (forall x, x ∈ h :: ts -> apart x RT_MEMHEAP_SIZE p RT_MEMHEAP_SIZE = true) ->
  ring (fld f (place p i m)) (fld g (place p i m)) h ts.
Proof.
  intros Hr Ha. apply (ring_frame _ _ _ _ _ _ Hr). intros x Hx. unfold fld. rewrite !rd_place, (Ha x Hx).
  rewrite !decide_False; [done|..]; intros ->; specialize (Ha p Hx); unfold apart, RT_MEMHEAP_SIZE in Ha;
    apply orb_true_iff in Ha; rewrite !Z.leb_le in Ha; change (RT_ALIGN 24 RT_ALIGN_SIZE) with 24 in Ha; lia.
Qed.

Lemma block_insert_spec m g l1 h l2 p a : blocks_ring m g (l1 ++ h :: l2) -> rd next h m = Some a ->
  (forall x, x ∈ g :: l1 ++ h :: l2 -> apart x RT_MEMHEAP_SIZE p RT_MEMHEAP_SIZE = true) ->
  exists m', block_insert h p m = Some m' /\
    keeps free_fields (place p (mk_item RT_MEMHEAP_MAGIC (self m) a h 0 0) m) m' /\
    blocks_ring m' g (l1 ++ h :: p :: l2).
Proof.
  intros Hr Ea Hp. unfold block_insert. rewrite Ea. cbn [mbind option_bind]. set (m1 := place _ _ m).
  assert (Hr1 : blocks_ring m1 g (l1 ++ h :: l2)) by (by apply ring_place).
  assert (Hr1' := Hr1). apply ring_rotate in Hr1'.
  assert (Hne : forall x, x ∈ g :: l1 ++ h :: l2 -> x <> p).
  { intros x Hx ->. specialize (Hp p Hx). unfold apart, RT_MEMHEAP_SIZE in Hp. apply orb_true_iff in Hp.
    rewrite !Z.leb_le in Hp. change (RT_ALIGN 24 RT_ALIGN_SIZE) with 24 in Hp. lia. }
  assert (Hhp : h <> p) by (apply Hne; set_solver).
  assert (Ea1 : rd next h m1 = Some a).
  { unfold m1. rewrite rd_place, decide_False, (Hp h) by (done || set_solver). done. }
  destruct (ring_next _ _ _ _ Hr1') as (a' & Ea' & Ha). assert (a' = a) as -> by (unfold fld in Ea'; congruence).
  destruct (keeps_two free_fields a h (set_prev p) (set_next p) m1) as (m2 & E2 & K2 & B1 & B2).
  { apply (block_member m1 g _ a Hr1). set_solver. } { by eapply rd_some. } { by repeat constructor. }
  exists m2. split_and!; [done|done|]. change (h :: p :: l2) with (h :: (p :: l2)). apply ring_rotate.
  apply (ring_splice_front _ _ _ _ h (l2 ++ g :: l1) a p Hr1'); [done| |].
  - intros Hin. apply (Hne p); [set_solver|done].
  - assert (a <> p) by (apply Hne; set_solver). split; intros x; unfold fld.
    + rewrite (B2 next x p) by done. unfold m1. rewrite rd_place. repeat case_decide; subst; done.
    + rewrite (B1 prev x p) by done. unfold m1. rewrite rd_place. repeat case_decide; subst; done.
Qed.
