(* ===== verification/MemheapSafe.v ===== *)
(** * Memory heaps are sound

    The invariant of a heap, what each operation of file Memheap does to it, and
    the specification: a heap is a map from the addresses it gave out to the
    bytes there. *)

From S2P Require Import Prelude Ring Memheap.

(** ** Blocks in the order of their addresses *)

Record block := mk_block { addr : Z; bsize : Z; used : bool }.

(** The blocks fill the room from an address up to the last header. *)
Fixpoint layout (a : Z) (bl : list block) (fin : Z) : Prop :=
  match bl with
  | [] => a = fin
  | b :: bl => addr b = a /\ RT_MEMHEAP_MINIALLOC <= bsize b /\ layout (a + 24 + bsize b) bl fin
  end.

Definition faddrs (bl : list block) : list Z := addr <$> filter (fun b => used b = false) bl.

(** What is free, headers not counted. *)
Fixpoint free_bytes (bl : list block) : Z :=
  match bl with
  | [] => 0
  | b :: bl => (if used b then 0 else bsize b) + free_bytes bl
  end.

(** Free blocks are never neighbours. *)
Fixpoint merged (bl : list block) : Prop :=
  match bl with
  | [] => True
  | b :: bl => match bl with c :: _ => used b || used c = true | [] => True end /\ merged bl
  end.

Lemma layout_app a l1 l2 fin : layout a (l1 ++ l2) fin <-> exists mid, layout a l1 mid /\ layout mid l2 fin.
Proof.
  revert a. induction l1 as [|b l1 IH]; intros a; simpl.
  - split; [intros; by exists a|by intros (? & -> & ?)].
  - rewrite IH. split; [intros (? & ? & mid & ? & ?)|intros (mid & (? & ? & ?) & ?)]; [by exists mid|].
    split_and!; [done|done|by exists mid].
Qed.

Lemma layout_le a bl fin : layout a bl fin -> a <= fin.
Proof.
  revert a. induction bl as [|b bl IH]; intros a; simpl; [lia|]. intros (? & ? & H%IH).
  unfold RT_MEMHEAP_MINIALLOC in *. lia.
Qed.

Lemma layout_in a bl fin b : layout a bl fin -> b ∈ bl ->
  a <= addr b /\ RT_MEMHEAP_MINIALLOC <= bsize b /\ addr b + 24 + bsize b <= fin.
Proof.
  revert a. induction bl as [|c bl IH]; intros a; [by intros _ ?%not_elem_of_nil|]. simpl. intros (Ha & Hs & H) Hb.
  apply elem_of_cons in Hb as [->|Hb]; [apply layout_le in H; lia|]. apply (IH _ H) in Hb.
  unfold RT_MEMHEAP_MINIALLOC in *. lia.
Qed.

Lemma layout_split a l1 b l2 fin : layout a (l1 ++ b :: l2) fin ->
  (forall c, c ∈ l1 -> addr c + 24 + bsize c <= addr b) /\ (forall c, c ∈ l2 -> addr b + 24 + bsize b <= addr c) /\
  layout a l1 (addr b) /\ RT_MEMHEAP_MINIALLOC <= bsize b /\ layout (addr b + 24 + bsize b) l2 fin.
Proof.
  intros H. apply layout_app in H as (mid & H1 & <- & H2 & H3). split_and!; try done.
  - intros c Hc. by apply (layout_in _ _ _ _ H1).
  - intros c Hc. by apply (layout_in _ _ _ _ H3).
Qed.

Lemma layout_disjoint a bl fin b c : layout a bl fin -> b ∈ bl -> c ∈ bl ->
  b = c \/ addr b + 24 + bsize b <= addr c \/ addr c + 24 + bsize c <= addr b.
Proof.
  intros H Hb Hc. apply list_elem_of_split in Hb as (l1 & l2 & ->). destruct (layout_split _ _ _ _ _ H) as (H1 & H2 & _).
  apply elem_of_app in Hc as [Hc|Hc]; [right; right; by apply H1|]. apply elem_of_cons in Hc as [->|Hc]; [by left|].
  right; left; by apply H2.
Qed.

Lemma faddrs_app l1 l2 : faddrs (l1 ++ l2) = faddrs l1 ++ faddrs l2.
Proof. unfold faddrs. by rewrite filter_app, fmap_app. Qed.
Lemma faddrs_cons b l : faddrs (b :: l) = (if used b then [] else [addr b]) ++ faddrs l.
Proof. unfold faddrs. rewrite filter_cons. case_decide as E; [by rewrite E|]. by destruct (used b). Qed.
Lemma faddrs_elem a l : a ∈ faddrs l -> exists b, b ∈ l /\ addr b = a /\ used b = false.
Proof.
  unfold faddrs. intros Ha. apply list_elem_of_fmap in Ha as (b & -> & Hb). apply list_elem_of_filter in Hb as [? ?]. by exists b.
Qed.
Lemma free_bytes_app l1 l2 : free_bytes (l1 ++ l2) = free_bytes l1 + free_bytes l2.
Proof. induction l1 as [|b l1 IH]; simpl; [done|]. rewrite IH. lia. Qed.
Lemma free_bytes_nonneg a bl fin : layout a bl fin ->
  0 <= free_bytes bl /\ free_bytes bl + 24 * Z.of_nat (length bl) <= fin - a.
Proof.
  revert a. induction bl as [|b bl IH]; intros a; simpl; [lia|]. intros (? & ? & H%IH).
  unfold RT_MEMHEAP_MINIALLOC in *. destruct (used b); lia.
Qed.

(** ** The links *)

Definition mag (u : bool) : Z := if u then Z.lor RT_MEMHEAP_MAGIC RT_MEMHEAP_USED else RT_MEMHEAP_MAGIC.

Record links (m : mem) (fin : Z) (bl : list block) (fr : list Z) : Prop := {
  l_blocks : blocks_ring m fin (addr <$> bl);
  l_free : free_ring m (free_list (heap m)) fr;
  l_magic : forall b, b ∈ bl -> rd magic (addr b) m = Some (mag (used b));
  l_fin : rd magic fin m = Some (mag true)
}.

(** Statistics are no links. *)
Lemma links_heap m fin bl fr h : free_list h = free_list (heap m) -> links m fin bl fr -> links (set_heap h m) fin bl fr.
Proof. intros E [H1 H2 H3 H4]. split; [done|by simpl; rewrite E|done|done]. Qed.

Lemma keeps_trans fs m1 m2 m3 : keeps fs m1 m2 -> keeps fs m2 m3 -> keeps fs m1 m3.
Proof. intros [A1 A2 A3 A4 A5] [B1 B2 B3 B4 B5]. split; [congruence..|by auto|]. intros f Hf x. by rewrite B5, A5. Qed.

(** A piece that works on the free list, and one that works on the blocks. *)
Lemma links_free m m' fin bl fr fr' : links m fin bl fr -> keeps block_fields m m' ->
  free_ring m' (free_list (heap m)) fr' -> links m' fin bl fr'.
Proof.
  intros [H1 H2 H3 H4] [K1 K2 K3 K4 K5] Hf. split.
  - apply (ring_frame _ _ _ _ _ _ H1). intros x _. unfold fld. by rewrite !K5 by set_solver.
  - by rewrite K2.
  - intros b Hb. rewrite K5 by set_solver. by apply H3.
  - by rewrite K5 by set_solver.
Qed.

Lemma links_blocks m m' fin bl bl' fr : links m fin bl fr -> keeps free_fields m m' ->
  blocks_ring m' fin (addr <$> bl') -> (forall b, b ∈ bl' -> rd magic (addr b) m = Some (mag (used b))) ->
  links m' fin bl' fr.
Proof.
  intros [H1 H2 H3 H4] [K1 K2 K3 K4 K5] Hb Hm. split; [done| | |].
  - rewrite K2. apply (ring_frame _ _ _ _ _ _ H2). intros x _. unfold fld. by rewrite !K5 by set_solver.
  - intros b Hin. rewrite K5 by set_solver. by apply Hm.
  - by rewrite K5 by set_solver.
Qed.

Lemma links_magic m fin l1 b l2 fr v u : links m fin (l1 ++ b :: l2) fr -> v = mag u ->
  exists m', wr (addr b) (set_magic v) m = Some m' /\ links m' fin (l1 ++ mk_block (addr b) (bsize b) u :: l2) fr /\
    self m' = self m /\ heap m' = heap m /\ bytes m' = bytes m.
Proof.
  intros [H1 H2 H3 H4] ->. assert (Hd : NoDup (fin :: (addr <$> l1 ++ b :: l2))) by apply H1.
  destruct (wr_spec (addr b) (set_magic (mag u)) m) as (m' & -> & E1 & E2 & E3 & E).
  { apply (block_member m fin _ _ H1). right. apply list_elem_of_fmap. exists b. split; [done|]. set_solver. }
  assert (Hk : forall f, (forall i, f (set_magic (mag u) i) = f i) -> forall x, rd f x m' = rd f x m).
  { intros f Hf x. rewrite E. case_decide; [|done]. subst. unfold rd. destruct (items m !! addr b); simpl; [by rewrite Hf|done]. }
  exists m'. split_and!; [done| |done..]. rewrite fmap_app in Hd. simpl in Hd.
  assert (Hnotin : (addr b ∉ fin :: (addr <$> l1) ++ (addr <$> l2))).
  { assert (NoDup (addr b :: fin :: (addr <$> l1) ++ (addr <$> l2))) as [? _]%NoDup_cons; [|done].
    eapply NoDup_Permutation_proper; [|exact Hd]. solve_Permutation. }
  split.
  - rewrite fmap_app in H1 |- *. apply (ring_frame _ _ _ _ _ _ H1). intros x _. unfold fld. by rewrite !Hk.
  - rewrite E2. apply (ring_frame _ _ _ _ _ _ H2). intros x _. unfold fld. by rewrite !Hk.
  - intros c Hc. assert (c = mk_block (addr b) (bsize b) u \/ c ∈ l1 ++ l2) as [->|Hc'] by set_solver.
    + simpl. rewrite E, decide_True by done.
      destruct (some_fld magic (addr b) m) as [v Hv]; [eapply rd_some; apply H3; set_solver|].
      unfold rd in Hv. by destruct (items m !! addr b).
    + rewrite E, decide_False; [apply H3; set_solver|]. intros Eq. apply Hnotin. rewrite <- Eq. right.
      rewrite <- fmap_app. by apply list_elem_of_fmap_2.
  - rewrite E, decide_False; [done|]. intros ->. apply Hnotin. by left.
Qed.

(** A new header apart from all live ones. *)
Lemma links_place m fin bl fr p i : links m fin bl fr ->
  (forall x, x ∈ fin :: (addr <$> bl) ++ free_list (heap m) :: fr -> apart x RT_MEMHEAP_SIZE p RT_MEMHEAP_SIZE = true) ->
  links (place p i m) fin bl fr.
Proof.
  intros [H1 H2 H3 H4] Hp.
  assert (Hm : forall x, x ∈ fin :: (addr <$> bl) -> rd magic x (place p i m) = rd magic x m).
  { intros x Hx. assert (Ha : apart x RT_MEMHEAP_SIZE p RT_MEMHEAP_SIZE = true) by (apply Hp; set_solver).
    rewrite rd_place, Ha, decide_False; [done|]. intros ->. unfold apart in Ha. change RT_MEMHEAP_SIZE with 24 in Ha. lia. }
  split.
  - apply ring_place; [done|]. intros x Hx. apply Hp. set_solver.
  - apply ring_place; [done|]. intros x Hx. apply Hp. set_solver.
  - intros b Hb. rewrite Hm; [by apply H3|]. right. by apply list_elem_of_fmap_2.
  - rewrite Hm; [done|by left].
Qed.

(** A new block behind [b], not yet on the free list. *)
Lemma links_insert m fin l1 b l2 fr p s r : links m fin (l1 ++ b :: l2) fr ->
  (forall x, x ∈ fin :: (addr <$> l1 ++ b :: l2) ++ free_list (heap m) :: fr -> apart x RT_MEMHEAP_SIZE p RT_MEMHEAP_SIZE = true) ->
  exists m', block_insert (addr b) p m = Some m' /\
    links m' fin (l1 ++ mk_block (addr b) s (used b) :: mk_block p r false :: l2) fr /\
    self m' = self m /\ heap m' = heap m /\
    (forall a, bytes m' a = if inside a p RT_MEMHEAP_SIZE then None else bytes m a).
Proof.
  intros Hl Hp. assert (Hr := l_blocks _ _ _ _ Hl). rewrite fmap_app in Hr. simpl in Hr.
  destruct (ring_neighbours _ _ _ _ _ _ Hr) as (a & _ & Ea & _).
  destruct (block_insert_spec m fin (addr <$> l1) (addr b) (addr <$> l2) p a Hr Ea) as (m' & E & K & Hr').
  { intros x Hx. apply Hp. rewrite fmap_app. simpl. set_solver. }
  exists m'. split; [done|]. set (i := mk_item _ _ _ _ _ _) in K.
  pose proof (links_place m fin _ fr p i Hl Hp) as Hl'. split_and!; [|apply K|apply K|intros x; by rewrite (k_bytes _ _ _ K)].
  apply (links_blocks _ m' fin _ _ fr Hl' K); [by rewrite fmap_app|].
  intros c Hc. assert (c = mk_block p r false \/ exists c', c' ∈ l1 ++ b :: l2 /\ addr c = addr c' /\ used c = used c') as [->|(c' & Hc' & -> & ->)].
  { apply elem_of_app in Hc as [Hc|Hc]; [right; exists c; set_solver|].
    apply elem_of_cons in Hc as [->|Hc]; [right; exists b; set_solver|].
    apply elem_of_cons in Hc as [->|Hc]; [by left|right; exists c; set_solver]. }
  - simpl. by rewrite rd_place, decide_True.
  - by apply (l_magic _ _ _ _ Hl').
Qed.

Lemma links_free_insert m fin bl fr p : links m fin bl fr -> p ∈ addr <$> bl -> p ∉ free_list (heap m) :: fr ->
  exists m', free_insert p m = Some m' /\ links m' fin bl (p :: fr) /\ self m' = self m /\ heap m' = heap m /\ bytes m' = bytes m.
Proof.
  intros Hl Hp Hn. destruct (free_insert_spec p m fr) as (m' & E & K & Hf); [apply Hl| |done|].
  { apply (block_member m fin _ p (l_blocks _ _ _ _ Hl)). by right. }
  exists m'. split_and!; [done|by eapply links_free|apply K..].
Qed.

Lemma links_free_unlink m fin bl f1 p f2 : links m fin bl (f1 ++ p :: f2) ->
  exists m', free_unlink p m = Some m' /\ links m' fin bl (f1 ++ f2) /\ self m' = self m /\ heap m' = heap m /\ bytes m' = bytes m.
Proof.
  intros Hl. destruct (free_unlink_spec m _ f1 p f2 (l_free _ _ _ _ Hl)) as (m' & E & K & Hf).
  exists m'. split_and!; [done|by eapply links_free|apply K..].
Qed.

Lemma links_clear_free m fin bl fr p : links m fin bl fr -> p ∈ addr <$> bl -> p ∉ free_list (heap m) :: fr ->
  exists m', clear_free p m = Some m' /\ links m' fin bl fr /\ self m' = self m /\ heap m' = heap m /\ bytes m' = bytes m.
Proof.
  intros Hl Hp Hn. assert (is_Some (items m !! p)) as Hi.
  { apply (block_member m fin _ p (l_blocks _ _ _ _ Hl)). by right. }
  destruct (keeps_two block_fields p p (set_next_free 0) (set_prev_free 0) m Hi Hi) as (m' & E & K & H1 & H2); [by repeat constructor|].
  exists m'. split_and!; [done| |apply K..]. apply (links_free m m' fin bl fr fr Hl K).
  apply (ring_frame _ _ _ _ _ _ (l_free _ _ _ _ Hl)). intros x Hx. unfold fld.
  assert (x <> p) by (intros ->; done). by rewrite (H1 next_free x 0), (H2 prev_free x 0), !decide_False.
Qed.

Lemma links_merge m fin l1 b c l2 fr s : links m fin (l1 ++ b :: c :: l2) fr ->
  exists m', block_merge (addr b) (addr c) m = Some m' /\
    links m' fin (l1 ++ mk_block (addr b) s (used b) :: l2) fr /\ self m' = self m /\ heap m' = heap m /\ bytes m' = bytes m.
Proof.
  intros Hl. assert (Hr := l_blocks _ _ _ _ Hl). rewrite fmap_app in Hr. simpl in Hr.
  destruct (block_merge_spec _ _ _ _ _ _ Hr) as (m' & E & K & Hr'). exists m'. split_and!; [done| |apply K..].
  apply (links_blocks _ m' fin _ _ fr Hl K); [by rewrite fmap_app|].
  intros d Hd. apply elem_of_app in Hd as [Hd|Hd]; [apply (l_magic _ _ _ _ Hl); set_solver|].
  apply elem_of_cons in Hd as [->|Hd]; [apply (l_magic _ _ _ _ Hl b); set_solver|apply (l_magic _ _ _ _ Hl); set_solver].
Qed.

(** ** The invariant *)

(** The last header. *)
Definition last_header (m : mem) : Z := start_addr (heap m) + pool_size (heap m) - 24.

(** The heap lies in the address space, clear of the list head in its struct. *)
Definition placed (m : mem) : Prop :=
  0 <= start_addr (heap m) /\ start_addr (heap m) + pool_size (heap m) < 2 ^ 32 /\ 48 <= pool_size (heap m) /\
  (free_list (heap m) + 24 <= start_addr (heap m) \/ start_addr (heap m) + pool_size (heap m) <= free_list (heap m)).

Record rep (m : mem) (bl : list block) (fr : list Z) : Prop := {
  r_links : links m (last_header m) bl fr;
  r_layout : layout (start_addr (heap m)) bl (last_header m);
  r_perm : fr ≡ₚ faddrs bl;
  r_avail : available_size (heap m) = free_bytes bl;
  r_merged : merged bl;
  r_used : pool_size (heap m) - available_size (heap m) <= max_used_size (heap m);
  r_placed : placed m
}.

(** What an operation never changes. *)
Definition same_heap (m m' : mem) : Prop := self m' = self m /\ start_addr (heap m') = start_addr (heap m) /\
  pool_size (heap m') = pool_size (heap m) /\ free_list (heap m') = free_list (heap m).

Lemma same_placed m m' : same_heap m m' -> placed m -> placed m' /\ last_header m' = last_header m.
Proof. intros (E0 & E1 & E2 & E3). unfold placed, last_header. by rewrite E1, E2, E3. Qed.

(** The part of the invariant that the pieces keep. *)
Record shape (m : mem) (bl : list block) (fr : list Z) : Prop := {
  s_links : links m (last_header m) bl fr;
  s_layout : layout (start_addr (heap m)) bl (last_header m);
  s_placed : placed m
}.

Lemma rep_shape m bl fr : rep m bl fr -> shape m bl fr.
Proof. intros HR. split; apply HR. Qed.

Section shape.
Context (m : mem) (bl : list block) (fr : list Z) (HS : shape m bl fr).

Lemma shape_in b : b ∈ bl -> start_addr (heap m) <= addr b /\ 12 <= bsize b /\ addr b + 24 + bsize b <= last_header m.
Proof using HS. apply (layout_in _ _ _ _ (s_layout _ _ _ HS)). Qed.

Lemma shape_next l1 b l2 : bl = l1 ++ b :: l2 -> rd next (addr b) m = Some (addr b + 24 + bsize b).
Proof using HS.
  intros E. pose proof (l_blocks _ _ _ _ (s_links _ _ _ HS)) as [Hs _]. pose proof (s_layout _ _ _ HS) as Hl. rewrite E in *.
  destruct (layout_split _ _ _ _ _ Hl) as (_ & _ & _ & _ & H2). rewrite fmap_app in Hs. simpl in Hs.
  apply ring_seg_app in Hs as [_ Hs]. destruct l2 as [|c l2]; simpl in Hs, H2.
  - rewrite H2. apply Hs.
  - destruct H2 as (<- & _). apply Hs.
Qed.

Lemma shape_size l1 b l2 : bl = l1 ++ b :: l2 -> MEMITEM_SIZE (addr b) m = Some (bsize b).
Proof using HS.
  intros E. unfold MEMITEM_SIZE. rewrite (shape_next _ _ _ E). cbn [mbind option_bind]. change RT_MEMHEAP_SIZE with 24.
  destruct (shape_in b) as (? & ? & ?); [set_solver|]. destruct (s_placed _ _ _ HS) as (? & ? & ? & _). unfold last_header in *.
  f_equal. unwrap. lia.
Qed.

Lemma shape_size_in b : b ∈ bl -> MEMITEM_SIZE (addr b) m = Some (bsize b).
Proof using HS. intros (l1 & l2 & E)%list_elem_of_split. by eapply shape_size. Qed.

(** The flag of the block behind [b], and of the one in front. *)
Lemma shape_next_used l1 b l2 : bl = l1 ++ b :: l2 ->
  RT_MEMHEAP_IS_USED (addr b + 24 + bsize b) m = Some (match l2 with c :: _ => used c | [] => true end).
Proof using HS.
  intros E. pose proof (s_layout _ _ _ HS) as Hl. rewrite E in Hl.
  destruct (layout_split _ _ _ _ _ Hl) as (_ & _ & _ & _ & H2). unfold RT_MEMHEAP_IS_USED.
  destruct l2 as [|c l2]; simpl in H2.
  - rewrite H2, (l_fin _ _ _ _ (s_links _ _ _ HS)). done.
  - destruct H2 as (<- & _). rewrite (l_magic _ _ _ _ (s_links _ _ _ HS)) by set_solver. cbn [mbind option_bind]. by destruct (used c).
Qed.

Lemma shape_prev l1 b l2 : bl = l1 ++ b :: l2 ->
  rd prev (addr b) m = Some (match last l1 with Some c => addr c | None => last_header m end).
Proof using HS.
  intros E. pose proof (l_blocks _ _ _ _ (s_links _ _ _ HS)) as [Hs _]. rewrite E, fmap_app in Hs. simpl in Hs.
  apply ring_seg_app in Hs as [Hs _]. destruct l1 as [|c l1 _] using rev_ind; [apply Hs|].
  rewrite last_snoc. rewrite fmap_app in Hs. simpl in Hs. by apply ring_seg_app in Hs as [_ (_ & ?)].
Qed.

Lemma shape_prev_used l1 b l2 : bl = l1 ++ b :: l2 ->
  RT_MEMHEAP_IS_USED (match last l1 with Some c => addr c | None => last_header m end) m =
  Some (match last l1 with Some c => used c | None => true end).
Proof using HS.
  intros E. unfold RT_MEMHEAP_IS_USED. destruct (last l1) as [c|] eqn:El.
  - apply last_Some in El as [l' ->]. rewrite (l_magic _ _ _ _ (s_links _ _ _ HS)) by set_solver. cbn [mbind option_bind]. by destruct (used c).
  - by rewrite (l_fin _ _ _ _ (s_links _ _ _ HS)).
Qed.

End shape.

Section heap.
Context (m : mem) (bl : list block) (fr : list Z) (HR : rep m bl fr).

Lemma rep_in b : b ∈ bl -> start_addr (heap m) <= addr b /\ 12 <= bsize b /\ addr b + 24 + bsize b <= last_header m.
Proof using HR. apply (shape_in m bl fr), rep_shape, HR. Qed.

Lemma rep_size_in b : b ∈ bl -> MEMITEM_SIZE (addr b) m = Some (bsize b).
Proof using HR. apply (shape_size_in m bl fr), rep_shape, HR. Qed.

Lemma rep_free p : p ∈ fr -> exists b, b ∈ bl /\ addr b = p /\ used b = false.
Proof using HR. rewrite (r_perm _ _ _ HR). apply faddrs_elem. Qed.

Lemma rep_avail_le : 0 <= free_bytes bl /\ free_bytes bl + 24 * Z.of_nat (length bl) <= pool_size (heap m) - 24.
Proof using HR. pose proof (free_bytes_nonneg _ _ _ (r_layout _ _ _ HR)). unfold last_header in *. lia. Qed.

(** The list head and the headers are apart from what lies inside a block. *)
Lemma rep_apart p l1 b l2 : bl = l1 ++ b :: l2 -> addr b + 24 <= p -> p + 24 <= addr b + 24 + bsize b ->
  forall x, x ∈ last_header m :: (addr <$> bl) ++ free_list (heap m) :: fr -> apart x RT_MEMHEAP_SIZE p RT_MEMHEAP_SIZE = true.
Proof using HR.
  intros E Hp1 Hp2. assert (Hin : b ∈ bl) by set_solver. destruct (rep_in b Hin) as (? & ? & ?).
  destruct (r_placed _ _ _ HR) as (? & ? & ? & Hf). unfold last_header in *.
  assert (Hb : forall x, x ∈ addr <$> bl -> x + 24 <= p \/ p + 24 <= x).
  { intros x Hx. apply list_elem_of_fmap in Hx as (c & -> & Hc).
    destruct (layout_disjoint _ _ _ b c (r_layout _ _ _ HR) Hin Hc) as [->|[|]]; [lia|lia|].
    destruct (rep_in c Hc) as (? & ? & ?). lia. }
  intros x Hx. unfold apart. change RT_MEMHEAP_SIZE with 24. apply orb_true_iff. rewrite !Z.leb_le.
  apply elem_of_cons in Hx as [->|Hx]; [right; lia|]. apply elem_of_app in Hx as [Hx|Hx]; [by apply Hb|].
  apply elem_of_cons in Hx as [->|Hx]; [lia|]. apply rep_free in Hx as (c & Hc & <- & _). apply Hb.
  by apply list_elem_of_fmap_2.
Qed.

(** The search finds the first free block that is large enough. *)
Lemma search_spec size f2 : forall f1 fuel n, fr = f1 ++ f2 -> n < size -> (S (length f2) < fuel)%nat ->
  exists h k, search fuel (match f2 with p :: _ => p | [] => free_list (heap m) end) n size m = Some (h, k) /\
    (k < size /\ (forall b, b ∈ bl -> addr b ∈ f2 -> bsize b < size) \/
     size <= k /\ h ∈ f2 /\ exists b, b ∈ bl /\ addr b = h /\ used b = false /\ bsize b = k).
Proof using HR.
  induction f2 as [|p f2 IH]; intros f1 fuel n E Hn Hf; (destruct fuel as [|fuel]; [simpl in Hf; lia|]); cbn [search].
  - rewrite Z.eqb_refl. simpl. exists (free_list (heap m)), n. split; [done|]. left. split; [done|]. set_solver.
  - assert (Hp : p ∈ fr) by set_solver. destruct (rep_free p Hp) as (b & Hb & Eb & Hu).
    pose proof (l_free _ _ _ _ (r_links _ _ _ HR)) as [Hs Hd]. rewrite E in Hs, Hd.
    assert (p <> free_list (heap m)) by (intros ->; apply NoDup_cons in Hd as [Hd _]; set_solver).
    rewrite (proj2 (Z.eqb_neq _ _)), (proj2 (Z.ltb_lt _ _)) by done. simpl.
    rewrite <- Eb, (rep_size_in b Hb), Eb. cbn [mbind option_bind]. destruct (Z.ltb_spec (bsize b) size) as [Hlt|Hge].
    + apply ring_seg_app in Hs as [_ Hs].
      assert (En : rd next_free p m = Some (match f2 with q :: _ => q | [] => free_list (heap m) end)).
      { destruct f2 as [|q f2]; apply Hs. }
      rewrite En. cbn [mbind option_bind]. destruct (IH (f1 ++ [p]) fuel (bsize b)) as (h & k & -> & Hres); [by rewrite <- app_assoc|done|simpl in Hf; lia|].
      exists h, k. split; [done|]. destruct Hres as [[Hk Hall]|(Hk & Hh & Hex)]; [left|right; split_and!; [done|by right|done]].
      split; [done|]. intros c Hc Hin. apply elem_of_cons in Hin as [Ec|Hin]; [|by apply Hall].
      destruct (layout_disjoint _ _ _ b c (r_layout _ _ _ HR) Hb Hc) as [->|Hd']; [done|].
      pose proof (rep_in b Hb). pose proof (rep_in c Hc). lia.
    + destruct fuel as [|fuel]; [simpl in Hf; lia|]. cbn [search]. rewrite (proj2 (Z.ltb_ge _ _)), andb_false_r by done.
      exists p, (bsize b). split; [done|]. right. split_and!; [done|by left|by exists b].
Qed.

Lemma search_fuel_enough : (S (length fr) < search_fuel m)%nat.
Proof using HR.
  unfold search_fuel. assert (length fr <= base.size (items m))%nat; [|lia].
  destruct (l_free _ _ _ _ (r_links _ _ _ HR)) as [Hs Hd]. apply NoDup_cons in Hd as [_ Hd].
  rewrite <- (size_list_to_set (C := gset Z) fr Hd), <- size_dom. apply subseteq_size. intros x Hx.
  apply elem_of_list_to_set in Hx. apply elem_of_dom.
  apply (free_member m (free_list (heap m)) fr); [apply (r_links _ _ _ HR)|by right].
Qed.
End heap.

Lemma request_bounds size : 0 <= size < 2 ^ 32 -> 12 <= request size < 2 ^ 32.
Proof.
  intros Hs. unfold request, RT_MEMHEAP_MINIALLOC. destruct (Z.ltb_spec (RT_ALIGN size RT_ALIGN_SIZE) 12); [lia|].
  destruct (decide (size <= 2 ^ 32 - 8)).
  - rewrite RT_ALIGN_spec in * by lia. zdiv.
  - rewrite RT_ALIGN_wraps in * by lia. lia.
Qed.

Lemma memheap_request_enough size : 0 <= size <= 2 ^ 32 - 8 -> size <= request size.
Proof.
  intros Hs. unfold request, RT_MEMHEAP_MINIALLOC. rewrite RT_ALIGN_spec by lia.
  destruct (Z.ltb_spec ((size + 7) / 8 * 8) 12); zdiv.
Qed.

(** ** Allocation *)

Lemma note_used_spec m n : 0 <= n <= pool_size (heap m) -> pool_size (heap m) < 2 ^ 32 -> exists mu,
  note_used (set_available n m) =
    set_heap (mk_heap (start_addr (heap m)) (pool_size (heap m)) n mu (block_list (heap m)) (free_list (heap m))) m /\
  pool_size (heap m) - n <= mu.
Proof.
  intros Hn Hp. unfold note_used. cbn [heap set_available set_heap pool_size available_size max_used_size].
  rewrite wrap_small by lia. destruct (Z.gtb_spec (pool_size (heap m) - n) (max_used_size (heap m))).
  - exists (pool_size (heap m) - n). split; [done|lia].
  - exists (max_used_size (heap m)). split; [done|lia].
Qed.

Lemma rep_intro m m' bl fr : placed m -> same_heap m m' -> links m' (last_header m) bl fr ->
  layout (start_addr (heap m)) bl (last_header m) -> fr ≡ₚ faddrs bl -> available_size (heap m') = free_bytes bl ->
  merged bl -> pool_size (heap m') - available_size (heap m') <= max_used_size (heap m') -> rep m' bl fr.
Proof.
  intros Hp Hs Hl Hy. destruct (same_placed m m' Hs Hp) as [Hp' El]. destruct Hs as (_ & E & _). intros.
  split; rewrite ?El, ?E; done.
Qed.

(** The free list without one of its members. *)
Lemma free_split m bl fr b : rep m bl fr -> b ∈ bl -> used b = false -> exists f1 f2, fr = f1 ++ addr b :: f2 /\
  (addr b ∉ free_list (heap m) :: f1 ++ f2).
Proof.
  intros HR Hb Hu. assert (addr b ∈ fr) as Hin.
  { rewrite (r_perm _ _ _ HR). unfold faddrs. apply list_elem_of_fmap_2, list_elem_of_filter. done. }
  apply list_elem_of_split in Hin as (f1 & f2 & ->). exists f1, f2. split; [done|].
  destruct (l_free _ _ _ _ (r_links _ _ _ HR)) as [_ Hd].
  assert (NoDup (addr b :: free_list (heap m) :: f1 ++ f2)) as Hd'.
  { eapply NoDup_Permutation_proper; [|exact Hd]. solve_Permutation. }
  by apply NoDup_cons in Hd' as [? _].
Qed.

Lemma perm_middle (f1 f2 k1 k2 : list Z) a : f1 ++ a :: f2 ≡ₚ k1 ++ a :: k2 -> f1 ++ f2 ≡ₚ k1 ++ k2.
Proof. intros H. apply (Permutation_cons_inv (a := a)). rewrite !Permutation_middle. done. Qed.

(** The block that [size] bytes of [b] become, and the rest. *)
Definition front (b : block) (size : Z) (u : bool) : block := mk_block (addr b) size u.
Definition rest (b : block) (size : Z) : block := mk_block (addr b + 24 + size) (bsize b - size - 24) false.

Lemma take_split_spec m l1 b l2 fr size : rep m (l1 ++ b :: l2) fr -> used b = false -> 12 <= size -> size + 36 <= bsize b ->
  exists m' fr', take_split (addr b) size m = Some m' /\
    links m' (last_header m) (l1 ++ front b size false :: rest b size :: l2) fr' /\
    fr' ≡ₚ addr (rest b size) :: faddrs l1 ++ faddrs l2 /\ self m' = self m /\
    (exists mu, heap m' = mk_heap (start_addr (heap m)) (pool_size (heap m)) (available_size (heap m) - size - 24) mu
                            (block_list (heap m)) (free_list (heap m)) /\ pool_size (heap m) - (available_size (heap m) - size - 24) <= mu) /\
    (forall a, bytes m' a = if inside a (addr (rest b size)) 24 then None else bytes m a).
Proof.
  intros HR Hu Hs Hfit. set (new := addr (rest b size)).
  assert (Hin : b ∈ l1 ++ b :: l2) by set_solver. destruct (rep_in _ _ _ HR b Hin) as (R1 & R2 & R3).
  pose proof (r_placed _ _ _ HR) as (P1 & P2 & P3 & _). pose proof (rep_avail_le _ _ _ HR) as Hav.
  pose proof (r_avail _ _ _ HR) as Eav. unfold last_header in R3.
  assert (Hnew : u32 (addr b + size + RT_MEMHEAP_SIZE) = new).
  { change RT_MEMHEAP_SIZE with 24. unfold new. cbn. rewrite wrap_small by lia. lia. }
  assert (Hap := rep_apart _ _ _ HR new l1 b l2 eq_refl ltac:(unfold new; cbn; lia) ltac:(unfold new; cbn; lia)).
  unfold take_split. rewrite Hnew.
  destruct (links_insert m _ l1 b l2 fr new size (bsize b - size - 24) (r_links _ _ _ HR) Hap) as (m1 & -> & L1 & S1 & H1 & B1).
  cbn [mbind option_bind]. rewrite Hu in L1.
  destruct (free_split m _ fr b HR Hin Hu) as (f1 & f2 & -> & Hn).
  destruct (links_free_unlink m1 _ _ f1 (addr b) f2 L1) as (m2 & -> & L2 & S2 & H2 & B2). cbn [mbind option_bind].
  destruct (links_clear_free m2 _ _ _ (addr b) L2) as (m3 & -> & L3 & S3 & H3 & B3).
  { rewrite fmap_app. simpl. set_solver. } { rewrite H2, H1. done. } cbn [mbind option_bind].
  destruct (links_free_insert m3 _ _ _ new L3) as (m4 & -> & L4 & S4 & H4 & B4).
  { rewrite fmap_app. simpl. set_solver. }
  { rewrite H3, H2, H1. intros Hin'. assert (apart new RT_MEMHEAP_SIZE new RT_MEMHEAP_SIZE = true) as Ha.
    { apply Hap. set_solver. } unfold apart in Ha. change RT_MEMHEAP_SIZE with 24 in Ha. lia. }
  cbn [mbind option_bind].
  assert (Eheap : heap m4 = heap m) by congruence.
  assert (Ha : bsize b <= free_bytes (l1 ++ b :: l2)).
  { rewrite free_bytes_app. simpl. rewrite Hu. destruct (layout_split _ _ _ _ _ (r_layout _ _ _ HR)) as (_ & _ & La & _ & Lb). apply free_bytes_nonneg in La, Lb. lia. }
  change RT_MEMHEAP_SIZE with 24.
  assert (Eu : u32 (u32 (available_size (heap m4) - size) - 24) = available_size (heap m) - size - 24) by (rewrite Eheap; unwrap; lia).
  rewrite Eu.
  destruct (note_used_spec m4 (available_size (heap m) - size - 24)) as (mu & -> & Hmu); [rewrite Eheap; lia|rewrite Eheap; lia|].
  eexists _, _. split_and!; [done|apply links_heap; [done|exact L4]| |simpl; congruence| |].
  - constructor. apply (perm_middle f1 f2 _ _ (addr b)). rewrite (r_perm _ _ _ HR), faddrs_app, faddrs_cons, Hu. done.
  - exists mu. rewrite Eheap in *. by split.
  - intros a. simpl. by rewrite B4, B3, B2, B1.
Qed.

Lemma take_whole_spec m l1 b l2 fr : rep m (l1 ++ b :: l2) fr -> used b = false ->
  exists m' fr', take_whole (addr b) (bsize b) m = Some m' /\
    links m' (last_header m) (l1 ++ b :: l2) fr' /\ fr' ≡ₚ faddrs l1 ++ faddrs l2 /\ self m' = self m /\
    (exists mu, heap m' = mk_heap (start_addr (heap m)) (pool_size (heap m)) (available_size (heap m) - bsize b) mu
                            (block_list (heap m)) (free_list (heap m)) /\ pool_size (heap m) - (available_size (heap m) - bsize b) <= mu) /\
    bytes m' = bytes m.
Proof.
  intros HR Hu. assert (Hin : b ∈ l1 ++ b :: l2) by set_solver. destruct (rep_in _ _ _ HR b Hin) as (R1 & R2 & R3).
  pose proof (r_placed _ _ _ HR) as (P1 & P2 & P3 & _). pose proof (rep_avail_le _ _ _ HR) as Hav.
  pose proof (r_avail _ _ _ HR) as Eav.
  assert (Ha : bsize b <= free_bytes (l1 ++ b :: l2)).
  { rewrite free_bytes_app. simpl. rewrite Hu. destruct (layout_split _ _ _ _ _ (r_layout _ _ _ HR)) as (_ & _ & La & _ & Lb).
    apply free_bytes_nonneg in La, Lb. lia. }
  unfold take_whole. rewrite wrap_small by lia.
  destruct (note_used_spec m (available_size (heap m) - bsize b)) as (mu & -> & Hmu); [lia|lia|]. set (m1 := set_heap _ m).
  assert (L1 : links m1 (last_header m) (l1 ++ b :: l2) fr) by (apply links_heap; [done|apply HR]).
  destruct (free_split m _ fr b HR Hin Hu) as (f1 & f2 & -> & Hn).
  destruct (links_free_unlink m1 _ _ f1 (addr b) f2 L1) as (m2 & -> & L2 & S2 & H2 & B2). cbn [mbind option_bind].
  destruct (links_clear_free m2 _ _ _ (addr b) L2) as (m3 & -> & L3 & S3 & H3 & B3).
  { rewrite fmap_app. simpl. set_solver. } { rewrite H2. done. }
  eexists _, _. split_and!; [done|exact L3| |by rewrite S3, S2| |by rewrite B3, B2].
  - apply (perm_middle f1 f2 _ _ (addr b)). rewrite (r_perm _ _ _ HR), faddrs_app, faddrs_cons, Hu. done.
  - exists mu. rewrite H3, H2. by split.
Qed.

(** What is given out of [b]: the rest of a large block stays free. *)
Definition given (b : block) (size : Z) (n : Z) (rs : list block) : Prop :=
  n = bsize b /\ rs = [] /\ bsize b < size + 36 \/ n = size /\ rs = [rest b size] /\ size + 36 <= bsize b.

Lemma merged_app l1 b l2 : merged (l1 ++ b :: l2) <-> merged (l1 ++ [b]) /\ merged (b :: l2).
Proof.
  induction l1 as [|c l1 IH]; simpl; [tauto|]. destruct l1 as [|d l1]; simpl in *; tauto.
Qed.

Lemma merged_used l1 b l2 : used b = true -> merged (l1 ++ b :: l2) <-> merged l1 /\ merged l2.
Proof.
  intros Hu. rewrite merged_app. cbn [merged]. rewrite Hu. cbn [orb].
  assert (merged (l1 ++ [b]) <-> merged l1) as ->.
  { induction l1 as [|c l1 IH]; [simpl; tauto|]. simpl. rewrite IH. destruct l1; simpl; [rewrite Hu, orb_true_r|]; tauto. }
  destruct l2; tauto.
Qed.

(** Used blocks around a free one. *)
Lemma merged_free l1 b l2 : used b = false -> merged (l1 ++ b :: l2) <->
  merged l1 /\ merged l2 /\ match last l1 with Some c => used c = true | None => True end /\
  match l2 with c :: _ => used c = true | [] => True end.
Proof.
  intros Hu. rewrite merged_app. cbn [merged]. rewrite Hu. cbn [orb].
  assert (merged (l1 ++ [b]) <-> merged l1 /\ match last l1 with Some c => used c = true | None => True end) as ->.
  { induction l1 as [|c l1 IH]; [simpl; tauto|]. simpl. rewrite IH. destruct l1 as [|d l1]; simpl.
    - rewrite Hu, orb_false_r. tauto.
    - change (last (c :: d :: l1)) with (last (d :: l1)). tauto. }
  destruct l2; tauto.
Qed.

Theorem rt_memheap_alloc_spec m bl fr size : rep m bl fr -> 0 <= size < 2 ^ 32 ->
  exists p m', rt_memheap_alloc size m = Some (p, m') /\
    (p = 0 /\ m' = m /\ (free_bytes bl <= request size \/ forall b, b ∈ bl -> used b = false -> bsize b < request size) \/
     exists l1 b l2 n rs fr', bl = l1 ++ b :: l2 /\ used b = false /\ request size <= bsize b /\ given b (request size) n rs /\
       p = addr b + 24 /\ rep m' (l1 ++ front b n true :: rs ++ l2) fr' /\ same_heap m m' /\
       forall a, ~ (p + n <= a < p + bsize b) -> bytes m' a = bytes m a).
Proof.
  intros HR Hsize. pose proof (request_bounds size Hsize) as Hreq. pose proof (r_placed _ _ _ HR) as (P1 & P2 & P3 & _).
  pose proof (rep_avail_le _ _ _ HR) as Hav. pose proof (r_avail _ _ _ HR) as Eav. unfold rt_memheap_alloc.
  destruct (Z.ltb_spec (request size) (available_size (heap m))) as [Hlt|Hge].
  2:{ eexists _, _. split; [done|]. left. split_and!; [done|done|left; lia]. }
  assert (En : rd next_free (free_list (heap m)) m = Some (match fr with p :: _ => p | [] => free_list (heap m) end)).
  { destruct (l_free _ _ _ _ (r_links _ _ _ HR)) as [Hs _]. destruct fr; apply Hs. }
  rewrite En. cbn [mbind option_bind].
  destruct (search_spec m bl fr HR (request size) fr [] (search_fuel m) 0) as (h & k & -> & Hres); [done|lia|by eapply search_fuel_enough|].
  cbn [mbind option_bind]. rewrite Z.geb_leb. destruct Hres as [[Hk Hall]|(Hk & Hh & b & Hb & <- & Hu & <-)].
  { rewrite (proj2 (Z.leb_gt _ _)) by done. eexists _, _. split; [done|]. left. split_and!; [done|done|right].
    intros b Hb Hu. apply Hall; [done|]. rewrite (r_perm _ _ _ HR). apply list_elem_of_fmap_2, list_elem_of_filter. done. }
  rewrite (proj2 (Z.leb_le _ _)) by done. rewrite Z.geb_leb. change RT_MEMHEAP_SIZE with 24. unfold RT_MEMHEAP_MINIALLOC.
  assert (0 < Z.of_nat (length bl)) by (destruct bl; [by apply not_elem_of_nil in Hb|simpl; lia]).
  assert (u32 (u32 (request size + 24) + 12) = request size + 36) as -> by (unwrap; lia).
  destruct (rep_in _ _ _ HR b Hb) as (R1 & R2 & R3). unfold last_header in R3.
  apply list_elem_of_split in Hb as (l1 & l2 & ->). destruct (layout_split _ _ _ _ _ (r_layout _ _ _ HR)) as (_ & _ & La & _ & Lb).
  pose proof (r_merged _ _ _ HR) as Hm. apply merged_free in Hm as (Hm1 & Hm2 & Hm3 & Hm4); [|done].
  assert (Efb : free_bytes (l1 ++ b :: l2) = free_bytes l1 + (bsize b + free_bytes l2)).
  { rewrite free_bytes_app. simpl. by rewrite Hu. }
  assert (exists n rs m1 fr', (if request size + 36 <=? bsize b then take_split (addr b) (request size) m else take_whole (addr b) (bsize b) m) = Some m1 /\
    given b (request size) n rs /\ links m1 (last_header m) (l1 ++ front b n false :: rs ++ l2) fr' /\ fr' ≡ₚ faddrs (l1 ++ front b n true :: rs ++ l2) /\
    self m1 = self m /\ (exists mu, heap m1 = mk_heap (start_addr (heap m)) (pool_size (heap m)) (free_bytes (l1 ++ front b n true :: rs ++ l2)) mu
      (block_list (heap m)) (free_list (heap m)) /\ pool_size (heap m) - free_bytes (l1 ++ front b n true :: rs ++ l2) <= mu) /\
    layout (start_addr (heap m)) (l1 ++ front b n true :: rs ++ l2) (last_header m) /\ merged (l1 ++ front b n true :: rs ++ l2) /\
    (forall a, ~ (addr b + 24 + n <= a < addr b + 24 + bsize b) -> bytes m1 a = bytes m a)) as
    (n & rs & m1 & fr' & -> & Hg & HL & Hp & HS & (mu & HH & Hmu) & HY & HM & HB).
  { destruct (Z.leb_spec (request size + 36) (bsize b)) as [Hsp|Hwh].
    - destruct (take_split_spec m l1 b l2 fr (request size) HR Hu) as (m1 & fr' & E & L & Hp & S & (mu & EH & Hmu) & B); [lia|lia|].
      exists (request size), [rest b (request size)], m1, fr'. split_and!; [done|by right|done| |done| | | |].
      + rewrite Hp, faddrs_app, faddrs_cons. simpl. rewrite faddrs_cons. simpl. solve_Permutation.
      + exists mu. rewrite EH, Eav, Efb, free_bytes_app in *. simpl.
        assert (free_bytes l1 + (bsize b + free_bytes l2) - request size - 24 = free_bytes l1 + (bsize b - request size - 24 + free_bytes l2)) as -> by lia.
        by split; [|lia].
      + apply layout_app. exists (addr b). split; [done|]. simpl. unfold RT_MEMHEAP_MINIALLOC. split_and!; [done|lia|done|lia|].
        replace (_ + _) with (addr b + 24 + bsize b) by lia. done.
      + apply merged_used; [done|]. split; [done|]. simpl. by destruct l2.
      + intros a Ha. rewrite B. simpl. unfold inside. rewrite (proj2 (andb_false_iff _ _)); [done|]. rewrite Z.leb_gt, Z.ltb_ge. lia.
    - destruct (take_whole_spec m l1 b l2 fr HR Hu) as (m1 & fr' & E & L & Hp & S & (mu & EH & Hmu) & B).
      exists (bsize b), [], m1, fr'. split_and!; [done|by left| | |done| | | |by intros; rewrite B].
      + destruct b as [ba bs bu]. simpl in Hu. by subst bu.
      + by rewrite Hp, faddrs_app, faddrs_cons.
      + exists mu. rewrite EH, Eav, Efb, free_bytes_app in *. simpl.
        assert (free_bytes l1 + (bsize b + free_bytes l2) - bsize b = free_bytes l1 + free_bytes l2) as -> by lia.
        by split; [|lia].
      + apply layout_app. exists (addr b). split; [done|]. simpl. unfold RT_MEMHEAP_MINIALLOC. split_and!; [done|lia|done].
      + by apply merged_used. }
  cbn [mbind option_bind]. assert (Hmag : rd magic (addr b) m1 = Some (mag false)).
  { apply (l_magic _ _ _ _ HL (front b n false)). set_solver. }
  rewrite Hmag. cbn [mbind option_bind].
  destruct (links_magic m1 _ l1 (front b n false) (rs ++ l2) fr' (Z.lor (mag false) RT_MEMHEAP_USED) true HL eq_refl) as (m2 & E2 & L2 & S2 & H2 & B2).
  change (addr (front b n false)) with (addr b) in E2. rewrite E2. cbn [mbind option_bind]. rewrite wrap_small by lia.
  eexists _, _. split; [done|]. right. exists l1, b, l2, n, rs, fr'. split_and!; try done.
  - apply (rep_intro m); try done.
    + apply HR.
    + unfold same_heap. rewrite H2, HH. split_and!; simpl; congruence.
    + by rewrite H2, HH.
    + rewrite H2, HH. done.
  - unfold same_heap. rewrite H2, HH. split_and!; simpl; congruence.
  - intros a Ha. rewrite B2. apply HB. lia.
Qed.

(** ** Giving back *)

Definition joined (b c : block) : block := mk_block (addr b) (bsize b + 24 + bsize c) (used b).

Lemma layout_joined a l1 b c l2 fin : layout a (l1 ++ b :: c :: l2) fin -> layout a (l1 ++ joined b c :: l2) fin.
Proof.
  rewrite !layout_app. intros (mid & H1 & H2 & H3 & H4 & H5 & H6). exists mid. split; [done|]. simpl.
  unfold RT_MEMHEAP_MINIALLOC in *. split_and!; [done|lia|].
  by replace (mid + 24 + (bsize b + 24 + bsize c)) with (mid + 24 + bsize b + 24 + bsize c) by lia.
Qed.

Lemma shape_available m bl fr n : shape m bl fr -> shape (set_available n m) bl fr.
Proof. intros [H1 H2 H3]. split; [by apply links_heap|done|done]. Qed.

Lemma same_heap_eq m m' : self m' = self m -> heap m' = heap m -> same_heap m m'.
Proof. intros E1 E2. unfold same_heap. rewrite E2. by split_and!. Qed.

Lemma shape_intro m m' bl fr : self m' = self m -> heap m' = heap m -> placed m ->
  links m' (last_header m) bl fr -> layout (start_addr (heap m)) bl (last_header m) -> shape m' bl fr.
Proof.
  intros E1 E2 Hp Hl Hy. destruct (same_placed m m' (same_heap_eq _ _ E1 E2) Hp) as [Hp' El].
  split; rewrite ?El, ?E2; done.
Qed.

Lemma shape_unlink_left m l1 c b l2 fr : shape m (l1 ++ c :: b :: l2) fr ->
  exists m', block_unlink_left (addr b) m = Some m' /\ shape m' (l1 ++ joined c b :: l2) fr /\
    rd prev (addr b) m' = Some (addr c) /\ self m' = self m /\ heap m' = heap m /\ bytes m' = bytes m.
Proof.
  intros HS. assert (Ep : rd prev (addr b) m = Some (addr c)).
  { rewrite (shape_prev m _ fr HS (l1 ++ [c]) b l2) by (by rewrite <- app_assoc). by rewrite last_snoc. }
  pose proof (l_blocks _ _ _ _ (s_links _ _ _ HS)) as Hr.
  assert (E : addr <$> l1 ++ c :: b :: l2 = (addr <$> l1 ++ [c]) ++ addr b :: (addr <$> l2)).
  { rewrite !fmap_app. simpl. by rewrite <- app_assoc. }
  rewrite E in Hr. destruct (block_unlink_left_spec _ _ _ _ _ Hr) as (m' & -> & K & Hr' & Ep').
  exists m'. split_and!; [done| |congruence|apply K..].
  apply (shape_intro m); [apply K|apply K|apply HS| |by apply layout_joined, HS].
  apply (links_blocks _ m' _ _ _ fr (s_links _ _ _ HS) K).
  - rewrite fmap_app in *. simpl in *. by rewrite <- app_assoc in Hr'.
  - intros d Hd. assert (d = joined c b \/ d ∈ l1 ++ c :: b :: l2) as [->|Hd'] by set_solver.
    + apply (l_magic _ _ _ _ (s_links _ _ _ HS) c). set_solver.
    + by apply (l_magic _ _ _ _ (s_links _ _ _ HS)).
Qed.

Lemma shape_merge m l1 b c l2 f1 f2 : shape m (l1 ++ b :: c :: l2) (f1 ++ addr c :: f2) ->
  exists m', (m ← block_merge (addr b) (addr c) m; free_unlink (addr c) m) = Some m' /\
    shape m' (l1 ++ joined b c :: l2) (f1 ++ f2) /\ self m' = self m /\ heap m' = heap m /\ bytes m' = bytes m.
Proof.
  intros HS. destruct (links_merge m _ l1 b c l2 _ (bsize b + 24 + bsize c) (s_links _ _ _ HS)) as (m1 & -> & L1 & S1 & H1 & B1).
  cbn [mbind option_bind]. destruct (links_free_unlink m1 _ _ f1 (addr c) f2 L1) as (m2 & -> & L2 & S2 & H2 & B2).
  exists m2. split_and!; [done| |congruence..]. apply (shape_intro m); [congruence|congruence|apply HS|exact L2|].
  by apply layout_joined, HS.
Qed.

(** Room in the statistics: what the blocks of a layout can hold. *)
Lemma shape_total m bl fr : shape m bl fr -> 0 <= free_bytes bl < 2 ^ 32.
Proof.
  intros HS. pose proof (free_bytes_nonneg _ _ _ (s_layout _ _ _ HS)). destruct (s_placed _ _ _ HS) as (? & ? & ? & _).
  unfold last_header in *. lia.
Qed.

Lemma add_available_spec n m k : u32 (available_size (heap m) + n) = k -> add_available n m = set_available k m.
Proof. by intros <-. Qed.

Definition used_of (bl : list block) : list block := filter (fun b => used b = true) bl.
Lemma used_of_app l1 l2 : used_of (l1 ++ l2) = used_of l1 ++ used_of l2.
Proof. unfold used_of. by rewrite filter_app. Qed.
Lemma used_of_cons b l : used_of (b :: l) = if used b then b :: used_of l else used_of l.
Proof. unfold used_of. rewrite filter_cons. case_decide as E; [by rewrite E|]. by destruct (used b). Qed.

(** Joining with the block in front. *)
Definition join_left (header_ptr p : Z) (u : bool) (m : mem) : option (Z * bool * mem) :=
  if negb u then
    let m := add_available RT_MEMHEAP_SIZE m in
    m ← block_unlink_left header_ptr m; p ← rd prev header_ptr m; Some (p, false, m)
  else Some (header_ptr, true, m).
Definition join_right (header_ptr a : Z) (u : bool) (m : mem) : option mem :=
  if negb u then
    let m := add_available RT_MEMHEAP_SIZE m in m ← block_merge header_ptr a m; free_unlink a m
  else Some m.

Lemma join_left_spec m l1 b l2 fr : shape m (l1 ++ b :: l2) fr -> used b = false -> merged l1 ->
  available_size (heap m) = free_bytes (l1 ++ b :: l2) -> fr ≡ₚ faddrs l1 ++ faddrs l2 ->
  exists h l1' i m' , join_left (addr b) (match last l1 with Some c => addr c | None => last_header m end)
      (match last l1 with Some c => used c | None => true end) m = Some (addr h, i, m') /\
    shape m' (l1' ++ h :: l2) fr /\ used h = false /\ merged l1' /\ match last l1' with Some c => used c = true | None => True end /\
    available_size (heap m') = free_bytes (l1' ++ h :: l2) /\ same_heap m m' /\
    available_size (heap m) <= available_size (heap m') /\ max_used_size (heap m') = max_used_size (heap m) /\ bytes m' = bytes m /\
    used_of l1' = used_of l1 /\ fr ≡ₚ (if i then faddrs l1' ++ faddrs l2 else faddrs (l1' ++ h :: l2)).
Proof.
  intros HS Hu Hm Hav Hp. unfold join_left. destruct l1 as [|c l1 _] using rev_ind.
  { simpl. exists b, [], true, m. by split_and!. }
  rewrite last_snoc. destruct (used c) eqn:Huc; cbn [negb].
  - exists b, (l1 ++ [c]), true, m. rewrite last_snoc. by split_and!.
  - rewrite <- app_assoc in *. cbn [app] in *. apply (merged_free l1 c []) in Hm as (Hm1 & _ & Hm2 & _); [|done].
    pose proof (shape_total _ _ _ HS) as Ht.
    pose proof (layout_joined _ _ _ _ _ _ (s_layout _ _ _ HS)) as Hy. apply free_bytes_nonneg in Hy.
    destruct (s_placed _ _ _ HS) as (P1 & P2 & P3 & _). unfold last_header in Hy.
    rewrite (add_available_spec _ _ (free_bytes (l1 ++ joined c b :: l2))).
    2:{ rewrite Hav, !free_bytes_app in *. simpl in *. rewrite Hu, Huc in *. change RT_MEMHEAP_SIZE with 24. unwrap. lia. }
    set (k := free_bytes (l1 ++ joined c b :: l2)) in *.
    destruct (shape_unlink_left (set_available k m) l1 c b l2 fr (shape_available _ _ _ _ HS)) as (m' & -> & HS' & Ep & S & H & B).
    cbn [mbind option_bind]. rewrite Ep. cbn [mbind option_bind]. exists (joined c b), l1, false, m'.
    split_and!; try done.
    + by rewrite H.
    + unfold same_heap. by rewrite S, H.
    + rewrite Hav, H. unfold k. rewrite !free_bytes_app. simpl. rewrite Hu, Huc. lia.
    + by rewrite H.
    + rewrite used_of_app, used_of_cons, Huc. simpl. by rewrite app_nil_r.
    + rewrite Hp, !faddrs_app, !faddrs_cons. simpl. rewrite Huc. simpl. solve_Permutation.
Qed.

Lemma join_right_spec m l1 b l2 fr (i : bool) : shape m (l1 ++ b :: l2) fr -> used b = false -> merged l2 ->
  available_size (heap m) = free_bytes (l1 ++ b :: l2) ->
  fr ≡ₚ (if i then faddrs l1 ++ faddrs l2 else faddrs (l1 ++ b :: l2)) ->
  exists h l2' m' fr', join_right (addr b) (addr b + 24 + bsize b) (match l2 with c :: _ => used c | [] => true end) m = Some m' /\
    shape m' (l1 ++ h :: l2') fr' /\ addr h = addr b /\ used h = false /\ merged l2' /\
    match l2' with c :: _ => used c = true | [] => True end /\
    available_size (heap m') = free_bytes (l1 ++ h :: l2') /\ same_heap m m' /\
    available_size (heap m) <= available_size (heap m') /\ max_used_size (heap m') = max_used_size (heap m) /\ bytes m' = bytes m /\
    used_of l2' = used_of l2 /\ fr' ≡ₚ (if i then faddrs l1 ++ faddrs l2' else faddrs (l1 ++ h :: l2')).
Proof.
  intros HS Hu Hm Hav Hp. unfold join_right.
  assert (Hdone : match l2 with c :: _ => used c = true | [] => True end ->
    exists h l2' m' fr', Some m = Some m' /\
    shape m' (l1 ++ h :: l2') fr' /\ addr h = addr b /\ used h = false /\ merged l2' /\
    match l2' with c :: _ => used c = true | [] => True end /\
    available_size (heap m') = free_bytes (l1 ++ h :: l2') /\ same_heap m m' /\
    available_size (heap m) <= available_size (heap m') /\ max_used_size (heap m') = max_used_size (heap m) /\ bytes m' = bytes m /\
    used_of l2' = used_of l2 /\ fr' ≡ₚ (if i then faddrs l1 ++ faddrs l2' else faddrs (l1 ++ h :: l2'))).
  { intros. exists b, l2, m, fr. by split_and!. }
  destruct l2 as [|c l2]; [by apply Hdone|]. destruct (used c) eqn:Huc; cbn [negb]; [by apply Hdone|]. clear Hdone.
  assert (Ec : addr b + 24 + bsize b = addr c).
  { destruct (layout_split _ _ _ _ _ (s_layout _ _ _ HS)) as (_ & _ & _ & _ & E & _). by rewrite E. }
  rewrite Ec. pose proof (shape_total _ _ _ HS) as Ht.
  pose proof (layout_joined _ _ _ _ _ _ (s_layout _ _ _ HS)) as Hy. apply free_bytes_nonneg in Hy.
  destruct (s_placed _ _ _ HS) as (P1 & P2 & P3 & _). unfold last_header in Hy.
  rewrite (add_available_spec _ _ (free_bytes (l1 ++ joined b c :: l2))).
  2:{ rewrite Hav, !free_bytes_app in *. simpl in *. rewrite Hu, Huc in *. change RT_MEMHEAP_SIZE with 24. unwrap. lia. }
  set (k := free_bytes (l1 ++ joined b c :: l2)) in *.
  assert (addr c ∈ fr) as Hin.
  { rewrite Hp. destruct i; rewrite ?faddrs_app, !faddrs_cons, Huc; set_solver. }
  apply list_elem_of_split in Hin as (f1 & f2 & ->).
  destruct (shape_merge (set_available k m) l1 b c l2 f1 f2 (shape_available _ _ _ _ HS)) as (m' & -> & HS' & S & H & B).
  apply (merged_free [] c l2) in Hm as (_ & Hm & _ & Hm2); [|done].
  exists (joined b c), l2, m', (f1 ++ f2). split_and!; try done.
  - by rewrite H.
  - unfold same_heap. by rewrite S, H.
  - rewrite Hav, H. unfold k. rewrite !free_bytes_app. simpl. rewrite Hu, Huc. lia.
  - by rewrite H.
  - by rewrite used_of_cons, Huc.
  - destruct i.
    + apply (perm_middle f1 f2 _ _ (addr c)). by rewrite Hp, faddrs_cons, Huc.
    + rewrite faddrs_app, !faddrs_cons in *. simpl in *. rewrite Hu, Huc in *. simpl in *.
      assert (f1 ++ f2 ≡ₚ (faddrs l1 ++ [addr b]) ++ faddrs l2) as ->; [|by rewrite <- app_assoc].
      apply (perm_middle f1 f2 _ _ (addr c)). by rewrite Hp, <- app_assoc.
Qed.

Theorem rt_memheap_free_spec m l1 b l2 fr : rep m (l1 ++ b :: l2) fr -> used b = true ->
  exists m' bl' fr', rt_memheap_free (addr b + 24) m = Some m' /\ rep m' bl' fr' /\ same_heap m m' /\
    bytes m' = bytes m /\ used_of bl' = used_of (l1 ++ l2).
Proof.
  intros HR Hu. pose proof (r_placed _ _ _ HR) as (P1 & P2 & P3 & _).
  destruct (rep_in _ _ _ HR b) as (R1 & R2 & R3); [set_solver|]. unfold last_header in R3.
  unfold rt_memheap_free. rewrite (proj2 (Z.eqb_neq _ _)) by lia. change RT_MEMHEAP_SIZE with 24.
  assert (u32 (addr b + 24 - 24) = addr b) as -> by (unwrap; lia).
  rewrite (l_magic _ _ _ _ (r_links _ _ _ HR) b) by set_solver. cbn [mbind option_bind]. rewrite Hu.
  destruct (links_magic m _ l1 b l2 fr (Z.land (mag true) (wnot 32 RT_MEMHEAP_USED)) false (r_links _ _ _ HR) eq_refl) as (m1 & E1 & L1 & S1 & H1 & B1).
  rewrite E1. cbn [mbind option_bind]. fold (front b (bsize b) false) in L1. set (b' := front b (bsize b) false) in *.
  assert (Hy : layout (start_addr (heap m)) (l1 ++ b' :: l2) (last_header m)).
  { pose proof (r_layout _ _ _ HR) as Hy. rewrite layout_app in *. destruct Hy as (mid & ? & ?). by exists mid. }
  assert (HS1 : shape m1 (l1 ++ b' :: l2) fr) by (apply (shape_intro m); [done|done|apply HR|done|done]).
  change (addr b) with (addr b'). rewrite (shape_size _ _ _ HS1 l1 b' l2 eq_refl). cbn [mbind option_bind].
  pose proof (r_merged _ _ _ HR) as Hm. apply merged_used in Hm as [Hm1 Hm2]; [|done].
  pose proof (shape_total _ _ _ HS1) as Ht.
  rewrite (add_available_spec (bsize b') m1 (free_bytes (l1 ++ b' :: l2))).
  2:{ rewrite H1, (r_avail _ _ _ HR), !free_bytes_app in *. simpl in *. rewrite Hu. unwrap. lia. }
  set (k := free_bytes (l1 ++ b' :: l2)) in *.
  pose proof (shape_available _ _ _ k HS1) as HS2. set (m2 := set_available k m1) in *.
  rewrite (shape_prev _ _ _ HS2 l1 b' l2 eq_refl). cbn [mbind option_bind].
  rewrite (shape_prev_used _ _ _ HS2 l1 b' l2 eq_refl). cbn [mbind option_bind].
  destruct (join_left_spec m2 l1 b' l2 fr HS2 eq_refl Hm1 eq_refl) as
    (h & l1' & i & m3 & E3 & HS3 & Hh & Hm3 & Hl3 & Hav3 & Same3 & Gr3 & Mx3 & B3 & U3 & Hp3).
  { rewrite (r_perm _ _ _ HR), faddrs_app, faddrs_cons, Hu. done. }
  unfold join_left in E3. change RT_MEMHEAP_SIZE with 24 in E3. rewrite E3. cbn [mbind option_bind]. clear E3.
  rewrite (shape_next _ _ _ HS3 l1' h l2 eq_refl). cbn [mbind option_bind].
  rewrite (shape_next_used _ _ _ HS3 l1' h l2 eq_refl). cbn [mbind option_bind].
  destruct (join_right_spec m3 l1' h l2 fr i HS3 Hh Hm2 Hav3 Hp3) as
    (h2 & l2' & m4 & fr4 & E4 & HS4 & Eh2 & Hh2 & Hm4 & Hl4 & Hav4 & Same4 & Gr4 & Mx4 & B4 & U4 & Hp4).
  unfold join_right in E4. change RT_MEMHEAP_SIZE with 24 in E4. rewrite E4. cbn [mbind option_bind]. clear E4.
  assert (Hsame : same_heap m m4).
  { destruct Same3 as (A0 & A1 & A2 & A3), Same4 as (C0 & C1 & C2 & C3). unfold m2 in *. simpl in *.
    unfold same_heap. rewrite C0, C1, C2, C3, A0, A1, A2, A3, S1, H1. done. }
  destruct (same_placed _ _ Hsame (r_placed _ _ _ HR)) as [Pl El].
  assert (Hmx : pool_size (heap m4) - available_size (heap m4) <= max_used_size (heap m4)).
  { destruct Hsame as (_ & _ & -> & _). rewrite Mx4, Mx3. unfold m2. simpl. rewrite H1, Hav4.
    pose proof (r_used _ _ _ HR) as Hus. rewrite (r_avail _ _ _ HR) in Hus.
    rewrite Hav4 in Gr4. unfold m2 in Gr3. simpl in Gr3. unfold k in Gr3. rewrite !free_bytes_app in *. simpl in *.
    rewrite Hu in Hus. lia. }
  assert (Hrep : forall m5 fr5, links m5 (last_header m4) (l1' ++ h2 :: l2') fr5 -> heap m5 = heap m4 -> self m5 = self m4 ->
    fr5 ≡ₚ faddrs (l1' ++ h2 :: l2') -> rep m5 (l1' ++ h2 :: l2') fr5).
  { intros m5 fr5 L5 E5 S5 Hp5. apply (rep_intro m4); [done|by apply same_heap_eq|done|apply HS4|done|by rewrite E5| |by rewrite E5].
    apply merged_free; [done|]. by split_and!. }
  assert (Hused : used_of (l1' ++ h2 :: l2') = used_of (l1 ++ l2)).
  { by rewrite !used_of_app, used_of_cons, Hh2, U3, U4. }
  destruct i.
  - rewrite <- Eh2. destruct (links_free_insert m4 _ _ fr4 (addr h2) (s_links _ _ _ HS4)) as (m5 & E5 & L5 & S5 & H5 & B5).
    + apply list_elem_of_fmap_2. set_solver.
    + intros Hin. apply elem_of_cons in Hin as [Eg|Hin].
      * destruct (shape_in _ _ _ HS4 h2) as (? & ? & ?); [set_solver|].
        destruct Pl as (? & ? & ? & ?). unfold last_header in *. lia.
      * rewrite Hp4, <- faddrs_app in Hin. apply faddrs_elem in Hin as (c & Hc & Ec & _).
        pose proof (s_layout _ _ _ HS4) as Hy4. destruct (layout_split _ _ _ _ _ Hy4) as (Hb1 & Hb2 & _ & Hs2 & _).
        unfold RT_MEMHEAP_MINIALLOC in *.
        apply elem_of_app in Hc as [Hc|Hc]; [pose proof (Hb1 c Hc)|pose proof (Hb2 c Hc)];
          destruct (shape_in _ _ _ HS4 c) as (? & ? & ?); set_solver || lia.
    + rewrite E5. exists m5, (l1' ++ h2 :: l2'), (addr h2 :: fr4). split_and!; [done| | |rewrite B5, B4, B3; exact B1|done].
      * apply Hrep; [done|done|done|]. rewrite Hp4, faddrs_app, faddrs_cons, Hh2. solve_Permutation.
      * unfold same_heap. rewrite S5, H5. apply Hsame.
  - exists m4, (l1' ++ h2 :: l2'), fr4. split_and!; [done| |done|rewrite B4, B3; exact B1|done].
    apply Hrep; [apply HS4|done|done|done].
Qed.

(** ** Resizing *)

(** A place inside a block is apart from every header of the layout. *)
Lemma apart_inside m l1 b l2 fr p n x : placed m -> layout (start_addr (heap m)) (l1 ++ b :: l2) (last_header m) ->
  0 <= n -> addr b + 24 <= p -> p + n <= addr b + 24 + bsize b -> (forall y, y ∈ fr -> y ∈ addr <$> l1 ++ b :: l2) ->
  x ∈ last_header m :: (addr <$> l1 ++ b :: l2) ++ free_list (heap m) :: fr -> apart x RT_MEMHEAP_SIZE p n = true.
Proof.
  intros (P1 & P2 & P3 & Hf) Hy Hn Hp1 Hp2 Hfr. assert (Hin : b ∈ l1 ++ b :: l2) by set_solver.
  pose proof (layout_in _ _ _ b Hy Hin) as (R1 & R2 & R3). unfold last_header, RT_MEMHEAP_MINIALLOC in *.
  assert (Hb : forall y, y ∈ addr <$> l1 ++ b :: l2 -> y + 24 <= p \/ p + n <= y).
  { intros y Hy'. apply list_elem_of_fmap in Hy' as (c & -> & Hc).
    pose proof (layout_in _ _ _ c Hy Hc) as (? & ? & ?). unfold RT_MEMHEAP_MINIALLOC in *.
    destruct (layout_disjoint _ _ _ b c Hy Hin Hc) as [->|[|]]; lia. }
  unfold apart. change RT_MEMHEAP_SIZE with 24. rewrite orb_true_iff, !Z.leb_le. intros Hx.
  apply elem_of_cons in Hx as [->|Hx]; [right; lia|]. apply elem_of_app in Hx as [Hx|Hx]; [by apply Hb|].
  apply elem_of_cons in Hx as [->|Hx]; [lia|]. by apply Hb, Hfr.
Qed.

Lemma free_in_blocks m bl fr : rep m bl fr -> forall y, y ∈ fr -> y ∈ addr <$> bl.
Proof. intros HR y Hy. destruct (rep_free _ _ _ HR y Hy) as (b & Hb & <- & _). by apply list_elem_of_fmap_2. Qed.

Lemma rd_overwrite f x p n g m : rd f x (overwrite p n g m) = if apart x RT_MEMHEAP_SIZE p n then rd f x m else None.
Proof.
  unfold rd, overwrite. cbn [items]. rewrite map_lookup_filter. destruct (items m !! x) as [j|]; simpl; [|by destruct (apart _ _ _ _)].
  destruct (apart _ _ _ _) eqn:Ea; case_guard; simpl; congruence.
Qed.

(** Bytes stored inside a used block. *)
Lemma overwrite_spec m bl fr b p n g : rep m bl fr -> b ∈ bl -> 0 <= n -> addr b + 24 <= p -> p + n <= addr b + 24 + bsize b ->
  rep (overwrite p n g m) bl fr.
Proof.
  intros HR Hb Hn H1 H2. assert (Ha : forall x, x ∈ last_header m :: (addr <$> bl) ++ free_list (heap m) :: fr -> apart x RT_MEMHEAP_SIZE p n = true).
  { intros x. apply list_elem_of_split in Hb as (l1 & l2 & ->). apply apart_inside; try done; try apply HR.
    by apply free_in_blocks with m. }
  assert (Hrd : forall f x, x ∈ last_header m :: (addr <$> bl) ++ free_list (heap m) :: fr -> rd f x (overwrite p n g m) = rd f x m).
  { intros f x Hx. by rewrite rd_overwrite, Ha. }
  destruct (r_links _ _ _ HR) as [L1 L2 L3 L4]. split; try apply HR. split.
  - apply (ring_frame _ _ _ _ _ _ L1). intros x Hx. unfold fld. rewrite !Hrd by set_solver. done.
  - apply (ring_frame _ _ _ _ _ _ L2). intros x Hx. unfold fld. rewrite !Hrd by set_solver. done.
  - intros c Hc. rewrite Hrd; [by apply L3|]. right. apply elem_of_app. left. by apply list_elem_of_fmap_2.
  - rewrite Hrd; [done|by left].
Qed.

Lemma links_unlink m fin l1 c l2 fr : links m fin (l1 ++ c :: l2) fr ->
  exists m', block_unlink (addr c) m = Some m' /\ links m' fin (l1 ++ l2) fr /\
    self m' = self m /\ heap m' = heap m /\ bytes m' = bytes m.
Proof.
  intros Hl. assert (Hr := l_blocks _ _ _ _ Hl). rewrite fmap_app in Hr. simpl in Hr.
  destruct (block_unlink_spec _ _ _ _ _ Hr) as (m' & E & K & Hr'). exists m'. split_and!; [done| |apply K..].
  apply (links_blocks _ m' fin _ _ fr Hl K); [by rewrite fmap_app|].
  intros d Hd. apply (l_magic _ _ _ _ Hl). set_solver.
Qed.

Lemma layout_cut a l1 b l2 fin n u : layout a (l1 ++ b :: l2) fin -> 12 <= n -> n + 36 <= bsize b ->
  layout a (l1 ++ front b n u :: rest b n :: l2) fin.
Proof.
  rewrite !layout_app. intros (mid & H1 & H2 & H3 & H4) Hn Hb. exists mid. split; [done|]. simpl.
  unfold RT_MEMHEAP_MINIALLOC in *. split_and!; [done|lia|lia|lia|].
  by replace (mid + 24 + n + 24 + (bsize b - n - 24)) with (mid + 24 + bsize b) by lia.
Qed.

Lemma grow_in_place_spec m l1 b c l2 fr n : rep m (l1 ++ b :: c :: l2) fr -> used b = true -> used c = false ->
  bsize b < n -> n + 12 < bsize c + bsize b ->
  exists m' fr', grow_in_place (addr b) (addr c) (bsize b) n m = Some m' /\
    rep m' (l1 ++ front b n true :: rest (joined b c) n :: l2) fr' /\ same_heap m m' /\
    forall a, ~ (addr b + 24 + n <= a < addr b + 24 + (bsize b + 24 + bsize c)) -> bytes m' a = bytes m a.
Proof.
  intros HR Hub Huc Hn1 Hn2. destruct (rep_in _ _ _ HR b) as (R1 & R2 & R3); [set_solver|].
  destruct (rep_in _ _ _ HR c) as (R4 & R5 & R6); [set_solver|].
  pose proof (r_placed _ _ _ HR) as (P1 & P2 & P3 & _). unfold last_header in R3, R6.
  assert (Ec : addr c = addr b + 24 + bsize b).
  { destruct (layout_split _ _ _ _ _ (r_layout _ _ _ HR)) as (_ & _ & _ & _ & -> & _). done. }
  pose proof (layout_joined _ _ _ _ _ _ (r_layout _ _ _ HR)) as Hyj.
  assert (Hy : layout (start_addr (heap m)) (l1 ++ front b n true :: rest (joined b c) n :: l2) (last_header m)).
  { apply (layout_cut _ _ (joined b c)); [done|lia|simpl; lia]. }
  pose proof (free_bytes_nonneg _ _ _ Hy) as Hfb. unfold last_header in Hfb.
  pose proof (r_avail _ _ _ HR) as Eav. pose proof (free_bytes_nonneg _ _ _ (r_layout _ _ _ HR)) as Hfb0. unfold last_header in Hfb0.
  unfold grow_in_place. set (k := free_bytes (l1 ++ front b n true :: rest (joined b c) n :: l2)) in *.
  assert (Ek : u32 (available_size (heap m) - u32 (n - bsize b)) = k).
  { unfold k in *. rewrite Eav, !free_bytes_app in *. simpl in *. rewrite Hub, Huc in *. unwrap. lia. }
  rewrite Ek. destruct (note_used_spec m k) as (mu & -> & Hmu); [lia|lia|]. set (m1 := set_heap _ m).
  assert (L1 : links m1 (last_header m) (l1 ++ b :: c :: l2) fr) by (apply links_heap; [done|apply HR]).
  destruct (free_split m _ fr c HR ltac:(set_solver) Huc) as (f1 & f2 & -> & Hnin).
  destruct (links_free_unlink m1 _ _ f1 (addr c) f2 L1) as (m2 & -> & L2 & S2 & H2 & B2). cbn [mbind option_bind].
  change (l1 ++ b :: c :: l2) with (l1 ++ [b] ++ c :: l2) in L2. rewrite app_assoc in L2.
  destruct (links_unlink m2 _ _ c l2 _ L2) as (m3 & -> & L3 & S3 & H3 & B3). cbn [mbind option_bind].
  rewrite <- app_assoc in L3. simpl in L3. change RT_MEMHEAP_SIZE with 24.
  assert (u32 (u32 (addr b + 24) + n) = addr (rest (joined b c) n)) as -> by (simpl; unwrap; lia).
  set (new := addr (rest (joined b c) n)).
  assert (Hfr : forall x, x ∈ f1 ++ f2 -> x ∈ addr <$> l1 ++ joined b c :: l2).
  { intros x Hx. assert (Hx' : x ∈ addr <$> l1 ++ b :: c :: l2) by (apply (free_in_blocks m _ _ HR); set_solver).
    rewrite fmap_app in *. simpl in *. assert (x <> addr c) by (intros ->; apply Hnin; set_solver). set_solver. }
  assert (Hap : forall x, x ∈ last_header m :: (addr <$> l1 ++ b :: l2) ++ free_list (heap m3) :: f1 ++ f2 -> apart x RT_MEMHEAP_SIZE new RT_MEMHEAP_SIZE = true).
  { intros x Hx. apply (apart_inside m l1 (joined b c) l2 (f1 ++ f2) new 24 x); [apply HR|done|lia|unfold new; simpl; lia|unfold new; simpl; lia|done|].
    rewrite H3, H2 in Hx. change (free_list (heap m1)) with (free_list (heap m)) in Hx. rewrite fmap_app in *. done. }
  destruct (links_insert m3 _ l1 b l2 _ new n (bsize (rest (joined b c) n)) L3 Hap) as (m4 & -> & L4 & S4 & H4 & B4).
  cbn [mbind option_bind]. rewrite Hub in L4.
  destruct (links_free_insert m4 _ _ _ new L4) as (m5 & E5 & L5 & S5 & H5 & B5).
  { rewrite fmap_app. simpl. set_solver. }
  { rewrite H4. intros Hin. assert (apart new RT_MEMHEAP_SIZE new RT_MEMHEAP_SIZE = true) as Ha.
    { apply Hap. set_solver. } unfold apart in Ha. change RT_MEMHEAP_SIZE with 24 in Ha. lia. }
  exists m5, (new :: f1 ++ f2). split_and!; [done| | |].
  - apply (rep_intro m); [apply HR| |exact L5|done| | | |].
    + unfold same_heap. rewrite H5, H4, H3, H2, S5, S4, S3, S2. done.
    + rewrite faddrs_app, !faddrs_cons. simpl. rewrite <- Permutation_middle. constructor.
      apply (perm_middle f1 f2 _ _ (addr c)). rewrite (r_perm _ _ _ HR), faddrs_app, !faddrs_cons, Hub, Huc. done.
    + rewrite H5, H4, H3, H2. done.
    + pose proof (r_merged _ _ _ HR) as Hm. apply merged_used in Hm as [Hm1 Hm2]; [|done]. apply merged_used; [done|].
      split; [done|]. apply (merged_free [] c l2) in Hm2 as (_ & Hm2 & _ & Hm3); [|done].
      apply (merged_free [] _ l2); [done|]. by split_and!.
    + rewrite H5, H4, H3, H2. simpl. lia.
  - unfold same_heap. rewrite H5, H4, H3, H2, S5, S4, S3, S2. done.
  - intros a Ha. rewrite B5, B4, B3, B2. unfold inside. change RT_MEMHEAP_SIZE with 24. unfold new. simpl.
    rewrite (proj2 (andb_false_iff _ _)); [done|]. rewrite Z.leb_gt, Z.ltb_ge. lia.
Qed.

Lemma shape_free_insert m l1 b l2 fr : shape m (l1 ++ b :: l2) fr -> fr ≡ₚ faddrs l1 ++ faddrs l2 -> used b = false ->
  exists m', free_insert (addr b) m = Some m' /\ shape m' (l1 ++ b :: l2) (addr b :: fr) /\
    addr b :: fr ≡ₚ faddrs (l1 ++ b :: l2) /\ self m' = self m /\ heap m' = heap m /\ bytes m' = bytes m.
Proof.
  intros HS Hp Hu. destruct (links_free_insert m _ _ fr (addr b) (s_links _ _ _ HS)) as (m' & E & L & S & H & B).
  - apply list_elem_of_fmap_2. set_solver.
  - destruct (shape_in _ _ _ HS b) as (? & ? & ?); [set_solver|]. intros Hin.
    apply elem_of_cons in Hin as [Eg|Hin].
    + destruct (s_placed _ _ _ HS) as (? & ? & ? & ?). unfold last_header in *. lia.
    + rewrite Hp, <- faddrs_app in Hin. apply faddrs_elem in Hin as (c & Hc & Ec & _).
      destruct (layout_split _ _ _ _ _ (s_layout _ _ _ HS)) as (Hb1 & Hb2 & _).
      destruct (shape_in _ _ _ HS c) as (? & ? & ?); [set_solver|].
      apply elem_of_app in Hc as [Hc|Hc]; [pose proof (Hb1 c Hc)|pose proof (Hb2 c Hc)]; lia.
  - exists m'. split_and!; [done| | |done..].
    + apply (shape_intro m); [done|done|apply HS|done|apply HS].
    + rewrite Hp, faddrs_app, faddrs_cons, Hu. solve_Permutation.
Qed.

Lemma shape_free_bytes m l1 b l2 fr : shape m (l1 ++ b :: l2) fr ->
  0 <= free_bytes l1 /\ 0 <= free_bytes l2 /\ 0 <= bsize b /\ free_bytes l1 + bsize b + free_bytes l2 < pool_size (heap m).
Proof.
  intros HS. destruct (layout_split _ _ _ _ _ (s_layout _ _ _ HS)) as (_ & _ & La & Hb & Lb).
  apply free_bytes_nonneg in La, Lb. destruct (s_placed _ _ _ HS) as (? & ? & ? & _).
  unfold RT_MEMHEAP_MINIALLOC, last_header in *. lia.
Qed.

(** The new free block takes in a free one behind it. *)
Definition shrink_join (new_ptr a : Z) (u : bool) (m : mem) : option mem :=
  if negb u then
    n ← MEMITEM_SIZE a m;
    let m := set_available (u32 (available_size (heap m) - n)) m in m ← block_merge new_ptr a m; free_unlink a m
  else Some m.

Lemma shrink_join_spec m l1 r l2 fr : shape m (l1 ++ r :: l2) fr -> used r = false -> merged l2 ->
  fr ≡ₚ faddrs l1 ++ faddrs l2 -> available_size (heap m) = free_bytes l1 + free_bytes l2 ->
  exists r' l2' m' fr', shrink_join (addr r) (addr r + 24 + bsize r) (match l2 with c :: _ => used c | [] => true end) m = Some m' /\
    shape m' (l1 ++ r' :: l2') fr' /\ addr r' = addr r /\ used r' = false /\ merged (r' :: l2') /\ used_of l2' = used_of l2 /\
    fr' ≡ₚ faddrs l1 ++ faddrs l2' /\ available_size (heap m') = free_bytes l1 + free_bytes l2' /\ same_heap m m' /\
    free_bytes l2 <= bsize r' + free_bytes l2' /\ max_used_size (heap m') = max_used_size (heap m) /\ bytes m' = bytes m.
Proof.
  intros HS Hu Hm Hp Hav. unfold shrink_join. pose proof (shape_free_bytes _ _ _ _ _ HS) as Hfb.
  assert (Hstay : match l2 with c :: _ => used c | [] => true end = true -> merged (r :: l2)) by (by destruct l2; simpl; rewrite ?Hu).
  destruct l2 as [|c l2]; [|destruct (used c) eqn:Huc]; cbn [negb].
  - exists r, [], m, fr. split_and!; try done. simpl. lia.
  - exists r, (c :: l2), m, fr. split_and!; try done; [by apply Hstay|lia].
  - assert (Ec : addr r + 24 + bsize r = addr c).
    { destruct (layout_split _ _ _ _ _ (s_layout _ _ _ HS)) as (_ & _ & _ & _ & E & _). by rewrite E. }
    rewrite Ec, (shape_size_in _ _ _ HS c) by set_solver. cbn [mbind option_bind].
    apply (merged_free [] c l2) in Hm as (_ & Hm & _ & Hm2); [|done].
    destruct (s_placed _ _ _ HS) as (P1 & P2 & P3 & _). simpl in Hav, Hfb. rewrite Huc in Hav, Hfb.
    destruct (shape_in _ _ _ HS c) as (? & ? & ?); [set_solver|]. unfold last_header in *.
    pose proof (layout_joined _ _ _ _ _ _ (s_layout _ _ _ HS)) as Hy. destruct (layout_split _ _ _ _ _ Hy) as (_ & _ & _ & _ & Lb).
    apply free_bytes_nonneg in Lb.
    assert (u32 (available_size (heap m) - bsize c) = free_bytes l1 + free_bytes l2) as -> by (unwrap; lia).
    assert (addr c ∈ fr) as Hin by (rewrite Hp, faddrs_cons, Huc; set_solver).
    apply list_elem_of_split in Hin as (f1 & f2 & ->). set (k := free_bytes l1 + free_bytes l2) in *.
    destruct (shape_merge (set_available k m) l1 r c l2 f1 f2 (shape_available _ _ _ _ HS)) as (m2 & -> & HS2 & S & Hh & B).
    exists (joined r c), l2, m2, (f1 ++ f2). split_and!; try done.
    + apply (merged_free [] _ l2); [done|]. by split_and!.
    + by rewrite used_of_cons, Huc.
    + apply (perm_middle f1 f2 _ _ (addr c)). by rewrite Hp, faddrs_cons, Huc.
    + by rewrite Hh.
    + unfold same_heap. by rewrite S, Hh.
    + simpl. rewrite Huc. lia.
    + by rewrite Hh.
Qed.

Lemma shrink_spec m l1 b l2 fr n : rep m (l1 ++ b :: l2) fr -> used b = true -> 12 <= n -> n + 36 < bsize b ->
  exists m' fr' r l2', shrink (addr b) n m = Some m' /\ rep m' (l1 ++ front b n true :: r :: l2') fr' /\ used r = false /\
    used_of l2' = used_of l2 /\ same_heap m m' /\
    forall a, ~ (addr b + 24 + n <= a < addr b + 24 + bsize b) -> bytes m' a = bytes m a.
Proof.
  intros HR Hub Hn Hb. destruct (rep_in _ _ _ HR b) as (R1 & R2 & R3); [set_solver|].
  pose proof (r_placed _ _ _ HR) as (P1 & P2 & P3 & _). unfold last_header in R3.
  pose proof (layout_cut _ _ _ _ _ n true (r_layout _ _ _ HR) Hn ltac:(lia)) as Hy.
  set (r := rest b n) in *. set (fb := front b n true) in *. set (new := addr r).
  assert (Hap : forall x, x ∈ last_header m :: (addr <$> l1 ++ b :: l2) ++ free_list (heap m) :: fr -> apart x RT_MEMHEAP_SIZE new RT_MEMHEAP_SIZE = true).
  { intros x. apply apart_inside; [apply HR|apply HR|done|unfold new; simpl; lia|unfold new; simpl; change RT_MEMHEAP_SIZE with 24; lia|].
    by apply free_in_blocks with m. }
  unfold shrink. change RT_MEMHEAP_SIZE with 24.
  assert (u32 (addr b + n + 24) = new) as -> by (unfold new; simpl; unwrap; lia).
  destruct (links_insert m _ l1 b l2 fr new n (bsize r) (r_links _ _ _ HR) Hap) as (m1 & -> & L1 & S1 & H1 & B1).
  cbn [mbind option_bind]. rewrite Hub in L1. fold (front b n true) in L1. fold fb in L1.
  assert (HS1 : shape m1 ((l1 ++ [fb]) ++ r :: l2) fr).
  { rewrite <- app_assoc. by apply (shape_intro m); [| |apply HR|exact L1|]. }
  change new with (addr r). rewrite (shape_next _ _ _ HS1 (l1 ++ [fb]) r l2 eq_refl). cbn [mbind option_bind].
  rewrite (shape_next_used _ _ _ HS1 (l1 ++ [fb]) r l2 eq_refl). cbn [mbind option_bind].
  pose proof (r_merged _ _ _ HR) as Hm. apply merged_used in Hm as [Hm1 Hm2]; [|done].
  destruct (shrink_join_spec m1 (l1 ++ [fb]) r l2 fr HS1 eq_refl Hm2) as
    (r' & l2' & m2 & fr2 & E2 & HS2 & Er & Hr & Hmr & Hu2 & Hp2 & Hav2 & Hsm2 & Hgr & Hmx & Hb2).
  { rewrite (r_perm _ _ _ HR), !faddrs_app, !faddrs_cons, Hub. simpl. by rewrite app_nil_r. }
  { rewrite H1, (r_avail _ _ _ HR), !free_bytes_app. simpl. rewrite Hub. lia. }
  unfold shrink_join in E2. rewrite E2. cbn [mbind option_bind]. rewrite <- Er.
  destruct (shape_free_insert m2 _ r' l2' fr2 HS2 Hp2 Hr) as (m3 & -> & HS3 & Hp3 & S3 & H3 & B3). cbn [mbind option_bind].
  rewrite (shape_size _ _ _ HS3 (l1 ++ [fb]) r' l2' eq_refl). cbn [mbind option_bind].
  pose proof (shape_free_bytes _ _ _ _ _ HS3) as Hfb. rewrite free_bytes_app in Hfb, Hav2. simpl in Hfb, Hav2.
  destruct (s_placed _ _ _ HS3) as (Q1 & Q2 & Q3 & _).
  rewrite (add_available_spec _ _ (free_bytes ((l1 ++ [fb]) ++ r' :: l2'))).
  2:{ rewrite H3, Hav2, !free_bytes_app. simpl. rewrite Hr. unwrap. lia. }
  set (k := free_bytes ((l1 ++ [fb]) ++ r' :: l2')).
  assert (Hsm : same_heap m (set_available k m3)).
  { destruct Hsm2 as (A0 & A1 & A2 & A3). unfold same_heap. simpl. by rewrite S3, H3, A0, A1, A2, A3, S1, H1. }
  pose proof (shape_available _ _ _ k HS3) as HS4. destruct (same_placed _ _ Hsm (r_placed _ _ _ HR)) as [Hpl Elh].
  assert (Ea : (l1 ++ [fb]) ++ r' :: l2' = l1 ++ fb :: r' :: l2') by (by rewrite <- app_assoc). rewrite Ea in *.
  exists (set_available k m3), (addr r' :: fr2), r', l2'. split_and!; [done| |done|done|done|].
  - split; try apply HS4; [done| |by apply merged_used|].
    + unfold k. by rewrite <- Ea.
    + pose proof (r_used _ _ _ HR) as Hus. rewrite (r_avail _ _ _ HR) in Hus. simpl.
      destruct Hsm as (_ & _ & Ep & _). simpl in Ep. rewrite Ep, H3, Hmx, H1. unfold k.
      rewrite !free_bytes_app in *. simpl in *. rewrite Hr, Hub in *. lia.
  - intros a Ha. simpl. rewrite B3, Hb2, B1. unfold inside. change RT_MEMHEAP_SIZE with 24. unfold new, r. simpl.
    rewrite (proj2 (andb_false_iff _ _)); [done|]. rewrite Z.leb_gt, Z.ltb_ge. lia.
Qed.
