(* ===== verification/MemheapSpec.v ===== *)
(** * A memory heap is an allocator

    [rt_memheap_realloc] and [rt_memheap_init] on the invariant of MemheapSafe,
    and the contract of file Alloc. *)

From S2P Require Import Prelude Ring Alloc Memheap MemheapSafe.

Lemma rep_nodup m bl fr : rep m bl fr -> NoDup bl /\ (forall b c, b ∈ bl -> c ∈ bl -> addr b = addr c -> b = c).
Proof.
  intros HR. split.
  - destruct (l_blocks _ _ _ _ (r_links _ _ _ HR)) as [_ Hd]. apply NoDup_cons in Hd as [_ Hd]. by apply NoDup_fmap_1 in Hd.
  - intros b c Hb Hc E. destruct (layout_disjoint _ _ _ b c (r_layout _ _ _ HR) Hb Hc) as [|]; [done|].
    pose proof (rep_in _ _ _ HR b Hb). pose proof (rep_in _ _ _ HR c Hc). lia.
Qed.

Lemma used_of_elem b l : b ∈ used_of l <-> b ∈ l /\ used b = true.
Proof. unfold used_of. rewrite list_elem_of_filter. tauto. Qed.

#[export] Instance block_eq_dec : EqDecision block.
Proof. solve_decision. Defined.

Lemma used_middle l1 b l2 x : NoDup (l1 ++ b :: l2) -> x ∈ used_of (l1 ++ l2) <-> x ∈ used_of (l1 ++ b :: l2) /\ x <> b.
Proof.
  intros Hd. apply NoDup_app in Hd as (_ & H1 & H2). apply NoDup_cons in H2 as [H2 _]. rewrite !used_of_elem.
  specialize (H1 b). set_solver.
Qed.

(** The used blocks after [b] was given out. *)
Lemma used_given l1 b l2 n k rs x : used b = false -> given b n k rs ->
  x ∈ used_of (l1 ++ front b k true :: rs ++ l2) <-> x = front b k true \/ x ∈ used_of (l1 ++ b :: l2).
Proof.
  intros Hu Hg. rewrite !used_of_app, !used_of_cons, used_of_app, Hu. simpl.
  assert (used_of rs = []) as -> by (by destruct Hg as [(_ & -> & _)|(_ & -> & _)]). simpl. set_solver.
Qed.

(** Bytes of the block [b]. *)
Definition in_block (b : block) (a : Z) : Prop := addr b + 24 <= a < addr b + 24 + bsize b.

Lemma in_block_disjoint m bl fr b c a : rep m bl fr -> b ∈ bl -> c ∈ bl -> in_block b a -> in_block c a -> b = c.
Proof.
  intros HR Hb Hc H1 H2. unfold in_block in *. destruct (layout_disjoint _ _ _ b c (r_layout _ _ _ HR) Hb Hc) as [|[|]]; [done|lia|lia].
Qed.

(** The other blocks and the bytes in them. *)
Record resized (m m' : mem) (l1 l2 : list block) (b b' : block) (n : Z) (bl' : list block) : Prop := {
  z_used : used b' = true;
  z_size : n <= bsize b';
  z_blocks : forall x, x ∈ used_of bl' <-> x = b' \/ x ∈ used_of (l1 ++ l2);
  z_new : b' ∉ used_of (l1 ++ l2);
  z_kept : forall i, 0 <= i < Z.min (bsize b) n -> bytes m' (addr b' + 24 + i) = bytes m (addr b + 24 + i);
  z_others : forall c a, c ∈ used_of (l1 ++ l2) -> in_block c a -> bytes m' a = bytes m a
}.

Lemma move_spec m l1 b l2 fr n : rep m (l1 ++ b :: l2) fr -> used b = true -> bsize b < n -> 12 <= n <= 2 ^ 32 - 8 ->
  exists q m', move (addr b + 24) (bsize b) n m = Some (q, m') /\
    (q = 0 /\ m' = m \/ exists b' bl' fr', rep m' bl' fr' /\ same_heap m m' /\ q = addr b' + 24 /\ resized m m' l1 l2 b b' n bl').
Proof.
  intros HR Hub Hn Hn'. pose proof (r_placed _ _ _ HR) as (P1 & P2 & P3 & _). unfold move.
  assert (Hb : b ∈ l1 ++ b :: l2) by set_solver.
  destruct (rt_memheap_alloc_spec m _ fr n HR) as (p & m1 & -> & [(-> & -> & _)|H]); [lia|by exists 0, m; split; [|left]|].
  destruct H as (k1 & c & k2 & n' & rs & fr1 & E & Huc & Hreq & Hg & -> & HR1 & Hsame1 & HB1). cbn [mbind option_bind].
  assert (Hc : c ∈ l1 ++ b :: l2) by (rewrite E; set_solver). destruct (rep_in _ _ _ HR c Hc) as (R1 & R2 & R3).
  rewrite (proj2 (Z.eqb_neq _ _)) by lia. rewrite (proj2 (Z.ltb_lt _ _)) by lia.
  pose proof (memheap_request_enough n ltac:(lia)) as Hrn.
  assert (Hn1 : n <= n') by (destruct Hg as [(-> & _)|(-> & _)]; lia).
  assert (Hn2 : n' <= bsize c) by (destruct Hg as [(-> & _)|(-> & _ & ?)]; lia).
  set (c' := front c n' true) in *. set (bl1 := k1 ++ c' :: rs ++ k2) in *.
  set (m2 := rt_memcpy (addr c + 24) (addr b + 24) (bsize b) m1).
  assert (HR2 : rep m2 bl1 fr1).
  { apply (overwrite_spec _ _ _ c'); [done|unfold bl1; set_solver|pose proof (rep_in _ _ _ HR b Hb); lia|simpl; lia|simpl; lia]. }
  assert (Hbc : b <> c) by (intros ->; congruence).
  assert (Hb1 : b ∈ bl1) by (unfold bl1; rewrite E in Hb; set_solver).
  assert (Hdis : forall a, in_block b a -> ~ in_block c a) by (intros a H1 H2; apply Hbc; by apply (in_block_disjoint _ _ _ _ _ a HR)).
  apply list_elem_of_split in Hb1 as (j1 & j2 & Ej). assert (HR2' := HR2). rewrite Ej in HR2'.
  destruct (rt_memheap_free_spec m2 j1 b j2 fr1 HR2' Hub) as (m3 & bl' & fr' & -> & HR3 & Hsame3 & HB3 & Hu3). cbn [mbind option_bind].
  exists (addr c + 24), m3. split; [done|]. right. exists c', bl', fr'.
  assert (Hbl : forall x, x ∈ used_of (j1 ++ j2) <-> x = c' \/ x ∈ used_of (l1 ++ l2)).
  { intros x. destruct (rep_nodup _ _ _ HR) as [Hd Hinj], (rep_nodup _ _ _ HR2) as [Hd2 _]. rewrite Ej in Hd2.
    assert (c' <> b) by (intros Ecb; apply Hbc, Hinj; [done|done|by rewrite <- Ecb]).
    rewrite (used_middle j1 b j2 x Hd2), (used_middle l1 b l2 x Hd), <- Ej. unfold bl1, c'.
    rewrite (used_given _ _ _ _ _ _ _ Huc Hg), <- E. naive_solver. }
  assert (Hnew : c' ∉ used_of (l1 ++ l2)).
  { intros Hin. apply used_of_elem in Hin as [Hin _]. assert (c' ∈ l1 ++ b :: l2) as Hin' by set_solver.
    destruct (rep_nodup _ _ _ HR) as [_ Hinj]. assert (c' = c) as Ec by (by apply Hinj). rewrite <- Ec in Huc. done. }
  split_and!; [done| |done|].
  - destruct Hsame1 as (A0 & A1 & A2 & A3), Hsame3 as (C0 & C1 & C2 & C3). unfold same_heap, m2 in *. simpl in *. by rewrite C0, C1, C2, C3.
  - split; [done|simpl; lia|by rewrite Hu3|done| |].
    + intros i Hi. rewrite HB3. simpl. unfold inside. rewrite (proj2 (Z.leb_le _ _)), (proj2 (Z.ltb_lt _ _)) by lia. simpl.
      replace (addr b + 24 + (addr c + 24 + i - (addr c + 24))) with (addr b + 24 + i) by lia. apply HB1.
      assert (~ in_block c (addr b + 24 + i)) as Hni by (apply Hdis; unfold in_block; lia). unfold in_block in Hni. lia.
    + intros d a Hd Ha. rewrite HB3. simpl. apply used_of_elem in Hd as [Hd Hud].
      assert (d ∈ l1 ++ b :: l2) as Hd' by set_solver.
      assert (~ in_block c a) as Hni by (intros Hca; assert (d = c) as -> by (by apply (in_block_disjoint _ _ _ _ _ a HR)); congruence).
      unfold in_block in *. unfold inside. rewrite (proj2 (andb_false_iff _ _)); [apply HB1; lia|].
      rewrite Z.leb_gt, Z.ltb_ge. lia.
Qed.

Theorem rt_memheap_realloc_spec m l1 b l2 fr size : rep m (l1 ++ b :: l2) fr -> used b = true -> 0 < size <= max_request ->
  exists q m', rt_memheap_realloc (addr b + 24) size m = Some (q, m') /\
    (q = 0 /\ m' = m \/ exists b' bl' fr', rep m' bl' fr' /\ same_heap m m' /\ q = addr b' + 24 /\ resized m m' l1 l2 b b' (request size) bl').
Proof.
  unfold max_request. intros HR Hub Hsize. pose proof (r_placed _ _ _ HR) as (P1 & P2 & P3 & _).
  destruct (rep_in _ _ _ HR b) as (R1 & R2 & R3); [set_solver|]. unfold last_header in R3.
  assert (Hn : 12 <= request size <= 2 ^ 32 - 16).
  { unfold request, RT_MEMHEAP_MINIALLOC. rewrite RT_ALIGN_spec by lia. destruct (Z.ltb_spec ((size + 7) / 8 * 8) 12); zdiv. }
  unfold rt_memheap_realloc. rewrite !(proj2 (Z.eqb_neq _ _)) by lia. change RT_MEMHEAP_SIZE with 24. unfold RT_MEMHEAP_MINIALLOC.
  assert (u32 (addr b + 24 - 24) = addr b) as -> by (unwrap; lia). set (n := request size) in *.
  pose proof (rep_shape _ _ _ HR) as HS. rewrite (shape_size _ _ _ HS l1 b l2 eq_refl). cbn [mbind option_bind].
  pose proof (proj1 (rep_nodup _ _ _ HR)) as Hd.
  assert (Hfresh : forall k, front b k true ∉ used_of (l1 ++ l2)).
  { intros k Hin. apply (used_middle l1 b l2 _ Hd) in Hin as [Hin Hne]. apply used_of_elem in Hin as [Hin _].
    apply Hne. apply (proj2 (rep_nodup _ _ _ HR)); [done|set_solver|done]. }
  assert (Hother : forall c a, c ∈ used_of (l1 ++ l2) -> in_block c a -> ~ in_block b a).
  { intros c a Hin Hca Hba. apply (used_middle l1 b l2 _ Hd) in Hin as [Hin Hne]. apply used_of_elem in Hin as [Hin _].
    apply Hne. apply (in_block_disjoint _ _ _ _ _ a HR); [done|set_solver|done|done]. }
  destruct (Z.gtb_spec n (bsize b)) as [Hgt|Hle].
  - rewrite (shape_next _ _ _ HS l1 b l2 eq_refl). cbn [mbind option_bind].
    rewrite (shape_next_used _ _ _ HS l1 b l2 eq_refl). cbn [mbind option_bind].
    destruct l2 as [|c l2]; [|destruct (used c) eqn:Huc]; cbn [negb]; [apply (move_spec _ _ _ _ fr); try done; lia..|].
    assert (Ec : addr b + 24 + bsize b = addr c).
    { destruct (layout_split _ _ _ _ _ (r_layout _ _ _ HR)) as (_ & _ & _ & _ & E & _). by rewrite E. }
    rewrite Ec, (rep_size_in _ _ _ HR c) by set_solver. cbn [mbind option_bind].
    destruct (rep_in _ _ _ HR c) as (R4 & R5 & R6); [set_solver|]. unfold last_header in R6.
    assert (u32 (bsize c + bsize b) = bsize c + bsize b) as -> by (unwrap; lia).
    assert (u32 (n + 12) = n + 12) as -> by (unwrap; lia).
    destruct (Z.gtb_spec (bsize c + bsize b) (n + 12)); [|apply (move_spec _ _ _ _ fr); try done; lia].
    destruct (grow_in_place_spec m l1 b c l2 fr n HR Hub Huc) as (m' & fr' & -> & HR' & Hsm & HB); [lia|lia|].
    exists (addr b + 24), m'. split; [done|]. right. eexists (front b n true), _, fr'. split_and!; [exact HR'|done|done|].
    split; [done|simpl; lia| |apply Hfresh| |].
    + intros x. rewrite !used_of_app, !used_of_cons, Huc. simpl. set_solver.
    + intros i Hi. apply HB. simpl. lia.
    + intros d a Hin Ha. apply HB. intros Hin2. apply (used_middle l1 b (c :: l2) _ Hd) in Hin as [Hin Hne].
      apply used_of_elem in Hin as [Hin Hud].
      destruct (layout_disjoint _ _ _ c d (r_layout _ _ _ HR)) as [->|Hdc]; [set_solver|done|congruence|].
      unfold in_block in Ha. pose proof (rep_in _ _ _ HR d Hin). destruct (layout_disjoint _ _ _ b d (r_layout _ _ _ HR)) as [->|?]; [set_solver|done|done|]. lia.
  - rewrite Z.geb_leb. assert (u32 (u32 (n + 24) + 12) = n + 36) as -> by (unwrap; lia).
    destruct (Z.leb_spec (bsize b) (n + 36)) as [Hfit|Hsh].
    + exists (addr b + 24), m. split; [done|]. right. exists b, (l1 ++ b :: l2), fr. split_and!; [done|by split_and!|done|].
      split; [done|lia| | |done|done].
      * intros x. rewrite (used_middle l1 b l2 x Hd). destruct (decide (x = b)) as [->|]; [|naive_solver].
        rewrite used_of_elem. split; [by left|]. intros _. split; [set_solver|done].
      * rewrite (used_middle l1 b l2 _ Hd). naive_solver.
    + destruct (shrink_spec m l1 b l2 fr n HR Hub) as (m' & fr' & r & l2' & -> & HR' & Hr & Hu2 & Hsm & HB); [lia|lia|].
      exists (addr b + 24), m'. split; [done|]. right. eexists (front b n true), _, fr'. split_and!; [exact HR'|done|done|].
      split; [done|simpl; lia| |apply Hfresh| |].
      * intros x. rewrite !used_of_app, !used_of_cons, Hr, Hu2. simpl. set_solver.
      * intros i Hi. apply HB. simpl. lia.
      * intros d a Hin Ha. apply HB. pose proof (Hother d a Hin Ha) as Hni. unfold in_block in Hni. lia.
Qed.

(** ** The start *)

Theorem rt_memheap_init_spec this start size bs : 0 <= this -> free_header this + 24 <= start -> start + size < 2 ^ 32 ->
  64 <= size -> exists m b, rt_memheap_init this start size bs = Some m /\ rep m [b] [addr b] /\
    b = mk_block start (size / 8 * 8 - 48) false /\ self m = this.
Proof.
  unfold free_header. intros Hthis Hfh Hend Hsize. unfold rt_memheap_init. rewrite RT_ALIGN_DOWN_spec by lia. unfold free_header.
  set (pool := size / 8 * 8). assert (Hpool : 64 <= pool <= size) by (unfold pool; zdiv).
  change RT_MEMHEAP_SIZE with 24. assert (u32 (pool - 2 * 24) = pool - 48) as -> by (unwrap; lia).
  assert (u32 (pool - (pool - 48)) = 48) as -> by (unwrap; lia).
  assert (u32 (start + (pool - 48) + 24) = start + pool - 24) as -> by (unwrap; lia).
  set (m1 := place start _ _). set (g := this + 68) in *. set (fin := start + pool - 24).
  assert (Hst : items m1 !! start = Some (mk_item RT_MEMHEAP_MAGIC this 0 0 start start)) by (unfold m1; simpl; by rewrite lookup_insert_eq).
  assert (Hgi : forall f, rd f g m1 = Some (f (mk_item RT_MEMHEAP_MAGIC this 0 0 g g))).
  { intros f. unfold m1. rewrite rd_place, decide_False by lia.
    assert (apart g RT_MEMHEAP_SIZE start RT_MEMHEAP_SIZE = true) as ->.
    { unfold apart. change RT_MEMHEAP_SIZE with 24. rewrite orb_true_iff, !Z.leb_le. lia. }
    by rewrite rd_place, decide_True. }
  destruct (wr_spec start (set_next fin) m1 ltac:(by eexists)) as (m2 & -> & S2 & H2 & B2 & F2). cbn [mbind option_bind].
  rewrite (F2 next start), decide_True, Hst by done. cbn [fmap option_fmap option_map mbind option_bind next set_next].
  assert (Hst2 : is_Some (items m2 !! start)) by (eapply (rd_some magic); rewrite F2, decide_True, Hst by done; done).
  destruct (wr_spec start (set_prev fin) m2 Hst2) as (m3 & -> & S3 & H3 & B3 & F3). cbn [mbind option_bind].
  assert (Hf3 : forall f, rd f start m3 = Some (f (mk_item RT_MEMHEAP_MAGIC this fin fin start start))).
  { intros f. rewrite F3, decide_True by done. pose proof (F2 (fun i => f (set_prev fin i)) start) as E.
    rewrite decide_True, Hst in E by done. exact E. }
  assert (Hg3 : forall f, rd f g m3 = Some (f (mk_item RT_MEMHEAP_MAGIC this 0 0 g g))).
  { intros f. rewrite F3, F2, !decide_False by lia. apply Hgi. }
  assert (Eh : heap m3 = mk_heap start pool (pool - 48) 48 start g) by (by rewrite H3, H2).
  destruct (free_insert_spec start m3 []) as (m4 & -> & K & Hr); rewrite ?Eh; cbn [free_list].
  { split; [|apply NoDup_singleton]. unfold fld. simpl. by rewrite !Hg3. }
  { eapply rd_some. apply (Hf3 magic). }
  { intros ->%list_elem_of_singleton. lia. }
  rewrite Eh in Hr. cbn [free_list] in Hr. destruct K as [K1 K2 K3 K4 K5]. cbn [mbind option_bind]. change RT_MEMHEAP_SIZE with 24 in *.
  rewrite (K5 next), Hf3 by set_solver. cbn [mbind option_bind next]. set (m := place fin _ m4).
  assert (Hap : forall x, x ∈ [g; start] -> apart x RT_MEMHEAP_SIZE fin RT_MEMHEAP_SIZE = true).
  { intros x Hx. unfold apart. change RT_MEMHEAP_SIZE with 24. rewrite orb_true_iff, !Z.leb_le. unfold fin in *.
    apply elem_of_cons in Hx as [-> | ->%list_elem_of_singleton]; lia. }
  assert (Hs : forall f, f ∈ block_fields -> rd f start m = Some (f (mk_item RT_MEMHEAP_MAGIC this fin fin start start))).
  { intros f Hf. unfold m. rewrite rd_place, decide_False, Hap, (K5 f Hf) by (unfold fin; lia || set_solver). apply Hf3. }
  assert (Hfin : forall f, rd f fin m = Some (f (mk_item (Z.lor RT_MEMHEAP_MAGIC RT_MEMHEAP_USED) this start start 0 0))).
  { intros f. unfold m. by rewrite rd_place, decide_True. }
  assert (Ehm : heap m = mk_heap start pool (pool - 48) 48 start g) by (unfold m; simpl; by rewrite K2, Eh).
  exists m, (mk_block start (pool - 48) false). split_and!; [done| |done|].
  - split; unfold last_header, placed, RT_MEMHEAP_MINIALLOC; rewrite ?Ehm; simpl; try done.
    + split; unfold fld; simpl.
      * split; [simpl; rewrite ?Hfin, !Hs by set_solver; done|]. apply NoDup_cons. split; [|apply NoDup_singleton]. intros ?%list_elem_of_singleton. lia.
      * apply ring_place; [rewrite K2, Eh; exact Hr|]. rewrite K2, Eh. intros x Hx. by apply Hap.
      * intros b ->%list_elem_of_singleton. by rewrite Hs by set_solver.
      * apply Hfin.
    + split_and!; [done|unfold RT_MEMHEAP_MINIALLOC; lia|lia].
    + lia.
    + lia.
    + split_and!; lia.
  - unfold m. simpl. by rewrite K1, S3, S2.
Qed.

(** ** The contract *)

Definition window (m : mem) (p n : Z) : list (option Z) := (fun i => bytes m (p + i)) <$> seqZ 0 n.

Lemma length_window m p n : length (window m p n) = Z.to_nat n.
Proof. unfold window. by rewrite length_fmap, length_seqZ. Qed.

Lemma lookup_window m p n i : window m p n !! i = if decide (Z.of_nat i < n) then Some (bytes m (p + Z.of_nat i)) else None.
Proof.
  unfold window. rewrite list_lookup_fmap. case_decide.
  - rewrite lookup_seqZ_lt by lia. simpl. by replace (0 + Z.of_nat i) with (Z.of_nat i) by lia.
  - by rewrite lookup_seqZ_ge by lia.
Qed.

Lemma window_ext m m' p n : (forall i, 0 <= i < n -> bytes m' (p + i) = bytes m (p + i)) -> window m' p n = window m p n.
Proof. intros H. apply list_eq. intros i. rewrite !lookup_window. case_decide; [|done]. by rewrite H by lia. Qed.

Lemma window_read m p n o k : (o + k <= Z.to_nat n)%nat -> window m (p + Z.of_nat o) (Z.of_nat k) = take k (drop o (window m p n)).
Proof.
  intros H. apply list_eq. intros i. rewrite lookup_window. destruct (decide (i < k)%nat).
  - rewrite decide_True, lookup_take_lt, lookup_drop, lookup_window, decide_True by lia. do 2 f_equal. lia.
  - rewrite decide_False by lia. symmetry. apply lookup_ge_None. rewrite length_take. lia.
Qed.

(** The blocks of a list, as a map. *)
Definition desc (m : mem) (ul : list block) (L : blocks_map) : Prop :=
  forall p c, L !! p = Some c <-> exists b, b ∈ ul /\ p = addr b + 24 /\ c = window m p (bsize b).

Definition describes (m : mem) (L : blocks_map) : Prop := exists bl fr, rep m bl fr /\ desc m (used_of bl) L.

Lemma desc_ext m m' ul ul' L : (forall x, x ∈ ul' <-> x ∈ ul) ->
  (forall b a, b ∈ ul -> in_block b a -> bytes m' a = bytes m a) -> desc m ul L -> desc m' ul' L.
Proof.
  intros Hul Hb H p c. rewrite (H p c). split; intros (b & Hin & -> & ->); exists b.
  - apply Hul in Hin as Hin'. split_and!; [done|done|]. symmetry. apply window_ext. intros i Hi. apply (Hb b); [done|unfold in_block; lia].
  - apply Hul in Hin. split_and!; [done|done|]. apply window_ext. intros i Hi. apply (Hb b); [done|unfold in_block; lia].
Qed.

Lemma desc_insert m ul ul' b L : (forall x, x ∈ ul' <-> x = b \/ x ∈ ul) -> (forall x, x ∈ ul -> addr x <> addr b) ->
  desc m ul L -> L !! (addr b + 24) = None /\ desc m ul' (<[addr b + 24 := window m (addr b + 24) (bsize b)]> L).
Proof.
  intros Hul Hne H. split.
  - destruct (L !! _) as [c|] eqn:E; [|done]. apply H in E as (x & Hx & E & _). apply Hne in Hx. lia.
  - intros p c. rewrite lookup_insert. case_decide as E.
    + subst p. split; [intros [= <-]; exists b; set_solver|]. intros (x & Hx & E & ->). apply Hul in Hx as [->|Hx]; [done|].
      apply Hne in Hx. lia.
    + rewrite (H p c). split; intros (x & Hx & -> & ->); exists x; [set_solver|]. apply Hul in Hx as [->|Hx]; done.
Qed.

Lemma desc_delete m ul ul' b L : (forall x, x ∈ ul' <-> x ∈ ul /\ x <> b) -> (forall x, x ∈ ul -> addr x = addr b -> x = b) ->
  desc m ul L -> desc m ul' (delete (addr b + 24) L).
Proof.
  intros Hul Hinj H p c. rewrite lookup_delete. case_decide as E.
  - subst p. split; [done|]. intros (x & Hx & E & ->). apply Hul in Hx as [Hx Hne]. destruct Hne. apply Hinj; [done|lia].
  - rewrite (H p c). split; intros (x & Hx & -> & ->); exists x; [|naive_solver].
    split_and!; [|done|done]. apply Hul. split; [done|]. intros ->. done.
Qed.

(** A live address is a used block of the list. *)
Lemma desc_split m bl fr L p c : rep m bl fr -> desc m (used_of bl) L -> L !! p = Some c ->
  exists l1 b l2, bl = l1 ++ b :: l2 /\ used b = true /\ p = addr b + 24 /\ c = window m p (bsize b) /\ 12 <= bsize b.
Proof.
  intros HR HD Hp. apply HD in Hp as (b & Hb & -> & ->). apply used_of_elem in Hb as [Hb Hu].
  pose proof (rep_in _ _ _ HR b Hb). apply list_elem_of_split in Hb as (l1 & l2 & ->).
  exists l1, b, l2. split_and!; (done || lia).
Qed.

#[export] Instance memheap_allocator : Allocator mem := {
  al_alloc := rt_memheap_alloc; al_free := rt_memheap_free; al_realloc := rt_memheap_realloc;
  al_write := store; al_read p n m := window m p n
}.

Lemma describes_alloc m L n : describes m L -> 0 <= n <= max_request -> exists p m', rt_memheap_alloc n m = Some (p, m') /\
  (p = 0 /\ describes m' L \/ p <> 0 /\ L !! p = None /\ exists c, n <= Z.of_nat (length c) /\ describes m' (<[p := c]> L)).
Proof.
  intros (bl & fr & HR & HD) Hn. unfold max_request in Hn.
  destruct (rt_memheap_alloc_spec m bl fr n HR) as (p & m' & -> & [(-> & -> & _)|H]); [lia|exists 0, m; split; [done|left; by split; [|exists bl, fr]]|].
  destruct H as (l1 & b & l2 & k & rs & fr' & -> & Hu & Hreq & Hg & -> & HR' & _ & HB).
  eexists _, _. split; [done|]. right. destruct (rep_in _ _ _ HR b) as (R1 & R2 & R3); [set_solver|].
  pose proof (r_placed _ _ _ HR) as (P1 & _). pose proof (memheap_request_enough n ltac:(lia)) as Hrn.
  assert (Hk : request n <= k <= bsize b) by (destruct Hg as [(-> & _)|(-> & _ & ?)]; lia).
  assert (Hother : forall c, c ∈ used_of (l1 ++ b :: l2) -> c ∈ l1 ++ b :: l2 /\ c <> b).
  { intros c [Hc Huc]%used_of_elem. split; [done|]. intros ->. congruence. }
  assert (HD' : desc m' (used_of (l1 ++ b :: l2)) L).
  { apply (desc_ext m m' (used_of (l1 ++ b :: l2)) _ L); [done| |done]. intros c a Hc Ha. apply HB. intros Hin. apply Hother in Hc as [Hc Hne].
    apply Hne. apply (in_block_disjoint _ _ _ _ _ a HR); [done|set_solver|done|unfold in_block; lia]. }
  destruct (desc_insert m' _ (used_of (l1 ++ front b k true :: rs ++ l2)) (front b k true) L (fun x => used_given _ _ _ _ _ _ x Hu Hg)) as [H1 H2]; [|done|].
  { intros x Hx E. apply Hother in Hx as [Hx Hne]. apply Hne. apply (proj2 (rep_nodup _ _ _ HR)); [done|set_solver|done]. }
  split_and!; [lia|done|]. eexists. split; [|exists (l1 ++ front b k true :: rs ++ l2), fr'; split; [done|exact H2]].
  rewrite length_window. simpl. lia.
Qed.

Lemma describes_free m L p c : describes m L -> L !! p = Some c -> exists m', rt_memheap_free p m = Some m' /\ describes m' (delete p L).
Proof.
  intros (bl & fr & HR & HD) Hp. destruct (desc_split _ _ _ _ _ _ HR HD Hp) as (l1 & b & l2 & -> & Hu & -> & -> & _).
  destruct (rt_memheap_free_spec m l1 b l2 fr HR Hu) as (m' & bl' & fr' & -> & HR' & _ & HB & Hul).
  exists m'. split; [done|]. exists bl', fr'. split; [done|]. rewrite Hul. destruct (rep_nodup _ _ _ HR) as [Hd Hinj].
  apply (desc_delete m' (used_of (l1 ++ b :: l2))); [intros x; by apply used_middle| |].
  - intros x Hx. apply used_of_elem in Hx as [Hx _]. apply Hinj; [done|set_solver].
  - apply (desc_ext m m' _ _ L (fun x => iff_refl _)); [by intros; rewrite HB|done].
Qed.

Lemma describes_realloc m L p c n : describes m L -> L !! p = Some c -> 0 < n <= max_request ->
  exists q m', rt_memheap_realloc p n m = Some (q, m') /\ (q = 0 /\ describes m' L \/
    q <> 0 /\ delete p L !! q = None /\ exists c', n <= Z.of_nat (length c') /\
      (forall i, (i < length c)%nat -> Z.of_nat i < n -> c' !! i = c !! i) /\ describes m' (<[q := c']> (delete p L))).
Proof.
  intros (bl & fr & HR & HD) Hp Hn. destruct (desc_split _ _ _ _ _ _ HR HD Hp) as (l1 & b & l2 & -> & Hu & -> & -> & _).
  destruct (rt_memheap_realloc_spec m l1 b l2 fr n HR Hu Hn) as (q & m' & -> & [(-> & ->)|H]).
  { exists 0, m. split; [done|left]. split; [done|]. by exists (l1 ++ b :: l2), fr. }
  destruct H as (b' & bl' & fr' & HR' & _ & -> & [Zu Zs Zb Zn Zk Zo]). eexists _, _. split; [done|]. right.
  destruct (rep_nodup _ _ _ HR) as [Hd Hinj], (rep_nodup _ _ _ HR') as [_ Hinj'].
  assert (Hb' : b' ∈ bl') by (eapply used_of_elem, Zb; by left).
  destruct (rep_in _ _ _ HR' b' Hb') as (R1 & _). pose proof (r_placed _ _ _ HR') as (P1 & _).
  assert (HD' : desc m' (used_of (l1 ++ l2)) (delete (addr b + 24) L)).
  { apply (desc_ext m m' (used_of (l1 ++ l2)) _ _ (fun x => iff_refl _)); [done|].
    apply (desc_delete m (used_of (l1 ++ b :: l2))); [intros x; by apply used_middle| |done].
    intros x Hx. apply used_of_elem in Hx as [Hx _]. apply Hinj; [done|set_solver]. }
  destruct (desc_insert m' _ _ b' (delete (addr b + 24) L) Zb) as [H1 H2]; [|exact HD'|].
  { intros x Hx E. apply Zn. rewrite <- (Hinj' x b'); [done| |done|done]. eapply used_of_elem, Zb. by right. }
  pose proof (memheap_request_enough n ltac:(unfold max_request in Hn; lia)) as Hrn.
  split_and!; [lia|done|]. eexists. split_and!; [|intros i Hi1 Hi2|exists bl', fr'; split; [done|exact H2]].
  - rewrite length_window. lia.
  - rewrite length_window in Hi1. rewrite !lookup_window, !decide_True by lia. by rewrite Zk by lia.
Qed.

Lemma describes_store m L p c o l : describes m L -> L !! p = Some c -> (o + length l <= length c)%nat ->
  describes (store (p + Z.of_nat o) l m) (<[p := list_inserts o (Some <$> l) c]> L).
Proof.
  intros (bl & fr & HR & HD) Hp Ho. destruct (desc_split _ _ _ _ _ _ HR HD Hp) as (l1 & b & l2 & -> & Hu & -> & -> & Hsz).
  rewrite length_window in Ho. exists (l1 ++ b :: l2), fr. split.
  { apply (overwrite_spec _ _ _ b); [done|set_solver|lia|lia|lia]. }
  destruct (rep_nodup _ _ _ HR) as [Hd Hinj]. set (m' := store _ _ m).
  assert (Hw : window m' (addr b + 24) (bsize b) = list_inserts o (Some <$> l) (window m (addr b + 24) (bsize b))).
  { apply list_eq. intros i. rewrite lookup_inserts_dec by (rewrite length_fmap, length_window; lia). rewrite length_fmap, !lookup_window.
    unfold m', store, overwrite, inside. simpl. destruct (decide (o <= i < o + length l)%nat).
    - rewrite decide_True by lia. rewrite (proj2 (Z.leb_le _ _)), (proj2 (Z.ltb_lt _ _)) by lia. simpl.
      rewrite list_lookup_fmap. replace (Z.to_nat _) with (i - o)%nat by lia.
      by destruct (lookup_lt_is_Some_2 l (i - o)%nat ltac:(lia)) as [v ->].
    - case_decide; [|done]. rewrite (proj2 (andb_false_iff _ _)); [done|]. rewrite Z.leb_gt, Z.ltb_ge. lia. }
  intros q c. rewrite lookup_insert. case_decide as E.
  - subst q. rewrite <- Hw. split; [intros [= <-]; exists b; split_and!; [apply used_of_elem; set_solver|done|done]|].
    intros (x & Hx & E & ->). apply used_of_elem in Hx as [Hx _]. by rewrite (Hinj x b) by (done || set_solver || lia).
  - rewrite (HD q c). split; intros (x & Hx & -> & ->); exists x; (split_and!; [done|done|]); [symmetry|];
      apply window_ext; intros i Hi; unfold m', store, overwrite, inside; simpl;
      (rewrite (proj2 (andb_false_iff _ _)); [done|]); rewrite Z.leb_gt, Z.ltb_ge;
      apply used_of_elem in Hx as [Hx _];
      (destruct (layout_disjoint _ _ _ b x (r_layout _ _ _ HR)) as [->|?]; [set_solver|done|done|lia]).
Qed.

#[export] Instance memheap_laws : AllocatorLaws mem describes.
Proof.
  split.
  - intros m L (bl & fr & HR & HD). destruct (L !! 0) as [c|] eqn:E; [|done]. apply HD in E as (b & Hb & E & _).
    apply used_of_elem in Hb as [Hb _]. destruct (rep_in _ _ _ HR b Hb) as (? & _), (r_placed _ _ _ HR) as (? & _). lia.
  - intros m L n. apply describes_alloc.
  - done.
  - intros m L p c. apply describes_free.
  - intros m n Hn. exists (request n). unfold max_request in *. split.
    + unfold request, RT_MEMHEAP_MINIALLOC. rewrite RT_ALIGN_spec by lia. destruct (Z.ltb_spec ((n + 7) / 8 * 8) 12); zdiv.
    + unfold al_realloc, memheap_allocator, rt_memheap_realloc. by rewrite (proj2 (Z.eqb_neq n 0)) by lia.
  - intros m L p c n. apply describes_realloc.
  - intros m L p c o l. apply describes_store.
  - intros m L p c o n (bl & fr & HR & HD) Hp Ho. destruct (desc_split _ _ _ _ _ _ HR HD Hp) as (l1 & b & l2 & -> & Hu & -> & -> & Hsz).
    rewrite length_window in Ho. by apply window_read.
Qed.

(** ** The theorem *)

Inductive heap_op := HAlloc (n : Z) | HFree (p : Z) | HRealloc (p n : Z) | HStore (p : Z) (o : nat) (l : list Z).

Definition heap_step (op : heap_op) (m : mem) : option (Z * mem) :=
  match op with
  | HAlloc n => rt_memheap_alloc n m
  | HFree p => m ← rt_memheap_free p m; Some (0, m)
  | HRealloc p n => rt_memheap_realloc p n m
  | HStore p o l => Some (0, store (p + Z.of_nat o) l m)
  end.

(** Sizes up to 2^32 - 16, blocks in use, bytes inside them. *)
Definition legal (L : blocks_map) (op : heap_op) : Prop :=
  match op with
  | HAlloc n => 0 <= n <= max_request
  | HFree p => is_Some (L !! p)
  | HRealloc p n => is_Some (L !! p) /\ 0 < n <= max_request
  | HStore p o l => exists c, L !! p = Some c /\ (o + length l <= length c)%nat
  end.

(** What the map of blocks becomes; a call that finds no room returns 0. *)
Definition spec_step (op : heap_op) (L : blocks_map) (r : Z) (L' : blocks_map) : Prop :=
  match op with
  | HAlloc n => r = 0 /\ L' = L \/ r <> 0 /\ L !! r = None /\ exists c, n <= Z.of_nat (length c) /\ L' = <[r := c]> L
  | HFree p => L' = delete p L
  | HRealloc p n => r = 0 /\ L' = L \/ r <> 0 /\ delete p L !! r = None /\ exists c c', L !! p = Some c /\ n <= Z.of_nat (length c') /\
      (forall i, (i < length c)%nat -> Z.of_nat i < n -> c' !! i = c !! i) /\ L' = <[r := c']> (delete p L)
  | HStore p o l => exists c, L !! p = Some c /\ L' = <[p := list_inserts o (Some <$> l) c]> L
  end.

Lemma heap_step_refines m L op : describes m L -> legal L op ->
  exists r m' L', heap_step op m = Some (r, m') /\ spec_step op L r L' /\ describes m' L'.
Proof.
  intros HD. destruct op as [n|p|p n|p o l]; simpl.
  - intros Hn. destruct (describes_alloc m L n HD Hn) as (p & m' & -> & [[-> H]|(Hp & Hf & c & Hc & H)]).
    + exists 0, m', L. split_and!; [done|by left|done].
    + exists p, m', (<[p := c]> L). split_and!; [done|right; split_and!; [done|done|by exists c]|done].
  - intros [c Hc]. destruct (describes_free m L p c HD Hc) as (m' & -> & H). by exists 0, m', (delete p L).
  - intros [[c Hc] Hn]. destruct (describes_realloc m L p c n HD Hc Hn) as (q & m' & -> & [[-> H]|(Hq & Hf & c' & Hl & Hk & H)]).
    + exists 0, m', L. split_and!; [done|by left|done].
    + exists q, m', (<[q := c']> (delete p L)). split_and!; [done|right; split_and!; [done|done|by exists c, c']|done].
  - intros (c & Hc & Ho). exists 0, (store (p + Z.of_nat o) l m), (<[p := list_inserts o (Some <$> l) c]> L).
    split_and!; [done|by exists c|]. by apply describes_store.
Qed.

(** Blocks lie in the pool and share no byte. *)
Lemma describes_apart m L p c : describes m L -> L !! p = Some c ->
  start_addr (heap m) <= p /\ p + Z.of_nat (length c) <= start_addr (heap m) + pool_size (heap m) /\
  forall q d, L !! q = Some d -> q = p \/ q + Z.of_nat (length d) <= p \/ p + Z.of_nat (length c) <= q.
Proof.
  intros (bl & fr & HR & HD) Hp. apply HD in Hp as (b & Hb & -> & ->). apply used_of_elem in Hb as [Hb _].
  destruct (rep_in _ _ _ HR b Hb) as (R1 & R2 & R3). rewrite length_window. unfold last_header in R3. split_and!; [lia|lia|].
  intros q d Hq. apply HD in Hq as (e & He & -> & ->). apply used_of_elem in He as [He _]. rewrite length_window.
  destruct (rep_in _ _ _ HR e He) as (Q1 & Q2 & Q3).
  destruct (layout_disjoint _ _ _ e b (r_layout _ _ _ HR) He Hb) as [->|[|]]; [by left|right; left; lia|right; right; lia].
Qed.

Lemma describes_empty m : describes m ∅ -> available_size (heap m) = pool_size (heap m) - 48.
Proof.
  intros (bl & fr & HR & HD). assert (Hall : forall b, b ∈ bl -> used b = false).
  { intros b Hb. destruct (used b) eqn:Hu; [|done]. assert ((∅ : blocks_map) !! (addr b + 24) = Some (window m (addr b + 24) (bsize b))) as E; [|by rewrite lookup_empty in E].
    apply HD. exists b. split_and!; [by apply used_of_elem|done|done]. }
  pose proof (r_layout _ _ _ HR) as Hl. pose proof (r_merged _ _ _ HR) as Hm. pose proof (r_placed _ _ _ HR) as (_ & _ & Hp & _).
  rewrite (r_avail _ _ _ HR). unfold last_header in Hl. destruct bl as [|b [|c bl]]; simpl in *.
  - lia.
  - rewrite (Hall b) by set_solver. lia.
  - rewrite (Hall b), (Hall c) in Hm by set_solver. by destruct Hm.
Qed.

Lemma describes_init this start size bs : 0 <= this -> free_header this + 24 <= start -> start + size < 2 ^ 32 -> 64 <= size ->
  exists m, rt_memheap_init this start size bs = Some m /\ describes m ∅.
Proof.
  intros H1 H2 H3 H4. destruct (rt_memheap_init_spec this start size bs H1 H2 H3 H4) as (m & b & E & HR & -> & _).
  exists m. split; [done|]. eexists _, _. split; [exact HR|]. intros p c. split; [done|].
  by intros (b & Hb%not_elem_of_nil & _).
Qed.

(** C11: Memory heaps. After rt_memheap_init no block is in use; from then on no
    call on blocks in use gets stuck, and each does to the map of blocks what
    malloc, realloc and free should: a new block is as long as asked for, a
    resized one keeps its bytes, every other block keeps its own.  The blocks
    share no byte, and when all are given back the heap is as free as at first. *)
Theorem rt_memheap_refines :
  (forall this start size bs, 0 <= this -> free_header this + 24 <= start -> start + size < 2 ^ 32 -> 64 <= size ->
     exists m, rt_memheap_init this start size bs = Some m /\ describes m ∅) /\
  (forall m L op, describes m L -> legal L op ->
     exists r m' L', heap_step op m = Some (r, m') /\ spec_step op L r L' /\ describes m' L') /\
  (forall m L p c, describes m L -> L !! p = Some c ->
     start_addr (heap m) <= p /\ p + Z.of_nat (length c) <= start_addr (heap m) + pool_size (heap m) /\
     forall q d, L !! q = Some d -> q = p \/ q + Z.of_nat (length d) <= p \/ p + Z.of_nat (length c) <= q) /\
  (forall m, describes m ∅ -> available_size (heap m) = pool_size (heap m) - 48).
Proof. split_and!; [exact describes_init|exact heap_step_refines|exact describes_apart|exact describes_empty]. Qed.

Theorem rt_memheap_refines_witness :
  exists m r m' L', rt_memheap_init 1000 2000 400 (fun _ => None) = Some m /\ heap_step (HAlloc 50) m = Some (r, m') /\
    spec_step (HAlloc 50) ∅ r L' /\ describes m' L' /\ r = 2024.
Proof.
  destruct rt_memheap_refines as (Hinit & Hstep & _).
  destruct (Hinit 1000 2000 400 (fun _ => None)) as (m & E & HD); [lia|unfold free_header; lia|lia|lia|].
  destruct (Hstep m ∅ (HAlloc 50) HD) as (r & m' & L' & E' & HS & HD'); [vm_compute; split; congruence|].
  exists m, r, m', L'. split_and!; [done..|]. revert E E'. clear. intros [= <-] E'. vm_compute in E'. congruence.
Defined.

(** A request in the last bytes of the address range counts as one that fits: a
    header is written over the one of the block itself, and no call can follow. *)
Example rt_memheap_realloc_wraps :
  (m ← rt_memheap_init 1000 2000 400 (fun _ => None); '(p, m) ← rt_memheap_alloc 50 m; '(q, m) ← rt_memheap_realloc p 72 m;
   Some (p, q, available_size (heap m))) = Some (2024, 2024, 256) /\
  (m ← rt_memheap_init 1000 2000 400 (fun _ => None); '(p, m) ← rt_memheap_alloc 50 m; rt_memheap_realloc p (2 ^ 32 - 8) m) = None.
Proof. vm_compute. by split. Qed.

(** All that is free cannot be allocated, and a block of twelve bytes leaves the
    next one at an address that is no multiple of 8. *)
Example rt_memheap_exact_refused :
  (m ← rt_memheap_init 1000 2000 400 (fun _ => None); '(p, _) ← rt_memheap_alloc 352 m; '(a, m) ← rt_memheap_alloc 1 m;
   '(b, m) ← rt_memheap_alloc 8 m; Some (available_size (heap m), p, a, b)) = Some (280, 0, 2024, 2060).
Proof. vm_compute. reflexivity. Qed.
