(* ===== verification/Mempool.v ===== *)
(** * Memory pools: mempool.c

    A pool is an array of blocks of one size, each behind a word that links it
    into the free list or, once it is given away, names its pool.  The words of
    all pools are one store, [k_mp_words], by address; an access to a word no
    pool owns is undefined. *)

From S2P Require Import Prelude Kernel Sched Object Thread Ipc Msg.

Definition mp_get (i : nat) : M rt_mempool := lift (fun k => k_mps k !! i).
Definition mp_set (i : nat) (p : rt_mempool) : M unit :=
  modify (fun k => set_k_mps (<[i := p]> (k_mps k)) k).

Definition word_get (a : Z) : M mp_word := lift (fun k => k_mp_words k !! a).
Definition word_set (a : Z) (w : mp_word) : M unit :=
  modify (fun k => set_k_mp_words (<[a := w]> (k_mp_words k)) k).

(** The size of a pointer. *)
Definition sizeof_ptr : Z := 4.

(** A store into the [extent] bytes of memory at [start]. *)
Definition block_store (start extent a : Z) (w : mp_word) (words : gmap Z mp_word) : option (gmap Z mp_word) :=
  guard (start <= a /\ a + sizeof_ptr <= start + extent);; Some (<[a := w]> words).

(** The loop that links the blocks: [n] turns from [offset] on. *)
Fixpoint mp_link_blocks (n : nat) (start extent stride offset : Z) (words : gmap Z mp_word)
  : option (gmap Z mp_word) :=
  match n with
  | O => Some words
  | S n =>
      words ← block_store start extent (u32 (start + offset * stride))
                (WBlock (u32 (start + (offset + 1) * stride))) words;
      mp_link_blocks n start extent stride (offset + 1) words
  end.

(** The loop and the null link of the last block. *)
Definition mp_format (start extent stride total : Z) (words : gmap Z mp_word) : option (gmap Z mp_word) :=
  words ← mp_link_blocks (Z.to_nat total) start extent stride 0 words;
  block_store start extent (u32 (start + u32 (total - 1) * stride)) WNull words.

Definition mp_setup (mp : nat) (start extent size block_size total : Z) : M unit :=
  rt_list_init (LMp mp);;
  words ← lift (fun k => mp_format start extent (u32 (block_size + sizeof_ptr)) total (k_mp_words k));
  modify (set_k_mp_words words);;
  mp_set mp {| start_address := start; mp_size := size; block_size := block_size;
               block_list := WBlock start; block_total_count := total; block_free_count := total;
               suspend_thread_count := 0 |}.

Definition rt_mp_init (mp : nat) (name : list Z) (start size bsz : Z) : M Z :=
  rt_object_init RT_Object_Class_MemPool (inr mp) name;;
  let sz := RT_ALIGN_DOWN size RT_ALIGN_SIZE in
  let bsz := RT_ALIGN bsz RT_ALIGN_SIZE in
  mp_setup mp start size sz bsz (sz / u32 (bsz + sizeof_ptr));;
  mret RT_EOK.

(** One turn per waiter and the test that ends the loop. *)
Fixpoint mp_resume_loop (fuel : nat) (mp : nat) : M unit :=
  match fuel with
  | O => stuck
  | S fuel =>
      e ← rt_list_isempty (LMp mp);
      if (e : bool) then mret tt else
      thread ← rt_list_first (LMp mp);
      thread_mod thread (set_error (- RT_ERROR));;
      rt_thread_resume thread;;
      p ← mp_get mp;
      mp_set mp (set_suspend_thread_count (u32 (suspend_thread_count p - 1)) p);;
      mp_resume_loop fuel mp
  end.

Definition rt_mp_detach (mp : nat) : M Z :=
  k ← get;
  mp_resume_loop (S (length (lst k (LMp mp)))) mp;;
  rt_object_detach RT_Object_Class_MemPool (inr mp);;
  mret RT_EOK.

(** [mem] and [blocks] are what the allocations of the object and of the block
    memory return. *)
Definition rt_mp_create (mem : option nat) (blocks : option Z) (name : list Z) (block_count bsz : Z)
  : M (option nat) :=
  o ← rt_object_allocate RT_Object_Class_MemPool (inr <$> mem) name;
  match o, mem with
  | Some _, Some mp =>
      let bsz := RT_ALIGN bsz RT_ALIGN_SIZE in
      let size := u32 (u32 (bsz + sizeof_ptr) * block_count) in
      match blocks with
      | None => rt_object_delete RT_Object_Class_MemPool (inr mp);; mret None
      | Some start => mp_setup mp start size size bsz block_count;; mret (Some mp)
      end
  | _, _ => mret None
  end.

(** [rt_free] of the block memory: its words are gone. *)
Definition mp_release (p : rt_mempool) (words : gmap Z mp_word) : gmap Z mp_word :=
  filter (fun aw => ~ (start_address p <= aw.1 < start_address p + mp_size p)) words.

Definition rt_mp_delete (mp : nat) : M Z :=
  k ← get;
  mp_resume_loop (S (length (lst k (LMp mp)))) mp;;
  p ← mp_get mp;
  modify (fun k => set_k_mp_words (mp_release p (k_mp_words k)) k);;
  rt_object_delete RT_Object_Class_MemPool (inr mp);;
  modify (fun k => set_k_mps (delete mp (k_mps k)) k);;
  mret RT_EOK.

(** [rt_set_errno] in the context of a thread; in an interrupt it sets a global
    nothing here reads. *)
Definition rt_set_errno (e : Z) : M unit :=
  k ← get;
  match k_current k with
  | Some t => when (k_irq_nest k =? 0) (thread_mod t (set_error e))
  | None => mret tt
  end.

(** Take the first block off the free list. *)
Definition mp_pop (mp : nat) (p : rt_mempool) : M Z :=
  block_ptr ← lift (fun _ => match block_list p with WBlock a => Some a | _ => None end);
  next ← word_get block_ptr;
  mp_set mp (set_block_list next (set_block_free_count (u32 (block_free_count p - 1)) p));;
  word_set block_ptr (WPool mp);;
  mret (u32 (block_ptr + sizeof_ptr)).

(** [rt_mp_alloc] from the test of the [while] loop on; the result is the
    address of the block or null. *)
Definition mp_alloc_loop (mp : nat) (time before_sleep : Z) : M (call (option Z)) :=
  p ← mp_get mp;
  if block_free_count p =? 0 then
    if time =? 0 then rt_set_errno (- RT_ETIMEOUT);; mret (Done None) else
    thread ← self;
    thread_mod thread (set_error RT_EOK);;
    rt_thread_suspend thread;;
    rt_list_insert_head (LMp mp) thread;;
    mp_set mp (set_suspend_thread_count (u32 (suspend_thread_count p + 1)) p);;
    start ← arm_timer thread time;
    rt_schedule;;
    mret (Waits time (if time >? 0 then start else before_sleep))
  else
    block ← mp_pop mp p;
    mret (Done (Some block)).

Definition rt_mp_alloc (mp : nat) (time : Z) : M (call (option Z)) := mp_alloc_loop mp time 0.

Definition rt_mp_alloc_resumed (thread mp : nat) (time before_sleep : Z) : M (call (option Z)) :=
  th ← thread_get thread;
  if negb (error th =? RT_EOK) then mret (Done None) else
  now ← rt_tick_get;
  mp_alloc_loop mp (timeout_left time before_sleep now) before_sleep.

(** The end of [rt_mp_free]: with [waiting] threads the first of the list is
    resumed; on an empty list the head itself is taken for a thread. *)
Definition mp_wake (mp : nat) (waiting : Z) : M unit :=
  if waiting >? 0 then
    thread ← rt_list_first (LMp mp);
    thread_mod thread (set_error RT_EOK);;
    rt_thread_resume thread;;
    p ← mp_get mp;
    mp_set mp (set_suspend_thread_count (u32 (suspend_thread_count p - 1)) p);;
    rt_schedule
  else mret tt.

Definition rt_mp_free (block : Z) : M unit :=
  if block =? 0 then mret tt else
  let block_ptr := u32 (block - sizeof_ptr) in
  w ← word_get block_ptr;
  mp ← lift (fun _ => match w with WPool mp => Some mp | _ => None end);
  p ← mp_get mp;
  word_set block_ptr (block_list p);;
  mp_set mp (set_block_list (WBlock block_ptr)
              (set_block_free_count (u32 (block_free_count p + 1)) p));;
  mp_wake mp (suspend_thread_count p).
