(* ===== verification/MempoolTheorems.v ===== *)
(** * What memory pools guarantee

    The free list is a chain through the words of free blocks; the words of the
    other blocks name the pool.  [pool_ok] holds the chain as a list. *)

From S2P Require Import Prelude Kernel Sched Object Thread ThreadInv ThreadSpec Ipc.
From S2P Require Import IpcInv Msg SemTheorems Mempool Demo.

(** ** Blocks *)

Definition stride (p : rt_mempool) : Z := block_size p + sizeof_ptr.
Definition block_at (p : rt_mempool) (j : nat) : Z := start_address p + Z.of_nat j * stride p.
Definition mp_blocks (p : rt_mempool) : list Z := block_at p <$> seq 0 (Z.to_nat (block_total_count p)).

Fixpoint chain (words : gmap Z mp_word) (w : mp_word) (free : list Z) : Prop :=
  match free with
  | [] => w = WNull
  | a :: free => w = WBlock a /\ exists n, words !! a = Some n /\ chain words n free
  end.

Record pool_geometry (p : rt_mempool) : Prop := {
  pg_start : 0 <= start_address p;
  pg_block : 0 <= block_size p;
  pg_total : 0 <= block_total_count p;
  pg_end : start_address p + block_total_count p * stride p < 2 ^ 32
}.

Record pool_ok (k : kernel) (i : nat) (p : rt_mempool) (free : list Z) : Prop := {
  pk_pool : k_mps k !! i = Some p;
  pk_geometry : pool_geometry p;
  pk_chain : chain (k_mp_words k) (block_list p) free;
  pk_nodup : NoDup free;
  pk_count : block_free_count p = Z.of_nat (length free);
  pk_free : Forall (fun a => a ∈ mp_blocks p) free;
  pk_out : forall a, a ∈ mp_blocks p -> a ∉ free -> k_mp_words k !! a = Some (WPool i);
  pk_waiting : suspend_thread_count p = Z.of_nat (length (lst k (LMp i)))
}.

(** Where a block lies: behind its word, inside the pool, clear of the others. *)
Definition block_place (p : rt_mempool) (a : Z) : Prop :=
  start_address p <= a /\ a + stride p <= start_address p + block_total_count p * stride p /\
  forall b, b ∈ mp_blocks p -> b <> a -> a + stride p <= b \/ b + stride p <= a.

Lemma mp_blocks_place p a : pool_geometry p -> a ∈ mp_blocks p -> block_place p a.
Proof.
  intros [Hs Hb Ht He] Ha. apply list_elem_of_fmap in Ha as (j & -> & Hj). apply elem_of_seq in Hj.
  unfold block_place, block_at, stride, sizeof_ptr in *. split_and!; [nia|nia|].
  intros b Hbl Hne. apply list_elem_of_fmap in Hbl as (j' & -> & Hj'). apply elem_of_seq in Hj'.
  unfold block_at, stride, sizeof_ptr in *.
  destruct (Nat.lt_trichotomy j j') as [|[->|]]; [left; nia|done|right; nia].
Qed.

(** The user's address of a block and back. *)
Lemma block_address p a : pool_geometry p -> a ∈ mp_blocks p ->
  u32 (a + sizeof_ptr) = a + sizeof_ptr /\ u32 (a + sizeof_ptr - sizeof_ptr) = a /\ a + sizeof_ptr <> 0.
Proof.
  intros Hg Ha. destruct (mp_blocks_place p a Hg Ha) as (H1 & H2 & _). destruct Hg as [Hs Hb Ht He].
  unfold stride, sizeof_ptr in *. rewrite !wrap_small by lia. lia.
Qed.

Lemma NoDup_mp_blocks p : pool_geometry p -> NoDup (mp_blocks p).
Proof.
  intros [Hs Hb Ht He]. apply NoDup_fmap_2; [|apply NoDup_seq].
  intros j j' E. unfold block_at, stride, sizeof_ptr in E. nia.
Qed.

Lemma free_bound k i p free : pool_ok k i p free -> Z.of_nat (length free) <= block_total_count p.
Proof.
  intros [_ Hg _ Hn _ Hf _ _]. assert (length free <= length (mp_blocks p))%nat as H.
  { apply submseteq_length, NoDup_submseteq; [done|]. by apply Forall_forall. }
  unfold mp_blocks in H. rewrite length_fmap, length_seq in H. destruct Hg. lia.
Qed.

Lemma total_bound p : pool_geometry p -> block_total_count p < 2 ^ 32.
Proof. intros [Hs Hb Ht He]. unfold stride, sizeof_ptr in *. nia. Qed.

(** The chain does not see words of other blocks. *)
Lemma free_chain_insert words a v free : forall w, a ∉ free -> chain words w free -> chain (<[a := v]> words) w free.
Proof.
  induction free as [|b free IH]; intros w Ha; simpl; [done|].
  apply not_elem_of_cons in Ha as [Hne Ha]. intros (-> & n & Hn & Hc). split; [done|].
  exists n. rewrite lookup_insert_ne by done. auto.
Qed.

(** ** The state after an operation *)

Definition put_mp (i : nat) (p : rt_mempool) (k : kernel) : kernel := set_k_mps (<[i := p]> (k_mps k)) k.
Definition put_word (a : Z) (w : mp_word) (k : kernel) : kernel :=
  set_k_mp_words (<[a := w]> (k_mp_words k)) k.

Lemma mp_list i : wait_list (LMp i).
Proof. by split. Qed.

Lemma pool_ok_ext k k' i p free : k_mps k' = k_mps k -> k_mp_words k' = k_mp_words k ->
  lst k' (LMp i) = lst k (LMp i) -> pool_ok k i p free -> pool_ok k' i p free.
Proof. intros E1 E2 E3 []. split; rewrite ?E1, ?E2, ?E3; done. Qed.

(** ** Allocation *)

(** The pool without its first free block. *)
Definition popped (p : rt_mempool) (next : mp_word) : rt_mempool :=
  set_block_list next (set_block_free_count (u32 (block_free_count p - 1)) p).

Lemma mp_pop_ok k i p a free : pool_ok k i p (a :: free) -> exists next,
  mp_pop i p k = Some (a + sizeof_ptr, put_word a (WPool i) (put_mp i (popped p next) k)) /\
  pool_ok (put_word a (WPool i) (put_mp i (popped p next) k)) i (popped p next) free.
Proof.
  intros Hok. pose proof (free_bound _ _ _ _ Hok) as Hb. pose proof Hok as [Hp Hg Hc Hn Hfc Hf Ho Hw].
  destruct Hc as (El & n & Hn' & Hc). apply NoDup_cons in Hn as [Hna Hn].
  apply Forall_cons in Hf as [Ha Hf]. destruct (block_address p a Hg Ha) as (Ea & _).
  exists n. split.
  - unfold mp_pop. rewrite El. erewrite lift_bind by reflexivity.
    unfold word_get. erewrite lift_bind by exact Hn'. unfold mp_set, word_set.
    rewrite modify_bind, modify_bind, Ea. reflexivity.
  - simpl in Hb. pose proof (total_bound p Hg). split; try done; simpl.
    + apply lookup_insert_eq.
    + by destruct Hg.
    + by apply free_chain_insert.
    + rewrite Hfc, wrap_small by (simpl length; lia). simpl. lia.
    + intros b Hbl Hnf. destruct (decide (b = a)) as [->|Hne]; [apply lookup_insert_eq|].
      rewrite lookup_insert_ne by done. apply Ho; [done|]. by apply not_elem_of_cons.
Qed.

Lemma lst_head_set i t k k1 : (forall l, lst k1 l = lst k l) ->
  rt_list_insert_head (LMp i) t k1 = Some (tt, set_k_lists (<[LMp i := t :: lst k (LMp i)]> (k_lists k1)) k1).
Proof. intros El. unfold rt_list_insert_head. erewrite lift_bind by reflexivity. by rewrite El. Qed.

(** The running thread suspends itself in front of the waiters. *)
Lemma mp_suspend_kok i t th p' k : may_wait k t th -> exists k1 k2,
  rt_thread_suspend t k = Some (RT_EOK, k1) /\
  rt_list_insert_head (LMp i) t k1 = Some (tt, k2) /\
  suspended_on (LMp i) t th (put_mp i p' k) (put_mp i p' k2) /\
  lst (put_mp i p' k2) (LMp i) = t :: lst k (LMp i).
Proof.
  intros [Hk Hc Ht Hs Hl Hg].
  assert (in_no_list t k) as Hno by (eapply stat_no_list; [apply Hk|done|by right]).
  destruct (suspend_kok t th k) as (k1 & E1 & Hk1 & S1 & Ec1 & Eth1 & El1 & Hti); try done; [by right|].
  assert (forall l', lst k1 l' = lst k l') as El by (intros l'; rewrite El1; apply filter_not_in, Hno).
  exists k1, (set_k_lists (<[LMp i := t :: lst k (LMp i)]> (k_lists k1)) k1).
  assert (forall r, kok (set_k_lists (<[LMp i := r]> (k_lists k1)) k1) ->
    kok (put_mp i p' (set_k_lists (<[LMp i := r]> (k_lists k1)) k1))) as Hput by (intros r H; by eapply kok_ext).
  split_and!; [done|by apply lst_head_set| |].
  - split; try done.
    + apply Hput. apply (link_kok t (set_stat RT_THREAD_SUSPEND th)); try done.
      * rewrite Eth1. apply lookup_insert_eq.
      * intros l'. rewrite El. apply Hno.
      * by rewrite El.
    + destruct (ipc_same_pools _ _ S1) as [Emp _]. unfold ipc_same, ipc_part in *. simpl. congruence.
    + simpl. by rewrite Ec1.
    + intros l' Hl'. change (lst (put_mp i p' ?x) l') with (lst x l'). rewrite lst_set, decide_False by congruence.
      apply El.
  - change (lst (put_mp i p' ?x) (LMp i)) with (lst x (LMp i)). by rewrite lst_set, decide_True.
Qed.

Definition one_more_waiting (p : rt_mempool) : rt_mempool :=
  set_suspend_thread_count (u32 (suspend_thread_count p + 1)) p.

(** C38: [rt_mp_alloc] on every branch.  With a free block the caller gets the
    first one of the free list; it lies inside the pool, clear of every other
    block, and is marked as the pool's.  An empty pool refuses with
    [-RT_ETIMEOUT] for a zero timeout, and otherwise makes the caller wait, in
    front of the other waiters and with its timer armed. *)
Theorem rt_mp_alloc_correct k i p free t th time : pool_ok k i p free -> may_wait k t th ->
  Z.of_nat (length (lst k (LMp i))) < 2 ^ 32 - 1 ->
  match free with
  | a :: free' => exists next k', rt_mp_alloc i time k = Some (Done (Some (a + sizeof_ptr)), k') /\
      k' = put_word a (WPool i) (put_mp i (popped p next) k) /\ kok k' /\
      pool_ok k' i (popped p next) free' /\ block_place p a
  | [] =>
      (time = 0 -> rt_mp_alloc i time k = Some (Done None,
         if k_irq_nest k =? 0 then put_thread t (set_error (- RT_ETIMEOUT) th) k else k)) /\
      (time <> 0 -> exists d k', rt_mp_alloc i time k = Some (Waits time d, k') /\
         parked_on (LMp i) t (set_error RT_EOK th) time (t :: lst k (LMp i))
           (put_mp i (one_more_waiting p) (put_thread t (set_error RT_EOK th) k)) k' /\
         pool_ok k' i (one_more_waiting p) [] /\ (time > 0 -> d = k_tick k))
  end.
Proof.
  intros Hok Hmw Hlen. pose proof Hok as [Hp Hg Hch Hn Hfc Hf Ho Hw].
  destruct free as [|a free]; unfold rt_mp_alloc, mp_alloc_loop, mp_get; erewrite lift_bind by exact Hp; rewrite Hfc.
  - simpl. split.
    + intros ->. simpl. unfold rt_set_errno. rewrite bind_bind, get_bind, (mw_current _ _ _ Hmw).
      destruct (k_irq_nest k =? 0); simpl; [|done].
      by erewrite bind_some by (apply thread_mod_run, Hmw).
    + intros Hto. destruct (Z.eqb_spec time 0) as [|_]; [done|].
      unfold self. erewrite lift_bind by apply Hmw. erewrite bind_some by (apply thread_mod_run, Hmw).
      assert (may_wait (put_thread t (set_error RT_EOK th) k) t (set_error RT_EOK th)) as Hmw1
        by (by eapply may_wait_data).
      destruct (mp_suspend_kok i t _ (one_more_waiting p) _ Hmw1) as (k1 & k2 & E1 & E2 & Hso & Eh).
      assert (may_wait (put_mp i (one_more_waiting p) (put_thread t (set_error RT_EOK th) k)) t (set_error RT_EOK th)) as Hmw2.
      { destruct Hmw1. split; try done. by eapply kok_ext. }
      destruct (park_kok _ t _ time _ _ Hmw2 (mp_list i) Hso) as (d & k3 & k4 & E3 & E4 & W & Hd).
      erewrite bind_some by exact E1. erewrite bind_some by exact E2.
      unfold mp_set. rewrite modify_bind. erewrite bind_some by exact E3. erewrite bind_some by exact E4.
      change (lst (put_thread _ _ k) (LMp i)) with (lst k (LMp i)) in Eh.
      rewrite Eh in W. eexists _, k4. split_and!; [reflexivity|done| |].
      * destruct (ipc_same_pools _ _ (po_ipc _ _ _ _ _ _ _ W)) as [Emp Ewd].
        split; simpl in *; rewrite ?Emp, ?Ewd; try done; [apply lookup_insert_eq|by destruct Hg|].
        rewrite (po_queue _ _ _ _ _ _ _ W), Hw, wrap_small by lia. simpl length. lia.
      * intros Hpos. destruct (Z.gtb_spec time 0); [|lia]. by apply Hd.
  - destruct (Z.eqb_spec (Z.of_nat (length (a :: free))) 0) as [E|_]; [simpl in E; lia|].
    destruct (mp_pop_ok k i p a free Hok) as (next & E & Hok'). erewrite bind_some by exact E.
    eexists next, _. split_and!; [reflexivity|done|by apply (kok_ext k); [apply Hmw|done..]|done|].
    apply mp_blocks_place; [done|]. by inversion Hf.
Qed.

(** ** Giving a block back *)

Definition pushed (p : rt_mempool) (a : Z) : rt_mempool :=
  set_block_list (WBlock a) (set_block_free_count (u32 (block_free_count p + 1)) p).

Lemma pushed_ok k i p a free : pool_ok k i p free -> a ∈ mp_blocks p -> a ∉ free ->
  pool_ok (put_mp i (pushed p a) (put_word a (block_list p) k)) i (pushed p a) (a :: free).
Proof.
  intros Hok Ha Hna. pose proof Hok as [Hp Hg Hc Hn Hfc Hf Ho Hw]. pose proof (total_bound p Hg).
  assert (NoDup (a :: free)) as Hn' by (by constructor).
  assert (length (a :: free) <= length (mp_blocks p))%nat as Hlen.
  { apply submseteq_length, NoDup_submseteq; [done|]. intros b. rewrite elem_of_cons.
    intros [->|Hb]; [done|]. by eapply Forall_forall in Hf. }
  unfold mp_blocks in Hlen. rewrite length_fmap, length_seq in Hlen. destruct Hg as [Hs Hb Ht He].
  split; try done; simpl.
  - apply lookup_insert_eq.
  - split; [done|]. exists (block_list p). rewrite lookup_insert_eq. split; [done|]. by apply free_chain_insert.
  - simpl length in Hlen. rewrite Hfc, wrap_small by lia. lia.
  - by constructor.
  - intros b Hbl Hnb. apply not_elem_of_cons in Hnb as [Hne Hnb]. rewrite lookup_insert_ne by done. auto.
Qed.

Definition one_less_waiting (p : rt_mempool) : rt_mempool :=
  set_suspend_thread_count (u32 (suspend_thread_count p - 1)) p.

Lemma mp_wake_empty i n k : lst k (LMp i) = [] -> 0 < n -> mp_wake i n k = None.
Proof.
  intros El Hn. unfold mp_wake. rewrite Z.gtb_ltb. destruct (Z.ltb_spec 0 n); [|lia].
  unfold rt_list_first, mbind, M_bind, lift. by rewrite El.
Qed.

Lemma mp_wake_kok i n p t th ts c k : kok k -> k_current k = Some c -> k_mps k !! i = Some p ->
  lst k (LMp i) = t :: ts -> k_threads k !! t = Some th -> 0 < n ->
  exists k', mp_wake i n k = Some (tt, k') /\
    wakes (LMp i) t ts (put_mp i (one_less_waiting p) (put_thread t (set_error RT_EOK th) k)) k'.
Proof.
  intros Hk Hc Hp El Hth Hn. set (k2 := put_thread t (set_error RT_EOK th) k).
  assert (kok k2) as Hk2 by (by eapply kok_put_data).
  destruct (resume_waiter (LMp i) t [] ts k2 Hk2 (mp_list i) El) as (k3 & E3 & W & Ec & _).
  set (p' := one_less_waiting p).
  assert (k_mps k3 !! i = Some p) as Hp3.
  { destruct (ipc_same_pools _ _ (wk_ipc _ _ _ _ _ W)) as [-> _]. done. }
  assert (wakes (LMp i) t ts (put_mp i p' k2) (put_mp i p' k3)) as W1.
  { destruct W as [Q1 Q2 Q3 Q4 Q5 Q6 Q7]. split; try done; [by eapply kok_ext|].
    destruct (ipc_same_pools _ _ Q2) as [Emp _]. unfold ipc_same, ipc_part in *. simpl in *. congruence. }
  destruct (schedule_kok (put_mp i p' k3) c) as (k4 & E4 & Hk4 & R & _); [apply W1|by simpl; rewrite Ec|].
  exists k4. split; [|by eapply wakes_sched; [apply mp_list|..]].
  unfold mp_wake. rewrite Z.gtb_ltb. destruct (Z.ltb_spec 0 n); [|lia].
  unfold rt_list_first. erewrite lift_bind by (by rewrite El).
  erewrite bind_some by (by apply thread_mod_run). erewrite bind_some by exact E3.
  unfold mp_get. erewrite lift_bind by exact Hp3. unfold mp_set. rewrite modify_bind. exact E4.
Qed.

(** The part of [rt_mp_free] before the waking. *)
Lemma mp_free_run k i p a : k_mps k !! i = Some p -> pool_geometry p -> a ∈ mp_blocks p ->
  k_mp_words k !! a = Some (WPool i) ->
  rt_mp_free (a + sizeof_ptr) k =
  mp_wake i (suspend_thread_count p) (put_mp i (pushed p a) (put_word a (block_list p) k)).
Proof.
  intros Hp Hg Ha Hw. destruct (block_address p a Hg Ha) as (_ & Ea & Hne0).
  unfold rt_mp_free. destruct (Z.eqb_spec (a + sizeof_ptr) 0) as [|_]; [done|]. rewrite Ea.
  unfold word_get, mp_get. erewrite lift_bind by exact Hw. erewrite lift_bind by reflexivity.
  erewrite lift_bind by exact Hp. unfold word_set, mp_set. by rewrite modify_bind, modify_bind.
Qed.

(** [rt_mp_free] of a block the pool gave away puts it in front of the free
    list; when threads wait for the pool the first of them is woken without an
    error and the count of waiters goes down by one.  Other blocks keep their
    words.  A null block is ignored. *)
Theorem rt_mp_free_correct k i p free a c th : pool_ok k i p free -> kok k -> k_current k = Some c ->
  a ∈ mp_blocks p -> a ∉ free -> Z.of_nat (length (lst k (LMp i))) < 2 ^ 32 ->
  (forall t ts, lst k (LMp i) = t :: ts -> k_threads k !! t = Some th) ->
  rt_mp_free 0 k = Some (tt, k) /\
  let k1 := put_mp i (pushed p a) (put_word a (block_list p) k) in
  match lst k (LMp i) with
  | [] => rt_mp_free (a + sizeof_ptr) k = Some (tt, k1) /\ kok k1 /\ pool_ok k1 i (pushed p a) (a :: free)
  | t :: ts => exists k', rt_mp_free (a + sizeof_ptr) k = Some (tt, k') /\
      pool_ok k' i (one_less_waiting (pushed p a)) (a :: free) /\
      wakes (LMp i) t ts
        (put_mp i (one_less_waiting (pushed p a)) (put_thread t (set_error RT_EOK th) k1)) k'
  end.
Proof.
  intros Hok Hk Hc Ha Hna Hlen Hth. pose proof (pushed_ok k i p a free Hok Ha Hna) as Hok1.
  pose proof Hok as [Hp Hg _ _ _ _ Ho Hw]. split; [done|]. intros k1.
  rewrite (mp_free_run k i p a) by auto. fold k1. assert (kok k1) as Hk1 by (by eapply kok_ext).
  destruct (lst k (LMp i)) as [|t ts] eqn:El; [by rewrite Hw|].
  destruct (mp_wake_kok i (suspend_thread_count p) (pushed p a) t th ts c k1) as (k4 & E4 & W);
    [done|done|apply lookup_insert_eq|done|by apply (Hth t ts)|rewrite Hw; simpl; lia|].
  exists k4. split_and!; [done| |done].
  destruct (ipc_same_pools _ _ (wk_ipc _ _ _ _ _ W)) as [Emp Ewd]. destruct Hok1 as [_ Q2 Q3 Q4 Q5 Q6 Q7 Q8].
  split; try done; rewrite ?Emp, ?Ewd; try done; simpl.
  - apply lookup_insert_eq.
  - by destruct Q2.
  - rewrite (wk_list _ _ _ _ _ W), Hw, wrap_small by (simpl length in *; lia). simpl length. lia.
Qed.

(** ** Making a pool *)

(** The links [n] turns of the loop write from block [j] on. *)
Lemma link_blocks_spec start extent d n : forall (j : nat) words, 0 <= start -> 4 <= d ->
  (Z.of_nat j + Z.of_nat n) * d <= extent -> start + (Z.of_nat j + Z.of_nat n) * d < 2 ^ 32 ->
  exists words', mp_link_blocks n start extent d (Z.of_nat j) words = Some words' /\
    (forall m, (j <= m < j + n)%nat ->
       words' !! (start + Z.of_nat m * d) = Some (WBlock (start + Z.of_nat (S m) * d))) /\
    (forall a, (forall m, (j <= m < j + n)%nat -> a <> start + Z.of_nat m * d) -> words' !! a = words !! a).
Proof.
  induction n as [|n IH]; intros j words Hs Hd He Hw; simpl mp_link_blocks.
  { exists words. split_and!; [done|lia|done]. }
  unfold block_store, sizeof_ptr. rewrite (wrap_small 32) by nia. rewrite option_guard_True by nia.
  cbn [mbind option_bind]. rewrite wrap_small by nia.
  replace (Z.of_nat j + 1) with (Z.of_nat (S j)) by lia.
  destruct (IH (S j) (<[start + Z.of_nat j * d := WBlock (start + Z.of_nat (S j) * d)]> words))
    as (words' & E & H1 & H2); [done|done|nia|nia|].
  exists words'. split_and!; [done| |].
  - intros m Hm. destruct (decide (m = j)) as [->|]; [|apply H1; lia].
    rewrite H2; [apply lookup_insert_eq|]. intros m' Hm'. nia.
  - intros a Ha. rewrite H2 by (intros; apply Ha; lia). rewrite lookup_insert_ne; [done|].
    apply not_eq_sym, Ha. lia.
Qed.

Lemma format_spec start extent d (n : nat) words : 0 <= start -> 4 <= d -> (0 < n)%nat ->
  Z.of_nat n * d <= extent -> start + Z.of_nat n * d < 2 ^ 32 ->
  exists words', mp_format start extent d (Z.of_nat n) words = Some words' /\
    (forall m, (S m < n)%nat -> words' !! (start + Z.of_nat m * d) = Some (WBlock (start + Z.of_nat (S m) * d))) /\
    words' !! (start + Z.of_nat (n - 1) * d) = Some WNull.
Proof.
  intros Hs Hd Hn He Hw. unfold mp_format. rewrite Nat2Z.id.
  destruct (link_blocks_spec start extent d n 0 words) as (words' & E & H1 & _); [lia..|].
  change (Z.of_nat 0) with 0 in E. rewrite E. cbn [mbind option_bind].
  rewrite (wrap_small 32 (Z.of_nat n - 1)) by nia. unfold block_store, sizeof_ptr.
  rewrite wrap_small by nia. rewrite option_guard_True by nia. simpl. eexists. split; [reflexivity|].
  replace (Z.of_nat n - 1) with (Z.of_nat (n - 1)) by lia. split.
  - intros m Hm. rewrite lookup_insert_ne by nia. apply H1. lia.
  - apply lookup_insert_eq.
Qed.

Lemma format_chain start d words : forall (n j : nat),
  (forall m, (j <= m /\ S m < j + n)%nat -> words !! (start + Z.of_nat m * d) = Some (WBlock (start + Z.of_nat (S m) * d))) ->
  ((0 < n)%nat -> words !! (start + Z.of_nat (j + n - 1) * d) = Some WNull) ->
  (0 < n)%nat -> chain words (WBlock (start + Z.of_nat j * d)) ((fun m => start + Z.of_nat m * d) <$> seq j n).
Proof.
  induction n as [|n IH]; intros j H1 H2 Hn; [lia|]. simpl. split; [done|].
  destruct n as [|n].
  - exists WNull. split; [|done]. replace j with (j + 1 - 1)%nat at 1 by lia. auto.
  - exists (WBlock (start + Z.of_nat (S j) * d)). split; [apply H1; lia|].
    apply IH; [intros m Hm; apply H1; lia|intros _; rewrite <- H2 by lia; do 3 f_equal; lia|lia].
Qed.

(** A list that is empty stays so. *)
Lemma kok_list_init l k : kok k -> lst k l = [] -> kok (set_k_lists (<[l := []]> (k_lists k)) k).
Proof.
  intros [K T] El. split; [|by eapply tinv_ext].
  assert (forall l', lst (set_k_lists (<[l := []]> (k_lists k)) k) l' = lst k l') as El'.
  { intros l'. rewrite lst_set. case_decide; by subst. }
  destruct K. split; intros *; rewrite ?El'; simpl; eauto.
Qed.

Definition fresh_pool (start size bsz total : Z) : rt_mempool :=
  {| start_address := start; mp_size := size; block_size := bsz; block_list := WBlock start;
     block_total_count := total; block_free_count := total; suspend_thread_count := 0 |}.

Lemma mp_setup_ok mp start extent size bsz total k : kok k -> lst k (LMp mp) = [] ->
  0 <= start -> 0 <= bsz -> 0 < total -> total * (bsz + sizeof_ptr) <= extent ->
  start + total * (bsz + sizeof_ptr) < 2 ^ 32 ->
  let p := fresh_pool start size bsz total in
  exists k', mp_setup mp start extent size bsz total k = Some (tt, k') /\ kok k' /\
    pool_ok k' mp p (mp_blocks p).
Proof.
  intros Hk El Hs Hb Ht He Hw p. unfold sizeof_ptr in *.
  destruct (format_spec start extent (bsz + 4) (Z.to_nat total) (k_mp_words k)) as (words & E & H1 & H2); [lia..|].
  rewrite Z2Nat.id in E by lia.
  set (k1 := set_k_lists (<[LMp mp := []]> (k_lists k)) k).
  assert (kok k1) as Hk1 by (by apply kok_list_init).
  exists (put_mp mp p (set_k_mp_words words k1)). split_and!.
  - unfold mp_setup, sizeof_ptr. unfold rt_list_init. rewrite modify_bind.
    rewrite (wrap_small 32 (bsz + 4)) by nia. erewrite lift_bind by exact E.
    unfold mp_set. by rewrite modify_bind.
  - by apply (kok_ext k1).
  - assert (pool_geometry p) as Hg by (split; unfold stride, p, fresh_pool, sizeof_ptr; simpl; lia).
    split; try done; simpl.
    + apply lookup_insert_eq.
    + unfold mp_blocks, block_at, stride, sizeof_ptr; simpl.
      replace start with (start + Z.of_nat 0 * (bsz + 4)) at 1 by lia.
      apply format_chain; [intros m Hm; apply H1; lia|intros _; exact H2|lia].
    + by apply NoDup_mp_blocks.
    + unfold mp_blocks. rewrite length_fmap, length_seq. simpl. lia.
    + by apply Forall_forall.
    + unfold lst. simpl. by rewrite lookup_insert_eq.
Qed.

(** Too little memory for one block: the null link of the last block goes in
    front of the memory. *)
Lemma mp_setup_small mp start extent size bsz k : 0 <= bsz -> bsz + sizeof_ptr <= start -> start < 2 ^ 32 ->
  mp_setup mp start extent size bsz 0 k = None.
Proof.
  intros Hb Hs Hw. unfold mp_setup, rt_list_init. rewrite modify_bind.
  unfold mbind, M_bind, lift. unfold mp_format. cbn [mp_link_blocks Z.to_nat mbind option_bind].
  unfold block_store, sizeof_ptr in *. rewrite (wrap_small 32 (bsz + 4)) by lia.
  replace (u32 (start + u32 (0 - 1) * (bsz + 4))) with (start - (bsz + 4)); [rewrite option_guard_False by lia; done|].
  unfold wrap. apply (Z.mod_unique_pos _ _ (bsz + 4)); [lia|].
  replace ((0 - 1) mod 2 ^ 32) with (2 ^ 32 - 1) by reflexivity. lia.
Qed.

(** [rt_mp_init] makes a pool of as many blocks as the memory has room for,
    all of them free and linked from the first to the last, the sizes rounded to
    eight bytes.  Memory that has no room for one block is written in front of
    its start: undefined. *)
Theorem rt_mp_init_correct mp name start size bsz k k1 :
  rt_object_init RT_Object_Class_MemPool (inr mp) name k = Some (tt, k1) ->
  kok k1 -> lst k1 (LMp mp) = [] -> 0 < bsz <= 2 ^ 32 - 8 -> 0 <= size -> start + size < 2 ^ 32 ->
  (bsz + 7) / 8 * 8 + sizeof_ptr <= start ->
  let b := (bsz + 7) / 8 * 8 in
  let total := size / 8 * 8 / (b + sizeof_ptr) in
  let p := fresh_pool start (size / 8 * 8) b total in
  (size / 8 * 8 < b + sizeof_ptr -> rt_mp_init mp name start size bsz k = None) /\
  (b + sizeof_ptr <= size / 8 * 8 -> exists k', rt_mp_init mp name start size bsz k = Some (RT_EOK, k') /\
     kok k' /\ pool_ok k' mp p (mp_blocks p) /\ 0 < block_total_count p /\
     block_total_count p * (b + sizeof_ptr) <= size).
Proof.
  intros E Hk El Hb Hs Hw Hst b total p. unfold sizeof_ptr in *.
  assert (size / 8 * 8 <= size) by (pose proof (Z.mul_div_le size 8); lia).
  assert (0 <= size / 8 * 8) by (pose proof (Z.div_pos size 8); lia).
  assert (0 < b) by (pose proof (Z.div_str_pos (bsz + 7) 8); unfold b; lia).
  unfold rt_mp_init. erewrite bind_some by exact E.
  rewrite RT_ALIGN_spec, RT_ALIGN_DOWN_spec by lia. fold b.
  assert (b <= 2 ^ 32 - 8) as Hb32 by (unfold b; pose proof (Z.div_le_mono (bsz + 7) (2 ^ 32 - 1) 8); lia).
  unfold sizeof_ptr. rewrite (wrap_small 32 (b + 4)) by lia. fold total. split.
  - intros Hlt. assert (total = 0) as -> by (apply Z.div_small; lia).
    unfold mbind at 1, M_bind at 1. rewrite mp_setup_small; [done|lia|unfold sizeof_ptr; lia|lia].
  - intros Hle. assert (0 < total) by (apply Z.div_str_pos; lia).
    assert (total * (b + 4) <= size) by (pose proof (Z.mul_div_le (size / 8 * 8) (b + 4)); unfold total; lia).
    destruct (mp_setup_ok mp start size (size / 8 * 8) b total k1) as (k' & E' & Hk' & Hok);
      [done|done|lia|lia|done|unfold sizeof_ptr; lia|unfold sizeof_ptr; lia|].
    exists k'. erewrite bind_some by exact E'. by split_and!.
Qed.

(** ** A waiter that times out *)

(** Nothing takes a thread whose wait has timed out off the count, so the next
    [rt_mp_free] looks for a waiter on an empty list. *)
Lemma rt_mp_free_stale k i p a : k_mps k !! i = Some p -> pool_geometry p -> a ∈ mp_blocks p ->
  k_mp_words k !! a = Some (WPool i) -> lst k (LMp i) = [] -> 0 < suspend_thread_count p ->
  rt_mp_free (a + sizeof_ptr) k = None.
Proof. intros. rewrite (mp_free_run k i p a) by done. by apply mp_wake_empty. Qed.

(** ** Instances *)

(** Three blocks of eight bytes. *)
Definition pool0 : rt_mempool := fresh_pool 0x1000 40 8 3.
Definition demo_pool : kernel := default demo (snd <$> mp_setup 0 0x1000 40 40 8 3 demo).

Lemma demo_pool_ok : kok demo_pool /\ pool_ok demo_pool 0 pool0 [0x1000; 0x100c; 0x1018].
Proof.
  destruct (mp_setup_ok 0 0x1000 40 40 8 3 demo demo_kok) as (k' & E & H); [done|done|done|done|done|done|].
  assert (demo_pool = k') as -> by (unfold demo_pool; by rewrite E). exact H.
Qed.

Lemma demo_pool_wait : may_wait demo_pool 0 demo_main.
Proof. split; [apply demo_pool_ok|vm_compute; reflexivity..|vm_compute; discriminate]. Qed.

Lemma rt_mp_alloc_correct_witness : exists next k',
  rt_mp_alloc 0 5 demo_pool = Some (Done (Some (0x1000 + sizeof_ptr)), k') /\
  k' = put_word 0x1000 (WPool 0) (put_mp 0 (popped pool0 next) demo_pool) /\ kok k' /\
  pool_ok k' 0 (popped pool0 next) [0x100c; 0x1018] /\ block_place pool0 0x1000.
Proof.
  apply (rt_mp_alloc_correct demo_pool 0 pool0 _ 0 demo_main 5 (proj2 demo_pool_ok) demo_pool_wait).
  vm_compute. reflexivity.
Defined.

(** One block out. *)
Definition demo_taken : kernel := default demo (snd <$> rt_mp_alloc 0 0 demo_pool).

Lemma demo_taken_ok : kok demo_taken /\ exists p, pool_ok demo_taken 0 p [0x100c; 0x1018] /\
  0x1000 ∈ mp_blocks p.
Proof.
  destruct (mp_pop_ok demo_pool 0 pool0 0x1000 [0x100c; 0x1018] (proj2 demo_pool_ok)) as (next & E & Hok).
  assert (demo_taken = put_word 0x1000 (WPool 0) (put_mp 0 (popped pool0 next) demo_pool)) as ->.
  { unfold demo_taken, rt_mp_alloc, mp_alloc_loop, mp_get.
    erewrite lift_bind by apply (pk_pool _ _ _ _ (proj2 demo_pool_ok)). simpl.
    by erewrite bind_some by exact E. }
  split; [by apply (kok_ext demo_pool); [apply demo_pool_ok|..]|].
  eexists. split; [exact Hok|]. apply list_elem_of_here.
Qed.

Lemma rt_mp_free_correct_witness : rt_mp_free 0 demo_taken = Some (tt, demo_taken) /\
  exists k', rt_mp_free (0x1000 + sizeof_ptr) demo_taken = Some (tt, k').
Proof.
  destruct demo_taken_ok as (Hk & p & Hok & Ha).
  destruct (rt_mp_free_correct demo_taken 0 p [0x100c; 0x1018] 0x1000 0 demo_main Hok Hk) as (E0 & H).
  - vm_compute. reflexivity.
  - exact Ha.
  - rewrite !not_elem_of_cons. split_and!; [done|done|apply not_elem_of_nil].
  - vm_compute. reflexivity.
  - vm_compute. discriminate.
  - split; [exact E0|]. change (lst demo_taken (LMp 0)) with (@nil nat) in H. destruct H as (E & _). eexists. exact E.
Defined.

(** With the scheduler locked, so that naming the object does not yield. *)
Definition demo_locked : kernel := set_k_lock_nest 1 demo.
Definition demo_named : kernel :=
  default demo (snd <$> rt_object_init RT_Object_Class_MemPool (inr 0%nat) [109; 112] demo_locked).

Lemma rt_mp_init_correct_witness :
  exists k', rt_mp_init 0 [109; 112] 0x1000 40 5 demo_locked = Some (RT_EOK, k') /\ kok k' /\
    pool_ok k' 0 pool0 (mp_blocks pool0) /\ 0 < 3 /\ 3 * (8 + sizeof_ptr) <= 40.
Proof.
  refine (proj2 (rt_mp_init_correct 0 [109; 112] 0x1000 40 5 demo_locked demo_named _ _ _ _ _ _ _) _).
  - vm_compute. reflexivity.
  - apply (kok_ext demo); [apply demo_kok|vm_compute; reflexivity..].
  - vm_compute. reflexivity.
  - done.
  - done.
  - done.
  - vm_compute. discriminate.
  - vm_compute. discriminate.
Defined.

(** One block, taken; a second request times out after five ticks; giving the
    block back is then undefined. *)
Definition tick : M unit := rt_tick_increase (fun _ => mret tt) 8.
Definition timeout_run : M (option Z) :=
  rt_mp_alloc 0 0;;
  rt_mp_alloc 0 5;;
  tick;; tick;; tick;; tick;; tick;;
  r ← rt_mp_alloc_resumed 0 0 5 0;
  mret (match r with Done b => b | Waits _ _ => Some 0 end).

Definition demo_single : kernel := default demo (snd <$> mp_setup 0 0x1000 12 12 8 1 demo).

Example rt_mp_timeout_breaks_free :
  ('(r, k) ← timeout_run demo_single;
  p ← k_mps k !! 0%nat;
  Some (r, suspend_thread_count p, lst k (LMp 0), match rt_mp_free 0x1004 k with None => true | Some _ => false end))
  = Some (None, 1, [], true).
Proof. vm_compute. reflexivity. Qed.
