(* ===== verification/Mem.v ===== *)
(** * The heap: mem.c

    The heap is one array of bytes cut into blocks; a 16-byte header in front of
    each block holds its magic number, its used flag and the offsets of the next
    and the previous header.  [headers] is the memory read as headers, by
    offset; [bytes] the contents of the blocks.  Every entry point holds the
    semaphore [heap_sem] from its first access to its last, so the model has
    each as one step.  [None] is an access to memory that holds no header. *)

From S2P Require Import Prelude.

(** ** Data *)

Definition HEAP_MAGIC : Z := 0x1ea0.
Definition MIN_SIZE : Z := 12.
Definition MIN_SIZE_ALIGNED : Z := RT_ALIGN MIN_SIZE RT_ALIGN_SIZE.
(** [sizeof(struct heap_mem)] is two 16-bit and two 32-bit fields. *)
Definition SIZEOF_STRUCT_MEM : Z := RT_ALIGN 12 RT_ALIGN_SIZE.

Record heap_mem := { magic : Z; used : Z; next : Z; prev : Z }.

Definition set_used (u : Z) (m : heap_mem) : heap_mem :=
  {| magic := HEAP_MAGIC; used := u; next := next m; prev := prev m |}.
Definition set_next (n : Z) (m : heap_mem) : heap_mem :=
  {| magic := magic m; used := used m; next := n; prev := prev m |}.
Definition set_prev (p : Z) (m : heap_mem) : heap_mem :=
  {| magic := magic m; used := used m; next := next m; prev := p |}.

(** The file's static variables.  Pointers into the heap are offsets from
    [heap_ptr]; [max_mem] and [used_mem] are statistics. *)
Record heap := {
  heap_ptr : Z;
  mem_size_aligned : Z;
  headers : gmap Z heap_mem;
  bytes : Z -> Z;
  lfree : Z;
  used_mem : Z;
  max_mem : Z
}.

Definition heap_end (h : heap) : Z := u32 (mem_size_aligned h + SIZEOF_STRUCT_MEM).

Definition set_headers (m : gmap Z heap_mem) (h : heap) : heap :=
  {| heap_ptr := heap_ptr h; mem_size_aligned := mem_size_aligned h; headers := m;
     bytes := bytes h; lfree := lfree h; used_mem := used_mem h; max_mem := max_mem h |}.
Definition set_bytes (b : Z -> Z) (h : heap) : heap :=
  {| heap_ptr := heap_ptr h; mem_size_aligned := mem_size_aligned h; headers := headers h;
     bytes := b; lfree := lfree h; used_mem := used_mem h; max_mem := max_mem h |}.
Definition set_lfree (p : Z) (h : heap) : heap :=
  {| heap_ptr := heap_ptr h; mem_size_aligned := mem_size_aligned h; headers := headers h;
     bytes := bytes h; lfree := p; used_mem := used_mem h; max_mem := max_mem h |}.

(** [used_mem] changes; [max_mem] follows when it grows. *)
Definition account (n : Z) (h : heap) : heap :=
  let u := u32 (used_mem h + n) in
  {| heap_ptr := heap_ptr h; mem_size_aligned := mem_size_aligned h; headers := headers h;
     bytes := bytes h; lfree := lfree h; used_mem := u;
     max_mem := if max_mem h <? u then u else max_mem h |}.
Definition unaccount (n : Z) (h : heap) : heap :=
  {| heap_ptr := heap_ptr h; mem_size_aligned := mem_size_aligned h; headers := headers h;
     bytes := bytes h; lfree := lfree h; used_mem := u32 (used_mem h - n);
     max_mem := max_mem h |}.

(** Writing a whole header, and one field of an existing header. *)
Definition write (p : Z) (m : heap_mem) (h : heap) : heap :=
  set_headers (<[p := m]> (headers h)) h.
Definition update (p : Z) (f : heap_mem -> heap_mem) (h : heap) : option heap :=
  m ← headers h !! p; Some (write p (f m) h).

(** ** Operations *)

(** The initialisation fails, with the statics as they were, when the memory
    cannot hold two headers. *)
Definition rt_system_heap_init (begin_addr end_addr : Z) (garbage : gmap Z heap_mem)
  (contents : Z -> Z) : option heap :=
  let begin_align := RT_ALIGN begin_addr RT_ALIGN_SIZE in
  let end_align := RT_ALIGN_DOWN end_addr RT_ALIGN_SIZE in
  if (end_align >? 2 * SIZEOF_STRUCT_MEM)
     && (u32 (end_align - 2 * SIZEOF_STRUCT_MEM) >=? begin_align) then
    let msa := u32 (end_align - begin_align - 2 * SIZEOF_STRUCT_MEM) in
    let e := u32 (msa + SIZEOF_STRUCT_MEM) in
    Some {| heap_ptr := begin_align; mem_size_aligned := msa;
            headers :=
              <[e := {| magic := HEAP_MAGIC; used := 1; next := e; prev := e |}]>
              (<[0 := {| magic := HEAP_MAGIC; used := 0; next := e; prev := 0 |}]> garbage);
            bytes := contents; lfree := 0; used_mem := 0; max_mem := 0 |}
  else None.

(** Join a free block with the free block behind it, then with the one before. *)
Definition plug_next (mem : Z) (h : heap) : option heap :=
  m ← headers h !! mem;
  nmem ← headers h !! next m;
  if negb (mem =? next m) && (used nmem =? 0) && negb (next m =? heap_end h) then
    let h := if lfree h =? next m then set_lfree mem h else h in
    h ← update mem (set_next (next nmem)) h;
    update (next nmem) (set_prev mem) h
  else Some h.

Definition plug_prev (mem : Z) (h : heap) : option heap :=
  m ← headers h !! mem;
  pmem ← headers h !! prev m;
  if negb (prev m =? mem) && (used pmem =? 0) then
    let h := if lfree h =? mem then set_lfree (prev m) h else h in
    h ← update (prev m) (set_next (next m)) h;
    update (next m) (set_prev (prev m)) h
  else Some h.

Definition plug_holes (mem : Z) (h : heap) : option heap :=
  h ← plug_next mem h; plug_prev mem h.

(** The search for a free block that is large enough. *)
Fixpoint malloc_scan (fuel : nat) (h : heap) (ptr size : Z) : option (option Z) :=
  match fuel with
  | O => None
  | S fuel =>
      if ptr <? u32 (mem_size_aligned h - size) then
        mem ← headers h !! ptr;
        if (used mem =? 0) && (u32 (next mem - u32 (ptr + SIZEOF_STRUCT_MEM)) >=? size)
        then Some (Some ptr)
        else malloc_scan fuel h (next mem) size
      else Some None
  end.

(** Cut the block at [ptr] in two at [ptr2], both in [rt_malloc] and in
    [rt_realloc]; [f] is what happens to the first part's used flag. *)
Definition split_block (f : heap_mem -> heap_mem) (ptr ptr2 : Z) (h : heap) : option heap :=
  mem ← headers h !! ptr;
  let h := write ptr2 {| magic := HEAP_MAGIC; used := 0; next := next mem; prev := ptr |} h in
  h ← update ptr (fun m => f (set_next ptr2 m)) h;
  if negb (next mem =? heap_end h) then update (next mem) (set_prev ptr2) h else Some h.

(** Take the block at [ptr], splitting it when the rest can hold a block. *)
Definition malloc_take (h : heap) (ptr size : Z) : option heap :=
  mem ← headers h !! ptr;
  if u32 (next mem - u32 (ptr + SIZEOF_STRUCT_MEM))
       >=? u32 (size + SIZEOF_STRUCT_MEM + MIN_SIZE_ALIGNED) then
    h ← split_block (set_used 1) ptr (u32 (ptr + SIZEOF_STRUCT_MEM + size)) h;
    Some (account (size + SIZEOF_STRUCT_MEM) h)
  else
    h ← update ptr (set_used 1) h;
    Some (account (next mem - ptr) h).

(** [while (lfree->used && lfree != heap_end)]. *)
Fixpoint lfree_skip (fuel : nat) (h : heap) (p : Z) : option Z :=
  match fuel with
  | O => None
  | S fuel =>
      mem ← headers h !! p;
      if negb (used mem =? 0) && negb (p =? heap_end h)
      then lfree_skip fuel h (next mem) else Some p
  end.

(** A block takes at least its header: one turn for each, one for the test that
    ends the loop and one to spare. *)
Definition heap_fuel (h : heap) : nat :=
  S (S (Z.to_nat (mem_size_aligned h / SIZEOF_STRUCT_MEM))).

Definition rt_malloc (h : heap) (size : Z) : option (Z * heap) :=
  if size =? 0 then Some (0, h) else
  let size := RT_ALIGN size RT_ALIGN_SIZE in
  if size >? mem_size_aligned h then Some (0, h) else
  let size := if size <? MIN_SIZE_ALIGNED then MIN_SIZE_ALIGNED else size in
  found ← malloc_scan (heap_fuel h) h (lfree h) size;
  match found with
  | None => Some (0, h)
  | Some ptr =>
      h ← malloc_take h ptr size;
      h ← (if ptr =? lfree h then p ← lfree_skip (heap_fuel h) h ptr; Some (set_lfree p h)
           else Some h);
      Some (u32 (heap_ptr h + ptr + SIZEOF_STRUCT_MEM), h)
  end.

(** Is the pointer outside the heap? *)
Definition outside (h : heap) (rmem : Z) : bool :=
  (rmem <? heap_ptr h) || (rmem >=? u32 (heap_ptr h + heap_end h)).

(** The report on a block that is not in use or has lost its magic number has
    no effect on the heap: the assertions are compiled out. *)
Definition rt_free (h : heap) (rmem : Z) : option heap :=
  if rmem =? 0 then Some h else
  if outside h rmem then Some h else
  let mem := rmem - heap_ptr h - SIZEOF_STRUCT_MEM in
  h ← update mem (set_used 0) h;
  let h := if mem <? lfree h then set_lfree mem h else h in
  m ← headers h !! mem;
  plug_holes mem (unaccount (next m - mem) h).

(** [rt_memcpy] and [rt_memset] between blocks, by offset. *)
Definition heap_copy (dst src n : Z) (h : heap) : heap :=
  set_bytes (fun a => if (dst <=? a) && (a <? dst + n) then bytes h (src + (a - dst))
                      else bytes h a) h.
Definition heap_set (dst n : Z) (c : Z) (h : heap) : heap :=
  set_bytes (fun a => if (dst <=? a) && (a <? dst + n) then c else bytes h a) h.

Definition rt_realloc (h : heap) (rmem newsize : Z) : option (Z * heap) :=
  let newsize := RT_ALIGN newsize RT_ALIGN_SIZE in
  if newsize >? mem_size_aligned h then Some (0, h)
  else if newsize =? 0 then h ← rt_free h rmem; Some (0, h)
  else if rmem =? 0 then rt_malloc h newsize
  else if outside h rmem then Some (rmem, h)
  else
    let ptr := rmem - heap_ptr h - SIZEOF_STRUCT_MEM in
    mem ← headers h !! ptr;
    let size := u32 (next mem - ptr - SIZEOF_STRUCT_MEM) in
    if size =? newsize then Some (rmem, h)
    else if u32 (newsize + SIZEOF_STRUCT_MEM + MIN_SIZE) <? size then
      let h := unaccount (size - newsize) h in
      let ptr2 := u32 (ptr + SIZEOF_STRUCT_MEM + newsize) in
      h ← split_block id ptr ptr2 h;
      h ← plug_holes ptr2 h;
      Some (rmem, h)
    else
      '(nmem, h) ← rt_malloc h newsize;
      if nmem =? 0 then Some (nmem, h) else
      let n := if size <? newsize then size else newsize in
      h ← rt_free (heap_copy (nmem - heap_ptr h) (rmem - heap_ptr h) n h) rmem;
      Some (nmem, h).

Definition rt_calloc (h : heap) (count size : Z) : option (Z * heap) :=
  '(p, h) ← rt_malloc h (u32 (count * size));
  if p =? 0 then Some (p, h)
  else Some (p, heap_set (p - heap_ptr h) (u32 (count * size)) 0 h).

Definition rt_memory_info (h : heap) : Z * Z * Z :=
  (mem_size_aligned h, used_mem h, max_mem h).

(** ** What the headers say: a sequence of blocks

    A block is its size, without the header, and whether it is in use. *)

Abbreviation block := (Z * bool)%type.

Definition hdr (o p : Z) (b : block) : heap_mem :=
  {| magic := HEAP_MAGIC; used := if b.2 then 1 else 0; next := o + 16 + b.1; prev := p |}.

(** The headers of [l] lie from offset [o] on; [p] is the header before. *)
Fixpoint seg (m : gmap Z heap_mem) (o p : Z) (l : list block) : Prop :=
  match l with
  | [] => True
  | b :: l => m !! o = Some (hdr o p b) /\ seg m (o + 16 + b.1) o l
  end.

(** Bytes taken by a sequence of blocks, headers included. *)
Fixpoint span (l : list block) : Z :=
  match l with [] => 0 | b :: l => 16 + b.1 + span l end.

(** The header of the last block of [l]. *)
Fixpoint last_header (o p : Z) (l : list block) : Z :=
  match l with [] => p | b :: l => last_header (o + 16 + b.1) o l end.

Definition size_ok (b : block) : Prop := 0 < b.1 /\ b.1 mod 8 = 0.

Lemma span_app l1 l2 : span (l1 ++ l2) = span l1 + span l2.
Proof. induction l1 as [|b l1 IH]; simpl; lia. Qed.

Lemma span_nonneg l : Forall size_ok l -> 0 <= span l.
Proof. induction 1 as [|b l [? ?] ? IH]; simpl; lia. Qed.

Lemma span_mod l : Forall size_ok l -> span l mod 8 = 0.
Proof. induction 1 as [|b l [? ?] ? IH]; simpl; zdiv. Qed.

Lemma last_header_app o p l1 l2 :
  last_header o p (l1 ++ l2) = last_header (o + span l1) (last_header o p l1) l2.
Proof.
  revert o p; induction l1 as [|b l1 IH]; intros o p; simpl; [f_equal; lia|].
  rewrite IH. f_equal; lia.
Qed.

Lemma last_header_bounds o p l : Forall size_ok l -> l <> [] ->
  o <= last_header o p l <= o + span l - 16.
Proof.
  intros Hl. revert o p. induction Hl as [|b l [? ?] Hl IH]; intros o p Hne; [done|]. simpl.
  destruct l as [|b' l]; [simpl; lia|]. specialize (IH (o + 16 + b.1) o ltac:(done)).
  remember (b' :: l) as l'. simpl in *. lia.
Qed.

Lemma seg_app m o p l1 l2 :
  seg m o p (l1 ++ l2) <-> seg m o p l1 /\ seg m (o + span l1) (last_header o p l1) l2.
Proof.
  revert o p. induction l1 as [|b l1 IH]; intros o p; simpl.
  { replace (o + 0) with o by lia. tauto. }
  rewrite IH. replace (o + 16 + b.1 + span l1) with (o + (16 + b.1 + span l1)) by lia. tauto.
Qed.

Lemma seg_frame m m' o p l : Forall size_ok l ->
  (forall k, o <= k < o + span l -> m' !! k = m !! k) -> seg m o p l -> seg m' o p l.
Proof.
  intros Hl. revert o p. induction Hl as [|b l [? ?] Hl IH]; intros o p Hf; [done|].
  pose proof (span_nonneg l Hl). simpl in *. intros [Hm Hs]. split.
  - by rewrite Hf by lia.
  - apply IH; [|done]. intros k Hk. apply Hf. lia.
Qed.

(** Replace the middle of a sequence: the headers before are left alone, and of
    those after only the first one's [prev] changes. *)
Lemma seg_replace m m' o p l1 mid mid' l2 :
  Forall size_ok (l1 ++ mid ++ l2) -> span mid' = span mid ->
  let q := o + span l1 in
  (forall k, o <= k < q -> m' !! k = m !! k) ->
  (forall k, q + span mid < k < q + span mid + span l2 -> m' !! k = m !! k) ->
  seg m o p (l1 ++ mid ++ l2) ->
  seg m' q (last_header o p l1) mid' ->
  (forall b l, l2 = b :: l ->
    m' !! (q + span mid) = Some (hdr (q + span mid) (last_header q (last_header o p l1) mid') b)) ->
  seg m' o p (l1 ++ mid' ++ l2).
Proof.
  intros Hsz Hspan q Hlow Hhigh Hseg Hmid Hfirst.
  apply Forall_app in Hsz as [Hs1 Hs]. apply Forall_app in Hs as [Hsm Hs2].
  pose proof (span_nonneg mid Hsm).
  rewrite !seg_app in Hseg. destruct Hseg as (H1 & H2 & H3).
  rewrite !seg_app. fold q in H2, H3 |- *. rewrite Hspan. split_and!; [|done|].
  - by apply (seg_frame m).
  - destruct l2 as [|b l2]; [done|]. simpl in *. destruct H3 as [_ H3].
    inversion Hs2 as [|? ? [? ?] Hs2']; subst. split; [by apply (Hfirst b l2)|].
    apply (seg_frame m); [done| |done]. intros k Hk. apply Hhigh. lia.
Qed.

(** The memory of [h] holds the sequence [l] of blocks. *)
Record heap_at (h : heap) (l : list block) : Prop := {
  ha_base : 0 < heap_ptr h /\ heap_ptr h mod 8 = 0 /\ heap_ptr h + mem_size_aligned h + 32 <= 2 ^ 32;
  ha_msa : 0 <= mem_size_aligned h /\ mem_size_aligned h mod 8 = 0;
  ha_seg : seg (headers h) 0 0 l;
  ha_span : span l = mem_size_aligned h + 16;
  ha_sizes : Forall size_ok l;
  ha_end : exists hm, headers h !! (mem_size_aligned h + 16) = Some hm /\ used hm = 1
}.

Lemma SIZEOF_STRUCT_MEM_eq : SIZEOF_STRUCT_MEM = 16.
Proof. reflexivity. Qed.
Lemma MIN_SIZE_ALIGNED_eq : MIN_SIZE_ALIGNED = 16.
Proof. reflexivity. Qed.

Lemma heap_end_eq h l : heap_at h l -> heap_end h = mem_size_aligned h + 16.
Proof.
  intros [(?&?&?) [? ?] _ _ _ _]. unfold heap_end. rewrite SIZEOF_STRUCT_MEM_eq. by unwrap.
Qed.

(** The bounds of the block in the middle of a heap. *)
Lemma mid_bounds h l1 b l2 : heap_at h (l1 ++ b :: l2) ->
  0 <= span l1 /\ span l1 mod 8 = 0 /\ 0 < b.1 /\ b.1 mod 8 = 0 /\ 0 <= span l2 /\
  span l1 + 16 + b.1 + span l2 = mem_size_aligned h + 16 /\ mem_size_aligned h + 32 < 2 ^ 32.
Proof.
  intros [(?&?&?) [? ?] _ Hsp Hsz _]. apply Forall_app in Hsz as [Hs1 Hsz].
  apply Forall_cons in Hsz as [[? ?] Hs2].
  rewrite span_app in Hsp. simpl in Hsp.
  pose proof (span_nonneg l1 Hs1). pose proof (span_nonneg l2 Hs2). pose proof (span_mod l1 Hs1).
  split_and!; lia.
Qed.

Lemma mid_header h l1 b l2 : heap_at h (l1 ++ b :: l2) ->
  headers h !! span l1 = Some (hdr (span l1) (last_header 0 0 l1) b).
Proof. intros H. pose proof (ha_seg _ _ H) as Hs. apply seg_app in Hs as [_ [Hs _]]. done. Qed.

Lemma heap_at_headers h m l : heap_at h l -> seg m 0 0 l ->
  (exists hm, m !! (mem_size_aligned h + 16) = Some hm /\ used hm = 1) ->
  heap_at (set_headers m h) l.
Proof. intros [] ? ?. by split. Qed.

(** A change of the statistics, of [lfree] and of the bytes keeps the blocks. *)
Lemma heap_at_ext h h' l : heap_ptr h' = heap_ptr h -> mem_size_aligned h' = mem_size_aligned h ->
  headers h' = headers h -> heap_at h l -> heap_at h' l.
Proof. intros E1 E2 E3 []. by split; rewrite ?E1, ?E2, ?E3. Qed.

Ltac heap_ext H := refine (heap_at_ext _ _ _ _ _ _ H); reflexivity.

Ltac hk := rewrite ?SIZEOF_STRUCT_MEM_eq, ?MIN_SIZE_ALIGNED_eq in *.

(** Writing the memory of a heap at keys given as sums. *)
Ltac maps :=
  repeat first
    [ rewrite lookup_insert_eq
    | rewrite lookup_insert_ne by lia
    | rewrite lookup_insert by lia; case_decide; try lia ].

Lemma split_at h l1 s u l2 n f u' :
  heap_at h (l1 ++ (s, u) :: l2) -> 0 < n -> n mod 8 = 0 -> n + 16 < s ->
  (forall o p, f (hdr o p (n, u)) = hdr o p (n, u')) ->
  exists m, split_block f (span l1) (span l1 + 16 + n) h = Some (set_headers m h) /\
    heap_at (set_headers m h) (l1 ++ (n, u') :: (s - n - 16, false) :: l2).
Proof.
  intros H Hn Hn8 Hs Hf.
  pose proof (mid_bounds _ _ _ _ H) as (B1&B2&B3&B4&B5&B6&B7). simpl in B3, B4, B6.
  pose proof (mid_header _ _ _ _ H) as Hm. pose proof (ha_seg _ _ H) as Hseg.
  pose proof (ha_end _ _ H) as (he & Hend & Hu).
  pose proof (ha_sizes _ _ H) as Hsz.
  assert (Hsz' : Forall size_ok (l1 ++ (n, u') :: (s - n - 16, false) :: l2)).
  { apply Forall_app in Hsz as [? Hsz]. inversion Hsz; subst. apply Forall_app; split; [done|].
    repeat (constructor; simpl); try done; try lia. zdiv. }
  assert (Hn2 : forall b l, l2 = b :: l ->
    headers h !! (span l1 + 16 + s) = Some (hdr (span l1 + 16 + s) (span l1) b)).
  { intros b l ->. apply seg_app in Hseg as [_ (_ & Hb & _)]. exact Hb. }
  assert (Hl2 : forall b l, l2 = b :: l -> 0 <= b.1 /\ 0 <= span l).
  { intros b l ->. apply Forall_app in Hsz as [_ Hsz]. apply Forall_cons in Hsz as [_ Hsz].
    apply Forall_cons in Hsz as [[? ?] Hsz]. split; [lia|by apply span_nonneg]. }
  set (o := span l1) in *. set (p := last_header 0 0 l1) in *.
  set (m1 := <[o := hdr o p (n, u')]> (<[o + 16 + n :=
    {| magic := HEAP_MAGIC; used := 0; next := o + 16 + s; prev := o |}]> (headers h))).
  set (m2 := match l2 with [] => m1
             | b :: _ => <[o + 16 + s := hdr (o + 16 + s) (o + 16 + n) b]> m1 end).
  exists m2. split.
  - unfold split_block. rewrite Hm. simpl. unfold update, write. simpl.
    maps. rewrite Hm. simpl.
    match goal with |- context [heap_end ?h'] => change (heap_end h') with (heap_end h) end.
    rewrite (heap_end_eq _ _ H).
    replace (f (set_next (o + 16 + n) (hdr o p (s, u)))) with (hdr o p (n, u'))
      by (rewrite <- Hf; f_equal).
    unfold m2. destruct l2 as [|b l2].
    + simpl in B6. replace (o + 16 + s =? mem_size_aligned h + 16) with true by (symmetry; apply Z.eqb_eq; lia).
      done.
    + pose proof (Hl2 b l2 eq_refl) as [? ?]. simpl in B6.
      replace (o + 16 + s =? mem_size_aligned h + 16) with false by (symmetry; apply Z.eqb_neq; lia).
      simpl. maps. rewrite (Hn2 b l2 eq_refl). simpl. done.
  - assert (Hseg' : seg m2 0 0 (l1 ++ (n, u') :: (s - n - 16, false) :: l2)).
    { apply (seg_replace (headers h) m2 0 0 l1 [(s, u)] [(n, u'); (s - n - 16, false)] l2); simpl.
      - done.
      - lia.
      - intros k Hk. fold o in Hk. unfold m2, m1. destruct l2; maps; done.
      - intros k Hk. fold o in Hk. unfold m2, m1. destruct l2; maps; done.
      - done.
      - fold o. fold p. unfold m2, m1. replace (0 + o) with o by lia. split.
        + destruct l2; maps; done.
        + split; [|done]. unfold hdr; simpl.
          replace (o + 16 + n + 16 + (s - n - 16)) with (o + 16 + s) by lia.
          destruct l2; maps; done.
      - fold o. intros b l ->. unfold m2. replace (0 + o + (16 + s + 0)) with (o + 16 + s) by lia.
        maps. repeat f_equal; lia. }
    split; try (by apply H); [done| | done |].
    + rewrite span_app. simpl. pose proof (ha_span _ _ H) as E. rewrite span_app in E. simpl in E. simpl. lia.
    + simpl. exists he. split; [|done]. unfold m2, m1. destruct l2 as [|b l2]; [by maps|].
      pose proof (Hl2 b l2 eq_refl) as [? ?]. simpl in B6. by maps.
Qed.

(** The two writes that join a free block with the one behind it. *)
Lemma join_at h l1 s s' u l2 (e := span l1 + 16 + s + 16 + s') :
  heap_at h (l1 ++ (s, false) :: (s', u) :: l2) ->
  exists m, (h ← update (span l1) (set_next e) h; update e (set_prev (span l1)) h)
              = Some (set_headers m h) /\
    heap_at (set_headers m h) (l1 ++ (s + 16 + s', false) :: l2).
Proof.
  intros H. pose proof (mid_bounds _ _ _ _ H) as (B1&B2&B3&B4&B5&B6&B7). simpl in B3, B4, B5, B6.
  pose proof (mid_header _ _ _ _ H) as Hm. pose proof (ha_seg _ _ H) as Hseg.
  pose proof (ha_end _ _ H) as (he & Hend & Hu).
  pose proof (ha_sizes _ _ H) as Hsz.
  pose proof Hsz as Hsz0. apply Forall_app in Hsz0 as [Hs1 Hsz0]. apply Forall_cons in Hsz0 as [_ Hsz0].
  apply Forall_cons in Hsz0 as [[Hs'1 Hs'2] Hs2]. simpl in Hs'1, Hs'2.
  pose proof (span_nonneg _ Hs2) as Hsp2.
  assert (Hsz' : Forall size_ok (l1 ++ (s + 16 + s', false) :: l2)).
  { apply Forall_app; split; [done|]. constructor; [|done]. split; simpl; [lia|zdiv]. }
  set (o := span l1) in *. set (p := last_header 0 0 l1) in *.
  assert (He : exists b, headers h !! e = Some b /\ b = match l2 with [] => he | b :: _ => hdr e (o + 16 + s) b end).
  { destruct l2 as [|b l2].
    - exists he. split; [|done]. rewrite <- Hend. f_equal. simpl in B6. lia.
    - eexists. split; [|done]. apply seg_app in Hseg as [_ (_ & _ & Hb & _)].
      replace e with (0 + span l1 + 16 + s + 16 + s') by (fold o; lia). exact Hb. }
  destruct He as (b & Hb & Eb).
  set (m := <[e := set_prev o b]> (<[o := hdr o p (s + 16 + s', false)]> (headers h))).
  exists m. split.
  { unfold update, write. rewrite Hm. simpl. rewrite lookup_insert_ne by lia. rewrite Hb. simpl.
    replace (set_next e (hdr o p (s, false))) with (hdr o p (s + 16 + s', false)); [done|].
    unfold hdr, set_next, e. simpl. f_equal. lia. }
  split; try (by apply H); [| |done|].
  - apply (seg_replace (headers h) m 0 0 l1 [(s, false); (s', u)] [(s + 16 + s', false)] l2); simpl.
    + done.
    + lia.
    + intros k Hk. fold o in Hk. unfold m. by maps.
    + intros k Hk. fold o in Hk. unfold m. by maps.
    + done.
    + fold o. fold p. unfold m. replace (0 + o) with o by lia. split; [by maps|done].
    + fold o. intros b' l ->. unfold m. replace (0 + o + (16 + s + (16 + s' + 0))) with e by lia.
      maps. rewrite Eb. unfold hdr, set_prev; simpl. repeat f_equal; lia.
  - pose proof (ha_span _ _ H) as E. rewrite span_app in E |- *. simpl in *. lia.
  - simpl. unfold m. destruct l2 as [|b' l2]; simpl in B6.
    + replace (mem_size_aligned h + 16) with e by lia. maps. subst b. by eexists.
    + apply Forall_cons in Hs2 as [[? ?] Hs2]. pose proof (span_nonneg _ Hs2).
      maps. by exists he.
Qed.

(** Turning the used flag of a block. *)
Lemma retag_at h l1 s u u' l2 : heap_at h (l1 ++ (s, u) :: l2) ->
  heap_at (set_headers (<[span l1 := hdr (span l1) (last_header 0 0 l1) (s, u')]> (headers h)) h)
    (l1 ++ (s, u') :: l2).
Proof.
  intros H. pose proof (mid_bounds _ _ _ _ H) as B. simpl in B.
  pose proof (ha_sizes _ _ H) as Hsz. pose proof (ha_seg _ _ H) as Hseg.
  pose proof (ha_end _ _ H) as (he & Hend & Hu).
  split; try (by apply H).
  - apply (seg_replace (headers h) _ 0 0 l1 [(s, u)] [(s, u')] l2); simpl; try done.
    + intros k Hk. by maps.
    + intros k Hk. by maps.
    + split; [by maps|done].
    + intros b l ->. maps. apply seg_app in Hseg as [_ (_ & Hb & _)]. simpl in Hb.
      replace (0 + span l1 + (16 + s + 0)) with (0 + span l1 + 16 + s) by lia. done.
  - pose proof (ha_span _ _ H) as E. rewrite span_app in E |- *. exact E.
  - apply Forall_app in Hsz as [? Hsz]. apply Forall_cons in Hsz as [? ?].
    apply Forall_app; split; [done|]. by constructor.
  - exists he. split; [|done]. simpl. by maps.
Qed.

Lemma set_lfree_if (c : bool) p h :
  (if c then set_lfree p h else h) = set_lfree (if c then p else lfree h) h.
Proof. by destruct c, h. Qed.

(** What a block's neighbours must be for [plug_holes] to leave it alone. *)
Definition next_taken (l2 : list block) : Prop := forall s, head l2 <> Some (s, false).
Definition prev_taken (l1 : list block) : Prop := forall s, last l1 <> Some (s, false).

Lemma plug_next_keeps h l1 s u l2 : heap_at h (l1 ++ (s, u) :: l2) -> next_taken l2 ->
  plug_next (span l1) h = Some h.
Proof.
  intros H Ht. pose proof (mid_header _ _ _ _ H) as Hm. pose proof (mid_bounds _ _ _ _ H) as B.
  pose proof (ha_end _ _ H) as (he & Hend & Hu).
  unfold plug_next. rewrite Hm. simpl. destruct l2 as [|[s' u'] l2]; simpl in B.
  - replace (span l1 + 16 + s) with (mem_size_aligned h + 16) by lia. rewrite Hend. simpl. rewrite Hu.
    by rewrite andb_false_r.
  - pose proof (ha_seg _ _ H) as Hseg. apply seg_app in Hseg as [_ (_ & Hb & _)].
    change (0 + span l1) with (span l1) in Hb. simpl in Hb. rewrite Hb. simpl.
    destruct u'; [|by destruct (Ht s')]. by rewrite andb_false_r.
Qed.

Lemma plug_next_joins h l1 s s' l2 (lf := if lfree h =? span l1 + 16 + s then span l1 else lfree h) :
  heap_at h (l1 ++ (s, false) :: (s', false) :: l2) ->
  exists m, plug_next (span l1) h = Some (set_headers m (set_lfree lf h)) /\
    heap_at (set_headers m (set_lfree lf h)) (l1 ++ (s + 16 + s', false) :: l2).
Proof.
  intros H. pose proof (mid_header _ _ _ _ H) as Hm. pose proof (mid_bounds _ _ _ _ H) as B. simpl in B.
  assert (H' : heap_at (set_lfree lf h) (l1 ++ (s, false) :: (s', false) :: l2)) by heap_ext H.
  destruct (join_at _ _ _ _ _ _ H') as (m & Hj & Hm'). exists m. split; [|done].
  pose proof (ha_seg _ _ H) as Hseg. apply seg_app in Hseg as [_ (_ & Hb & _)].
  change (0 + span l1) with (span l1) in Hb. simpl in Hb.
  pose proof (ha_sizes _ _ H) as Hsz. apply Forall_app in Hsz as [_ Hsz]. apply Forall_cons in Hsz as [_ Hsz].
  apply Forall_cons in Hsz as [[? ?] Hsz]. pose proof (span_nonneg _ Hsz). simpl in *.
  unfold plug_next. rewrite Hm. simpl. rewrite Hb. simpl. rewrite (heap_end_eq _ _ H).
  rewrite (proj2 (Z.eqb_neq (span l1) _)) by lia.
  rewrite (proj2 (Z.eqb_neq _ (mem_size_aligned h + 16))) by lia. simpl.
  by rewrite set_lfree_if.
Qed.

Lemma plug_prev_keeps h l1 s u l2 : heap_at h (l1 ++ (s, u) :: l2) -> prev_taken l1 ->
  plug_prev (span l1) h = Some h.
Proof.
  intros H Ht. pose proof (mid_header _ _ _ _ H) as Hm.
  unfold plug_prev. rewrite Hm. simpl. destruct l1 as [|[s' u'] l1 _] using rev_ind.
  - simpl in *. rewrite Hm. done.
  - rewrite last_header_app. simpl. rewrite !Z.add_0_l. rewrite <- app_assoc in H. simpl in H.
    pose proof (mid_header _ _ _ _ H) as Hp. rewrite Hp. simpl.
    destruct u'; [|by destruct (Ht s'); rewrite last_snoc]. by rewrite andb_false_r.
Qed.

Lemma plug_prev_joins h l1 s s' u l2 (o := span l1 + 16 + s)
    (lf := if lfree h =? o then span l1 else lfree h) :
  heap_at h (l1 ++ (s, false) :: (s', u) :: l2) ->
  exists m, plug_prev o h = Some (set_headers m (set_lfree lf h)) /\
    heap_at (set_headers m (set_lfree lf h)) (l1 ++ (s + 16 + s', false) :: l2).
Proof.
  intros H. pose proof (mid_header _ _ _ _ H) as Hp. pose proof (mid_bounds _ _ _ _ H) as B. simpl in B.
  assert (H' : heap_at (set_lfree lf h) (l1 ++ (s, false) :: (s', u) :: l2)) by heap_ext H.
  destruct (join_at _ _ _ _ _ _ H') as (m & Hj & Hm'). exists m. split; [|done].
  pose proof (ha_seg _ _ H) as Hseg. apply seg_app in Hseg as [_ (_ & Hb & _)].
  rewrite Z.add_0_l in Hb. simpl in Hb. fold o in Hb.
  unfold plug_prev. rewrite Hb. simpl. rewrite Hp. simpl.
  rewrite (proj2 (Z.eqb_neq (span l1) o)) by lia. simpl.
  by rewrite set_lfree_if.
Qed.

(** ** The invariant of the heap *)

(** Block [b] of the sequence has its header at offset [o]. *)
Fixpoint block_at (l : list block) (o : Z) (b : block) : Prop :=
  match l with
  | [] => False
  | b' :: l => (o = 0 /\ b = b') \/ block_at l (o - (16 + b'.1)) b
  end.

(** No two free blocks side by side. *)
Fixpoint joined (l : list block) : Prop :=
  match l with
  | [] => True
  | b :: l => (b.2 = true \/ next_taken l) /\ joined l
  end.

Fixpoint used_span (l : list block) : Z :=
  match l with [] => 0 | b :: l => (if b.2 then 16 + b.1 else 0) + used_span l end.

(** [lfree] is a free block or the end of the heap. *)
Definition lfree_ok (p : Z) (l : list block) : Prop :=
  p = span l \/ exists s, block_at l p (s, false).

(** No free block lies below [lfree]. *)
Definition lowest (p : Z) (l : list block) : Prop :=
  forall o s, block_at l o (s, false) -> p <= o.

(** A heap that cannot hold one smallest block makes [rt_malloc] search for
    ever, so the invariant asks for one. *)
Record heap_ok (h : heap) (l : list block) : Prop := {
  ok_at : heap_at h l;
  ok_min : MIN_SIZE_ALIGNED <= mem_size_aligned h;
  ok_joined : joined l;
  ok_lfree : lfree_ok (lfree h) l;
  ok_used : used_mem h = used_span l;
  ok_max : used_mem h <= max_mem h <= mem_size_aligned h + 16
}.

Lemma block_at_app l1 l2 o b :
  block_at (l1 ++ l2) o b <-> block_at l1 o b \/ block_at l2 (o - span l1) b.
Proof.
  revert o. induction l1 as [|b' l1 IH]; intros o; simpl.
  { replace (o - 0) with o by lia. tauto. }
  rewrite IH. replace (o - (16 + b'.1) - span l1) with (o - (16 + b'.1 + span l1)) by lia. tauto.
Qed.

Lemma block_at_split l o b : block_at l o b -> exists l1 l2, l = l1 ++ b :: l2 /\ o = span l1.
Proof.
  revert o. induction l as [|b' l IH]; intros o; simpl; [done|]. intros [[-> ->]|H].
  - by exists [], l.
  - apply IH in H as (l1 & l2 & -> & E). exists (b' :: l1), l2. split; [done|]. simpl. lia.
Qed.

Lemma block_at_mid l1 b l2 : block_at (l1 ++ b :: l2) (span l1) b.
Proof. apply block_at_app. right. left. split; [lia|done]. Qed.

Lemma block_at_bounds l o b : Forall size_ok l -> block_at l o b ->
  0 <= o /\ o mod 8 = 0 /\ size_ok b /\ o + 16 + b.1 <= span l.
Proof.
  intros Hl H. apply block_at_split in H as (l1 & l2 & -> & ->).
  apply Forall_app in Hl as [Hs1 Hl]. apply Forall_cons in Hl as [Hb Hs2].
  pose proof (span_nonneg _ Hs1). pose proof (span_mod _ Hs1). pose proof (span_nonneg _ Hs2).
  rewrite span_app. simpl. split_and!; try lia; apply Hb.
Qed.

(** Two blocks of a sequence are the same or do not overlap. *)
Lemma block_at_disjoint l o1 b1 o2 b2 : Forall size_ok l -> block_at l o1 b1 -> block_at l o2 b2 ->
  o1 = o2 /\ b1 = b2 \/ o1 + 16 + b1.1 <= o2 \/ o2 + 16 + b2.1 <= o1.
Proof.
  intros Hl. revert o1 o2. induction Hl as [|b l Hb Hl IH]; intros o1 o2; simpl; [done|].
  intros [[-> ->]|B1] [[-> ->]|B2]; [by left| | |].
  - apply block_at_bounds in B2; [|done]. lia.
  - apply block_at_bounds in B1; [|done]. lia.
  - destruct (IH _ _ B1 B2) as [[? ->]|?]; [left; split; [lia|done]|lia].
Qed.

Lemma next_taken_nil : next_taken [].
Proof. by intros s. Qed.
Lemma next_taken_used s l : next_taken ((s, true) :: l).
Proof. by intros s'. Qed.
Lemma prev_taken_nil : prev_taken [].
Proof. by intros s. Qed.
Lemma prev_taken_used s l : prev_taken (l ++ [(s, true)]).
Proof. intros s'. by rewrite last_snoc. Qed.
#[export] Hint Resolve next_taken_nil next_taken_used prev_taken_nil prev_taken_used : rtboot.

Lemma next_taken_cons_free s l : ~ next_taken ((s, false) :: l).
Proof. intros H. by apply (H s). Qed.

Lemma prev_taken_cons b b' l : prev_taken (b :: b' :: l) <-> prev_taken (b' :: l).
Proof. done. Qed.

Lemma joined_used l1 s l2 : joined (l1 ++ (s, true) :: l2) <-> joined l1 /\ joined l2.
Proof.
  induction l1 as [|b l1 IH]; simpl; [tauto|]. rewrite IH.
  assert (next_taken (l1 ++ (s, true) :: l2) <-> next_taken l1) as ->.
  { destruct l1 as [|b' l1]; [simpl; split; auto with rtboot|done]. }
  tauto.
Qed.

Lemma joined_free l1 s l2 : joined (l1 ++ (s, false) :: l2) <->
  joined l1 /\ joined l2 /\ prev_taken l1 /\ next_taken l2.
Proof.
  induction l1 as [|b l1 IH]; simpl.
  { pose proof prev_taken_nil. naive_solver. }
  rewrite IH. destruct l1 as [|b' l1]; simpl.
  - assert (prev_taken [b] <-> b.2 = true) as ->.
    { destruct b as [s' []]; split; try done.
      intros H. by destruct (H s'). }
    pose proof (next_taken_cons_free s l2). pose proof prev_taken_nil. pose proof next_taken_nil. tauto.
  - rewrite prev_taken_cons. assert (next_taken (b' :: l1 ++ (s, false) :: l2) <-> next_taken (b' :: l1)) as ->
      by done. tauto.
Qed.

Lemma used_span_app l1 l2 : used_span (l1 ++ l2) = used_span l1 + used_span l2.
Proof. induction l1 as [|b l1 IH]; simpl; lia. Qed.

Lemma used_span_bounds l : Forall size_ok l -> 0 <= used_span l <= span l.
Proof. induction 1 as [|[s []] l [? ?] ? IH]; simpl in *; lia. Qed.

(** [l'] has the used blocks of [l], and no free block in a new place. *)
Record same_used (l l' : list block) : Prop := {
  su_used : forall o r, block_at l' o (r, true) <-> block_at l o (r, true);
  su_free : forall o r, block_at l' o (r, false) -> exists r', block_at l o (r', false);
  su_span : used_span l' = used_span l
}.

Lemma same_used_refl l : same_used l l.
Proof. split; naive_solver. Qed.

Lemma same_used_trans l1 l2 l3 : same_used l1 l2 -> same_used l2 l3 -> same_used l1 l3.
Proof.
  intros [U1 F1 S1] [U2 F2 S2]. split; [| |lia].
  - intros o r. by rewrite U2, U1.
  - intros o r H. apply F2 in H as [? H]. by apply F1 in H.
Qed.

Lemma same_used_lowest l l' p p' : same_used l l' -> lowest p l -> p' <= p -> lowest p' l'.
Proof. intros [_ F _] Hp Hle o s H. apply F in H as [? H]. apply Hp in H. lia. Qed.

Lemma join_same_used l1 s s' l2 :
  same_used (l1 ++ (s, false) :: (s', false) :: l2) (l1 ++ (s + 16 + s', false) :: l2).
Proof.
  split.
  - intros o r. rewrite !block_at_app. simpl.
    replace (o - span l1 - (16 + (s + 16 + s'))) with (o - span l1 - (16 + s) - (16 + s')) by lia.
    naive_solver.
  - intros o r. rewrite block_at_app. intros [H|[[H _]|H]].
    + exists r. apply block_at_app. by left.
    + exists s. apply block_at_app. right. by left.
    + exists r. apply block_at_app. right. right. simpl in *. right.
      replace (o - span l1 - (16 + s) - (16 + s')) with (o - span l1 - (16 + (s + 16 + s'))) by lia. done.
  - rewrite !used_span_app. done.
Qed.

Lemma join_lfree_ok l1 s s' l2 p :
  lfree_ok p (l1 ++ (s, false) :: (s', false) :: l2) ->
  lfree_ok (if p =? span l1 + 16 + s then span l1 else p) (l1 ++ (s + 16 + s', false) :: l2).
Proof.
  intros H. destruct (p =? span l1 + 16 + s) eqn:E; zify_bool.
  { right. exists (s + 16 + s'). apply block_at_mid. }
  destruct H as [->|[r H]].
  { left. rewrite !span_app. simpl. lia. }
  apply block_at_app in H as [H|[[H _]|[[H _]|H]]]; simpl in *.
  - right. exists r. apply block_at_app. by left.
  - right. exists (s + 16 + s'). replace p with (span l1) by lia. apply block_at_mid.
  - lia.
  - right. exists r. apply block_at_app. right. right. simpl.
    replace (p - span l1 - (16 + (s + 16 + s'))) with (p - span l1 - (16 + s) - (16 + s')) by lia. done.
Qed.

Lemma next_taken_dec l2 : next_taken l2 \/ exists s l, l2 = (s, false) :: l.
Proof. destruct l2 as [|[s []] l2]; eauto with rtboot. Qed.

Lemma prev_taken_dec l1 : prev_taken l1 \/ exists s l, l1 = l ++ [(s, false)].
Proof. destruct l1 as [|[s []] l1 _] using rev_ind; eauto with rtboot. Qed.

Lemma set_headers_lfree m p h : set_headers m (set_lfree p h) = set_lfree p (set_headers m h).
Proof. done. Qed.

Lemma heap_eta h : h = set_headers (headers h) (set_lfree (lfree h) h).
Proof. by destruct h. Qed.

(** The result of both halves of [plug_holes]. *)
Record plugged (h : heap) (l : list block) (h' : heap) (l' : list block) : Prop := {
  pg_heap : exists m lf, h' = set_headers m (set_lfree lf h) /\ lf <= lfree h;
  pg_at : heap_at h' l';
  pg_used : same_used l l';
  pg_lfree : lfree_ok (lfree h) l -> lfree_ok (lfree h') l'
}.

Lemma plugged_trans h1 l1 h2 l2 h3 l3 : plugged h1 l1 h2 l2 -> plugged h2 l2 h3 l3 ->
  plugged h1 l1 h3 l3.
Proof.
  intros [(m & lf & -> & ?) A1 U1 L1] [(m' & lf' & -> & ?) A2 U2 L2]. simpl in *. split; [|done| |].
  - exists m', lf'. split; [done|lia].
  - by eapply same_used_trans.
  - eauto.
Qed.

Lemma plugged_refl h l : heap_at h l -> plugged h l h l.
Proof.
  intros H. split; [|done|apply same_used_refl|done].
  exists (headers h), (lfree h). split; [apply heap_eta|lia].
Qed.

Lemma plug_next_at h l1 s l2 : heap_at h (l1 ++ (s, false) :: l2) -> joined l2 ->
  exists h' s' l2', plug_next (span l1) h = Some h' /\
    plugged h (l1 ++ (s, false) :: l2) h' (l1 ++ (s', false) :: l2') /\
    joined l2' /\ next_taken l2'.
Proof.
  intros H Hj. destruct (next_taken_dec l2) as [Ht|(s' & l2' & ->)].
  - exists h, s, l2. split_and!; [by eapply plug_next_keeps|by apply plugged_refl|done|done].
  - destruct (plug_next_joins _ _ _ _ _ H) as (m & Hp & Hm).
    eexists _, (s + 16 + s'), l2'. split_and!; [exact Hp| | |].
    + split; [|done|apply join_same_used|apply join_lfree_ok].
      eexists _, _. split; [done|]. pose proof (mid_bounds _ _ _ _ H) as B. simpl in B.
      destruct (_ =? _) eqn:E; zify_bool; lia.
    + apply Hj.
    + destruct Hj as [[|] _]; done.
Qed.

Lemma plug_prev_at h l1 s l2 : heap_at h (l1 ++ (s, false) :: l2) -> joined l1 ->
  exists h' s' l1', plug_prev (span l1) h = Some h' /\
    plugged h (l1 ++ (s, false) :: l2) h' (l1' ++ (s', false) :: l2) /\
    joined l1' /\ prev_taken l1'.
Proof.
  intros H Hj. destruct (prev_taken_dec l1) as [Ht|(s0 & l1' & ->)].
  - exists h, s, l1. split_and!; [by eapply plug_prev_keeps|by apply plugged_refl|done|done].
  - rewrite <- app_assoc in *. simpl in *.
    destruct (plug_prev_joins _ _ _ _ _ _ H) as (m & Hp & Hm).
    eexists _, (s0 + 16 + s), l1'. split_and!.
    + rewrite span_app. simpl. rewrite <- Hp. f_equal. lia.
    + split; [|done|apply join_same_used|apply join_lfree_ok].
      eexists _, _. split; [done|]. pose proof (mid_bounds _ _ _ _ H) as B. simpl in B.
      destruct (_ =? _) eqn:E; zify_bool; lia.
    + by apply joined_free in Hj as (?&?&?&?).
    + by apply joined_free in Hj as (?&?&?&?).
Qed.

Lemma plug_holes_at h l1 s l2 :
  heap_at h (l1 ++ (s, false) :: l2) -> joined l1 -> joined l2 ->
  exists h' l', plug_holes (span l1) h = Some h' /\
    plugged h (l1 ++ (s, false) :: l2) h' l' /\ joined l'.
Proof.
  intros H J1 J2. destruct (plug_next_at _ _ _ _ H J2) as (h1 & s1 & l2' & E1 & P1 & J2' & T2).
  destruct (plug_prev_at _ _ _ _ (pg_at _ _ _ _ P1) J1) as (h2 & s2 & l1' & E2 & P2 & J1' & T1).
  exists h2, (l1' ++ (s2, false) :: l2'). split_and!.
  - unfold plug_holes. rewrite E1. exact E2.
  - by eapply plugged_trans.
  - by apply joined_free.
Qed.

(** ** Searching *)

Lemma length_span l : Forall size_ok l -> 16 * Z.of_nat (length l) <= span l.
Proof. induction 1 as [|b l [? ?] ? IH]; simpl length; simpl span; lia. Qed.

Lemma heap_fuel_enough h l1 l2 : heap_at h (l1 ++ l2) -> (length l2 < heap_fuel h)%nat.
Proof.
  intros H. pose proof (length_span _ (ha_sizes _ _ H)) as Hl. rewrite (ha_span _ _ H), length_app in Hl.
  pose proof (ha_msa _ _ H) as [? _]. unfold heap_fuel. rewrite SIZEOF_STRUCT_MEM_eq.
  assert (Z.of_nat (length l2) <= mem_size_aligned h / 16 + 1) by zdiv. lia.
Qed.

(** The search returns the first block at or behind [span l1] that is free,
    large enough and not too close to the end. *)
Lemma malloc_scan_at h l1 l2 fuel size :
  heap_at h (l1 ++ l2) -> 0 <= size <= mem_size_aligned h -> (length l2 < fuel)%nat ->
  exists r, malloc_scan fuel h (span l1) size = Some r /\
  match r with
  | Some ptr => exists a s b, l2 = a ++ (s, false) :: b /\ ptr = span (l1 ++ a) /\ size <= s
  | None => forall o s, block_at l2 o (s, false) ->
      s < size \/ mem_size_aligned h - size <= span l1 + o
  end.
Proof.
  intros H Hs. revert l1 fuel H. induction l2 as [|[s u] l2 IH]; intros l1 [|fuel] H Hf; simpl in Hf; try lia.
  - pose proof (ha_span _ _ H) as E. rewrite app_nil_r in E. pose proof (ha_base _ _ H).
    simpl. unwrap. rewrite (proj2 (Z.ltb_ge _ _)) by lia. by exists None.
  - pose proof (mid_bounds _ _ _ _ H) as B. simpl in B.
    simpl. rewrite (wrap_small 32 (_ - size)) by lia. destruct (_ <? _) eqn:E; zify_bool.
    + rewrite (mid_header _ _ _ _ H). simpl. rewrite SIZEOF_STRUCT_MEM_eq. unwrap.
      replace (span l1 + 16 + s - (span l1 + 16)) with s by lia.
      destruct ((_ =? 0) && _) eqn:E1.
      * apply andb_true_iff in E1 as [E1 E2]. zify_bool. destruct u; [done|].
        exists (Some (span l1)). split; [done|]. exists [], s, l2.
        rewrite app_nil_r. repeat split; lia.
      * destruct (IH (l1 ++ [(s, u)]) fuel) as (r & Hr & Hp); [by rewrite <- app_assoc|lia|].
        exists r. split.
        { rewrite <- Hr. f_equal. rewrite span_app. simpl. lia. }
        destruct r as [ptr|].
        -- destruct Hp as (a & s' & b & -> & -> & ?). exists ((s, u) :: a), s', b.
           rewrite <- app_assoc. done.
        -- intros o s' [[-> [= <- <-]]|Hb].
           { left. apply andb_false_iff in E1 as [E1|E1]; zify_bool; lia. }
           apply Hp in Hb. rewrite span_app in Hb. simpl in Hb. lia.
    + exists None. split; [done|]. intros o s' Hb. right.
      apply (block_at_bounds ((s, u) :: l2)) in Hb; [lia|]. pose proof (ha_sizes _ _ H) as Hsz.
      by apply Forall_app in Hsz as [_ ?].
Qed.

Lemma lfree_skip_at h l1 l2 fuel : heap_at h (l1 ++ l2) -> (length l2 < fuel)%nat ->
  exists a b, l2 = a ++ b /\ lfree_skip fuel h (span l1) = Some (span (l1 ++ a)) /\
    Forall (fun c => c.2 = true) a /\ (b = [] \/ exists s b', b = (s, false) :: b').
Proof.
  revert l1 fuel. induction l2 as [|[s u] l2 IH]; intros l1 [|fuel] H Hf; simpl in Hf; try lia.
  - exists [], []. split_and!; [done| |done|by left].
    pose proof (ha_span _ _ H) as E. rewrite app_nil_r in E |- *.
    pose proof (ha_end _ _ H) as (he & Hend & Hu).
    simpl. rewrite E, Hend. simpl. rewrite Hu, (heap_end_eq _ _ H), Z.eqb_refl. done.
  - simpl. rewrite (mid_header _ _ _ _ H). simpl. destruct u; simpl.
    + pose proof (mid_bounds _ _ _ _ H) as B. simpl in B.
      rewrite (heap_end_eq _ _ H), (proj2 (Z.eqb_neq _ _)) by lia. simpl.
      destruct (IH (l1 ++ [(s, true)]) fuel) as (a & b & -> & Hr & Ha & Hb);
        [by rewrite <- app_assoc|lia|].
      exists ((s, true) :: a), b. split_and!; [done| |by constructor|done].
      rewrite <- app_assoc in Hr. simpl in Hr. etrans; [|exact Hr]. f_equal. rewrite span_app. simpl. lia.
    + exists [], ((s, false) :: l2). rewrite app_nil_r. split_and!; [done|done|done|right; eauto].
Qed.

(** ** Allocation *)

(** [l'] is [l] with [s] bytes at [o], which were free, in use. *)
Record block_taken (l : list block) (o s : Z) (l' : list block) : Prop := {
  bt_was_free : exists r, s <= r /\ block_at l o (r, false);
  bt_used : forall o' r, block_at l' o' (r, true) <-> o' = o /\ r = s \/ block_at l o' (r, true);
  bt_span : used_span l' = used_span l + 16 + s
}.

Lemma malloc_take_at h l1 s0 l2 n : heap_at h (l1 ++ (s0, false) :: l2) ->
  0 < n <= s0 -> n mod 8 = 0 ->
  exists m s rest, malloc_take h (span l1) n = Some (account (16 + s) (set_headers m h)) /\
    heap_at (set_headers m h) (l1 ++ (s, true) :: rest ++ l2) /\
    n <= s /\ 16 + s + span rest = 16 + s0 /\ (rest = [] \/ exists r, rest = [(r, false)]).
Proof.
  intros H Hn Hn8. pose proof (mid_bounds _ _ _ _ H) as B. simpl in B.
  unfold malloc_take. rewrite (mid_header _ _ _ _ H). simpl.
  rewrite SIZEOF_STRUCT_MEM_eq, MIN_SIZE_ALIGNED_eq. rewrite (wrap_small 32 (span l1 + 16)) by lia.
  replace (span l1 + 16 + s0 - (span l1 + 16)) with s0 by lia. rewrite (wrap_small 32 s0) by lia.
  destruct (s0 >=? _) eqn:E; zify_bool.
  - rewrite (wrap_small 32 (n + 16 + 16)) in E by lia.
    rewrite (wrap_small 32 (span l1 + 16 + n)) by lia.
    destruct (split_at _ _ _ _ _ n (set_used 1) true H) as (m & Hm & Hm'); try lia; [done|].
    rewrite Hm. exists m, n, [(s0 - n - 16, false)]. split_and!; try done; try lia.
    + simpl. do 2 f_equal. lia.
    + simpl. lia.
    + right. by eexists.
  - unfold update. rewrite (mid_header _ _ _ _ H). simpl.
    eexists _, s0, []. split_and!; try lia; [| |by simpl; lia|by left].
    + unfold write. do 2 f_equal. lia.
    + by apply (retag_at _ _ _ false true).
Qed.

Section taken.
Context (l1 : list block) (s0 s : Z) (rest l2 : list block).
Hypothesis Hspan : 16 + s + span rest = 16 + s0.
Hypothesis Hrest : rest = [] \/ exists r, rest = [(r, false)].
Hypothesis Hs : Forall size_ok rest.
Hypothesis Hs0 : 0 < s.
Let l : list block := l1 ++ (s0, false) :: l2.
Let l' : list block := l1 ++ (s, true) :: rest ++ l2.

Lemma taken_at o b : b <> (s0, false) ->
  block_at l o b -> block_at l' o b.
Proof.
  intros Hb H. unfold l, l' in *. apply block_at_app in H. apply block_at_app.
  destruct H as [?|[[_ ->]|H]]; [by left|done|]. simpl in *. right. right. apply block_at_app. right.
  replace (o - span l1 - (16 + s) - span rest) with (o - span l1 - (16 + s0)) by lia. done.
Qed.

Lemma taken_inv o b : block_at l' o b ->
  block_at l o b \/ (o = span l1 /\ b = (s, true)) \/ (span l1 <= o /\ exists r, b = (r, false)).
Proof.
  intros H. unfold l, l' in *. apply block_at_app in H as [H|[[Ho ->]|H]].
  - left. apply block_at_app. by left.
  - right. left. split; [lia|done].
  - simpl in H. apply block_at_app in H as [H|H].
    + destruct Hrest as [->|[r ->]]; [done|]. destruct H as [[Ho ->]|[]].
      pose proof (span_nonneg _ Hs) as Hr. apply Forall_cons in Hs as [[? ?] _]. simpl in *.
      right. right. split; [lia|eauto].
    + left. apply block_at_app. right. right. simpl.
      replace (o - span l1 - (16 + s0)) with (o - span l1 - (16 + s) - span rest) by lia. done.
Qed.

Lemma taken_block_taken : 0 <= span rest -> block_taken l (span l1) s l'.
Proof.
  intros Hr. split.
  - exists s0. split; [lia|]. apply block_at_mid.
  - intros o r. split.
    + intros H. apply taken_inv in H as [H|[[-> [= ->]]|[_ [? [=]]]]]; auto.
    + intros [[-> ->]|H]; [apply block_at_mid|]. by apply taken_at.
  - unfold l, l'. rewrite !used_span_app. simpl. rewrite used_span_app.
    destruct Hrest as [->|[r ->]]; simpl; lia.
Qed.

Lemma taken_joined : joined l -> joined l'.
Proof.
  intros H. apply joined_free in H as (J1 & J2 & _ & Ht). apply joined_used. split; [done|].
  destruct Hrest as [->|[r ->]]; [done|]. simpl. auto.
Qed.

Lemma taken_lfree_ok p : p <> span l1 -> lfree_ok p l -> lfree_ok p l'.
Proof.
  intros Hp [->|[r H]].
  - left. unfold l, l'. rewrite !span_app. simpl. rewrite span_app. lia.
  - right. exists r. unfold l, l' in *. apply block_at_app in H. apply block_at_app.
    destruct H as [?|[[? _]|H]]; [by left|lia|]. simpl in *. right. right. apply block_at_app. right.
    replace (p - span l1 - (16 + s) - span rest) with (p - span l1 - (16 + s0)) by lia. done.
Qed.

Lemma taken_lowest p : p <= span l1 -> lowest p l -> lowest p l'.
Proof. intros Hp Hl o r H. apply taken_inv in H as [H|[[-> [=]]|[? _]]]; [by apply Hl in H|lia]. Qed.
End taken.

(** After the blocks in front of a free one have been skipped. *)
Lemma skipped_lowest l1 a b : Forall size_ok (l1 ++ a ++ b) -> Forall (fun c => c.2 = true) a ->
  (forall o s, ~ block_at l1 o (s, false)) -> lowest (span (l1 ++ a)) (l1 ++ a ++ b).
Proof.
  intros Hsz Ha Hl o s H. rewrite app_assoc in H, Hsz. apply Forall_app in Hsz as [_ Hsz].
  apply block_at_app in H as [H|H]; [|apply block_at_bounds in H; [lia|done]].
  apply block_at_app in H as [H|H]; [by apply Hl in H|].
  apply block_at_split in H as (a1 & a2 & -> & _). apply Forall_app in Ha as [_ Ha].
  by apply Forall_cons in Ha as [? _].
Qed.

Lemma skipped_lfree_ok l1 a b : (b = [] \/ exists s b', b = (s, false) :: b') ->
  lfree_ok (span (l1 ++ a)) (l1 ++ a ++ b).
Proof.
  intros Hb. rewrite app_assoc. destruct Hb as [->|(s & b' & ->)].
  - left. by rewrite app_nil_r.
  - right. exists s. apply block_at_mid.
Qed.

(** The bytes a request takes: rounded up, at least the minimum. *)
Definition request (size : Z) : Z := Z.max MIN_SIZE_ALIGNED (RT_ALIGN size RT_ALIGN_SIZE).

(** What the caller of [rt_malloc] gets with a block at [a]. *)
Record malloced (h : heap) (l : list block) (size a : Z) (h' : heap) (l' : list block) : Prop := {
  mc_ok : heap_ok h' l';
  mc_block : exists o s, a = heap_ptr h + o + 16 /\ request size <= s /\ block_taken l o s l';
  mc_same : heap_ptr h' = heap_ptr h /\ mem_size_aligned h' = mem_size_aligned h /\ bytes h' = bytes h;
  mc_lowest : lowest (lfree h) l -> lowest (lfree h') l'
}.

Lemma RT_ALIGN_mod n : RT_ALIGN n RT_ALIGN_SIZE mod 8 = 0.
Proof.
  unfold RT_ALIGN, RT_ALIGN_SIZE. set (x := u32 (n + 8 - 1)).
  assert (0 <= x < 2 ^ 32) by (apply wrap_bounds; lia).
  assert (Z.land x (wnot 32 (8 - 1)) = x / 8 * 8) as -> by (apply (land_high_mask x 3 32); lia). zdiv.
Qed.

Lemma request_mod size : request size mod 8 = 0.
Proof.
  unfold request. rewrite MIN_SIZE_ALIGNED_eq.
  destruct (Z.max_spec 16 (RT_ALIGN size RT_ALIGN_SIZE)) as [[_ ->]|[_ ->]]; [apply RT_ALIGN_mod|done].
Qed.

#[local] Opaque heap_fuel.

Lemma lfree_split p l : lfree_ok p l -> exists l1 l2, l = l1 ++ l2 /\ p = span l1.
Proof.
  intros [->|[s H]].
  - exists l, []. by rewrite app_nil_r.
  - apply block_at_split in H as (l1 & l2 & -> & ->). eauto.
Qed.

(** Both statistics after an allocation. *)
Lemma account_ok h l n : heap_at h l -> used_span l = used_mem h + n ->
  used_mem h <= max_mem h <= mem_size_aligned h + 16 ->
  used_mem (account n h) = used_span l /\
  used_mem (account n h) <= max_mem (account n h) <= mem_size_aligned h + 16.
Proof.
  intros H Hu Hm. unfold account; simpl.
  pose proof (used_span_bounds _ (ha_sizes _ _ H)) as Hb. rewrite (ha_span _ _ H) in Hb.
  pose proof (ha_base _ _ H). pose proof (ha_msa _ _ H). rewrite (wrap_small 32 (used_mem h + n)) by lia.
  destruct (_ <? _) eqn:E; zify_bool; lia.
Qed.

Lemma RT_ALIGN_nonneg n : 0 <= RT_ALIGN n RT_ALIGN_SIZE < 2 ^ 32.
Proof. apply land_bounds; [lia|]. apply wnot_bounds. lia. Qed.

(** Taking the free block behind [l1], with the move of [lfree]. *)
Lemma take_ok h l1 s0 l2 size (l := l1 ++ (s0, false) :: l2) :
  heap_ok h l -> request size <= s0 -> lfree h <= span l1 ->
  exists h1 h' l',
    malloc_take h (span l1) (request size) = Some h1 /\
    (if span l1 =? lfree h1 then p ← lfree_skip (heap_fuel h1) h1 (span l1); Some (set_lfree p h1)
     else Some h1) = Some h' /\
    malloced h l size (heap_ptr h + span l1 + 16) h' l'.
Proof.
  intros [H Hmin Hj Hlf Hu Hmax] Hn Hle. unfold l in *. rewrite MIN_SIZE_ALIGNED_eq in *.
  assert (16 <= request size) by (unfold request; rewrite MIN_SIZE_ALIGNED_eq; lia).
  destruct (malloc_take_at _ _ _ _ (request size) H) as (m & s & rest & E & H' & Hns & Hsp & Hrest);
    [lia|apply request_mod|].
  pose proof (ha_sizes _ _ H') as Hsz. pose proof Hsz as Hsz'.
  apply Forall_app in Hsz' as [_ Hsz']. apply Forall_cons in Hsz' as [[Hs0 _] Hsz'].
  apply Forall_app in Hsz' as [Hsr _]. simpl in Hs0.
  set (l' := l1 ++ (s, true) :: rest ++ l2) in *.
  assert (Hbt : block_taken l (span l1) s l').
  { apply taken_block_taken; try done. by apply span_nonneg. }
  destruct (account_ok (set_headers m h) l' (16 + s)) as [Hu' Hm']; [done| |done|].
  { simpl. rewrite (bt_span _ _ _ _ Hbt). unfold l. lia. }
  assert (Hsame : forall p, lfree_ok p l' -> (lowest (lfree h) l -> lowest p l') ->
    malloced h l size (heap_ptr h + span l1 + 16) (set_lfree p (account (16 + s) (set_headers m h))) l').
  { intros p Hp Hlow. split; [split| | |]; simpl in *; try done.
    - heap_ext H'.
    - by apply (taken_joined l1 s0).
    - by exists (span l1), s. }
  rewrite E. set (h1 := account (16 + s) (set_headers m h)) in *.
  assert (H1 : heap_at h1 (l1 ++ (s, true) :: rest ++ l2)) by heap_ext H'.
  exists h1. change (lfree h1) with (lfree h). destruct (_ =? _) eqn:Ep; zify_bool.
  - destruct (lfree_skip_at _ _ _ _ H1 (heap_fuel_enough _ _ _ H1)) as (a & b & El & Es & Ha & Hb).
    rewrite Es. eexists _, l'. split_and!; [done|done|]. unfold l' in *. rewrite El in *. apply Hsame.
    + by apply skipped_lfree_ok.
    + intros Hlow. apply skipped_lowest; [done|done|]. intros o r Hor.
      pose proof (block_at_bounds _ _ _ (proj1 (proj1 (Forall_app _ _ _) Hsz)) Hor) as (_&_&[? _]&?).
      assert (lfree h <= o) by (apply (Hlow o r), block_at_app; by left). simpl in *. lia.
  - exists h1, l'. split_and!; [done|done|].
    replace h1 with (set_lfree (lfree h) h1) by done. apply Hsame.
    + apply (taken_lfree_ok l1 s0); auto.
    + apply (taken_lowest l1 s0); auto.
Qed.

(** Why [rt_malloc] refuses: no size, more than the heap, or every free block
    it looks at is too small or too near the end of the heap. *)
Definition refused (h : heap) (l : list block) (size : Z) : Prop :=
  size = 0 \/ mem_size_aligned h < RT_ALIGN size RT_ALIGN_SIZE \/
  forall o s, block_at l o (s, false) -> lfree h <= o ->
    s < request size \/ mem_size_aligned h - request size <= o.

Lemma rt_malloc_run h l size : heap_ok h l ->
  exists a h', rt_malloc h size = Some (a, h') /\
    (a = 0 /\ h' = h /\ refused h l size \/
     size <> 0 /\ exists l', malloced h l size a h' l').
Proof.
  intros Hok. unfold rt_malloc, refused. destruct (size =? 0) eqn:E0; zify_bool.
  { exists 0, h. auto 10. }
  destruct (_ >? _) eqn:E1; zify_bool.
  { exists 0, h. auto 10. }
  replace (if _ <? MIN_SIZE_ALIGNED then _ else _) with (request size).
  2:{ unfold request. destruct (_ <? _) eqn:E; zify_bool; lia. }
  pose proof (RT_ALIGN_nonneg size). pose proof (ok_min _ _ Hok) as Hmin.
  assert (0 <= request size <= mem_size_aligned h).
  { unfold request. rewrite MIN_SIZE_ALIGNED_eq in *. lia. }
  destruct (lfree_split _ _ (ok_lfree _ _ Hok)) as (l1 & l2 & -> & Elf). rewrite Elf.
  pose proof (ok_at _ _ Hok) as H1.
  destruct (malloc_scan_at _ _ _ (heap_fuel h) (request size) H1) as (r & Hr & Hspec);
    [done|by eapply heap_fuel_enough|].
  rewrite Hr. simpl. destruct r as [ptr|].
  - destruct Hspec as (a & s & b & -> & -> & Hs). rewrite app_assoc in Hok, H1 |- *.
    destruct (take_ok _ _ _ _ _ Hok Hs) as (h1 & h' & l' & E2 & E3 & Hm).
    { pose proof (ha_sizes _ _ H1) as Hsz. apply Forall_app in Hsz as [Hsz _].
      apply Forall_app in Hsz as [_ Hsz]. pose proof (span_nonneg _ Hsz). rewrite span_app. lia. }
    rewrite E2. simpl. rewrite E3. simpl.
    pose proof (mid_bounds _ _ _ _ H1) as B. pose proof (ha_base _ _ H1).
    destruct (mc_same _ _ _ _ _ _ Hm) as (Ep & _ & _). rewrite Ep, SIZEOF_STRUCT_MEM_eq. unwrap.
    eexists _, h'. split; [done|]. right. split; [done|]. by exists l'.
  - exists 0, h. split; [done|]. left. split_and!; [done|done|]. right. right.
    intros o s Hb Hlf. apply block_at_app in Hb as [Hb|Hb].
    + pose proof (ha_sizes _ _ H1) as Hsz. apply Forall_app in Hsz as [Hsz _].
      apply block_at_bounds in Hb as (_&_&[? _]&?); [|done]. simpl in *. lia.
    + apply Hspec in Hb. lia.
Qed.

(** ** Release *)

(** [l'] is [l] with the used block of [s] bytes at [o] free. *)
Record block_freed (l : list block) (o s : Z) (l' : list block) : Prop := {
  bf_used : forall o' r, block_at l' o' (r, true) <-> o' <> o /\ block_at l o' (r, true);
  bf_span : used_span l' = used_span l - (16 + s)
}.

Record freed (h : heap) (l : list block) (o s : Z) (h' : heap) (l' : list block) : Prop := {
  fd_ok : heap_ok h' l';
  fd_block : block_freed l o s l';
  fd_same : heap_ptr h' = heap_ptr h /\ mem_size_aligned h' = mem_size_aligned h /\ bytes h' = bytes h;
  fd_lowest : lowest (lfree h) l -> lowest (lfree h') l'
}.

Lemma block_at_retag l1 s u u' l2 o b : Forall size_ok (l1 ++ (s, u) :: l2) -> o <> span l1 ->
  block_at (l1 ++ (s, u') :: l2) o b <-> block_at (l1 ++ (s, u) :: l2) o b.
Proof. intros Hl Ho. rewrite !block_at_app. simpl. split; intros [?|[[? _]|?]]; auto; lia. Qed.

(** A freed block before its neighbours are joined to it. *)
Lemma block_freed_mid l1 s l2 : Forall size_ok (l1 ++ (s, true) :: l2) ->
  block_freed (l1 ++ (s, true) :: l2) (span l1) s (l1 ++ (s, false) :: l2).
Proof.
  intros Hl. split.
  - intros o' r. destruct (decide (o' = span l1)) as [->|Ho].
    + split; [|tauto]. intros Hb. exfalso.
      assert (Hl' : Forall size_ok (l1 ++ (s, false) :: l2)).
      { apply Forall_app in Hl as [? Hl]. apply Forall_cons in Hl as [? ?]. apply Forall_app. split; [done|].
        by constructor. }
      destruct (block_at_disjoint _ _ _ _ _ Hl' Hb (block_at_mid l1 (s, false) l2)) as [[_ [=]]|Hd].
      apply Forall_app in Hl' as [_ Hl']. apply Forall_cons in Hl' as [[? _] _]. simpl in *.
      apply block_at_bounds in Hb as (_&_&[? _]&_); [simpl in *; lia|].
      apply Forall_app in Hl as [? Hl]. apply Forall_cons in Hl as [? ?]. apply Forall_app. split; [done|].
      by constructor.
    + rewrite (block_at_retag _ _ true) by done. tauto.
  - rewrite !used_span_app. simpl. lia.
Qed.

Lemma block_freed_plugged l o s l1 l2 : block_freed l o s l1 -> same_used l1 l2 -> block_freed l o s l2.
Proof.
  intros [B1 B2] [U _ S]. split; [|lia]. intros o' r. by rewrite U.
Qed.

Lemma retag_lfree_ok l1 s l2 p : Forall size_ok (l1 ++ (s, true) :: l2) ->
  lfree_ok p (l1 ++ (s, true) :: l2) ->
  lfree_ok (if span l1 <? p then span l1 else p) (l1 ++ (s, false) :: l2).
Proof.
  intros Hl H. destruct (_ <? _) eqn:E; zify_bool.
  { right. exists s. apply block_at_mid. }
  destruct H as [->|[r H]].
  - left. by rewrite !span_app.
  - destruct (decide (p = span l1)) as [->|Hp]; [right; exists s; apply block_at_mid|].
    right. exists r. by apply (block_at_retag _ _ true).
Qed.

Lemma retag_lowest l1 s l2 p : Forall size_ok (l1 ++ (s, true) :: l2) ->
  lowest p (l1 ++ (s, true) :: l2) ->
  lowest (if span l1 <? p then span l1 else p) (l1 ++ (s, false) :: l2).
Proof.
  intros Hl H o r Hb. destruct (decide (o = span l1)) as [->|Ho].
  - destruct (_ <? _) eqn:E; zify_bool; lia.
  - apply (block_at_retag _ _ true) in Hb; [|done|done]. apply H in Hb.
    destruct (_ <? _) eqn:E; zify_bool; lia.
Qed.

Lemma outside_mid h l1 b l2 : heap_at h (l1 ++ b :: l2) ->
  outside h (heap_ptr h + span l1 + 16) = false.
Proof.
  intros H. pose proof (mid_bounds _ _ _ _ H) as B. pose proof (ha_base _ _ H).
  unfold outside. rewrite (heap_end_eq _ _ H). unwrap.
  apply orb_false_iff. split; [apply Z.ltb_ge; lia|]. rewrite Z.geb_leb. apply Z.leb_gt. lia.
Qed.

(** The caller's block: it is in use and [a] points behind its header. *)
Lemma rt_free_run h l a s : heap_ok h l -> block_at l (a - heap_ptr h - 16) (s, true) ->
  exists h' l', rt_free h a = Some h' /\ freed h l (a - heap_ptr h - 16) s h' l'.
Proof.
  intros [H Hmin Hj Hlf Hu Hmax] Hb. apply block_at_split in Hb as (l1 & l2 & -> & Ho).
  pose proof (ha_base _ _ H). pose proof (mid_bounds _ _ _ _ H) as B. simpl in B.
  pose proof (ha_sizes _ _ H) as Hsz.
  unfold rt_free. rewrite (proj2 (Z.eqb_neq a 0)) by lia.
  replace (outside h a) with false.
  2:{ rewrite <- (outside_mid _ _ _ _ H). f_equal. lia. }
  rewrite SIZEOF_STRUCT_MEM_eq, Ho. unfold update. rewrite (mid_header _ _ _ _ H). simpl.
  change (set_used 0 (hdr (span l1) (last_header 0 0 l1) (s, true)))
    with (hdr (span l1) (last_header 0 0 l1) (s, false)).
  set (m := <[span l1 := hdr (span l1) (last_header 0 0 l1) (s, false)]> (headers h)).
  set (lf := if span l1 <? lfree h then span l1 else lfree h).
  assert (H1 : heap_at (unaccount (16 + s) (set_lfree lf (write (span l1)
                 (hdr (span l1) (last_header 0 0 l1) (s, false)) h))) (l1 ++ (s, false) :: l2)).
  { pose proof (retag_at _ _ _ _ false _ H) as H1. heap_ext H1. }
  apply joined_used in Hj as [J1 J2].
  destruct (plug_holes_at _ _ _ _ H1 J1 J2) as (h' & l' & E & [(m' & lf' & Eh & Hle) Hat' HU HL] & Hj').
  rewrite set_lfree_if. simpl. unfold m. rewrite lookup_insert_eq. simpl.
  replace (span l1 + 16 + s - span l1) with (16 + s) by lia.
  exists h', l'. split; [exact E|].
  assert (Hbf : block_freed (l1 ++ (s, true) :: l2) (span l1) s l').
  { by eapply block_freed_plugged; [apply block_freed_mid|]. }
  pose proof (used_span_bounds _ (ha_sizes _ _ Hat')) as Hbd. pose proof (bf_span _ _ _ _ Hbf) as Hsp.
  rewrite (ha_span _ _ Hat') in Hbd. rewrite Eh in Hbd. simpl in Hbd.
  split; [split| | |]; try done.
  - by rewrite Eh.
  - apply HL. simpl. by apply retag_lfree_ok.
  - rewrite Eh. simpl. rewrite wrap_small; lia.
  - rewrite Eh. simpl. rewrite wrap_small; lia.
  - by rewrite Eh.
  - intros Hlow. eapply same_used_lowest; [exact HU| |].
    + by eapply retag_lowest.
    + rewrite Eh. simpl. exact Hle.
Qed.

(** ** Reallocation *)

Lemma heap_ok_bytes h l b : heap_ok h l -> heap_ok (set_bytes b h) l.
Proof. intros [H]. split; try done. heap_ext H. Qed.

(** Byte [x] of the heap belongs to a block in use at another offset than [o]. *)
Definition in_other (l : list block) (o x : Z) : Prop :=
  exists o' r, o' <> o /\ block_at l o' (r, true) /\ o' + 16 <= x < o' + 16 + r.

(** The block of [s] bytes at [o] has become one of at least [n] bytes at [o1]:
    the first bytes are the same, and so are those of all other blocks. *)
Record resized (h : heap) (l : list block) (o s n o1 : Z) (h' : heap) (l' : list block) : Prop := {
  rz_ok : heap_ok h' l';
  rz_used : exists s', n <= s' /\ forall o' r, block_at l' o' (r, true) <->
    o' = o1 /\ r = s' \/ o' <> o /\ block_at l o' (r, true);
  rz_new : forall r, block_at l o1 (r, true) -> o1 = o;
  rz_same : heap_ptr h' = heap_ptr h /\ mem_size_aligned h' = mem_size_aligned h;
  rz_kept : forall i, 0 <= i < Z.min s n -> bytes h' (o1 + 16 + i) = bytes h (o + 16 + i);
  rz_others : forall x, in_other l o x -> bytes h' x = bytes h x
}.

(** The part cut off is free; the rest of the block stays in use. *)
Lemma cut_used l1 s n l2 o r : 0 < n < s - 16 -> Forall size_ok (l1 ++ (s, true) :: l2) ->
  block_at (l1 ++ (n, true) :: (s - n - 16, false) :: l2) o (r, true) <->
  o = span l1 /\ r = n \/ o <> span l1 /\ block_at (l1 ++ (s, true) :: l2) o (r, true).
Proof.
  intros Hn Hl. assert (Hb : forall b, block_at l1 o b \/ block_at l2 (o - span l1 - (16 + s)) b -> o <> span l1).
  { apply Forall_app in Hl as [Hl1 Hl]. apply Forall_cons in Hl as [_ Hl2]. intros b [H|H];
      (apply block_at_bounds in H; [|done]); destruct H as (?&_&[? _]&?); lia. }
  rewrite !block_at_app. simpl.
  replace (o - span l1 - (16 + n) - (16 + (s - n - 16))) with (o - span l1 - (16 + s)) by lia.
  split.
  - intros [H|[[H [= ->]]|[[_ [=]]|H]]].
    + right. split; [by eapply Hb; left|]. by left.
    + left. split; [lia|done].
    + right. split; [by eapply Hb; right|]. auto.
  - intros [[-> ->]|[Ho [H|[[H _]|H]]]]; [right; left; split; [lia|done]|by left|lia|auto].
Qed.

Lemma cut_lfree_ok l1 s n l2 p : lfree_ok p (l1 ++ (s, true) :: l2) ->
  lfree_ok p (l1 ++ (n, true) :: (s - n - 16, false) :: l2).
Proof.
  intros [->|[r H]].
  - left. rewrite !span_app. simpl. lia.
  - right. exists r. apply block_at_app in H. apply block_at_app.
    destruct H as [?|[[_ [=]]|H]]; [by left|]. simpl in *. right. right. right.
    replace (p - span l1 - (16 + n) - (16 + (s - n - 16))) with (p - span l1 - (16 + s)) by lia. done.
Qed.

Lemma realloc_shrink h l1 s l2 n : heap_ok h (l1 ++ (s, true) :: l2) ->
  0 < n -> n mod 8 = 0 -> n + 16 < s ->
  exists h1 h' l', split_block id (span l1) (span l1 + 16 + n) (unaccount (s - n) h) = Some h1 /\
    plug_holes (span l1 + 16 + n) h1 = Some h' /\
    resized h (l1 ++ (s, true) :: l2) (span l1) s n (span l1) h' l'.
Proof.
  intros [H Hmin Hj Hlf Hu Hmax] Hn Hn8 Hs.
  assert (H1 : heap_at (unaccount (s - n) h) (l1 ++ (s, true) :: l2)) by heap_ext H.
  destruct (split_at _ _ _ _ _ n id true H1) as (m & E1 & H2); [done|done|done|done|].
  apply joined_used in Hj as [J1 J2].
  assert (H2' : heap_at (set_headers m (unaccount (s - n) h))
                  ((l1 ++ [(n, true)]) ++ (s - n - 16, false) :: l2)) by (by rewrite <- app_assoc).
  destruct (plug_holes_at _ _ _ _ H2') as (h' & l' & E2 & [(m' & lf' & Eh & Hle) Hat' HU HL] & Hj');
    [by apply joined_used|done|].
  replace (span (l1 ++ [(n, true)])) with (span l1 + 16 + n) in E2 by (rewrite span_app; simpl; lia).
  eexists _, h', l'. split_and!; [exact E1|exact E2|].
  assert (EU : used_span l' = used_span (l1 ++ (s, true) :: l2) - (s - n)).
  { rewrite (su_span _ _ HU), !used_span_app. simpl. lia. }
  pose proof (used_span_bounds _ (ha_sizes _ _ Hat')) as Hbd.
  rewrite (ha_span _ _ Hat') in Hbd. rewrite Eh in Hbd. simpl in Hbd. pose proof (ha_base _ _ H).
  split; [split| | | | |]; try done.
  - by rewrite Eh.
  - apply HL. rewrite <- app_assoc. simpl. by apply cut_lfree_ok.
  - rewrite Eh. simpl. rewrite wrap_small; lia.
  - rewrite Eh. simpl. rewrite wrap_small; lia.
  - exists n. split; [lia|]. intros o' r. rewrite (su_used _ _ HU), <- app_assoc. simpl.
    apply cut_used; [lia|apply H].
  - by rewrite Eh.
  - by rewrite Eh.
  - by rewrite Eh.
Qed.

Lemma RT_ALIGN_idem n : RT_ALIGN (RT_ALIGN n RT_ALIGN_SIZE) RT_ALIGN_SIZE = RT_ALIGN n RT_ALIGN_SIZE.
Proof.
  pose proof (RT_ALIGN_nonneg n). pose proof (RT_ALIGN_mod n).
  rewrite (RT_ALIGN_spec (RT_ALIGN n RT_ALIGN_SIZE)) by zdiv. zdiv.
Qed.

Lemma request_aligned n : RT_ALIGN n RT_ALIGN_SIZE <= request (RT_ALIGN n RT_ALIGN_SIZE).
Proof. unfold request. rewrite RT_ALIGN_idem. lia. Qed.

(** Copying to a new block and releasing the old one. *)
Lemma realloc_move h l a s n r h1 l1 : heap_ok h l ->
  block_at l (a - heap_ptr h - 16) (s, true) -> 0 < n -> n <= request n -> malloced h l n r h1 l1 ->
  exists h' l',
    rt_free (heap_copy (r - heap_ptr h1) (a - heap_ptr h1) (if s <? n then s else n) h1) a = Some h' /\
    resized h l (a - heap_ptr h - 16) s n (r - heap_ptr h - 16) h' l'.
Proof.
  intros Hok Hb Hn Hreq [Hok1 (o & s1 & -> & Hs1 & [[r0 [Hr0 Hfree]] Bu Bs]) (Ep & Em & Eb) _].
  set (c := heap_copy _ _ _ _).
  assert (Hc : heap_ok c l1) by (by apply heap_ok_bytes).
  assert (Ha : a - heap_ptr c - 16 = a - heap_ptr h - 16) by (unfold c; simpl; lia).
  destruct (rt_free_run c l1 a s Hc) as (h' & l' & E & [Fok [Fu Fs] (Fp & Fm & Fb) _]).
  { rewrite Ha. apply Bu. by right. }
  rewrite Ha in Fu. exists h', l'. split; [done|].
  pose proof (ha_sizes _ _ (ok_at _ _ Hok)) as Hsz.
  pose proof (block_at_bounds _ _ _ Hsz Hb) as (_&_&[Hs _]&_). simpl in Hs.
  pose proof (block_at_bounds _ _ _ Hsz Hfree) as (_&_&[Hf _]&_). simpl in Hf.
  assert (Hne : o <> a - heap_ptr h - 16).
  { destruct (block_at_disjoint _ _ _ _ _ Hsz Hb Hfree) as [[_ [=]]|?]. simpl in *. lia. }
  replace (heap_ptr h + o + 16 - heap_ptr h - 16) with o by lia.
  assert (Emin : (if s <? n then s else n) = Z.min s n) by (destruct (_ <? _) eqn:El; zify_bool; lia).
  assert (Hfr : forall r, block_at l o (r, true) -> o = a - heap_ptr h - 16).
  { intros r Hr. destruct (block_at_disjoint _ _ _ _ _ Hsz Hr Hfree) as [[_ [=]]|?].
    pose proof (block_at_bounds _ _ _ Hsz Hr) as (_&_&[? _]&_). simpl in *. lia. }
  split; [done| |done|split| |].
  - exists s1. split; [lia|]. intros o' r'. rewrite Fu, Bu. naive_solver.
  - rewrite Fp. exact Ep.
  - rewrite Fm. exact Em.
  - intros i Hi. rewrite Fb. unfold c; simpl. rewrite Ep, Emin.
    rewrite (proj2 (Z.leb_le _ _)), (proj2 (Z.ltb_lt _ _)) by lia. simpl. rewrite Eb. f_equal. lia.
  - intros x (o' & r' & Ho' & Hb' & Hx). rewrite Fb. unfold c; simpl. rewrite Ep, Emin.
    pose proof (block_at_disjoint _ _ _ _ _ Hsz Hb' Hfree) as Hd. simpl in Hd.
    rewrite (proj2 (andb_false_iff _ _)); [by rewrite Eb|].
    rewrite Z.leb_gt, Z.ltb_ge. destruct Hd as [[_ [=]]|Hd]. lia.
Qed.

(** ** The heap a client sees

    A map from the addresses handed out to the contents of the blocks there.
    [models] relates it to the allocator's memory. *)
Abbreviation blocks := (gmap Z (list Z)).

Record models (h : heap) (m : blocks) (l : list block) : Prop := {
  md_ok : heap_ok h l;
  md_live : forall a cs, m !! a = Some cs -> exists s,
    block_at l (a - heap_ptr h - 16) (s, true) /\ Z.of_nat (length cs) <= s /\
    forall i c, cs !! i = Some c -> bytes h (a - heap_ptr h + Z.of_nat i) = c;
  md_used : forall o s, block_at l o (s, true) -> is_Some (m !! (heap_ptr h + o + 16))
}.

(** The client's own stores. *)
Definition heap_store (h : heap) (a v : Z) : heap :=
  set_bytes (fun x => if x =? a - heap_ptr h then v else bytes h x) h.

Inductive heap_op :=
  | op_malloc (size : Z)
  | op_calloc (count size : Z)
  | op_realloc (a size : Z)
  | op_free (a : Z)
  | op_store (a : Z) (i : nat) (v : Z).

Definition heap_exec (h : heap) (op : heap_op) : option (Z * heap) :=
  match op with
  | op_malloc size => rt_malloc h size
  | op_calloc count size => rt_calloc h count size
  | op_realloc a size => rt_realloc h a size
  | op_free a => h ← rt_free h a; Some (0, h)
  | op_store a i v => Some (0, heap_store h (a + Z.of_nat i) v)
  end.

(** What a correct client may call, given the blocks it holds.  Sizes stop
    short of the last seven, which [RT_ALIGN] wraps to zero. *)
Definition op_valid (m : blocks) (op : heap_op) : Prop :=
  match op with
  | op_malloc size => 0 <= size <= 2 ^ 32 - 8
  | op_calloc count size => 0 <= count /\ 0 <= size /\ count * size <= 2 ^ 32 - 8
  | op_realloc a size => (a = 0 \/ is_Some (m !! a)) /\ 0 <= size <= 2 ^ 32 - 8
  | op_free a => a = 0 \/ is_Some (m !! a)
  | op_store a i v => exists cs, m !! a = Some cs /\ (i < length cs)%nat
  end.

(** A new block: at an address not in use. *)
Definition new_block (m : blocks) (size r : Z) (m' : blocks) (contents : list Z -> Prop) : Prop :=
  r <> 0 /\ m !! r = None /\
  exists cs, Z.of_nat (length cs) = size /\ contents cs /\ m' = <[r := cs]> m.

(** The result and the next map; an allocation may always be refused. *)
Definition op_spec (m : blocks) (op : heap_op) (r : Z) (m' : blocks) : Prop :=
  match op with
  | op_malloc size => r = 0 /\ m' = m \/ new_block m size r m' (fun _ => True)
  | op_calloc count size =>
      r = 0 /\ m' = m \/
      new_block m (count * size) r m' (fun cs => cs = replicate (Z.to_nat (count * size)) 0)
  | op_realloc a size =>
      if size =? 0 then r = 0 /\ m' = delete a m
      else r = 0 /\ m' = m \/
        new_block (delete a m) size r m' (fun cs => forall old, m !! a = Some old ->
          forall i, (i < length cs)%nat -> (i < length old)%nat -> cs !! i = old !! i)
  | op_free a => r = 0 /\ m' = delete a m
  | op_store a i v => r = 0 /\ exists cs, m !! a = Some cs /\ m' = <[a := <[i := v]> cs]> m
  end.

(** [n] bytes from address [a]. *)
Definition read_bytes (h : heap) (a : Z) (n : nat) : list Z :=
  (fun i => bytes h (a - heap_ptr h + Z.of_nat i)) <$> seq 0 n.

Lemma read_bytes_lookup h a n i c : read_bytes h a n !! i = Some c ->
  (i < n)%nat /\ bytes h (a - heap_ptr h + Z.of_nat i) = c.
Proof.
  unfold read_bytes. rewrite list_lookup_fmap. intros H.
  destruct (seq 0 n !! i) eqn:E; [|done]. apply lookup_seq in E as [-> ?]. by inversion H.
Qed.

Lemma read_bytes_length h a n : length (read_bytes h a n) = n.
Proof. unfold read_bytes. by rewrite length_fmap, length_seq. Qed.

(** The contents of a live block, addressed by offset, lie in a used block. *)
Lemma live_in_other h m l o a cs i : models h m l -> m !! a = Some cs -> a - heap_ptr h - 16 <> o ->
  (i < length cs)%nat -> in_other l o (a - heap_ptr h + Z.of_nat i).
Proof.
  intros [_ Hl _] Ha Ho Hi. apply Hl in Ha as (s & Hb & Hlen & _).
  exists (a - heap_ptr h - 16), s. split_and!; [done|done|lia|lia].
Qed.

(** How the map follows a change of one block. *)
Lemma models_resized h m l o s n o1 h' l' cs : models h m l -> resized h l o s n o1 h' l' ->
  Z.of_nat (length cs) <= n ->
  (forall i c, cs !! i = Some c -> bytes h' (o1 + 16 + Z.of_nat i) = c) ->
  models h' (<[heap_ptr h + o1 + 16 := cs]> (delete (heap_ptr h + o + 16) m)) l'.
Proof.
  intros Hm [Hok (s' & Hs' & Hu) _ (Ep & Em) Hk Ho] Hlen Hc. split; [done| |].
  - intros a cs' Ha. rewrite Ep. apply lookup_insert_Some in Ha as [[<- <-]|[Hne Ha]].
    + exists s'. replace (heap_ptr h + o1 + 16 - heap_ptr h - 16) with o1 by lia. split_and!.
      * apply Hu. by left.
      * lia.
      * intros i c Hi. rewrite <- (Hc i c Hi). f_equal. lia.
    + apply lookup_delete_Some in Ha as [Hd Ha].
      destruct (md_live _ _ _ Hm _ _ Ha) as (r & Hb & Hlr & Hcs). exists r. split_and!; [|done|].
      * apply Hu. right. split; [lia|done].
      * intros i c Hi. rewrite Ho; [by apply Hcs|].
        eapply live_in_other; [done|done|lia|by eapply lookup_lt_Some].
  - intros o' r Hb. rewrite Ep. apply Hu in Hb as [[-> ->]|[Hne Hb]].
    + rewrite lookup_insert_eq. eauto.
    + destruct (decide (o' = o1)) as [->|Hd]; [rewrite lookup_insert_eq; eauto|].
      rewrite lookup_insert_ne, lookup_delete_ne by lia. by eapply md_used.
Qed.

Lemma request_enough size : 0 <= size <= 2 ^ 32 - 8 -> size <= request size.
Proof. intros H. unfold request. rewrite RT_ALIGN_spec by done. zdiv. Qed.

(** A new block, possibly with its contents set, in the terms of [resized]. *)
Lemma malloced_resized h l size r h' l' n b : heap_ok h l -> malloced h l size r h' l' ->
  n <= request size ->
  (forall x, ~ (r - heap_ptr h <= x < r - heap_ptr h + n) -> b x = bytes h' x) ->
  resized h l (-1) 0 n (r - heap_ptr h - 16) (set_bytes b h') l'.
Proof.
  intros Hok [Hok' (o & s & -> & Hs & [[r0 [Hr0 Hfree]] Hu _]) (Ep & Em & Eb) _] Hn Hb.
  replace (heap_ptr h + o + 16 - heap_ptr h - 16) with o by lia.
  pose proof (ha_sizes _ _ (ok_at _ _ Hok)) as Hsz. split.
  - by apply heap_ok_bytes.
  - exists s. split; [lia|]. intros o' r. rewrite Hu. split; intros [?|H]; auto; [|tauto].
    right. split; [|done]. apply block_at_bounds in H as [? _]; [lia|done].
  - intros r Hr. exfalso. destruct (block_at_disjoint _ _ _ _ _ Hsz Hr Hfree) as [[_ [=]]|?].
    pose proof (block_at_bounds _ _ _ Hsz Hr) as (_&_&[? _]&_).
    pose proof (block_at_bounds _ _ _ Hsz Hfree) as (_&_&[? _]&_). simpl in *. lia.
  - done.
  - lia.
  - intros x (o' & r & _ & Hb' & Hx). simpl.
    pose proof (block_at_disjoint _ _ _ _ _ Hsz Hb' Hfree) as Hd. simpl in Hd.
    rewrite Hb; [by rewrite Eb|]. destruct Hd as [[_ [=]]|?]. lia.
Qed.

Lemma malloced_fresh h m l size r h' l' : models h m l -> malloced h l size r h' l' ->
  m !! r = None /\ r <> 0.
Proof.
  intros Hm [Hok' (o & s & -> & _ & [[r0 [_ Hfree]] _ _]) _ _].
  pose proof (ok_at _ _ (md_ok _ _ _ Hm)) as Hat. pose proof (ha_base _ _ Hat).
  pose proof (ha_sizes _ _ Hat) as Hsz.
  split; [|apply block_at_bounds in Hfree; [lia|done]].
  apply eq_None_not_Some. intros [cs Hcs]. destruct (md_live _ _ _ Hm _ _ Hcs) as (r & Hb & _).
  replace (heap_ptr h + o + 16 - heap_ptr h - 16) with o in Hb by lia.
  pose proof (block_at_bounds _ _ _ Hsz Hb) as (_&_&[? _]&_).
  pose proof (block_at_bounds _ _ _ Hsz Hfree) as (_&_&[? _]&_). simpl in *.
  destruct (block_at_disjoint _ _ _ _ _ Hsz Hb Hfree) as [[_ [=]]|?]. simpl in *. lia.
Qed.

Lemma models_new h m l size r h' l' n b cs : models h m l -> malloced h l size r h' l' ->
  n <= request size -> Z.of_nat (length cs) <= n ->
  (forall x, ~ (r - heap_ptr h <= x < r - heap_ptr h + n) -> b x = bytes h' x) ->
  (forall i c, cs !! i = Some c -> b (r - heap_ptr h + Z.of_nat i) = c) ->
  models (set_bytes b h') (<[r := cs]> m) l'.
Proof.
  intros Hm Hmc Hn Hlen Hb Hcs.
  pose proof (models_resized _ _ _ _ _ _ _ _ _ cs Hm
                (malloced_resized _ _ _ _ _ _ _ _ (md_ok _ _ _ Hm) Hmc Hn Hb) Hlen) as H.
  replace (heap_ptr h + (r - heap_ptr h - 16) + 16) with r in H by lia.
  rewrite (delete_id m) in H.
  - apply H. intros i c Hi. simpl. rewrite <- (Hcs i c Hi). f_equal. lia.
  - apply eq_None_not_Some. intros [c Hc]. apply (md_live _ _ _ Hm) in Hc as (s & Hc & _).
    apply block_at_bounds in Hc as [? _]; [lia|]. apply (md_ok _ _ _ Hm).
Qed.

Lemma set_bytes_id h : set_bytes (bytes h) h = h.
Proof. by destruct h. Qed.

(** The steps of [op_spec] one operation at a time. *)
Definition step_ok (h : heap) (m : blocks) (op : heap_op) : Prop :=
  exists r h' m' l', heap_exec h op = Some (r, h') /\ op_spec m op r m' /\ models h' m' l'.

Lemma malloc_block h m l req size : models h m l -> 0 <= size <= request req ->
  exists r h', rt_malloc h req = Some (r, h') /\
    (r = 0 /\ h' = h \/ exists m' l', new_block m size r m' (fun _ => True) /\ models h' m' l').
Proof.
  intros Hm Hs. destruct (rt_malloc_run h l req (md_ok _ _ _ Hm))
    as (r & h' & E & [(-> & -> & _)|(_ & l' & Hmc)]); [by exists 0, h; auto|].
  destruct (malloced_fresh _ _ _ _ _ _ _ Hm Hmc) as [Hf Hr].
  set (cs := read_bytes h' r (Z.to_nat size)).
  assert (Hlen : Z.of_nat (length cs) = size) by (unfold cs; rewrite read_bytes_length; lia).
  exists r, h'. split; [done|]. right. exists (<[r := cs]> m), l'. split.
  - split_and!; [done|done|]. by exists cs.
  - rewrite <- (set_bytes_id h'). apply (models_new _ _ _ _ _ _ _ size _ _ Hm Hmc); [lia|lia|done|].
    intros i c Hi. apply read_bytes_lookup in Hi as [_ <-].
    by rewrite (proj1 (mc_same _ _ _ _ _ _ Hmc)).
Qed.

Lemma exec_malloc h m l size : models h m l -> 0 <= size <= 2 ^ 32 - 8 -> step_ok h m (op_malloc size).
Proof.
  intros Hm Hs. pose proof (request_enough size Hs).
  destruct (malloc_block h m l size size Hm) as (r & h' & E & [[-> ->]|(m' & l' & Hn & Hm')]); [lia| |].
  - exists 0, h, m, l. split_and!; [done|by left|done].
  - exists r, h', m', l'. split_and!; [done|by right|done].
Qed.

Lemma exec_calloc h m l count size : models h m l -> op_valid m (op_calloc count size) ->
  step_ok h m (op_calloc count size).
Proof.
  intros Hm (Hc & Hs & Hcs). set (n := count * size) in *. assert (0 <= n) by lia.
  unfold step_ok. simpl. unfold rt_calloc. fold n. rewrite (wrap_small 32 n) by lia.
  destruct (rt_malloc_run h l n (md_ok _ _ _ Hm)) as (r & h' & E & [(-> & -> & _)|(_ & l' & Hmc)]).
  - rewrite E. exists 0, h, m, l. split_and!; [done|by left|done].
  - destruct (malloced_fresh _ _ _ _ _ _ _ Hm Hmc) as [Hf Hr]. rewrite E. simpl.
    rewrite (proj2 (Z.eqb_neq r 0)) by done.
    eexists r, _, (<[r := replicate (Z.to_nat n) 0]> m), l'. split_and!; [done| |].
    + right. split_and!; [done|done|]. eexists. split_and!; [|done|done]. rewrite length_replicate. lia.
    + unfold heap_set. rewrite (proj1 (mc_same _ _ _ _ _ _ Hmc)).
      apply (models_new _ _ _ _ _ _ _ n _ _ Hm Hmc).
      * apply request_enough. lia.
      * rewrite length_replicate. lia.
      * intros x Hx. simpl. destruct (_ && _) eqn:Ex; [|done]. zify_bool. lia.
      * intros i c Hi. apply lookup_replicate in Hi as [-> ?]. simpl.
        rewrite (proj2 (Z.leb_le _ _)), (proj2 (Z.ltb_lt _ _)) by lia. done.
Qed.

Lemma exec_free h m l a : models h m l -> op_valid m (op_free a) ->
  exists h' l', rt_free h a = Some h' /\ models h' (delete a m) l'.
Proof.
  intros Hm [->|[cs Ha]].
  - exists h, l. split; [done|]. rewrite delete_id; [done|]. apply eq_None_not_Some. intros [c Hc].
    apply (md_live _ _ _ Hm) in Hc as (s & Hc & _). pose proof (ok_at _ _ (md_ok _ _ _ Hm)) as Hat.
    pose proof (ha_base _ _ Hat). apply block_at_bounds in Hc as [? _]; [lia|]. apply Hat.
  - destruct (md_live _ _ _ Hm _ _ Ha) as (s & Hb & _).
    destruct (rt_free_run h l a s (md_ok _ _ _ Hm) Hb) as (h' & l' & E & [Fok [Fu _] (Fp & _ & Fb) _]).
    exists h', l'. split; [done|]. split; [done| |].
    + intros a' cs' Ha'. rewrite Fp, Fb. apply lookup_delete_Some in Ha' as [Hne Ha'].
      destruct (md_live _ _ _ Hm _ _ Ha') as (s' & Hb' & ?). exists s'. split; [|done].
      apply Fu. split; [lia|done].
    + intros o r Hb'. rewrite Fp. apply Fu in Hb' as [Ho Hb'].
      rewrite lookup_delete_ne by lia. by eapply md_used.
Qed.

(** A resized block keeps the contents the client had, up to the new size. *)
Lemma models_realloc h m l a s n size r h' l' cs : models h m l -> m !! a = Some cs ->
  block_at l (a - heap_ptr h - 16) (s, true) -> Z.of_nat (length cs) <= s ->
  (forall i c, cs !! i = Some c -> bytes h (a - heap_ptr h + Z.of_nat i) = c) ->
  0 <= size <= n -> resized h l (a - heap_ptr h - 16) s n (r - heap_ptr h - 16) h' l' ->
  exists m', new_block (delete a m) size r m' (fun cs' => forall old, m !! a = Some old ->
      forall i, (i < length cs')%nat -> (i < length old)%nat -> cs' !! i = old !! i) /\
    models h' m' l'.
Proof.
  intros Hm Ha Hb Hlen Hcs Hsize Hrz. pose proof Hrz as [Hok (s' & Hs' & Hu) Hnew (Ep & Em) Hk Ho].
  set (cs' := read_bytes h' r (Z.to_nat size)).
  assert (Hl' : length cs' = Z.to_nat size) by apply read_bytes_length.
  exists (<[r := cs']> (delete a m)). split; [split_and!|].
  - assert (block_at l' (r - heap_ptr h - 16) (s', true)) as H by (apply Hu; by left).
    apply block_at_bounds in H as [? _]; [|apply Hok].
    pose proof (ha_base _ _ (ok_at _ _ (md_ok _ _ _ Hm))). lia.
  - destruct (delete a m !! r) as [c|] eqn:Hc; [|done]. exfalso.
    apply lookup_delete_Some in Hc as [Hne Hc]. destruct (md_live _ _ _ Hm _ _ Hc) as (s2 & Hb2 & _).
    apply Hnew in Hb2. lia.
  - exists cs'. split_and!; [lia| |done]. intros old Hold i Hi Hi'. rewrite Ha in Hold. injection Hold as <-.
    destruct (cs !! i) as [c|] eqn:Ec; [|apply lookup_ge_None in Ec; lia].
    destruct (lookup_lt_is_Some_2 cs' i Hi) as [c' Ec']. rewrite Ec'. f_equal.
    apply read_bytes_lookup in Ec' as [_ <-]. rewrite Ep, <- (Hcs i c Ec).
    replace (r - heap_ptr h + Z.of_nat i) with (r - heap_ptr h - 16 + 16 + Z.of_nat i) by lia.
    rewrite Hk by lia. f_equal. lia.
  - pose proof (models_resized _ _ _ _ _ _ _ _ _ cs' Hm Hrz ltac:(lia)) as H.
    replace (heap_ptr h + (r - heap_ptr h - 16) + 16) with r in H by lia.
    replace (heap_ptr h + (a - heap_ptr h - 16) + 16) with a in H by lia.
    apply H. intros i c Hi. apply read_bytes_lookup in Hi as [_ <-]. rewrite Ep. f_equal. lia.
Qed.

Lemma resized_refl h l o s : heap_ok h l -> block_at l o (s, true) -> resized h l o s s o h l.
Proof.
  intros Hok Hb. split; try done. exists s. split; [lia|]. intros o' r. split.
  - intros Hb'. destruct (decide (o' = o)) as [->|]; [left|by right]. split; [done|].
    pose proof (ha_sizes _ _ (ok_at _ _ Hok)) as Hsz.
    destruct (block_at_disjoint _ _ _ _ _ Hsz Hb Hb') as [[_ [= ->]]|Hd]; [done|].
    pose proof (block_at_bounds _ _ _ Hsz Hb) as (_&_&[? _]&_).
    pose proof (block_at_bounds _ _ _ Hsz Hb') as (_&_&[? _]&_). simpl in *. lia.
  - intros [[-> ->]|[_ ?]]; done.
Qed.

Lemma realloc_null h m l size : models h m l -> 0 < size <= request (RT_ALIGN size RT_ALIGN_SIZE) ->
  exists r h', rt_malloc h (RT_ALIGN size RT_ALIGN_SIZE) = Some (r, h') /\
    exists m' l', op_spec m (op_realloc 0 size) r m' /\ models h' m' l'.
Proof.
  intros Hm Hn. pose proof (ok_at _ _ (md_ok _ _ _ Hm)) as Hat. pose proof (ha_base _ _ Hat) as Hbase.
  assert (m !! 0 = None) as H0.
  { apply eq_None_not_Some. intros [c Hc]. apply (md_live _ _ _ Hm) in Hc as (s & Hc & _).
    apply block_at_bounds in Hc as [? _]; [lia|]. apply Hat. }
  destruct (malloc_block h m l (RT_ALIGN size RT_ALIGN_SIZE) size Hm)
    as (r & h' & E & Hr); [lia|].
  exists r, h'. split; [done|]. simpl. rewrite (proj2 (Z.eqb_neq size 0)), (delete_id m) by (lia || done).
  destruct Hr as [[-> ->]|(m' & l' & (? & ? & cs & ? & _ & ->) & Hm')].
  - exists m, l. split; [by left|done].
  - eexists _, l'. split; [|done]. right. split_and!; [done|done|]. exists cs. split_and!; [done| |done].
    intros old Hold. by rewrite H0 in Hold.
Qed.

(** [rt_realloc] of a block in use, to a size that fits the heap. *)
Lemma realloc_live h l a s n : heap_ok h l -> block_at l (a - heap_ptr h - 16) (s, true) -> a <> 0 ->
  0 < n <= mem_size_aligned h -> RT_ALIGN n RT_ALIGN_SIZE = n -> n <= request n ->
  exists r h', rt_realloc h a n = Some (r, h') /\
    (r = 0 /\ h' = h \/
     exists l', resized h l (a - heap_ptr h - 16) s n (r - heap_ptr h - 16) h' l').
Proof.
  intros Hok Hb Ha0 Hn Ea Hreq. pose proof (ok_at _ _ Hok) as Hat. pose proof (ha_base _ _ Hat) as Hbase.
  pose proof Hb as Hb'. apply block_at_split in Hb' as (l1 & l2 & El & Ho). subst l.
  pose proof (mid_bounds _ _ _ _ Hat) as B. simpl in B.
  assert (n mod 8 = 0) as Hn8 by (rewrite <- Ea; apply RT_ALIGN_mod).
  unfold rt_realloc. rewrite Ea.
  destruct (n >? _) eqn:E1; zify_bool; [lia|].
  rewrite (proj2 (Z.eqb_neq n 0)), (proj2 (Z.eqb_neq a 0)) by lia.
  replace (outside h a) with false by (rewrite <- (outside_mid _ _ _ _ Hat); f_equal; lia).
  rewrite SIZEOF_STRUCT_MEM_eq, Ho, (mid_header _ _ _ _ Hat). simpl.
  replace (span l1 + 16 + s - span l1 - 16) with s by lia. unfold MIN_SIZE. unwrap.
  destruct (s =? n) eqn:E4; zify_bool.
  { subst n. exists a, h. split; [done|]. right. exists (l1 ++ (s, true) :: l2).
    rewrite Ho in *. by apply resized_refl. }
  destruct (_ <? s) eqn:E5; zify_bool.
  - destruct (realloc_shrink h l1 s l2 n Hok) as (h1 & h' & l' & Es & Ep & Hrz); [lia|done|lia|].
    rewrite (wrap_small 32 (span l1 + 16 + n)), Es by lia. simpl. rewrite Ep. simpl.
    exists a, h'. split; [done|]. right. exists l'. by rewrite Ho.
  - destruct (rt_malloc_run h _ n Hok) as (r & h1 & E & [(-> & -> & _)|(_ & l3 & Hmc)]).
    + rewrite E. simpl. exists 0, h. auto.
    + rewrite E. simpl. destruct (mc_block _ _ _ _ _ _ Hmc) as (o & s1 & Er & _ & [(r0 & _ & Hf) _ _]).
      apply block_at_bounds in Hf as [? _]; [|apply Hat]. rewrite (proj2 (Z.eqb_neq r 0)) by lia.
      destruct (realloc_move h _ a s n r h1 l3 Hok Hb ltac:(lia) Hreq Hmc) as (h' & l' & Ef & Hrz).
      rewrite Ef. simpl. exists r, h'. split; [done|]. right. exists l'. by rewrite <- Ho.
Qed.

Lemma realloc_aligned h a size : rt_realloc h a size = rt_realloc h a (RT_ALIGN size RT_ALIGN_SIZE).
Proof. unfold rt_realloc. by rewrite RT_ALIGN_idem. Qed.

Lemma exec_realloc h m l a size : models h m l -> op_valid m (op_realloc a size) ->
  step_ok h m (op_realloc a size).
Proof.
  intros Hm [Ha Hsize]. unfold step_ok. simpl heap_exec. rewrite realloc_aligned.
  pose proof (RT_ALIGN_spec size Hsize) as Ea. pose proof (request_aligned size) as Hreq.
  pose proof (RT_ALIGN_idem size) as Hid.
  destruct (decide (size = 0)) as [->|Hs0].
  { destruct (exec_free h m l a Hm Ha) as (h' & l' & E & Hm').
    exists 0, h', (delete a m), l'. split_and!; [|done|done].
    unfold rt_realloc. rewrite Hid, Ea. change ((0 + 7) / 8 * 8) with 0.
    pose proof (ha_msa _ _ (ok_at _ _ (md_ok _ _ _ Hm))) as [? _].
    destruct (_ >? _) eqn:E1; zify_bool; [lia|]. simpl. by rewrite E. }
  simpl op_spec. rewrite (proj2 (Z.eqb_neq size 0)) by done.
  destruct (decide (mem_size_aligned h < RT_ALIGN size RT_ALIGN_SIZE)) as [Hbig|Hfit].
  { exists 0, h, m, l. split_and!; [|by left|done]. unfold rt_realloc. rewrite Hid.
    by rewrite (proj2 (Z.gtb_lt _ _) Hbig). }
  destruct (decide (a = 0)) as [->|Ha0].
  { destruct (realloc_null h m l size Hm) as (r & h' & E & m' & l' & Hspec & Hm'); [zdiv|].
    simpl in Hspec. rewrite (proj2 (Z.eqb_neq size 0)) in Hspec by done.
    exists r, h', m', l'. split_and!; [|done|done]. rewrite <- E. unfold rt_realloc. rewrite Hid.
    destruct (_ >? _) eqn:E1; zify_bool; [lia|]. by rewrite (proj2 (Z.eqb_neq _ 0)) by zdiv. }
  destruct Ha as [?|[cs Ha]]; [done|].
  destruct (md_live _ _ _ Hm _ _ Ha) as (s & Hb & Hlen & Hcs).
  assert (0 < size <= RT_ALIGN size RT_ALIGN_SIZE) as Hsz by zdiv.
  assert (0 <= size <= RT_ALIGN size RT_ALIGN_SIZE) as Hsz' by lia.
  destruct (realloc_live h l a s (RT_ALIGN size RT_ALIGN_SIZE) (md_ok _ _ _ Hm) Hb Ha0 ltac:(lia) Hid Hreq)
    as (r & h' & E & [[-> ->]|(l' & Hrz)]).
  - exists 0, h, m, l. split_and!; [done|by left|done].
  - destruct (models_realloc _ _ _ _ _ _ size _ _ _ _ Hm Ha Hb Hlen Hcs Hsz' Hrz)
      as (m' & Hnb & Hm').
    exists r, h', m', l'. split_and!; [done|by right|done].
Qed.

(** A store inside a block the client holds reaches no other block. *)
Lemma exec_store h m l a i v : models h m l -> op_valid m (op_store a i v) ->
  step_ok h m (op_store a i v).
Proof.
  intros Hm (cs & Ha & Hi). eexists 0, _, (<[a := <[i := v]> cs]> m), l. split_and!; [done|split; [done|by eauto]|].
  split; [by apply heap_ok_bytes, Hm| |].
  - intros a' cs' Ha'. apply lookup_insert_Some in Ha' as [[<- <-]|[Hne Ha']].
    + destruct (md_live _ _ _ Hm _ _ Ha) as (s & Hb & Hlen & Hcs). exists s. simpl.
      rewrite length_insert. split_and!; [done|done|]. intros j c Hj.
      rewrite lookup_insert_dec in Hj by done. case_decide as Hd.
      * subst j. rewrite (proj2 (Z.eqb_eq _ _)) by lia. by injection Hj.
      * rewrite (proj2 (Z.eqb_neq _ _)) by lia. by apply Hcs.
    + destruct (md_live _ _ _ Hm _ _ Ha') as (s & Hb & Hlen & Hcs). exists s. simpl.
      split_and!; [done|done|]. intros j c Hj.
      rewrite (proj2 (Z.eqb_neq _ _)); [by apply Hcs|].
      destruct (md_live _ _ _ Hm _ _ Ha) as (s2 & Hb2 & Hlen2 & _).
      pose proof (lookup_lt_Some _ _ _ Hj).
      destruct (block_at_disjoint _ _ _ _ _ (ha_sizes _ _ (ok_at _ _ (md_ok _ _ _ Hm))) Hb Hb2)
        as [[? _]|?]; simpl in *; lia.
  - intros o s Hb. simpl. destruct (decide (a = heap_ptr h + o + 16)) as [<-|Hne].
    + rewrite lookup_insert_eq. eauto.
    + rewrite lookup_insert_ne by done. by eapply md_used.
Qed.

Lemma exec_ok h m l op : models h m l -> op_valid m op -> step_ok h m op.
Proof.
  intros Hm Hv. destruct op.
  - by eapply exec_malloc.
  - by eapply exec_calloc.
  - by eapply exec_realloc.
  - destruct (exec_free _ _ _ _ Hm Hv) as (h' & l' & E & Hm').
    exists 0, h', (delete a m), l'. simpl. by rewrite E.
  - by eapply exec_store.
Qed.

(** The memory shows the contents of the map. *)
Definition shows (h : heap) (m : blocks) : Prop :=
  forall a cs, m !! a = Some cs -> read_bytes h a (length cs) = cs.

Lemma models_shows h m l : models h m l -> shows h m.
Proof.
  intros Hm a cs Ha. destruct (md_live _ _ _ Hm _ _ Ha) as (s & _ & _ & Hcs).
  apply list_eq. intros i. destruct (cs !! i) as [c|] eqn:Ei.
  - pose proof (lookup_lt_Some _ _ _ Ei) as Hi.
    destruct (lookup_lt_is_Some_2 (read_bytes h a (length cs)) i) as [c' Ec']; [by rewrite read_bytes_length|].
    rewrite Ec'. f_equal. apply read_bytes_lookup in Ec' as [_ <-]. by apply Hcs.
  - apply lookup_ge_None. rewrite read_bytes_length. by apply lookup_ge_None.
Qed.

Lemma new_block_det h m size r m1 m2 c1 c2 : new_block m size r m1 c1 -> new_block m size r m2 c2 ->
  shows h m1 -> shows h m2 -> m1 = m2.
Proof.
  intros (_ & _ & cs1 & L1 & _ & ->) (_ & _ & cs2 & L2 & _ & ->) S1 S2. f_equal.
  rewrite <- (S1 r cs1), <- (S2 r cs2) by apply lookup_insert_eq. f_equal. lia.
Qed.

Lemma op_spec_det h m op r m1 m2 : op_spec m op r m1 -> op_spec m op r m2 ->
  shows h m1 -> shows h m2 -> m1 = m2.
Proof.
  intros H1 H2 S1 S2. destruct op as [size|count size|a size|a|a i v]; simpl in *; [..|naive_solver].
  3: destruct (size =? 0); [by destruct H1 as [_ ->], H2 as [_ ->]|].
  4: by destruct H1 as [_ ->], H2 as [_ ->].
  all: destruct H1 as [[-> ->]|H1], H2 as [[? ->]|H2]; [done| | |by eapply new_block_det].
  all: match goal with H : new_block _ _ _ _ _ |- _ => by destruct H as [? _] end.
Qed.

(** The heaps a correct client can bring about, with the blocks it holds. *)
Inductive heap_reach : heap -> blocks -> Prop :=
  | reach_init begin_addr end_addr garbage contents h :
      0 < begin_addr <= 2 ^ 32 - 8 -> 0 <= end_addr < 2 ^ 32 ->
      rt_system_heap_init begin_addr end_addr garbage contents = Some h ->
      MIN_SIZE_ALIGNED <= mem_size_aligned h -> heap_reach h ∅
  | reach_op h m op r h' m' : heap_reach h m -> op_valid m op -> heap_exec h op = Some (r, h') ->
      op_spec m op r m' -> shows h' m' -> heap_reach h' m'.

Lemma init_ok begin_addr end_addr garbage contents h :
  0 < begin_addr <= 2 ^ 32 - 8 -> 0 <= end_addr < 2 ^ 32 ->
  rt_system_heap_init begin_addr end_addr garbage contents = Some h ->
  MIN_SIZE_ALIGNED <= mem_size_aligned h ->
  heap_ok h [(mem_size_aligned h, false)] /\ lowest (lfree h) [(mem_size_aligned h, false)].
Proof.
  intros Hb He Hi Hmin. unfold rt_system_heap_init in Hi.
  rewrite RT_ALIGN_spec, RT_ALIGN_DOWN_spec in Hi by lia. rewrite SIZEOF_STRUCT_MEM_eq in Hi.
  assert (0 < (begin_addr + 7) / 8 * 8 /\ ((begin_addr + 7) / 8 * 8) mod 8 = 0) as [B1 B2] by zdiv.
  assert (0 <= end_addr / 8 * 8 <= end_addr /\ (end_addr / 8 * 8) mod 8 = 0) as [E1 E2] by zdiv.
  set (b := (begin_addr + 7) / 8 * 8) in *. set (e := end_addr / 8 * 8) in *.
  destruct (_ && _) eqn:E; [|done]. zify_bool. rewrite (wrap_small 32 (e - 2 * 16)) in * by lia.
  rewrite (wrap_small 32 (e - b - 2 * 16)) in Hi by lia.
  rewrite (wrap_small 32 (e - b - 2 * 16 + 16)) in Hi by lia.
  injection Hi as <-. simpl in *. rewrite MIN_SIZE_ALIGNED_eq in Hmin. split.
  - split; simpl; [split; simpl|rewrite MIN_SIZE_ALIGNED_eq; lia| | | |lia].
    + lia.
    + split; [lia|zdiv].
    + split; [|done]. maps. unfold hdr; simpl. do 2 f_equal. lia.
    + lia.
    + repeat constructor; simpl; [lia|zdiv].
    + eexists. by rewrite lookup_insert_eq.
    + split; [right; auto with rtboot|done].
    + right. exists (e - b - 32). by left.
    + done.
  - intros o s [[-> _]|[]]. simpl. lia.
Qed.

Lemma init_models h : heap_ok h [(mem_size_aligned h, false)] ->
  models h ∅ [(mem_size_aligned h, false)].
Proof. intros H. split; [done|done|]. intros o s [[_ [=]]|[]]. Qed.

(** Every heap a correct client brings about satisfies the invariant. *)
Lemma reach_models h m : heap_reach h m -> exists l, models h m l.
Proof.
  induction 1 as [b e g c h Hb He Hi Hmin|h m op r h' m' _ [l Hm] Hv He Hs Hsh].
  - eexists. apply init_models. by eapply init_ok.
  - destruct (exec_ok _ _ _ _ Hm Hv) as (r1 & h1 & m1 & l1 & E1 & S1 & Hm1).
    rewrite He in E1. injection E1 as <- <-. exists l1.
    by rewrite (op_spec_det _ _ _ _ _ _ Hs S1 Hsh (models_shows _ _ _ Hm1)).
Qed.

(** ** Theorems *)

(** [rt_malloc] on a consistent heap whose [lfree] is the lowest free block
    always returns.  It refuses, and changes nothing, only when no free block
    is large enough, up to one exception: an exact fit at the very end of the
    heap.  Otherwise the result is a block of at least the size asked for,
    aligned, inside the heap and clear of every block in use; the bytes of the
    heap and the other blocks are untouched, the statistics follow, and the
    heap stays consistent with [lfree] lowest. *)
Theorem rt_malloc_correct h l size : heap_ok h l -> lowest (lfree h) l -> 0 <= size <= 2 ^ 32 - 8 ->
  exists a h' l', rt_malloc h size = Some (a, h') /\
    heap_ok h' l' /\ lowest (lfree h') l' /\ bytes h' = bytes h /\
    ((a = 0 /\ h' = h /\
      (size = 0 \/ forall o s, block_at l o (s, false) ->
         s < request size \/ s = request size /\ o + 16 + s = heap_end h)) \/
     (size <> 0 /\ exists s, size <= s /\ a mod 8 = 0 /\
        heap_ptr h + 16 <= a /\ a + s <= heap_ptr h + heap_end h /\
        (forall o r, block_at l' o (r, true) <->
           heap_ptr h + o + 16 = a /\ r = s \/ block_at l o (r, true)) /\
        (forall o r, block_at l o (r, true) ->
           a + s <= heap_ptr h + o \/ heap_ptr h + o + 16 + r <= a) /\
        used_mem h' = used_mem h + 16 + s)).
Proof.
  intros Hok Hlow Hs. pose proof (request_enough size Hs) as Hreq. pose proof (ok_at _ _ Hok) as Hat.
  pose proof (ha_sizes _ _ Hat) as Hsz. rewrite (heap_end_eq _ _ Hat).
  destruct (rt_malloc_run h l size Hok) as (a & h' & E & [(-> & -> & Hr)|(Hne & l' & Hmc)]).
  - exists 0, h, l. split_and!; try done. left. split_and!; try done.
    destruct (decide (size = 0)) as [|Hne]; [by left|right]. intros o s Hb.
    pose proof (block_at_bounds _ _ _ Hsz Hb) as (_&_&_&Hend). rewrite (ha_span _ _ Hat) in Hend.
    simpl in Hend. destruct Hr as [|[Hr|Hr]]; [done| |].
    + unfold request. pose proof (block_at_bounds _ _ _ Hsz Hb) as (?&_). left. lia.
    + specialize (Hr o s Hb (Hlow _ _ Hb)). lia.
  - destruct Hmc as [Hok' (o & s & -> & Hrs & [[r0 [Hr0 Hf]] Hu Hsp]) (Ep & Em & Eb) Hl].
    exists (heap_ptr h + o + 16), h', l'. split_and!; [done|done|auto|done|]. right. split; [done|].
    exists s. pose proof (block_at_bounds _ _ _ Hsz Hf) as (?&Ho8&[? ?]&Hend).
    rewrite (ha_span _ _ Hat) in Hend. simpl in *. destruct (ha_base _ _ Hat) as (?&?&?).
    split_and!; [lia|zdiv|lia|lia| | |].
    + intros o' r. rewrite Hu. split; (intros [[? ?]|?]; [left; split; [lia|done]|by right]).
    + intros o' r Hb. destruct (block_at_disjoint _ _ _ _ _ Hsz Hb Hf) as [[_ [=]]|Hd].
      simpl in Hd. lia.
    + rewrite (ok_used _ _ Hok'), (ok_used _ _ Hok). lia.
Qed.


Lemma all_free_one l : joined l -> (forall o s, ~ block_at l o (s, true)) -> l <> [] ->
  exists s, l = [(s, false)].
Proof.
  destruct l as [|[s u] l]; [done|]. intros [Hj _] Hu _.
  destruct u; [destruct (Hu 0 s); by left|]. destruct Hj as [|Hn]; [done|].
  destruct l as [|[s' u'] l]; [by exists s|]. exfalso. destruct u'; [|by apply (Hn s')].
  apply (Hu (16 + s) s'). simpl. right. left. split; [lia|done].
Qed.


(** A request in the last seven sizes of the 32-bit range is rounded up to
    zero, passes the test against the heap's size and is served with a block of
    sixteen bytes whenever sixteen bytes would be. *)
Theorem rt_malloc_wraps h size : 2 ^ 32 - 7 <= size < 2 ^ 32 -> 0 <= mem_size_aligned h ->
  MIN_SIZE_ALIGNED <= mem_size_aligned h ->
  rt_malloc h size = rt_malloc h MIN_SIZE_ALIGNED.
Proof.
  intros Hs H0 Hm. unfold rt_malloc. rewrite RT_ALIGN_wraps by done.
  rewrite (proj2 (Z.eqb_neq size 0)), (proj2 (Z.eqb_neq MIN_SIZE_ALIGNED 0)) by (rewrite ?MIN_SIZE_ALIGNED_eq; lia).
  change (RT_ALIGN MIN_SIZE_ALIGNED RT_ALIGN_SIZE) with MIN_SIZE_ALIGNED.
  destruct (0 >? _) eqn:E1, (MIN_SIZE_ALIGNED >? _) eqn:E2; zify_bool; try lia. done.
Qed.

(** ** Witnesses *)

(** A heap of 216 bytes, in memory that holds sevens. *)
Definition heap0 : heap :=
  {| heap_ptr := 0x1008; mem_size_aligned := 216;
     headers := <[232 := {| magic := HEAP_MAGIC; used := 1; next := 232; prev := 232 |}]>
               (<[0 := {| magic := HEAP_MAGIC; used := 0; next := 232; prev := 0 |}]> ∅);
     bytes := fun _ => 7; lfree := 0; used_mem := 0; max_mem := 0 |}.

Lemma heap0_init : rt_system_heap_init 0x1004 0x1107 ∅ (fun _ => 7) = Some heap0.
Proof. reflexivity. Qed.

Lemma heap0_ok : heap_ok heap0 [(216, false)] /\ lowest 0 [(216, false)].
Proof.
  apply (init_ok 0x1004 0x1107 ∅ (fun _ => 7) heap0); [lia|lia|apply heap0_init|by vm_compute].
Qed.

Lemma heap0_reach : heap_reach heap0 ∅.
Proof.
  apply (reach_init 0x1004 0x1107 ∅ (fun _ => 7)); [lia|lia|apply heap0_init|by vm_compute].
Qed.

Definition run0 (h : option (Z * heap)) : heap := default heap0 (snd <$> h).
Definition heap1 : heap := run0 (rt_malloc heap0 20).
Definition heap2 : heap := run0 (heap_exec heap1 (op_free 4120)).

Lemma heap1_reach : heap_reach heap1 {[ 4120 := replicate 20 7 ]}.
Proof.
  apply (reach_op heap0 ∅ (op_malloc 20) 4120).
  - apply heap0_reach.
  - simpl. lia.
  - reflexivity.
  - right. split_and!; [done|done|]. by exists (replicate 20 7).
  - intros a cs H. apply lookup_singleton_Some in H as [<- <-]. reflexivity.
Qed.

Lemma heap2_reach : heap_reach heap2 ∅.
Proof.
  apply (reach_op heap1 {[ 4120 := replicate 20 7 ]} (op_free 4120) 0).
  - apply heap1_reach.
  - right. by exists (replicate 20 7).
  - reflexivity.
  - done.
  - intros a cs H. done.
Qed.

Lemma rt_malloc_correct_witness :
  exists a h' l', rt_malloc heap0 20 = Some (a, h') /\ heap_ok h' l'.
Proof.
  destruct (rt_malloc_correct heap0 [(216, false)] 20 (proj1 heap0_ok) (proj2 heap0_ok) ltac:(lia))
    as (a & h' & l' & E & Hok & _).
  by exists a, h', l'.
Defined.



Lemma rt_malloc_wraps_witness : rt_malloc heap0 (2 ^ 32 - 1) = rt_malloc heap0 16.
Proof. apply (rt_malloc_wraps heap0 (2 ^ 32 - 1)); [lia|by vm_compute|by vm_compute]. Defined.
