(* ===== verification/Crc32.v ===== *)
(** * The checksum of images: common/libs/crc32/crc32.c

    [crc32] works on half bytes with a table of sixteen words.  The reference is
    the definition of CRC-32 one bit at a time. *)

From S2P Require Import Prelude.

Definition crc32tab : list Z :=
  [ 0x00000000; 0x1db71064; 0x3b6e20c8; 0x26d930ac; 0x76dc4190;
    0x6b6b51f4; 0x4db26158; 0x5005713c; 0xedb88320; 0xf00f9344;
    0xd6d6a3e8; 0xcb61b38c; 0x9b64c2b0; 0x86d3d2d4; 0xa00ae278;
    0xbdbdf21c ].

(** [crc32tab[crc & 0x0f] ^ (crc >> 4)]; the index is always in the table. *)
Definition crc_nibble (crc : Z) : Z :=
  Z.lxor (nth (Z.to_nat (Z.land crc 0x0f)) crc32tab 0) (Z.shiftr crc 4).

(** The body of the loop. *)
Definition crc_byte (crc b : Z) : Z :=
  let crc := Z.lxor crc b in
  let crc := crc_nibble crc in
  crc_nibble crc.

(** [data] is the [length] bytes the pointer addresses. *)
Definition crc32 (crc : Z) (data : list Z) : Z :=
  let crc := Z.lxor crc 0xffffffff in
  match data with
  | [] => 0
  | _ => Z.lxor (foldl crc_byte crc data) 0xffffffff
  end.

(** ** The reference *)

(** One bit: divide by x, reduce by the reflected polynomial. *)
Definition crc_bit (c : Z) : Z :=
  if Z.testbit c 0 then Z.lxor (Z.shiftr c 1) 0xedb88320 else Z.shiftr c 1.

Definition crc_ref_byte (c b : Z) : Z := Nat.iter 8 crc_bit (Z.lxor c b).
Definition crc32_ref (crc : Z) (data : list Z) : Z :=
  Z.lxor (foldl crc_ref_byte (Z.lxor crc 0xffffffff) data) 0xffffffff.

(** ** The table is four steps of the reference *)

Lemma crc_bit_lxor a b : crc_bit (Z.lxor a b) = Z.lxor (crc_bit a) (crc_bit b).
Proof.
  unfold crc_bit. rewrite Z.lxor_spec, Z.shiftr_lxor.
  destruct (Z.testbit a 0), (Z.testbit b 0); simpl; apply Z.bits_inj'; intros n _;
    rewrite !Z.lxor_spec; destruct (Z.testbit (Z.shiftr a 1) n), (Z.testbit (Z.shiftr b 1) n),
      (Z.testbit 0xedb88320 n); done.
Qed.

Lemma crc_bits_lxor n a b :
  Nat.iter n crc_bit (Z.lxor a b) = Z.lxor (Nat.iter n crc_bit a) (Nat.iter n crc_bit b).
Proof. induction n as [|n IH]; simpl; [done|]. by rewrite IH, crc_bit_lxor. Qed.

(** Low bits that are zero are shifted out. *)
Lemma crc_bits_shift n a : Nat.iter n crc_bit (Z.shiftl a (Z.of_nat n)) = a.
Proof.
  revert a. induction n as [|n IH]; intros a; [apply Z.shiftl_0_r|].
  rewrite Nat.iter_succ_r. unfold crc_bit at 2. rewrite Z.shiftl_spec_low by lia.
  rewrite Z.shiftr_shiftl_l by lia. replace (Z.of_nat (S n) - 1) with (Z.of_nat n) by lia. apply IH.
Qed.

Lemma split_nibble c : c = Z.lxor (Z.land c 0x0f) (Z.shiftl (Z.shiftr c 4) 4).
Proof.
  change 0x0f with (Z.ones 4). apply Z.bits_inj'. intros n Hn.
  rewrite Z.lxor_spec, Z.land_spec, Z.shiftl_spec by lia.
  destruct (decide (n < 4)).
  - rewrite Z.ones_spec_low, (Z.testbit_neg_r _ (n - 4)), xorb_false_r, andb_true_r by lia. done.
  - rewrite Z.ones_spec_high, andb_false_r, xorb_false_l, Z.shiftr_spec by lia. f_equal. lia.
Qed.

Lemma nibble_table n : 0 <= n < 16 -> nth (Z.to_nat n) crc32tab 0 = Nat.iter 4 crc_bit n.
Proof.
  intros Hn. assert (forallb (fun n => nth (Z.to_nat n) crc32tab 0 =? Nat.iter 4 crc_bit n) (seqZ 0 16) = true)
    as H by reflexivity.
  rewrite forallb_forall in H. apply Z.eqb_eq, H, list_elem_of_In, elem_of_seqZ. lia.
Qed.

Lemma crc_nibble_bits c : crc_nibble c = Nat.iter 4 crc_bit c.
Proof.
  rewrite (split_nibble c) at 2. rewrite crc_bits_lxor. unfold crc_nibble. f_equal.
  - apply nibble_table. change 0x0f with (Z.ones 4). rewrite Z.land_ones by lia. apply Z.mod_pos_bound. lia.
  - symmetry. apply (crc_bits_shift 4).
Qed.

Lemma crc_byte_ref c b : crc_byte c b = crc_ref_byte c b.
Proof. unfold crc_byte, crc_ref_byte. by rewrite !crc_nibble_bits. Qed.

Lemma crc_fold_ref data c : foldl crc_byte c data = foldl crc_ref_byte c data.
Proof. revert c. induction data as [|b data IH]; intros c; simpl; [done|]. by rewrite crc_byte_ref, IH. Qed.

(** ** Every step can be undone *)

Lemma lxor_bounds a b w : 0 <= w -> 0 <= a < 2 ^ w -> 0 <= b < 2 ^ w -> 0 <= Z.lxor a b < 2 ^ w.
Proof.
  intros Hw Ha Hb. replace (Z.lxor a b) with (Z.lxor a b mod 2 ^ w).
  { apply Z.mod_pos_bound. by apply Z.pow_pos_nonneg. }
  rewrite <- Z.land_ones by done. apply Z.bits_inj'. intros n Hn. rewrite Z.land_spec, Z.lxor_spec.
  destruct (decide (n < w)); [rewrite Z.ones_spec_low by lia; apply andb_true_r|].
  rewrite <- (Z.mod_small a (2 ^ w)), <- (Z.mod_small b (2 ^ w)) by done.
  rewrite !Z.mod_pow2_bits_high by lia. done.
Qed.

Lemma crc_bit_word c : word c -> word (crc_bit c).
Proof.
  intros Hc. unfold crc_bit, word in *. rewrite Z.shiftr_div_pow2 by lia. change (2 ^ 1) with 2.
  destruct (Z.testbit c 0); [apply lxor_bounds|]; try lia; zdiv.
Qed.

Lemma crc_bits_word n c : word c -> word (Nat.iter n crc_bit c).
Proof. intros Hc. induction n; [done|]. by apply crc_bit_word. Qed.

(** The top bit of the result is the bit that was shifted out. *)
Lemma crc_bit_top c : word c -> Z.testbit (crc_bit c) 31 = Z.testbit c 0.
Proof.
  intros Hc. assert (Z.testbit (Z.shiftr c 1) 31 = false) as Hs.
  { rewrite Z.shiftr_spec by lia. rewrite <- (Z.mod_small c (2 ^ 32)) by done.
    apply Z.mod_pow2_bits_high. lia. }
  unfold crc_bit. destruct (Z.testbit c 0); [|done]. by rewrite Z.lxor_spec, Hs.
Qed.

Lemma crc_bit_inj a b : word a -> word b -> crc_bit a = crc_bit b -> a = b.
Proof.
  intros Ha Hb H. assert (Z.testbit a 0 = Z.testbit b 0) as H0 by (by rewrite <- !crc_bit_top, H).
  assert (Z.shiftr a 1 = Z.shiftr b 1) as Hs.
  { unfold crc_bit in H. rewrite H0 in H. destruct (Z.testbit b 0); [|done].
    apply (f_equal (Z.lxor 0xedb88320)) in H.
    by rewrite !(Z.lxor_comm 0xedb88320), !Z.lxor_assoc, Z.lxor_nilpotent, !Z.lxor_0_r in H. }
  apply Z.bits_inj'. intros n Hn. destruct (decide (n = 0)) as [->|]; [done|].
  replace n with (n - 1 + 1) by lia. rewrite <- !Z.shiftr_spec by lia. by rewrite Hs.
Qed.

Lemma crc_bits_inj n a b : word a -> word b -> Nat.iter n crc_bit a = Nat.iter n crc_bit b -> a = b.
Proof.
  intros Ha Hb. induction n as [|n IH]; [done|]. intros H. apply IH.
  by apply crc_bit_inj; [apply crc_bits_word..|].
Qed.

Lemma lxor_cancel_l c a b : Z.lxor c a = Z.lxor c b -> a = b.
Proof.
  intros H. apply (f_equal (Z.lxor c)) in H. by rewrite <- !Z.lxor_assoc, Z.lxor_nilpotent, !Z.lxor_0_l in H.
Qed.

Lemma byte_word b : byte b -> word b.
Proof. unfold byte, word. lia. Qed.

Lemma crc_byte_word c b : word c -> byte b -> word (crc_byte c b).
Proof.
  intros Hc Hb. rewrite crc_byte_ref. apply crc_bits_word, lxor_bounds; [lia|done|by apply byte_word].
Qed.

(** Different states or different bytes never meet. *)
Lemma crc_byte_inj c c' b b' : word c -> word c' -> byte b -> byte b' ->
  crc_byte c b = crc_byte c' b' -> Z.lxor c b = Z.lxor c' b'.
Proof.
  rewrite !crc_byte_ref. intros Hc Hc' Hb Hb'.
  apply crc_bits_inj; apply lxor_bounds; try done; try lia; by apply byte_word.
Qed.

Lemma crc_fold_word data c : word c -> Forall byte data -> word (foldl crc_byte c data).
Proof.
  intros Hc Hd. revert c Hc. induction Hd as [|b data Hb Hd IH]; intros c Hc; [done|].
  simpl. apply IH. by apply crc_byte_word.
Qed.

Lemma crc_fold_inj data c c' : word c -> word c' -> Forall byte data ->
  foldl crc_byte c data = foldl crc_byte c' data -> c = c'.
Proof.
  intros Hc Hc' Hd. revert c c' Hc Hc'. induction Hd as [|b data Hb Hd IH]; intros c c' Hc Hc'; [done|].
  simpl. intros H. apply IH in H; [|by apply crc_byte_word..].
  apply crc_byte_inj in H; [|done..]. rewrite !(Z.lxor_comm _ b) in H. by apply lxor_cancel_l in H.
Qed.

(** ** A buffer that is not empty *)

Lemma crc32_run crc d : d <> [] -> crc32 crc d = Z.lxor (foldl crc_byte (Z.lxor crc 0xffffffff) d) 0xffffffff.
Proof. by destruct d. Qed.

Lemma crc_start_word crc : word crc -> word (Z.lxor crc 0xffffffff).
Proof. intros Hc. apply lxor_bounds; unfold word in *; lia. Qed.

Lemma crc32_word crc data : word crc -> Forall byte data -> word (crc32 crc data).
Proof.
  intros Hc Hd. destruct (decide (data = [])) as [->|Hne]; [unfold crc32, word; lia|].
  rewrite crc32_run by done. apply lxor_bounds; [lia| |lia]. by apply crc_fold_word, Hd; apply crc_start_word.
Qed.

Lemma crc32_is_ref crc data : data <> [] -> crc32 crc data = crc32_ref crc data.
Proof. intros Hne. rewrite crc32_run by done. unfold crc32_ref. by rewrite crc_fold_ref. Qed.

(** The checksum of two buffers that differ in one byte. *)
Lemma crc32_changes crc data i b : word crc -> Forall byte data -> (i < length data)%nat -> byte b ->
  data !! i <> Some b -> crc32 crc (<[i := b]> data) <> crc32 crc data.
Proof.
  intros Hc Hd Hi Hb Hib H. destruct (lookup_lt_is_Some_2 data i Hi) as [x Ex].
  apply crc_start_word in Hc.
  rewrite (insert_take_drop _ _ _ Hi) in H. rewrite <- (take_drop_middle data i x Ex) in H at 3.
  rewrite !crc32_run in H by (by destruct (take i data)). rewrite !(Z.lxor_comm _ 0xffffffff) in H.
  apply lxor_cancel_l in H. rewrite !foldl_app in H. simpl in H.
  assert (Hxb : byte x) by (by eapply Forall_lookup_1).
  assert (Ht : word (foldl crc_byte (Z.lxor 0xffffffff crc) (take i data))).
  { rewrite Z.lxor_comm. by apply crc_fold_word, Forall_take. }
  apply crc_fold_inj in H; [|by apply crc_byte_word..|by apply Forall_drop].
  apply crc_byte_inj in H; [|done..]. apply lxor_cancel_l in H. by subst.
Qed.

(** ** Theorem *)

(** C30: On a nonempty buffer [crc32] is the bit-serial CRC-32; it can be
    computed in pieces, each continuing from the checksum of the one before; and
    it changes whenever a single byte of the data does. *)
Theorem crc32_correct crc data : word crc -> data <> [] -> Forall byte data ->
  crc32 crc data = crc32_ref crc data /\
  word (crc32 crc data) /\
  (forall more, more <> [] -> crc32 (crc32 crc data) more = crc32 crc (data ++ more)) /\
  (forall i b, (i < length data)%nat -> byte b -> data !! i <> Some b ->
     crc32 crc (<[i := b]> data) <> crc32 crc data).
Proof.
  intros Hc Hne Hd. split_and!.
  - by apply crc32_is_ref.
  - by apply crc32_word.
  - intros more Hm. rewrite (crc32_run _ (data ++ more)), (crc32_run _ data), crc32_run by (by try destruct data).
    by rewrite foldl_app, Z.lxor_assoc, Z.lxor_nilpotent, Z.lxor_0_r.
  - intros i b. by apply crc32_changes.
Qed.

(** The published check value of CRC-32: the digits from one to nine. *)
Lemma crc32_correct_witness :
  crc32 0 (seqZ 0x31 9) = 0xcbf43926 /\ crc32_ref 0 (seqZ 0x31 9) = 0xcbf43926.
Proof.
  destruct (crc32_correct 0 (seqZ 0x31 9)) as [E _].
  - unfold word. lia.
  - done.
  - repeat constructor; unfold byte; simpl; lia.
  - rewrite <- E. split; reflexivity.
Defined.
