(* ===== verification/Reloc.v ===== *)
(** * Relocation: tools/mips-relocs.c and arch/mips/relocation/relocation.c

    The boot code is linked for the flash and copied to RAM.  At build time
    mips-relocs turns the relocation entries of the ELF file into a compact
    table of base-128 numbers; at boot [arch_table_relocation] walks the table
    and adds the displacement to each word it names.  The 32-bit path of the
    tool is modelled, from the entries to the bytes of the table. *)

From stdpp Require Import sorting.
From S2P Require Import Prelude.

Definition R_MIPS_NONE : Z := 0.
Definition R_MIPS_32 : Z := 2.

(** ** The tool *)

Record mips_reloc := { type : Z; offset : Z }.

(** Only absolute 32-bit words are kept; the array grows as it needs. *)
Definition add_reloc (relocs : list mips_reloc) (t off : Z) : list mips_reloc :=
  if t =? R_MIPS_32 then relocs ++ [{| type := u8 t; offset := off |}] else relocs.

(** An [Elf32_Rel] in host byte order. *)
Record Elf32_Rel := { r_offset : Z; r_info : Z }.
Definition ELF32_R_TYPE (i : Z) : Z := Z.land i 0xff.

Definition parse_mips32_rel (text_base : Z) (relocs : list mips_reloc) (rel : Elf32_Rel)
  : list mips_reloc :=
  add_reloc relocs (ELF32_R_TYPE (r_info rel)) (u32 (r_offset rel - text_base)).

(** [do ... while (val)]; ten turns for a 64-bit number. *)
Fixpoint output_uint_loop (fuel : nat) (val : Z) : option (list Z) :=
  match fuel with
  | O => None
  | S fuel =>
      let tmp := Z.land val 0x7f in
      let val := Z.shiftr val 7 in
      let tmp := u8 (Z.lor tmp (Z.shiftl (if val =? 0 then 0 else 1) 7)) in
      if val =? 0 then Some [tmp] else l ← output_uint_loop fuel val; Some (tmp :: l)
  end.
Definition output_uint (val : Z) : option (list Z) := output_uint_loop 10 val.

(** The 64-bit difference, cut to an [int]. *)
Definition compare_relocs (a b : mips_reloc) : Z := i32 (offset a - offset b).

Definition set_offset (o : Z) (r : mips_reloc) : mips_reloc := {| type := type r; offset := o |}.

(** [for (i = n - 1; i > 0; i--)], in place. *)
Fixpoint make_relative (i : nat) (relocs : list mips_reloc) : option (list mips_reloc) :=
  match i with
  | O => Some relocs
  | S j =>
      r ← relocs !! i;
      p ← relocs !! j;
      make_relative j (<[i := set_offset (wrap 64 (offset r - offset p)) r]> relocs)
  end.

Fixpoint write_relocs (relocs : list mips_reloc) : option (list Z) :=
  match relocs with
  | [] => output_uint R_MIPS_NONE
  | r :: relocs =>
      t ← output_uint (type r);
      o ← output_uint (Z.shiftr (offset r) 2);
      l ← write_relocs relocs;
      Some (t ++ o ++ l)
  end.

Section tool.
(** [qsort] of the C library. *)
Variable qsort : (mips_reloc -> mips_reloc -> Z) -> list mips_reloc -> list mips_reloc.

(** The contents of the section for the given entries.  With no relocation at
    all the index of the loop starts from minus one, outside the array. *)
Definition mips_relocs (text_base : Z) (rels : list Elf32_Rel) : option (list Z) :=
  let relocs := foldl (parse_mips32_rel text_base) [] rels in
  let relocs := qsort compare_relocs relocs in
  match length relocs with
  | O => None
  | S i => relocs ← make_relative i relocs; write_relocs relocs
  end.
End tool.

(** ** The boot code *)

(** RAM as 32-bit words by address. *)
Abbreviation memory := (gmap Z Z).

Fixpoint read_uint_loop (buf : list Z) (val shift : Z) : option (Z * list Z) :=
  match buf with
  | [] => None
  | new :: buf =>
      let val := Z.lor val (u32 (Z.shiftl (Z.land new 0x7f) shift)) in
      if Z.land new 0x80 =? 0 then Some (val, buf) else read_uint_loop buf val (shift + 7)
  end.
Definition read_uint (buf : list Z) : option (Z * list Z) := read_uint_loop buf 0 0.

Definition apply_reloc (t addr off : Z) (m : memory) : option memory :=
  if t =? R_MIPS_32 then v ← m !! addr; Some (<[addr := u32 (v + off)]> m) else Some m.

Fixpoint table_loop (fuel : nat) (buf : list Z) (addr off : Z) (m : memory) : option memory :=
  match fuel with
  | O => None
  | S fuel =>
      '(t, buf) ← read_uint buf;
      if t =? R_MIPS_NONE then Some m else
      '(d, buf) ← read_uint buf;
      let addr := u32 (addr + u32 (Z.shiftl d 2)) in
      m ← apply_reloc t addr off m;
      table_loop fuel buf addr off m
  end.

(** Each turn reads at least one byte of the table. *)
Definition arch_table_relocation (table : list Z) (relocation_base relocation_offset : Z)
  (m : memory) : option memory :=
  table_loop (S (length table)) table relocation_base relocation_offset m.

(** The entries of the global offset table from index 2 on, null ones aside. *)
Fixpoint got_loop (n : nat) (got i off : Z) (m : memory) : option memory :=
  match n with
  | O => Some m
  | S n =>
      v ← m !! (got + 4 * i);
      got_loop n got (i + 1) off (if v =? 0 then m else <[got + 4 * i := u32 (v + off)]> m)
  end.
Definition arch_got_relocation (new_gp got_entries_numbers relocation_offset : Z) (m : memory)
  : option memory :=
  got_loop (Z.to_nat (got_entries_numbers - 2)) new_gp 2 relocation_offset m.

(** ** Numbers in base 128 *)

Lemma continuation_bit n : 0 <= n < 256 -> (Z.land n 0x80 =? 0) = (n <? 128).
Proof.
  intros Hn. apply Bool.eqb_prop.
  by apply (all_bytes (fun n => Bool.eqb (Z.land n 0x80 =? 0) (n <? 128))).
Qed.

Lemma low_bits v : Z.land v 0x7f = v mod 128.
Proof. change 0x7f with (Z.ones 7). by rewrite Z.land_ones by lia. Qed.

(** One byte of the output: seven bits and the continuation flag. *)
Lemma output_byte v : 0 <= v ->
  u8 (Z.lor (Z.land v 0x7f) (Z.shiftl (if Z.shiftr v 7 =? 0 then 0 else 1) 7)) =
  v mod 128 + (if v <? 128 then 0 else 128).
Proof.
  intros Hv. rewrite low_bits, Z.shiftr_div_pow2, Z.shiftl_mul_pow2, lor_add by (lia || zdiv).
  change (2 ^ 7) with 128.
  replace (v / 128 =? 0) with (v <? 128).
  2:{ apply eq_true_iff_eq. rewrite Z.ltb_lt, Z.eqb_eq. zdiv. }
  destruct (v <? 128); apply wrap_small; zdiv.
Qed.

(** What [output_uint] writes, [read_uint] reads. *)
Lemma read_output fuel v l acc shift rest : 0 <= v < 128 ^ Z.of_nat fuel -> 0 <= shift ->
  0 <= acc < 2 ^ shift -> v * 2 ^ shift < 2 ^ 32 -> output_uint_loop fuel v = Some l ->
  read_uint_loop (l ++ rest) acc shift = Some (acc + v * 2 ^ shift, rest).
Proof.
  revert v l acc shift. induction fuel as [|fuel IH]; intros v l acc shift Hv Hs Ha Hlt Ho; [done|].
  cbn [output_uint_loop] in Ho. rewrite output_byte in Ho by lia.
  rewrite Z.shiftr_div_pow2 in Ho by lia. change (2 ^ 7) with 128 in Ho.
  set (b := v mod 128 + (if v <? 128 then 0 else 128)) in *.
  assert (Hb : 0 <= b < 256) by (unfold b; destruct (v <? 128); zdiv).
  assert (Hlow : Z.land b 0x7f = v mod 128) by (rewrite low_bits; unfold b; destruct (v <? 128); zdiv).
  assert (Hcont : (b <? 128) = (v <? 128)).
  { unfold b. apply eq_true_iff_eq. rewrite !Z.ltb_lt. destruct (v <? 128) eqn:E; zify_bool; zdiv. }
  assert (Hpow : 0 < 2 ^ shift) by (apply Z.pow_pos_nonneg; lia).
  assert (Hread : forall l', read_uint_loop (b :: l') acc shift =
    if v <? 128 then Some (acc + v mod 128 * 2 ^ shift, l')
    else read_uint_loop l' (acc + v mod 128 * 2 ^ shift) (shift + 7)).
  { intros l'. cbn [read_uint_loop]. rewrite continuation_bit, Hcont, Hlow, Z.shiftl_mul_pow2 by lia.
    assert (v mod 128 <= v) by (apply Z.mod_le; lia). pose proof (Z.mod_pos_bound v 128 ltac:(lia)).
    rewrite wrap_small, lor_add by nia. done. }
  destruct (v / 128 =? 0) eqn:E; zify_bool.
  - injection Ho as <-. cbn [app]. rewrite Hread. rewrite (proj2 (Z.ltb_lt v 128)) by zdiv.
    by rewrite Z.mod_small by zdiv.
  - destruct (output_uint_loop fuel (v / 128)) as [l'|] eqn:El; [|done]. injection Ho as <-.
    cbn [app]. rewrite Hread, (proj2 (Z.ltb_ge v 128)) by zdiv.
    assert (E7 : 2 ^ (shift + 7) = 128 * 2 ^ shift) by (rewrite Z.pow_add_r by lia; lia).
    assert (Hdm : v = 128 * (v / 128) + v mod 128) by (apply Z.div_mod; lia).
    pose proof (Z.mod_pos_bound v 128 ltac:(lia)).
    rewrite (IH (v / 128) l'); [|split; [zdiv|]|lia|rewrite E7; nia|rewrite E7; nia|done].
    + do 2 f_equal. rewrite E7. nia.
    + rewrite Nat2Z.inj_succ, Z.pow_succ_r in Hv by lia. apply Z.div_lt_upper_bound; lia.
Qed.

Lemma output_step fuel v : output_uint_loop (S fuel) v =
  let b := u8 (Z.lor (Z.land v 0x7f) (Z.shiftl (if Z.shiftr v 7 =? 0 then 0 else 1) 7)) in
  if Z.shiftr v 7 =? 0 then Some [b] else l ← output_uint_loop fuel (Z.shiftr v 7); Some (b :: l).
Proof. done. Qed.

Lemma output_total fuel v : 0 <= v < 128 ^ Z.of_nat (S fuel) -> is_Some (output_uint_loop (S fuel) v).
Proof.
  revert v. induction fuel as [|fuel IH]; intros v Hv; rewrite output_step; cbv zeta;
    rewrite Z.shiftr_div_pow2 by lia; change (2 ^ 7) with 128.
  - change (128 ^ Z.of_nat 1) with 128 in Hv. rewrite (proj2 (Z.eqb_eq (v / 128) 0)) by zdiv. eauto.
  - destruct (v / 128 =? 0) eqn:E; [eauto|]. destruct (IH (v / 128)) as [l Hl]; [|by rewrite Hl; eauto].
    rewrite (Nat2Z.inj_succ (S fuel)), Z.pow_succ_r in Hv by lia.
    split; [zdiv|]. apply Z.div_lt_upper_bound; lia.
Qed.

Lemma read_uint_output v l rest : 0 <= v < 2 ^ 32 -> output_uint v = Some l ->
  read_uint (l ++ rest) = Some (v, rest).
Proof.
  intros Hv Hl. unfold read_uint. rewrite (read_output 10 v l 0 0 rest); [|lia|lia|simpl; lia|simpl; lia|done].
  do 2 f_equal. simpl. lia.
Qed.

Lemma output_uint_total v : 0 <= v < 2 ^ 32 -> exists l, output_uint v = Some l /\ (0 < length l)%nat.
Proof.
  intros Hv. destruct (output_total 9 v) as [l Hl]; [simpl; lia|]. exists l. split; [done|].
  destruct l; [|simpl; lia]. pose proof (read_uint_output v [] [] Hv Hl). done.
Qed.

(** ** Offsets relative to the one before *)

Fixpoint deltas (p : Z) (l : list mips_reloc) : list mips_reloc :=
  match l with
  | [] => []
  | r :: l => set_offset (wrap 64 (offset r - p)) r :: deltas (offset r) l
  end.

Lemma deltas_snoc p l r : deltas p (l ++ [r]) =
  deltas p l ++ [set_offset (wrap 64 (offset r - default p (offset <$> last l))) r].
Proof.
  revert p. induction l as [|r' l IH]; intros p; [done|]. simpl. f_equal. rewrite IH. do 3 f_equal.
  rewrite last_cons. by destruct (last l).
Qed.

Lemma make_relative_spec i l r0 : l !! 0%nat = Some r0 -> 0 <= offset r0 < 2 ^ 64 -> (i < length l)%nat ->
  make_relative i l = Some (deltas 0 (take (S i) l) ++ drop (S i) l).
Proof.
  revert l. induction i as [|i IH]; intros l H0 Hr Hi.
  - destruct l as [|r l]; [done|]. injection H0 as ->. simpl. rewrite Z.sub_0_r, wrap_small by done.
    by destruct r0.
  - cbn [make_relative]. destruct (lookup_lt_is_Some_2 l (S i) Hi) as [r Er].
    destruct (lookup_lt_is_Some_2 l i) as [p Ep]; [lia|]. rewrite Er, Ep. simpl mbind.
    rewrite IH; [|by rewrite list_lookup_insert_ne|done|rewrite length_insert; lia].
    rewrite take_insert_ge, drop_insert_ge, Nat.sub_diag by lia.
    rewrite (take_S_r l (S i) r Er), deltas_snoc, <- app_assoc. do 2 f_equal.
    by rewrite (take_S_r l i p Ep), last_snoc, (drop_S l r (S i) Er).
Qed.

(** ** Walking the table *)

(** Each named word moved by [off], once per relocation. *)
Fixpoint relocated (base off : Z) (l : list mips_reloc) (m : memory) : memory :=
  match l with
  | [] => m
  | r :: l => relocated base off l (alter (fun v => u32 (v + off)) (base + offset r) m)
  end.

(** A word-aligned relocation behind offset [p], whose target is mapped. *)
Definition reloc_ok (base p : Z) (m : memory) (r : mips_reloc) : Prop :=
  type r = R_MIPS_32 /\ p <= offset r /\ base + offset r < 2 ^ 32 /\ offset r mod 4 = 0 /\
  is_Some (m !! (base + offset r)).

Lemma apply_reloc_alter r base off (m : memory) : type r = R_MIPS_32 ->
  is_Some (m !! (base + offset r)) ->
  apply_reloc (type r) (base + offset r) off m =
  Some (alter (fun v => u32 (v + off)) (base + offset r) m).
Proof.
  intros -> [v Hv]. unfold apply_reloc. simpl. rewrite Hv. simpl. f_equal.
  apply map_eq. intros i. rewrite lookup_insert, lookup_alter. case_decide; [|done]. subst. by rewrite Hv.
Qed.

(** The ordering of the offsets, each at least the one before. *)
Fixpoint ascending (p : Z) (l : list mips_reloc) : Prop :=
  match l with [] => True | r :: l => p <= offset r /\ ascending (offset r) l end.

Lemma table_walk l base p off m rest : 0 <= base -> 0 <= p -> p mod 4 = 0 -> ascending p l ->
  Forall (reloc_ok base 0 m) l ->
  exists table, write_relocs (deltas p l) = Some table /\
    forall fuel, (length table < fuel)%nat ->
      table_loop fuel (table ++ rest) (base + p) off m = Some (relocated base off l m).
Proof.
  intros Hb. revert p m. induction l as [|r l IH]; intros p m Hp Hp4 Ha Hl.
  - exists [0]. split; [done|]. by intros [|fuel] Hf; [simpl in Hf; lia|].
  - destruct Ha as [Hpr Ha]. apply Forall_cons in Hl as [(Ht & _ & Hr & H4 & Hm) Hl].
    destruct (IH (offset r) (alter (fun v => u32 (v + off)) (base + offset r) m)) as (tb & Etb & Hwalk);
      [lia|done|done| |].
    { eapply Forall_impl; [exact Hl|]. intros r' (?&?&?&?&Hm'). split_and!; try done.
      rewrite lookup_alter. case_decide; [|done]. by apply fmap_is_Some. }
    set (d := offset r - p).
    assert (Hd : 0 <= Z.shiftr d 2 < 2 ^ 32) by (rewrite Z.shiftr_div_pow2 by lia; change (2 ^ 2) with 4; zdiv).
    destruct (output_uint_total (Z.shiftr d 2) Hd) as (lo & Elo & Hlo).
    exists ([2] ++ lo ++ tb). simpl deltas. cbn [write_relocs set_offset type offset].
    rewrite (wrap_small 64 (offset r - p)) by lia. fold d. rewrite Ht, Elo, Etb. split; [done|].
    intros [|fuel] Hf; [lia|]. rewrite !length_app in Hf. simpl in Hf.
    rewrite <- !app_assoc. cbn [table_loop].
    rewrite (read_uint_output 2 [2] (lo ++ tb ++ rest)) by (lia || done). simpl mbind.
    rewrite (read_uint_output _ _ (tb ++ rest) Hd Elo). simpl mbind.
    replace (u32 (Z.shiftl (Z.shiftr d 2) 2)) with d.
    2:{ rewrite Z.shiftr_div_pow2, Z.shiftl_mul_pow2 by lia. change (2 ^ 2) with 4.
        rewrite wrap_small; unfold d; zdiv. }
    rewrite (wrap_small 32 (base + p + d)) by (unfold d; lia).
    replace (base + p + d) with (base + offset r) by (unfold d; lia).
    pose proof (apply_reloc_alter r base off m Ht Hm) as E. rewrite Ht in E.
    change R_MIPS_32 with 2 in E. rewrite E. apply Hwalk. lia.
Qed.

Lemma relocated_lookup base off l (m : memory) a :
  map_Forall (fun _ v => 0 <= v < 2 ^ 32) m ->
  relocated base off l m !! a =
  (fun v => u32 (v + off * Z.of_nat (length (filter (fun r => base + offset r = a) l)))) <$> m !! a.
Proof.
  revert m. induction l as [|r l IH]; intros m Hm; simpl.
  - destruct (m !! a) as [v|] eqn:E; [|done]. simpl. f_equal.
    rewrite Z.mul_0_r, Z.add_0_r, wrap_small; [done|]. by apply (Hm a).
  - rewrite IH.
    2:{ intros b v Hv. apply lookup_alter_Some in Hv as [(_ & w & _ & ->)|[_ Hv]]; [|by apply (Hm b)].
        by apply wrap_bounds. }
    rewrite lookup_alter, filter_cons. case_decide as Hd.
    + rewrite Hd. destruct (m !! a) as [v|]; [|done]. simpl. f_equal.
      unfold wrap. rewrite Zplus_mod_idemp_l. f_equal. lia.
    + done.
Qed.

(** The entries the tool keeps. *)
Definition kept (rel : Elf32_Rel) : Prop := ELF32_R_TYPE (r_info rel) = R_MIPS_32.
#[export] Instance kept_dec rel : Decision (kept rel).
Proof. unfold kept. apply _. Defined.

Definition entry_reloc (text_base : Z) (rel : Elf32_Rel) : mips_reloc :=
  {| type := R_MIPS_32; offset := u32 (r_offset rel - text_base) |}.

Lemma parse_entries text_base rels acc :
  foldl (parse_mips32_rel text_base) acc rels =
  acc ++ (entry_reloc text_base <$> filter kept rels).
Proof.
  revert acc. induction rels as [|rel rels IH]; intros acc; simpl; [by rewrite app_nil_r|].
  rewrite IH, filter_cons. unfold parse_mips32_rel at 1, add_reloc. unfold kept at 2.
  destruct (_ =? _) eqn:E; zify_bool.
  - rewrite decide_True by done. rewrite E, <- app_assoc. done.
  - by rewrite decide_False by done.
Qed.

Lemma sorted_ascending l p : Forall (fun r => p <= offset r < 2 ^ 31) l -> 0 <= p ->
  Sorted (fun a b => compare_relocs a b <= 0) l -> ascending p l.
Proof.
  intros Hl Hp Hs. revert p Hl Hp. induction Hs as [|r l Hs IH Hhd]; intros p Hl Hp; [done|].
  apply Forall_cons in Hl as [Hr Hl]. split; [lia|].
  destruct l as [|r' l]; [done|]. inversion Hhd as [|? ? Hle]; subst.
  pose proof Hl as Hl'. apply Forall_cons in Hl' as [Hr' _].
  unfold compare_relocs in Hle. rewrite swrap_small in Hle by (simpl in *; lia).
  destruct (IH p Hl Hp) as [_ Ha]. split; [lia|done].
Qed.

(** What the C library promises of [qsort] for a comparison that orders the
    elements of the array. *)
Definition qsort_ok (qsort : (mips_reloc -> mips_reloc -> Z) -> list mips_reloc -> list mips_reloc) : Prop :=
  forall cmp l, qsort cmp l ≡ₚ l /\
    ((forall a b, a ∈ l -> b ∈ l -> cmp a b <= 0 \/ cmp b a <= 0) ->
     (forall a b c, a ∈ l -> b ∈ l -> c ∈ l -> cmp a b <= 0 -> cmp b c <= 0 -> cmp a c <= 0) ->
     Sorted (fun a b => cmp a b <= 0) (qsort cmp l)).

(** An entry the boot code can apply: a mapped word at an aligned offset in the
    first two gigabytes of the image. *)
Definition entry_ok (text_base base : Z) (m : memory) (rel : Elf32_Rel) : Prop :=
  0 <= r_offset rel - text_base < 2 ^ 31 /\ (r_offset rel - text_base) mod 4 = 0 /\
  base + (r_offset rel - text_base) < 2 ^ 32 /\ is_Some (m !! (base + (r_offset rel - text_base))).

(** C28: The table mips-relocs writes makes the boot code relocate exactly the
    words the ELF file lists: for any entries in any order (other types are
    dropped), and whatever follows the table in memory, [arch_table_relocation]
    ends and has added the displacement to the word at the target of each
    absolute entry, once per entry, and changed nothing else. *)
Theorem reloc_table_roundtrip qsort text_base base off rels (m : memory) :
  qsort_ok qsort -> 0 <= base -> filter kept rels <> [] ->
  Forall (entry_ok text_base base m) (filter kept rels) ->
  map_Forall (fun _ v => 0 <= v < 2 ^ 32) m ->
  exists table, mips_relocs qsort text_base rels = Some table /\
    forall rest, exists m', arch_table_relocation (table ++ rest) base off m = Some m' /\
      forall a, m' !! a = (fun v => u32 (v + off * Z.of_nat
        (length (filter (fun rel => base + (r_offset rel - text_base) = a) (filter kept rels))))) <$> m !! a.
Proof.
  intros Hq Hb Hne Hok Hm. unfold mips_relocs. rewrite parse_entries. simpl app.
  set (es := filter kept rels) in *. set (rs := entry_reloc text_base <$> es).
  destruct (Hq compare_relocs rs) as [Hperm Hsort]. set (l := qsort compare_relocs rs) in *.
  assert (Hoff : forall rel, rel ∈ es -> offset (entry_reloc text_base rel) = r_offset rel - text_base /\
            entry_ok text_base base m rel).
  { intros rel Hrel. rewrite Forall_forall in Hok. specialize (Hok rel Hrel).
    split; [|done]. destruct Hok as [? _]. simpl. apply wrap_small. lia. }
  assert (Hl : Forall (reloc_ok base 0 m) l /\ Forall (fun r => 0 <= offset r < 2 ^ 31) l).
  { split; apply Forall_forall; intros r Hr; rewrite Hperm in Hr;
      apply list_elem_of_fmap in Hr as (rel & -> & Hrel); destruct (Hoff rel Hrel) as [E (?&?&?&?)];
      unfold reloc_ok; rewrite E; [split_and!; done || lia|done]. }
  destruct Hl as [Hl Hr].
  assert (Hasc : ascending 0 l).
  { apply sorted_ascending; [done|lia|]. 
    assert (Hc : forall a b, a ∈ rs -> b ∈ rs -> compare_relocs a b = offset a - offset b).
    { intros a b Ha Hb'. rewrite <- Hperm in Ha, Hb'. rewrite Forall_forall in Hr.
      pose proof (Hr a Ha). pose proof (Hr b Hb'). unfold compare_relocs. apply swrap_small; simpl; lia. }
    apply Hsort.
    - intros a b Ha Hb'. rewrite !Hc by done. lia.
    - intros a b c Ha Hb' Hc'. rewrite !Hc by done. lia. }
  destruct (table_walk l base 0 off m [] Hb) as (table & Et & _); [lia|done|done|done|].
  exists table. split.
  - destruct l as [|r l'] eqn:El.
    { apply Permutation_nil_l in Hperm. unfold rs in Hperm. by destruct es. }
    simpl length. apply Forall_cons in Hr as [Hr _].
    rewrite (make_relative_spec (length l') (r :: l') r) by (done || simpl; lia). simpl mbind.
    rewrite take_ge, drop_ge, app_nil_r by (simpl; lia). exact Et.
  - intros rest. exists (relocated base off l m). split.
    + destruct (table_walk l base 0 off m rest Hb) as (table' & Et' & Hwalk); [lia|done|done|done|].
      rewrite Et in Et'. injection Et' as <-. unfold arch_table_relocation.
      rewrite <- (Hwalk (S (length (table ++ rest)))); [f_equal; lia|rewrite length_app; lia].
    + intros a. rewrite relocated_lookup by done.
      replace (length (filter (fun r => base + offset r = a) l))
        with (length (filter (fun rel => base + (r_offset rel - text_base) = a) es)); [done|].
      rewrite Hperm. unfold rs. clear -Hoff. induction es as [|rel es IH]; [done|].
      simpl. rewrite !filter_cons. destruct (Hoff rel) as [E _]; [by left|]. rewrite E.
      assert (IH' := IH (fun r Hr => Hoff r (list_elem_of_further _ _ _ Hr))).
      case_decide; simpl; by rewrite IH'.
Qed.

(** ** Witness: insertion sort for [qsort], three entries of which one is dropped *)

Fixpoint sort_insert (cmp : mips_reloc -> mips_reloc -> Z) (x : mips_reloc) (l : list mips_reloc)
  : list mips_reloc :=
  match l with
  | [] => [x]
  | y :: l => if cmp x y <=? 0 then x :: y :: l else y :: sort_insert cmp x l
  end.
Definition insertion_sort (cmp : mips_reloc -> mips_reloc -> Z) (l : list mips_reloc) : list mips_reloc :=
  foldr (sort_insert cmp) [] l.

Lemma sort_insert_perm cmp x l : sort_insert cmp x l ≡ₚ x :: l.
Proof.
  induction l as [|y l IH]; simpl; [done|]. destruct (_ <=? _); [done|]. rewrite IH. apply Permutation_swap.
Qed.

Lemma insertion_sort_perm cmp l : insertion_sort cmp l ≡ₚ l.
Proof. induction l as [|x l IH]; simpl; [done|]. by rewrite sort_insert_perm, IH. Qed.

Lemma sort_insert_sorted cmp x l : (forall y, y ∈ l -> cmp x y <= 0 \/ cmp y x <= 0) ->
  Sorted (fun a b => cmp a b <= 0) l -> Sorted (fun a b => cmp a b <= 0) (sort_insert cmp x l).
Proof.
  intros Ht Hs. induction Hs as [|y l Hs IH Hd]; simpl; [repeat constructor|].
  destruct (_ <=? _) eqn:E; zify_bool.
  - repeat constructor; done.
  - constructor; [apply IH; intros z Hz; apply Ht; by right|].
    assert (cmp y x <= 0) by (destruct (Ht y); [by left|lia|done]).
    destruct l as [|z l]; simpl; [by constructor|]. destruct (_ <=? _); [by constructor|].
    inversion Hd; subst. by constructor.
Qed.

Lemma insertion_sort_ok : qsort_ok insertion_sort.
Proof.
  intros cmp l. split; [apply insertion_sort_perm|]. intros Ht _. induction l as [|x l IH]; simpl; [done|].
  apply sort_insert_sorted.
  - intros y Hy. rewrite insertion_sort_perm in Hy. apply Ht; [by left|by right].
  - apply IH. intros a b Ha Hb. apply Ht; by right.
Qed.

Definition demo_rels : list Elf32_Rel :=
  [ {| r_offset := 0x9F000104; r_info := 0x302 |}; {| r_offset := 0x9F000010; r_info := 0x105 |};
    {| r_offset := 0x9F000008; r_info := 0x202 |} ].
Definition demo_mem : memory :=
  {[ 0x80100008 := 0x9F000400; 0x80100010 := 0x3C1C9F00; 0x80100104 := 0x9F000020 ]}.

Lemma demo_mem_words : map_Forall (fun _ v => 0 <= v < 2 ^ 32) demo_mem.
Proof. repeat (apply map_Forall_insert_2; [lia|]). apply map_Forall_empty. Qed.

Lemma reloc_table_roundtrip_witness :
  exists table m', mips_relocs insertion_sort 0x9F000000 demo_rels = Some table /\
    arch_table_relocation (table ++ []) 0x80100000 (0x80100000 - 0x9F000000) demo_mem = Some m' /\
    m' !! 0x80100008 = Some 0x80100400.
Proof.
  destruct (reloc_table_roundtrip insertion_sort 0x9F000000 0x80100000 (0x80100000 - 0x9F000000)
              demo_rels demo_mem) as (table & Et & H).
  - apply insertion_sort_ok.
  - lia.
  - done.
  - repeat constructor; simpl; try lia; by eexists.
  - apply demo_mem_words.
  - destruct (H []) as (m' & Em & Hm). exists table, m'. split_and!; [exact Et|exact Em|].
    rewrite Hm. reflexivity.
Defined.
