(* ===== verification/Kservice.v ===== *)
(** * Memory and string routines: kservice.c and fix_rtt.c

    The memory routines act on memory as bytes by address and move words where
    both addresses are aligned; words have four bytes, in either byte order.
    The string routines read the list of bytes from the pointer on; [None] is a
    read past its end. *)

From S2P Require Import Prelude.

(** ** Memory *)

Abbreviation bytes_at := (Z -> Z).

Definition store (m : bytes_at) (a v : Z) : bytes_at := fun x => if x =? a then v else m x.

Section words.
Variable big_endian : bool.

(** The shift of byte [i] of a word. *)
Definition lane (i : Z) : Z := if big_endian then 24 - 8 * i else 8 * i.

Definition load_word (m : bytes_at) (a : Z) : Z :=
  Z.lor (Z.lor (Z.shiftl (m a) (lane 0)) (Z.shiftl (m (a + 1)) (lane 1)))
        (Z.lor (Z.shiftl (m (a + 2)) (lane 2)) (Z.shiftl (m (a + 3)) (lane 3))).

Definition store_word (m : bytes_at) (a w : Z) : bytes_at :=
  let byte i := u8 (Z.shiftr w (lane i)) in
  store (store (store (store m a (byte 0)) (a + 1) (byte 1)) (a + 2) (byte 2)) (a + 3) (byte 3).

(** [while (count--) *m++ = d]. *)
Fixpoint set_bytes_loop (count : nat) (a d : Z) (m : bytes_at) : bytes_at :=
  match count with
  | O => m
  | S count => set_bytes_loop count (a + 1) d (store m a d)
  end.

(** [while (count >= 4) ...]: the address, the count and the memory left. *)
Fixpoint set_words_loop (fuel : nat) (a count buffer : Z) (m : bytes_at) : Z * Z * bytes_at :=
  match fuel with
  | O => (a, count, m)
  | S fuel =>
      if count >=? 4 then set_words_loop fuel (a + 4) (count - 4) buffer (store_word m a buffer)
      else (a, count, m)
  end.

(** Four words a turn. *)
Fixpoint set_blocks_loop (fuel : nat) (a count buffer : Z) (m : bytes_at) : Z * Z * bytes_at :=
  match fuel with
  | O => (a, count, m)
  | S fuel =>
      if count >=? 16 then
        let m := store_word m a buffer in
        let m := store_word m (a + 4) buffer in
        let m := store_word m (a + 8) buffer in
        let m := store_word m (a + 12) buffer in
        set_blocks_loop fuel (a + 16) (count - 16) buffer m
      else (a, count, m)
  end.

(** Fuel: a turn of either loop takes at least one byte of the count. *)
Definition rt_memset (m : bytes_at) (s c count : Z) : bytes_at :=
  let d := Z.land c 0xff in
  let '(a, count, m) :=
    if negb (count <? 4) && (Z.land s 3 =? 0) then
      let buffer := Z.lor (Z.shiftl d 8) d in
      let buffer := Z.lor buffer (u32 (Z.shiftl buffer 16)) in
      let '(a, count, m) := set_blocks_loop (Z.to_nat count) s count buffer m in
      set_words_loop (Z.to_nat count) a count buffer m
    else (s, count, m) in
  set_bytes_loop (Z.to_nat count) a d m.

Fixpoint copy_bytes_loop (len : nat) (dst src : Z) (m : bytes_at) : bytes_at :=
  match len with
  | O => m
  | S len => copy_bytes_loop len (dst + 1) (src + 1) (store m dst (m src))
  end.

Definition copy_word (m : bytes_at) (dst src : Z) : bytes_at := store_word m dst (load_word m src).

Fixpoint copy_words_loop (fuel : nat) (dst src len : Z) (m : bytes_at) : Z * Z * Z * bytes_at :=
  match fuel with
  | O => (dst, src, len, m)
  | S fuel =>
      if len >=? 4 then copy_words_loop fuel (dst + 4) (src + 4) (len - 4) (copy_word m dst src)
      else (dst, src, len, m)
  end.

Fixpoint copy_blocks_loop (fuel : nat) (dst src len : Z) (m : bytes_at) : Z * Z * Z * bytes_at :=
  match fuel with
  | O => (dst, src, len, m)
  | S fuel =>
      if len >=? 16 then
        let m := copy_word m dst src in
        let m := copy_word m (dst + 4) (src + 4) in
        let m := copy_word m (dst + 8) (src + 8) in
        let m := copy_word m (dst + 12) (src + 12) in
        copy_blocks_loop fuel (dst + 16) (src + 16) (len - 16) m
      else (dst, src, len, m)
  end.

Definition rt_memcpy (m : bytes_at) (dst src count : Z) : bytes_at :=
  let '(dst, src, len, m) :=
    if negb (count <? 16) && (Z.lor (Z.land src 3) (Z.land dst 3) =? 0) then
      let '(dst, src, len, m) := copy_blocks_loop (Z.to_nat count) dst src count m in
      copy_words_loop (Z.to_nat len) dst src len m
    else (dst, src, count, m) in
  copy_bytes_loop (Z.to_nat len) dst src m.

(** [while (n--) *(--tmp) = *(--s)]. *)
Fixpoint copy_down_loop (n : nat) (tmp s : Z) (m : bytes_at) : bytes_at :=
  match n with
  | O => m
  | S n => copy_down_loop n (tmp - 1) (s - 1) (store m (tmp - 1) (m (s - 1)))
  end.

Definition rt_memmove (m : bytes_at) (dest src n : Z) : bytes_at :=
  if (src <? dest) && (dest <? src + n) then copy_down_loop (Z.to_nat n) (dest + n) (src + n) m
  else copy_bytes_loop (Z.to_nat n) dest src m.

(** ** What they should do *)

Definition filled (m : bytes_at) (a n d : Z) : bytes_at :=
  fun x => if (a <=? x) && (x <? a + n) then d else m x.
Definition copied (m : bytes_at) (dst src n : Z) : bytes_at :=
  fun x => if (dst <=? x) && (x <? dst + n) then m (src + (x - dst)) else m x.

(** Every byte of memory is one. *)
Definition byte_memory (m : bytes_at) : Prop := forall x, 0 <= m x < 256.

Ltac in_range :=
  repeat match goal with
  | |- context [(?a <=? ?b) && (?c <? ?d)] =>
      let E := fresh "E" in
      first [ assert (a <= b /\ c < d) as E by lia;
              rewrite (proj2 (andb_true_iff _ _) (conj (proj2 (Z.leb_le a b) (proj1 E))
                                                       (proj2 (Z.ltb_lt c d) (proj2 E)))); clear E
            | assert (b < a \/ d <= c) as E by lia;
              replace ((a <=? b) && (c <? d)) with false
                by (symmetry; apply andb_false_iff; destruct E;
                    [left; apply Z.leb_gt; lia|right; apply Z.ltb_ge; lia]); clear E ]
  end.

Lemma store_word_byte m a w x :
  store_word m a w x = if (a <=? x) && (x <? a + 4) then u8 (Z.shiftr w (lane (x - a))) else m x.
Proof.
  unfold store_word, store. destruct ((a <=? x) && (x <? a + 4)) eqn:E.
  - zify_bool. assert (x = a \/ x = a + 1 \/ x = a + 2 \/ x = a + 3) as Hx by lia.
    destruct_or! Hx; subst x; rewrite ?Z.eqb_refl;
      repeat match goal with |- context [?p =? ?q] => rewrite (proj2 (Z.eqb_neq p q)) by lia end;
      repeat f_equal; lia.
  - apply andb_false_iff in E.
    repeat match goal with |- context [?p =? ?q] =>
      rewrite (proj2 (Z.eqb_neq p q)) by (destruct E as [E|E]; zify_bool; lia) end. done.
Qed.

Lemma byte_bit_high b k : 0 <= b < 256 -> k < 0 \/ 8 <= k -> Z.testbit b k = false.
Proof.
  intros Hb [Hk|Hk]; [by apply Z.testbit_neg_r|]. rewrite <- (Z.mod_small b (2 ^ 8)) by lia.
  apply Z.mod_pow2_bits_high. lia.
Qed.

(** A byte of a word that was loaded is the byte in memory. *)
Lemma load_word_byte m a i : byte_memory m -> 0 <= i < 4 ->
  u8 (Z.shiftr (load_word m a) (lane i)) = m (a + i).
Proof.
  intros Hm Hi. assert (Hl : forall j, 0 <= j < 4 -> 0 <= lane j) by (intros; unfold lane; destruct big_endian; lia).
  apply Z.bits_inj'. intros n Hn. unfold wrap. destruct (decide (n < 8)).
  2:{ rewrite Z.mod_pow2_bits_high, byte_bit_high by (try apply Hm; lia). done. }
  rewrite Z.mod_pow2_bits_low, Z.shiftr_spec by lia. unfold load_word.
  rewrite !Z.lor_spec. pose proof (Hl i Hi).
  rewrite !Z.shiftl_spec by (unfold lane; destruct big_endian; lia).
  assert (Hj : forall j, 0 <= j < 4 ->
    Z.testbit (m (a + j)) (n + lane i - lane j) = if decide (j = i) then Z.testbit (m (a + i)) n else false).
  { intros j Hj. case_decide as Hd; [subst; f_equal; lia|]. apply byte_bit_high; [apply Hm|].
    unfold lane. destruct big_endian; lia. }
  pose proof (Hj 0 ltac:(lia)) as H0. rewrite Z.add_0_r in H0.
  rewrite H0, !Hj by lia.
  assert (i = 0 \/ i = 1 \/ i = 2 \/ i = 3) as Hc by lia.
  destruct_or! Hc; subst i; repeat case_decide; try lia; rewrite ?orb_false_r; simpl; rewrite ?orb_false_r; done.
Qed.

(** ** Filling *)

Section memset.
Variable m0 : bytes_at.
Variables (s d : Z).

(** [k] bytes are done. *)
Definition set_upto (k : Z) (m : bytes_at) : Prop := forall x, m x = filled m0 s k d x.

Lemma set_byte_step k m : 0 <= k -> set_upto k m -> set_upto (k + 1) (store m (s + k) d).
Proof.
  intros Hk H x. unfold store, filled in *. destruct (x =? s + k) eqn:E; zify_bool.
  - subst. by in_range.
  - rewrite H. unfold filled. destruct (decide (s <= x < s + k)); by in_range.
Qed.

Lemma set_bytes_loop_ok n k m : 0 <= k -> set_upto k m ->
  set_upto (k + Z.of_nat n) (set_bytes_loop n (s + k) d m).
Proof.
  revert k m. induction n as [|n IH]; intros k m Hk H; simpl set_bytes_loop.
  - by rewrite Z.add_0_r.
  - replace (k + Z.of_nat (S n)) with (k + 1 + Z.of_nat n) by lia.
    replace (s + k + 1) with (s + (k + 1)) by lia. apply IH; [lia|]. by apply set_byte_step.
Qed.

Variable buffer : Z.
Hypothesis Hbuffer : forall i, 0 <= i < 4 -> u8 (Z.shiftr buffer (lane i)) = d.

Lemma set_word_step k m : 0 <= k -> set_upto k m -> set_upto (k + 4) (store_word m (s + k) buffer).
Proof.
  intros Hk H x. rewrite store_word_byte. unfold filled in *.
  destruct (decide (s + k <= x < s + k + 4)).
  - in_range. apply Hbuffer. lia.
  - rewrite H. unfold filled. destruct (decide (s <= x < s + k)); by in_range.
Qed.

Lemma set_words_loop_ok fuel k count m : 0 <= k -> 0 <= count -> set_upto k m ->
  exists k', set_words_loop fuel (s + k) count buffer m =
      (s + k', count - (k' - k), snd (set_words_loop fuel (s + k) count buffer m)) /\
    k <= k' <= k + count /\ set_upto k' (snd (set_words_loop fuel (s + k) count buffer m)).
Proof.
  revert k count m. induction fuel as [|fuel IH]; intros k count m Hk Hc H; simpl.
  { exists k. split_and!; [do 2 f_equal; lia|lia|lia|done]. }
  destruct (count >=? 4) eqn:E; zify_bool; [|exists k; split_and!; [do 2 f_equal; lia|lia|lia|done]].
  replace (s + k + 4) with (s + (k + 4)) by lia.
  destruct (IH (k + 4) (count - 4) (store_word m (s + k) buffer)) as (k' & E' & Hk' & H');
    [lia|lia|by apply set_word_step|].
  exists k'. split_and!; [rewrite E' at 1; do 2 f_equal; lia|lia|lia|done].
Qed.

Lemma set_blocks_loop_ok fuel k count m : 0 <= k -> 0 <= count -> set_upto k m ->
  exists k', set_blocks_loop fuel (s + k) count buffer m =
      (s + k', count - (k' - k), snd (set_blocks_loop fuel (s + k) count buffer m)) /\
    k <= k' <= k + count /\ set_upto k' (snd (set_blocks_loop fuel (s + k) count buffer m)).
Proof.
  revert k count m. induction fuel as [|fuel IH]; intros k count m Hk Hc H; simpl.
  { exists k. split_and!; [do 2 f_equal; lia|lia|lia|done]. }
  destruct (count >=? 16) eqn:E; zify_bool; [|exists k; split_and!; [do 2 f_equal; lia|lia|lia|done]].
  match goal with |- context [set_blocks_loop fuel _ _ _ ?m'] => set (m1 := m') end.
  assert (H1 : set_upto (k + 16) m1).
  { replace (k + 16) with (k + 4 + 4 + 4 + 4) by lia. unfold m1.
    replace (s + k + 4) with (s + (k + 4)) by lia. replace (s + k + 8) with (s + (k + 4 + 4)) by lia.
    replace (s + k + 12) with (s + (k + 4 + 4 + 4)) by lia.
    do 4 (apply set_word_step; [lia|]). done. }
  replace (s + k + 16) with (s + (k + 16)) by lia.
  destruct (IH (k + 16) (count - 16) m1) as (k' & E' & Hk' & H'); [lia|lia|done|].
  exists k'. split_and!; [rewrite E' at 1; do 2 f_equal; lia|lia|lia|done].
Qed.
End memset.

(** The word of four equal bytes. *)
Lemma fill_word d i : 0 <= d < 256 -> 0 <= i < 4 ->
  u8 (Z.shiftr (Z.lor (Z.lor (Z.shiftl d 8) d) (u32 (Z.shiftl (Z.lor (Z.shiftl d 8) d) 16))) (lane i)) = d.
Proof.
  intros Hd Hi. rewrite !(Z.shiftl_mul_pow2 d) by lia. rewrite (Z.lor_comm (d * 2 ^ 8)), lor_add by lia.
  rewrite (Z.shiftl_mul_pow2 _ 16), (wrap_small 32), lor_add by lia.
  assert (exists j, 0 <= j < 4 /\ lane i = 8 * j) as (j & Hj & ->).
  { unfold lane. destruct big_endian; [exists (3 - i)|exists i]; lia. }
  rewrite Z.shiftr_div_pow2 by lia. unfold wrap.
  assert (j = 0 \/ j = 1 \/ j = 2 \/ j = 3) as Hc by lia.
  destruct_or! Hc; subst j; simpl Z.pow; zdiv.
Qed.

Lemma rt_memset_run m s c count : 0 <= count < 2 ^ 31 ->
  forall x, rt_memset m s c count x = filled m s count (c mod 256) x.
Proof.
  intros Hc. unfold rt_memset.
  assert (Z.land c 0xff = c mod 256) as -> by (change 0xff with (Z.ones 8); by rewrite Z.land_ones by lia).
  set (d := c mod 256). assert (Hd : 0 <= d < 256) by (apply Z.mod_pos_bound; lia).
  assert (H0 : set_upto m s d 0 m).
  { intros x. unfold filled. destruct (_ && _) eqn:E; [|done]. zify_bool. lia. }
  assert (Hend : forall k m', 0 <= k <= count -> set_upto m s d k m' ->
    forall x, set_bytes_loop (Z.to_nat (count - k)) (s + k) d m' x = filled m s count d x).
  { intros k m' Hk H x. pose proof (set_bytes_loop_ok m s d (Z.to_nat (count - k)) k m') as Hs.
    replace (k + Z.of_nat (Z.to_nat (count - k))) with count in Hs by lia. apply Hs; [lia|done]. }
  destruct (_ && _).
  - cbv zeta. set (buffer := Z.lor (Z.lor (Z.shiftl d 8) d) (u32 (Z.shiftl (Z.lor (Z.shiftl d 8) d) 16))).
    destruct (set_blocks_loop_ok m s d buffer (fun i Hi => fill_word d i Hd Hi)
                (Z.to_nat count) 0 count m) as (k1 & E1 & Hk1 & H1); [lia|lia|done|].
    rewrite Z.add_0_r in *. rewrite E1.
    destruct (set_words_loop_ok m s d buffer (fun i Hi => fill_word d i Hd Hi)
                (Z.to_nat (count - (k1 - 0))) k1 (count - (k1 - 0)) _ ltac:(lia) ltac:(lia) H1)
      as (k2 & E2 & Hk2 & H2).
    rewrite E2. replace (count - (k1 - 0) - (k2 - k1)) with (count - k2) by lia.
    apply Hend; [lia|done].
  - pose proof (Hend 0 m ltac:(lia) H0) as H. by rewrite Z.add_0_r, Z.sub_0_r in H.
Qed.

(** ** Copying *)

Section memcpy.
Variable m0 : bytes_at.
Variables (dst src n : Z).
Hypothesis Hm0 : byte_memory m0.

(** Copying upwards is right when the destination is below the source or
    behind its end. *)
Hypothesis Hdir : dst <= src \/ src + n <= dst.

Definition copied_upto (k : Z) (m : bytes_at) : Prop := forall x, m x = copied m0 dst src k x.

Lemma copied_bytes k m : copied_upto k m -> byte_memory m.
Proof. intros H x. rewrite H. unfold copied. destruct (_ && _); apply Hm0. Qed.

(** The source bytes still to be read are as they were. *)
Lemma copied_source k m j : 0 <= k <= j -> j < n -> copied_upto k m -> m (src + j) = m0 (src + j).
Proof. intros Hk Hj H. rewrite H. unfold copied. destruct Hdir; by in_range. Qed.

Lemma copy_byte_step k m : 0 <= k < n -> copied_upto k m ->
  copied_upto (k + 1) (store m (dst + k) (m (src + k))).
Proof.
  intros Hk H x. unfold store, copied in *. destruct (x =? dst + k) eqn:E; zify_bool.
  - subst. rewrite (copied_source k) by (done || lia). in_range. f_equal. lia.
  - rewrite H. unfold copied. destruct (decide (dst <= x < dst + k)); by in_range.
Qed.

Lemma copy_word_step k m : 0 <= k -> k + 4 <= n -> copied_upto k m ->
  copied_upto (k + 4) (copy_word m (dst + k) (src + k)).
Proof.
  intros Hk Hn H x. unfold copy_word. rewrite store_word_byte. unfold copied in *.
  destruct (decide (dst + k <= x < dst + k + 4)).
  - in_range. rewrite load_word_byte by (lia || by eapply copied_bytes).
    replace (src + k + (x - (dst + k))) with (src + (x - dst)) by lia.
    rewrite (copied_source k); [done|lia|lia|done].
  - rewrite H. unfold copied. destruct (decide (dst <= x < dst + k)); by in_range.
Qed.

Lemma copy_bytes_loop_ok len k m : 0 <= k -> k + Z.of_nat len <= n -> copied_upto k m ->
  copied_upto (k + Z.of_nat len) (copy_bytes_loop len (dst + k) (src + k) m).
Proof.
  revert k m. induction len as [|len IH]; intros k m Hk Hn H; simpl copy_bytes_loop.
  - by rewrite Z.add_0_r.
  - replace (k + Z.of_nat (S len)) with (k + 1 + Z.of_nat len) by lia.
    replace (dst + k + 1) with (dst + (k + 1)) by lia. replace (src + k + 1) with (src + (k + 1)) by lia.
    apply IH; [lia|lia|]. apply copy_byte_step; [lia|done].
Qed.

Lemma copy_words_loop_ok fuel k m : 0 <= k <= n -> copied_upto k m ->
  exists k' m', copy_words_loop fuel (dst + k) (src + k) (n - k) m = (dst + k', src + k', n - k', m') /\
    k <= k' <= n /\ copied_upto k' m'.
Proof.
  revert k m. induction fuel as [|fuel IH]; intros k m Hk H; simpl; [exists k, m; split_and!; done || lia|].
  destruct (_ >=? _) eqn:E; zify_bool; [|exists k, m; split_and!; done || lia].
  replace (dst + k + 4) with (dst + (k + 4)) by lia. replace (src + k + 4) with (src + (k + 4)) by lia.
  replace (n - k - 4) with (n - (k + 4)) by lia.
  destruct (IH (k + 4) (copy_word m (dst + k) (src + k))) as (k' & m' & E' & Hk' & H');
    [lia|apply copy_word_step; [lia|lia|done]|].
  exists k', m'. split_and!; [done|lia|lia|done].
Qed.

Lemma copy_blocks_loop_ok fuel k m : 0 <= k <= n -> copied_upto k m ->
  exists k' m', copy_blocks_loop fuel (dst + k) (src + k) (n - k) m = (dst + k', src + k', n - k', m') /\
    k <= k' <= n /\ copied_upto k' m'.
Proof.
  revert k m. induction fuel as [|fuel IH]; intros k m Hk H; simpl; [exists k, m; split_and!; done || lia|].
  destruct (_ >=? _) eqn:E; zify_bool; [|exists k, m; split_and!; done || lia].
  match goal with |- context [copy_blocks_loop fuel _ _ _ ?m'] => set (m1 := m') end.
  assert (H1 : copied_upto (k + 16) m1).
  { replace (k + 16) with (k + 4 + 4 + 4 + 4) by lia. unfold m1.
    replace (dst + k + 4) with (dst + (k + 4)) by lia. replace (dst + k + 8) with (dst + (k + 4 + 4)) by lia.
    replace (dst + k + 12) with (dst + (k + 4 + 4 + 4)) by lia.
    replace (src + k + 4) with (src + (k + 4)) by lia. replace (src + k + 8) with (src + (k + 4 + 4)) by lia.
    replace (src + k + 12) with (src + (k + 4 + 4 + 4)) by lia.
    do 4 (apply copy_word_step; [lia|lia|]). done. }
  replace (dst + k + 16) with (dst + (k + 16)) by lia. replace (src + k + 16) with (src + (k + 16)) by lia.
  replace (n - k - 16) with (n - (k + 16)) by lia.
  destruct (IH (k + 16) m1) as (k' & m' & E' & Hk' & H'); [lia|done|].
  exists k', m'. split_and!; [done|lia|lia|done].
Qed.

Lemma copied_none : copied_upto 0 m0.
Proof. intros x. unfold copied. destruct (_ && _) eqn:E; [|done]. zify_bool. lia. Qed.

Lemma rt_memcpy_run : 0 <= n -> forall x, rt_memcpy m0 dst src n x = copied m0 dst src n x.
Proof.
  intros Hn. unfold rt_memcpy.
  assert (Hend : forall k m', 0 <= k <= n -> copied_upto k m' ->
    forall x, copy_bytes_loop (Z.to_nat (n - k)) (dst + k) (src + k) m' x = copied m0 dst src n x).
  { intros k m' Hk H x. pose proof (copy_bytes_loop_ok (Z.to_nat (n - k)) k m') as Hs.
    replace (k + Z.of_nat (Z.to_nat (n - k))) with n in Hs by lia. apply Hs; [lia|lia|done]. }
  pose proof (copy_blocks_loop_ok (Z.to_nat n) 0 m0 ltac:(lia) copied_none) as (k1 & m1 & E1 & Hk1 & H1).
  pose proof (Hend 0 m0 ltac:(lia) copied_none) as H0. rewrite !Z.add_0_r, Z.sub_0_r in *.
  destruct (_ && _); [|done]. rewrite E1.
  destruct (copy_words_loop_ok (Z.to_nat (n - k1)) k1 m1 ltac:(lia) H1) as (k2 & m2 & E2 & Hk2 & H2).
  rewrite E2. apply Hend; [lia|done].
Qed.
End memcpy.

Lemma copy_down_loop_ok m0 dst src n k m : src < dst -> 0 <= Z.of_nat k <= n ->
  (forall x, m x = if (dst + Z.of_nat k <=? x) && (x <? dst + n) then m0 (src + (x - dst)) else m0 x) ->
  forall x, copy_down_loop k (dst + Z.of_nat k) (src + Z.of_nat k) m x = copied m0 dst src n x.
Proof.
  intros Hd. revert m. induction k as [|k IH]; intros m Hk H x; cbn [copy_down_loop].
  - rewrite H, Z.add_0_r. done.
  - replace (dst + Z.of_nat (S k) - 1) with (dst + Z.of_nat k) by lia.
    replace (src + Z.of_nat (S k) - 1) with (src + Z.of_nat k) by lia.
    apply IH; [lia|]. intros y. unfold store. destruct (y =? dst + Z.of_nat k) eqn:E; zify_bool.
    + subst y. rewrite H. in_range. f_equal. lia.
    + rewrite H. destruct (decide (dst + Z.of_nat (S k) <= y < dst + n)); by in_range.
Qed.
End words.


(** ** Strings *)

Fixpoint rt_strlen (s : list Z) : option Z :=
  match s with
  | [] => None
  | c :: s => if c =? 0 then Some 0 else n ← rt_strlen s; Some (n + 1)
  end.

(** The character is read before the length is tested. *)
Fixpoint rt_strnlen (s : list Z) (maxlen : Z) : option Z :=
  match s with
  | [] => None
  | c :: s => if negb (c =? 0) && (0 <? maxlen) then n ← rt_strnlen s (maxlen - 1); Some (n + 1)
              else Some 0
  end.

Fixpoint rt_memcmp (cs ct : list Z) (count : nat) {struct count} : option Z :=
  match count with
  | O => Some 0
  | S count =>
      match cs, ct with
      | a :: cs, b :: ct => if a - b =? 0 then rt_memcmp cs ct count else Some (a - b)
      | _, _ => None
      end
  end.

(** [char] is signed. *)
Fixpoint rt_strcmp (cs ct : list Z) : option Z :=
  match cs, ct with
  | a :: cs, b :: ct =>
      if negb (a =? 0) && (a =? b) then rt_strcmp cs ct else Some (swrap 8 a - swrap 8 b)
  | _, _ => None
  end.

Definition lower (c : Z) : Z := if (0x41 <=? c) && (c <=? 0x5a) then c + 0x20 else c.
Fixpoint rt_strcasecmp (a b : list Z) : option Z :=
  match a, b with
  | ca :: a, cb :: b =>
      let ca := lower ca in
      let cb := lower cb in
      if (ca =? cb) && negb (ca =? 0) then rt_strcasecmp a b else Some (ca - cb)
  | _, _ => None
  end.

(** Pointers into a string are offsets; [Some None] is the null pointer. *)
Fixpoint strchr_loop (s : list Z) (c pos : Z) : option (option Z) :=
  match s with
  | [] => None
  | x :: s =>
      if negb (x =? 0) && negb (x =? c) then strchr_loop s c (pos + 1)
      else if x =? c then Some (Some pos) else Some None
  end.
Definition rt_strchr (s : list Z) (c : Z) : option (option Z) := strchr_loop s (u8 c) 0.

Fixpoint strrchr_loop (t : list Z) (ch pos : Z) (l : option Z) : option (option Z) :=
  match t with
  | [] => None
  | x :: t =>
      let l := if x =? ch then Some pos else l in
      if x =? 0 then Some l else strrchr_loop t ch (pos + 1) l
  end.
Definition rt_strrchr (t : list Z) (c : Z) : option (option Z) := strrchr_loop t (u8 c) 0 None.

Fixpoint strstr_loop (s1 s2 : list Z) (l1 l2 pos : Z) : option (option Z) :=
  if l1 >=? l2 then
    r ← rt_memcmp s1 s2 (Z.to_nat l2);
    if r =? 0 then Some (Some pos)
    else match s1 with [] => None | _ :: s1 => strstr_loop s1 s2 (l1 - 1) l2 (pos + 1) end
  else Some None.
Definition rt_strstr (s1 s2 : list Z) : option (option Z) :=
  l2 ← rt_strlen s2;
  if l2 =? 0 then Some (Some 0) else
  l1 ← rt_strlen s1;
  strstr_loop s1 s2 l1 l2 0.

(** Memory that starts with the C string [s]. *)
Definition cstr (s : list Z) (m : list Z) : Prop :=
  Forall (fun c => c <> 0) s /\ exists rest, m = s ++ 0 :: rest.

Lemma cstr_cons c s m : cstr (c :: s) m <-> c <> 0 /\ exists m', m = c :: m' /\ cstr s m'.
Proof.
  unfold cstr. rewrite Forall_cons. split.
  - intros [[Hc Hs] [rest ->]]. split; [done|]. eexists. split; [done|]. eauto.
  - intros [Hc (m' & -> & Hs & rest & ->)]. split; [done|]. by exists rest.
Qed.

Lemma cstr_drop s m i : cstr s m -> (i <= length s)%nat -> cstr (drop i s) (drop i m).
Proof.
  intros [Hs [rest ->]] Hi. split; [by apply Forall_drop|]. exists rest. by rewrite drop_app_le.
Qed.

Lemma rt_strlen_spec s m : cstr s m -> rt_strlen m = Some (Z.of_nat (length s)).
Proof.
  intros [Hs [rest ->]]. induction Hs as [|c s Hc Hs IH]; [done|]. simpl.
  rewrite (proj2 (Z.eqb_neq c 0)) by done. rewrite IH. simpl. f_equal. lia.
Qed.

(** Comparing as many bytes as the second buffer's prefix [t] has. *)
Lemma rt_memcmp_prefix t cs ct : t `prefix_of` ct -> (exists i, (i < length t)%nat /\ cs !! i <> t !! i /\
      is_Some (cs !! i) /\ forall j, (j < i)%nat -> cs !! j = t !! j) \/ t `prefix_of` cs ->
  exists r, rt_memcmp cs ct (length t) = Some r /\ (r = 0 <-> t `prefix_of` cs).
Proof.
  intros [k ->]. revert cs. induction t as [|c t IH]; intros cs H; simpl.
  { exists 0. split; [done|]. split; [intros _; apply prefix_nil|done]. }
  destruct cs as [|a cs].
  { destruct H as [(i & _ & _ & [? H] & _)|[k' H]]; done. }
  destruct (a - c =? 0) eqn:E; zify_bool.
  - assert (a = c) as -> by lia.
    destruct (IH cs) as (r & Hr & Hiff).
    + destruct H as [(i & Hi & Hne & Hs & Hj)|H]; [left|right; by apply prefix_cons_inv_2 in H].
      destruct i as [|i]; [done|]. exists i. split_and!; [simpl in Hi; lia|done|done|].
      intros j Hlt. apply (Hj (S j)). lia.
    + exists r. split; [done|]. rewrite Hiff. split; [apply prefix_cons|apply prefix_cons_inv_2].
  - exists (a - c). split; [done|]. split; [lia|]. intros Hp. apply prefix_cons_inv_1 in Hp. lia.
Qed.

(** A C string either starts with [t] or differs from it at a position it has. *)
Lemma cstr_prefix_dec t s m : cstr s m -> Forall (fun c => c <> 0) t ->
  (exists i, (i < length t)%nat /\ m !! i <> t !! i /\ is_Some (m !! i) /\
     forall j, (j < i)%nat -> m !! j = t !! j) \/ t `prefix_of` m.
Proof.
  intros Hs Ht. revert s m Hs. induction Ht as [|c t Hc Ht IH]; intros s m Hs; [right; apply prefix_nil|].
  destruct s as [|a s].
  - destruct Hs as [_ [rest ->]]. left. exists 0%nat. simpl. split_and!; [lia|congruence|eauto|lia].
  - apply cstr_cons in Hs as [Ha (m' & -> & Hs)]. destruct (decide (a = c)) as [->|Hne].
    + destruct (IH s m' Hs) as [(i & Hi & Hd & Hsome & Hj)|Hp]; [left|right; by apply prefix_cons].
      exists (S i). simpl. split_and!; [lia|done|done|]. intros [|j] Hlt; [done|]. apply Hj. lia.
    + left. exists 0%nat. simpl. split_and!; [lia|congruence|eauto|lia].
Qed.

Lemma rt_memcmp_cstr t s cs ct : cstr s cs -> cstr t ct ->
  exists r, rt_memcmp cs ct (length t) = Some r /\ (r = 0 <-> t `prefix_of` cs).
Proof.
  intros Hs [Ht [rest ->]]. apply rt_memcmp_prefix; [by eexists|]. by eapply cstr_prefix_dec.
Qed.

(** [t] occurs in [s] at [i]. *)
Definition occurs (t s : list Z) (i : nat) : Prop := t `prefix_of` drop i s.

(** Prefixes without null bytes do not see what follows the terminator. *)
Lemma prefix_cstr t s m : cstr s m -> Forall (fun c => c <> 0) t -> t `prefix_of` m <-> t `prefix_of` s.
Proof.
  intros Hs Ht. revert s m Hs. induction Ht as [|c t Hc Ht IH]; intros s m Hs.
  { split; intros _; apply prefix_nil. }
  destruct s as [|a s].
  - destruct Hs as [_ [rest ->]]. split; [|by intros [k Hk]].
    intros Hp. apply prefix_cons_inv_1 in Hp. done.
  - apply cstr_cons in Hs as [Ha (m' & -> & Hs)]. split; intros Hp;
      pose proof (prefix_cons_inv_1 _ _ _ _ Hp); pose proof (prefix_cons_inv_2 _ _ _ _ Hp); subst;
      apply prefix_cons; by apply (IH s m' Hs).
Qed.

Lemma strstr_loop_spec t ct s m pos : cstr s m -> cstr t ct ->
  exists r, strstr_loop m ct (Z.of_nat (length s)) (Z.of_nat (length t)) pos = Some r /\
  match r with
  | Some p => exists i, p = pos + Z.of_nat i /\ occurs t s i /\ forall j, (j < i)%nat -> ~ occurs t s j
  | None => forall i, t <> [] -> ~ occurs t s i
  end.
Proof.
  intros Hs Ht. revert m pos Hs. induction s as [|a s IH]; intros m pos Hs.
  - destruct (rt_memcmp_cstr t [] m ct Hs Ht) as (r & Hr & Hiff).
    destruct Hs as [_ [rest ->]]. simpl strstr_loop. destruct (_ >=? _) eqn:E; zify_bool.
    + destruct t; [|simpl in E; lia]. simpl. exists (Some pos). split; [done|]. exists 0%nat.
      split_and!; [lia|apply prefix_nil|lia].
    + exists None. split; [done|]. intros i Hne [k Hk]. by rewrite drop_nil in Hk; destruct t.
  - destruct (rt_memcmp_cstr t (a :: s) m ct Hs Ht) as (r & Hr & Hiff).
    pose proof (prefix_cstr t _ _ Hs (proj1 Ht)) as Hp.
    apply cstr_cons in Hs as [Ha (m' & -> & Hs)]. cbn [strstr_loop].
    destruct (_ >=? _) eqn:E; zify_bool.
    + rewrite Nat2Z.id, Hr. simpl. destruct (r =? 0) eqn:Er; zify_bool.
      * exists (Some pos). split; [done|]. exists 0%nat. split_and!; [lia| |lia].
        unfold occurs. simpl. rewrite <- Hp. by apply Hiff.
      * simpl length. replace (Z.of_nat (S (length s)) - 1) with (Z.of_nat (length s)) by lia.
        assert (Hno : ~ occurs t (a :: s) 0).
        { unfold occurs. simpl. intros Hx. by apply Er, Hiff, Hp. }
        destruct (IH m' (pos + 1) Hs) as (r' & Hr' & Hspec). exists r'. split; [done|].
        destruct r' as [p|].
        -- destruct Hspec as (i & -> & Ho & Hfirst). exists (S i). split_and!; [lia|done|].
           intros [|j] Hj; [done|]. apply Hfirst. lia.
        -- intros [|i] Hne; [done|]. by apply Hspec.
    + exists None. split; [done|]. intros i Hne [k Hk]. apply (f_equal length) in Hk.
      rewrite length_app, length_drop in Hk. simpl in *. lia.
Qed.

(** [rt_strstr] on two C strings never reads past their ends, and returns
    the first position of the second in the first, or null if there is none. *)
Theorem rt_strstr_correct s t m1 m2 : cstr s m1 -> cstr t m2 ->
  exists r, rt_strstr m1 m2 = Some r /\
  match r with
  | Some p => exists i, p = Z.of_nat i /\ occurs t s i /\ forall j, (j < i)%nat -> ~ occurs t s j
  | None => forall i, ~ occurs t s i
  end.
Proof.
  intros Hs Ht. unfold rt_strstr. rewrite (rt_strlen_spec t m2 Ht), (rt_strlen_spec s m1 Hs). simpl.
  destruct (_ =? 0) eqn:E; zify_bool.
  - destruct t; [|simpl in E; lia]. exists (Some 0). split; [done|]. exists 0%nat.
    split_and!; [done|apply prefix_nil|lia].
  - destruct (strstr_loop_spec t m2 s m1 0 Hs Ht) as (r & Hr & Hspec). exists r. split; [done|].
    destruct r; [done|]. intros i. apply Hspec. by intros ->.
Qed.

(** ** Witnesses *)

Definition demo_bytes : bytes_at := fun x => (x * 7) mod 256.


(** "mem=" in "a mem=8M". *)
Lemma rt_strstr_correct_witness :
  exists r, rt_strstr [97; 32; 109; 101; 109; 61; 56; 77; 0; 255] [109; 101; 109; 61; 0] = Some r /\
    r = Some 2.
Proof.
  destruct (rt_strstr_correct [97; 32; 109; 101; 109; 61; 56; 77] [109; 101; 109; 61]
              [97; 32; 109; 101; 109; 61; 56; 77; 0; 255] [109; 101; 109; 61; 0]) as (r & Hr & _).
  - split; [by repeat constructor|by exists [255]].
  - split; [by repeat constructor|by exists []].
  - exists r. split; [exact Hr|]. cut (Some r = Some (Some 2)); [congruence|]. rewrite <- Hr. reflexivity.
Defined.
