(* ===== verification/Format.v ===== *)
(** * Formatting and reading numbers: kservice.c and fix_rtt.c

    [rt_vsnprintf] writes through a pointer that may run past the end of the
    buffer: [sink] is the buffer and the two pointers as offsets into it.
    Strings end with a zero byte; running past it is undefined ([None]).  The
    special flag and 64-bit arguments are compiled out, precision is compiled in. *)

From S2P Require Import Prelude Kservice.

(** ** Output *)

Record sink := { cells : list Z; str : Z; lim : Z }.

(** [if (str < end) *str = c; ++str]. *)
Definition put (c : Z) (k : sink) : option sink :=
  if str k <? lim k then
    guard (0 <= str k < Z.of_nat (length (cells k)));;
    Some {| cells := <[Z.to_nat (str k) := c]> (cells k); str := str k + 1; lim := lim k |}
  else Some {| cells := cells k; str := str k + 1; lim := lim k |}.

Fixpoint put_times (n : nat) (c : Z) (k : sink) : option sink :=
  match n with O => Some k | S n => k ← put c k; put_times n c k end.

(** [while (size-- > 0)] writing [c]: the size left and the output. *)
Definition pad (c size : Z) (k : sink) : option (Z * sink) :=
  k ← put_times (Z.to_nat size) c k; Some (if size >? 0 then -1 else size - 1, k).

Fixpoint put_list (l : list Z) (k : sink) : option sink :=
  match l with [] => Some k | c :: l => k ← put c k; put_list l k end.

(** ** Numbers *)

Definition ZEROPAD : Z := 1.
Definition SIGN : Z := 2.
Definition PLUS : Z := 4.
Definition SPACE : Z := 8.
Definition LEFT : Z := 16.
Definition SPECIAL : Z := 32.
Definition LARGE : Z := 64.

Definition has (flags f : Z) : bool := negb (Z.land flags f =? 0).

(** The digit and the quotient, both of the unsigned reading. *)
Definition divide (n base : Z) : Z * Z :=
  if base =? 10 then (u32 n mod 10, i32 (u32 n / 10)) else (u32 n mod 16, i32 (u32 n / 16)).

Definition digit (large : bool) (d : Z) : Z := if d <? 10 then 48 + d else if large then 55 + d else 87 + d.

(** [tmp]: the digits, the last one first; ten of them at most, so the fuel. *)
Fixpoint digits_loop (fuel : nat) (large : bool) (num base : Z) : option (list Z) :=
  match fuel with
  | O => None
  | S fuel =>
      if num =? 0 then Some [] else
      let '(d, n) := divide num base in
      l ← digits_loop fuel large n base; Some (digit large d :: l)
  end.

Definition number_digits (large : bool) (num base : Z) : option (list Z) :=
  if num =? 0 then Some [48] else digits_loop 11 large num base.

Definition number_sign (num type : Z) : Z :=
  if has type SIGN then
    if num <? 0 then 45 else if has type PLUS then 43 else if has type SPACE then 32 else 0
  else 0.

Definition print_number (num base s precision type : Z) (k : sink) : option sink :=
  let type := if has type LEFT then Z.land type (wnot 32 ZEROPAD) else type in
  let c := if has type ZEROPAD then 48 else 32 in
  let sign := number_sign num type in
  let num := if has type SIGN && (num <? 0) then i32 (- num) else num in
  tmp ← number_digits (has type LARGE) num base;
  guard (length tmp <= 16)%nat;;
  let i := Z.of_nat (length tmp) in
  let precision_bak := precision in
  let precision := if i >? precision then i else precision in
  let size := s - precision in
  '(size, k) ← (if negb (has type (Z.lor ZEROPAD LEFT)) then
                  pad 32 (if negb (sign =? 0) && (size >? 0) then size - 1 else size) k
                else Some (size, k));
  '(size, k) ← (if negb (sign =? 0) then k ← put sign k; Some (size - 1, k) else Some (size, k));
  '(size, k) ← (if negb (has type LEFT) then pad c size k else Some (size, k));
  k ← put_times (Z.to_nat (precision - i)) 48 k;
  k ← (if negb (precision_bak =? 0) then put_list (rev tmp) k else Some k);
  '(_, k) ← pad 32 size k;
  Some k.

(** ** The format string *)

Definition isdigit (c : Z) : bool := u32 (c - 48) <? 10.

Fixpoint skip_atoi (s : list Z) (i : Z) : option (Z * list Z) :=
  match s with
  | [] => None
  | c :: s' => if isdigit c then skip_atoi s' (i32 (i * 10 + c - 48)) else Some (i, s)
  end.

(** The variable arguments: integers and pointers, and the memory of a string
    or null. *)
Inductive va := VInt (n : Z) | VStr (s : option (list Z)).

Definition va_int (args : list va) : option (Z * list va) :=
  match args with VInt n :: args => Some (n, args) | _ => None end.
Definition va_str (args : list va) : option (option (list Z) * list va) :=
  match args with VStr s :: args => Some (s, args) | _ => None end.

Fixpoint flags_loop (fmt : list Z) (flags : Z) : option (Z * list Z) :=
  match fmt with
  | [] => None
  | c :: fmt' =>
      if c =? 45 then flags_loop fmt' (Z.lor flags LEFT)
      else if c =? 43 then flags_loop fmt' (Z.lor flags PLUS)
      else if c =? 32 then flags_loop fmt' (Z.lor flags SPACE)
      else if c =? 35 then flags_loop fmt' (Z.lor flags SPECIAL)
      else if c =? 48 then flags_loop fmt' (Z.lor flags ZEROPAD)
      else Some (flags, fmt)
  end.

(** The field width and the flags, which a negative width argument changes. *)
Definition parse_width (fmt : list Z) (args : list va) (flags : Z)
  : option (Z * Z * list Z * list va) :=
  c ← head fmt;
  if isdigit c then '(w, fmt) ← skip_atoi fmt 0; Some (w, flags, fmt, args)
  else if c =? 42 then
    '(w, args) ← va_int args;
    let w := i32 w in
    if w <? 0 then Some (i32 (- w), Z.lor flags LEFT, tail fmt, args) else Some (w, flags, tail fmt, args)
  else Some (-1, flags, fmt, args).

Definition parse_precision (fmt : list Z) (args : list va) : option (Z * list Z * list va) :=
  c ← head fmt;
  if c =? 46 then
    let fmt := tail fmt in
    c ← head fmt;
    '(p, fmt, args) ←
      (if isdigit c then '(p, fmt) ← skip_atoi fmt 0; Some (p, fmt, args)
       else if c =? 42 then '(p, args) ← va_int args; Some (i32 p, tail fmt, args)
       else Some (-1, fmt, args));
    Some (if p <? 0 then 0 else p, fmt, args)
  else Some (-1, fmt, args).

(** The value an integer conversion prints. *)
Definition int_arg (qualifier flags n : Z) : Z :=
  let num := if qualifier =? 104 then
               let h := u16 n in if has flags SIGN then u32 (i16 h) else h
             else u32 n in
  i32 num.

Definition null_text : list Z := [40; 78; 85; 76; 76; 41; 0].

(** The cases of the [switch]; [c] is the conversion. *)
Definition convert (c flags field_width precision qualifier : Z) (args : list va) (k : sink)
  : option (list va * sink) :=
  if c =? 99 then
    '(v, args) ← va_int args;
    k ← (if has flags LEFT then Some k else put_times (Z.to_nat (field_width - 1)) 32 k);
    k ← put (u8 v) k;
    k ← (if has flags LEFT then put_times (Z.to_nat (field_width - 1)) 32 k else Some k);
    Some (args, k)
  else if c =? 115 then
    '(s, args) ← va_str args;
    let s := default null_text s in
    len ← rt_strlen s;
    let len := if (precision >? 0) && (len >? precision) then precision else len in
    k ← (if has flags LEFT then Some k else put_times (Z.to_nat (field_width - len)) 32 k);
    k ← put_list (take (Z.to_nat len) s) k;
    k ← (if has flags LEFT then put_times (Z.to_nat (field_width - len)) 32 k else Some k);
    Some (args, k)
  else if c =? 112 then
    '(v, args) ← va_int args;
    k ← (if field_width =? -1 then print_number (i32 v) 16 8 precision (Z.lor flags ZEROPAD) k
         else print_number (i32 v) 16 field_width precision flags k);
    Some (args, k)
  else if c =? 37 then k ← put 37 k; Some (args, k)
  else if (c =? 111) || (c =? 88) || (c =? 120) || (c =? 100) || (c =? 105) || (c =? 117) then
    let base := if c =? 111 then 8 else if (c =? 88) || (c =? 120) then 16 else 10 in
    let flags := if c =? 88 then Z.lor flags LARGE
                 else if (c =? 100) || (c =? 105) then Z.lor flags SIGN else flags in
    '(n, args) ← va_int args;
    k ← print_number (int_arg qualifier flags n) base field_width precision flags k;
    Some (args, k)
  else
    k ← put 37 k;
    k ← (if c =? 0 then Some k else put c k);
    Some (args, k).

(** Every turn takes at least one character of the format, so its length is
    fuel enough. *)
Fixpoint format_loop (fuel : nat) (fmt : list Z) (args : list va) (k : sink) : option sink :=
  match fuel with
  | O => None
  | S fuel =>
      c ← head fmt;
      if c =? 0 then Some k
      else if negb (c =? 37) then k ← put c k; format_loop fuel (tail fmt) args k
      else
        '(flags, fmt) ← flags_loop (tail fmt) 0;
        '(field_width, flags, fmt, args) ← parse_width fmt args flags;
        '(precision, fmt, args) ← parse_precision fmt args;
        q ← head fmt;
        let '(qualifier, fmt) := if (q =? 104) || (q =? 108) then (q, tail fmt) else (0, fmt) in
        c ← head fmt;
        '(args, k) ← convert c flags field_width precision qualifier args k;
        format_loop fuel (if c =? 0 then fmt else tail fmt) args k
  end.

(** [buf] is the address of the buffer; the result is the value returned and
    the buffer. *)
Definition rt_vsnprintf (buf : Z) (mem : list Z) (size : Z) (fmt : list Z) (args : list va)
  : option (Z * list Z) :=
  let '(lim, size) := if u32 (buf + size) <? buf then (0xffffffff - buf, 0xffffffff - buf)
                      else (u32 (buf + size) - buf, size) in
  k ← format_loop (length fmt) fmt args {| cells := mem; str := 0; lim := lim |};
  if size >? 0 then
    let i := if str k <? lim then str k else lim - 1 in
    guard (0 <= i < Z.of_nat (length (cells k)));;
    Some (i32 (str k), <[Z.to_nat i := 0]> (cells k))
  else Some (i32 (str k), cells k).

Definition rt_snprintf := rt_vsnprintf.
Definition rt_sprintf (buf : Z) (mem : list Z) (fmt : list Z) (args : list va) : option (Z * list Z) :=
  rt_vsnprintf buf mem 0xffffffff fmt args.

(** ** Reading numbers *)

Fixpoint skip_space (s : list Z) : option (list Z) :=
  match s with
  | [] => None
  | c :: s' => if (c =? 32) || (u32 (c - 9) <? 5) then skip_space s' else Some s
  end.

Fixpoint atoi_loop (s : list Z) (v : Z) : option Z :=
  match s with
  | [] => None
  | c :: s => if u32 (c - 48) <? 10 then atoi_loop s (i32 (v * 10 + c - 48)) else Some v
  end.

Definition rt_atoi (s : list Z) : option Z :=
  s ← skip_space s;
  c ← head s;
  let '(sign, s) := if c =? 45 then (-1, tail s) else if c =? 43 then (1, tail s) else (1, s) in
  v ← atoi_loop s 0;
  Some (if sign =? -1 then i32 (- v) else v).

(** ** What is printed

    The text of a conversion and of a whole format, without a buffer. *)

(** The digits of [n], the most significant first. *)
Fixpoint radix (fuel : nat) (b n : Z) : list Z :=
  match fuel with
  | O => []
  | S fuel => if n <? b then [n] else radix fuel b (n / b) ++ [n mod b]
  end.

(** Every base but ten prints as sixteen. *)
Definition real_base (base : Z) : Z := if base =? 10 then 10 else 16.

Definition magnitude (num type : Z) : Z := if has type SIGN && (num <? 0) then - num else u32 num.

Definition number_text (num base s precision type : Z) : list Z :=
  let sgn := let c := number_sign num type in if c =? 0 then [] else [c] in
  let ds := digit (has type LARGE) <$> radix 11 (real_base base) (magnitude num type) in
  let zeros := replicate (Z.to_nat (precision - Z.of_nat (length ds))) 48 in
  let fill := Z.to_nat (s - Z.max precision (Z.of_nat (length ds)) - Z.of_nat (length sgn)) in
  let body := zeros ++ (if precision =? 0 then [] else ds) in
  if has type LEFT then sgn ++ body ++ replicate fill 32
  else if has type ZEROPAD then sgn ++ replicate fill 48 ++ body
  else replicate fill 32 ++ sgn ++ body.

Definition justify (flags width : Z) (text : list Z) : list Z :=
  let fill := replicate (Z.to_nat width) 32 in
  if has flags LEFT then text ++ fill else fill ++ text.

Definition convert_text (c flags field_width precision qualifier : Z) (args : list va)
  : option (list va * list Z) :=
  if c =? 99 then
    '(v, args) ← va_int args; Some (args, justify flags (field_width - 1) [u8 v])
  else if c =? 115 then
    '(s, args) ← va_str args;
    let s := default null_text s in
    n ← rt_strlen s;
    let n := if precision >? 0 then Z.min n precision else n in
    Some (args, justify flags (field_width - n) (take (Z.to_nat n) s))
  else if c =? 112 then
    '(v, args) ← va_int args;
    Some (args, if field_width =? -1 then number_text (i32 v) 16 8 precision (Z.lor flags ZEROPAD)
                else number_text (i32 v) 16 field_width precision flags)
  else if c =? 37 then Some (args, [37])
  else if (c =? 111) || (c =? 88) || (c =? 120) || (c =? 100) || (c =? 105) || (c =? 117) then
    let base := if c =? 111 then 8 else if (c =? 88) || (c =? 120) then 16 else 10 in
    let flags := if c =? 88 then Z.lor flags LARGE
                 else if (c =? 100) || (c =? 105) then Z.lor flags SIGN else flags in
    '(n, args) ← va_int args;
    Some (args, number_text (int_arg qualifier flags n) base field_width precision flags)
  else Some (args, 37 :: if c =? 0 then [] else [c]).

Fixpoint format_text (fuel : nat) (fmt : list Z) (args : list va) : option (list Z) :=
  match fuel with
  | O => None
  | S fuel =>
      c ← head fmt;
      if c =? 0 then Some []
      else if negb (c =? 37) then t ← format_text fuel (tail fmt) args; Some (c :: t)
      else
        '(flags, fmt) ← flags_loop (tail fmt) 0;
        '(field_width, flags, fmt, args) ← parse_width fmt args flags;
        '(precision, fmt, args) ← parse_precision fmt args;
        q ← head fmt;
        let '(qualifier, fmt) := if (q =? 104) || (q =? 108) then (q, tail fmt) else (0, fmt) in
        c ← head fmt;
        '(args, t) ← convert_text c flags field_width precision qualifier args;
        r ← format_text fuel (if c =? 0 then fmt else tail fmt) args;
        Some (t ++ r)
  end.

(** ** The output pointer *)

(** [text] has been put into a buffer of [n] bytes. *)
Definition filled_sink (mem : list Z) (n : nat) (text : list Z) : sink :=
  {| cells := take n text ++ drop (length (take n text)) mem;
     str := Z.of_nat (length text); lim := Z.of_nat n |}.

Section output.
Context (mem : list Z) (n : nat) (Hn : (n <= length mem)%nat).

Lemma put_ok c text : put c (filled_sink mem n text) = Some (filled_sink mem n (text ++ [c])).
Proof using Hn.
  unfold put, filled_sink. cbn [cells str lim]. rewrite !length_app. simpl length.
  destruct (Z.of_nat (length text) <? Z.of_nat n) eqn:E; zify_bool.
  - rewrite (take_ge text), (take_ge (text ++ [c])) by (rewrite ?length_app; simpl; lia).
    rewrite option_guard_True by (rewrite length_drop; lia). cbn [mbind option_bind]. do 2 f_equal; [|lia].
    rewrite Nat2Z.id, insert_app_r_alt by lia. rewrite Nat.sub_diag, <- app_assoc. f_equal.
    destruct (drop (length text) mem) as [|x l] eqn:El.
    { apply (f_equal length) in El. rewrite length_drop in El. simpl in El. lia. }
    simpl. f_equal. apply (f_equal (drop 1)) in El. rewrite drop_drop in El.
    by rewrite length_app.
  - rewrite (take_app_le text [c]) by lia. do 2 f_equal. lia.
Qed.

Lemma put_times_ok k c text :
  put_times k c (filled_sink mem n text) = Some (filled_sink mem n (text ++ replicate k c)).
Proof using Hn.
  revert text. induction k as [|k IH]; intros text; simpl; [by rewrite app_nil_r|].
  rewrite put_ok. cbn [mbind option_bind]. by rewrite IH, <- app_assoc.
Qed.

Lemma put_list_ok l text :
  put_list l (filled_sink mem n text) = Some (filled_sink mem n (text ++ l)).
Proof using Hn.
  revert text. induction l as [|c l IH]; intros text; simpl; [by rewrite app_nil_r|].
  rewrite put_ok. cbn [mbind option_bind]. by rewrite IH, <- app_assoc.
Qed.

Lemma pad_ok c size text : pad c size (filled_sink mem n text) =
  Some (if size >? 0 then -1 else size - 1, filled_sink mem n (text ++ replicate (Z.to_nat size) c)).
Proof using Hn. unfold pad. by rewrite put_times_ok. Qed.
End output.

(** ** Digits *)

Lemma u32_i32 n : 0 <= n < 2 ^ 32 -> u32 (i32 n) = n.
Proof.
  intros Hn. unfold wrap, swrap. rewrite Zminus_mod_idemp_l.
  replace (n + 2 ^ (32 - 1) - 2 ^ (32 - 1)) with n by lia. by apply Z.mod_small.
Qed.

Lemma i32_zero n : 0 <= n < 2 ^ 32 -> i32 n = 0 -> n = 0.
Proof. intros Hn E. rewrite <- (u32_i32 n Hn), E. done. Qed.

Lemma divide_spec n base : 0 <= n < 2 ^ 32 ->
  divide (i32 n) base = (n mod real_base base, i32 (n / real_base base)).
Proof. intros Hn. unfold divide, real_base. rewrite u32_i32 by done. by destruct (base =? 10). Qed.

Lemma real_base_bounds base : 10 <= real_base base <= 16.
Proof. unfold real_base. destruct (base =? 10); lia. Qed.

Lemma digits_loop_spec large base fuel : forall n, 0 < n < 2 ^ 32 -> n < real_base base ^ Z.of_nat fuel ->
  digits_loop (S fuel) large (i32 n) base = Some (rev (digit large <$> radix fuel (real_base base) n)).
Proof.
  pose proof (real_base_bounds base) as Hb. induction fuel as [|fuel IH]; intros n Hn Hlt; [simpl in Hlt; lia|].
  remember (S fuel) as f eqn:Hf. cbn [digits_loop]. destruct (Z.eqb_spec (i32 n) 0) as [E|_].
  { apply i32_zero in E; lia. }
  rewrite divide_spec by lia. rewrite Hf at 2. cbn [radix]. destruct (n <? real_base base) eqn:E; zify_bool.
  - rewrite Z.mod_small, Z.div_small by lia. change (i32 0) with 0. by subst.
  - subst f. rewrite Nat2Z.inj_succ, Z.pow_succ_r in Hlt by lia.
    assert (0 < n / real_base base) by (apply Z.div_str_pos; lia).
    assert (n / real_base base < real_base base ^ Z.of_nat fuel) by (apply Z.div_lt_upper_bound; lia).
    assert (n / real_base base <= n) by (apply Z.div_le_upper_bound; nia).
    rewrite IH by lia. cbn [mbind option_bind]. by rewrite fmap_app, rev_app_distr.
Qed.

Lemma radix_fuel b f : 10 <= b -> forall m, 0 <= m < b ^ Z.of_nat f -> (0 < f)%nat ->
  radix (S f) b m = radix f b m.
Proof.
  intros Hb. induction f as [|f IH]; intros m Hm Hf; [lia|]. rewrite (eq_refl : radix (S (S f)) b m =
    if m <? b then [m] else radix (S f) b (m / b) ++ [m mod b]).
  cbn [radix]. destruct (m <? b) eqn:E; [done|]. zify_bool. f_equal.
  rewrite Nat2Z.inj_succ, Z.pow_succ_r in Hm by lia.
  assert (0 < m / b) by (apply Z.div_str_pos; lia).
  assert (m / b < b ^ Z.of_nat f) by (apply Z.div_lt_upper_bound; lia).
  apply IH; [lia|]. destruct f; [simpl in *; lia|lia].
Qed.

Lemma number_digits_spec large base n : 0 <= n < 2 ^ 32 ->
  number_digits large (i32 n) base = Some (rev (digit large <$> radix 11 (real_base base) n)).
Proof.
  intros Hn. pose proof (real_base_bounds base) as Hb. unfold number_digits.
  destruct (Z.eqb_spec (i32 n) 0) as [E|Hne].
  - apply i32_zero in E as ->; [|lia]. cbn [radix]. destruct (0 <? real_base base) eqn:E; zify_bool; [reflexivity|lia].
  - assert (n <> 0) by (intros ->; apply Hne; reflexivity).
    assert (n < real_base base ^ Z.of_nat 10).
    { apply Z.lt_le_trans with (10 ^ 10); [lia|]. apply Z.pow_le_mono_l. lia. }
    rewrite (digits_loop_spec large base 10) by lia. by rewrite (radix_fuel _ 10) by lia.
Qed.

Lemma length_radix f b n : (length (radix f b n) <= f)%nat.
Proof.
  revert n. induction f as [|f IH]; intros n; simpl; [done|]. destruct (n <? b); simpl; [lia|].
  rewrite length_app. simpl. specialize (IH (n / b)). lia.
Qed.

(** ** Flags *)

Lemma has_lor flags f g : has flags (Z.lor f g) = has flags f || has flags g.
Proof.
  unfold has. rewrite Z.land_lor_distr_r, <- negb_andb. f_equal.
  destruct (Z.eqb_spec (Z.lor (Z.land flags f) (Z.land flags g)) 0) as [E|E].
  - apply Z.lor_eq_0_iff in E as [-> ->]. done.
  - destruct (Z.eqb_spec (Z.land flags f) 0) as [E1|], (Z.eqb_spec (Z.land flags g) 0) as [E2|]; try done.
    by rewrite E1, E2 in E.
Qed.

Lemma has_clear type f : Z.land (wnot 32 ZEROPAD) f = f -> has (Z.land type (wnot 32 ZEROPAD)) f = has type f.
Proof. intros E. unfold has. by rewrite <- Z.land_assoc, E. Qed.

Lemma has_cleared type : has (Z.land type (wnot 32 ZEROPAD)) ZEROPAD = false.
Proof. unfold has. by rewrite <- Z.land_assoc, Z.land_0_r. Qed.

(** Clearing the zero flag of a left-justified number. *)
Definition settle (type : Z) : Z := if has type LEFT then Z.land type (wnot 32 ZEROPAD) else type.

Lemma has_settle type f : Z.land (wnot 32 ZEROPAD) f = f -> has (settle type) f = has type f.
Proof. intros E. unfold settle. destruct (has type LEFT); [by apply has_clear|done]. Qed.

Lemma has_settle_zero type : has (settle type) ZEROPAD = negb (has type LEFT) && has type ZEROPAD.
Proof. unfold settle. destruct (has type LEFT); [apply has_cleared|done]. Qed.

Lemma number_sign_settle num type : number_sign num (settle type) = number_sign num type.
Proof. unfold number_sign. by rewrite !has_settle. Qed.

Lemma i32_range n : - 2 ^ 31 <= i32 n < 2 ^ 31.
Proof. unfold swrap. pose proof (Z.mod_pos_bound (n + 2 ^ (32 - 1)) (2 ^ 32)). lia. Qed.

Lemma i32_u32 n : i32 (u32 n) = i32 n.
Proof. unfold swrap, wrap. by rewrite Zplus_mod_idemp_l. Qed.

(** What the digits are taken of. *)
Lemma magnitude_spec num type : - 2 ^ 31 <= num < 2 ^ 31 ->
  0 <= magnitude num type < 2 ^ 32 /\
  (if has type SIGN && (num <? 0) then i32 (- num) else num) = i32 (magnitude num type).
Proof.
  intros Hn. unfold magnitude. destruct (has type SIGN && (num <? 0)) eqn:E; zify_bool.
  - split; [lia|done].
  - split; [apply wrap_bounds; lia|]. rewrite i32_u32. symmetry. apply swrap_small; lia.
Qed.

(** ** A number *)

Lemma opt_bind {A B} (f : A -> option B) (a : A) : Some a ≫= f = f a.
Proof. done. Qed.

Lemma guard_bind (P : Prop) {HP : Decision P} {B} (f : P -> option B) (r : option B) :
  P -> (forall H, f H = r) -> (guard P ≫= f) = r.
Proof. intros HP' Hf. destruct (decide P) as [H|]; [|done]. unfold guard. destruct (decide P); [apply Hf|done]. Qed.

Lemma replicate_nonpos (x c : Z) : x <= 0 -> replicate (Z.to_nat x) c = [].
Proof. intros Hx. by replace (Z.to_nat x) with 0%nat by lia. Qed.

Section number.
Context (mem : list Z) (n : nat) (Hn : (n <= length mem)%nat).

Lemma put_if (b : bool) c text : (if b then Some (filled_sink mem n text) else put c (filled_sink mem n text)) =
  Some (filled_sink mem n (text ++ if b then [] else [c])).
Proof using Hn. destruct b; [by rewrite app_nil_r|by apply put_ok]. Qed.

(** Padding written after the width is used up is empty. *)
Ltac fills :=
  repeat match goal with |- context [?a >? ?b] => destruct (Z.gtb_spec a b) end;
  repeat match goal with
  | |- context [replicate (Z.to_nat ?x) _] => rewrite (replicate_nonpos x) by lia
  end;
  rewrite ?app_nil_r, ?app_nil_l; simpl app; repeat (f_equal; try lia).

Lemma print_number_ok num base s precision type text : - 2 ^ 31 <= num < 2 ^ 31 ->
  print_number num base s precision type (filled_sink mem n text) =
  Some (filled_sink mem n (text ++ number_text num base s precision type)).
Proof using Hn.
  intros Hnum. destruct (magnitude_spec num type Hnum) as [Hm Em].
  unfold print_number. fold (settle type).
  rewrite number_sign_settle, !(has_settle type SIGN), !(has_settle type LARGE), !(has_settle type LEFT),
    has_lor, (has_settle type LEFT), has_settle_zero, Em by done.
  rewrite number_digits_spec by done. rewrite opt_bind. unfold number_text.
  set (ds := digit (has type LARGE) <$> radix 11 (real_base base) (magnitude num type)).
  assert (length (rev ds) = length ds) as -> by apply length_rev.
  assert (length ds <= 11)%nat by (unfold ds; rewrite length_fmap; apply length_radix).
  apply guard_bind; [lia|intros _]. rewrite rev_involutive.
  set (d := Z.of_nat (length ds)). set (sgn := number_sign num type).
  assert ((if d >? precision then d else precision) = Z.max precision d) as ->.
  { rewrite Z.gtb_ltb. destruct (Z.ltb_spec precision d); lia. }
  set (m := Z.max precision d). replace (m - d) with (Z.max 0 (precision - d)) by lia.
  replace (Z.to_nat (Z.max 0 (precision - d))) with (Z.to_nat (precision - d)) by lia.
  destruct (has type LEFT) eqn:El, (has type ZEROPAD) eqn:Ez, (sgn =? 0) eqn:Es;
    cbn [negb andb orb];
    repeat (first [rewrite (pad_ok mem n Hn) | rewrite (put_ok mem n Hn) | rewrite (put_times_ok mem n Hn)
                  | rewrite opt_bind]).
  all: destruct (precision =? 0); cbn [negb];
    rewrite ?(put_list_ok mem n Hn), ?opt_bind, ?(pad_ok mem n Hn), ?opt_bind.
  all: do 2 f_equal; rewrite <- ?app_assoc; clear; simpl length; fills.
Qed.
End number.

(** ** A format *)

Section format.
Context (mem : list Z) (n : nat) (Hn : (n <= length mem)%nat).

Lemma bind_inv {A B} (m : option A) (f : A -> option B) r :
  m ≫= f = Some r -> exists a, m = Some a /\ f a = Some r.
Proof using. destruct m as [a|]; [by exists a|done]. Qed.

(** Run the output operations of a goal. *)
Ltac outputs :=
  repeat first [ rewrite opt_bind | rewrite (put_times_ok mem n Hn) | rewrite (put_list_ok mem n Hn)
               | rewrite (put_ok mem n Hn) | rewrite (print_number_ok mem n Hn) by apply i32_range ].

Lemma convert_ok c flags w p q args args' t text :
  convert_text c flags w p q args = Some (args', t) ->
  convert c flags w p q args (filled_sink mem n text) = Some (args', filled_sink mem n (text ++ t)).
Proof using Hn.
  unfold convert_text, convert, justify. intros H.
  destruct (c =? 99).
  { apply bind_inv in H as ([v args1] & -> & [= <- <-]). outputs.
    destruct (has flags LEFT); outputs; by rewrite <- !app_assoc. }
  destruct (c =? 115).
  { apply bind_inv in H as ([v args1] & -> & H). rewrite opt_bind.
    apply bind_inv in H as (len & -> & [= <- <-]). rewrite opt_bind.
    assert ((if (p >? 0) && (len >? p) then p else len) = (if p >? 0 then len `min` p else len)) as ->.
    { destruct (p >? 0); simpl; [|done]. rewrite Z.gtb_ltb. destruct (Z.ltb_spec p len); lia. }
    destruct (has flags LEFT); outputs; by rewrite <- !app_assoc. }
  destruct (c =? 112).
  { apply bind_inv in H as ([v args1] & -> & [= <- <-]). rewrite opt_bind.
    by destruct (w =? -1); outputs. }
  destruct (c =? 37).
  { injection H as <- <-. by outputs. }
  destruct (_ || (c =? 117)).
  { apply bind_inv in H as ([v args1] & -> & [= <- <-]). rewrite opt_bind. unfold int_arg. by outputs. }
  injection H as <- <-. destruct (c =? 0); outputs; by rewrite <- ?app_assoc.
Qed.

Lemma format_ok fuel : forall fmt args text t, format_text fuel fmt args = Some t ->
  format_loop fuel fmt args (filled_sink mem n text) = Some (filled_sink mem n (text ++ t)).
Proof using Hn.
  induction fuel as [|fuel IH]; intros fmt args text t; [done|]. cbn [format_text format_loop]. intros H.
  apply bind_inv in H as (c & -> & H). rewrite opt_bind. destruct (c =? 0).
  { injection H as <-. by rewrite app_nil_r. }
  destruct (negb (c =? 37)).
  { apply bind_inv in H as (t' & H & [= <-]). outputs. by rewrite (IH _ _ _ t'), <- app_assoc. }
  apply bind_inv in H as ([flags fmt1] & -> & H). rewrite opt_bind.
  apply bind_inv in H as ([[[w flags'] fmt2] args1] & -> & H). rewrite opt_bind.
  apply bind_inv in H as ([[p fmt3] args2] & -> & H). rewrite opt_bind.
  apply bind_inv in H as (q & -> & H). rewrite opt_bind.
  destruct ((q =? 104) || (q =? 108)); apply bind_inv in H as (d & -> & H); rewrite opt_bind;
    apply bind_inv in H as ([args3 t1] & Hc & H); rewrite (convert_ok _ _ _ _ _ _ _ _ _ Hc), opt_bind;
    apply bind_inv in H as (t2 & H & [= <-]); by rewrite (IH _ _ _ t2), <- app_assoc.
Qed.
End format.

(** A C string of at most [size] bytes with the terminator; a buffer of no
    bytes stays as it is. *)
Definition truncated (mem : list Z) (size : Z) (text : list Z) : list Z :=
  if size =? 0 then mem
  else let s := take (Z.to_nat (size - 1)) text in s ++ 0 :: drop (S (length s)) mem.

(** Writing the terminator. *)
Lemma terminate mem text (n : nat) : (0 < n)%nat -> length mem = n ->
  let s := take (n - 1) text in
  <[length s := 0]> (take n text ++ drop (length (take n text)) mem) = s ++ 0 :: drop (S (length s)) mem.
Proof.
  intros Hn Hm s. destruct (decide (length text < n)%nat) as [Hlt|Hge].
  - assert (s = text) as -> by (apply take_ge; lia). rewrite (take_ge text) by lia.
    rewrite insert_app_r_alt, Nat.sub_diag by lia. f_equal.
    destruct (drop (length text) mem) as [|x l] eqn:El.
    { apply (f_equal length) in El. rewrite length_drop in El. simpl in El. lia. }
    simpl. f_equal. apply (f_equal (drop 1)) in El. rewrite drop_drop in El.
    by replace (S (length text)) with (length text + 1)%nat by lia.
  - assert (length s = (n - 1)%nat) as Hs by (unfold s; rewrite length_take; lia).
    destruct (lookup_lt_is_Some_2 text (n - 1)) as [x Hx]; [lia|].
    assert (take n text = s ++ [x]) as ->.
    { unfold s. rewrite <- (take_S_r text (n - 1) x) by done. f_equal. lia. }
    rewrite <- app_assoc, insert_app_r_alt, Nat.sub_diag by lia. simpl. do 2 f_equal.
    rewrite length_app. simpl. f_equal. lia.
Qed.

(** The writer against the text. *)
Lemma vsnprintf_text buf mem size fmt args text :
  0 <= buf -> 0 <= size -> buf + size < 2 ^ 32 -> Z.of_nat (length mem) = size ->
  format_text (length fmt) fmt args = Some text -> Z.of_nat (length text) < 2 ^ 31 ->
  rt_vsnprintf buf mem size fmt args = Some (Z.of_nat (length text), truncated mem size text).
Proof.
  intros Hb Hs Hw Hm Ht Hl. unfold rt_vsnprintf. rewrite wrap_small by lia.
  destruct (Z.ltb_spec (buf + size) buf) as [|_]; [lia|].
  replace (buf + size - buf) with size by lia.
  assert (Z.to_nat size <= length mem)%nat as Hn by lia.
  assert ({| cells := mem; str := 0; lim := size |} = filled_sink mem (Z.to_nat size) []) as ->.
  { unfold filled_sink. rewrite take_nil, Z2Nat.id by lia. done. }
  rewrite (format_ok mem _ Hn _ _ _ _ _ Ht), opt_bind. cbn [app]. unfold truncated, filled_sink.
  cbn [str cells]. rewrite (swrap_small 32 (Z.of_nat (length text))) by lia.
  destruct (Z.gtb_spec size 0) as [Hpos|Hpos].
  - destruct (Z.eqb_spec size 0) as [|_]; [lia|]. set (l := if _ <? size then _ else _).
    set (s := take (Z.to_nat (size - 1)) text).
    assert (l = Z.of_nat (length s) /\ 0 <= l < size) as [El Hlb].
    { unfold l, s. rewrite length_take. destruct (Z.ltb_spec (Z.of_nat (length text)) size); lia. }
    assert (length (take (Z.to_nat size) text ++ drop (length (take (Z.to_nat size) text)) mem) = length mem) as Hlen.
    { rewrite length_app, length_drop, length_take. lia. }
    apply guard_bind; [lia|intros _]. do 2 f_equal. rewrite El, Nat2Z.id.
    unfold s. replace (Z.to_nat (size - 1)) with (Z.to_nat size - 1)%nat by lia. apply terminate; lia.
  - assert (size = 0) as -> by lia. simpl. by rewrite drop_0.
Qed.

(** ** Fuel *)

Lemma flags_loop_length fmt : forall f f' fmt', flags_loop fmt f = Some (f', fmt') -> (length fmt' <= length fmt)%nat.
Proof.
  induction fmt as [|c fmt IH]; intros f f' fmt' H; [done|]. cbn [flags_loop] in H. simpl.
  repeat match type of H with (if ?b then _ else _) = _ => destruct b; [apply IH in H; lia|] end.
  injection H as <- <-. done.
Qed.

Lemma skip_atoi_length fmt : forall i i' fmt', skip_atoi fmt i = Some (i', fmt') -> (length fmt' <= length fmt)%nat.
Proof.
  induction fmt as [|c fmt IH]; intros i i' fmt' H; [done|]. cbn [skip_atoi] in H. simpl.
  destruct (isdigit c); [apply IH in H; lia|]. injection H as <- <-. done.
Qed.

Lemma parse_width_length fmt args f r : parse_width fmt args f = Some r -> (length r.1.2 <= length fmt)%nat.
Proof.
  unfold parse_width. intros H. apply bind_inv in H as (c & Hc & H). destruct (isdigit c).
  - apply bind_inv in H as ([i fmt'] & Hi & [= <-]). by eapply skip_atoi_length.
  - destruct (c =? 42); [|by injection H as <-].
    apply bind_inv in H as ([v args'] & _ & H). destruct fmt; [done|].
    destruct (i32 v <? 0); injection H as <-; simpl; lia.
Qed.

Lemma parse_precision_length fmt args r : parse_precision fmt args = Some r -> (length r.1.2 <= length fmt)%nat.
Proof.
  unfold parse_precision. intros H. apply bind_inv in H as (c & Hc & H). destruct (c =? 46); [|by injection H as <-].
  destruct fmt as [|c' fmt]; [done|]. cbn [tail] in H. apply bind_inv in H as (d & Hd & H).
  apply bind_inv in H as ([[p fmt'] args'] & Hp & [= <-]). simpl. destruct (isdigit d).
  - apply bind_inv in Hp as ([i fmt2] & Hi & [= <- <- <-]). apply skip_atoi_length in Hi. lia.
  - destruct (d =? 42); [|injection Hp as <- <- <-; lia].
    apply bind_inv in Hp as ([v args2] & _ & [= <- <- <-]). destruct fmt; simpl; lia.
Qed.

(** More fuel than the length of the format changes nothing. *)
Lemma format_text_fuel f1 : forall f2 fmt args, (length fmt <= f1)%nat -> (length fmt <= f2)%nat ->
  format_text f1 fmt args = format_text f2 fmt args.
Proof.
  induction f1 as [|f1 IH]; intros f2 fmt args H1 H2.
  { destruct fmt; [|simpl in H1; lia]. by destruct f2. }
  destruct f2 as [|f2]; [destruct fmt; [done|simpl in H2; lia]|]. cbn [format_text].
  destruct fmt as [|c fmt]; [done|]. cbn [head mbind option_bind tail]. simpl in H1, H2.
  destruct (c =? 0); [done|]. destruct (negb (c =? 37)); [by rewrite (IH f2) by lia|].
  destruct (flags_loop fmt 0) as [[flags fmt1]|] eqn:E1; [|done]. apply flags_loop_length in E1. simpl.
  destruct (parse_width fmt1 args flags) as [[[[w flags'] fmt2] args1]|] eqn:E2; [|done].
  apply parse_width_length in E2. simpl in *.
  destruct (parse_precision fmt2 args1) as [[[p fmt3] args2]|] eqn:E3; [|done].
  apply parse_precision_length in E3. simpl in *.
  destruct fmt3 as [|q fmt3]; [done|]. simpl in *.
  destruct ((q =? 104) || (q =? 108)).
  - destruct fmt3 as [|d fmt3]; [done|]. simpl in *.
    destruct (convert_text d flags' w p q args2) as [[args3 t]|]; [|done]. simpl.
    destruct (d =? 0); rewrite (IH f2) by (simpl; lia); done.
  - simpl. destruct (convert_text q flags' w p 0 args2) as [[args3 t]|]; [|done]. simpl.
    destruct (q =? 0); rewrite (IH f2) by (simpl; lia); done.
Qed.

(** C32: [rt_snprintf] writes nothing outside its buffer whatever the format and
    the arguments are, returns the length of the whole text, and leaves in the
    buffer the text cut to its size and always terminated.  The text does not
    depend on the buffer, and more fuel than the length of the format changes
    nothing. *)
Theorem rt_vsnprintf_correct buf mem size fmt args text :
  0 <= buf -> 0 <= size -> buf + size < 2 ^ 32 -> Z.of_nat (length mem) = size ->
  format_text (length fmt) fmt args = Some text -> Z.of_nat (length text) < 2 ^ 31 ->
  rt_vsnprintf buf mem size fmt args = Some (Z.of_nat (length text), truncated mem size text) /\
  (forall fuel, (length fmt <= fuel)%nat -> format_text fuel fmt args = Some text).
Proof.
  intros Hb Hs Hw Hm Ht Hl. split; [by apply vsnprintf_text|].
  intros fuel Hf. by rewrite (format_text_fuel fuel (length fmt)).
Qed.

(** ** Reading back *)

Definition value_of (b : Z) (ds : list Z) (v : Z) : Z := fold_left (fun v d => v * b + d) ds v.

Lemma value_of_app b l k v : value_of b (l ++ k) v = value_of b k (value_of b l v).
Proof. apply fold_left_app. Qed.

Lemma radix_value b f : 10 <= b -> forall n, 0 <= n < b ^ Z.of_nat f -> value_of b (radix f b n) 0 = n.
Proof.
  intros Hb. induction f as [|f IH]; intros n Hn; [simpl in *; lia|]. cbn [radix].
  destruct (n <? b) eqn:E; [done|]. zify_bool. rewrite Nat2Z.inj_succ, Z.pow_succ_r in Hn by lia.
  rewrite value_of_app, IH. { simpl. rewrite Z.mul_comm. symmetry. apply Z.div_mod. lia. }
  split; [apply Z.div_pos; lia|]. apply Z.div_lt_upper_bound; lia.
Qed.

Lemma radix_digits b f : 10 <= b -> forall n, 0 <= n -> Forall (fun d => 0 <= d < b) (radix f b n).
Proof.
  intros Hb. induction f as [|f IH]; intros n Hn; simpl; [done|].
  destruct (n <? b) eqn:E; zify_bool; [by repeat constructor|].
  apply Forall_app. split; [apply IH, Z.div_pos; lia|]. constructor; [|done]. apply Z.mod_pos_bound. lia.
Qed.

Lemma radix_nonempty b f n : radix (S f) b n <> [].
Proof. simpl. destruct (n <? b); [done|]. by destruct (radix f b (n / b)). Qed.

Lemma i32_eq v : exists k, i32 v = v - 2 ^ 32 * k.
Proof.
  exists ((v + 2 ^ 31) / 2 ^ 32). unfold swrap. change (32 - 1) with 31.
  pose proof (Z.div_mod (v + 2 ^ 31) (2 ^ 32)). lia.
Qed.

Lemma i32_plus v k : i32 (v + 2 ^ 32 * k) = i32 v.
Proof.
  unfold swrap. replace (v + 2 ^ 32 * k + 2 ^ (32 - 1)) with (v + 2 ^ (32 - 1) + k * 2 ^ 32) by lia.
  by rewrite Z_mod_plus_full.
Qed.

Lemma i32_step v b d : i32 (i32 v * b + d) = i32 (v * b + d).
Proof.
  destruct (i32_eq v) as [k ->]. rewrite <- (i32_plus (v * b + d) (- (k * b))). f_equal. lia.
Qed.

Lemma i32_opp v : i32 (- i32 v) = i32 (- v).
Proof. destruct (i32_eq v) as [k ->]. rewrite <- (i32_plus (- v) k). f_equal. lia. Qed.

Lemma digit_char d : 0 <= d < 10 -> digit false d = 48 + d /\ u32 (48 + d - 48) = d.
Proof.
  intros Hd. unfold digit. destruct (Z.ltb_spec d 10); [|lia]. split; [done|]. rewrite wrap_small; lia.
Qed.

(** The characters that end a number. *)
Definition stops (s : list Z) : Prop := exists c s', s = c :: s' /\ (c = 0 \/ c = 32).

Lemma atoi_loop_digits ds s : Forall (fun d => 0 <= d < 10) ds -> stops s -> forall v,
  atoi_loop ((digit false <$> ds) ++ s) (i32 v) = Some (i32 (value_of 10 ds v)).
Proof.
  intros Hds (c & s' & -> & Hc). induction Hds as [|d ds Hd Hds IH]; intros v; simpl.
  - by destruct Hc as [-> | ->].
  - destruct (digit_char d Hd) as [-> Eu]. rewrite Eu. destruct (Z.ltb_spec d 10); [|lia].
    replace (i32 v * 10 + (48 + d) - 48) with (i32 v * 10 + d) by lia. rewrite i32_step. apply IH.
Qed.

Lemma skip_space_run k s : skip_space (replicate k 32 ++ s) = skip_space s.
Proof. by induction k. Qed.

(** A number in decimal: blanks, at most one sign, digits, and something else. *)
Lemma atoi_number k sg ds s : Forall (fun d => 0 <= d < 10) ds -> ds <> [] -> stops s ->
  sg ∈ [[]; [45]; [43]; [32]] ->
  rt_atoi (replicate k 32 ++ sg ++ (digit false <$> ds) ++ s) =
  Some (if decide (sg = [45]) then i32 (- value_of 10 ds 0) else i32 (value_of 10 ds 0)).
Proof.
  intros Hds Hne Hs Hsg. unfold rt_atoi. rewrite skip_space_run.
  pose proof (atoi_loop_digits ds s Hds Hs 0) as Hloop. change (i32 0) with 0 in Hloop.
  destruct ds as [|d ds]; [done|]. apply Forall_cons in Hds as [Hd _].
  destruct (digit_char d Hd) as [Ed _].
  assert (skip_space ((digit false <$> d :: ds) ++ s) = Some ((digit false <$> d :: ds) ++ s)) as Hsk.
  { rewrite fmap_cons, Ed. cbn [app skip_space]. destruct (Z.eqb_spec (48 + d) 32); [lia|].
    rewrite wrap_small by lia. by destruct (Z.ltb_spec (48 + d - 9) 5); [lia|]. }
  assert (forall c, c = 45 \/ c = 43 -> skip_space (c :: (digit false <$> d :: ds) ++ s) =
    Some (c :: (digit false <$> d :: ds) ++ s)) as Hsg1 by (intros c [-> | ->]; done).
  assert (forall r, r = Some (i32 (value_of 10 (d :: ds) 0)) ->
    (c ← head ((digit false <$> d :: ds) ++ s);
     let '(sign, s0) := if c =? 45 then (-1, tail ((digit false <$> d :: ds) ++ s))
       else if c =? 43 then (1, tail ((digit false <$> d :: ds) ++ s)) else (1, (digit false <$> d :: ds) ++ s) in
     v ← atoi_loop s0 0; Some (if sign =? -1 then i32 (- v) else v)) = r) as Hplain.
  { intros r ->. assert (head ((digit false <$> d :: ds) ++ s) = Some (48 + d)) as -> by (by rewrite fmap_cons, Ed).
    rewrite opt_bind. destruct (Z.eqb_spec (48 + d) 45); [lia|].
    destruct (Z.eqb_spec (48 + d) 43); [lia|]. rewrite Hloop. done. }
  repeat (apply elem_of_cons in Hsg as [->|Hsg]); [..|by apply not_elem_of_nil in Hsg]; cbn [app].
  - rewrite Hsk, opt_bind. by apply Hplain.
  - rewrite Hsg1 by auto. cbn [mbind option_bind head tail Z.eqb Pos.eqb]. rewrite Hloop, opt_bind.
    simpl. by rewrite i32_opp.
  - rewrite Hsg1 by auto. cbn [mbind option_bind head tail Z.eqb Pos.eqb]. by rewrite Hloop, opt_bind.
  - cbn [skip_space Z.eqb Pos.eqb orb]. rewrite Hsk, opt_bind. by apply Hplain.
Qed.

Lemma has_sign flags : has (Z.lor flags SIGN) SIGN = true.
Proof.
  unfold has. rewrite Z.land_lor_distr_l. destruct (Z.eqb_spec (Z.lor (Z.land flags SIGN) (Z.land SIGN SIGN)) 0) as [E|]; [|done].
  by apply Z.lor_eq_0_iff in E as [_ ?].
Qed.

(** What [%d] prints for [n], however it is padded and signed, [rt_atoi] reads
    as [n]. *)
Lemma number_text_atoi n w p flags rest : - 2 ^ 31 <= n < 2 ^ 31 -> p <> 0 -> has flags LARGE = false ->
  rt_atoi (number_text n 10 w p (Z.lor flags SIGN) ++ 0 :: rest) = Some n.
Proof.
  intros Hn Hp Hl. unfold number_text.
  set (type := Z.lor flags SIGN). assert (has type LARGE = false) as ->.
  { unfold type, has. rewrite Z.land_lor_distr_l. change (Z.land SIGN LARGE) with 0. rewrite Z.lor_0_r. exact Hl. }
  unfold magnitude, number_sign. rewrite (has_sign flags : has type SIGN = true). cbn [andb].
  destruct (Z.eqb_spec p 0) as [|_]; [done|].
  set (m := if n <? 0 then - n else u32 n). change (real_base 10) with 10.
  set (ds := radix 11 10 m). set (c := if n <? 0 then 45 else _).
  set (sgn := if c =? 0 then [] else [c]).
  assert (0 <= m < 2 ^ 32) as Hm.
  { unfold m. destruct (n <? 0) eqn:E; zify_bool; [lia|]. apply wrap_bounds. lia. }
  assert (Forall (fun d => 0 <= d < 10) ds) as Hds by (apply radix_digits; lia).
  assert (ds <> []) as Hne by apply radix_nonempty.
  assert (value_of 10 ds 0 = m) as Hv by (apply radix_value; lia).
  assert (sgn ∈ [[]; [45]; [43]; [32]] /\ (if decide (sgn = [45]) then i32 (- m) else i32 m) = n) as [Hsg Hval].
  { unfold sgn, c, m. destruct (n <? 0) eqn:E; zify_bool.
    - cbn [Z.eqb Pos.eqb]. split; [set_solver|]. rewrite decide_True by done. rewrite Z.opp_involutive. apply swrap_small; lia.
    - rewrite (wrap_small 32 n) by lia.
      destruct (has type PLUS); [|destruct (has type SPACE)]; cbn [Z.eqb Pos.eqb]; (split; [set_solver|rewrite decide_False by done; apply swrap_small; lia]). }
  assert (forall k z b, rt_atoi (replicate k 32 ++ sgn ++ (replicate z 48 ++ (digit false <$> ds)) ++
    replicate b 32 ++ 0 :: rest) = Some n) as Hatoi.
  { intros k z b. assert (replicate z 48 = digit false <$> replicate z 0) as -> by (by rewrite fmap_replicate).
    rewrite <- fmap_app. rewrite atoi_number; [|apply Forall_app; split; [by apply Forall_replicate|done]| | |done].
    - rewrite value_of_app. assert (value_of 10 (replicate z 0) 0 = 0) as -> by (by induction z). rewrite Hv. by f_equal.
    - intros E. apply app_eq_nil in E as [_ ?]. done.
    - destruct b; simpl; eexists _, _; eauto. }
  set (z := Z.to_nat (p - _)). set (f := Z.to_nat (w - _ - _)).
  destruct (has type LEFT); [|destruct (has type ZEROPAD)].
  - rewrite <- !app_assoc. specialize (Hatoi 0%nat z f). rewrite <- !app_assoc in Hatoi. exact Hatoi.
  - specialize (Hatoi 0%nat (f + z)%nat 0%nat). rewrite replicate_add in Hatoi. rewrite <- !app_assoc in *. exact Hatoi.
  - specialize (Hatoi f z 0%nat). rewrite <- !app_assoc in *. exact Hatoi.
Qed.

Lemma number_text_plain n : - 2 ^ 31 <= n < 2 ^ 31 -> (length (number_text n 10 (-1) (-1) SIGN) <= 11)%nat.
Proof.
  intros Hn. unfold number_text, magnitude, number_sign. change (has SIGN LARGE) with false.
  change (has SIGN LEFT) with false. change (has SIGN ZEROPAD) with false. change (has SIGN SIGN) with true.
  change (has SIGN PLUS) with false. change (has SIGN SPACE) with false. cbn [andb]. change (real_base 10) with 10.
  set (m := if n <? 0 then - n else u32 n).
  assert (0 <= m < 10 ^ 10) as Hm.
  { unfold m. destruct (n <? 0) eqn:E; zify_bool; [lia|]. pose proof (wrap_bounds 32 n). lia. }
  rewrite (radix_fuel 10 10) by lia. pose proof (length_radix 10 10 m) as Hlen.
  change (-1 =? 0) with false. cbv iota. rewrite !length_app, !length_replicate, !length_fmap.
  destruct (n <? 0); change (45 =? 0) with false; change (0 =? 0) with true; cbv iota; cbn [length]; lia.
Qed.

Definition fmt_d : list Z := [37; 100; 0].


(** ** Witnesses *)

(** "%5d|%-4x|%s" of -42, 255 and "ok" in a buffer of ten bytes. *)
Definition demo_fmt : list Z := [37; 53; 100; 124; 37; 45; 52; 120; 124; 37; 115; 0].
Definition demo_args : list va := [VInt (-42); VInt 255; VStr (Some [111; 107; 0])].
Definition demo_text : list Z := [32; 32; 45; 52; 50; 124; 102; 102; 32; 32; 124; 111; 107].

Lemma rt_vsnprintf_correct_witness :
  rt_vsnprintf 0x1000 (replicate 10 7) 10 demo_fmt demo_args =
  Some (13, [32; 32; 45; 52; 50; 124; 102; 102; 32; 0]).
Proof.
  destruct (rt_vsnprintf_correct 0x1000 (replicate 10 7) 10 demo_fmt demo_args demo_text) as [E _]; [done..|].
  rewrite E. reflexivity.
Defined.

