(* ===== verification/Env.v ===== *)
(** * The environment: common/env/env.c and its board functions

    The variables are strings ["name=value"] in a linked list, kept in a flash
    partition of 8 KiB as the header ["ENV\0"] and the strings one after
    another.  A node's bytes are its string, the terminator and whatever lies
    behind the allocated block, which [env_node_search] may read.  The chip
    behind the SFUD library is a parameter here; SfudTheorems puts the driver of
    Sfud in its place. *)

From S2P Require Import Prelude Kservice.

Definition ENV_ENABLE : Z := 1.
Definition EQ : Z := 61.
Definition ENV_HEADER : list Z := [69; 78; 86; 0].

(** [global_env_ctb]; the list of nodes by their strings. *)
Record env_ctb := { flag : Z; length_ : Z; free : Z; count : Z; head_ : list (list Z) }.

Definition set_free (f : Z) (e : env_ctb) : env_ctb :=
  {| flag := flag e; length_ := length_ e; free := f; count := count e; head_ := head_ e |}.

Definition strlen (s : list Z) : Z := Z.of_nat (length s).

Definition env_is_end (buf : list Z) (ptr : nat) : option bool :=
  c0 ← buf !! ptr;
  if c0 =? 0 then c1 ← buf !! S ptr; Some (c1 =? 0) else Some false.

Definition env_node_add (d : list Z) (e : env_ctb) : env_ctb :=
  {| flag := flag e; length_ := length_ e; free := u32 (free e - (strlen d + 1));
     count := u32 (count e + 1); head_ := head_ e ++ [d] |}.

(** The node is known by its place in the list. *)
Definition env_node_delete (i : nat) (e : env_ctb) : env_ctb :=
  match head_ e !! i with
  | None => e
  | Some d =>
      {| flag := flag e; length_ := length_ e; free := u32 (free e + (strlen d + 1));
         count := u32 (count e - 1); head_ := delete i (head_ e) |}
  end.

Section env.
(** The memory behind a node's block. *)
Variable beyond : list Z -> nat -> Z.

Definition node_memory (d : list Z) (n : nat) : list Z := d ++ 0 :: (beyond d <$> seq 0 n).

Fixpoint search_loop (nodes : list (list Z)) (name : list Z) (i : nat) : option (option nat) :=
  match nodes with
  | [] => Some None
  | d :: nodes =>
      let name_len := length name in
      c ← node_memory d name_len !! name_len;
      if c =? EQ then
        r ← rt_memcmp (node_memory d name_len) (name ++ [0]) name_len;
        if r =? 0 then Some (Some i) else search_loop nodes name (S i)
      else search_loop nodes name (S i)
  end.
Definition env_node_search (name : list Z) (e : env_ctb) : option (option nat) :=
  search_loop (head_ e) name 0.

(** [mem_ok]: [rt_calloc] has memory for the node. *)
Definition env_set (mem_ok : bool) (name data : list Z) (e : env_ctb) : option env_ctb :=
  node ← env_node_search name e;
  let e := match node with Some i => env_node_delete i e | None => e end in
  if mem_ok then Some (env_node_add (name ++ [EQ] ++ data) e) else Some e.

Definition env_unset (name : list Z) (e : env_ctb) : option env_ctb :=
  node ← env_node_search name e;
  Some (match node with Some i => env_node_delete i e | None => e end).

(** The string behind the equals sign, or null. *)
Definition env_get (name : list Z) (e : env_ctb) : option (option (list Z)) :=
  node ← env_node_search name e;
  match node with
  | None => Some None
  | Some i => d ← head_ e !! i; Some (Some (drop (S (length name)) d))
  end.
End env.

(** ** The partition *)

Section partition.
(** The chip, and SFUD's operations on it; without a chip the flash is read
    through its memory window and cannot be written. *)
Variable chip : Type.
Variable sfud_read : chip -> Z -> Z -> list Z.
Variable sfud_erase : chip -> Z -> Z -> chip.
Variable sfud_write : chip -> Z -> Z -> list Z -> chip.
Variable window : chip -> Z -> Z -> list Z.
Variable sfud_dev : bool.

Definition board_get_env_flag : Z := 1.
Definition board_get_env_length : Z := 0x2000.
Definition board_get_env_read (f : chip) : list Z :=
  if sfud_dev then sfud_read f 0x1D000 0x2000 else window f 0x9F01D000 0x2000.
Definition board_get_env_write (f : chip) (buffer : list Z) : chip :=
  if sfud_dev then sfud_write (sfud_erase f 0x1D000 0x2000) 0x1D000 0x2000 buffer else f.

(** [budget] nodes fit in memory; [None] is a read past the buffer. *)
Fixpoint load_loop (fuel : nat) (buf : list Z) (ptr : nat) (budget : nat) (e : env_ctb) : option env_ctb :=
  match fuel with
  | O => None
  | S fuel =>
      if bool_decide (ptr < length buf)%nat then
        b ← env_is_end buf ptr;
        if (b : bool) then Some e else
        let ptr := S ptr in
        n ← rt_strlen (drop ptr buf);
        match budget with
        | O => Some e
        | S budget =>
            load_loop fuel buf (ptr + Z.to_nat n) budget
              (env_node_add (take (Z.to_nat n) (drop ptr buf)) e)
        end
      else Some e
  end.

(** [mem_ok]: there is memory for the buffer.  The pointer grows each turn. *)
Definition env_init (mem_ok : bool) (budget : nat) (f : chip) (e : env_ctb) : option env_ctb :=
  let e := {| flag := board_get_env_flag;
              length_ := if board_get_env_flag =? ENV_ENABLE then board_get_env_length else length_ e;
              free := free e; count := count e; head_ := head_ e |} in
  if length_ e =? 0 then Some e else
  if mem_ok then
    let tmp_buf := board_get_env_read f in
    let e := set_free (u32 (length_ e - 4)) e in
    if bool_decide (take 4 tmp_buf = ENV_HEADER)
    then load_loop (S (length tmp_buf)) tmp_buf 3 budget e
    else Some e
  else Some e.

(** [rt_strcpy] to a place in the buffer. *)
Definition buf_strcpy (buf : list Z) (ptr : nat) (s : list Z) : list Z := list_inserts ptr (s ++ [0]) buf.

Fixpoint save_loop (nodes : list (list Z)) (ptr : nat) (buf : list Z) : list Z :=
  match nodes with
  | [] => buf
  | d :: nodes =>
      if bool_decide (ptr + length d < length buf)%nat
      then save_loop nodes (ptr + length d + 1) (buf_strcpy buf ptr d)
      else buf
  end.

Definition env_save (mem_ok : bool) (e : env_ctb) (f : chip) : chip :=
  if length_ e =? 0 then f else
  if mem_ok then
    let tmp_buf := list_inserts 0 ENV_HEADER (replicate (Z.to_nat (length_ e)) 0) in
    board_get_env_write f (save_loop (head_ e) 4 tmp_buf)
  else f.
End partition.

(** ** Searching *)

Definition nonzero (s : list Z) : Prop := Forall (fun c => c <> 0) s.

(** [d] is an assignment to [name]. *)
Definition assigns (name d : list Z) : Prop := name ++ [EQ] `prefix_of` d.
#[export] Instance assigns_dec name d : Decision (assigns name d).
Proof. unfold assigns. apply _. Defined.

Fixpoint find_assign (nodes : list (list Z)) (name : list Z) (i : nat) : option nat :=
  match nodes with
  | [] => None
  | d :: nodes => if decide (assigns name d) then Some i else find_assign nodes name (S i)
  end.

Lemma assigns_split name d v : d = name ++ EQ :: v -> assigns name d.
Proof. intros ->. exists v. by rewrite <- app_assoc. Qed.

Lemma search_loop_spec beyond nodes name i : Forall nonzero nodes -> nonzero name ->
  search_loop beyond nodes name i = Some (find_assign nodes name i).
Proof.
  intros Hn Hname. revert i. induction Hn as [|d nodes Hd Hn IH]; intros i; [done|].
  cbn [search_loop find_assign]. set (n := length name).
  assert (Hm : cstr d (node_memory beyond d n)) by (split; [done|by eexists]).
  assert (Ht : cstr name (name ++ [0])) by (split; [done|by eexists]).
  destruct (rt_memcmp_cstr name d _ _ Hm Ht) as (r & Hr & Hiff). fold n in Hr.
  destruct (lookup_lt_is_Some_2 (node_memory beyond d n) n) as [c Hc].
  { unfold node_memory. rewrite length_app. simpl. rewrite length_fmap, length_seq. lia. }
  rewrite Hc. simpl. rewrite (prefix_cstr _ _ _ Hm Hname) in Hiff.
  assert (Hcase : (c = EQ /\ r = 0) <-> assigns name d).
  { rewrite Hiff. unfold assigns. split.
    - intros [-> [v ->]]. unfold node_memory in Hc. rewrite <- app_assoc, lookup_app_r, Nat.sub_diag in Hc by (unfold n; lia).
      destruct v as [|x v]; simpl in Hc; [done|]. injection Hc as ->. exists v. by rewrite <- app_assoc.
    - intros [v ->]. unfold node_memory in Hc. rewrite <- !app_assoc, lookup_app_r, Nat.sub_diag in Hc by (unfold n; lia).
      simpl in Hc. injection Hc as <-. split; [done|]. rewrite <- app_assoc. by eexists. }
  destruct (c =? EQ) eqn:Ec; zify_bool.
  - rewrite Hr. simpl. destruct (r =? 0) eqn:Er; zify_bool; case_decide; try tauto; apply IH.
  - case_decide; [tauto|]. apply IH.
Qed.

(** ** The variables a list of nodes holds *)

Definition value (name : list Z) (nodes : list (list Z)) : option (list Z) :=
  drop (S (length name)) <$> head (filter (assigns name) nodes).

Lemma find_assign_spec nodes name k :
  match find_assign nodes name k with
  | Some i => exists l1 d l2, nodes = l1 ++ d :: l2 /\ i = (k + length l1)%nat /\
                assigns name d /\ filter (assigns name) l1 = []
  | None => filter (assigns name) nodes = []
  end.
Proof.
  revert k. induction nodes as [|d nodes IH]; intros k; simpl; [done|].
  case_decide as Hd.
  - exists [], d, nodes. split_and!; [done|simpl; lia|done|done].
  - specialize (IH (S k)). destruct (find_assign nodes name (S k)) as [i|].
    + destruct IH as (l1 & d' & l2 & -> & -> & Ha & Hf). exists (d :: l1), d', l2.
      split_and!; [done|simpl; lia|done|]. by rewrite filter_cons_False.
    + by rewrite filter_cons_False.
Qed.

Lemma prefix_cons_eq (x y : Z) l k d : x :: l `prefix_of` d -> y :: k `prefix_of` d ->
  x = y /\ exists d', d = x :: d' /\ l `prefix_of` d' /\ k `prefix_of` d'.
Proof. intros [l' ->] [k' E]. injection E as -> E. split; [done|]. eexists. split; [done|]. split; by eexists. Qed.

(** An assignment is to one name only, for names without the equals sign. *)
Lemma assigns_inj n m d : EQ ∉ n -> EQ ∉ m -> assigns n d -> assigns m d -> n = m.
Proof.
  unfold assigns. revert m d. induction n as [|x n IH]; intros m d Hn Hm Ha Hb.
  - destruct m as [|y m]; [done|]. simpl in *. destruct (prefix_cons_eq _ _ _ _ _ Ha Hb) as [E _].
    destruct Hm. rewrite E. by left.
  - destruct m as [|y m]; simpl in *; destruct (prefix_cons_eq _ _ _ _ _ Ha Hb) as [E (d' & -> & H1 & H2)].
    + destruct Hn. rewrite E. by left.
    + apply not_elem_of_cons in Hn as [_ Hn], Hm as [_ Hm]. rewrite E. f_equal. by apply (IH m d').
Qed.

Definition size (nodes : list (list Z)) : Z := foldr (fun d n => strlen d + 1 + n) 0 nodes.

Lemma size_app l k : size (l ++ k) = size l + size k.
Proof. unfold size. induction l as [|d l IH]; simpl; lia. Qed.

Definition node_ok (d : list Z) : Prop := nonzero d /\ d <> [].

(** Strings without null bytes, one assignment to each name, the counters true. *)
Record env_ok (e : env_ctb) : Prop := {
  eo_nodes : Forall node_ok (head_ e);
  eo_unique : forall name, EQ ∉ name -> (length (filter (assigns name) (head_ e)) <= 1)%nat;
  eo_free : free e = u32 (length_ e - 4 - size (head_ e));
  eo_count : count e = u32 (Z.of_nat (length (head_ e)))
}.

Lemma nodes_nonzero nodes : Forall node_ok nodes -> Forall nonzero nodes.
Proof. intros H. eapply Forall_impl; [exact H|]. by intros d [? _]. Qed.

Lemma env_get_value beyond name e : Forall node_ok (head_ e) -> nonzero name ->
  env_get beyond name e = Some (value name (head_ e)).
Proof.
  intros Hn Hname. unfold env_get, env_node_search. rewrite search_loop_spec by (done || by apply nodes_nonzero).
  simpl. pose proof (find_assign_spec (head_ e) name 0) as H. unfold value.
  destruct (find_assign _ _ _) as [i|]; [|by rewrite H].
  destruct H as (l1 & d & l2 & El & -> & Ha & Hf). rewrite El, filter_app, Hf, filter_cons_True by done.
  simpl. by rewrite lookup_app_r, Nat.sub_diag by lia.
Qed.

(** Removing the node a search has found. *)
Definition removed (name : list Z) (e : env_ctb) : env_ctb :=
  match find_assign (head_ e) name 0 with Some i => env_node_delete i e | None => e end.

Lemma wrap_shift w a b : 0 <= w -> wrap w (wrap w a + b) = wrap w (a + b).
Proof. intros Hw. unfold wrap. by rewrite Zplus_mod_idemp_l. Qed.

Lemma removed_spec name e : env_ok e -> EQ ∉ name ->
  env_ok (removed name e) /\ filter (assigns name) (head_ (removed name e)) = [] /\
  (forall m, EQ ∉ m -> m <> name ->
     filter (assigns m) (head_ (removed name e)) = filter (assigns m) (head_ e)).
Proof.
  intros [On Ou Of Oc] Hname. unfold removed. pose proof (find_assign_spec (head_ e) name 0) as H.
  destruct (find_assign _ _ _) as [i|].
  2:{ split_and!; [by split|done|done]. }
  destruct H as (l1 & d & l2 & El & -> & Ha & Hf). unfold env_node_delete.
  rewrite Nat.add_0_l, El, lookup_app_r, Nat.sub_diag, delete_middle by lia. simpl lookup. cbv iota.
  assert (Hother : forall m, EQ ∉ m -> m <> name ->
    filter (assigns m) (l1 ++ d :: l2) = filter (assigns m) (l1 ++ l2)).
  { intros m Hm Hne. rewrite !filter_app, filter_cons_False; [done|].
    intros Hm'. by apply Hne, (assigns_inj m name d). }
  rewrite El in On, Ou, Of, Oc. apply Forall_app in On as [On1 On2]. apply Forall_cons in On2 as [_ On2].
  assert (Hn2 : filter (assigns name) l2 = []).
  { specialize (Ou name Hname). rewrite filter_app, Hf, filter_cons_True in Ou by done. simpl in Ou.
    apply nil_length_inv. lia. }
  split_and!; [split|..]; simpl.
  - by apply Forall_app.
  - intros m Hm. destruct (decide (m = name)) as [->|Hne].
    + rewrite filter_app, Hf, Hn2. simpl. lia.
    + rewrite <- Hother by done. by apply Ou.
  - rewrite Of, size_app, size_app, wrap_shift by lia. simpl. f_equal. unfold strlen. lia.
  - rewrite Oc. unfold Z.sub. rewrite wrap_shift by lia. rewrite !length_app. simpl. f_equal. lia.
  - by rewrite filter_app, Hf, Hn2.
  - intros m Hm Hne. symmetry. by apply Hother.
Qed.

Lemma env_unset_run beyond name e : Forall node_ok (head_ e) -> nonzero name ->
  env_unset beyond name e = Some (removed name e).
Proof.
  intros Hn Hname. unfold env_unset, env_node_search. by rewrite search_loop_spec by (done || by apply nodes_nonzero).
Qed.

Lemma env_set_run beyond mem_ok name data e : Forall node_ok (head_ e) -> nonzero name ->
  env_set beyond mem_ok name data e =
  Some (if mem_ok then env_node_add (name ++ [EQ] ++ data) (removed name e) else removed name e).
Proof.
  intros Hn Hname. unfold env_set, env_node_search. rewrite search_loop_spec by (done || by apply nodes_nonzero).
  simpl. unfold removed. by destruct mem_ok.
Qed.

(** C39: The environment is a map from names to values: whatever lies behind the
    nodes in memory, [env_set] stores the value [env_get] then returns,
    [env_unset] removes it, and neither touches any other variable; names have
    no equals sign, strings no null byte.  Both keep the list consistent, with
    one node per name and the free and count fields right.  When memory runs
    out [env_set] has already removed the old value. *)
Theorem env_set_get beyond e name data : env_ok e -> nonzero name -> nonzero data -> EQ ∉ name ->
  (exists e', env_set beyond true name data e = Some e' /\ env_ok e' /\
     env_get beyond name e' = Some (Some data) /\
     forall m, nonzero m -> EQ ∉ m -> m <> name -> env_get beyond m e' = env_get beyond m e) /\
  (exists e', env_unset beyond name e = Some e' /\ env_set beyond false name data e = Some e' /\
     env_ok e' /\ env_get beyond name e' = Some None /\
     forall m, nonzero m -> EQ ∉ m -> m <> name -> env_get beyond m e' = env_get beyond m e).
Proof.
  intros Hok Hname Hdata Heq. pose proof (eo_nodes _ Hok) as Hn.
  destruct (removed_spec name e Hok Heq) as (Hok' & Hgone & Hother).
  pose proof (eo_nodes _ Hok') as Hn'. split.
  - rewrite env_set_run by done. set (d := name ++ [EQ] ++ data).
    assert (Ha : assigns name d) by (by apply (assigns_split name d data)).
    assert (Hd : node_ok d).
    { split; [|by destruct name]. apply Forall_app; split; [done|]. by constructor. }
    assert (Hadd : Forall node_ok (head_ (removed name e) ++ [d])).
    { apply Forall_app; split; [done|]. by constructor. }
    assert (Hm : forall m, EQ ∉ m -> m <> name ->
      filter (assigns m) (head_ (removed name e) ++ [d]) = filter (assigns m) (head_ e)).
    { intros m Hm Hne. rewrite filter_app, filter_cons_False, app_nil_r; [by apply Hother|].
      intros Hx. by apply Hne, (assigns_inj m name d). }
    eexists. split; [done|]. split_and!; [split; simpl| |].
    + done.
    + intros m Hm'. destruct (decide (m = name)) as [->|Hne].
      * rewrite filter_app, Hgone, filter_cons_True by done. simpl. lia.
      * rewrite Hm by done. by apply Hok.
    + rewrite (eo_free _ Hok'), size_app. unfold Z.sub at 1. rewrite wrap_shift by lia. simpl.
      f_equal. unfold strlen. lia.
    + rewrite (eo_count _ Hok'), wrap_shift by lia. rewrite length_app. simpl. f_equal. lia.
    + rewrite env_get_value by done. simpl. unfold value. rewrite filter_app, Hgone, filter_cons_True by done.
      simpl. unfold d. rewrite drop_app_ge by lia. by replace (S (length name) - length name)%nat with 1%nat by lia.
    + intros m Hm' Heqm Hne. rewrite !env_get_value by done. simpl. unfold value. by rewrite Hm.
  - exists (removed name e). rewrite env_unset_run, env_set_run by done. split_and!; try done.
    + rewrite env_get_value by done. unfold value. by rewrite Hgone.
    + intros m Hm' Heqm Hne. rewrite !env_get_value by done. unfold value. by rewrite Hother.
Qed.

(** ** Saving and loading *)

(** The nodes [env_save] writes from place [ptr] of a buffer of [n] bytes. *)
Fixpoint kept (n ptr : nat) (nodes : list (list Z)) : list (list Z) :=
  match nodes with
  | [] => []
  | d :: nodes => if bool_decide (ptr + length d < n)%nat then d :: kept n (ptr + length d + 1) nodes else []
  end.

Definition bytes (nodes : list (list Z)) : list Z := foldr (fun d l => d ++ [0] ++ l) [] nodes.

Lemma bytes_are_bytes nodes : Forall (Forall (fun c => 0 <= c < 256)) nodes -> Forall (fun c => 0 <= c < 256) (bytes nodes).
Proof. induction 1 as [|d nodes Hd Hn IH]; simpl; [constructor|]. apply Forall_app. split; [done|]. by constructor. Qed.

Lemma bytes_size nodes : Z.of_nat (length (bytes nodes)) = size nodes.
Proof.
  induction nodes as [|d nodes IH]; simpl; [done|].
  rewrite length_app. simpl. unfold strlen. fold (bytes nodes) (size nodes). lia.
Qed.

Lemma kept_prefix n ptr nodes : kept n ptr nodes `prefix_of` nodes.
Proof.
  revert ptr. induction nodes as [|d nodes IH]; intros ptr; simpl; [done|].
  case_bool_decide; [by apply prefix_cons|by eexists].
Qed.

Lemma kept_fits n ptr nodes : (ptr <= n)%nat -> Z.of_nat ptr + size (kept n ptr nodes) <= Z.of_nat n.
Proof.
  revert ptr. induction nodes as [|d nodes IH]; intros ptr Hp; simpl; [lia|].
  case_bool_decide; [|simpl; lia]. simpl. unfold strlen.
  specialize (IH (ptr + length d + 1)%nat ltac:(lia)). lia.
Qed.

Lemma kept_all n ptr nodes : Z.of_nat ptr + size nodes <= Z.of_nat n -> kept n ptr nodes = nodes.
Proof.
  revert ptr. induction nodes as [|d nodes IH]; intros ptr Hp; simpl; [done|].
  simpl in Hp. unfold strlen in Hp.
  assert (0 <= size nodes) by (rewrite <- bytes_size; lia).
  rewrite bool_decide_eq_true_2 by lia. f_equal. apply IH. lia.
Qed.

Lemma save_loop_spec nodes : forall pre k,
  exists k', save_loop nodes (length pre) (pre ++ replicate k 0) =
    pre ++ bytes (kept (length pre + k) (length pre) nodes) ++ replicate k' 0 /\
  (length (bytes (kept (length pre + k) (length pre) nodes)) + k' = k)%nat.
Proof.
  induction nodes as [|d nodes IH]; intros pre k; simpl; [by exists k|].
  rewrite length_app, length_replicate. case_bool_decide as Hd; [|by exists k].
  unfold buf_strcpy.
  assert (E : list_inserts (length pre) (d ++ [0]) (pre ++ replicate k 0)
              = (pre ++ d ++ [0]) ++ replicate (k - (length d + 1)) 0).
  { replace k with (length (d ++ [0%Z]) + (k - (length d + 1)))%nat at 1
      by (rewrite length_app; simpl; lia).
    rewrite replicate_add. rewrite <- (Nat.add_0_r (length pre)) at 1.
    rewrite list_inserts_app_r, list_inserts_0_r by (by rewrite length_replicate).
    by rewrite <- !app_assoc. }
  rewrite E. destruct (IH (pre ++ d ++ [0]) (k - (length d + 1))%nat) as (k' & Hs & Hl).
  rewrite !length_app in Hs, Hl. simpl in Hs, Hl.
  replace (length pre + (length d + 1))%nat with (length pre + length d + 1)%nat in Hs, Hl by lia.
  replace (length pre + length d + 1 + (k - (length d + 1)))%nat with (length pre + k)%nat in Hs, Hl by lia.
  exists k'. rewrite Hs. simpl. rewrite length_app. simpl. fold (bytes (kept (length pre + k) (length pre + length d + 1) nodes)).
  split; [by rewrite <- !app_assoc|lia].
Qed.

Definition add_all (nodes : list (list Z)) (e : env_ctb) : env_ctb :=
  fold_left (fun e d => env_node_add d e) nodes e.

Lemma add_all_eq nodes : forall e, free e = u32 (free e) -> count e = u32 (count e) ->
  add_all nodes e = {| flag := flag e; length_ := length_ e; free := u32 (free e - size nodes);
                       count := u32 (count e + Z.of_nat (length nodes)); head_ := head_ e ++ nodes |}.
Proof.
  induction nodes as [|d nodes IH]; intros e Hf Hc; simpl.
  - rewrite Z.sub_0_r, Z.add_0_r, <- Hf, <- Hc, app_nil_r. by destruct e.
  - rewrite IH by (simpl; by rewrite wrap_wrap). simpl. f_equal.
    + unfold Z.sub at 1. rewrite wrap_shift by lia. f_equal. lia.
    + rewrite wrap_shift by lia. f_equal. lia.
    + by rewrite <- app_assoc.
Qed.

(** With no byte behind the last string the end test reads outside. *)
Lemma load_loop_spec nodes : forall pre k fuel budget e, Forall node_ok nodes ->
  (length nodes < fuel)%nat -> (length nodes <= budget)%nat ->
  load_loop fuel (pre ++ 0 :: bytes nodes ++ replicate k 0) (length pre) budget e =
  match k with O => None | S _ => Some (add_all nodes e) end.
Proof.
  induction nodes as [|d nodes IH]; intros pre k fuel budget e Hn Hf Hb;
    (destruct fuel as [|fuel]; [simpl in Hf; lia|]); cbn [load_loop];
    rewrite bool_decide_eq_true_2 by (rewrite length_app; simpl; lia);
    unfold env_is_end at 1; rewrite (list_lookup_middle pre _ 0 (length pre)) by done; cbn [mbind option_bind Z.eqb].
  - rewrite lookup_app_r by lia. replace (S (length pre) - length pre)%nat with 1%nat by lia.
    by destruct k.
  - apply Forall_cons in Hn as [[Hd Hne] Hn]. destruct d as [|c d]; [done|].
    rewrite lookup_app_r by lia. replace (S (length pre) - length pre)%nat with 1%nat by lia.
    apply Forall_cons in Hd as Hcd. destruct Hcd as [Hc _].
    simpl lookup. cbn [mbind option_bind]. destruct (c =? 0) eqn:Ec; [zify_bool; done|].
    set (buf := pre ++ _). set (tail := bytes nodes ++ replicate k 0).
    assert (Ebuf : buf = (pre ++ [0]) ++ (c :: d) ++ [0] ++ tail).
    { unfold buf, tail. simpl. fold (bytes nodes). by rewrite <- !app_assoc. }
    assert (Edrop : drop (S (length pre)) buf = (c :: d) ++ [0] ++ tail).
    { rewrite Ebuf. apply drop_app_length'. rewrite length_app. simpl. lia. }
    rewrite Edrop, (rt_strlen_spec (c :: d)) by (split; [done|by eexists]).
    cbn [mbind option_bind]. destruct budget as [|budget]; [simpl in Hb; lia|].
    rewrite Nat2Z.id, take_app_length.
    replace (S (length pre) + length (c :: d))%nat with (length (pre ++ [0] ++ c :: d))
      by (rewrite !length_app; simpl; lia).
    replace buf with ((pre ++ [0] ++ c :: d) ++ 0 :: tail) by (rewrite Ebuf, <- !app_assoc; done).
    unfold tail. rewrite IH by (simpl in *; done || lia). by destruct k.
Qed.

Section roundtrip.
Context {chip : Type} (sfud_read : chip -> Z -> Z -> list Z) (sfud_erase : chip -> Z -> Z -> chip).
Context (sfud_write : chip -> Z -> Z -> list Z -> chip) (window : chip -> Z -> Z -> list Z).
(** On a chip that is ready, the partition reads back what was written to it after
    erasing it. *)
Variable ready : chip -> Prop.
Hypothesis sfud_law : forall f buf, ready f -> length buf = Z.to_nat 0x2000 -> Forall (fun b => 0 <= b < 256) buf ->
  sfud_read (sfud_write (sfud_erase f 0x1D000 0x2000) 0x1D000 0x2000 buf) 0x1D000 0x2000 = buf.

(** [global_env_ctb] at reset. *)
Definition env_reset : env_ctb := {| flag := 0; length_ := 0; free := 0; count := 0; head_ := [] |}.

(** What [env_save] writes, [env_init] finds after a reset: the variables in
    their order, as many from the front as the partition holds, and all of them
    when they fit, with the free and count fields right again.  When the saved
    strings fill the partition to its last byte, the end test of [env_init]
    reads past the buffer ([None]). *)
Lemma env_save_init e f budget : ready f -> env_ok e -> length_ e = board_get_env_length ->
  (length (head_ e) <= budget)%nat -> Forall (Forall (fun c => 0 <= c < 256)) (head_ e) ->
  let nodes := kept (Z.to_nat board_get_env_length) 4 (head_ e) in
  env_init chip sfud_read window true true budget
    (env_save chip sfud_erase sfud_write true true e f) env_reset =
  (if 4 + size nodes <? board_get_env_length then
     Some {| flag := ENV_ENABLE; length_ := board_get_env_length;
             free := board_get_env_length - 4 - size nodes;
             count := Z.of_nat (length nodes); head_ := nodes |}
   else None) /\
  nodes `prefix_of` head_ e /\
  (4 + size (head_ e) <= board_get_env_length -> nodes = head_ e).
Proof using sfud_law.
  intros Hready Hok Hlen Hb Hbyte nodes.
  assert (Hpre : nodes `prefix_of` head_ e) by apply kept_prefix.
  assert (Hfit : 4 + size nodes <= board_get_env_length) by (apply (kept_fits (Z.to_nat board_get_env_length) 4 (head_ e)); unfold board_get_env_length; lia).
  split; [|split; [done|intros H; by apply (kept_all (Z.to_nat board_get_env_length) 4)]].
  assert (Hnodes : Forall node_ok nodes).
  { destruct Hpre as [l El]. pose proof (eo_nodes _ Hok) as H. rewrite El in H. by apply Forall_app in H as [? _]. }
  assert (Hnb : (length nodes <= budget)%nat) by (apply prefix_length in Hpre; lia).
  unfold env_save. rewrite Hlen. cbn [board_get_env_length Z.eqb].
  destruct (save_loop_spec (head_ e) ENV_HEADER (Z.to_nat 0x2000 - 4)) as (k & Hs & Hk).
  change (length ENV_HEADER) with 4%nat in Hs, Hk.
  replace (4 + (Z.to_nat 0x2000 - 4))%nat with (Z.to_nat board_get_env_length) in Hs, Hk
    by (unfold board_get_env_length; lia).
  fold nodes in Hs, Hk.
  replace (list_inserts 0 ENV_HEADER (replicate (Z.to_nat board_get_env_length) 0))
    with (ENV_HEADER ++ replicate (Z.to_nat 0x2000 - 4) 0) by (by vm_compute).
  rewrite Hs. set (buf := ENV_HEADER ++ _ ++ _).
  assert (Hbl : Z.of_nat (length buf) = 0x2000).
  { unfold buf. rewrite !length_app, length_replicate, Hk. simpl length. lia. }
  unfold env_init, board_get_env_write, board_get_env_read. cbn [board_get_env_flag Z.eqb ENV_ENABLE length_ Pos.eqb].
  cbn [board_get_env_length Z.eqb]. rewrite sfud_law; [|done|unfold board_get_env_length in Hbl; lia|].
  2:{ unfold buf. apply Forall_app. split; [by repeat constructor|]. apply Forall_app. split; [|apply Forall_replicate; lia].
      apply bytes_are_bytes. destruct Hpre as [l El]. rewrite El in Hbyte. by apply Forall_app in Hbyte as [? _]. }
  rewrite bool_decide_eq_true_2 by done.
  replace buf with ([69; 78; 86] ++ 0 :: bytes nodes ++ replicate k 0) by done.
  assert (Hln : (length nodes <= length (bytes nodes))%nat).
  { clear. induction nodes as [|d l IH]; simpl; [done|]. rewrite length_app. simpl. fold (bytes l). lia. }
  assert (Hlb := f_equal Z.of_nat Hk). rewrite Nat2Z.inj_add, bytes_size in Hlb.
  change 3%nat with (length [69; 78; 86]).
  rewrite load_loop_spec; [|done| |done].
  2:{ rewrite length_app. simpl. rewrite length_app. lia. }
  pose proof (bytes_size nodes) as Hsz. unfold board_get_env_length in *.
  destruct k as [|k]; destruct (_ <? _) eqn:Elt; zify_bool; [lia|done| |lia].
  f_equal. rewrite add_all_eq by done. cbn [flag length_ free count head_ set_free env_reset].
  rewrite (wrap_small 32 (0x2000 - 4)), !wrap_small by (cbn; lia). reflexivity.
Qed.
End roundtrip.

(** ** Witnesses *)

Definition demo_env : env_ctb :=
  {| flag := 1; length_ := 0x2000; free := 0x2000 - 4 - 9; count := 2; head_ := [[97; 61; 49]; [98; 98; 61; 50]] |}.

Lemma no_eq name : forallb (fun c => negb (c =? EQ)) name = true -> EQ ∉ name.
Proof.
  induction name as [|c name IH]; simpl; [intros _; apply not_elem_of_nil|].
  rewrite andb_true_iff. intros [Hc H]. apply not_elem_of_cons. split; [|by apply IH].
  intros <-. by rewrite Z.eqb_refl in Hc.
Qed.

Lemma demo_env_ok : env_ok demo_env.
Proof.
  split; [|intros name Hn|done|done].
  - unfold node_ok, nonzero. simpl. repeat constructor; done.
  - simpl head_. rewrite !filter_cons. simpl. rewrite filter_nil.
    case_decide as H1; case_decide as H2; simpl; try lia.
    assert (E1 : name = [97]) by (apply (assigns_inj name [97] [97; 61; 49]); [done|apply no_eq; vm_compute; reflexivity|done|by exists [49]]).
    assert (E2 : name = [98; 98]) by (apply (assigns_inj name [98; 98] [98; 98; 61; 50]); [done|apply no_eq; vm_compute; reflexivity|done|by exists [50]]).
    by rewrite E1 in E2.
Qed.

Lemma env_set_get_witness :
  (exists e', env_set (fun _ _ => 7) true [97] [50] demo_env = Some e' /\ env_ok e' /\
     env_get (fun _ _ => 7) [97] e' = Some (Some [50]) /\
     forall m, nonzero m -> EQ ∉ m -> m <> [97] -> env_get (fun _ _ => 7) m e' = env_get (fun _ _ => 7) m demo_env).
Proof.
  apply (env_set_get (fun _ _ => 7) demo_env [97] [50]); [exact demo_env_ok|by repeat constructor|by repeat constructor|by apply no_eq].
Defined.
