(* ===== verification/Vfs.v ===== *)
(** * Files and file systems: the interface

    include/dfs/dfs_file.h and dfs_fs.h: what the layer of file descriptors asks
    of a file system.  Each file system is a record of operations on the state
    [W] of all of them; [D] is what a file system keeps in [fd->data].  [None] is
    a step the C code has no meaning for.  Strings are the bytes before the
    terminator. *)

From S2P Require Import Prelude.

Definition O_RDONLY : Z := 0.
Definition O_WRONLY : Z := 1.
Definition O_CREAT : Z := 64.
Definition O_TRUNC : Z := 512.
Definition O_APPEND : Z := 1024.
Definition O_DIRECTORY : Z := 65536.

Definition ENOENT : Z := 2.
Definition EIO : Z := 5.
Definition ENXIO : Z := 6.
Definition EBADF : Z := 9.
Definition ENOMEM : Z := 12.
Definition EBUSY : Z := 16.
Definition EEXIST : Z := 17.
Definition EXDEV : Z := 18.
Definition EINVAL : Z := 22.
Definition ENOSPC : Z := 28.
Definition ENOSYS : Z := 38.

(** [flags & f]. *)
Definition has (flags f : Z) : bool := negb (Z.land flags f =? 0).

(** The parts of [struct dfs_fd] a file system sees. *)
Record dfs_file (D : Type) := mk_file { path : list Z; flags : Z; size : Z; pos : Z; data : option D }.
Arguments mk_file {D}. Arguments path {D}. Arguments flags {D}. Arguments size {D}. Arguments pos {D}. Arguments data {D}.

Definition DFS_FS_FLAG_DEFAULT : Z := 0.
Definition DFS_FS_FLAG_FULLPATH : Z := 1.

(** An operation that is [RT_NULL] is [None].  Reading gives the bytes, writing
    takes them; [getdents] gives names, [stat] the size. *)
Record dfs_file_ops (W D : Type) := mk_file_ops {
  op_open : option (W -> dfs_file D -> option (Z * W * dfs_file D));
  op_close : option (W -> dfs_file D -> option (Z * dfs_file D));
  op_read : option (W -> dfs_file D -> Z -> option (Z * list (option Z) * dfs_file D));
  op_write : option (W -> dfs_file D -> list Z -> option (Z * W * dfs_file D));
  op_lseek : option (W -> dfs_file D -> Z -> option (Z * dfs_file D));
  op_getdents : option (W -> dfs_file D -> Z -> option (Z * list (list Z) * dfs_file D))
}.
Arguments op_open {W D}. Arguments op_close {W D}. Arguments op_read {W D}. Arguments op_write {W D}. Arguments op_lseek {W D}.
Arguments op_getdents {W D}.

Record dfs_filesystem_ops (W D : Type) := mk_fs_ops {
  op_flags : Z;
  fops : dfs_file_ops W D;
  op_unlink : option (W -> list Z -> option (Z * W));
  op_stat : option (W -> list Z -> option (Z * Z));
  op_rename : option (W -> list Z -> list Z -> option (Z * W))
}.
Arguments op_flags {W D}. Arguments fops {W D}. Arguments op_unlink {W D}. Arguments op_stat {W D}. Arguments op_rename {W D}.
