(* ===== verification/FileSystem.v ===== *)
(** * What a file system promises

    The contract between the layer of descriptors (Dfs) and a file system (the
    tables of operations of Vfs), as a class: the files are a map from paths below
    the mount point to bytes, and each operation says what it does to this map and
    to a descriptor.  RamfsSpec and RomfsSpec give instances, DfsSpec is proved
    against the class.  A file system that knows a part of the state is one on the
    whole state ([lift_sys]). *)

From S2P Require Import Prelude Alloc Vfs.

Abbreviation file_map := (gmap (list Z) (list Z)).

(** [b] with the bytes [buf] from [o] on. *)
Definition splice (b buf : list Z) (o : nat) : list Z := take o b ++ buf ++ drop (o + length buf) b.

Record file_system (W D : Type) := mk_sys {
  sp_ops : dfs_filesystem_ops W D;
  (** The names of files. *)
  sp_proper : list Z -> Prop;
  (** What opening a name with these flags gives, and what it makes of the files. *)
  sp_opens : file_map -> list Z -> Z -> Z -> file_map -> Prop;
  sp_writable : bool;
  sp_holds : W -> file_map -> Prop;
  (** The descriptor is open on the file of that name. *)
  sp_on : W -> dfs_file D -> list Z -> Prop;
  (** Nothing outside of the file system has changed. *)
  sp_inside : W -> W -> Prop
}.
Arguments mk_sys {W D}. Arguments sp_ops {W D}. Arguments sp_proper {W D}. Arguments sp_opens {W D}. Arguments sp_writable {W D}.
Arguments sp_holds {W D}. Arguments sp_on {W D}. Arguments sp_inside {W D}.

(** Descriptors on other names stay what they are. *)
Definition keeps_others {W D} (fsys : file_system W D) (w w' : W) (nm : list Z) : Prop :=
  sp_inside fsys w w' /\ forall f n, n <> nm -> sp_on fsys w f n -> sp_on fsys w' f n.

Class FileSystem {W D} (fsys : file_system W D) : Prop := {
  fs_inside :: PreOrder (sp_inside fsys);
  fs_below : Z.land (op_flags (sp_ops fsys)) DFS_FS_FLAG_FULLPATH = 0;
  fs_proper nm : sp_proper fsys nm -> nm <> [] /\ head nm <> Some 47;
  fs_name w f nm : sp_on fsys w f nm -> sp_proper fsys nm;
  fs_file w F f nm : sp_holds fsys w F -> sp_on fsys w f nm ->
    exists b, F !! nm = Some b /\ size f = Z.of_nat (length b) /\ 0 <= pos f <= size f;
  fs_same w f f' nm : sp_on fsys w f nm -> size f' = size f -> data f' = data f -> 0 <= pos f' <= size f -> sp_on fsys w f' nm;
  fs_opens_read F nm res F' : sp_opens fsys F nm O_RDONLY res F' ->
    F' = F /\ match F !! nm with Some _ => res = 0 | None => res < 0 end;
  fs_open : exists op, op_open (fops (sp_ops fsys)) = Some op /\ forall w F f nm,
    sp_holds fsys w F -> path f = 47 :: nm -> data f = None -> sp_proper fsys nm -> has (flags f) O_DIRECTORY = false ->
    exists res w' f' F', op w f = Some (res, w', f') /\ res <= 0 /\ sp_opens fsys F nm (flags f) res F' /\ (res < 0 -> F' = F) /\
      sp_holds fsys w' F' /\ keeps_others fsys w w' nm /\
      (res = 0 -> sp_on fsys w' f' nm /\ (has (flags f) O_APPEND = false -> pos f' = 0));
  fs_close : exists op, op_close (fops (sp_ops fsys)) = Some op /\ forall w f nm, sp_on fsys w f nm -> exists f', op w f = Some (0, f');
  fs_read : exists op, op_read (fops (sp_ops fsys)) = Some op /\ forall w F f nm len, sp_holds fsys w F -> sp_on fsys w f nm -> 0 <= len ->
    exists b f', F !! nm = Some b /\ let bs := take (Z.to_nat len) (drop (Z.to_nat (pos f)) b) in
      op w f len = Some (Z.of_nat (length bs), Some <$> bs, f') /\ sp_on fsys w f' nm /\ pos f' = pos f + Z.of_nat (length bs);
  fs_lseek : exists op, op_lseek (fops (sp_ops fsys)) = Some op /\ forall w f nm off, sp_on fsys w f nm -> 0 <= off < 2 ^ 31 ->
    exists res f', op w f off = Some (res, f') /\ sp_on fsys w f' nm /\
      if decide (off <= size f) then res = off /\ pos f' = off else res < 0 /\ pos f' = pos f;
  fs_write : if sp_writable fsys then exists op, op_write (fops (sp_ops fsys)) = Some op /\ forall w F f nm buf,
      sp_holds fsys w F -> sp_on fsys w f nm -> pos f + Z.of_nat (length buf) <= max_request ->
      exists b n w' f', F !! nm = Some b /\ op w f buf = Some (n, w', f') /\ keeps_others fsys w w' nm /\ sp_on fsys w' f' nm /\
        (n = 0 /\ pos f' = pos f /\ sp_holds fsys w' F \/
         n = Z.of_nat (length buf) /\ pos f' = pos f + n /\ sp_holds fsys w' (<[nm := splice b buf (Z.to_nat (pos f))]> F))
    else op_write (fops (sp_ops fsys)) = None;
  fs_unlink : if sp_writable fsys then exists op, op_unlink (sp_ops fsys) = Some op /\ forall w F nm,
      sp_holds fsys w F -> sp_proper fsys nm ->
      exists res w', op w (47 :: nm) = Some (res, w') /\ sp_holds fsys w' (delete nm F) /\ keeps_others fsys w w' nm /\
        match F !! nm with Some _ => res = 0 | None => res < 0 end
    else op_unlink (sp_ops fsys) = None
}.

Lemma keeps_others_id {W D} (fsys : file_system W D) `{!FileSystem fsys} w nm : keeps_others fsys w w nm.
Proof. split; [reflexivity|by intros ? ?]. Qed.

(** ** A file system on a part of the state *)

(** A part of the state, which may be missing. *)
Class Part (A W : Type) := { part_get : W -> option A; part_put : A -> W -> W }.
Class PartLaws (A W : Type) {P : Part A W} : Prop := {
  part_get_put a w : part_get (part_put a w) = Some a;
  part_put_put a b w : part_put a (part_put b w) = part_put a w;
  part_put_get a w : part_get w = Some a -> part_put a w = w
}.

(** One kind of data among others. *)
Class Kind (E D : Type) := { kind_in : E -> D; kind_out : D -> option E }.
Class KindLaws (E D : Type) {K : Kind E D} : Prop := { kind_out_in e : kind_out (kind_in e) = Some e }.

Section lift.
Context {A E W D : Type} `{!Part A W, !Kind E D}.

(** A descriptor whose data is of another kind is not one of this file system. *)
Definition file_out (f : dfs_file D) : option (dfs_file E) :=
  d ← match data f with None => Some None | Some d => e ← kind_out d; Some (Some e) end;
  Some (mk_file (path f) (flags f) (size f) (pos f) d).
Definition file_in (f : dfs_file E) : dfs_file D := mk_file (path f) (flags f) (size f) (pos f) (kind_in <$> data f).

Definition lift_file_ops (o : dfs_file_ops A E) : dfs_file_ops W D := mk_file_ops W D
  ((fun op w f => a ← part_get w; f ← file_out f; '(res, a, f) ← op a f; Some (res, part_put a w, file_in f)) <$> op_open o)
  ((fun op w f => a ← part_get w; f ← file_out f; '(res, f) ← op a f; Some (res, file_in f)) <$> op_close o)
  ((fun op w f len => a ← part_get w; f ← file_out f; '(res, bs, f) ← op a f len; Some (res, bs, file_in f)) <$> op_read o)
  ((fun op w f buf => a ← part_get w; f ← file_out f; '(res, a, f) ← op a f buf; Some (res, part_put a w, file_in f)) <$> op_write o)
  ((fun op w f off => a ← part_get w; f ← file_out f; '(res, f) ← op a f off; Some (res, file_in f)) <$> op_lseek o)
  ((fun op w f len => a ← part_get w; f ← file_out f; '(res, ns, f) ← op a f len; Some (res, ns, file_in f)) <$> op_getdents o).

Definition lift_ops (o : dfs_filesystem_ops A E) : dfs_filesystem_ops W D := mk_fs_ops W D (op_flags o) (lift_file_ops (fops o))
  ((fun op w p => a ← part_get w; '(res, a) ← op a p; Some (res, part_put a w)) <$> op_unlink o)
  ((fun op w p => a ← part_get w; op a p) <$> op_stat o)
  ((fun op w p q => a ← part_get w; '(res, a) ← op a p q; Some (res, part_put a w)) <$> op_rename o).

Definition lift_sys (fsys : file_system A E) : file_system W D := mk_sys (lift_ops (sp_ops fsys))
  (sp_proper fsys) (sp_opens fsys) (sp_writable fsys)
  (fun w F => exists a, part_get w = Some a /\ sp_holds fsys a F)
  (fun w f nm => exists a e, part_get w = Some a /\ file_out f = Some e /\ sp_on fsys a e nm)
  (fun w w' => w' = w \/ exists a a', part_get w = Some a /\ sp_inside fsys a a' /\ w' = part_put a' w).
End lift.

Section lift_laws.
Context {A E W D : Type} `{PL : PartLaws A W, KL : KindLaws E D}.
Variable fsys : file_system A E.
Context {HF : FileSystem fsys}.
Abbreviation lifted := (lift_sys (W := W) (D := D) fsys).

Lemma file_out_in (f : dfs_file E) : file_out (file_in f) = Some f.
Proof using KL. destruct f as [p fl sz ps [e|]]; unfold file_out; simpl; [by rewrite kind_out_in|done]. Qed.

Lemma file_out_fields (f : dfs_file D) (e : dfs_file E) : file_out f = Some e ->
  path e = path f /\ flags e = flags f /\ size e = size f /\ pos e = pos f.
Proof. unfold file_out. destruct (match data f with None => _ | Some d => _ end); [|done]. by intros [= <-]. Qed.

Lemma file_out_move (f : dfs_file D) (e : dfs_file E) f' : file_out f = Some e -> data f' = data f ->
  file_out f' = Some (mk_file (path f') (flags f') (size f') (pos f') (data e)).
Proof. unfold file_out. intros H ->. destruct (match data f with None => _ | Some d => _ end); [|done]. by injection H as <-. Qed.

Lemma lifted_keeps a a' w nm : part_get w = Some a -> keeps_others fsys a a' nm -> keeps_others lifted w (part_put a' w) nm.
Proof using PL.
  intros Hw [Hi Hk]. split; [right; by exists a, a'|]. intros f n Hn (b & e & Hb & He & Hon). simplify_eq.
  exists a', e. split_and!; [apply part_get_put|done|by apply Hk].
Qed.

#[export] Instance lift_laws : FileSystem lifted.
Proof using PL KL HF.
  split; simpl.
  - split; [by left|]. intros w1 w2 w3 [->|(a & a' & H1 & H2 & ->)]; [done|]. intros [->|(b & b' & H3 & H4 & ->)]; right.
    + by exists a, a'.
    + rewrite part_get_put in H3. injection H3 as <-. exists a, b'. split_and!; [done|by etrans|apply part_put_put].
  - apply HF.
  - apply HF.
  - intros w f nm (a & e & _ & _ & H). by eapply fs_name.
  - intros w F f nm (a & Ha & HF') (a' & e & Ha' & He & Hon). simplify_eq. destruct (file_out_fields _ _ He) as (_ & _ & <- & <-).
    by eapply fs_file.
  - intros w f f' nm (a & e & Ha & He & Hon) Hs Hd Hp. eexists a, _. split_and!; [done|by eapply file_out_move|].
    destruct (file_out_fields _ _ He) as (_ & _ & Hse & _). apply (fs_same a e _ nm Hon); simpl; [congruence|done|]. lia.
  - intros F nm res F'. apply fs_opens_read.
  - destruct fs_open as (op & -> & Hop). eexists. split; [done|]. intros w F f nm (a & Ha & HFa) Hp Hd Hn Hdir.
    assert (Ef : file_out f = Some (mk_file (path f) (flags f) (size f) (pos f) None)) by (unfold file_out; by rewrite Hd).
    simpl. rewrite Ha. cbn [mbind option_bind]. rewrite Ef. cbn [mbind option_bind].
    destruct (Hop a F (mk_file (path f) (flags f) (size f) (pos f) None) nm HFa Hp eq_refl Hn Hdir) as (res & a' & e & F' & -> & H1 & H2 & H3 & H4 & H5 & H6). simpl.
    eexists res, _, _, F'. split_and!; [done|done|done|done|exists a'; split; [apply part_get_put|done]|by eapply lifted_keeps|].
    intros Hr. destruct (H6 Hr) as [H7 H8]. split; [|done]. exists a', e. split_and!; [apply part_get_put|apply file_out_in|done].
  - destruct fs_close as (op & -> & Hop). eexists. split; [done|]. intros w f nm (a & e & -> & He & Hon). simpl. rewrite He. simpl.
    destruct (Hop a e nm Hon) as [e' ->]. by eexists.
  - destruct fs_read as (op & -> & Hop). eexists. split; [done|]. intros w F f nm len (a & Ha & HFa) (a' & e & Ha' & He & Hon) Hlen.
    simplify_eq. rewrite Ha. simpl. rewrite He. simpl. destruct (Hop a F e nm len HFa Hon Hlen) as (b & e' & Hb & E1 & H1 & H2).
    destruct (file_out_fields _ _ He) as (_ & _ & _ & <-). rewrite E1. simpl. exists b, (file_in e'). split_and!; [done|done| |done].
    exists a, e'. split_and!; [done|apply file_out_in|done].
  - destruct fs_lseek as (op & -> & Hop). eexists. split; [done|]. intros w f nm off (a & e & Ha & He & Hon) Hoff. simpl. rewrite Ha. simpl.
    rewrite He. simpl. destruct (file_out_fields _ _ He) as (_ & _ & <- & <-). destruct (Hop a e nm off Hon Hoff) as (res & e' & -> & H1 & H2).
    simpl. exists res, (file_in e'). split_and!; [done| |done]. exists a, e'. split_and!; [done|apply file_out_in|done].
  - pose proof (fs_write (fsys := fsys)) as H. destruct (sp_writable fsys); [|by rewrite H].
    destruct H as (op & -> & Hop). eexists. split; [done|]. intros w F f nm buf (a & Ha & HFa) (a' & e & Ha' & He & Hon). simplify_eq.
    destruct (file_out_fields _ _ He) as (_ & _ & _ & <-). intros Hlen. simpl. rewrite Ha. simpl. rewrite He. simpl.
    destruct (Hop a F e nm buf HFa Hon Hlen) as (b & n & a1 & e' & Hb & -> & H1 & H2 & H3). simpl.
    exists b, n, (part_put a1 w), (file_in e'). split_and!; [done|done|by eapply lifted_keeps| |].
    + exists a1, e'. split_and!; [apply part_get_put|apply file_out_in|done].
    + destruct H3 as [(? & ? & ?)|(? & ? & ?)]; [left|right]; (split_and!; [done|done|]); exists a1; (split; [apply part_get_put|done]).
  - pose proof (fs_unlink (fsys := fsys)) as H. destruct (sp_writable fsys); [|by rewrite H].
    destruct H as (op & -> & Hop). eexists. split; [done|]. intros w F nm (a & Ha & HFa) Hn. simpl. rewrite Ha. simpl.
    destruct (Hop a F nm HFa Hn) as (res & a' & -> & H1 & H2 & H3). simpl. exists res, (part_put a' w).
    split_and!; [done|exists a'; split; [apply part_get_put|done]|by eapply lifted_keeps|done].
Qed.
End lift_laws.
