(* ===== verification/Ramfs.v ===== *)
(** * Files in memory: dfs/filesystems/ramfs/dfs_ramfs.c

    One directory of files, whose entries and bytes are blocks of a memory heap:
    any allocator with the contract of file Alloc.  An entry is a typed cell at
    the address of its block; the list of the directory is the sequence of these
    addresses (RtList). *)

From S2P Require Import Prelude Alloc Kservice Object Vfs.

Definition RAMFS_NAME_MAX : Z := 32.
(** A list node, two pointers, the name and the size. *)
Definition sizeof_dirent : Z := 52.

(** [name] is the whole array. *)
Record ramfs_dirent := mk_dirent { d_name : list Z; d_data : Z; d_size : Z }.

(** A pointer to an entry: the root in the [struct dfs_ramfs], or a block. *)
Inductive dirent_ptr := Root | Entry (p : Z).

#[export] Instance dirent_ptr_eq_dec : EqDecision dirent_ptr.
Proof. solve_decision. Defined.

Record dfs_ramfs (S : Type) := mk_ramfs { memheap : S; root_list : list Z; dirents : gmap Z ramfs_dirent }.
Arguments mk_ramfs {S}. Arguments memheap {S}. Arguments root_list {S}. Arguments dirents {S}.

(** The loop over leading slashes. *)
Fixpoint skip_slashes (s : list Z) : list Z :=
  match s with
  | c :: s' => if c =? 47 then skip_slashes s' else s
  | [] => []
  end.

Section ramfs.
Context {S : Type} `{Allocator S}.
Implicit Types (r : dfs_ramfs S) (file : dfs_file dirent_ptr).

Definition set_memheap (s : S) r : dfs_ramfs S := mk_ramfs s (root_list r) (dirents r).
Definition set_dirent (p : Z) (d : ramfs_dirent) r : dfs_ramfs S :=
  mk_ramfs (memheap r) (root_list r) (<[p := d]> (dirents r)).
Definition set_root_list (l : list Z) r : dfs_ramfs S := mk_ramfs (memheap r) l (dirents r).

Fixpoint lookup_loop (l : list Z) (ds : gmap Z ramfs_dirent) (subpath : list Z) : option (option dirent_ptr) :=
  match l with
  | [] => Some None
  | p :: l =>
      d ← ds !! p;
      c ← rt_strcmp (d_name d) (subpath ++ [0]);
      if c =? 0 then Some (Some (Entry p)) else lookup_loop l ds subpath
  end.

Definition dfs_ramfs_lookup r (path : list Z) : option (option dirent_ptr) :=
  let subpath := skip_slashes path in
  match subpath with
  | [] => Some (Some Root)
  | _ => lookup_loop (root_list r) (dirents r) subpath
  end.

Definition dfs_ramfs_read r file (count : Z) : option (Z * list (option Z) * dfs_file dirent_ptr) :=
  match data file with
  | Some (Entry p) =>
      d ← dirents r !! p;
      let left := u32 (size file - pos file) in
      let length := if count <? left then count else left in
      let buf := if 0 <? length then al_read (d_data d + pos file) length (memheap r) else [] in
      Some (length, buf, mk_file (path file) (flags file) (size file) (pos file + length) (data file))
  | Some Root => if u32 (size file - pos file) =? 0 then Some (0, [], file) else None
  | None => None
  end.

(** Writing to a directory, which would put bytes in the root, is left out. *)
Definition dfs_ramfs_write r file (buf : list Z) : option (Z * dfs_ramfs S * dfs_file dirent_ptr) :=
  match data file with
  | Some (Entry p) =>
      d ← dirents r !! p;
      let count := Z.of_nat (length buf) in
      let store d r size :=
        let s := if 0 <? count then al_write (d_data d + pos file) buf (memheap r) else memheap r in
        Some (count, set_memheap s r, mk_file (path file) (flags file) size (pos file + count) (data file)) in
      if u32 (count + pos file) >? size file then
        '(ptr, s) ← al_realloc (d_data d) (u32 (pos file + count)) (memheap r);
        if ptr =? 0 then Some (0, set_memheap s r, file)
        else
          let d := mk_dirent (d_name d) ptr (u32 (pos file + count)) in
          store d (set_dirent p d (set_memheap s r)) (d_size d)
      else store d r (size file)
  | _ => None
  end.

Definition dfs_ramfs_lseek r file (offset : Z) : option (Z * dfs_file dirent_ptr) :=
  if offset <=? size file
  then Some (offset, mk_file (path file) (flags file) (size file) offset (data file))
  else Some (- EIO, file).

Definition dfs_ramfs_close r file : option (Z * dfs_file dirent_ptr) :=
  Some (0, mk_file (path file) (flags file) (size file) (pos file) None).

(** The end of [dfs_ramfs_open]. *)
Definition opened r file (d : dirent_ptr) : option (Z * dfs_ramfs S * dfs_file dirent_ptr) :=
  size ← match d with Root => Some 0 | Entry p => d_size <$> dirents r !! p end;
  Some (0, r, mk_file (path file) (flags file) size (if has (flags file) O_APPEND then size else 0) (Some d)).

Definition truncate r (p : Z) : option (dfs_ramfs S) :=
  d ← dirents r !! p;
  if d_data d =? 0 then Some (set_dirent p (mk_dirent (d_name d) 0 0) r)
  else s ← al_free (d_data d) (memheap r); Some (set_dirent p (mk_dirent (d_name d) 0 0) (set_memheap s r)).

Definition dfs_ramfs_open r file : option (Z * dfs_ramfs S * dfs_file dirent_ptr) :=
  if has (flags file) O_DIRECTORY then
    if has (flags file) O_CREAT then Some (- ENOSPC, r, file)
    else
      d ← dfs_ramfs_lookup r (path file);
      match d with
      | None => Some (- ENOENT, r, file)
      | Some d => opened r file d
      end
  else
    d ← dfs_ramfs_lookup r (path file);
    let finish r p := r ← (if has (flags file) O_TRUNC then truncate r p else Some r); opened r file (Entry p) in
    match d with
    | Some Root => Some (- ENOENT, r, file)
    | Some (Entry p) => finish r p
    | None =>
        if has (flags file) O_CREAT || has (flags file) O_WRONLY then
          '(p, s) ← al_alloc sizeof_dirent (memheap r);
          if p =? 0 then Some (- ENOMEM, set_memheap s r, file)
          else
            let d := mk_dirent (rt_strncpy (skip_slashes (path file)) RAMFS_NAME_MAX) 0 0 in
            finish (set_root_list (p :: root_list r) (set_dirent p d (set_memheap s r))) p
        else Some (- ENOENT, r, file)
    end.

(** The size in [struct stat]. *)
Definition dfs_ramfs_stat r (path : list Z) : option (Z * Z) :=
  d ← dfs_ramfs_lookup r path;
  match d with
  | None => Some (- ENOENT, 0)
  | Some Root => Some (0, 0)
  | Some (Entry p) => d ← dirents r !! p; Some (0, d_size d)
  end.

(** The entries whose index is at least [pos] and below [pos + count]. *)
Definition sizeof_dfs_dirent : Z := 260.
Definition dfs_ramfs_getdents r file (count : Z) : option (Z * list (list Z) * dfs_file dirent_ptr) :=
  match data file with
  | Some Root =>
      let count := count / sizeof_dfs_dirent in
      if count =? 0 then Some (- EINVAL, [], file)
      else
        let l := take (Z.to_nat count) (drop (Z.to_nat (pos file)) (root_list r)) in
        names ← mapM (fun p => d_name <$> dirents r !! p) l;
        Some (Z.of_nat (length names) * sizeof_dfs_dirent, names,
              mk_file (path file) (flags file) (size file) (pos file + Z.of_nat (length names)) (data file))
  | Some (Entry _) => Some (- EINVAL, [], file)
  | None => None
  end.

(** Giving back the root, which is no block, has no meaning. *)
Definition dfs_ramfs_unlink r (path : list Z) : option (Z * dfs_ramfs S) :=
  d ← dfs_ramfs_lookup r path;
  match d with
  | None => Some (- ENOENT, r)
  | Some Root => None
  | Some (Entry p) =>
      d ← dirents r !! p;
      s ← (if d_data d =? 0 then Some (memheap r) else al_free (d_data d) (memheap r));
      s ← al_free p s;
      Some (0, mk_ramfs s (base.filter (fun q => q <> p) (root_list r)) (delete p (dirents r)))
  end.

Definition dfs_ramfs_rename r (oldpath newpath : list Z) : option (Z * dfs_ramfs S) :=
  d ← dfs_ramfs_lookup r newpath;
  match d with
  | Some _ => Some (- EEXIST, r)
  | None =>
      d ← dfs_ramfs_lookup r oldpath;
      match d with
      | None => Some (- ENOENT, r)
      | Some Root => Some (0, r)
      | Some (Entry p) => d ← dirents r !! p;
          Some (0, set_dirent p (mk_dirent (rt_strncpy newpath RAMFS_NAME_MAX) (d_data d) (d_size d)) r)
      end
  end.

Definition ram_fops : dfs_file_ops (dfs_ramfs S) dirent_ptr :=
  mk_file_ops _ _ (Some dfs_ramfs_open) (Some dfs_ramfs_close) (Some dfs_ramfs_read) (Some dfs_ramfs_write) (Some dfs_ramfs_lseek)
    (Some dfs_ramfs_getdents).
Definition ramfs_ops : dfs_filesystem_ops (dfs_ramfs S) dirent_ptr :=
  mk_fs_ops _ _ DFS_FS_FLAG_DEFAULT ram_fops (Some dfs_ramfs_unlink) (Some dfs_ramfs_stat) (Some dfs_ramfs_rename).
End ramfs.
