(* ===== verification/RamfsSafe.v ===== *)
(** * The ramfs is a map from names to bytes

    The invariant of file Ramfs over the contract of an allocator, and what each
    operation does to the files. *)

From S2P Require Import Prelude Alloc Kservice Object Vfs FileSystem Ramfs.

(** A string as C has it, and a name that fits into an entry. *)
Definition c_string (s : list Z) : Prop := Forall (fun c => 0 < c < 256) s.
Definition proper (nm : list Z) : Prop :=
  nm <> [] /\ Z.of_nat (length nm) < RAMFS_NAME_MAX /\ c_string nm /\ head nm <> Some 47.

Lemma rt_strcmp_field nm k sub : c_string nm -> c_string sub ->
  exists c, rt_strcmp (nm ++ 0 :: k) (sub ++ [0]) = Some c /\ (c = 0 <-> nm = sub).
Proof.
  intros Hn. revert sub. induction Hn as [|a nm Ha Hn IH]; intros sub Hs; destruct Hs as [|b sub Hb Hs]; simpl.
  - exists 0. done.
  - eexists. split; [done|]. split; [|done]. unfold swrap. intros E. exfalso. zdiv.
  - rewrite (proj2 (Z.eqb_neq a 0)) by lia. simpl. eexists. split; [done|].
    split; [|done]. unfold swrap. intros E. exfalso. zdiv.
  - rewrite (proj2 (Z.eqb_neq a 0)) by lia. simpl. destruct (Z.eqb_spec a b) as [->|Hab].
    + destruct (IH sub Hs) as (c & -> & Hc). exists c. split; [done|]. rewrite Hc. split; [by intros ->|by intros [= ->]].
    + eexists. split; [done|]. split; [|by intros [= ? ?]]. unfold swrap. intros E. exfalso. zdiv.
Qed.

Lemma strncpy_terminated nm : proper nm -> exists k, rt_strncpy nm RAMFS_NAME_MAX = nm ++ 0 :: k.
Proof.
  intros (_ & Hl & _). unfold RAMFS_NAME_MAX in *. exists (replicate (31 - length nm) 0). unfold rt_strncpy.
  rewrite take_ge by lia. f_equal. replace (Z.to_nat 32 - length nm)%nat with (S (31 - length nm)) by lia. done.
Qed.

Lemma skip_slashes_proper nm : head nm <> Some 47 -> skip_slashes nm = nm.
Proof. destruct nm as [|c nm]; [done|]. simpl. intros H. destruct (Z.eqb_spec c 47); [by subst|done]. Qed.

Lemma skip_slashes_head s : head (skip_slashes s) <> Some 47.
Proof. induction s as [|c s IH]; simpl; [done|]. destruct (Z.eqb_spec c 47); [done|]. simpl. congruence. Qed.

Lemma skip_slashes_string s : c_string s -> c_string (skip_slashes s).
Proof. induction 1 as [|c s Hc Hs IH]; simpl; [constructor|]. case_match; [done|by constructor]. Qed.

Lemma filter_all (P : Z -> Prop) `{forall x, Decision (P x)} l : Forall P l -> base.filter P l = l.
Proof. induction 1; [done|]. rewrite filter_cons_True by done. by f_equal. Qed.

(** A file: its entry, its name, the block of its bytes or 0, its bytes. *)
Record entry := mk_entry { e_addr : Z; e_name : list Z; e_data : Z; e_bytes : list Z }.

(** The blocks of a file. *)
Definition blocks_of (e : entry) : list Z := e_addr e :: (if e_data e =? 0 then [] else [e_data e]).

Definition entry_ok (L : blocks_map) (ds : gmap Z ramfs_dirent) (e : entry) : Prop :=
  proper (e_name e) /\
  ds !! e_addr e = Some (mk_dirent (rt_strncpy (e_name e) RAMFS_NAME_MAX) (e_data e) (Z.of_nat (length (e_bytes e)))) /\
  is_Some (L !! e_addr e) /\ Z.of_nat (length (e_bytes e)) <= max_request /\
  if e_data e =? 0 then e_bytes e = []
  else exists c, L !! e_data e = Some c /\ (length (e_bytes e) <= length c)%nat /\ take (length (e_bytes e)) c = Some <$> e_bytes e.

Lemma blocks_split l1 e l2 : (l1 ++ e :: l2) ≫= blocks_of ≡ₚ blocks_of e ++ ((l1 ++ l2) ≫= blocks_of).
Proof. rewrite !bind_app, bind_cons. solve_Permutation. Qed.

Lemma in_blocks e es p : e ∈ es -> p ∈ blocks_of e -> p ∈ es ≫= blocks_of.
Proof. intros He Hp. apply list_elem_of_bind. by exists e. Qed.

Lemma addr_block e : e_addr e ∈ blocks_of e.
Proof. by left. Qed.
Lemma data_block e : e_data e <> 0 -> e_data e ∈ blocks_of e.
Proof. intros H. unfold blocks_of. rewrite (proj2 (Z.eqb_neq _ _)) by done. right. by left. Qed.

(** An entry does not depend on blocks and cells that are not its own. *)
Lemma entry_ok_ext L L' ds ds' e : entry_ok L ds e -> (forall p, p ∈ blocks_of e -> L' !! p = L !! p) ->
  ds' !! e_addr e = ds !! e_addr e -> entry_ok L' ds' e.
Proof.
  intros (H1 & H2 & H3 & H4 & H5) HL Hd. split_and!; [done|by rewrite Hd|by rewrite HL by apply addr_block|done|].
  destruct (Z.eqb_spec (e_data e) 0); [done|]. by rewrite HL by by apply data_block.
Qed.

Section ramfs.
Context {S : Type} {describes : S -> blocks_map -> Prop} `{HA : AllocatorLaws S describes}.
Implicit Types (r : dfs_ramfs S) (file : dfs_file dirent_ptr).

Record ramfs_rel r (es : list entry) (L : blocks_map) : Prop := {
  rr_heap : describes (memheap r) L;
  rr_list : root_list r = e_addr <$> es;
  rr_names : NoDup (e_name <$> es);
  rr_blocks : NoDup (es ≫= blocks_of);
  rr_entries : forall e, e ∈ es -> entry_ok L (dirents r) e
}.

Lemma ramfs_lookup r es L path : ramfs_rel r es L -> c_string path -> skip_slashes path <> [] ->
  dfs_ramfs_lookup r path = Some ((fun x => Entry (e_addr x.2)) <$> list_find (fun e => e_name e = skip_slashes path) es).
Proof.
  intros Hr Hp Hne. unfold dfs_ramfs_lookup. set (sub := skip_slashes path) in *.
  assert (Hs : c_string sub) by by apply skip_slashes_string.
  assert (forall es', (forall e, e ∈ es' -> e ∈ es) -> lookup_loop (e_addr <$> es') (dirents r) sub =
    Some ((fun x => Entry (e_addr x.2)) <$> list_find (fun e => e_name e = sub) es')) as Hloop.
  { induction es' as [|e es' IH]; intros Hsub; [done|]. cbn [fmap list_fmap lookup_loop list_find].
    destruct (rr_entries _ _ _ Hr e) as (Hn & -> & _); [apply Hsub; by left|]. cbn [mbind option_bind d_name].
    destruct (strncpy_terminated _ Hn) as [k ->]. destruct Hn as (_ & _ & Hn & _).
    destruct (rt_strcmp_field (e_name e) k sub Hn Hs) as (c & -> & Hc). cbn [mbind option_bind].
    rewrite IH by (intros; apply Hsub; by right).
    destruct (decide (e_name e = sub)) as [E|E].
    - apply Hc in E as ->. done.
    - rewrite (proj2 (Z.eqb_neq _ _)) by tauto. by destruct (list_find _ es') as [[? ?]|]. }
  rewrite (rr_list _ _ _ Hr). destruct sub; [done|]. by apply Hloop.
Qed.
Section one.
Context r (l1 l2 : list entry) (e : entry) (L : blocks_map) (Hr : ramfs_rel r (l1 ++ e :: l2) L).

Lemma blocks_apart : NoDup (blocks_of e) /\ NoDup ((l1 ++ l2) ≫= blocks_of) /\
  (forall p, p ∈ blocks_of e -> p ∉ (l1 ++ l2) ≫= blocks_of).
Proof using Hr.
  pose proof (rr_blocks _ _ _ Hr) as Hd. rewrite blocks_split in Hd. apply NoDup_app in Hd as (? & ? & ?). by split_and!.
Qed.

(** A block of an entry is a block of the heap. *)
Lemma block_live f p : f ∈ l1 ++ e :: l2 -> p ∈ blocks_of f -> is_Some (L !! p) /\ p <> 0.
Proof using Hr HA.
  intros Hf Hp. assert (is_Some (L !! p)) as Hs.
  { destruct (rr_entries _ _ _ Hr f Hf) as (_ & _ & H1 & _ & H2). unfold blocks_of in Hp.
    apply elem_of_cons in Hp as [->|Hp]; [done|]. destruct (e_data f =? 0); [by apply not_elem_of_nil in Hp|].
    apply list_elem_of_singleton in Hp as ->. destruct H2 as (c & -> & _). by eexists. }
  split; [done|]. intros ->. destruct Hs as [c Hc]. by rewrite (al_null _ _ (rr_heap _ _ _ Hr)) in Hc.
Qed.

Lemma ramfs_update e' s' L' : describes s' L' -> e_name e' = e_name e -> e_addr e' = e_addr e ->
  NoDup (blocks_of e') -> (forall p, p ∈ blocks_of e' -> p ∉ (l1 ++ l2) ≫= blocks_of) ->
  (forall p, p ∈ (l1 ++ l2) ≫= blocks_of -> L' !! p = L !! p) ->
  entry_ok L' (<[e_addr e := mk_dirent (rt_strncpy (e_name e) RAMFS_NAME_MAX) (e_data e') (Z.of_nat (length (e_bytes e')))]> (dirents r)) e' ->
  ramfs_rel (mk_ramfs s' (root_list r) (<[e_addr e := mk_dirent (rt_strncpy (e_name e) RAMFS_NAME_MAX) (e_data e') (Z.of_nat (length (e_bytes e')))]> (dirents r)))
    (l1 ++ e' :: l2) L'.
Proof using Hr HA.
  intros Hs En Ea Hd Hdis HL Hok. destruct blocks_apart as (H1 & H2 & H3). split; simpl.
  - done.
  - rewrite (rr_list _ _ _ Hr), !fmap_app. simpl. by rewrite Ea.
  - pose proof (rr_names _ _ _ Hr) as Hn. rewrite !fmap_app in *. simpl in *. by rewrite En.
  - rewrite blocks_split. apply NoDup_app. by split_and!.
  - intros f Hf. assert (f = e' \/ f ∈ l1 ++ l2) as [->|Hf'] by set_solver; [done|].
    apply (entry_ok_ext L _ (dirents r)); [apply (rr_entries _ _ _ Hr); set_solver| |].
    + intros p Hp. apply HL. by apply (in_blocks f).
    + rewrite lookup_insert_ne; [done|]. intros E. apply (H3 (e_addr e) (addr_block e)). rewrite E.
      apply (in_blocks f); [done|apply addr_block].
Qed.

(** What is known of the bytes of a file: the first [n] bytes of a block. *)
Definition holds (c : list (option Z)) (b : list Z) : Prop := forall i x, b !! i = Some x -> c !! i = Some (Some x).

Lemma holds_take c b : (length b <= length c)%nat /\ take (length b) c = Some <$> b <-> holds c b.
Proof.
  split.
  - intros [Hl E] i x Hx. pose proof (lookup_lt_Some _ _ _ Hx). assert ((Some <$> b) !! i = Some (Some x)) as E' by (by rewrite list_lookup_fmap, Hx).
    rewrite <- E in E'. by rewrite lookup_take_lt in E'.
  - intros Hh. assert (length b <= length c)%nat as Hl.
    { destruct b as [|y b _] using rev_ind; [simpl; lia|]. rewrite length_app. simpl.
      assert (c !! length b = Some (Some y)) as E%lookup_lt_Some by (apply Hh; by rewrite lookup_app_r, Nat.sub_diag). lia. }
    split; [done|]. apply list_eq. intros i. rewrite list_lookup_fmap. destruct (b !! i) as [x|] eqn:E; simpl.
    + pose proof (lookup_lt_Some _ _ _ E). rewrite lookup_take_lt by done. by apply Hh.
    + apply lookup_ge_None in E. apply lookup_ge_None. rewrite length_take. lia.
Qed.

(** The block of the bytes, made or resized. *)
Lemma grow_data n : 0 < n <= max_request -> exists q s1, al_realloc (e_data e) n (memheap r) = Some (q, s1) /\
  (q = 0 /\ describes s1 L \/
   q <> 0 /\ (q ∉ (l1 ++ l2) ≫= blocks_of) /\ q <> e_addr e /\ exists L1 c, describes s1 L1 /\ L1 !! q = Some c /\
     (forall p, p <> q -> p <> e_data e -> L1 !! p = L !! p) /\ n <= Z.of_nat (length c) /\
     holds c (take (Z.to_nat n) (e_bytes e))).
Proof using Hr HA.
  intros Hn. destruct (rr_entries _ _ _ Hr e ltac:(set_solver)) as (_ & _ & He & _ & Hd).
  destruct blocks_apart as (Hb1 & Hb2 & Hb3). destruct (Z.eqb_spec (e_data e) 0) as [E0|E0].
  - rewrite E0. destruct (al_realloc_null (memheap r) n Hn) as (k & Hk & ->).
    destruct (al_alloc_ok _ _ k (rr_heap _ _ _ Hr)) as (q & s1 & -> & [[-> H1]|(Hq & Hf & c & Hc & H1)]); [lia|by exists 0, s1; split; [|left]|].
    exists q, s1. split; [done|]. right. split_and!; [done| |intros ->; rewrite Hf in He; by destruct He|].
    + intros Hin. apply list_elem_of_bind in Hin as (f & Hp & Hf'). destruct (block_live f q) as [[? ?] _]; [set_solver|done|congruence].
    + exists (<[q := c]> L), c. split_and!; [done|by rewrite lookup_insert_eq|by intros; rewrite lookup_insert_ne|lia|].
      rewrite Hd, take_nil. intros i x. by rewrite lookup_nil.
  - destruct Hd as (c & Hc & Hcl & Hct). destruct (al_realloc_ok _ _ _ c n (rr_heap _ _ _ Hr) Hc Hn) as
      (q & s1 & -> & [[-> H1]|(Hq & Hf & c' & Hc' & Hk & H1)]); [by exists 0, s1; split; [|left]|].
    exists q, s1. split; [done|]. right.
    assert (Hnot : forall p, p ∈ (l1 ++ l2) ≫= blocks_of \/ p = e_addr e -> q <> p).
    { intros p Hp ->. rewrite lookup_delete_ne in Hf.
      - destruct Hp as [Hp| ->]; [|rewrite Hf in He; by destruct He]. apply list_elem_of_bind in Hp as (f & Hp & Hf').
        destruct (block_live f p) as [[? ?] _]; [set_solver|done|congruence].
      - intros <-. destruct Hp as [Hp|E].
        + by apply (Hb3 (e_data e)); [apply data_block|].
        + unfold blocks_of in Hb1. rewrite (proj2 (Z.eqb_neq _ _)) in Hb1 by done. apply NoDup_cons in Hb1 as [Hb1 _]. set_solver. }
    split_and!; [done|intros Hin; by apply (Hnot q); [left|]|by apply Hnot; right|].
    exists (<[q := c']> (delete (e_data e) L)), c'. split_and!; [done|by rewrite lookup_insert_eq| |lia|].
    + intros p Hp1 Hp2. by rewrite lookup_insert_ne, lookup_delete_ne.
    + intros i x Hx. apply lookup_take_Some in Hx as [Hx Hlt]. pose proof (lookup_lt_Some _ _ _ Hx).
      rewrite Hk by lia. assert (holds c (e_bytes e)) as Hh by (by apply holds_take). by apply Hh.
Qed.

(** The bytes of a file after [buf] was written at [o]. *)

Lemma length_splice b buf o : (o <= length b)%nat -> length (splice b buf o) = Nat.max (length b) (o + length buf).
Proof. intros Ho. unfold splice. rewrite !length_app, length_take, length_drop. lia. Qed.

Lemma holds_splice c b buf o : (o <= length b)%nat -> (o + length buf <= length c)%nat ->
  holds c (take (Nat.max o (length c)) b) -> holds (list_inserts o (Some <$> buf) c) (take (length c) (splice b buf o)).
Proof.
  intros Ho Hl Hc i x Hx. apply lookup_take_Some in Hx as [Hx Hlt]. rewrite lookup_inserts_dec by (rewrite length_fmap; lia).
  rewrite length_fmap. unfold splice in Hx. rewrite lookup_app_dec, length_take in Hx.
  case_decide as E1; [case_decide; [lia|]|].
  - rewrite lookup_take_lt in Hx by lia. apply Hc. rewrite lookup_take_lt by lia. done.
  - rewrite lookup_app_dec in Hx. replace (o `min` length b)%nat with o in * by lia. case_decide as E2.
    + rewrite decide_True by lia. by rewrite list_lookup_fmap, Hx.
    + rewrite decide_False by lia. rewrite lookup_drop in Hx. apply Hc. rewrite lookup_take_lt by lia.
      rewrite <- Hx. f_equal. lia.
Qed.

Lemma ramfs_write file buf : data file = Some (Entry (e_addr e)) -> size file = Z.of_nat (length (e_bytes e)) ->
  0 <= pos file <= size file -> pos file + Z.of_nat (length buf) <= max_request ->
  exists n r' file', dfs_ramfs_write r file buf = Some (n, r', file') /\
    (n = 0 /\ file' = file /\ (exists L', ramfs_rel r' (l1 ++ e :: l2) L') \/
     n = Z.of_nat (length buf) /\ exists e' L', ramfs_rel r' (l1 ++ e' :: l2) L' /\ e_name e' = e_name e /\ e_addr e' = e_addr e /\
       e_bytes e' = splice (e_bytes e) buf (Z.to_nat (pos file)) /\
       file' = mk_file (path file) (flags file) (Z.of_nat (length (e_bytes e'))) (pos file + n) (data file)).
Proof using Hr HA.
  intros Hdata Hsz Hpos Hmax. destruct (rr_entries _ _ _ Hr e ltac:(set_solver)) as (Hn & Hcell & He & Hbm & Hd).
  destruct blocks_apart as (Hb1 & Hb2 & Hb3). unfold dfs_ramfs_write. rewrite Hdata, Hcell. cbn [mbind option_bind d_data d_size d_name].
  set (o := Z.to_nat (pos file)). assert (Ho : (o <= length (e_bytes e))%nat) by (unfold o; lia).
  assert (Hpo : pos file = Z.of_nat o) by (unfold o; lia). unfold max_request in *.
  assert (Elen := length_splice (e_bytes e) buf o Ho).
  rewrite (wrap_small 32 (Z.of_nat (length buf) + _)), (wrap_small 32 (pos file + _)) by lia.
  destruct (Z.gtb_spec (Z.of_nat (length buf) + pos file) (size file)) as [Hgrow|Hfits].
  - destruct (grow_data (pos file + Z.of_nat (length buf))) as (q & s1 & -> & [[-> H1]|(Hq & Hq1 & Hq2 & L1 & c & H1 & Hc & HL & Hlen & Hh)]); [unfold max_request; lia| |].
    + cbn [mbind option_bind]. exists 0, (set_memheap s1 r), file. split; [done|]. left. split_and!; [done|done|]. exists L.
      split; [done|apply Hr..].
    + cbn [mbind option_bind]. rewrite (proj2 (Z.eqb_neq q 0)), (proj2 (Z.ltb_lt 0 _)) by lia.
      set (e' := mk_entry (e_addr e) (e_name e) q (splice (e_bytes e) buf o)).
      assert (El : Z.of_nat (length (splice (e_bytes e) buf o)) = pos file + Z.of_nat (length buf)) by lia.
      eexists _, _, _. split; [done|]. right. split; [done|]. exists e', (<[q := list_inserts o (Some <$> buf) c]> L1).
      split_and!; [|done|done|done|cbn [d_size e_bytes e']; by rewrite El].
      cbn [set_memheap set_dirent memheap root_list dirents d_data]. rewrite <- El.
      apply (ramfs_update e'); try done.
      * rewrite Hpo. apply al_write_ok; [done|done|lia].
      * unfold blocks_of, e'. simpl. rewrite (proj2 (Z.eqb_neq q 0)) by done. repeat constructor; [|set_solver].
        intros ?%list_elem_of_singleton. congruence.
      * intros p Hp. unfold blocks_of, e' in Hp. simpl in Hp. rewrite (proj2 (Z.eqb_neq q 0)) in Hp by done.
        apply elem_of_cons in Hp as [-> | ->%list_elem_of_singleton]; [apply Hb3, addr_block|done].
      * intros p Hp. rewrite lookup_insert_ne by (by intros <-). apply HL; [by intros ->|].
        intros ->. destruct (Z.eqb_spec (e_data e) 0) as [E0|E0]; [|by apply (Hb3 (e_data e)); [apply data_block|]].
        apply list_elem_of_bind in Hp as (f & Hp & Hf). rewrite E0 in Hp. destruct (block_live f 0); [set_solver|done|done].
      * split_and!; [done|by rewrite lookup_insert_eq| |simpl; unfold max_request; lia|].
        { simpl. rewrite lookup_insert_ne by done. rewrite HL; [done|done|]. intros Ed.
          destruct (Z.eqb_spec (e_data e) 0) as [E0|E0]; [destruct (block_live e 0); [set_solver|rewrite <- E0, <- Ed; apply addr_block|done]|].
          unfold blocks_of in Hb1. rewrite (proj2 (Z.eqb_neq _ _)) in Hb1 by done. apply NoDup_cons in Hb1 as [Hb1 _]. set_solver. }
        simpl. rewrite (proj2 (Z.eqb_neq q 0)) by done. exists (list_inserts o (Some <$> buf) c).
        split; [by rewrite lookup_insert_eq|]. apply holds_take.
        rewrite <- (take_ge (splice (e_bytes e) buf o) (length c)) by lia. apply holds_splice; [done|lia|].
        intros i x Hx. apply Hh. apply lookup_take_Some in Hx as [Hx _]. pose proof (lookup_lt_Some _ _ _ Hx). rewrite lookup_take_lt by lia. done.
  - set (e' := mk_entry (e_addr e) (e_name e) (e_data e) (splice (e_bytes e) buf o)).
    assert (El : length (splice (e_bytes e) buf o) = length (e_bytes e)) by lia.
    eexists _, _, _. split; [done|]. right. split; [done|].
    assert (Hcells : <[e_addr e := mk_dirent (rt_strncpy (e_name e) RAMFS_NAME_MAX) (e_data e') (Z.of_nat (length (e_bytes e')))]> (dirents r) = dirents r).
    { apply insert_id. simpl. by rewrite El. }
    destruct (Z.eqb_spec (e_data e) 0) as [E0|E0].
    + assert (buf = []) as -> by (destruct buf; [done|]; rewrite Hd in *; simpl in *; lia).
      exists e, L. simpl. split_and!; [by destruct r|done|done| |]; [|by rewrite Hsz].
      unfold splice. rewrite Hd. by rewrite take_nil, drop_nil.
    + destruct Hd as (c & Hc & Hcl & Hct). assert (Hh : holds c (e_bytes e)) by by apply holds_take.
      exists e', (<[e_data e := list_inserts o (Some <$> buf) c]> L). split_and!; [|done|done|done|by simpl; rewrite El, Hsz].
      unfold set_memheap. rewrite <- Hcells. apply (ramfs_update e'); try done.
      * destruct (Z.ltb_spec 0 (Z.of_nat (length buf))); [rewrite Hpo; apply al_write_ok; [apply Hr|done|lia]|].
        assert (buf = []) as -> by (destruct buf; [done|simpl in *; lia]). simpl. rewrite insert_id by done. apply Hr.
      * intros p Hp. rewrite lookup_insert_ne; [done|]. intros <-. by apply (Hb3 (e_data e)); [apply data_block|].
      * split_and!; [done|by rewrite lookup_insert_eq| |simpl; unfold max_request; lia|].
        { simpl. rewrite lookup_insert. case_decide; [by eexists|done]. }
        simpl. rewrite (proj2 (Z.eqb_neq _ 0)) by done. exists (list_inserts o (Some <$> buf) c).
        split; [by rewrite lookup_insert_eq|]. apply holds_take.
        rewrite <- (take_ge (splice (e_bytes e) buf o) (length c)) by lia. apply holds_splice; [done|lia|].
        intros i x Hx. apply Hh. by apply lookup_take_Some in Hx as [Hx _].
Qed.

Lemma ramfs_read file count : data file = Some (Entry (e_addr e)) -> size file = Z.of_nat (length (e_bytes e)) ->
  0 <= pos file <= size file -> 0 <= count ->
  let n := Z.min count (size file - pos file) in
  dfs_ramfs_read r file count =
    Some (n, Some <$> take (Z.to_nat n) (drop (Z.to_nat (pos file)) (e_bytes e)),
          mk_file (path file) (flags file) (size file) (pos file + n) (data file)).
Proof using Hr HA.
  intros Hdata Hsz Hpos Hcount n. destruct (rr_entries _ _ _ Hr e ltac:(set_solver)) as (Hn & Hcell & He & Hbm & Hd).
  unfold dfs_ramfs_read. rewrite Hdata, Hcell. cbn [mbind option_bind d_data]. unfold max_request in *.
  rewrite wrap_small by lia. assert ((if count <? size file - pos file then count else size file - pos file) = n) as ->.
  { unfold n. destruct (Z.ltb_spec count (size file - pos file)); lia. }
  do 3 f_equal. destruct (Z.ltb_spec 0 n) as [Hlt|Hge]; [|by replace (Z.to_nat n) with 0%nat by lia].
  destruct (Z.eqb_spec (e_data e) 0) as [E0|E0]; [rewrite Hd in Hsz; simpl in Hsz; lia|].
  destruct Hd as (c & Hc & Hcl & Hct). replace (pos file) with (Z.of_nat (Z.to_nat (pos file))) at 1 by lia.
  replace n with (Z.of_nat (Z.to_nat n)) at 1 by lia. rewrite (al_read_ok _ _ _ c _ _ (rr_heap _ _ _ Hr) Hc) by lia.
  rewrite fmap_take, fmap_drop, <- Hct. by_index.
Qed.

Lemma ramfs_truncate : exists r' L', truncate r (e_addr e) = Some r' /\
  ramfs_rel r' (l1 ++ mk_entry (e_addr e) (e_name e) 0 [] :: l2) L'.
Proof using Hr HA.
  destruct (rr_entries _ _ _ Hr e ltac:(set_solver)) as (Hn & Hcell & He & Hbm & Hd).
  destruct blocks_apart as (Hb1 & Hb2 & Hb3). unfold truncate. rewrite Hcell. cbn [mbind option_bind d_data d_name].
  set (e' := mk_entry (e_addr e) (e_name e) 0 []).
  assert (Hsub : forall p, p ∈ blocks_of e' -> p ∈ blocks_of e) by (intros p ->%list_elem_of_singleton; apply (addr_block e)).
  assert (Hd' : NoDup (blocks_of e')) by apply NoDup_singleton.
  destruct (Z.eqb_spec (e_data e) 0) as [E0|E0].
  - eexists _, L. split; [done|]. apply (ramfs_update e'); try done; [apply Hr|by intros p Hp%Hsub; apply Hb3|].
    split_and!; [done|by rewrite lookup_insert_eq|done|done|done].
  - destruct Hd as (c & Hc & _). destruct (al_free_ok _ _ _ c (rr_heap _ _ _ Hr) Hc) as (s1 & -> & H1). cbn [mbind option_bind].
    eexists _, _. split; [done|]. apply (ramfs_update e'); try done; [by intros p Hp%Hsub; apply Hb3| |].
    + intros p Hp. rewrite lookup_delete_ne; [done|]. intros <-. by apply (Hb3 (e_data e)); [apply data_block|].
    + split_and!; [done|by rewrite lookup_insert_eq| |done|done]. simpl. rewrite lookup_delete_ne; [done|].
      intros Ed. unfold blocks_of in Hb1. rewrite (proj2 (Z.eqb_neq _ _)) in Hb1 by done. apply NoDup_cons in Hb1 as [Hb1 _].
      rewrite <- Ed in Hb1. set_solver.
Qed.

Lemma ramfs_remove : exists s1 s2 L', (if e_data e =? 0 then Some (memheap r) else al_free (e_data e) (memheap r)) = Some s1 /\
  al_free (e_addr e) s1 = Some s2 /\
  ramfs_rel (mk_ramfs s2 (base.filter (fun q => q <> e_addr e) (root_list r)) (delete (e_addr e) (dirents r))) (l1 ++ l2) L'.
Proof using Hr HA.
  destruct (rr_entries _ _ _ Hr e ltac:(set_solver)) as (Hn & Hcell & [ce Hce] & Hbm & Hd).
  destruct blocks_apart as (Hb1 & Hb2 & Hb3).
  assert (exists s1 L1, (if e_data e =? 0 then Some (memheap r) else al_free (e_data e) (memheap r)) = Some s1 /\ describes s1 L1 /\
    L1 !! e_addr e = Some ce /\ (forall p, p ∈ (l1 ++ l2) ≫= blocks_of -> L1 !! p = L !! p)) as (s1 & L1 & -> & H1 & Hc1 & HL1).
  { destruct (Z.eqb_spec (e_data e) 0) as [E0|E0]; [exists (memheap r), L; split_and!; [done|apply Hr|done|done]|].
    destruct Hd as (c & Hc & _). destruct (al_free_ok _ _ _ c (rr_heap _ _ _ Hr) Hc) as (s1 & -> & H1).
    exists s1, (delete (e_data e) L). split_and!; [done|done| |].
    - rewrite lookup_delete_ne; [done|]. intros Ed. unfold blocks_of in Hb1. rewrite (proj2 (Z.eqb_neq _ _)) in Hb1 by done.
      apply NoDup_cons in Hb1 as [Hb1 _]. rewrite <- Ed in Hb1. set_solver.
    - intros p Hp. rewrite lookup_delete_ne; [done|]. intros <-. by apply (Hb3 (e_data e)); [apply data_block|]. }
  destruct (al_free_ok _ _ _ ce H1 Hc1) as (s2 & E2 & H2). exists s1, s2, (delete (e_addr e) L1). split_and!; [done|done|].
  assert (Haddr : forall f, f ∈ l1 ++ l2 -> e_addr f <> e_addr e).
  { intros f Hf E. apply (Hb3 (e_addr e) (addr_block e)). rewrite <- E. apply (in_blocks f); [done|apply addr_block]. }
  split; simpl.
  - done.
  - rewrite (rr_list _ _ _ Hr), !fmap_app, filter_app. simpl. rewrite filter_cons_False by tauto. f_equal.
    + apply filter_all. apply Forall_forall. intros p Hp. apply list_elem_of_fmap in Hp as (f & -> & Hf). apply Haddr. set_solver.
    + apply filter_all. apply Forall_forall. intros p Hp. apply list_elem_of_fmap in Hp as (f & -> & Hf). apply Haddr. set_solver.
  - pose proof (rr_names _ _ _ Hr) as Hnm. rewrite fmap_app in *. simpl in Hnm.
    assert (NoDup (e_name e :: (e_name <$> l1) ++ (e_name <$> l2))) as [_ ?]%NoDup_cons; [|done].
    eapply NoDup_Permutation_proper; [|exact Hnm]. solve_Permutation.
  - done.
  - intros f Hf. apply (entry_ok_ext L _ (dirents r)); [apply (rr_entries _ _ _ Hr); set_solver| |].
    + intros p Hp. assert (p ∈ (l1 ++ l2) ≫= blocks_of) as Hin by (by apply (in_blocks f)).
      rewrite lookup_delete_ne; [by apply HL1|]. intros <-. by apply (Hb3 (e_addr e) (addr_block e)).
    + apply lookup_delete_ne. intros E. by apply (Haddr f).
Qed.
End one.
End ramfs.
