(* ===== verification/RamfsSpec.v ===== *)
(** * The ramfs: theorems

    The files as a map from names to bytes, what open, read, write and unlink do
    to it, the file system made in a piece of memory, and what the code does not
    do. *)

From S2P Require Import Prelude Alloc Kservice Object Vfs FileSystem Ramfs RamfsSafe Memheap MemheapSafe MemheapSpec.

Definition files (es : list entry) : gmap (list Z) (list Z) := list_to_map ((fun e => (e_name e, e_bytes e)) <$> es).

Lemma files_lookup es n b : NoDup (e_name <$> es) -> files es !! n = Some b <-> exists e, e ∈ es /\ e_name e = n /\ e_bytes e = b.
Proof.
  intros Hd. unfold files. rewrite <- elem_of_list_to_map by (rewrite <- list_fmap_compose; done).
  rewrite list_elem_of_fmap. naive_solver.
Qed.

Lemma files_none es n : files es !! n = None <-> n ∉ e_name <$> es.
Proof. unfold files. rewrite <- not_elem_of_list_to_map. by rewrite <- list_fmap_compose. Qed.

Lemma files_middle l1 e l2 : NoDup (e_name <$> l1 ++ e :: l2) ->
  files (l1 ++ e :: l2) = <[e_name e := e_bytes e]> (files (l1 ++ l2)) /\ files (l1 ++ l2) !! e_name e = None.
Proof.
  intros Hd. rewrite files_none. rewrite fmap_app in Hd |- *. simpl in Hd.
  assert (NoDup (e_name e :: (e_name <$> l1) ++ (e_name <$> l2))) as [Hn _]%NoDup_cons.
  { eapply NoDup_Permutation_proper; [|exact Hd]. solve_Permutation. }
  split; [|done]. unfold files. rewrite !fmap_app. simpl. rewrite list_to_map_app. simpl.
  rewrite list_to_map_app. rewrite insert_union_r; [done|]. apply not_elem_of_list_to_map.
  rewrite <- list_fmap_compose. set_solver.
Qed.

Lemma files_replace l1 e e' l2 : NoDup (e_name <$> l1 ++ e :: l2) -> e_name e' = e_name e ->
  files (l1 ++ e' :: l2) = <[e_name e := e_bytes e']> (files (l1 ++ e :: l2)).
Proof.
  intros Hd En. destruct (files_middle l1 e l2 Hd) as [-> _]. destruct (files_middle l1 e' l2) as [-> _].
  - rewrite fmap_app in *. simpl in *. by rewrite En.
  - by rewrite En, insert_insert_eq.
Qed.

Lemma files_remove l1 e l2 : NoDup (e_name <$> l1 ++ e :: l2) -> files (l1 ++ l2) = delete (e_name e) (files (l1 ++ e :: l2)).
Proof. intros Hd. destruct (files_middle l1 e l2 Hd) as [-> Hn]. by rewrite delete_insert_id. Qed.

Lemma strncpy_inj a b : proper a -> proper b -> rt_strncpy a RAMFS_NAME_MAX = rt_strncpy b RAMFS_NAME_MAX -> a = b.
Proof.
  intros Ha Hb E. destruct (strncpy_terminated a Ha) as [k Ek], (strncpy_terminated b Hb) as [k' Ek'].
  rewrite Ek, Ek' in E. destruct Ha as (_ & _ & Ha & _), Hb as (_ & _ & Hb & _). clear Ek Ek'.
  revert b Hb E. induction Ha as [|x a Hx Ha IH]; intros b Hb; destruct Hb as [|y b Hy Hb]; [done|intros [= ? _]; lia|intros [= ? _]; lia|].
  intros [= -> E]. f_equal. by apply IH.
Qed.

Section ramfs.
Context {S : Type} {describes : S -> blocks_map -> Prop} `{HA : AllocatorLaws S describes}.
Implicit Types (r : dfs_ramfs S) (file : dfs_file dirent_ptr).

(** The file system holds the files [F]. *)
Definition ramfs_is r (F : gmap (list Z) (list Z)) : Prop := exists es L, ramfs_rel (describes := describes) r es L /\ files es = F.

(** An open file of that name, with the size of the file in it. *)
Definition fd_on r file (nm : list Z) : Prop := exists p d, data file = Some (Entry p) /\ p ∈ root_list r /\ dirents r !! p = Some d /\
  proper nm /\ d_name d = rt_strncpy nm RAMFS_NAME_MAX /\ size file = d_size d /\ 0 <= pos file <= size file.

Definition fd_of (e : entry) file : Prop :=
  data file = Some (Entry (e_addr e)) /\ size file = Z.of_nat (length (e_bytes e)) /\ 0 <= pos file <= size file.

Lemma fd_on_entry r es L file nm : ramfs_rel (describes := describes) r es L ->
  fd_on r file nm <-> exists e, e ∈ es /\ e_name e = nm /\ fd_of e file.
Proof.
  intros Hr. split.
  - intros (p & d & Hdata & Hp & Hd & Hn & En & Hs & Hpos). rewrite (rr_list _ _ _ Hr) in Hp.
    apply list_elem_of_fmap in Hp as (e & -> & He). destruct (rr_entries _ _ _ Hr e He) as (Hn' & Hc & _).
    assert (d = mk_dirent (rt_strncpy (e_name e) RAMFS_NAME_MAX) (e_data e) (Z.of_nat (length (e_bytes e)))) as -> by congruence.
    simpl in *. exists e. split_and!; [done|by apply strncpy_inj|split; [done|split; [done|lia]]].
  - intros (e & He & <- & Hdata & Hs & Hpos). destruct (rr_entries _ _ _ Hr e He) as (Hn & Hc & _).
    eexists _, _. split_and!; [done| |done|done|done|done|lia|lia].
    rewrite (rr_list _ _ _ Hr). by apply list_elem_of_fmap_2.
Qed.

(** Open files of other names. *)
Definition keeps_fds r r' (nm : list Z) : Prop := forall f n, n <> nm -> fd_on r f n -> fd_on r' f n.

Lemma keeps_fds_entries r r' es es' L L' nm : ramfs_rel (describes := describes) r es L -> ramfs_rel (describes := describes) r' es' L' ->
  (forall e, e ∈ es -> e_name e <> nm -> e ∈ es') -> keeps_fds r r' nm.
Proof.
  intros Hr Hr' He f n Hn Hf. apply (fd_on_entry _ _ _ _ _ Hr) in Hf as (e & Hin & <- & Hof).
  apply (fd_on_entry _ _ _ _ _ Hr'). exists e. split_and!; [by apply He|done|done].
Qed.

Lemma middle_others (l1 l2 : list entry) e e' x : x ∈ l1 ++ e :: l2 -> e_name x <> e_name e -> x ∈ l1 ++ e' :: l2.
Proof. intros Hx Hne. rewrite elem_of_app, elem_of_cons in *. naive_solver. Qed.

Lemma ramfs_write_ok r F file nm buf : ramfs_is r F -> fd_on r file nm -> pos file + Z.of_nat (length buf) <= max_request ->
  exists b n r' file', F !! nm = Some b /\ dfs_ramfs_write r file buf = Some (n, r', file') /\ keeps_fds r r' nm /\ fd_on r' file' nm /\
    (n = 0 /\ file' = file /\ ramfs_is r' F \/
     n = Z.of_nat (length buf) /\ pos file' = pos file + n /\ ramfs_is r' (<[nm := splice b buf (Z.to_nat (pos file))]> F)).
Proof using HA.
  intros (es & L & Hr & <-) Hfd Hmax. apply (fd_on_entry _ _ _ _ _ Hr) in Hfd as (e & He & <- & Hdata & Hs & Hpos).
  pose proof (rr_names _ _ _ Hr) as Hnm. apply list_elem_of_split in He as (l1 & l2 & ->).
  destruct (files_middle l1 e l2 Hnm) as [Ef _]. exists (e_bytes e).
  destruct (ramfs_write r l1 l2 e L Hr file buf Hdata Hs Hpos Hmax) as (n & r' & file' & -> & [(-> & -> & L' & Hr')|(-> & e' & L' & Hr' & En & Ea & Eb & ->)]).
  - eexists _, _, _. split_and!; [by rewrite Ef, lookup_insert_eq|done| | |left; split_and!; [done|done|by exists (l1 ++ e :: l2), L']].
    + by eapply keeps_fds_entries; [exact Hr|exact Hr'|].
    + apply (fd_on_entry _ _ _ _ _ Hr'). exists e. split_and!; [set_solver|done|done].
  - eexists _, _, _. split_and!; [by rewrite Ef, lookup_insert_eq|done| | |right; split_and!; [done|done|]].
    + eapply keeps_fds_entries; [exact Hr|exact Hr'|]. intros x Hx Hne. by eapply middle_others.
    + apply (fd_on_entry _ _ _ _ _ Hr'). exists e'. split_and!; [set_solver|done|].
      split_and!; simpl; [by rewrite Ea|done|lia|]. rewrite Eb, length_splice by lia. lia.
    + exists (l1 ++ e' :: l2), L'. split; [done|]. by rewrite (files_replace l1 e e' l2), Eb.
Qed.

Lemma ramfs_read_ok r F file nm count : ramfs_is r F -> fd_on r file nm -> 0 <= count ->
  exists b file', F !! nm = Some b /\
    let bs := take (Z.to_nat count) (drop (Z.to_nat (pos file)) b) in
    dfs_ramfs_read r file count = Some (Z.of_nat (length bs), Some <$> bs, file') /\ fd_on r file' nm /\ pos file' = pos file + Z.of_nat (length bs).
Proof using HA.
  intros (es & L & Hr & <-) Hfd Hcount. apply (fd_on_entry _ _ _ _ _ Hr) in Hfd as (e & He & <- & Hdata & Hs & Hpos).
  pose proof (rr_names _ _ _ Hr) as Hnm. assert (Hin := He). apply list_elem_of_split in He as (l1 & l2 & ->).
  destruct (files_middle l1 e l2 Hnm) as [Ef _]. exists (e_bytes e).
  rewrite (ramfs_read r l1 l2 e L Hr file count Hdata Hs Hpos Hcount).
  set (n := Z.min count (size file - pos file)).
  assert (Eb : take (Z.to_nat n) (drop (Z.to_nat (pos file)) (e_bytes e)) = take (Z.to_nat count) (drop (Z.to_nat (pos file)) (e_bytes e))).
  { unfold n. destruct (decide (count <= size file - pos file)); [by rewrite Z.min_l by lia|].
    rewrite !take_ge by (rewrite length_drop; lia). done. }
  assert (El : Z.of_nat (length (take (Z.to_nat count) (drop (Z.to_nat (pos file)) (e_bytes e)))) = n).
  { rewrite length_take, length_drop. unfold n. lia. }
  eexists. split; [by rewrite Ef, lookup_insert_eq|]. cbv zeta. rewrite El, Eb. split; [done|]. split; [|done].
  apply (fd_on_entry _ _ _ _ _ Hr). exists e. split_and!; [done|done|]. split_and!; simpl; [done|done|unfold n; lia|unfold n; lia].
Qed.

(** Looking a name up: its entry, or there is no such file. *)
Lemma ramfs_find r es L path : ramfs_rel (describes := describes) r es L -> c_string path -> skip_slashes path <> [] ->
  (exists l1 e l2, es = l1 ++ e :: l2 /\ e_name e = skip_slashes path /\ dfs_ramfs_lookup r path = Some (Some (Entry (e_addr e)))) \/
  (files es !! skip_slashes path = None /\ dfs_ramfs_lookup r path = Some None).
Proof using HA.
  intros Hr Hp Hne. rewrite (ramfs_lookup r es L path Hr Hp Hne).
  destruct (list_find _ es) as [[i e]|] eqn:E; simpl.
  - apply list_find_Some in E as (Hl & En & _). left. apply list_elem_of_lookup_2, list_elem_of_split in Hl as (l1 & l2 & ->).
    by exists l1, e, l2.
  - apply list_find_None in E. right. split; [|done]. apply files_none. intros Hin.
    apply list_elem_of_fmap in Hin as (e & En & He). rewrite Forall_forall in E. by apply (E e He).
Qed.

Lemma opened_ok r es L file e : ramfs_rel (describes := describes) r es L -> e ∈ es ->
  exists file', opened r file (Entry (e_addr e)) = Some (0, r, file') /\ fd_on r file' (e_name e) /\
    pos file' = (if has (flags file) O_APPEND then Z.of_nat (length (e_bytes e)) else 0).
Proof.
  intros Hr He. destruct (rr_entries _ _ _ Hr e He) as (Hn & Hc & _). unfold opened. rewrite Hc. simpl.
  eexists. split_and!; [done| |done]. apply (fd_on_entry _ _ _ _ _ Hr). exists e. split_and!; [done|done|].
  split_and!; simpl; [done|done|destruct (has _ _); lia|destruct (has _ _); lia].
Qed.

(** What [open] makes of the files. *)
Definition opens (F : gmap (list Z) (list Z)) (nm : list Z) (fl : Z) (res : Z) (F' : gmap (list Z) (list Z)) : Prop :=
  match F !! nm with
  | Some b => res = 0 /\ F' = if has fl O_TRUNC then <[nm := []]> F else F
  | None => if has fl O_CREAT || has fl O_WRONLY then res = - ENOMEM /\ F' = F \/ res = 0 /\ F' = <[nm := []]> F
            else res = - ENOENT /\ F' = F
  end.

Lemma ramfs_open_finish r l1 e l2 L file : ramfs_rel (describes := describes) r (l1 ++ e :: l2) L -> exists r' file',
  (r ← (if has (flags file) O_TRUNC then truncate r (e_addr e) else Some r); opened r file (Entry (e_addr e))) = Some (0, r', file') /\
  ramfs_is r' (if has (flags file) O_TRUNC then <[e_name e := []]> (files (l1 ++ e :: l2)) else files (l1 ++ e :: l2)) /\
  fd_on r' file' (e_name e) /\ keeps_fds r r' (e_name e) /\
  pos file' = (if has (flags file) O_APPEND && negb (has (flags file) O_TRUNC) then Z.of_nat (length (e_bytes e)) else 0).
Proof using HA.
  intros Hr. destruct (has (flags file) O_TRUNC) eqn:Et.
  - destruct (ramfs_truncate r l1 l2 e L Hr) as (r' & L' & -> & Hr'). cbn [mbind option_bind].
    set (e' := mk_entry (e_addr e) (e_name e) 0 []) in *.
    destruct (opened_ok r' _ L' file e' Hr') as (file' & E & Hfd & Hp); [set_solver|]. exists r', file'.
    split_and!; [exact E| |exact Hfd| |].
    + exists (l1 ++ e' :: l2), L'. split; [done|]. apply (files_replace l1 e e' l2); [apply Hr|done].
    + eapply keeps_fds_entries; [exact Hr|exact Hr'|]. intros x Hx Hne. by eapply middle_others.
    + rewrite Hp, andb_false_r. by destruct (has (flags file) O_APPEND).
  - cbn [mbind option_bind]. destruct (opened_ok r _ L file e Hr) as (file' & -> & Hfd & Hp); [set_solver|]. exists r, file'.
    split_and!; [done|by exists (l1 ++ e :: l2), L|done| |by rewrite andb_true_r].
    eapply keeps_fds_entries; [exact Hr|exact Hr|done].
Qed.

Lemma ramfs_create_entry r es L nm s1 p c : ramfs_rel (describes := describes) r es L -> proper nm -> nm ∉ e_name <$> es ->
  L !! p = None -> describes s1 (<[p := c]> L) ->
  ramfs_rel (describes := describes) (mk_ramfs s1 (p :: root_list r) (<[p := mk_dirent (rt_strncpy nm RAMFS_NAME_MAX) 0 0]> (dirents r)))
    (mk_entry p nm 0 [] :: es) (<[p := c]> L).
Proof using HA.
  intros Hr Hn Hnm Hp Hs.
  assert (Hfresh : forall e q, e ∈ es -> q ∈ blocks_of e -> q <> p).
  { intros e q He Hq ->. apply list_elem_of_split in He as (l1 & l2 & ->).
    destruct (block_live r l1 l2 e L Hr e p) as [[? ?] _]; [set_solver|done|congruence]. }
  split; simpl.
  - done.
  - by rewrite (rr_list _ _ _ Hr).
  - apply NoDup_cons. split; [done|apply Hr].
  - apply (NoDup_app [p] (es ≫= blocks_of)). split_and!; [apply NoDup_singleton| |apply Hr].
    intros q ->%list_elem_of_singleton Hin. apply list_elem_of_bind in Hin as (e & Hq & He). by apply (Hfresh e p).
  - intros e He. apply elem_of_cons in He as [->|He].
    + split_and!; simpl; [done|by rewrite lookup_insert_eq|by rewrite lookup_insert_eq|unfold max_request; lia|done].
    + apply (entry_ok_ext L _ (dirents r)); [by apply Hr| |].
      * intros q Hq. apply lookup_insert_ne. intros <-. by apply (Hfresh e p).
      * apply lookup_insert_ne. intros E. apply (Hfresh e (e_addr e)); [done|apply addr_block|done].
Qed.

Lemma ramfs_open_ok r F file : ramfs_is r F -> c_string (path file) -> has (flags file) O_DIRECTORY = false ->
  let nm := skip_slashes (path file) in proper nm ->
  exists res r' file' F', dfs_ramfs_open r file = Some (res, r', file') /\ opens F nm (flags file) res F' /\ ramfs_is r' F' /\
    keeps_fds r r' nm /\ (res = 0 -> fd_on r' file' nm /\ (has (flags file) O_APPEND = false -> pos file' = 0)).
Proof using HA.
  intros (es & L & Hr & <-) Hp Hdir nm Hnm. unfold dfs_ramfs_open. rewrite Hdir.
  destruct (ramfs_find r es L (path file) Hr Hp) as [(l1 & e & l2 & -> & En & ->)|[Hnone ->]]; [by destruct Hnm| |];
    cbn [mbind option_bind]; [fold nm in En|fold nm in Hnone].
  - destruct (ramfs_open_finish r l1 e l2 L file Hr) as (r' & file' & -> & Hr' & Hfd & Hk & Hpos). rewrite En in *.
    eexists _, _, _, _. split_and!; [done| |exact Hr'|done|]; [|intros _; split; [done|]; intros Ha; by rewrite Ha in Hpos].
    unfold opens. destruct (files_middle l1 e l2) as [-> _]; [apply Hr|]. by rewrite En, lookup_insert_eq.
  - unfold opens. rewrite Hnone. destruct (has _ O_CREAT || has _ O_WRONLY) eqn:Hc.
    2:{ exists (- ENOENT), r, file, (files es). split_and!; [done..|by exists es, L| |done]. by eapply keeps_fds_entries. }
    destruct (al_alloc_ok _ _ sizeof_dirent (rr_heap _ _ _ Hr)) as (p & s1 & -> & Hres); [unfold max_request, sizeof_dirent; lia|].
    cbn [mbind option_bind]. destruct Hres as [[-> H1]|(Hp0 & Hf & c & Hcl & H1)].
    + exists (- ENOMEM), (set_memheap s1 r), file, (files es).
      assert (Hr1 : ramfs_rel (describes := describes) (set_memheap s1 r) es L) by (split; [done|apply Hr..]).
      split_and!; [done|by left|by exists es, L| |done]. by eapply keeps_fds_entries.
    + rewrite (proj2 (Z.eqb_neq p 0)) by done.
      pose proof (ramfs_create_entry r es L nm s1 p c Hr Hnm (proj1 (files_none _ _) Hnone) Hf H1) as Hr1.
      destruct (ramfs_open_finish _ [] (mk_entry p nm 0 []) es _ file Hr1) as (r' & file' & E & Hr' & Hfd & Hk & Hpos). simpl in E.
      eexists _, _, _, _. split_and!; [exact E|right; split; [done|reflexivity]| | |].
      * destruct (files_middle [] (mk_entry p nm 0 []) es) as [Ef _]; [apply Hr1|]. simpl in Ef, Hr'. rewrite Ef in Hr'.
        rewrite insert_insert_eq in Hr'. by destruct (has _ O_TRUNC).
      * intros f n Hne Hfd'. apply Hk; [done|]. revert Hfd'. apply (keeps_fds_entries r _ es _ L _ nm Hr Hr1); [|done].
        intros x Hx _. by right.
      * intros _. split; [done|]. intros Ha. by rewrite Ha in Hpos.
Qed.

Lemma ramfs_unlink_ok r F path : ramfs_is r F -> c_string path -> let nm := skip_slashes path in nm <> [] ->
  exists res r', dfs_ramfs_unlink r path = Some (res, r') /\ ramfs_is r' (delete nm F) /\
    res = match F !! nm with Some _ => 0 | None => - ENOENT end /\ keeps_fds r r' nm.
Proof using HA.
  intros (es & L & Hr & <-) Hp nm Hnm. unfold dfs_ramfs_unlink.
  destruct (ramfs_find r es L path Hr Hp Hnm) as [(l1 & e & l2 & -> & En & ->)|[Hnone ->]]; cbn [mbind option_bind]; [fold nm in En|fold nm in Hnone].
  - destruct (rr_entries _ _ _ Hr e ltac:(set_solver)) as (_ & -> & _). cbn [mbind option_bind d_data].
    destruct (ramfs_remove r l1 l2 e L Hr) as (s1 & s2 & L' & -> & E2 & Hr'). cbn [mbind option_bind]. rewrite E2. cbn [mbind option_bind].
    eexists _, _. split_and!; [done| | |].
    + exists (l1 ++ l2), L'. split; [done|]. rewrite <- En. apply files_remove. apply Hr.
    + destruct (files_middle l1 e l2) as [-> _]; [apply Hr|]. by rewrite En, lookup_insert_eq.
    + eapply keeps_fds_entries; [exact Hr|exact Hr'|]. intros x Hx Hne. rewrite elem_of_app, elem_of_cons in *. naive_solver.
  - exists (- ENOENT), r. split_and!; [done| |by rewrite Hnone|by eapply keeps_fds_entries].
    exists es, L. split; [done|]. by rewrite delete_id.
Qed.

(** ** As a file system *)

Definition ramfs_sys : file_system (dfs_ramfs S) dirent_ptr :=
  mk_sys ramfs_ops proper opens true ramfs_is fd_on (fun _ _ => True).

Lemma proper_path nm : proper nm -> c_string (47 :: nm) /\ skip_slashes (47 :: nm) = nm.
Proof.
  intros (Hne & _ & Hc & Hh). split; [by constructor|]. simpl. destruct nm as [|c nm]; [done|]. simpl.
  rewrite (proj2 (Z.eqb_neq c 47)); [done|]. intros ->. done.
Qed.

Lemma opens_result F nm fl res F' : opens F nm fl res F' -> res <= 0 /\ (res < 0 -> F' = F).
Proof.
  unfold opens, ENOENT, ENOMEM. destruct (F !! nm); [intros [-> _]; lia|].
  destruct (_ || _); [intros [[-> ->]|[-> _]]; (split; [lia|done || lia])|intros [-> ->]; split; [lia|done]].
Qed.

Lemma fd_on_file r F f nm : ramfs_is r F -> fd_on r f nm -> exists b, F !! nm = Some b /\ size f = Z.of_nat (length b) /\ 0 <= pos f <= size f.
Proof.
  intros (es & L & Hr & <-) Hfd. apply (fd_on_entry _ _ _ _ _ Hr) in Hfd as (e & He & <- & _ & Hs & Hp). exists (e_bytes e).
  split_and!; [apply files_lookup; [apply Hr|by exists e]|done|lia|lia].
Qed.

Lemma fd_on_same r f f' nm : fd_on r f nm -> size f' = size f -> data f' = data f -> 0 <= pos f' <= size f -> fd_on r f' nm.
Proof. intros (q & d & Hd & Hq & Hc & Hn & En & Hs & Hp) Es Ed Hp'. exists q, d. rewrite Ed. split_and!; (done || congruence || lia). Qed.

#[export] Instance ramfs_laws : FileSystem ramfs_sys.
Proof using HA.
  split; simpl.
  - split; [done|]. by intros ? ?.
  - done.
  - by intros nm (? & _ & _ & ?).
  - by intros r f nm (q & d & _ & _ & _ & Hn & _).
  - exact fd_on_file.
  - exact fd_on_same.
  - intros F nm res F'. unfold opens, O_RDONLY, ENOENT. destruct (F !! nm); [by intros [-> ->]|]. change (has 0 O_CREAT || has 0 O_WRONLY) with false.
    by intros [-> ->].
  - eexists. split; [done|]. intros r F f nm HF Hp _ Hn Hdir. destruct (proper_path nm Hn) as [Hc Hs].
    pose proof (ramfs_open_ok r F f HF) as Ho. cbv zeta in Ho. rewrite Hp, Hs in Ho.
    destruct (Ho Hc Hdir Hn) as (res & r' & f' & F' & -> & Hop & HF' & Hk & Hok). destruct (opens_result _ _ _ _ _ Hop).
    exists res, r', f', F'. by split_and!.
  - eexists. split; [done|]. intros r f nm _. by eexists.
  - eexists. split; [done|]. intros r F f nm len. apply ramfs_read_ok.
  - eexists. split; [done|]. intros r f nm off Hon Hoff. unfold dfs_ramfs_lseek.
    destruct (Z.leb_spec off (size f)); eexists _, _; (split; [done|]).
    + rewrite decide_True by done. split; [|done]. eapply fd_on_same; [exact Hon|done|done|]. simpl. lia.
    + rewrite decide_False by lia. done.
  - eexists. split; [done|]. intros r F f nm buf HF Hon Hl. destruct (ramfs_write_ok r F f nm buf HF Hon Hl) as (b & n & r' & f' & Hb & E & Hk & Hf & Hres).
    exists b, n, r', f'. split_and!; [done..|]. destruct Hres as [(-> & -> & ?)|?]; [by left|by right].
  - eexists. split; [done|]. intros r F nm HF Hn. destruct (proper_path nm Hn) as [Hc Hs].
    pose proof (ramfs_unlink_ok r F (47 :: nm) HF Hc) as Hu. cbv zeta in Hu. rewrite Hs in Hu. destruct (Hu (proj1 Hn)) as (res & r' & -> & H1 & -> & H2).
    eexists _, r'. split_and!; [done..|]. by destruct (F !! nm).
Qed.
End ramfs.

(** ** In a piece of memory *)

(** The magic word, the memory heap with its semaphore, the root. *)
Definition sizeof_ramfs : Z := 4 + (68 + 24 + 56) + sizeof_dirent.

Definition dfs_ramfs_create (pool size : Z) (bs : Z -> option Z) : option (dfs_ramfs mem) :=
  let size := RT_ALIGN_DOWN size RT_ALIGN_SIZE in
  let data_ptr := u32 (pool + sizeof_ramfs) in
  let size := RT_ALIGN_DOWN (u32 (size - sizeof_ramfs)) RT_ALIGN_SIZE in
  m ← rt_memheap_init (pool + 4) data_ptr size bs;
  Some (mk_ramfs m [] ∅).

Abbreviation ramfs_holds := (ramfs_is (describes := describes)).

Lemma dfs_ramfs_create_ok pool sz bs : 0 <= pool -> pool + sz < 2 ^ 32 -> 288 <= sz ->
  exists r, dfs_ramfs_create pool sz bs = Some r /\ ramfs_holds r ∅.
Proof.
  intros Hp He Hs. unfold dfs_ramfs_create, sizeof_ramfs, sizeof_dirent. cbv zeta. rewrite (RT_ALIGN_DOWN_spec sz) by lia.
  assert (u32 (sz / 8 * 8 - (4 + (68 + 24 + 56) + 52)) = sz / 8 * 8 - 204) as -> by (apply wrap_small; zdiv).
  rewrite RT_ALIGN_DOWN_spec by zdiv. rewrite (wrap_small 32 (pool + _)) by lia.
  destruct (describes_init (pool + 4) (pool + (4 + (68 + 24 + 56) + 52)) ((sz / 8 * 8 - 204) / 8 * 8) bs) as (m & -> & HD);
    [lia|unfold free_header; lia|zdiv|zdiv|].
  eexists. split; [done|]. exists [], ∅. split; [|done]. split; [done|done|constructor|constructor|].
  by intros e ?%not_elem_of_nil.
Qed.

(** C12: The RAM file system refines a map from names to bytes. In a piece of
    memory of 288 bytes or more it starts empty; then open finds, creates or
    empties the file of that name, a write through an open file replaces or
    appends these bytes and no others, or finds no room and changes nothing, a
    read gives the bytes from the position on, and unlink takes the file away;
    open files of other names stay usable.  No call gets stuck. *)
Theorem ramfs_refines :
  (forall pool sz bs, 0 <= pool -> pool + sz < 2 ^ 32 -> 288 <= sz ->
     exists r, dfs_ramfs_create pool sz bs = Some r /\ ramfs_holds r ∅) /\
  (forall r F file, ramfs_holds r F -> c_string (path file) -> has (flags file) O_DIRECTORY = false -> proper (skip_slashes (path file)) ->
     exists res r' file' F', dfs_ramfs_open r file = Some (res, r', file') /\ opens F (skip_slashes (path file)) (flags file) res F' /\
       ramfs_holds r' F' /\ keeps_fds r r' (skip_slashes (path file)) /\
       (res = 0 -> fd_on r' file' (skip_slashes (path file)) /\ (has (flags file) O_APPEND = false -> pos file' = 0))) /\
  (forall r F file nm buf, ramfs_holds r F -> fd_on r file nm -> pos file + Z.of_nat (length buf) <= max_request ->
     exists b n r' file', F !! nm = Some b /\ dfs_ramfs_write r file buf = Some (n, r', file') /\ keeps_fds r r' nm /\ fd_on r' file' nm /\
       (n = 0 /\ file' = file /\ ramfs_holds r' F \/
        n = Z.of_nat (length buf) /\ pos file' = pos file + n /\ ramfs_holds r' (<[nm := splice b buf (Z.to_nat (pos file))]> F))) /\
  (forall r F file nm count, ramfs_holds r F -> fd_on r file nm -> 0 <= count ->
     exists b file', F !! nm = Some b /\
       let bs := take (Z.to_nat count) (drop (Z.to_nat (pos file)) b) in
       dfs_ramfs_read r file count = Some (Z.of_nat (length bs), Some <$> bs, file') /\ fd_on r file' nm /\
       pos file' = pos file + Z.of_nat (length bs)) /\
  (forall r F path, ramfs_holds r F -> c_string path -> skip_slashes path <> [] ->
     exists res r', dfs_ramfs_unlink r path = Some (res, r') /\ ramfs_holds r' (delete (skip_slashes path) F) /\
       res = match F !! skip_slashes path with Some _ => 0 | None => - ENOENT end /\ keeps_fds r r' (skip_slashes path)).
Proof.
  split_and!; [exact dfs_ramfs_create_ok|intros r F file Hr Hp Hd Hn; by apply ramfs_open_ok|exact ramfs_write_ok|exact ramfs_read_ok
    |intros r F path; by apply ramfs_unlink_ok].
Qed.

Definition fw_bin : list Z := [47; 102; 119; 46; 98; 105; 110].

Theorem ramfs_refines_witness : exists r res r' file' F',
  dfs_ramfs_create 4096 1000 (fun _ => None) = Some r /\ ramfs_holds r ∅ /\
  dfs_ramfs_open r (mk_file fw_bin O_CREAT 0 0 None) = Some (res, r', file') /\ res = 0 /\
  ramfs_holds r' F' /\ F' = <[tail fw_bin := []]> ∅ /\ fd_on r' file' (tail fw_bin).
Proof.
  destruct ramfs_refines as (Hc & Ho & _).
  destruct (Hc 4096 1000 (fun _ => None)) as (r & E & Hr); [lia|lia|lia|].
  destruct (Ho r ∅ (mk_file fw_bin O_CREAT 0 0 None) Hr) as (res & r' & file' & F' & E' & Hop & Hr' & _ & Hfd).
  - repeat constructor.
  - done.
  - split_and!; [done|vm_compute; congruence|repeat constructor|done].
  - assert (Hv : (r ← dfs_ramfs_create 4096 1000 (fun _ => None); '(res, _, _) ← dfs_ramfs_open r (mk_file fw_bin O_CREAT 0 0 None); Some res)
      = Some 0) by by vm_compute.
    rewrite E in Hv. cbn [mbind option_bind] in Hv. rewrite E' in Hv. injection Hv as ->.
    exists r, 0, r', file', F'. destruct Hfd as [Hfd _]; [done|]. split_and!; [done..| |done].
    destruct Hop as [[? _]|[_ ->]]; [done|reflexivity].
Defined.

(** ** What the code does not do *)

Definition new_ramfs : option (dfs_ramfs mem) := dfs_ramfs_create 4096 1000 (fun _ => None).
Definition create (name : list Z) (r : dfs_ramfs mem) : option (Z * dfs_ramfs mem * dfs_file dirent_ptr) :=
  dfs_ramfs_open r (mk_file name O_CREAT 0 0 None).

(** A renamed file keeps the slash of its new name, and is not found again. *)
Example rename_loses_file :
  (r ← new_ramfs; '(_, r, _) ← create [47; 97] r; '(res, r) ← dfs_ramfs_rename r [47; 97] [47; 98];
   a ← dfs_ramfs_lookup r [47; 97]; b ← dfs_ramfs_lookup r [47; 98]; Some (res, a, b)) = Some (0, None, None).
Proof. vm_compute. reflexivity. Qed.

(** A name of 32 bytes fills the array: the next comparison runs past it. *)
Example long_name_unterminated :
  (r ← new_ramfs; '(res, r, _) ← create (repeat 97 32) r; Some (res, dfs_ramfs_lookup r (repeat 97 32))) = Some (0, None).
Proof. vm_compute. reflexivity. Qed.

(** Unlinking the mount point itself would give back the root, no heap block. *)
Example unlink_root : (r ← new_ramfs; Some (dfs_ramfs_lookup r [47], dfs_ramfs_unlink r [47])) = Some (Some (Some Root), None).
Proof. vm_compute. reflexivity. Qed.
