(* ===== verification/Romfs.v ===== *)
(** * Files in mapped memory: dfs/filesystems/romfs/dfs_romfs.c, romfs.c

    Directories are constant arrays of entries, files are bytes at an address.  A
    pointer to an entry is the entry with everything below it, since none of it
    ever changes once it is mounted.  The memory the bytes lie in is the state of
    the file system.  [None] is a step without meaning in C. *)

From S2P Require Import Prelude Object Vfs.
From Stdlib Require Ascii String.
Import String.StringSyntax.

Definition ROMFS_DIRENT_FILE : Z := 0.
Definition ROMFS_DIRENT_DIR : Z := 1.
Definition O_RDWR : Z := 2.

(** [data] points to bytes or to [size] entries. *)
Inductive romfs_dirent := mk_rom (rom_type : Z) (rom_name : list Z) (rom_data : rom_pointer) (rom_size : Z)
with rom_pointer := Null | Bytes (a : Z) | Entries (l : list romfs_dirent).

Definition rom_type (d : romfs_dirent) : Z := let '(mk_rom t _ _ _) := d in t.
Definition rom_name (d : romfs_dirent) : list Z := let '(mk_rom _ n _ _) := d in n.
Definition rom_data (d : romfs_dirent) : rom_pointer := let '(mk_rom _ _ p _) := d in p.
Definition rom_size (d : romfs_dirent) : Z := let '(mk_rom _ _ _ n) := d in n.

Definition check_dirent (d : romfs_dirent) : Z :=
  if (negb (rom_type d =? ROMFS_DIRENT_FILE) && negb (rom_type d =? ROMFS_DIRENT_DIR)) || (rom_size d =? 2 ^ 32 - 1) then -1 else 0.

(** [subpath_end] over the slashes, then [subpath] to the next slash: the name and
    what is left. *)
Fixpoint skip_slash_run (p : list Z) : list Z :=
  match p with c :: p' => if c =? 47 then skip_slash_run p' else p | [] => [] end.
Fixpoint to_slash (p : list Z) : list Z * list Z :=
  match p with
  | c :: p' => if c =? 47 then ([], p) else let '(n, r) := to_slash p' in (c :: n, r)
  | [] => ([], [])
  end.
Definition next_name (p : list Z) : list Z * list Z := to_slash (skip_slash_run p).

(** The loop over a directory: [Some None] when the function returns or there is
    no such entry; reading behind the array has no meaning. *)
Fixpoint find_dirent (l : list romfs_dirent) (n : Z) (subpath rest : list Z) : option (option romfs_dirent) :=
  if n <=? 0 then Some None
  else
    match l with
    | [] => None
    | d :: l =>
        if negb (check_dirent d =? 0) then Some None
        else if (Z.of_nat (length (rom_name d)) =? Z.of_nat (length subpath)) &&
            rt_strncmp_eq (rom_name d ++ [0]) (subpath ++ rest ++ [0]) (length subpath)
        then Some (Some d)
        else find_dirent l (n - 1) subpath rest
    end.

(** Entry and size.  [dirent] is a null pointer when [Null]. *)
Fixpoint lookup_in (fuel : nat) (dirent : rom_pointer) (dirent_size : Z) (subpath rest : list Z) : option (option (romfs_dirent * Z)) :=
  match fuel with
  | O => None
  | S fuel =>
      match dirent with
      | Null => Some None
      | Bytes _ => None
      | Entries l =>
          d ← find_dirent l dirent_size subpath rest;
          match d with
          | None => Some None
          | Some d =>
              let '(subpath, rest) := next_name rest in
              match subpath with
              | [] => Some (Some (d, rom_size d))
              | _ => if rom_type d =? ROMFS_DIRENT_DIR then lookup_in fuel (rom_data d) (rom_size d) subpath rest else Some None
              end
          end
      end
  end.

Definition dfs_romfs_lookup (root : romfs_dirent) (path : list Z) : option (option (romfs_dirent * Z)) :=
  if negb (check_dirent root =? 0) then Some None
  else if bool_decide (path = [47]) then Some (Some (root, rom_size root))
  else let '(subpath, rest) := next_name path in lookup_in (S (length path)) (rom_data root) (rom_size root) subpath rest.

(** The memory, by addresses. *)
Abbreviation rom_memory := (Z -> Z).
Implicit Types (w : rom_memory) (file : dfs_file romfs_dirent).

Definition dfs_romfs_read w file (count : Z) : option (Z * list (option Z) * dfs_file romfs_dirent) :=
  dirent ← data file;
  if negb (check_dirent dirent =? 0) then Some (- EIO, [], file)
  else
    let left := u32 (size file - pos file) in
    let length := if count <? left then count else left in
    buf ← (if 0 <? length then
        match rom_data dirent with
        | Bytes a => Some ((fun i => Some (w i)) <$> seqZ (a + pos file) length)
        | _ => None
        end
      else Some []);
    Some (length, buf, mk_file (path file) (flags file) (size file) (pos file + length) (data file)).

(** [offset] is compared as an unsigned number. *)
Definition dfs_romfs_lseek w file (offset : Z) : option (Z * dfs_file romfs_dirent) :=
  if u32 offset <=? size file
  then Some (offset, mk_file (path file) (flags file) (size file) offset (data file))
  else Some (- EIO, file).

Definition dfs_romfs_close w file : option (Z * dfs_file romfs_dirent) :=
  Some (0, mk_file (path file) (flags file) (size file) (pos file) None).

Section romfs.
(** [fs->data] *)
Variable root_dirent : romfs_dirent.

Definition dfs_romfs_open w file : option (Z * rom_memory * dfs_file romfs_dirent) :=
  let fail e := Some (- e, w, file) in
  if negb (check_dirent root_dirent =? 0) then fail EIO
  else if has (flags file) (Z.lor O_CREAT (Z.lor O_WRONLY (Z.lor O_APPEND (Z.lor O_TRUNC O_RDWR)))) then fail EINVAL
  else
    r ← dfs_romfs_lookup root_dirent (path file);
    match r with
    | None => fail ENOENT
    | Some (dirent, size) =>
        if rom_type dirent =? ROMFS_DIRENT_DIR then
          if negb (has (flags file) O_DIRECTORY) then fail ENOENT
          else Some (0, w, mk_file (path file) (flags file) size 0 (Some dirent))
        else if has (flags file) O_DIRECTORY then fail ENOENT
        else Some (0, w, mk_file (path file) (flags file) size 0 (Some dirent))
    end.

(** The size in [struct stat]. *)
Definition dfs_romfs_stat w (path : list Z) : option (Z * Z) :=
  r ← dfs_romfs_lookup root_dirent path;
  Some (match r with None => (- ENOENT, 0) | Some (dirent, _) => (0, rom_size dirent) end).

(** The entries from [pos] on, as many as there are and fit. *)
Definition sizeof_struct_dirent : Z := 260.
Definition dfs_romfs_getdents w file (count : Z) : option (Z * list (list Z) * dfs_file romfs_dirent) :=
  dirent ← data file;
  if negb (check_dirent dirent =? 0) then Some (- EIO, [], file)
  else
    let count := count / sizeof_struct_dirent in
    if count =? 0 then Some (- EINVAL, [], file)
    else
      let index := Z.max 0 (Z.min count (size file - pos file)) in
      ds ← (if 0 <? index then
          match rom_data dirent with
          | Entries l => mapM (fun i => l !! Z.to_nat i) (seqZ (pos file) index)
          | _ => None
          end
        else Some []);
      Some (index * sizeof_struct_dirent, rom_name <$> ds,
            mk_file (path file) (flags file) (size file) (pos file + index) (data file)).

Definition _rom_fops : dfs_file_ops rom_memory romfs_dirent :=
  mk_file_ops _ _ (Some dfs_romfs_open) (Some dfs_romfs_close) (Some dfs_romfs_read) None (Some dfs_romfs_lseek) (Some dfs_romfs_getdents).
Definition _romfs : dfs_filesystem_ops rom_memory romfs_dirent :=
  mk_fs_ops _ _ DFS_FS_FLAG_DEFAULT _rom_fops None (Some dfs_romfs_stat) None.
End romfs.

(** ** romfs.c *)

(** A string literal. *)
Fixpoint literal (s : String.string) : list Z :=
  match s with
  | String.EmptyString => []
  | String.String c s => Z.of_nat (Ascii.nat_of_ascii c) :: literal s
  end.
#[local] Open Scope string_scope.

Definition rom_file (name : String.string) (a size : Z) : romfs_dirent := mk_rom ROMFS_DIRENT_FILE (literal name) (Bytes a) size.
Definition rom_dir (name : String.string) (l : list romfs_dirent) : romfs_dirent :=
  mk_rom ROMFS_DIRENT_DIR (literal name) (Entries l) (Z.of_nat (length l)).

Section image.
(** Where the linker puts the arrays of bytes. *)
Variable place : Z -> Z.

Definition _romfs_root_tmp : list romfs_dirent := [rom_file "RAMFS_DIR" (place 0) 0].
Definition _romfs_root_www_map : list romfs_dirent := [rom_file "FLASH_MAP_DIR" (place 1) 0].
Definition _romfs_root_www : list romfs_dirent :=
  [rom_file "404.html" (place 2) 565; rom_file "about.html" (place 3) 904; rom_file "ajax.js" (place 4) 1060;
   rom_file "backup.html" (place 5) 1055; rom_file "index.asp" (place 6) 1151; rom_dir "map" _romfs_root_www_map;
   rom_file "nvbar.js" (place 7) 785; rom_file "reboot.html" (place 8) 818; rom_file "style.css" (place 9) 8246;
   rom_file "upgrade.html" (place 10) 7421; rom_file "upgrading.html" (place 11) 2810].
Definition _romfs_root : list romfs_dirent := [rom_dir "tmp" _romfs_root_tmp; rom_dir "www" _romfs_root_www].
Definition romfs_root : romfs_dirent := rom_dir "/" _romfs_root.
End image.
