(* ===== verification/DfsPath.v ===== *)
(** * Paths: dfs/dfs.c

    dfs_normalize_path rewrites a path in the buffer it lies in: every load and
    store is inside the buffer or the result is [None].  The theorem compares it
    with splitting the path at its slashes and resolving the names one by one. *)

From S2P Require Import Prelude.

(** ** The code *)

Fixpoint skip_slash (fuel : nat) (b : list Z) (src : nat) : option nat :=
  match fuel with
  | O => None
  | S fuel => c ← b !! src; if c =? 47 then skip_slash fuel b (S src) else Some src
  end.

(** The character that ends the name, the buffer and both pointers. *)
Fixpoint copy_name (fuel : nat) (b : list Z) (src dst : nat) : option (Z * list Z * nat * nat) :=
  match fuel with
  | O => None
  | S fuel =>
      c ← b !! src;
      if (c =? 0) || (c =? 47) then Some (c, b, S src, dst)
      else copy_name fuel (<[dst := c]> b) (S src) (S dst)
  end.

(** [while (dst0 < dst && dst[-1] != '/') dst --] *)
Fixpoint back_up (b : list Z) (dst : nat) : option nat :=
  match dst with
  | O => Some O
  | S d => c ← b !! d; if c =? 47 then Some dst else back_up b d
  end.

(** What stands at [src]: [true] for the parent directory. *)
Inductive piece := Dot (src : nat) | DotDot (src : nat) | Name (src : nat).

Definition look (b : list Z) (src : nat) : option piece :=
  c ← b !! src;
  if c =? 46 then
    c1 ← b !! S src;
    if c1 =? 0 then Some (Name (S src))
    else if c1 =? 47 then src ← skip_slash (length b) b (src + 2); Some (Dot src)
    else if c1 =? 46 then
      c2 ← b !! (src + 2)%nat;
      if c2 =? 0 then Some (DotDot (src + 2))
      else if c2 =? 47 then src ← skip_slash (length b) b (src + 3); Some (DotDot src)
      else Some (Name src)
    else Some (Name src)
  else Some (Name src).

(** [Some None] is [RT_NULL], [Some (Some (b, dst))] the end of the loop. *)
Fixpoint norm_loop (fuel : nat) (b : list Z) (src dst : nat) : option (option (list Z * nat)) :=
  match fuel with
  | O => None
  | S fuel =>
      p ← look b src;
      match p with
      | Dot src => norm_loop fuel b src dst
      | DotDot src =>
          match dst with
          | O => Some None
          | S dst => dst ← back_up b dst; norm_loop fuel b src dst
          end
      | Name src =>
          '(c, b, src, dst) ← copy_name (length b) b src dst;
          if c =? 47 then
            let b := <[dst := 47]> b in
            src ← skip_slash (length b) b src;
            norm_loop fuel b src (S dst)
          else Some (Some (b, dst))
      end
  end.

(** The string at the start of a buffer. *)
Fixpoint string_of (b : list Z) : option (list Z) :=
  match b with
  | [] => None
  | c :: b => if c =? 0 then Some [] else cons c <$> string_of b
  end.

(** With nothing written the byte in front of the buffer is read. *)
Definition norm_end (b : list Z) (dst : nat) : option (list Z) :=
  let b := <[dst := 0]> b in
  match dst with
  | O => None
  | S d =>
      c ← b !! d;
      let b := if negb (d =? 0)%nat && (c =? 47) then <[d := 0]> b else b in
      c ← b !! O;
      string_of (if c =? 0 then <[1%nat := 0]> (<[O := 47]> b) else b)
  end.

(** [directory] is the working directory when the code passes [RT_NULL]; [mem]:
    rt_malloc finds memory. *)
Definition dfs_normalize_path (mem : bool) (directory filename : list Z) : option (option (list Z)) :=
  if negb mem then Some None else
  let b := (if negb (default 0 (head filename) =? 47) then directory ++ [47] ++ filename else filename) ++ [0] in
  r ← norm_loop (length b) b 0 0;
  match r with
  | None => Some None
  | Some (b, dst) => Some <$> norm_end b dst
  end.

(** ** What it means *)

(** Names are the pieces between slashes. *)
Fixpoint split_path (cur p : list Z) : list (list Z) :=
  match p with
  | [] => [cur]
  | c :: p => if c =? 47 then cur :: split_path [] p else split_path (cur ++ [c]) p
  end.

(** The names down to the directory, the last one first; [None] above the root. *)
Fixpoint resolve (st names : list (list Z)) : option (list (list Z)) :=
  match names with
  | [] => Some st
  | n :: names =>
      if decide (n = [] \/ n = [46]) then resolve st names
      else if decide (n = [46; 46]) then match st with [] => None | _ :: st => resolve st names end
      else resolve (n :: st) names
  end.

(** The path of a directory. *)
Definition render (st : list (list Z)) : list Z :=
  match st with [] => [47] | _ => concat (map (cons 47) (reverse st)) end.

Definition name_ok (n : list Z) : Prop := n <> [] /\ n <> [46] /\ n <> [46; 46] /\ Forall (fun c => c <> 0 /\ c <> 47) n.

(** ** The buffer during the loop *)

Fixpoint strip (p : list Z) : list Z :=
  match p with c :: p' => if c =? 47 then strip p' else p | [] => [] end.

Definition no_slash (n : list Z) : Prop := Forall (fun c => c <> 0 /\ c <> 47) n.
Definition no_zero (p : list Z) : Prop := Forall (fun c => c <> 0) p.

(** A directory with the slash behind it, and what the loop has written. *)
Definition dirpath (st : list (list Z)) : list Z := 47 :: concat (map (fun n => n ++ [47]) (reverse st)).

(** What is read at [src] is ahead of what is written. *)
Record buffer (b : list Z) (src dst : nat) (out rest : list Z) : Prop := {
  bf_order : (dst <= src)%nat;
  bf_out : take dst b = out;
  bf_dst : length out = dst;
  bf_rest : exists tl, drop src b = rest ++ 0 :: tl
}.

Lemma buffer_read b src dst out rest c r : buffer b src dst out rest -> rest = c :: r -> b !! src = Some c.
Proof. intros [_ _ _ [tl H]] ->. rewrite <- (Nat.add_0_r src), <- lookup_drop, H. done. Qed.

Lemma buffer_end b src dst out : buffer b src dst out [] -> b !! src = Some 0.
Proof. intros [_ _ _ [tl H]]. rewrite <- (Nat.add_0_r src), <- lookup_drop, H. done. Qed.

Lemma buffer_next b src dst out c r : buffer b src dst out (c :: r) -> buffer b (S src) dst out r.
Proof.
  intros [H1 H2 H3 [tl H4]]. split; [lia|done|done|]. exists tl.
  replace (S src) with (src + 1)%nat by lia. rewrite <- drop_drop, H4. done.
Qed.

Lemma buffer_nexts b src dst out x r : buffer b src dst out (x ++ r) -> buffer b (src + length x) dst out r.
Proof.
  revert src. induction x as [|c x IH]; intros src H; simpl; [by rewrite Nat.add_0_r|].
  replace (src + S (length x))%nat with (S src + length x)%nat by lia. apply IH. by eapply buffer_next.
Qed.

Lemma buffer_length b src dst out rest : buffer b src dst out rest -> (src + length rest < length b)%nat.
Proof. intros [_ _ _ [tl H]]. apply (f_equal length) in H. rewrite length_drop, length_app in H. simpl in H. lia. Qed.

Lemma buffer_put b src dst out c r v : buffer b src dst out (c :: r) -> buffer (<[dst := v]> b) (S src) (S dst) (out ++ [v]) r.
Proof.
  intros H. pose proof (buffer_length _ _ _ _ _ H) as Hl. destruct (buffer_next _ _ _ _ _ _ H) as [_ _ _ [tl H4]]. destruct H as [H1 H2 H3 _].
  split; [lia| |rewrite length_app; simpl; lia|].
  - rewrite (take_S_r _ _ v) by (apply list_lookup_insert_eq; simpl in *; lia). by rewrite take_insert_ge, H2 by lia.
  - exists tl. by rewrite drop_insert_lt by lia.
Qed.

Lemma skip_slash_ok fuel b src dst out rest : buffer b src dst out rest -> no_zero rest -> (length rest < fuel)%nat ->
  exists src', skip_slash fuel b src = Some src' /\ buffer b src' dst out (strip rest).
Proof.
  revert src rest. induction fuel as [|fuel IH]; intros src rest H Hz Hf; [lia|]. simpl.
  destruct rest as [|c rest].
  - rewrite (buffer_end _ _ _ _ H). by exists src.
  - rewrite (buffer_read _ _ _ _ _ _ _ H eq_refl). simpl. inv Hz. destruct (Z.eqb_spec c 47) as [->|].
    + apply (IH (S src) rest); [by eapply buffer_next|done|simpl in Hf; lia].
    + by exists src.
Qed.

Lemma copy_name_ok fuel b src dst out n r : buffer b src dst out (n ++ r) -> no_slash n -> (r = [] \/ exists r', r = 47 :: r') ->
  (length n < fuel)%nat -> exists b',
  copy_name fuel b src dst = Some (default 0 (head r), b', S (src + length n), (dst + length n)%nat) /\
  length b' = length b /\ buffer b' (src + length n) (dst + length n) (out ++ n) r.
Proof.
  revert b src dst out n. induction fuel as [|fuel IH]; intros b src dst out n H Hn Hr Hf; [lia|]. simpl. destruct n as [|c n].
  - exists b. rewrite !Nat.add_0_r, app_nil_r. destruct Hr as [->|[r' ->]]; simpl in *.
    + by rewrite (buffer_end _ _ _ _ H).
    + by rewrite (buffer_read _ _ _ _ _ _ _ H eq_refl).
  - rewrite (buffer_read _ _ _ _ _ _ _ H eq_refl). simpl. inv Hn. rewrite (proj2 (Z.eqb_neq c 0)), (proj2 (Z.eqb_neq c 47)) by tauto. simpl.
    apply (buffer_put _ _ _ _ _ _ c) in H. destruct (IH _ _ _ _ n H) as (b' & -> & Hl & Hb); [done|done|simpl in Hf; lia|].
    exists b'. rewrite length_insert in Hl. rewrite <- app_assoc in Hb.
    replace (src + S (length n))%nat with (S src + length n)%nat by lia. replace (dst + S (length n))%nat with (S dst + length n)%nat by lia. done.
Qed.

Lemma back_up_ok b d x n : take d b = x ++ 47 :: n -> length (x ++ 47 :: n) = d -> no_slash n -> back_up b d = Some (S (length x)).
Proof.
  revert d. induction n as [|c n IH] using rev_ind; intros d Ht Hd Hn.
  - destruct d as [|d]; rewrite length_app in Hd; simpl in Hd; [lia|]. assert (d = length x) as -> by lia. simpl.
    rewrite <- (lookup_take_lt b (S (length x))) by lia. rewrite Ht, lookup_app_r, Nat.sub_diag by lia. done.
  - apply Forall_app in Hn as [Hn [[_ Hc] _]%Forall_cons].
    replace (x ++ 47 :: n ++ [c]) with ((x ++ 47 :: n) ++ [c]) in * by by rewrite <- app_assoc.
    rewrite length_app in Hd. simpl in Hd. rewrite Nat.add_1_r in Hd. subst d. simpl.
    assert (b !! length (x ++ 47 :: n) = Some c) as ->.
    { rewrite <- (lookup_take_lt b (S (length (x ++ 47 :: n)))) by lia. rewrite Ht. by apply list_lookup_middle. }
    simpl. rewrite (proj2 (Z.eqb_neq c 47)) by done. apply IH; [|done|done].
    apply (f_equal (take (length (x ++ 47 :: n)))) in Ht. rewrite take_take, Nat.min_l in Ht by lia. rewrite Ht.
    by apply take_app_length'.
Qed.

(** ** One name *)

Lemma split_name rest : no_zero rest -> exists n r, rest = n ++ r /\ no_slash n /\ (r = [] \/ exists r', r = 47 :: r').
Proof.
  induction rest as [|c rest IH]; intros Hz; [exists [], []; repeat split; [constructor|by left]|].
  inv Hz. destruct (decide (c = 47)) as [->|Hc]; [exists [], (47 :: rest); repeat split; [constructor|right; by eexists]|].
  destruct IH as (n & r & -> & Hn & Hr); [done|]. exists (c :: n), r. split_and!; [done|by constructor|done].
Qed.

Lemma split_path_last cur n : no_slash n -> split_path cur n = [cur ++ n].
Proof.
  intros Hn. revert cur. induction Hn as [|c n [_ Hc] Hn IH]; intros cur; simpl; [by rewrite app_nil_r|].
  rewrite (proj2 (Z.eqb_neq c 47)) by done. by rewrite IH, <- app_assoc.
Qed.

Lemma split_path_name cur n r : no_slash n -> split_path cur (n ++ 47 :: r) = (cur ++ n) :: split_path [] r.
Proof.
  intros Hn. revert cur. induction Hn as [|c n [_ Hc] Hn IH]; intros cur; simpl; [by rewrite app_nil_r|].
  rewrite (proj2 (Z.eqb_neq c 47)) by done. by rewrite IH, <- app_assoc.
Qed.

Lemma resolve_empty st names : resolve st ([] :: names) = resolve st names.
Proof. cbn [resolve]. by rewrite decide_True by auto. Qed.

Lemma resolve_strip st p : resolve st (split_path [] (strip p)) = resolve st (split_path [] p).
Proof.
  induction p as [|c p IH]; [done|]. cbn [strip split_path]. destruct (Z.eqb_spec c 47) as [->|H].
  - by rewrite resolve_empty.
  - simpl. by rewrite (proj2 (Z.eqb_neq c 47)).
Qed.

Lemma buffer_at b src dst out rest i : buffer b src dst out rest -> (i <= length rest)%nat -> b !! (src + i)%nat = (rest ++ [0]) !! i.
Proof.
  intros [_ _ _ [tl H]] Hi. rewrite <- lookup_drop, H. replace (rest ++ 0 :: tl) with ((rest ++ [0]) ++ tl) by by rewrite <- app_assoc.
  rewrite lookup_app_l; [done|]. rewrite length_app. simpl. lia.
Qed.

Lemma no_zero_strip p : no_zero p -> no_zero (strip p).
Proof. induction 1 as [|c p Hc Hp IH]; [constructor|]. simpl. destruct (_ =? _); [done|by constructor]. Qed.

Lemma strip_length p : (length (strip p) <= length p)%nat.
Proof. induction p as [|c p IH]; simpl; [done|]. destruct (_ =? _); simpl; lia. Qed.

Lemma look_ok b src dst out n r : buffer b src dst out (n ++ r) -> no_zero (n ++ r) -> no_slash n -> (r = [] \/ exists r', r = 47 :: r') ->
  n = [46] /\ r = [] /\ look b src = Some (Name (S src)) \/
  (exists r' src', n = [46] /\ r = 47 :: r' /\ look b src = Some (Dot src') /\ buffer b src' dst out (strip r')) \/
  (exists src', n = [46; 46] /\ look b src = Some (DotDot src') /\ buffer b src' dst out (strip (tail r))) \/
  n <> [46] /\ n <> [46; 46] /\ look b src = Some (Name src).
Proof.
  intros H Hz Hn Hr. unfold look. pose proof (buffer_length _ _ _ _ _ H) as Hl.
  pose proof (buffer_at _ _ _ _ _ O H ltac:(lia)) as A0. rewrite Nat.add_0_r in A0.
  destruct n as [|c n].
  { destruct Hr as [->|[r' ->]]; simpl in A0; rewrite A0; right; right; right; done. }
  simpl in A0. rewrite A0. cbn [mbind option_bind]. destruct (Z.eqb_spec c 46) as [->|]; [|right; right; right; split_and!; congruence].
  pose proof (buffer_at _ _ _ _ _ 1%nat H ltac:(simpl; lia)) as A1. rewrite Nat.add_1_r in A1.
  inversion_clear Hn as [|? ? _ Hn1]. destruct n as [|c n].
  { destruct Hr as [->|[r' ->]]; simpl in A1; rewrite A1; cbn [mbind option_bind].
    - by left.
    - change (47 =? 0) with false. change (47 =? 47) with true. cbv match.
      destruct (skip_slash_ok (length b) b (src + 2) dst out r') as (src' & -> & Hb);
        [exact (buffer_nexts _ _ _ _ [46; 47] _ H)|by apply (Forall_app _ [46; 47] r')|simpl in Hl; lia|].
      right; left. by exists r', src'. }
  simpl in A1. rewrite A1. cbn [mbind option_bind]. inversion_clear Hn1 as [|? ? [Hc0 Hc1] Hn2].
  rewrite (proj2 (Z.eqb_neq c 0)), (proj2 (Z.eqb_neq c 47)) by done.
  destruct (Z.eqb_spec c 46) as [->|]; [|right; right; right; split_and!; congruence].
  pose proof (buffer_at _ _ _ _ _ 2%nat H ltac:(simpl; lia)) as A2. destruct n as [|c n].
  { destruct Hr as [->|[r' ->]]; simpl in A2; rewrite A2; cbn [mbind option_bind].
    - right; right; left. exists (src + 2)%nat. split_and!; [done..|]. exact (buffer_nexts _ _ _ _ [46; 46] [] H).
    - change (47 =? 0) with false. change (47 =? 47) with true. cbv match.
      destruct (skip_slash_ok (length b) b (src + 3) dst out r') as (src' & -> & Hb);
        [exact (buffer_nexts _ _ _ _ [46; 46; 47] _ H)|by apply (Forall_app _ [46; 46; 47] r')|simpl in Hl; lia|].
      right; right; left. by exists src'. }
  simpl in A2. rewrite A2. cbn [mbind option_bind]. inversion_clear Hn2 as [|? ? [Hc2 Hc3] _].
  rewrite (proj2 (Z.eqb_neq c 0)), (proj2 (Z.eqb_neq c 47)) by done. right; right; right. split_and!; congruence.
Qed.

(** ** The loop *)

Lemma dirpath_push n st : dirpath (n :: st) = dirpath st ++ n ++ [47].
Proof. unfold dirpath. rewrite reverse_cons, map_app, concat_app. simpl. by rewrite app_nil_r. Qed.

Lemma dirpath_render n st : dirpath (n :: st) = render (n :: st) ++ [47].
Proof.
  unfold dirpath, render. induction (reverse (n :: st)) as [|m l IH]; [done|]. simpl in *.
  rewrite <- !app_assoc, <- IH. done.
Qed.

Lemma strip_strip p : strip (strip p) = strip p.
Proof. induction p as [|c p IH]; [done|]. simpl. destruct (c =? 47) eqn:E; [done|]. simpl. by rewrite E. Qed.

Lemma norm_name fuel b src dst out n r : buffer b src dst out (n ++ 47 :: r) -> no_slash n -> no_zero r -> look b src = Some (Name src) ->
  exists b' src', norm_loop (S fuel) b src dst = norm_loop fuel b' src' (S (dst + length n)) /\
    buffer b' src' (S (dst + length n)) (out ++ n ++ [47]) (strip r).
Proof.
  intros H Hn Hr Hlook. simpl. rewrite Hlook. simpl. pose proof (buffer_length _ _ _ _ _ H) as Hl. rewrite length_app in Hl.
  destruct (copy_name_ok (length b) b src dst out n (47 :: r) H) as (b' & -> & Hlen & Hb); [done|right; by eexists|simpl in Hl; lia|].
  cbn [head default mbind option_bind]. change (47 =? 47) with true. cbv match.
  apply (buffer_put _ _ _ _ _ _ 47) in Hb. rewrite <- app_assoc in Hb.
  destruct (skip_slash_ok (length (<[(dst + length n)%nat := 47]> b')) _ _ _ _ _ Hb) as (src' & -> & Hb'); [done| |].
  { rewrite length_insert, Hlen. simpl in Hl. lia. }
  simpl. by eexists _, src'.
Qed.

(** The buffer when the loop ends. *)
Definition ended (b : list Z) (dst : nat) (st : list (list Z)) : Prop :=
  (dst < length b)%nat /\ length (take dst b) = dst /\ (take dst b = dirpath st \/ st <> [] /\ take dst b = render st).

Lemma norm_last fuel b src src' dst out n st : look b src = Some (Name src') -> buffer b src' dst out n -> no_slash n ->
  (out ++ n = dirpath st \/ st <> [] /\ out ++ n = render st) ->
  exists b' dst', norm_loop (S fuel) b src dst = Some (Some (b', dst')) /\ ended b' dst' st.
Proof.
  intros Hlook H Hn Hst. simpl. rewrite Hlook. simpl. pose proof (buffer_length _ _ _ _ _ H) as Hl. rewrite <- (app_nil_r n) in H.
  destruct (copy_name_ok (length b) b src' dst out n [] H) as (b' & -> & Hlen & [H1 H2 H3 _]); [done|by left|lia|].
  simpl. exists b', (dst + length n)%nat. split; [done|]. split_and!; [lia|by rewrite H2|by rewrite H2].
Qed.

Lemma resolve_up n st names : resolve (n :: st) ([46; 46] :: names) = resolve st names.
Proof. cbn [resolve]. rewrite decide_False by (by intros [|]). by rewrite decide_True. Qed.

Lemma resolve_dot st names : resolve st ([46] :: names) = resolve st names.
Proof. cbn [resolve]. by rewrite decide_True by auto. Qed.

Lemma resolve_name n st names : n <> [] -> n <> [46] -> n <> [46; 46] -> resolve st (n :: names) = resolve (n :: st) names.
Proof. intros. cbn [resolve]. rewrite !decide_False by naive_solver. done. Qed.

Lemma resolve_ok st names st' : Forall name_ok st -> Forall no_slash names -> resolve st names = Some st' -> Forall name_ok st'.
Proof.
  intros Hst Hn. revert st Hst. induction Hn as [|n names Hn Hns IH]; intros st Hst; cbn [resolve]; [by intros [= <-]|].
  case_decide as E1; [by apply IH|]. case_decide as E2.
  - destruct st; [done|]. inv Hst. by apply IH.
  - apply IH. constructor; [|done]. split_and!; [naive_solver..|exact Hn].
Qed.

(** Back over the name and slash written last. *)
Lemma up_one b src dst m st rest : buffer b src dst (dirpath (m :: st)) rest -> name_ok m ->
  exists d, dst = S d /\ back_up b d = Some (length (dirpath st)) /\ buffer b src (length (dirpath st)) (dirpath st) rest.
Proof.
  intros [B1 B2 B3 B4] (_ & _ & _ & Hm). rewrite dirpath_push, app_assoc in B2, B3. rewrite length_app, Nat.add_1_r in B3. subst dst.
  eexists. split; [done|]. apply (f_equal (take (length (dirpath st ++ m)))) in B2.
  rewrite take_take, Nat.min_l, take_app_length in B2 by lia. rewrite length_app in *. split.
  - assert (exists x, dirpath st = x ++ [47]) as [x Hx].
    { destruct st as [|k st]; [by exists []|]. rewrite dirpath_render. by eexists. }
    rewrite Hx in *. rewrite <- app_assoc in B2. rewrite (back_up_ok b _ x m); [|exact B2|rewrite !length_app; simpl; lia|done].
    by rewrite length_app, Nat.add_1_r.
  - split; [lia| |done|done]. apply (f_equal (take (length (dirpath st)))) in B2.
    by rewrite take_take, Nat.min_l, take_app_length in B2 by lia.
Qed.

Lemma norm_loop_ok fuel b src dst st rest st' : buffer b src dst (dirpath st) rest -> strip rest = rest -> no_zero rest -> Forall name_ok st ->
  (length rest < fuel)%nat -> resolve st (split_path [] rest) = Some st' ->
  exists b' dst', norm_loop fuel b src dst = Some (Some (b', dst')) /\ ended b' dst' st'.
Proof.
  revert b src dst st rest. induction fuel as [|fuel IH]; intros b src dst st rest Hb Hs Hz Hst Hf; [lia|].
  destruct (split_name rest Hz) as (n & r & -> & Hn & Hr).
  assert (Hr' : no_zero (tail r)) by (apply Forall_app in Hz as [_ [|]]; [constructor|done]).
  rewrite length_app in Hf.
  destruct (look_ok _ _ _ _ _ _ Hb Hz Hn Hr) as [(-> & -> & Hl)|[(r' & src' & -> & -> & Hl & Hb')|[(src' & -> & Hl & Hb')|(N1 & N2 & Hl)]]].
  - rewrite app_nil_r, split_path_last, resolve_dot by done. intros [= <-]. apply (norm_last fuel b src (S src) dst (dirpath st) []); [done|by eapply buffer_next|constructor|].
    left. by rewrite app_nil_r.
  - rewrite split_path_name, resolve_dot, <- resolve_strip by done. intros E. simpl. rewrite Hl. simpl.
    apply (IH _ _ _ st (strip r')); [done|apply strip_strip|by apply no_zero_strip|done| |done].
    pose proof (strip_length r'). simpl in Hf. lia.
  - assert (Hsp : resolve st (split_path [] ([46; 46] ++ r)) = resolve st ([46; 46] :: split_path [] (strip (tail r)))).
    { destruct Hr as [->|[r' ->]]; [by rewrite app_nil_r, (split_path_last [] [46; 46])|]. rewrite split_path_name by done.
      destruct st as [|m st]; [done|]. by rewrite !resolve_up, resolve_strip. }
    rewrite Hsp. destruct st as [|m st]; [done|]. rewrite resolve_up. intros E. simpl. rewrite Hl. simpl.
    inversion_clear Hst as [|? ? Hm Hst']. destruct (up_one _ _ _ _ _ _ Hb' Hm) as (d & -> & -> & Hb2). simpl.
    apply (IH _ _ _ st (strip (tail r))); [done|apply strip_strip|by apply no_zero_strip|done| |done].
    pose proof (strip_length (tail r)). assert (length (tail r) <= length r)%nat by (destruct r; simpl; lia). simpl in Hf. lia.
  - destruct (decide (n = [])) as [->|N0].
    { destruct Hr as [->|[r' ->]]; [|simpl in Hs; pose proof (strip_length r') as L; rewrite Hs in L; simpl in L; lia].
      rewrite app_nil_r, split_path_last, resolve_empty by done. intros [= <-]. apply (norm_last fuel b src src dst (dirpath st) []); [done|done|constructor|]. left. by rewrite app_nil_r. }
    destruct Hr as [->|[r' ->]].
    + rewrite app_nil_r in *. rewrite split_path_last, resolve_name by done. intros [= <-].
      apply (norm_last fuel b src src dst (dirpath st) n); [done|done|done|]. right. split; [done|].
      apply (app_inv_tail [47]). by rewrite <- dirpath_render, dirpath_push, app_assoc.
    + rewrite split_path_name, resolve_name, <- resolve_strip by done. intros E.
      destruct (norm_name fuel b src dst (dirpath st) n r' Hb Hn Hr' Hl) as (b' & src' & -> & Hb'). rewrite <- dirpath_push in Hb'.
      apply (IH _ _ _ (n :: st) (strip r')); [done|apply strip_strip|by apply no_zero_strip|by constructor| |done].
      pose proof (strip_length r'). simpl in Hf. lia.
Qed.

(** ** The end *)

#[local] Arguments render : simpl never.

Lemma string_of_ok b s : take (length s) b = s -> b !! length s = Some 0 -> no_zero s -> string_of b = Some s.
Proof.
  intros Ht H0 Hs. revert b Ht H0. induction Hs as [|c s Hc Hs IH]; intros [|x b] Ht H0; [done| |done|]; simpl in *.
  - injection H0 as ->. done.
  - injection Ht as -> Ht. rewrite (proj2 (Z.eqb_neq c 0)) by done. by rewrite IH.
Qed.

Lemma render_last n st : exists x, render (n :: st) = x ++ 47 :: n.
Proof.
  pose proof (dirpath_render n st) as H. rewrite dirpath_push in H. rewrite app_assoc in H. apply app_inj_tail in H as [<- _].
  destruct st as [|k st]; [by exists []|]. rewrite dirpath_render, <- app_assoc. by eexists.
Qed.

Lemma render_head st : exists r, render st = 47 :: r.
Proof.
  destruct st as [|n st]; [by eexists|]. unfold render. destruct (reverse (n :: st)) as [|m l] eqn:E; [|by eexists].
  apply (f_equal length) in E. by rewrite length_reverse in E.
Qed.

Lemma render_no_zero st : Forall name_ok st -> no_zero (render st).
Proof.
  intros H. destruct st as [|n st]; [by repeat constructor|]. unfold render, no_zero. apply Forall_concat, Forall_map.
  apply Forall_reverse. eapply Forall_impl; [exact H|]. intros m (_ & _ & _ & Hm). constructor; [done|].
  eapply Forall_impl; [exact Hm|]. by intros c [? _].
Qed.

Lemma norm_end_string b d s : (S d < length b)%nat -> take (length s) b = s -> b !! length s = Some 0 -> no_zero s -> (exists r, s = 47 :: r) ->
  (c ← b !! O; string_of (if c =? 0 then <[1%nat := 0]> (<[O := 47]> b) else b)) = Some s.
Proof.
  intros Hd Ht H0 Hs [r ->]. destruct b as [|x b]; [simpl in Hd; lia|]. assert (x = 47) as -> by by injection Ht.
  cbn -[string_of]. by apply string_of_ok.
Qed.

Lemma norm_end_ok b dst st : ended b dst st -> Forall name_ok st -> norm_end b dst = Some (render st).
Proof.
  intros (Hd & Hlen & Hout) Hst. unfold norm_end. destruct dst as [|d].
  { destruct Hout as [H|[_ H]]; [by rewrite take_0 in H|]. destruct (render_head st) as [r E]. by rewrite E, take_0 in H. }
  assert (Hb : take (S d) (<[S d := 0]> b) = take (S d) b) by (apply take_insert_ge; lia).
  assert (H0 : <[S d := 0]> b !! S d = Some 0) by (apply list_lookup_insert_eq; lia).
  assert (Hr : forall c, last (take (S d) b) = Some c -> <[S d := 0]> b !! d = Some c).
  { intros c. rewrite last_lookup, Hlen. simpl. rewrite list_lookup_insert_ne by lia. by rewrite lookup_take_lt by lia. }
  pose proof (render_no_zero st Hst) as Hz. pose proof (render_head st) as Hh.
  destruct Hout as [Ho|[Hne Ho]]; rewrite Ho in Hb, Hr; rewrite Ho in Hlen.
  - destruct st as [|n st].
    + injection Hlen as <-. rewrite (Hr 47) by done. simpl. by apply (norm_end_string _ 0 [47]); [rewrite length_insert; lia|..].
    + rewrite dirpath_render in *. rewrite (Hr 47) by by rewrite last_snoc. rewrite length_app, Nat.add_1_r in Hlen. apply eq_add_S in Hlen as Hd'.
      assert (d <> O) by (destruct Hh as [r E]; rewrite E in Hd'; simpl in Hd'; lia). rewrite (proj2 (Nat.eqb_neq d 0)) by done. simpl.
      apply (norm_end_string _ d); [rewrite !length_insert; lia| |by rewrite Hd'; apply list_lookup_insert_eq; rewrite length_insert; lia|done|done].
      rewrite Hd', take_insert_ge by lia. apply (f_equal (take d)) in Hb. rewrite take_take, Nat.min_l, take_app_length' in Hb by lia. done.
  - destruct st as [|n st]; [done|]. destruct (render_last n st) as [x Hx]. inversion_clear Hst as [|? ? (Hn & _ & _ & Hns) _].
    destruct (exists_last Hn) as (n' & c & ->). rewrite (Hr c) by (rewrite Hx; change (47 :: n' ++ [c]) with ((47 :: n') ++ [c]); by rewrite app_assoc, last_snoc).
    apply Forall_app in Hns as [_ [[_ Hc] _]%Forall_cons]. simpl. rewrite (proj2 (Z.eqb_neq c 47)) by done. rewrite andb_false_r.
    apply (norm_end_string _ d); [rewrite length_insert; lia|by rewrite Hlen|by rewrite Hlen|done|done].
Qed.

(** ** The theorem *)

Definition given_path (directory filename : list Z) : list Z :=
  if default 0 (head filename) =? 47 then filename else directory ++ 47 :: filename.

Lemma split_no_slash p : no_zero p -> forall cur, no_slash cur -> Forall no_slash (split_path cur p).
Proof.
  induction 1 as [|c p Hc Hp IH]; intros cur Hcur; simpl; [by repeat constructor|].
  destruct (Z.eqb_spec c 47); [constructor; [done|apply IH; constructor]|].
  apply IH. apply Forall_app. split; [done|]. by repeat constructor.
Qed.

Lemma dfs_normalize_path_ok directory filename p st : given_path directory filename = 47 :: p -> no_zero p ->
  resolve [] (split_path [] p) = Some st ->
  dfs_normalize_path true directory filename = Some (Some (render st)) /\ Forall name_ok st.
Proof.
  intros Hg Hz Hres. assert (Hst : Forall name_ok st) by (eapply resolve_ok; [constructor|apply split_no_slash; [exact Hz|constructor]|exact Hres]).
  split; [|done]. unfold dfs_normalize_path. change (negb true) with false. cbv match.
  assert ((if negb (default 0 (head filename) =? 47) then directory ++ [47] ++ filename else filename) = 47 :: p) as ->.
  { rewrite <- Hg. unfold given_path. by destruct (_ =? _). }
  assert (buffer ((47 :: p) ++ [0]) 0 0 [] ([] ++ 47 :: p)) as H by (split; [done..|by exists []]).
  destruct (norm_name (length (p ++ [0])) _ _ _ _ _ _ H) as (b & src & E & Hb); [constructor|done|done|].
  rewrite <- app_comm_cons. cbn [length]. rewrite <- app_comm_cons in E. rewrite E.
  change (S (0 + length [])) with 1%nat in *.
  destruct (norm_loop_ok (length (p ++ [0])) b src 1 [] (strip p) st Hb) as (b' & dst' & -> & He);
    [apply strip_strip|by apply no_zero_strip|constructor| |by rewrite resolve_strip|].
  { rewrite length_app. simpl. pose proof (strip_length p). lia. }
  simpl. by rewrite (norm_end_ok _ _ _ He Hst).
Qed.

Lemma split_path_join l : Forall name_ok l -> l <> [] -> split_path [] (tail (concat (map (cons 47) l))) = l.
Proof.
  induction 1 as [|n l (_ & _ & _ & Hn) Hl IH]; [done|]. intros _. simpl. destruct l as [|m l]; simpl.
  - by rewrite app_nil_r, split_path_last.
  - rewrite split_path_name by done. f_equal. by apply IH.
Qed.

Lemma resolve_names st l : Forall name_ok l -> resolve st l = Some (reverse l ++ st).
Proof.
  intros Hl. revert st. induction Hl as [|n l (? & ? & ? & _) Hl IH]; intros st; [done|].
  rewrite resolve_name, IH by done. by rewrite reverse_cons, <- app_assoc.
Qed.

Lemma resolve_render st : Forall name_ok st -> resolve [] (split_path [] (tail (render st))) = Some st.
Proof.
  intros H. destruct st as [|n st]; [done|]. unfold render. rewrite split_path_join.
  - rewrite resolve_names by by apply Forall_reverse. by rewrite reverse_involutive, app_nil_r.
  - by apply Forall_reverse.
  - intros E. apply (f_equal length) in E. by rewrite length_reverse in E.
Qed.

(** A normalised path stays as it is. *)
Lemma dfs_normalize_path_id directory st : Forall name_ok st -> dfs_normalize_path true directory (render st) = Some (Some (render st)).
Proof.
  intros H. pose proof (resolve_render st H) as Hr. pose proof (render_no_zero st H) as Hz. destruct (render_head st) as [p E].
  rewrite E in Hr, Hz. rewrite E at 1. inv Hz. by apply (dfs_normalize_path_ok directory (47 :: p) p).
Qed.

(** C21: dfs_normalize_path makes normal paths. For every path without a zero
    byte, taken from an absolute working directory and not leading above the
    root, it stays inside its buffer and gives the slash before each name that is
    left when the names are resolved in order: no empty name, no dots, no slash
    at the end; and a path of this form is given back unchanged. *)
Theorem dfs_normalize_path_correct directory filename p st :
  given_path directory filename = 47 :: p -> no_zero p -> resolve [] (split_path [] p) = Some st ->
  dfs_normalize_path true directory filename = Some (Some (render st)) /\ Forall name_ok st /\
  dfs_normalize_path true directory (render st) = Some (Some (render st)).
Proof.
  intros Hg Hz Hr. destruct (dfs_normalize_path_ok directory filename p st Hg Hz Hr) as [H Hst].
  split_and!; [done..|by apply dfs_normalize_path_id].
Qed.

(** "a//../b/." below "/" is "/b". *)
Theorem dfs_normalize_path_correct_witness :
  dfs_normalize_path true [47] [97; 47; 47; 46; 46; 47; 98; 47; 46] = Some (Some [47; 98]).
Proof.
  apply (dfs_normalize_path_correct [47] [97; 47; 47; 46; 46; 47; 98; 47; 46] [47; 97; 47; 47; 46; 46; 47; 98; 47; 46] [[98]]);
    [reflexivity|repeat constructor; discriminate|reflexivity].
Defined.

(** Above the root: "/.." reads the byte in front of the buffer, "/../x" is "x"
    without a slash, only "/../../x" is refused. *)
Example above_root :
  dfs_normalize_path true [47] [47; 46; 46] = None /\
  dfs_normalize_path true [47] [47; 46; 46; 47; 120] = Some (Some [120]) /\
  dfs_normalize_path true [47] [47; 46; 46; 47; 46; 46; 47; 120] = Some None.
Proof. vm_compute. done. Qed.
