(* ===== verification/RomfsSpec.v ===== *)
(** * Files in mapped memory: theorems

    Looking a path up walks down the tree of directories; a ROM file system keeps
    the contract of file FileSystem for reading. *)

From S2P Require Import Prelude Object Vfs FileSystem DfsPath Romfs.

(** ** The tree *)

Definition entries (d : romfs_dirent) : list romfs_dirent := match rom_data d with Entries l => l | _ => [] end.

(** The first entry of a name in a directory, and down a path. *)
Definition child (d : romfs_dirent) (n : list Z) : option romfs_dirent :=
  if rom_type d =? ROMFS_DIRENT_DIR then snd <$> list_find (fun e => rom_name e = n) (entries d) else None.
Definition descend (d : romfs_dirent) (ns : list (list Z)) : option romfs_dirent := foldl (fun d n => d ← d; child d n) (Some d) ns.

(** Entries have a kind and a size that fit what they point to, and a name. *)
Definition name_okb (n : list Z) : bool := bool_decide (n <> []) && bool_decide (n <> [46]) && bool_decide (n <> [46; 46]) &&
  forallb (fun c => (0 <? c) && negb (c =? 47)) n.
Fixpoint rom_ok (d : romfs_dirent) : bool :=
  let '(mk_rom t _ p n) := d in
  match p with
  | Bytes _ => (t =? ROMFS_DIRENT_FILE) && (0 <=? n) && (n <? 2 ^ 31)
  | Entries l => (t =? ROMFS_DIRENT_DIR) && (n =? Z.of_nat (length l)) && (n <? 2 ^ 31) && forallb (fun e => name_okb (rom_name e) && rom_ok e) l
  | Null => false
  end.

Lemma name_okb_ok n : name_okb n = true -> name_ok n /\ Forall (fun c => 0 < c) n.
Proof.
  unfold name_okb. rewrite !andb_true_iff, !bool_decide_eq_true, forallb_forall. intros [[[? ?] ?] Hall].
  assert (Forall (fun c => 0 < c /\ c <> 47) n) as Hf.
  { apply Forall_forall. intros c Hc. apply list_elem_of_In, Hall in Hc. zify_bool. lia. }
  split; [split_and!; [done..|]|]; (eapply Forall_impl; [exact Hf|]; simpl; lia).
Qed.

Lemma rom_ok_file d a : rom_ok d = true -> rom_data d = Bytes a -> rom_type d = ROMFS_DIRENT_FILE /\ 0 <= rom_size d < 2 ^ 31.
Proof. destruct d as [t n p sz]. simpl. intros H ->. zify_bool. lia. Qed.

Lemma rom_ok_dir d l : rom_ok d = true -> rom_data d = Entries l ->
  rom_type d = ROMFS_DIRENT_DIR /\ rom_size d = Z.of_nat (length l) /\ rom_size d < 2 ^ 31 /\
  forall e, e ∈ l -> rom_ok e = true /\ name_ok (rom_name e) /\ Forall (fun c => 0 < c) (rom_name e).
Proof.
  destruct d as [t n p sz]. simpl. intros H ->. zify_bool. split_and!; [lia..|]. intros e He.
  rewrite forallb_forall in *. match goal with Ha : forall x, In x l -> _ |- _ => apply list_elem_of_In, Ha in He as [Hn He]%andb_true_iff end.
  split; [done|]. by apply name_okb_ok.
Qed.

Lemma rom_ok_cases d : rom_ok d = true -> (exists a, rom_data d = Bytes a) \/ exists l, rom_data d = Entries l.
Proof. destruct d as [t n [|a|l] sz]; [by destruct t|left; by eexists|right; by eexists]. Qed.

Lemma rom_ok_check d : rom_ok d = true -> check_dirent d = 0.
Proof.
  intros H. unfold check_dirent. destruct (rom_ok_cases d H) as [[a E]|[l E]].
  - destruct (rom_ok_file d a H E) as [-> ?]. simpl. by rewrite (proj2 (Z.eqb_neq _ _)) by lia.
  - destruct (rom_ok_dir d l H E) as (-> & ? & ? & _). simpl. by rewrite (proj2 (Z.eqb_neq _ _)) by lia.
Qed.

Lemma child_ok d n e : rom_ok d = true -> child d n = Some e -> rom_ok e = true /\ rom_name e = n /\ name_ok n.
Proof.
  intros H. unfold child, entries. destruct (rom_type d =? ROMFS_DIRENT_DIR); [|done].
  destruct (list_find _ _) as [[i x]|] eqn:E; [|done]. simpl. intros [= ->]. apply list_find_Some in E as (Hi & <- & _).
  destruct (rom_ok_cases d H) as [[a Ea]|[l El]]; [by rewrite Ea in Hi|]. rewrite El in Hi.
  destruct (rom_ok_dir d l H El) as (_ & _ & _ & Hl). apply list_elem_of_lookup_2, Hl in Hi as (? & ? & _). done.
Qed.

Lemma descend_cons d n ns : descend d (n :: ns) = e ← child d n; descend e ns.
Proof.
  unfold descend. simpl. destruct (child d n) as [e|]; [done|]. simpl. induction ns as [|m ns IH]; [done|]. exact IH.
Qed.

Lemma descend_ok d ns e : rom_ok d = true -> descend d ns = Some e -> rom_ok e = true /\ Forall name_ok ns.
Proof.
  revert d. induction ns as [|n ns IH]; intros d H; [by intros [= <-]|]. rewrite descend_cons.
  destruct (child d n) as [d'|] eqn:E; [|done]. simpl. intros Hd. destruct (child_ok d n d' H E) as (H' & _ & Hn).
  destruct (IH d' H' Hd). split; [done|by constructor].
Qed.

(** ** The lookup *)

Definition join (ns : list (list Z)) : list Z := concat (map (cons 47) ns).

Lemma to_slash_app n r : Forall (fun c => c <> 0 /\ c <> 47) n -> (r = [] \/ head r = Some 47) -> to_slash (n ++ r) = (n, r).
Proof.
  intros Hn Hr. induction Hn as [|c n [_ Hc] Hn IH]; simpl.
  - destruct Hr as [->|Hr]; [done|]. destruct r as [|c r]; [done|]. injection Hr as ->. done.
  - rewrite (proj2 (Z.eqb_neq c 47)) by done. by rewrite IH.
Qed.

Lemma join_head ns : join ns = [] \/ head (join ns) = Some 47.
Proof. destruct ns; [by left|by right]. Qed.

Lemma next_name_join n ns : name_ok n -> next_name (join (n :: ns)) = (n, join ns).
Proof.
  intros (Hne & _ & _ & Hn). unfold next_name, join. simpl. fold (join ns).
  assert (skip_slash_run (n ++ join ns) = n ++ join ns) as ->.
  { destruct n as [|c n]; [done|]. simpl. apply Forall_cons in Hn as [[_ Hc] _]. by rewrite (proj2 (Z.eqb_neq c 47)) by done. }
  apply to_slash_app; [done|apply join_head].
Qed.

Lemma strncmp_names a b r : length a = length b -> Forall (fun c => 0 < c) a -> Forall (fun c => c <> 0 /\ c <> 47) b ->
  rt_strncmp_eq (a ++ [0]) (b ++ r) (length b) = bool_decide (a = b).
Proof.
  intros El Ha. revert b El. induction Ha as [|x a Hx Ha IH]; intros [|y b] El Hb; try done.
  simpl. injection El as El. apply Forall_cons in Hb as [_ Hb]. destruct (Z.eqb_spec x y) as [->|Hne]; simpl.
  - rewrite (proj2 (Z.eqb_neq y 0)) by lia. rewrite IH by done. apply bool_decide_ext. naive_solver.
  - symmetry. apply bool_decide_eq_false_2. naive_solver.
Qed.

Lemma find_dirent_ok l n r k : (forall e, e ∈ l -> rom_ok e = true /\ name_ok (rom_name e) /\ Forall (fun c => 0 < c) (rom_name e)) ->
  name_ok n -> k = Z.of_nat (length l) -> find_dirent l k n r = Some (snd <$> list_find (fun e => rom_name e = n) l).
Proof.
  intros Hl Hn. revert k. induction l as [|d l IH]; intros k ->; [done|]. cbn [find_dirent length].
  rewrite (proj2 (Z.leb_gt _ _)) by lia. destruct (Hl d) as (Hd & _ & Hp); [by left|]. rewrite (rom_ok_check d Hd). cbn [Z.eqb negb].
  assert ((Z.of_nat (length (rom_name d)) =? Z.of_nat (length n)) && rt_strncmp_eq (rom_name d ++ [0]) (n ++ r ++ [0]) (length n) =
    bool_decide (rom_name d = n)) as ->.
  { destruct (Z.eqb_spec (Z.of_nat (length (rom_name d))) (Z.of_nat (length n))) as [E|E]; simpl.
    - apply strncmp_names; [lia|done|apply Hn].
    - symmetry. apply bool_decide_eq_false_2. intros E'. apply E. by rewrite E'. }
  cbn [list_find]. case_bool_decide as E; destruct (decide (rom_name d = n)); try done.
  replace (Z.of_nat (S (length l)) - 1) with (Z.of_nat (length l)) by lia. rewrite IH by (done || intros; apply Hl; by right).
  by destruct (list_find _ l) as [[i x]|].
Qed.

Lemma lookup_in_ok fuel d n ns : rom_ok d = true -> rom_type d = ROMFS_DIRENT_DIR -> Forall name_ok (n :: ns) -> (length ns < fuel)%nat ->
  lookup_in fuel (rom_data d) (rom_size d) n (join ns) = Some ((fun e => (e, rom_size e)) <$> descend d (n :: ns)).
Proof.
  revert d n ns. induction fuel as [|fuel IH]; intros d n ns Hd Ht Hns Hf; [lia|]. cbn [lookup_in].
  destruct (rom_ok_cases d Hd) as [[a Ea]|[l El]]; [by destruct (rom_ok_file d a Hd Ea) as [Ht' _]; rewrite Ht in Ht'|].
  destruct (rom_ok_dir d l Hd El) as (_ & Hs & _ & Hl). apply Forall_cons in Hns as [Hn Hns]. rewrite El, Hs, (find_dirent_ok l n) by done.
  rewrite descend_cons. unfold child at 1, entries. rewrite Ht, El. cbn [Z.eqb mbind option_bind ROMFS_DIRENT_DIR].
  change (1 =? 1) with true. cbv match. destruct (list_find _ l) as [[i e]|] eqn:Ef; simpl; [|done].
  apply list_find_Some in Ef as (Hi & En & _). destruct (Hl e) as (He & _); [by eapply list_elem_of_lookup_2|].
  destruct ns as [|m ns]; [done|]. rewrite (next_name_join m ns) by by apply Forall_cons in Hns as [? _].
  assert (m <> []) as Hm by by apply Forall_cons in Hns as [[? _] _]. destruct m as [|c m]; [done|].
  destruct (Z.eqb_spec (rom_type e) ROMFS_DIRENT_DIR) as [Et|Et].
  - apply IH; [done|done|done|simpl in *; lia].
  - rewrite descend_cons. unfold child. by rewrite (proj2 (Z.eqb_neq _ _)).
Qed.

Lemma join_length ns : (length ns <= length (join ns))%nat.
Proof. unfold join. induction ns as [|n ns IH]; simpl; [lia|]. rewrite length_app. lia. Qed.

Lemma dfs_romfs_lookup_ok root ns : rom_ok root = true -> rom_type root = ROMFS_DIRENT_DIR -> Forall name_ok ns -> ns <> [] ->
  dfs_romfs_lookup root (join ns) = Some ((fun e => (e, rom_size e)) <$> descend root ns).
Proof.
  intros Hr Ht Hns Hne. unfold dfs_romfs_lookup. rewrite (rom_ok_check root Hr). cbn [Z.eqb negb].
  destruct ns as [|n ns]; [done|]. assert (Hn := Hns). apply Forall_cons in Hn as [Hn _].
  rewrite bool_decide_eq_false_2.
  2:{ unfold join. simpl. intros E. injection E as E. apply app_eq_nil in E as [-> _]. by destruct Hn. }
  rewrite (next_name_join n ns Hn). apply lookup_in_ok; [done..|]. pose proof (join_length (n :: ns)). simpl in *. lia.
Qed.

(** ** As a file system *)

Lemma join_split cur p : join (split_path cur p) = 47 :: cur ++ p.
Proof.
  revert cur. induction p as [|c p IH]; intros cur; simpl; [done|]. destruct (Z.eqb_spec c 47) as [->|]; simpl.
  - unfold join in *. simpl. by rewrite IH.
  - rewrite IH. simpl. by rewrite <- app_assoc.
Qed.

Lemma split_join ns : Forall name_ok ns -> ns <> [] -> split_path [] (tail (join ns)) = ns.
Proof. apply split_path_join. Qed.

Lemma split_not_nil cur p : split_path cur p <> [].
Proof. revert cur. induction p as [|c p IH]; intros cur; [done|]. simpl. by destruct (c =? 47). Qed.

(** Names as a path has them once it is normalised, and the bytes of a file. *)
Definition rom_proper (nm : list Z) : Prop := Forall name_ok (split_path [] nm).
Definition rom_bytes (w : rom_memory) (d : romfs_dirent) : option (list Z) :=
  match rom_data d with Bytes a => Some (w <$> seqZ a (rom_size d)) | _ => None end.
Definition rom_content (root : romfs_dirent) (w : rom_memory) (nm : list Z) : option (list Z) :=
  d ← descend root (split_path [] nm); rom_bytes w d.

Definition rom_opens (F : file_map) (nm : list Z) (fl res : Z) (F' : file_map) : Prop := F' = F /\
  res = if has fl (Z.lor O_CREAT (Z.lor O_WRONLY (Z.lor O_APPEND (Z.lor O_TRUNC O_RDWR)))) then - EINVAL
        else match F !! nm with Some _ => 0 | None => - ENOENT end.

Definition rom_on (root : romfs_dirent) (w : rom_memory) (f : dfs_file romfs_dirent) (nm : list Z) : Prop := exists d a,
  data f = Some d /\ rom_proper nm /\ descend root (split_path [] nm) = Some d /\ rom_data d = Bytes a /\
  size f = rom_size d /\ 0 <= pos f <= size f.

Definition romfs_sys (root : romfs_dirent) : file_system rom_memory romfs_dirent :=
  mk_sys (_romfs root) rom_proper rom_opens false (fun w F => forall nm, F !! nm = rom_content root w nm) (rom_on root) eq.

Lemma rom_proper_head nm : rom_proper nm -> nm <> [] /\ head nm <> Some 47.
Proof.
  unfold rom_proper. destruct nm as [|c nm]; simpl.
  - intros [[? _] _]%Forall_cons. done.
  - destruct (Z.eqb_spec c 47) as [->|]; [by intros [[? _] _]%Forall_cons|]. intros _. split; [done|]. by intros [= ->].
Qed.

Lemma take_drop_seqZ (w : rom_memory) a n p len : 0 <= p <= n -> 0 <= len ->
  w <$> seqZ (a + p) (Z.min len (n - p)) = take (Z.to_nat len) (drop (Z.to_nat p) (w <$> seqZ a n)).
Proof.
  intros Hp Hl. apply list_eq. intros i. rewrite list_lookup_fmap. destruct (decide (i < Z.to_nat len)%nat).
  - rewrite lookup_take_lt, lookup_drop, list_lookup_fmap by done. destruct (decide (Z.of_nat i < n - p)).
    + rewrite !lookup_seqZ_lt by lia. simpl. do 2 f_equal. lia.
    + rewrite !lookup_seqZ_ge by lia. done.
  - rewrite lookup_seqZ_ge by lia. symmetry. apply lookup_take_ge. lia.
Qed.

Section laws.
Implicit Types (w : rom_memory) (F : file_map) (f : dfs_file romfs_dirent) (nm : list Z).
Variable root : romfs_dirent.
Hypotheses (Hroot : rom_ok root = true) (Hdir : rom_type root = ROMFS_DIRENT_DIR).

Lemma rom_lookup nm : rom_proper nm -> dfs_romfs_lookup root (47 :: nm) = Some ((fun e => (e, rom_size e)) <$> descend root (split_path [] nm)).
Proof using Hroot Hdir.
  intros Hn. replace (47 :: nm) with (join (split_path [] nm)) by by rewrite join_split.
  apply dfs_romfs_lookup_ok; [done..|apply split_not_nil].
Qed.

Lemma rom_file_size w F f nm : (forall nm, F !! nm = rom_content root w nm) -> rom_on root w f nm ->
  exists b, F !! nm = Some b /\ size f = Z.of_nat (length b) /\ 0 <= pos f <= size f.
Proof using Hroot.
  intros HF (d & a & _ & _ & Hd & Ha & Hs & Hp). destruct (descend_ok _ _ _ Hroot Hd) as [Hok _]. destruct (rom_ok_file d a Hok Ha) as [_ ?].
  exists (w <$> seqZ a (rom_size d)). rewrite HF. unfold rom_content, rom_bytes. rewrite Hd. simpl. rewrite Ha.
  split_and!; [done|rewrite length_fmap, length_seqZ; lia|lia|lia].
Qed.

Lemma rom_open_ok w (F : file_map) f nm : (forall nm, F !! nm = rom_content root w nm) -> path f = 47 :: nm -> rom_proper nm -> has (flags f) O_DIRECTORY = false ->
  exists res f', dfs_romfs_open root w f = Some (res, w, f') /\ rom_opens F nm (flags f) res F /\ (res = 0 -> rom_on root w f' nm /\ pos f' = 0).
Proof using Hroot Hdir.
  intros HF Hp Hn Hd. unfold dfs_romfs_open, rom_opens. rewrite (rom_ok_check root Hroot). simpl negb. cbv match.
  destruct (has (flags f) (Z.lor O_CREAT _)); [exists (- EINVAL), f; by split_and!|]. rewrite Hp, (rom_lookup nm Hn), HF. unfold rom_content, rom_bytes. cbn [mbind option_bind].
  destruct (descend root (split_path [] nm)) as [d|] eqn:Ed; simpl; [|exists (- ENOENT), f; by split_and!]. destruct (descend_ok _ _ _ Hroot Ed) as [Hok _].
  rewrite Hd. destruct (rom_ok_cases d Hok) as [[a Ea]|[l El]].
  - destruct (rom_ok_file d a Hok Ea) as [-> Hsz]. rewrite Ea. change (ROMFS_DIRENT_FILE =? ROMFS_DIRENT_DIR) with false. cbv match.
    eexists _, _. split_and!; [done..|]. intros _. split; [|done]. exists d, a. simpl. split_and!; (done || lia).
  - destruct (rom_ok_dir d l Hok El) as [-> _]. rewrite El. exists (- ENOENT), f. by split_and!.
Qed.

Lemma rom_read_ok w f nm count : rom_on root w f nm -> 0 <= count -> exists b f', rom_content root w nm = Some b /\
  let bs := take (Z.to_nat count) (drop (Z.to_nat (pos f)) b) in
  dfs_romfs_read w f count = Some (Z.of_nat (length bs), Some <$> bs, f') /\ rom_on root w f' nm /\ pos f' = pos f + Z.of_nat (length bs).
Proof using Hroot.
  intros (d & a & Hf & Hn & Hd & Ha & Hs & Hp) Hc. destruct (descend_ok _ _ _ Hroot Hd) as [Hok _]. destruct (rom_ok_file d a Hok Ha) as [_ Hsz].
  exists (w <$> seqZ a (rom_size d)). set (n := Z.min count (size f - pos f)).
  exists (mk_file (path f) (flags f) (size f) (pos f + n) (data f)). split; [unfold rom_content, rom_bytes; by rewrite Hd; simpl; rewrite Ha|].
  cbv zeta. rewrite <- (take_drop_seqZ w a (rom_size d) (pos f) count) by lia. rewrite <- Hs. fold n.
  assert (Hl : Z.of_nat (length (w <$> seqZ (a + pos f) n)) = n) by (rewrite length_fmap, length_seqZ; lia). rewrite Hl.
  split_and!; [|exists d, a; simpl; split_and!; (done || lia)|done].
  unfold dfs_romfs_read. rewrite Hf. cbn [mbind option_bind]. rewrite (rom_ok_check d Hok). cbn [Z.eqb negb]. rewrite wrap_small by lia.
  assert ((if count <? size f - pos f then count else size f - pos f) = n) as -> by (unfold n; destruct (Z.ltb_spec count (size f - pos f)); lia).
  rewrite Ha, <- list_fmap_compose. destruct (Z.ltb_spec 0 n); [done|]. assert (n = 0) as -> by lia. done.
Qed.

#[export] Instance romfs_laws : FileSystem (romfs_sys root).
Proof using Hroot Hdir.
  split; simpl.
  - split; [done|]. by intros ? ? ? -> ->.
  - done.
  - apply rom_proper_head.
  - by intros w f nm (d & a & _ & Hn & _).
  - apply rom_file_size.
  - intros w f f' nm (d & a & Hf & Hn & Hd & Ha & Hs & Hp) Es Ed Hp'. exists d, a. rewrite Ed, Es. split_and!; (done || lia).
  - intros F nm res F' [-> ->]. split; [done|]. simpl. by destruct (F !! nm).
  - eexists. split; [done|]. intros w F f nm HF Hp _ Hn Hd. destruct (rom_open_ok w F f nm HF Hp Hn Hd) as (res & f' & E & Ho & H).
    exists res, w, f', F. split_and!; [done| |done|done|done|by split|].
    + destruct Ho as [_ ->]. clear. unfold EINVAL, ENOENT. repeat case_match; lia.
    + intros Hr. destruct (H Hr) as [? ->]. done.
  - eexists. split; [done|]. intros w f nm _. by eexists.
  - eexists. split; [done|]. intros w F f nm len HF Hon Hl. destruct (rom_read_ok w f nm len Hon Hl) as (b & f' & Hb & H). exists b, f'. by rewrite HF.
  - eexists. split; [done|]. intros w f nm off (d & a & Hf & Hn & Hd & Ha & Hs & Hp) Hoff. unfold dfs_romfs_lseek. rewrite wrap_small by lia.
    destruct (Z.leb_spec off (size f)); eexists _, _; (split; [done|]); [rewrite decide_True by done|rewrite decide_False by lia].
    + split; [|done]. exists d, a. simpl. split_and!; (done || lia).
    + split; [|done]. by exists d, a.
  - done.
  - done.
Qed.
End laws.

(** ** The theorem *)

Lemma mapM_lookup {A} (l : list A) p n : 0 <= p -> 0 <= n -> p + n <= Z.of_nat (length l) ->
  mapM (fun i => l !! Z.to_nat i) (seqZ p n) = Some (take (Z.to_nat n) (drop (Z.to_nat p) l)).
Proof.
  intros Hp Hn. revert n Hn p Hp. refine (natlike_ind _ _ _); [done|]. intros n Hn IH p Hp Hl.
  destruct (lookup_lt_is_Some_2 l (Z.to_nat p)) as [x Hx]; [lia|].
  rewrite seqZ_cons by lia. simpl. rewrite Hx. simpl. rewrite Z.pred_succ, IH by lia. simpl.
  rewrite Z2Nat.inj_succ by lia. by rewrite (drop_S _ x (Z.to_nat p)), Z2Nat.inj_succ by (done || lia).
Qed.

Lemma rom_getdents_ok w d l f count : rom_ok d = true -> rom_data d = Entries l -> data f = Some d -> size f = rom_size d -> 0 <= pos f <= size f ->
  sizeof_struct_dirent <= count ->
  exists f', let ns := take (Z.to_nat (count / sizeof_struct_dirent)) (drop (Z.to_nat (pos f)) (rom_name <$> l)) in
    dfs_romfs_getdents w f count = Some (Z.of_nat (length ns) * sizeof_struct_dirent, ns, f') /\ pos f' = pos f + Z.of_nat (length ns).
Proof.
  intros Hok Hl Hf Hs Hp Hc. destruct (rom_ok_dir d l Hok Hl) as (_ & Hsz & _). unfold sizeof_struct_dirent in *.
  assert (Hq : 1 <= count / 260) by (apply Z.div_le_lower_bound; lia). set (q := count / 260) in *.
  assert (El : Z.of_nat (length (take (Z.to_nat q) (drop (Z.to_nat (pos f)) (rom_name <$> l)))) = Z.max 0 (Z.min q (size f - pos f))).
  { rewrite length_take, length_drop, length_fmap. lia. }
  exists (mk_file (path f) (flags f) (size f) (pos f + Z.max 0 (Z.min q (size f - pos f))) (data f)).
  cbv zeta. rewrite El. unfold dfs_romfs_getdents. rewrite Hf. cbn [mbind option_bind]. rewrite (rom_ok_check d Hok).
  cbn [Z.eqb negb]. unfold sizeof_struct_dirent. fold q. rewrite (proj2 (Z.eqb_neq q 0)) by lia. rewrite Hl.
  set (n := Z.max 0 (Z.min q (size f - pos f))) in *.
  assert ((if 0 <? n then mapM (fun i => l !! Z.to_nat i) (seqZ (pos f) n) else Some []) = Some (take (Z.to_nat n) (drop (Z.to_nat (pos f)) l))) as ->.
  { destruct (Z.ltb_spec 0 n); [apply mapM_lookup; lia|]. assert (n = 0) as -> by lia. done. }
  cbn [mbind option_bind]. rewrite fmap_take, fmap_drop. split; [|reflexivity]. do 3 f_equal.
  destruct (decide (q <= size f - pos f)); [unfold n; f_equal; lia|].
  rewrite !take_ge by (rewrite length_drop, length_fmap; lia). done.
Qed.

(** C22: Looking up in a ROM file system. In a tree whose entries are of a known
    kind, with sizes that fit and proper names, the lookup of a normalised path goes
    down the tree of directories, each time to the first entry of that name, and
    finds the entry at its end with its size, or nothing; it always ends, and never
    reads behind a directory.  Listing a directory gives the names from the position
    on, as many as fit. *)
Theorem dfs_romfs_lookup_correct root : rom_ok root = true -> rom_type root = ROMFS_DIRENT_DIR ->
  dfs_romfs_lookup root [47] = Some (Some (root, rom_size root)) /\
  (forall ns, Forall name_ok ns -> ns <> [] ->
     dfs_romfs_lookup root (join ns) = Some ((fun e => (e, rom_size e)) <$> descend root ns)) /\
  (forall ns d l w f count, descend root ns = Some d -> rom_data d = Entries l -> data f = Some d -> size f = rom_size d -> 0 <= pos f <= size f ->
     sizeof_struct_dirent <= count ->
     exists f', let names := take (Z.to_nat (count / sizeof_struct_dirent)) (drop (Z.to_nat (pos f)) (rom_name <$> l)) in
       dfs_romfs_getdents w f count = Some (Z.of_nat (length names) * sizeof_struct_dirent, names, f') /\
       pos f' = pos f + Z.of_nat (length names)).
Proof.
  intros Hr Ht. split_and!.
  - unfold dfs_romfs_lookup. by rewrite (rom_ok_check root Hr).
  - intros ns. by apply dfs_romfs_lookup_ok.
  - intros ns d l w f count Hd. apply rom_getdents_ok. by apply (descend_ok root ns).
Qed.

(** The ROM image of the boot loader. *)
Definition www : list Z := [119; 119; 119].
Definition index_asp : list Z := [105; 110; 100; 101; 120; 46; 97; 115; 112].

Theorem dfs_romfs_lookup_correct_witness (place := fun i : Z => 4096 * i) :
  rom_ok (romfs_root place) = true /\
  dfs_romfs_lookup (romfs_root place) (join [www; index_asp]) = Some (Some (mk_rom 0 index_asp (Bytes 24576) 1151, 1151)).
Proof.
  assert (Hr : rom_ok (romfs_root place) = true) by reflexivity.
  destruct (dfs_romfs_lookup_correct (romfs_root place) Hr eq_refl) as (_ & H & _).
  split; [exact Hr|]. rewrite (H [www; index_asp]).
  - reflexivity.
  - unfold name_ok. apply (bool_decide_unpack _). vm_compute. exact I.
  - done.
Defined.
