(* ===== verification/Dfs.v ===== *)
(** * File descriptors and mounts: dfs/dfs.c, dfs_fs.c, dfs_file.c, dfs_posix.c

    The table of file descriptors, the lookup of the file system of a path, the
    operations on open files and the POSIX calls on them, for any file systems
    (file Vfs).  A [struct dfs_fd *] is the index of its slot: each slot has an
    object of its own.  The lock is held inside the functions only, so each is one
    step.  [answers] is what the next calls of rt_malloc will say, [true] when
    there is nothing left in it; [None] is a step without meaning in C. *)

From S2P Require Import Prelude Vfs DfsPath.

Definition DFS_FD_MAX : nat := 6.
Definition DFS_FD_OFFSET : Z := 3.
Definition DFS_FD_MAGIC : Z := 0xfdfd.
Definition DFS_F_OPEN : Z := 0x01000000.
Definition DFS_F_DIRECTORY : Z := 0x02000000.
Definition DFS_F_EOF : Z := 0x04000000.
Definition FT_REGULAR : Z := 0.
Definition FT_DIRECTORY : Z := 2.

Definition SEEK_SET : Z := 0.
Definition SEEK_CUR : Z := 1.
Definition SEEK_END : Z := 2.

Section dfs.
Context {W D : Type}.

Record dfs_filesystem := mk_fs { fs_path : list Z; fs_ops : dfs_filesystem_ops W D }.

(** [fd_path] is [None] for [RT_NULL]. *)
Record dfs_fd := mk_fd {
  fd_magic : Z; fd_type : Z; fd_path : option (list Z); ref_count : Z;
  fd_fs : option nat; fd_fops : option (dfs_file_ops W D);
  fd_flags : Z; fd_size : Z; fd_pos : Z; fd_data : option D }.

(** [maxfd] is the length of [fds]. *)
Record dfs := mk_dfs {
  filesystem_table : list (option dfs_filesystem); fds : list (option dfs_fd);
  working_directory : list Z; world : W; answers : list bool; errno : Z }.

Implicit Types (s : dfs) (d : dfs_fd).

Definition set_fds (l : list (option dfs_fd)) s : dfs :=
  mk_dfs (filesystem_table s) l (working_directory s) (world s) (answers s) (errno s).
Definition set_world (w : W) s : dfs :=
  mk_dfs (filesystem_table s) (fds s) (working_directory s) w (answers s) (errno s).
Definition rt_set_errno (e : Z) s : dfs :=
  mk_dfs (filesystem_table s) (fds s) (working_directory s) (world s) (answers s) e.
Definition rt_malloc s : bool * dfs :=
  (default true (head (answers s)), mk_dfs (filesystem_table s) (fds s) (working_directory s) (world s) (tail (answers s)) (errno s)).

Definition get_fd (i : nat) s : option dfs_fd := mjoin (fds s !! i).
Definition set_fd (i : nat) d s : dfs := set_fds (<[i := Some d]> (fds s)) s.

(** ** dfs.c *)

Fixpoint fd_alloc_loop (l : list (option dfs_fd)) (idx : nat) : nat :=
  match l with
  | [] => idx
  | None :: _ => idx
  | Some d :: l => if ref_count d =? 0 then idx else fd_alloc_loop l (S idx)
  end.

Definition fd_alloc (startfd : nat) s : nat * dfs :=
  let idx := fd_alloc_loop (drop startfd (fds s)) startfd in
  let maxfd := length (fds s) in
  let take_slot s :=
    match fds s !! idx with
    | Some None =>
        let '(ok, s) := rt_malloc s in
        if ok : bool then (idx, set_fd idx (mk_fd 0 0 None 0 None None 0 0 0 None) s) else (length (fds s), s)
    | _ => (idx, s)
    end in
  if (idx =? maxfd)%nat && (maxfd <? DFS_FD_MAX)%nat then
    let cnt := Nat.min (maxfd + 4) DFS_FD_MAX in
    let '(ok, s) := rt_malloc s in
    if ok : bool then take_slot (set_fds (fds s ++ replicate (cnt - maxfd) None) s) else (idx, s)
  else take_slot s.

Definition with_magic_ref (magic ref : Z) d : dfs_fd :=
  mk_fd magic (fd_type d) (fd_path d) ref (fd_fs d) (fd_fops d) (fd_flags d) (fd_size d) (fd_pos d) (fd_data d).

Definition fd_new s : option (Z * dfs) :=
  let '(idx, s) := fd_alloc 0 s in
  if (idx =? length (fds s))%nat then Some (- (1 + DFS_FD_OFFSET) + DFS_FD_OFFSET, s)
  else
    d ← get_fd idx s;
    Some (Z.of_nat idx + DFS_FD_OFFSET, set_fd idx (with_magic_ref DFS_FD_MAGIC 1 d) s).

(** The slot, or [None] for [RT_NULL]. *)
Definition fd_get (fd : Z) s : option nat * dfs :=
  let fd := fd - DFS_FD_OFFSET in
  if (fd <? 0) || (fd >=? Z.of_nat (length (fds s))) then (None, s)
  else
    match get_fd (Z.to_nat fd) s with
    | Some d => if fd_magic d =? DFS_FD_MAGIC
        then (Some (Z.to_nat fd), set_fd (Z.to_nat fd) (with_magic_ref (fd_magic d) (ref_count d + 1) d) s) else (None, s)
    | None => (None, s)
    end.

Definition fd_put (i : nat) s : option dfs :=
  d ← get_fd i s;
  let ref := ref_count d - 1 in
  Some (if ref =? 0 then set_fds (<[i := None]> (fds s)) s else set_fd i (with_magic_ref (fd_magic d) ref d) s).

(** [Some None] is [RT_NULL]. *)
Definition dfs_subdir (directory filename : list Z) : option (option (list Z)) :=
  let n := length directory in
  if (n =? length filename)%nat then Some None
  else
    c ← (filename ++ [0]) !! n;
    Some (Some (if negb (c =? 47) && negb (n =? 0)%nat then drop (n - 1) filename else drop n filename)).

(** ** dfs_fs.c *)

Fixpoint fs_lookup_loop (l : list (option dfs_filesystem)) (i : nat) (path : list Z) (fs : option nat) (prefixlen : nat) : option nat :=
  match l with
  | [] => fs
  | None :: l => fs_lookup_loop l (S i) path fs prefixlen
  | Some f :: l =>
      let fspath := length (fs_path f) in
      if (fspath <? prefixlen)%nat || negb (bool_decide (fs_path f `prefix_of` path)) then fs_lookup_loop l (S i) path fs prefixlen
      else if (1 <? fspath)%nat && (fspath <? length path)%nat && negb (default 0 (path !! fspath) =? 47)
      then fs_lookup_loop l (S i) path fs prefixlen
      else fs_lookup_loop l (S i) path (Some i) fspath
  end.

Definition dfs_filesystem_lookup (path : list Z) s : option nat := fs_lookup_loop (filesystem_table s) 0 path None 0.

Definition get_fs (k : nat) s : option dfs_filesystem := mjoin (filesystem_table s !! k).

(** ** Again dfs.c *)

Definition normalize (path : list Z) s : option (option (list Z) * dfs) :=
  let '(ok, s) := rt_malloc s in
  p ← dfs_normalize_path ok (working_directory s) path; Some (p, s).

Definition is_open_on (k : nat) (mountpath : list Z) (x : option dfs_fd) : bool :=
  match x with
  | Some d =>
      match fd_fops d, fd_path d with
      | Some _, Some p => bool_decide (fd_fs d = Some k) && bool_decide (p = mountpath)
      | _, _ => false
      end
  | None => false
  end.

Definition fd_is_open (pathname : list Z) s : option (Z * dfs) :=
  '(fullpath, s) ← normalize pathname s;
  match fullpath with
  | None => Some (-1, s)
  | Some fullpath =>
      match dfs_filesystem_lookup fullpath s with
      | None => Some (-1, s)
      | Some k =>
          fs ← get_fs k s;
          let mountpath := if bool_decide (fs_path fs = [47]) then fullpath else drop (length (fs_path fs)) fullpath in
          Some (if existsb (is_open_on k mountpath) (fds s) then 0 else -1, s)
      end
  end.

(** ** dfs_file.c *)

(** What the file system sees of a descriptor, and what it leaves in it. *)
Definition file_of d : dfs_file D := mk_file (default [] (fd_path d)) (fd_flags d) (fd_size d) (fd_pos d) (fd_data d).
Definition put_file (f : dfs_file D) d : dfs_fd :=
  mk_fd (fd_magic d) (fd_type d) (fd_path d) (ref_count d) (fd_fs d) (fd_fops d) (flags f) (size f) (pos f) (data f).
Definition with_path (p : option (list Z)) d : dfs_fd :=
  mk_fd (fd_magic d) (fd_type d) p (ref_count d) (fd_fs d) (fd_fops d) (fd_flags d) (fd_size d) (fd_pos d) (fd_data d).
Definition with_type_flags (t f : Z) d : dfs_fd :=
  mk_fd (fd_magic d) t (fd_path d) (ref_count d) (fd_fs d) (fd_fops d) f (fd_size d) (fd_pos d) (fd_data d).

(** The path of a file below its mount point. *)
Definition path_below (fs : dfs_filesystem) (fullpath : list Z) : option (list Z) :=
  p ← dfs_subdir (fs_path fs) fullpath; Some (default [47] p).

(** On the object of a descriptor, which may be one of the caller's own. *)
Definition file_open d (path : list Z) (fl : Z) s : option (Z * dfs_fd * dfs) :=
  '(fullpath, s) ← normalize path s;
  match fullpath with
  | None => Some (- ENOMEM, d, s)
  | Some fullpath =>
      '(o, s) ← fd_is_open fullpath s;
      if o =? 0 then Some (- EBUSY, d, s)
      else
        match dfs_filesystem_lookup fullpath s with
        | None => Some (- ENOENT, d, s)
        | Some k =>
            fs ← get_fs k s;
            below ← path_below fs fullpath;
            let '(path, s) :=
              if Z.land (op_flags (fs_ops fs)) DFS_FS_FLAG_FULLPATH =? 0
              then let '(ok, s) := rt_malloc s in (if ok : bool then Some below else None, s)
              else (Some fullpath, s) in
            let d := mk_fd (fd_magic d) FT_REGULAR path (ref_count d) (Some k) (Some (fops (fs_ops fs))) (u32 fl) 0 0 None in
            match op_open (fops (fs_ops fs)) with
            | None => Some (- ENOSYS, with_path None d, s)
            | Some op =>
                _ ← path;
                '(result, w, f) ← op (world s) (file_of d);
                let d := put_file f d in
                let s := set_world w s in
                if result <? 0 then Some (result, with_path None d, s)
                else
                  let d := with_type_flags (fd_type d) (Z.lor (fd_flags d) DFS_F_OPEN) d in
                  let d := if negb (Z.land fl O_DIRECTORY =? 0)
                    then with_type_flags FT_DIRECTORY (Z.lor (fd_flags d) DFS_F_DIRECTORY) d else d in
                  Some (0, d, s)
            end
        end
  end.

Definition file_close d s : option (Z * dfs_fd) :=
  ops ← fd_fops d;
  '(result, d) ← match op_close ops with
    | Some op => '(result, f) ← op (world s) (file_of d); Some (result, put_file f d)
    | None => Some (0, d)
    end;
  if result <? 0 then Some (result, d) else Some (result, with_path None d).

(** On a slot of the table. *)
Definition dfs_file_open (i : nat) (path : list Z) (fl : Z) s : option (Z * dfs) :=
  d ← get_fd i s; '(result, d, s) ← file_open d path fl s; Some (result, set_fd i d s).

Definition dfs_file_close (i : nat) s : option (Z * dfs) :=
  d ← get_fd i s; '(result, d) ← file_close d s; Some (result, set_fd i d s).

Definition dfs_file_read (i : nat) (len : Z) s : option (Z * list (option Z) * dfs) :=
  d ← get_fd i s; ops ← fd_fops d;
  match op_read ops with
  | None => Some (- ENOSYS, [], s)
  | Some op =>
      '(result, buf, f) ← op (world s) (file_of d) len;
      let d := put_file f d in
      let d := if result <? 0 then with_type_flags (fd_type d) (Z.lor (fd_flags d) DFS_F_EOF) d else d in
      Some (result, buf, set_fd i d s)
  end.

Definition dfs_file_write (i : nat) (buf : list Z) s : option (Z * dfs) :=
  d ← get_fd i s; ops ← fd_fops d;
  match op_write ops with
  | None => Some (- ENOSYS, s)
  | Some op =>
      '(result, w, f) ← op (world s) (file_of d) buf;
      Some (result, set_fd i (put_file f d) (set_world w s))
  end.

Definition dfs_file_lseek (i : nat) (offset : Z) s : option (Z * dfs) :=
  d ← get_fd i s; ops ← fd_fops d;
  match op_lseek ops with
  | None => Some (- ENOSYS, s)
  | Some op =>
      '(result, f) ← op (world s) (file_of d) offset;
      let d := put_file f d in
      let d := if result >=? 0 then put_file (mk_file (path f) (flags f) (size f) result (data f)) d else d in
      Some (result, set_fd i d s)
  end.

Definition dfs_file_getdents (i : nat) (nbytes : Z) s : option (Z * list (list Z) * dfs) :=
  d ← get_fd i s;
  if negb (fd_type d =? FT_DIRECTORY) then Some (- EINVAL, [], s) else
  ops ← fd_fops d;
  match op_getdents ops with
  | None => Some (- ENOSYS, [], s)
  | Some op => '(result, names, f) ← op (world s) (file_of d) nbytes; Some (result, names, set_fd i (put_file f d) s)
  end.

Definition dfs_file_unlink (path : list Z) s : option (Z * dfs) :=
  '(fullpath, s) ← normalize path s;
  match fullpath with
  | None => Some (- EINVAL, s)
  | Some fullpath =>
      match dfs_filesystem_lookup fullpath s with
      | None => Some (- ENOENT, s)
      | Some k =>
          '(o, s) ← fd_is_open fullpath s;
          if o =? 0 then Some (- EBUSY, s)
          else
            fs ← get_fs k s;
            match op_unlink (fs_ops fs) with
            | None => Some (- ENOSYS, s)
            | Some op =>
                below ← path_below fs fullpath;
                let p := if Z.land (op_flags (fs_ops fs)) DFS_FS_FLAG_FULLPATH =? 0 then below else fullpath in
                '(result, w) ← op (world s) p; Some (result, set_world w s)
            end
      end
  end.

(** The size in [struct stat]; the kind of the file is left out. *)
Definition dfs_file_stat (path : list Z) s : option (Z * Z * dfs) :=
  '(fullpath, s) ← normalize path s;
  match fullpath with
  | None => Some (-1, 0, s)
  | Some fullpath =>
      match dfs_filesystem_lookup fullpath s with
      | None => Some (- ENOENT, 0, s)
      | Some k =>
          fs ← get_fs k s;
          sub ← dfs_subdir (fs_path fs) fullpath;
          match sub, bool_decide (fullpath = [47]) with
          | Some below, false =>
              match op_stat (fs_ops fs) with
              | None => Some (- ENOSYS, 0, s)
              | Some op =>
                  let p := if Z.land (op_flags (fs_ops fs)) DFS_FS_FLAG_FULLPATH =? 0 then below else fullpath in
                  '(result, size) ← op (world s) p; Some (result, size, s)
              end
          | _, _ => Some (0, 0, s)
          end
      end
  end.

(** Two paths of no file system end in a null pointer, like a mount point as
    argument of the file system. *)
Definition dfs_file_rename (oldpath newpath : list Z) s : option (Z * dfs) :=
  '(oldfullpath, s) ← normalize oldpath s;
  match oldfullpath with
  | None => Some (- ENOENT, s)
  | Some oldfullpath =>
      '(newfullpath, s) ← normalize newpath s;
      match newfullpath with
      | None => Some (- ENOENT, s)
      | Some newfullpath =>
          let oldfs := dfs_filesystem_lookup oldfullpath s in
          if bool_decide (oldfs = dfs_filesystem_lookup newfullpath s) then
            fs ← (k ← oldfs; get_fs k s);
            match op_rename (fs_ops fs) with
            | None => Some (- ENOSYS, s)
            | Some op =>
                '(result, w) ← (if negb (Z.land (op_flags (fs_ops fs)) DFS_FS_FLAG_FULLPATH =? 0) then op (world s) oldfullpath newfullpath
                  else a ← dfs_subdir (fs_path fs) oldfullpath; b ← dfs_subdir (fs_path fs) newfullpath;
                    a ← a; b ← b; op (world s) a b);
                Some (result, set_world w s)
            end
          else Some (- EXDEV, s)
      end
  end.

(** ** dfs_posix.c *)

(** [-1] with the error number set. *)
Definition fails (e : Z) s : option (Z * dfs) := Some (-1, rt_set_errno e s).

Definition open (file : list Z) (fl : Z) s : option (Z * dfs) :=
  '(fd, s) ← fd_new s;
  if fd <? 0 then fails (- ENOMEM) s
  else
    let '(d, s) := fd_get fd s in
    d ← d;
    '(result, s) ← dfs_file_open d file fl s;
    s ← fd_put d s;
    if result <? 0 then s ← fd_put d s; fails result s
    else Some (fd, s).

Definition close (fd : Z) s : option (Z * dfs) :=
  let '(d, s) := fd_get fd s in
  match d with
  | None => fails (- EBADF) s
  | Some d =>
      '(result, s) ← dfs_file_close d s;
      s ← fd_put d s;
      if result <? 0 then fails result s else s ← fd_put d s; Some (0, s)
  end.

Definition read (fd len : Z) s : option (Z * list (option Z) * dfs) :=
  let '(d, s) := fd_get fd s in
  match d with
  | None => Some (-1, [], rt_set_errno (- EBADF) s)
  | Some d =>
      '(result, buf, s) ← dfs_file_read d len s;
      s ← fd_put d s;
      if result <? 0 then Some (-1, [], rt_set_errno result s) else Some (result, buf, s)
  end.

Definition write (fd : Z) (buf : list Z) s : option (Z * dfs) :=
  let '(d, s) := fd_get fd s in
  match d with
  | None => fails (- EBADF) s
  | Some d =>
      '(result, s) ← dfs_file_write d buf s;
      s ← fd_put d s;
      if result <? 0 then fails result s else Some (result, s)
  end.

Definition lseek (fd offset whence : Z) s : option (Z * dfs) :=
  let '(i, s) := fd_get fd s in
  match i with
  | None => fails (- EBADF) s
  | Some i =>
      d ← get_fd i s;
      let offset := if whence =? SEEK_SET then Some offset else if whence =? SEEK_CUR then Some (swrap 32 (offset + fd_pos d))
        else if whence =? SEEK_END then Some (swrap 32 (offset + fd_size d)) else None in
      match offset with
      | None => s ← fd_put i s; fails (- EINVAL) s
      | Some offset =>
          if offset <? 0 then s ← fd_put i s; fails (- EINVAL) s
          else
            '(result, s) ← dfs_file_lseek i offset s;
            s ← fd_put i s;
            if result <? 0 then fails result s else Some (offset, s)
      end
  end.

Definition rename (old new : list Z) s : option (Z * dfs) :=
  '(result, s) ← dfs_file_rename old new s;
  if result <? 0 then fails result s else Some (0, s).

Definition unlink (pathname : list Z) s : option (Z * dfs) :=
  '(result, s) ← dfs_file_unlink pathname s;
  if result <? 0 then fails result s else Some (0, s).

Definition stat (file : list Z) s : option (Z * Z * dfs) :=
  '(result, size, s) ← dfs_file_stat file s;
  if result <? 0 then Some (-1, size, rt_set_errno result s) else Some (result, size, s).
End dfs.
Arguments dfs_filesystem : clear implicits.
Arguments dfs_fd : clear implicits.
Arguments dfs : clear implicits.
