(* ===== verification/DfsSpec.v ===== *)
(** * Files through descriptors: theorems

    The POSIX calls on any mounted file system of file FileSystem, as operations
    on a map of files and a map of open descriptors; several mounts at once; and
    what the layer does not do. *)

From S2P Require Import Prelude Alloc Kservice Vfs FileSystem Ramfs RamfsSafe RamfsSpec DfsPath Dfs Memheap MemheapSpec.

#[local] Arguments render : simpl never.

(** Descriptors to names and positions. *)
Abbreviation open_files := (gmap Z (list Z * Z)).

Section posix.
Context {W D : Type} (fsys : file_system W D) {HF : FileSystem fsys}.
Abbreviation state := (dfs W D).
Abbreviation desc := (dfs_fd W D).
Implicit Types (s : state) (d : desc) (F : file_map) (O : open_files).

(** The file system is entry [k] of the mounts, at [mp]. *)
Variables (k : nat) (mp : list Z).

(** What stands before the path of a file. *)
Definition mount_base : list Z := if decide (mp = [47]) then [] else mp.

Definition on_mount s d (nm : list Z) (p : Z) : Prop :=
  fd_fs d = Some k /\ fd_fops d = Some (fops (sp_ops fsys)) /\ fd_path d = Some (47 :: nm) /\ fd_pos d = p /\ sp_on fsys (world s) (file_of d) nm.

Record dfs_rel s F O : Prop := {
  dr_world : sp_holds fsys (world s) F;
  dr_mount : get_fs k s = Some (mk_fs mp (sp_ops fsys));
  dr_answers : answers s = [];
  dr_len : (length (fds s) <= DFS_FD_MAX)%nat;
  dr_slots : forall i d, get_fd i s = Some d -> ref_count d = 1 /\ fd_magic d = DFS_FD_MAGIC;
  dr_open : forall fd nm p, O !! fd = Some (nm, p) -> exists i d, fd = Z.of_nat i + DFS_FD_OFFSET /\ get_fd i s = Some d /\ on_mount s d nm p;
  dr_all : forall i d nm, get_fd i s = Some d -> fd_fs d = Some k -> fd_path d = Some (47 :: nm) -> sp_proper fsys nm ->
    O !! (Z.of_nat i + DFS_FD_OFFSET) = Some (nm, fd_pos d);
  dr_excl : forall fd fd' nm p p', O !! fd = Some (nm, p) -> O !! fd' = Some (nm, p') -> fd = fd'
}.

(** [path] is the file [nm] of the file system. *)
Definition names s (path nm : list Z) : Prop := sp_proper fsys nm /\ exists st, Forall name_ok st /\ render st = mount_base ++ 47 :: nm /\
  dfs_normalize_path true (working_directory s) path = Some (Some (render st)) /\ dfs_filesystem_lookup (render st) s = Some k.

(** Everything but the file system and its descriptors. *)
Definition frame s s' : Prop := filesystem_table s' = filesystem_table s /\ working_directory s' = working_directory s /\
  sp_inside fsys (world s) (world s') /\ forall i d, fd_fs d <> Some k -> get_fd i s = Some d <-> get_fd i s' = Some d.

(** ** Slots *)

Lemma get_set_fd i j d s : (i < length (fds s))%nat -> get_fd j (set_fd i d s) = if decide (i = j) then Some d else get_fd j s.
Proof.
  intros Hi. unfold get_fd, set_fd, set_fds. simpl. case_decide as E.
  - subst j. by rewrite list_lookup_insert_eq.
  - by rewrite list_lookup_insert_ne.
Qed.

Lemma get_fd_length i d s : get_fd i s = Some d -> (i < length (fds s))%nat.
Proof. unfold get_fd. intros Hi. destruct (fds s !! i) as [x|] eqn:E; [|done]. by eapply lookup_lt_Some. Qed.

Lemma set_fd_set_fd i d d' s : set_fd i d (set_fd i d' s) = set_fd i d s.
Proof. unfold set_fd, set_fds. simpl. by rewrite list_insert_insert_eq. Qed.

Lemma rt_malloc_ok s : answers s = [] -> rt_malloc s = (true, s).
Proof. destruct s. simpl. by intros ->. Qed.

Lemma fd_get_ok i d s : get_fd i s = Some d -> fd_magic d = DFS_FD_MAGIC ->
  fd_get (Z.of_nat i + DFS_FD_OFFSET) s = (Some i, set_fd i (with_magic_ref (fd_magic d) (ref_count d + 1) d) s).
Proof.
  intros Hi Hm. pose proof (get_fd_length _ _ _ Hi) as Hl. unfold fd_get. replace (Z.of_nat i + DFS_FD_OFFSET - DFS_FD_OFFSET) with (Z.of_nat i) by lia.
  rewrite (proj2 (Z.ltb_ge _ _)) by lia. rewrite Z.geb_leb, (proj2 (Z.leb_gt _ _)) by lia. simpl. rewrite Nat2Z.id, Hi. by rewrite Hm.
Qed.

Lemma fd_put_shared i d s : get_fd i s = Some d -> ref_count d = 2 -> fd_put i s = Some (set_fd i (with_magic_ref (fd_magic d) 1 d) s).
Proof. intros Hi Hr. unfold fd_put. rewrite Hi. simpl. by rewrite Hr. Qed.

Lemma fd_put_last i d s : get_fd i s = Some d -> ref_count d = 1 -> fd_put i s = Some (set_fds (<[i := None]> (fds s)) s).
Proof. intros Hi Hr. unfold fd_put. rewrite Hi. simpl. by rewrite Hr. Qed.

Lemma get_drop_fd i j l s : get_fd j (set_fds (<[i := None]> l) s) = if decide (i = j) then None else mjoin (l !! j).
Proof.
  unfold get_fd, set_fds. simpl. case_decide as E.
  - subst j. destruct (decide (i < length l)%nat); [by rewrite list_lookup_insert_eq|].
    rewrite list_insert_ge by lia. by rewrite lookup_ge_None_2 by lia.
  - by rewrite list_lookup_insert_ne.
Qed.

(** A new descriptor: there is none left, or a free slot was taken. *)
Lemma fd_alloc_loop_ok (l : list (option desc)) i : (forall d, Some d ∈ l -> ref_count d = 1) ->
  (i <= fd_alloc_loop l i <= i + length l)%nat /\
  (fd_alloc_loop l i < i + length l -> l !! (fd_alloc_loop l i - i) = Some None)%nat /\
  (fd_alloc_loop l i = i + length l -> None ∉ l)%nat.
Proof.
  revert i. induction l as [|[d|] l IH]; intros i Hl; simpl.
  - split_and!; [lia|lia|lia|set_solver].
  - rewrite (Hl d) by set_solver. simpl. destruct (IH (Datatypes.S i)) as (H1 & H2 & H3); [set_solver|]. split_and!; [lia|lia| |].
    + intros Hlt. replace (_ - i)%nat with (Datatypes.S (fd_alloc_loop l (Datatypes.S i) - Datatypes.S i)) by lia. apply H2. lia.
    + intros E. apply not_elem_of_cons. split; [done|]. apply H3. lia.
  - split_and!; [lia|lia| |lia]. by rewrite Nat.sub_diag.
Qed.

(** All descriptors are in use. *)
Definition full s : Prop := length (fds s) = DFS_FD_MAX /\ None ∉ fds s.

Definition zero_fd : desc := mk_fd 0 0 None 0 None None 0 0 0 None.

Lemma take_slot_ok l i s : answers s = [] -> l !! i = Some None ->
  match fds (set_fds l s) !! i with
  | Some None =>
      let '(ok, s) := rt_malloc (set_fds l s) in
      if ok : bool then (i, set_fd i zero_fd s) else (length (fds s), s)
  | _ => (i, set_fds l s)
  end = (i, set_fds (<[i := Some zero_fd]> l) s).
Proof. intros Ha Hl. change (fds (set_fds l s)) with l. rewrite Hl. by rewrite rt_malloc_ok. Qed.

Lemma fd_alloc_ok s : answers s = [] -> (length (fds s) <= DFS_FD_MAX)%nat -> (forall i d, get_fd i s = Some d -> ref_count d = 1) ->
  fd_alloc 0 s = (length (fds s), s) /\ full s \/ exists i l, fd_alloc 0 s = (i, set_fds (<[i := Some zero_fd]> l) s) /\ (i < length l <= DFS_FD_MAX)%nat /\
    get_fd i s = None /\ forall j, mjoin (l !! j) = get_fd j s.
Proof.
  intros Ha Hlen Hs. unfold fd_alloc. rewrite drop_0.
  destruct (fd_alloc_loop_ok (fds s) 0) as (H1 & H2 & H3); [intros d [i Hi]%list_elem_of_lookup; apply (Hs i); unfold get_fd; by rewrite Hi|].
  set (i := fd_alloc_loop (fds s) 0) in *. rewrite Nat.sub_0_r, Nat.add_0_l in *.
  assert (Es : s = set_fds (fds s) s) by by destruct s.
  destruct (decide (i = length (fds s))) as [Ei|Ei].
  - rewrite Ei, Nat.eqb_refl. cbn [andb]. destruct (Nat.ltb_spec (length (fds s)) DFS_FD_MAX) as [Hlt|Hge].
    + rewrite rt_malloc_ok by done. right. set (n := (Nat.min (length (fds s) + 4) DFS_FD_MAX - length (fds s))%nat).
      assert (0 < n /\ length (fds s) + n <= DFS_FD_MAX)%nat as [Hn Hn'] by (unfold n; lia).
      assert (Hl : (fds s ++ replicate n None) !! length (fds s) = Some None).
      { rewrite lookup_app_r, Nat.sub_diag by lia. by apply lookup_replicate_2. }
      exists (length (fds s)), (fds s ++ replicate n None). split_and!; [by apply take_slot_ok|rewrite length_app, length_replicate; lia..| |].
      * unfold get_fd. by rewrite lookup_ge_None_2.
      * intros j. unfold get_fd. destruct (decide (j < length (fds s))%nat); [by rewrite lookup_app_l|].
        rewrite lookup_app_r, (lookup_ge_None_2 (fds s)) by lia. by destruct (replicate n None !! _) as [x|] eqn:E; [apply lookup_replicate in E as [-> _]|].
    + left. rewrite lookup_ge_None_2 by done. split; [done|]. split; [lia|]. apply H3. lia.
  - rewrite (proj2 (Nat.eqb_neq _ _)) by done. cbn [andb]. right. assert (Hi : fds s !! i = Some None) by (apply H2; lia).
    exists i, (fds s). split_and!; [|lia|lia|unfold get_fd; by rewrite Hi|done].
    pose proof (take_slot_ok (fds s) i s Ha Hi) as Ht. by rewrite <- Es in Ht.
Qed.

Definition fresh_fd : desc := mk_fd DFS_FD_MAGIC 0 None 1 None None 0 0 0 None.

Lemma fd_new_ok s : answers s = [] -> (length (fds s) <= DFS_FD_MAX)%nat -> (forall i d, get_fd i s = Some d -> ref_count d = 1) ->
  fd_new s = Some (-1, s) /\ full s \/ exists i s', fd_new s = Some (Z.of_nat i + DFS_FD_OFFSET, s') /\ get_fd i s = None /\
    s' = set_fds (fds s') s /\ (i < length (fds s') <= DFS_FD_MAX)%nat /\ forall j, get_fd j s' = if decide (i = j) then Some fresh_fd else get_fd j s.
Proof.
  intros Ha Hlen Hs. unfold fd_new. destruct (fd_alloc_ok s Ha Hlen Hs) as [[-> Hf]|(i & l & -> & Hi & Hn & Hl)].
  - left. by rewrite Nat.eqb_refl.
  - right. simpl. rewrite length_insert, (proj2 (Nat.eqb_neq _ _)) by lia.
    unfold get_fd at 1. simpl. rewrite list_lookup_insert_eq by lia. simpl. eexists i, _. split; [done|].
    split_and!; [done|done|simpl; rewrite !length_insert; lia|simpl; rewrite !length_insert; lia|].
    intros j. rewrite get_set_fd by (simpl; rewrite length_insert; lia). case_decide; [done|].
    unfold get_fd at 1. simpl. by rewrite list_lookup_insert_ne.
Qed.

Lemma dfs_rel_errno e s F O : dfs_rel s F O -> dfs_rel (rt_set_errno e s) F O.
Proof. intros [? ? ? ? ? ? ? ?]. by split. Qed.

Lemma frame_refl s s' : filesystem_table s' = filesystem_table s -> working_directory s' = working_directory s -> world s' = world s ->
  fds s' = fds s -> frame s s'.
Proof using HF. intros Ht Hw Ew Ef. split_and!; [done|done|by rewrite Ew|]. intros i d _. unfold get_fd. by rewrite Ef. Qed.

Lemma frame_errno e s : frame s (rt_set_errno e s).
Proof using HF. by apply frame_refl. Qed.

Lemma frame_trans s s1 s2 : frame s s1 -> frame s1 s2 -> frame s s2.
Proof using HF.
  intros (T1 & W1 & I1 & D1) (T2 & W2 & I2 & D2). split_and!; [congruence|congruence|by etrans|].
  intros i d Hd. rewrite (D1 i d Hd). by apply D2.
Qed.

(** ** Calls on an open file *)

Lemma offset_inj i j : Z.of_nat i + DFS_FD_OFFSET = Z.of_nat j + DFS_FD_OFFSET -> i = j.
Proof. lia. Qed.

Lemma on_mount_world s s' d nm p w nm' : keeps_others fsys (world s) w nm' -> nm <> nm' -> world s' = w -> on_mount s d nm p -> on_mount s' d nm p.
Proof. intros [_ Hk] Hne <- (H1 & H2 & H3 & H4 & H5). split_and!; [done..|]. by apply Hk. Qed.

(** The world changes, and the slot [i] that has or gets the file [nm]. *)
Lemma dfs_rel_change s F O s' F' nm i X : dfs_rel s F O ->
  filesystem_table s' = filesystem_table s -> working_directory s' = working_directory s -> answers s' = [] ->
  (length (fds s') <= DFS_FD_MAX)%nat -> sp_holds fsys (world s') F' -> keeps_others fsys (world s) (world s') nm ->
  (forall j, get_fd j s' = if decide (i = j) then X else get_fd j s) ->
  (forall fd p, O !! fd = Some (nm, p) -> fd = Z.of_nat i + DFS_FD_OFFSET) ->
  (forall n p, O !! (Z.of_nat i + DFS_FD_OFFSET) = Some (n, p) -> n = nm) ->
  (forall d, X = Some d -> ref_count d = 1 /\ fd_magic d = DFS_FD_MAGIC /\ on_mount s' d nm (fd_pos d)) ->
  (forall d, get_fd i s = Some d -> fd_fs d = Some k) ->
  dfs_rel s' F' (match X with Some d => <[Z.of_nat i + DFS_FD_OFFSET := (nm, fd_pos d)]> O | None => delete (Z.of_nat i + DFS_FD_OFFSET) O end) /\
  frame s s'.
Proof.
  intros [Rw Rm Ra Rl Rs Ro Rall Rx] Ht Hwd Ha Hl Hw Hk Hget Hnm Hi HX Hfr.
  set (fd0 := Z.of_nat i + DFS_FD_OFFSET) in *. set (O' := match X with Some d => _ | None => _ end).
  assert (HO' : forall fd, O' !! fd = if decide (fd0 = fd) then (fun d => (nm, fd_pos d)) <$> X else O !! fd).
  { intros fd. unfold O'. destruct X; [by rewrite lookup_insert|by rewrite lookup_delete]. }
  split; [split|].
  - done.
  - unfold get_fs. by rewrite Ht.
  - done.
  - done.
  - intros j e. rewrite Hget. case_decide as E; [intros HXe; by destruct (HX e HXe) as (? & ? & _)|apply Rs].
  - intros fd n q. rewrite HO'. case_decide as E.
    + subst fd. destruct X as [d|]; [|done]. intros [= <- <-]. exists i, d. rewrite Hget, decide_True by done. split_and!; [done..|]. by apply HX.
    + intros Hfd. destruct (Ro fd n q Hfd) as (j & e & -> & Hj & Hon). exists j, e. rewrite Hget, decide_False by (intros ->; done).
      split_and!; [done..|]. apply (on_mount_world s s' e n q (world s') nm); [done| |done|done].
      intros ->. apply E. symmetry. by eapply Hnm.
  - intros j e n. rewrite Hget, HO'. case_decide as E.
    + subst j. intros HXe. rewrite decide_True, HXe by done. intros _ Hp _. destruct (HX e HXe) as (_ & _ & _ & _ & Hp' & _). simpl. congruence.
    + intros Hj Hfs Hp Hn. rewrite decide_False by (intros E'; by apply offset_inj in E'). by apply Rall.
  - intros fd fd' n q q'. rewrite !HO'. repeat case_decide; [congruence| | |apply Rx].
    + destruct X; [|done]. intros [= <- _] Hf. symmetry. subst fd. by eapply Hnm.
    + destruct X; [|done]. intros Hf [= <- _]. subst fd'. by eapply Hnm.
  - split_and!; [done|done|apply Hk|]. intros j e He. rewrite Hget. case_decide as E; [|done]. subst j. split; [intros Hj; by apply Hfr in Hj|].
    intros HXe. by destruct (HX e HXe) as (_ & _ & ? & _).
Qed.

(** The path and the flags do not matter. *)
Lemma on_file_of w F f f' nm : sp_holds fsys w F -> sp_on fsys w f nm -> size f' = size f -> data f' = data f -> pos f' = pos f -> sp_on fsys w f' nm.
Proof using HF. intros Hw Hf Hs Hd Hp. destruct (fs_file w F f nm Hw Hf) as (b & _ & _ & ?). apply (fs_same w f f' nm Hf); [done|done|lia]. Qed.

(** The world and the state of one descriptor change. *)
Lemma dfs_rel_put s F O i d nm p w f F' : dfs_rel s F O -> get_fd i s = Some d -> O !! (Z.of_nat i + DFS_FD_OFFSET) = Some (nm, p) ->
  on_mount s d nm p -> sp_holds fsys w F' -> keeps_others fsys (world s) w nm -> sp_on fsys w f nm ->
  let s' := set_fd i (put_file f d) (set_world w s) in
  dfs_rel s' F' (<[Z.of_nat i + DFS_FD_OFFSET := (nm, pos f)]> O) /\ frame s s'.
Proof.
  intros Hrel Hi HO (N1 & N2 & N3 & N4 & N5) Hw Hk Hf s'. pose proof (get_fd_length _ _ _ Hi) as Hl.
  apply (dfs_rel_change s F O s' F' nm i (Some (put_file f d))); [done..|apply Hrel| |done|done| | | | |].
  - simpl. rewrite length_insert. apply Hrel.
  - intros j. exact (get_set_fd i j (put_file f d) (set_world w s) Hl).
  - intros fd q Hfd. by eapply (dr_excl _ _ _ Hrel).
  - intros n q Hn. congruence.
  - intros d' [= <-]. destruct (dr_slots _ _ _ Hrel i d Hi) as [Hr Hm]. split; [done|]. split; [done|]. unfold on_mount. split_and!; [done..|]. exact (on_file_of w F' f (file_of (put_file f d)) nm Hw Hf eq_refl eq_refl eq_refl).
  - intros d' Hd'. congruence.
Qed.

Definition bump d : desc := with_magic_ref (fd_magic d) (ref_count d + 1) d.

Lemma set_fd_get i d s : get_fd i s = Some d -> set_fd i d s = s.
Proof.
  intros Hi. unfold set_fd, set_fds. rewrite list_insert_id; [by destruct s|]. unfold get_fd in Hi. destruct (fds s !! i) as [x|]; [|done].
  simpl in Hi. by subst x.
Qed.

(** What a call finds and leaves behind: the count goes up and down again. *)
Lemma call_ok s F O fd nm p : dfs_rel s F O -> O !! fd = Some (nm, p) -> exists i d, fd = Z.of_nat i + DFS_FD_OFFSET /\
  get_fd i s = Some d /\ on_mount s d nm p /\ fd_get fd s = (Some i, set_fd i (bump d) s) /\
  get_fd i (set_fd i (bump d) s) = Some (bump d) /\ fd_put i (set_fd i (bump d) s) = Some s /\
  forall f w, fd_put i (set_fd i (put_file f (bump d)) (set_world w (set_fd i (bump d) s))) =
    Some (set_fd i (put_file f d) (set_world w s)).
Proof.
  intros Hrel HO. destruct (dr_open _ _ _ Hrel fd nm p HO) as (i & d & -> & Hi & Hon).
  destruct (dr_slots _ _ _ Hrel i d Hi) as [Hr Hm]. pose proof (get_fd_length _ _ _ Hi) as Hl.
  assert (Hb : get_fd i (set_fd i (bump d) s) = Some (bump d)) by by rewrite get_set_fd, decide_True by done.
  exists i, d. split_and!; [done..|by apply fd_get_ok|done| |].
  { rewrite (fd_put_shared _ _ _ Hb) by (simpl; lia). rewrite set_fd_set_fd. f_equal. apply set_fd_get. rewrite Hi.
    destruct d. simpl in *. by subst. }
  intros f w. rewrite (fd_put_shared _ (put_file f (bump d))).
  - f_equal. rewrite set_fd_set_fd. unfold set_fd, set_world, set_fds. simpl. rewrite list_insert_insert_eq. f_equal.
    unfold put_file, with_magic_ref. simpl. by rewrite Hr.
  - rewrite get_set_fd, decide_True; [done|done|]. simpl. by rewrite length_insert.
  - simpl. lia.
Qed.

Lemma read_ok s F O fd nm p len : dfs_rel s F O -> O !! fd = Some (nm, p) -> 0 <= len ->
  exists b s', F !! nm = Some b /\ let bs := take (Z.to_nat len) (drop (Z.to_nat p) b) in
    read fd len s = Some (Z.of_nat (length bs), Some <$> bs, s') /\
    dfs_rel s' F (<[fd := (nm, p + Z.of_nat (length bs))]> O) /\ frame s s'.
Proof using HF.
  intros Hrel HO Hlen. destruct (call_ok s F O fd nm p Hrel HO) as (i & d & -> & Hi & Hon & Eg & Eb & E0 & Hput).
  assert (Hon' := Hon). destruct Hon' as (_ & N2 & _ & N4 & N5). destruct (fs_read (fsys := fsys)) as (op & Eop & Hop).
  destruct (Hop (world s) F (file_of d) nm len) as (b & f & Hb & E & Hf & Hp); [apply Hrel|done|done|].
  simpl in E, Hp. rewrite N4 in *. eexists b, _. split; [done|]. unfold read. rewrite Eg. unfold dfs_file_read. rewrite Eb. simpl.
  rewrite N2. simpl. rewrite Eop. change (file_of (bump d)) with (file_of d). rewrite E. simpl.
  rewrite (proj2 (Z.ltb_ge _ _)) by lia.
  assert (Ew : set_fd i (put_file f (bump d)) (set_fd i (bump d) s) = set_fd i (put_file f (bump d)) (set_world (world s) (set_fd i (bump d) s))) by done.
  rewrite Ew, Hput. simpl. split; [done|]. rewrite <- Hp.
  eapply dfs_rel_put; [done|done|done|done|apply Hrel|apply keeps_others_id; apply HF|done].
Qed.

(** A file system that is only read refuses. *)
Lemma write_ok s F O fd nm p buf : dfs_rel s F O -> O !! fd = Some (nm, p) -> p + Z.of_nat (length buf) <= max_request ->
  exists b n s', F !! nm = Some b /\ write fd buf s = Some (n, s') /\ frame s s' /\
    if sp_writable fsys then
      n = 0 /\ dfs_rel s' F O \/
      n = Z.of_nat (length buf) /\ dfs_rel s' (<[nm := splice b buf (Z.to_nat p)]> F) (<[fd := (nm, p + n)]> O)
    else n = -1 /\ errno s' = - ENOSYS /\ dfs_rel s' F O.
Proof using HF.
  intros Hrel HO Hlen. destruct (call_ok s F O fd nm p Hrel HO) as (i & d & -> & Hi & Hon & Eg & Eb & E0 & Hput).
  assert (Hon' := Hon). destruct Hon' as (_ & N2 & _ & N4 & N5). unfold write. rewrite Eg. unfold dfs_file_write. rewrite Eb. simpl. rewrite N2. simpl.
  change (file_of (bump d)) with (file_of d). pose proof (fs_write (fsys := fsys)) as Hwr. destruct (sp_writable fsys).
  2:{ rewrite Hwr. cbn [mbind option_bind]. rewrite E0. destruct (fs_file (world s) F (file_of d) nm) as (b & Hb & _); [apply Hrel|done|].
      exists b, (-1), (rt_set_errno (- ENOSYS) s). split_and!; [done|done|apply frame_errno|done|done|by apply dfs_rel_errno]. }
  destruct Hwr as (op & -> & Hop).
  destruct (Hop (world s) F (file_of d) nm buf) as (b & n & w & f & Hb & E & Hk & Hf & Hn); [apply Hrel|done|by simpl; rewrite N4|].
  simpl in Hn. rewrite N4 in Hn. exists b, n, (set_fd i (put_file f d) (set_world w s)). split; [done|]. rewrite E. simpl.
  rewrite Hput. simpl. rewrite (proj2 (Z.ltb_ge _ _)) by (destruct Hn as [(-> & _)|(-> & _)]; lia). split; [done|].
  destruct Hn as [(-> & Hp & HF')|(-> & Hp & HF')];
    destruct (dfs_rel_put s F O i d nm p w _ _ Hrel Hi HO Hon HF' Hk Hf) as [H1 H2]; (split; [done|]).
  - left. split; [done|]. by rewrite Hp, insert_id in H1.
  - right. split; [done|]. by rewrite Hp in H1.
Qed.

(** Where a call of lseek leads. *)
Definition seek_target (whence offset p n : Z) : Z :=
  if whence =? SEEK_SET then offset else if whence =? SEEK_CUR then p + offset else n + offset.

Lemma lseek_ok s F O fd nm p b offset whence : dfs_rel s F O -> O !! fd = Some (nm, p) -> F !! nm = Some b ->
  whence = SEEK_SET \/ whence = SEEK_CUR \/ whence = SEEK_END ->
  let t := seek_target whence offset p (Z.of_nat (length b)) in - 2 ^ 31 <= t < 2 ^ 31 ->
  exists s', frame s s' /\ if decide (0 <= t <= Z.of_nat (length b)) then lseek fd offset whence s = Some (t, s') /\ dfs_rel s' F (<[fd := (nm, t)]> O)
    else lseek fd offset whence s = Some (-1, s') /\ dfs_rel s' F O.
Proof using HF.
  intros Hrel HO Hb Hwh t Ht. destruct (call_ok s F O fd nm p Hrel HO) as (i & d & -> & Hi & Hon & Eg & Eb & E0 & Hput).
  assert (Hon' := Hon). destruct Hon' as (_ & N2 & _ & N4 & N5).
  destruct (fs_file (world s) F (file_of d) nm) as (b' & Hb' & Hs & Hp); [apply Hrel|done|]. simplify_eq. simpl in Hs.
  unfold lseek. rewrite Eg, Eb. simpl.
  assert ((if whence =? SEEK_SET then Some offset else if whence =? SEEK_CUR then Some (swrap 32 (offset + fd_pos d))
    else if whence =? SEEK_END then Some (swrap 32 (offset + fd_size d)) else None) = Some t) as ->.
  { unfold t, seek_target in *. destruct Hwh as [->|[->| ->]]; simpl in *; [done|..]; rewrite swrap_small by lia; f_equal; lia. }
  destruct (Z.ltb_spec t 0) as [Hneg|Hnn].
  { exists (rt_set_errno (- EINVAL) s). rewrite decide_False by lia. rewrite E0. split; [apply frame_errno|]. split; [done|by apply dfs_rel_errno]. }
  unfold dfs_file_lseek. rewrite Eb. simpl. rewrite N2. simpl. destruct (fs_lseek (fsys := fsys)) as (op & -> & Hop).
  change (file_of (bump d)) with (file_of d). destruct (Hop (world s) (file_of d) nm t N5 ltac:(lia)) as (res & f & -> & Hf & Hres). cbn [mbind option_bind].
  destruct (fs_file (world s) F f nm) as (b' & Hb' & Hs' & Hp'); [apply Hrel|done|]. simplify_eq.
  assert (decide (t <= size (file_of d)) = decide (t <= fd_size d)) as Ed by done. rewrite Ed in Hres.
  set (f' := mk_file (path f) (flags f) (size f) (if decide (t <= fd_size d) then t else pos f) (data f)).
  assert (Hf' : sp_on fsys (world s) f' nm).
  { apply (fs_same _ f _ _ Hf); simpl; [done|done|]. revert Hres. destruct (decide (t <= fd_size d)); intros [? ?]; simpl in *; lia. }
  specialize (Hput f' (world s)).
  destruct (dfs_rel_put s F O i d nm _ (world s) f' F Hrel Hi HO Hon) as [H1 H2]; [apply Hrel|apply keeps_others_id; apply HF|done|].
  assert (put_file f' (bump d) = if res >=? 0 then put_file (mk_file (path f) (flags f) (size f) res (data f)) (put_file f (bump d)) else put_file f (bump d)) as Ep.
  { unfold f'. revert Hres. destruct (decide (t <= fd_size d)); intros [Hr _]; rewrite Z.geb_leb; destruct (Z.leb_spec 0 res); try lia; [by rewrite Hr|].
    unfold put_file. done. }
  rewrite <- Ep. change (set_fd i (put_file f' (bump d)) (set_fd i (bump d) s)) with (set_fd i (put_file f' (bump d)) (set_world (world s) (set_fd i (bump d) s))).
  rewrite Hput. cbn [mbind option_bind].
  simpl in Hs. revert Hres Hf' H1 H2. unfold f'. destruct (decide (t <= fd_size d)); intros [Hr Hq] Hf' H1 H2.
  - rewrite (proj2 (Z.ltb_ge res 0)) by lia. eexists. split; [exact H2|]. rewrite decide_True by lia. split; [done|exact H1].
  - rewrite (proj2 (Z.ltb_lt res 0)) by done. eexists. split; [|rewrite decide_False by lia; split; [done|]]; [exact H2|].
    simpl in H1, Hq. rewrite Hq, insert_id in H1 by done. apply dfs_rel_errno. simpl. rewrite Hq. exact H1.
Qed.

Lemma close_ok s F O fd nm p : dfs_rel s F O -> O !! fd = Some (nm, p) ->
  exists s', close fd s = Some (0, s') /\ dfs_rel s' F (delete fd O) /\ frame s s' /\ ~ full s'.
Proof using HF.
  intros Hrel HO. destruct (call_ok s F O fd nm p Hrel HO) as (i & d & -> & Hi & Hon & Eg & Eb & _ & _).
  pose proof (get_fd_length _ _ _ Hi) as Hl. destruct (dr_slots _ _ _ Hrel i d Hi) as [Hr Hm]. destruct Hon as (N1 & N2 & N3 & N4 & N5).
  destruct (fs_close (fsys := fsys)) as (op & Eop & Hop). destruct (Hop (world s) (file_of d) nm N5) as [f Ef].
  unfold close. rewrite Eg. unfold dfs_file_close. rewrite Eb. cbn [mbind option_bind]. unfold file_close.
  change (fd_fops (bump d)) with (fd_fops d). change (file_of (bump d)) with (file_of d). rewrite N2. cbn [mbind option_bind]. rewrite Eop.
  change (world (set_fd i (bump d) s)) with (world s). rewrite Ef. cbn [mbind option_bind]. change (0 <? 0) with false. cbn [mbind option_bind].
  set (d' := with_path None _). rewrite set_fd_set_fd.
  rewrite (fd_put_shared i d'); [|by rewrite get_set_fd, decide_True|simpl; lia]. simpl. rewrite set_fd_set_fd.
  rewrite (fd_put_last i (with_magic_ref (fd_magic d') 1 d')); [|by rewrite get_set_fd, decide_True|done]. simpl.
  eexists. split; [done|]. rewrite (assoc and). split.
  2:{ intros [_ Hn]. apply Hn, list_elem_of_lookup. exists i. apply list_lookup_insert_eq. by rewrite length_insert. }
  apply (dfs_rel_change s F O _ F nm i None); [done..|apply Hrel| |apply Hrel|apply keeps_others_id; apply HF| | |intros; congruence|done|intros; congruence].
  - simpl. rewrite !length_insert. apply Hrel.
  - intros j. rewrite get_drop_fd. case_decide; [done|]. by rewrite list_lookup_insert_ne.
  - intros fd q Hfd. by eapply (dr_excl _ _ _ Hrel).
Qed.

(** ** Paths *)

Lemma names_normalize s path nm : answers s = [] -> names s path nm -> normalize path s = Some (Some (mount_base ++ 47 :: nm), s).
Proof. intros Ha (_ & st & _ & <- & Hn & _). unfold normalize. rewrite rt_malloc_ok by done. by rewrite Hn. Qed.

Lemma names_again s path nm : names s path nm -> names s (mount_base ++ 47 :: nm) nm.
Proof. intros (Hp & st & Hst & E & _ & Hl). split; [done|]. exists st. rewrite <- E. split_and!; [done..| |done]. by apply dfs_normalize_path_id. Qed.

Lemma existsb_get (f : option desc -> bool) s : f None = false -> existsb f (fds s) = true <-> exists i d, get_fd i s = Some d /\ f (Some d) = true.
Proof.
  intros Hf. rewrite existsb_exists. split.
  - intros (x & Hx & Hfx). destruct x as [d|]; [|congruence]. apply list_elem_of_In, list_elem_of_lookup in Hx as [i Hi].
    exists i, d. unfold get_fd. by rewrite Hi.
  - intros (i & d & Hi & Hfd). exists (Some d). split; [|done]. apply list_elem_of_In, list_elem_of_lookup. exists i.
    unfold get_fd in Hi. destruct (fds s !! i) as [x|]; [|done]. simpl in Hi. by subst.
Qed.

Lemma is_open_on_iff x nm : is_open_on k (47 :: nm) x = true <->
  exists d ops, x = Some d /\ fd_fops d = Some ops /\ fd_fs d = Some k /\ fd_path d = Some (47 :: nm).
Proof.
  split.
  - destruct x as [d|]; [|done]. simpl. destruct (fd_fops d) as [ops|] eqn:E1; [|done]. destruct (fd_path d) as [q|] eqn:E2; [|done].
    rewrite andb_true_iff, !bool_decide_eq_true. intros [? ->]. by exists d, ops.
  - intros (d & ops & -> & E1 & E2 & E3). simpl. rewrite E1, E3. rewrite andb_true_iff, !bool_decide_eq_true. done.
Qed.

(** A path counts as open when a descriptor is open on it. *)
Lemma fd_is_open_ok s path nm : answers s = [] -> get_fs k s = Some (mk_fs mp (sp_ops fsys)) -> names s path nm ->
  fd_is_open path s = Some (if existsb (is_open_on k (47 :: nm)) (fds s) then 0 else -1, s).
Proof.
  intros Ha Hm Hn. unfold fd_is_open. rewrite (names_normalize _ _ _ Ha Hn). simpl. destruct Hn as (_ & st & _ & E & _ & Hl).
  rewrite E in Hl. rewrite Hl, Hm. simpl. unfold mount_base. case_decide as Emp; [by rewrite bool_decide_eq_true_2|].
  rewrite bool_decide_eq_false_2 by done. by rewrite drop_app_length.
Qed.

Lemma open_on_iff s F O nm : dfs_rel s F O -> sp_proper fsys nm ->
  existsb (is_open_on k (47 :: nm)) (fds s) = true <-> exists fd p, O !! fd = Some (nm, p).
Proof.
  intros Hrel Hn. rewrite existsb_get by done. split.
  - intros (i & d & Hi & (d' & ops & [= <-] & E1 & E2 & E3)%is_open_on_iff). eexists _, _. by apply (dr_all _ _ _ Hrel i d nm).
  - intros (fd & p & HO). destruct (dr_open _ _ _ Hrel fd nm p HO) as (i & d & _ & Hi & N1 & N2 & N3 & _). exists i, d. split; [done|].
    apply is_open_on_iff. by exists d, (fops (sp_ops fsys)).
Qed.

Lemma path_below_ok nm : nm <> [] -> head nm <> Some 47 -> path_below (mk_fs mp (sp_ops fsys)) (mount_base ++ 47 :: nm) = Some (47 :: nm).
Proof.
  intros Hne Hh. unfold path_below, dfs_subdir, mount_base. simpl. case_decide as Emp.
  - rewrite Emp. simpl. destruct nm as [|c nm]; [done|]. simpl. rewrite (proj2 (Z.eqb_neq c 47)); [done|]. intros ->. done.
  - rewrite (proj2 (Nat.eqb_neq _ _)) by (rewrite length_app; simpl; lia).
    rewrite <- app_assoc, lookup_app_r, Nat.sub_diag by lia. simpl. by rewrite drop_app_length.
Qed.

Lemma open_on_false s F O nm : dfs_rel s F O -> sp_proper fsys nm -> existsb (is_open_on k (47 :: nm)) (fds s) = false -> forall fd p, O !! fd <> Some (nm, p).
Proof. intros Hrel Hn He fd p HO. rewrite (proj2 (open_on_iff s F O nm Hrel Hn)) in He; [done|]. by exists fd, p. Qed.

(** Taking a file away that no descriptor is open on. *)
Lemma unlink_ok s F O path nm : dfs_rel s F O -> names s path nm ->
  exists res s', unlink path s = Some (res, s') /\ frame s s' /\
    ((exists fd p, O !! fd = Some (nm, p)) /\ res = -1 /\ errno s' = - EBUSY /\ dfs_rel s' F O \/
     (forall fd p, O !! fd <> Some (nm, p)) /\
       if sp_writable fsys then res = match F !! nm with Some _ => 0 | None => -1 end /\ dfs_rel s' (delete nm F) O
       else res = -1 /\ errno s' = - ENOSYS /\ dfs_rel s' F O).
Proof using HF.
  intros Hrel Hn. pose proof (dr_answers _ _ _ Hrel) as Ha. pose proof (dr_mount _ _ _ Hrel) as Hm.
  pose proof (proj1 Hn) as Hp. destruct (fs_proper nm Hp) as [Hne Hh]. unfold unlink, dfs_file_unlink.
  rewrite (names_normalize _ _ _ Ha Hn). cbn [mbind option_bind]. pose proof Hn as (_ & st & _ & Est & _ & Hl). rewrite Est in Hl. rewrite Hl.
  rewrite (fd_is_open_ok s _ nm Ha Hm (names_again _ _ _ Hn)). cbn [mbind option_bind].
  destruct (existsb _ _) eqn:Eo; cbn [Z.eqb mbind option_bind].
  { eexists _, _. split; [done|]. split; [apply frame_errno|]. left. split; [by apply (open_on_iff s F O nm Hrel Hp)|]. split_and!; [done..|]. by apply dfs_rel_errno. }
  pose proof (open_on_false s F O nm Hrel Hp Eo) as Hno. change (-1 =? 0) with false. cbv match. rewrite Hm. cbn [mbind option_bind fs_ops].
  pose proof (fs_unlink (fsys := fsys)) as Hu. destruct (sp_writable fsys).
  2:{ rewrite Hu. cbn [mbind option_bind]. change (- ENOSYS <? 0) with true. cbv match. eexists _, _. split; [done|]. split; [apply frame_errno|].
      right. split_and!; [done..|by apply dfs_rel_errno]. }
  destruct Hu as (op & -> & Hop). rewrite path_below_ok by done. cbn [mbind option_bind]. rewrite fs_below, Z.eqb_refl.
  destruct (Hop (world s) F nm (dr_world _ _ _ Hrel) Hp) as (res & w & -> & Hw & Hk & Hres). cbn [mbind option_bind].
  assert (H1 : get_fd (length (fds s)) s = None) by (unfold get_fd; by rewrite lookup_ge_None_2).
  assert (H2 : forall n p, O !! (Z.of_nat (length (fds s)) + DFS_FD_OFFSET) <> Some (n, p)).
  { intros n p HO. destruct (dr_open _ _ _ Hrel _ _ _ HO) as (i & d & E & Hi & _). apply offset_inj in E. congruence. }
  destruct (dfs_rel_change s F O (set_world w s) (delete nm F) nm (length (fds s)) None) as [H3 H4];
    [done..|apply Hrel|done|done| |by intros; edestruct Hno|by intros; edestruct H2|done|congruence|].
  { intros j. case_decide; [by subst|done]. }
  assert (H5 : O !! (Z.of_nat (length (fds s)) + DFS_FD_OFFSET) = None) by (apply eq_None_not_Some; intros [[n p] E]; by apply (H2 n p)).
  rewrite (delete_id _ _ H5) in H3.
  destruct (F !! nm).
  - subst res. cbn. eexists _, _. split; [done|]. split; [exact H4|]. right. by split_and!.
  - rewrite (proj2 (Z.ltb_lt res 0)) by done. eexists _, _. split; [done|]. split; [exact H4|]. right. split; [done|]. split; [done|by apply dfs_rel_errno].
Qed.

(** ** Opening *)

Lemma open_names s F O fd nm p : dfs_rel s F O -> O !! fd = Some (nm, p) -> sp_proper fsys nm.
Proof. intros Hrel HO. destruct (dr_open _ _ _ Hrel fd nm p HO) as (i & d & _ & _ & _ & _ & _ & _ & H). by eapply fs_name. Qed.

(** A state that differs from [s] in the world and in the new slot [i]. *)
Record opening s s' (nm : list Z) (i : nat) (X : desc) : Prop := {
  op_table : filesystem_table s' = filesystem_table s; op_wd : working_directory s' = working_directory s;
  op_answers : answers s' = []; op_len : (i < length (fds s') <= DFS_FD_MAX)%nat;
  op_keeps : keeps_others fsys (world s) (world s') nm;
  op_get : forall j, get_fd j s' = if decide (i = j) then Some X else get_fd j s;
  op_none : get_fd i s = None
}.

Lemma opening_set s s' nm nm' i X Y w : opening s s' nm i X -> keeps_others fsys (world s) w nm' -> opening s (set_fd i Y (set_world w s')) nm' i Y.
Proof.
  intros [? ? ? Hl ? Hg ?] Hk. split; [done..|simpl; by rewrite length_insert|done| |done].
  intros j. rewrite (get_set_fd i j Y (set_world w s') (proj1 Hl)). case_decide as E; [done|]. change (get_fd j (set_world w s')) with (get_fd j s').
  by rewrite Hg, decide_False.
Qed.

Lemma opening_put s s' nm i X : opening s s' nm i X -> ref_count X = 2 ->
  fd_put i s' = Some (set_fd i (with_magic_ref (fd_magic X) 1 X) s') /\ opening s (set_fd i (with_magic_ref (fd_magic X) 1 X) s') nm i (with_magic_ref (fd_magic X) 1 X).
Proof.
  intros Ho Hr. split; [apply fd_put_shared; [by rewrite (op_get _ _ _ _ _ Ho), decide_True|done]|].
  assert (E : set_fd i (with_magic_ref (fd_magic X) 1 X) s' = set_fd i (with_magic_ref (fd_magic X) 1 X) (set_world (world s') s')) by by destruct s'.
  rewrite E. eapply opening_set; [done|apply Ho].
Qed.

Lemma opening_names s s' nm i X path n : opening s s' nm i X -> names s path n -> names s' path n.
Proof.
  intros [Ht Hw _ _ _ _ _] (Hp & st & H1 & H2 & H3 & H4). split; [done|]. exists st. unfold dfs_filesystem_lookup. by rewrite Ht, Hw.
Qed.

Lemma opening_off s F O s' nm i X : dfs_rel s F O -> opening s s' nm i X -> O !! (Z.of_nat i + DFS_FD_OFFSET) = None.
Proof.
  intros Hrel Ho. apply eq_None_not_Some. intros [[n p] E]. destruct (dr_open _ _ _ Hrel _ _ _ E) as (j & d & Ej & Hj & _).
  apply offset_inj in Ej. subst j. by rewrite (op_none _ _ _ _ _ Ho) in Hj.
Qed.

(** The descriptor is given back. *)
Lemma open_fail s F O s' nm i X : dfs_rel s F O -> opening s s' nm i X -> ref_count X = 2 -> (forall fd p, O !! fd <> Some (nm, p)) ->
  sp_holds fsys (world s') F ->
  exists s1 s2, fd_put i s' = Some s1 /\ fd_put i s1 = Some s2 /\ dfs_rel s2 F O /\ frame s s2.
Proof.
  intros Hrel Ho Hr Hno Hw. destruct (opening_put _ _ _ _ _ Ho Hr) as [E1 Ho1]. pose proof (opening_off _ _ _ _ _ _ _ Hrel Ho1) as Hoff.
  eexists _, _. split; [exact E1|]. split; [apply (fd_put_last i (with_magic_ref (fd_magic X) 1 X)); [by rewrite (op_get _ _ _ _ _ Ho1), decide_True|done]|].
  set (s1 := set_fd i _ s') in *. pose proof Ho1 as [? ? ? ? ? Hg Hn].
  rewrite <- (delete_id O _ Hoff). apply (dfs_rel_change s F O _ F nm i None); [done..| |done|done| |intros; by edestruct Hno|intros; congruence|done|intros; congruence].
  - simpl. rewrite !length_insert. pose proof (op_len _ _ _ _ _ Ho). lia.
  - intros j. rewrite get_drop_fd. case_decide; [done|]. change (mjoin (fds s1 !! j)) with (get_fd j s1). by rewrite Hg, decide_False.
Qed.

(** The descriptor is kept. *)
Lemma open_keep s F O s' nm i X F' : dfs_rel s F O -> opening s s' nm i X -> ref_count X = 2 -> fd_magic X = DFS_FD_MAGIC ->
  (forall fd p, O !! fd <> Some (nm, p)) -> on_mount s' X nm (fd_pos X) -> sp_holds fsys (world s') F' ->
  exists s1, fd_put i s' = Some s1 /\ dfs_rel s1 F' (<[Z.of_nat i + DFS_FD_OFFSET := (nm, fd_pos X)]> O) /\ frame s s1.
Proof.
  intros Hrel Ho Hr Hm Hno Hon Hw. destruct (opening_put _ _ _ _ _ Ho Hr) as [E1 Ho1].
  eexists. split; [exact E1|]. set (s1 := set_fd i _ s') in *. pose proof Ho1 as [? ? ? ? ? Hg Hn].
  pose proof (opening_off _ _ _ _ _ _ _ Hrel Ho1) as Hoff.
  apply (dfs_rel_change s F O s1 F' nm i (Some (with_magic_ref (fd_magic X) 1 X))); [done..| |done|done|done|intros; by edestruct Hno|intros; congruence| |intros; congruence].
  - lia.
  - intros d [= <-]. by split_and!.
Qed.

Definition opened_fd (nm : list Z) (fl : Z) (f : dfs_file D) (X : desc) : desc :=
  mk_fd (fd_magic X) FT_REGULAR (Some (47 :: nm)) (ref_count X) (Some k) (Some (fops (sp_ops fsys))) fl (size f) (pos f) (data f).

(** What dfs_file_open does in the new slot. *)
Lemma dfs_file_open_ok s F O s' path nm nm0 fl i X : dfs_rel s F O -> opening s s' nm0 i X -> world s' = world s -> fd_fops X = None -> names s path nm ->
  0 <= fl < 2 ^ 32 -> has fl O_DIRECTORY = false ->
  if existsb (is_open_on k (47 :: nm)) (fds s) then dfs_file_open i path fl s' = Some (- EBUSY, s')
  else exists res w f F' Y, dfs_file_open i path fl s' = Some (res, set_fd i Y (set_world w s')) /\ sp_opens fsys F nm fl res F' /\ (res < 0 -> F' = F) /\
    sp_holds fsys w F' /\ keeps_others fsys (world s) w nm /\ res <= 0 /\ ref_count Y = ref_count X /\ fd_magic Y = fd_magic X /\
    (res = 0 -> Y = opened_fd nm (fd_flags Y) f X /\ sp_on fsys w f nm /\ (has fl O_APPEND = false -> pos f = 0)).
Proof using HF.
  intros Hrel Ho Hw HX Hn Hfl Hdir. pose proof (opening_names _ _ _ _ _ _ _ Ho Hn) as Hn'. pose proof (op_answers _ _ _ _ _ Ho) as Ha.
  pose proof (proj1 Hn) as Hp. destruct (fs_proper nm Hp) as [Hne Hh].
  assert (Hm : get_fs k s' = Some (mk_fs mp (sp_ops fsys))) by (unfold get_fs; rewrite (op_table _ _ _ _ _ Ho); apply Hrel).
  assert (Hi : get_fd i s' = Some X) by by rewrite (op_get _ _ _ _ _ Ho), decide_True.
  assert (He : existsb (is_open_on k (47 :: nm)) (fds s') = existsb (is_open_on k (47 :: nm)) (fds s)).
  { apply Bool.eq_iff_eq_true. rewrite !existsb_get by done. pose proof (op_get _ _ _ _ _ Ho) as Hg. pose proof (op_none _ _ _ _ _ Ho) as Hnone.
    split; intros (j & e & Hj & Hop).
    - rewrite Hg in Hj. case_decide; [|by exists j, e]. simplify_eq. apply is_open_on_iff in Hop as (d' & ops & [= <-] & E & _). congruence.
    - exists j, e. rewrite Hg. case_decide; [congruence|done]. }
  unfold dfs_file_open. rewrite Hi. cbn [mbind option_bind]. unfold file_open. rewrite (names_normalize _ _ _ Ha Hn'). cbn [mbind option_bind].
  rewrite (fd_is_open_ok s' _ nm Ha Hm (names_again _ _ _ Hn')), He. destruct (existsb (is_open_on k (47 :: nm)) (fds s)) eqn:Eo.
  { cbn [mbind option_bind]. change (0 =? 0) with true. cbn [mbind option_bind]. by rewrite set_fd_get. }
  cbn [mbind option_bind]. change (-1 =? 0) with false. cbv match. pose proof Hn' as (_ & st & _ & Est & _ & Hl). rewrite Est in Hl. rewrite Hl, Hm.
  cbn [mbind option_bind fs_ops fs_path]. rewrite path_below_ok, rt_malloc_ok by done. cbn [mbind option_bind].
  rewrite fs_below, Z.eqb_refl, (wrap_small 32 fl) by done. set (d0 := mk_fd _ _ _ _ _ _ _ _ _ _).
  destruct (fs_open (fsys := fsys)) as (op & -> & Hop). cbn [mbind option_bind]. rewrite Hw.
  destruct (Hop (world s) F (file_of d0) nm (dr_world _ _ _ Hrel) eq_refl eq_refl Hp Hdir) as (res & w & f & F' & -> & Hres & Hsp & HF' & Hw' & Hk & Hok).
  cbn [mbind option_bind]. change (negb (Z.land fl O_DIRECTORY =? 0)) with (has fl O_DIRECTORY). rewrite Hdir.
  destruct (Z.ltb_spec res 0); cbn [mbind option_bind].
  - eexists res, w, f, F', _. split; [done|]. split_and!; [done..|lia].
  - assert (res = 0) as -> by lia. destruct (Hok eq_refl) as [Hfd Happ]. eexists 0, w, f, F', _. split; [done|]. by split_and!.
Qed.

(** Opening a file; a new descriptor, or why there is none. *)
Lemma open_ok s F O path nm fl : dfs_rel s F O -> names s path nm -> 0 <= fl < 2 ^ 32 -> has fl O_DIRECTORY = false ->
  exists fd s', open path fl s = Some (fd, s') /\ frame s s' /\
   (fd = -1 /\ dfs_rel s' F O /\
     (full s /\ errno s' = - ENOMEM \/ (exists fd p, O !! fd = Some (nm, p)) /\ errno s' = - EBUSY \/ errno s' < 0 /\ sp_opens fsys F nm fl (errno s') F) \/
    exists F' p, 0 <= fd /\ O !! fd = None /\ (forall fd p, O !! fd <> Some (nm, p)) /\ sp_opens fsys F nm fl 0 F' /\ (has fl O_APPEND = false -> p = 0) /\
      dfs_rel s' F' (<[fd := (nm, p)]> O)).
Proof using HF.
  intros Hrel Hn Hfl Hdir. unfold open. pose proof (proj1 Hn) as Hp.
  destruct (fd_new_ok s) as [[-> Hfull]|(i & s1 & -> & Hi & Es & Hl & Hget)]; [apply Hrel|apply Hrel|intros i d Hd; by apply (dr_slots _ _ _ Hrel i d)| |].
  { simpl. eexists _, _. split; [done|]. split; [apply frame_errno|]. left. split; [done|]. split; [by apply dfs_rel_errno|by left]. }
  assert (Ho1 : opening s s1 [] i fresh_fd).
  { rewrite Es in Hl, Hget |- *. split; [done|done|apply Hrel|done|apply keeps_others_id; apply HF|done|done]. }
  assert (Hg1 : get_fd i s1 = Some fresh_fd) by by rewrite Hget, decide_True.
  cbn [mbind option_bind]. rewrite (proj2 (Z.ltb_ge _ _)) by (unfold DFS_FD_OFFSET; lia). rewrite (fd_get_ok i fresh_fd s1 Hg1) by done.
  set (X := with_magic_ref (fd_magic fresh_fd) (ref_count fresh_fd + 1) fresh_fd).
  assert (Hws : world s1 = world s) by by rewrite Es.
  assert (Ho2 : opening s (set_fd i X s1) [] i X).
  { assert (E : set_fd i X s1 = set_fd i X (set_world (world s1) s1)) by by destruct s1. rewrite E. eapply opening_set; [done|]. rewrite Hws. apply keeps_others_id; apply HF. }
  set (s2 := set_fd i X s1) in *. pose proof (dfs_file_open_ok s F O s2 path nm [] fl i X Hrel Ho2 Hws eq_refl Hn Hfl Hdir) as Hf.
  destruct (existsb (is_open_on k (47 :: nm)) (fds s)) eqn:Eo.
  - cbn [mbind option_bind]. rewrite Hf. cbn [mbind option_bind].
    destruct (open_fail s F O s2 [] i X Hrel Ho2) as (s3 & s4 & -> & E4 & H4 & H5); [done| |change (world s2) with (world s1); rewrite Hws; apply Hrel|].
    { intros fd p HO. by destruct (fs_proper _ (open_names _ _ _ _ _ _ Hrel HO)) as [? _]. }
    cbn [mbind option_bind]. change (- EBUSY <? 0) with true. cbv match. rewrite E4. cbn [mbind option_bind].
    eexists _, _. split; [done|]. split; [exact H5|]. left. split; [done|]. split; [by apply dfs_rel_errno|]. right. left.
    split; [|done]. by apply (open_on_iff s F O nm Hrel Hp).
  - pose proof (open_on_false s F O nm Hrel Hp Eo) as Hno.
    destruct Hf as (res & w & f & F' & Y & Ef & Hop & HeqF & Hw & Hk & Hres & Hr & Hm & Hok). cbn [mbind option_bind]. rewrite Ef. cbn [mbind option_bind].
    pose proof (opening_set _ _ _ nm _ _ Y w Ho2 Hk) as Ho3. set (s3 := set_fd i Y (set_world w s2)) in *.
    destruct (Z.ltb_spec res 0).
    + rewrite (HeqF ltac:(done)) in *.
      destruct (open_fail s F O s3 nm i Y Hrel Ho3) as (s4 & s5 & -> & E5 & H5 & H6); [by rewrite Hr|done|done|].
      cbn [mbind option_bind]. rewrite E5. cbn [mbind option_bind]. eexists _, _. split; [done|]. split; [exact H6|]. left.
      split; [done|]. split; [by apply dfs_rel_errno|]. right. right. by split.
    + assert (res = 0) as -> by lia. destruct (Hok eq_refl) as (HY & Hfd & Happ).
      destruct (open_keep s F O s3 nm i Y F' Hrel Ho3) as (s4 & -> & H4 & H5); [by rewrite Hr|by rewrite Hm|done| |done|].
      { rewrite HY. unfold on_mount. split_and!; [done..|]. exact (on_file_of w F' f (file_of (opened_fd nm (fd_flags Y) f X)) nm Hw Hfd eq_refl eq_refl eq_refl). }
      cbn [mbind option_bind]. eexists _, _. split; [done|]. split; [exact H5|]. right. exists F', (fd_pos Y).
      split_and!; [unfold DFS_FD_OFFSET; lia|by eapply opening_off|done|done| |done]. intros Ha. rewrite HY. by apply Happ.
Qed.

(** Opening a file, reading all of it and closing it. *)
Lemma read_file_ok s F O path nm b len : dfs_rel s F O -> names s path nm -> F !! nm = Some b -> ~ full s -> (forall fd p, O !! fd <> Some (nm, p)) ->
  Z.of_nat (length b) <= len ->
  exists fd s1 s2 s3, open path O_RDONLY s = Some (fd, s1) /\ read fd len s1 = Some (Z.of_nat (length b), Some <$> b, s2) /\
    close fd s2 = Some (0, s3) /\ dfs_rel s3 F O /\ frame s s3.
Proof using HF.
  intros Hrel Hn Hb Hfull Hno Hl.
  destruct (open_ok s F O path nm O_RDONLY Hrel Hn) as (fd & s1 & Eo & Hfr1 & Hc); [done..|].
  destruct Hc as [(_ & _ & [[? _]|[[(fd' & p & HO) _]|[Hneg Hop]]])|(F3 & p & Hfd & HO & _ & Hop & Hpos & H1)];
    [by destruct Hfull|by apply Hno in HO|apply fs_opens_read in Hop as [_ Hop]; rewrite Hb in Hop; lia|].
  apply fs_opens_read in Hop as [-> _]. rewrite Hpos in H1 by done.
  destruct (read_ok s1 F _ fd nm 0 len H1) as (bb & s2 & Hbb & Er & H2 & Hfr2); [by rewrite lookup_insert_eq|lia|].
  rewrite Hb in Hbb. injection Hbb as <-. rewrite drop_0, take_ge in Er, H2 by lia. rewrite insert_insert_eq in H2.
  destruct (close_ok s2 F _ fd nm (0 + Z.of_nat (length b)) H2) as (s3 & Ec & H3 & Hfr3 & _); [by rewrite lookup_insert_eq|].
  rewrite delete_insert_id in H3 by done. exists fd, s1, s2, s3. split_and!; [done..|]. apply (frame_trans s s1 s3); [done|]. by apply (frame_trans s1 s2 s3).
Qed.
End posix.

(** ** Several mounts *)

(** What happens inside the one file system does not reach the other. *)
Definition apart {W D} (fsys fsys' : file_system W D) : Prop := forall w w', sp_inside fsys w w' ->
  (forall F, sp_holds fsys' w F -> sp_holds fsys' w' F) /\ forall f nm, sp_on fsys' w f nm -> sp_on fsys' w' f nm.

Lemma dfs_rel_apart {W D} (fsys fsys' : file_system W D) k k' mp mp' s s' F O F1 O1 : k' <> k -> apart fsys fsys' ->
  dfs_rel fsys' k' mp' s F O -> dfs_rel fsys k mp s' F1 O1 -> frame fsys k s s' -> dfs_rel fsys' k' mp' s' F O.
Proof.
  intros Hne Hap [Rw Rm Ra Rl Rs Ro Rall Rx] Hrel (Ht & Hwd & Hin & Hfr). destruct (Hap _ _ Hin) as [Hw Hon]. split.
  - by apply Hw.
  - unfold get_fs in *. by rewrite Ht.
  - apply Hrel.
  - apply Hrel.
  - apply Hrel.
  - intros fd nm p HO. destruct (Ro fd nm p HO) as (i & d & -> & Hi & N1 & N2 & N3 & N4 & N5). exists i, d. split; [done|].
    split; [apply Hfr; [congruence|done]|]. unfold on_mount. split_and!; [done..|by apply Hon].
  - intros i d nm Hi Hk. apply Rall; [|done]. apply Hfr; [congruence|done].
  - exact Rx.
Qed.

(** ** The file system of a path *)

Section lookup.
Context {W D : Type}.
Implicit Types (f : dfs_filesystem W D) (l : list (option (dfs_filesystem W D))).

(** [path] is the mount point of [f] or lies below it. *)
Definition covers f (path : list Z) : Prop := fs_path f `prefix_of` path /\
  ((length (fs_path f) <= 1)%nat \/ length (fs_path f) = length path \/ path !! length (fs_path f) = Some 47).

Lemma covers_test f path (n : nat) : (length (fs_path f) <? n)%nat || negb (bool_decide (fs_path f `prefix_of` path)) = false ->
  (1 <? length (fs_path f))%nat && (length (fs_path f) <? length path)%nat && negb (default 0 (path !! length (fs_path f)) =? 47) = false ->
  covers f path /\ (n <= length (fs_path f))%nat.
Proof.
  rewrite orb_false_iff, Nat.ltb_ge, negb_false_iff, bool_decide_eq_true, !andb_false_iff, negb_false_iff, !Nat.ltb_ge. intros [H1 H2] H3.
  split; [|done]. split; [done|]. pose proof (prefix_length _ _ H2). destruct H3 as [[H3|H3]|H3]; [by left|right; left; lia|right; right].
  apply Z.eqb_eq in H3. destruct (path !! _); simpl in *; congruence.
Qed.

Lemma covers_refused f path (n : nat) : covers f path -> (n <= length (fs_path f))%nat ->
  (length (fs_path f) <? n)%nat || negb (bool_decide (fs_path f `prefix_of` path)) = false /\
  (1 <? length (fs_path f))%nat && (length (fs_path f) <? length path)%nat && negb (default 0 (path !! length (fs_path f)) =? 47) = false.
Proof.
  intros [H1 H2] Hn. split.
  - by rewrite orb_false_iff, Nat.ltb_ge, negb_false_iff, bool_decide_eq_true.
  - rewrite !andb_false_iff, !Nat.ltb_ge. destruct H2 as [H2|[H2| ->]]; [left; left; lia|left; right; lia|by right].
Qed.

(** Among [l] the last longest that covers [path]. *)
Definition longest l (path : list Z) (j : nat) f : Prop := l !! j = Some (Some f) /\ covers f path /\
  forall j' f', l !! j' = Some (Some f') -> covers f' path ->
    (length (fs_path f') <= length (fs_path f))%nat /\ (length (fs_path f') = length (fs_path f) -> j' <= j)%nat.

Lemma longest_cons x l path j f : longest l path j f ->
  (forall g, x = Some g -> covers g path -> length (fs_path g) <= length (fs_path f))%nat -> longest (x :: l) path (S j) f.
Proof.
  intros (H1 & H2 & H3) Hx. split_and!; [done..|]. intros [|j'] f' Hj' Hc; [simplify_eq/=; split; [by apply Hx|lia]|].
  destruct (H3 j' f' Hj' Hc). split; [done|]. intros. apply le_n_S. auto.
Qed.

Lemma fs_lookup_loop_ok l i path fs n :
  fs_lookup_loop l i path fs n = fs /\ (forall j f, l !! j = Some (Some f) -> covers f path -> length (fs_path f) < n)%nat \/
  exists j f, fs_lookup_loop l i path fs n = Some (i + j)%nat /\ longest l path j f /\ (n <= length (fs_path f))%nat.
Proof.
  assert (Hskip : forall x l i fs n, (forall g, x = Some g -> covers g path -> length (fs_path g) < n)%nat ->
    fs_lookup_loop l (S i) path fs n = fs /\ (forall j f, l !! j = Some (Some f) -> covers f path -> length (fs_path f) < n)%nat \/
    (exists j f, fs_lookup_loop l (S i) path fs n = Some (S i + j)%nat /\ longest l path j f /\ (n <= length (fs_path f))%nat) ->
    fs_lookup_loop l (S i) path fs n = fs /\ (forall j f, (x :: l) !! j = Some (Some f) -> covers f path -> length (fs_path f) < n)%nat \/
    (exists j f, fs_lookup_loop l (S i) path fs n = Some (i + j)%nat /\ longest (x :: l) path j f /\ (n <= length (fs_path f))%nat)).
  { clear. intros x l i fs n Hx [[H1 H2]|(j & f & -> & H2 & H3)].
    - left. split; [done|]. intros [|j] f Hj Hc; simpl in Hj; [simplify_eq; by apply Hx|by eapply H2].
    - right. exists (S j), f. split_and!; [f_equal; lia| |done]. apply longest_cons; [done|]. intros g Hg Hc. specialize (Hx g Hg Hc). lia. }
  revert i fs n. induction l as [|[f|] l IH]; intros i fs n; [by left| |by apply Hskip].
  cbn [fs_lookup_loop]. destruct (_ || _) eqn:E1; [|destruct (_ && negb _) eqn:E2].
  - apply Hskip; [|apply IH]. intros g [= <-] Hc. destruct (decide (n <= length (fs_path f))%nat) as [Hn|]; [|lia].
    destruct (covers_refused f path n Hc Hn). congruence.
  - apply Hskip; [|apply IH]. intros g [= <-] Hc. destruct (decide (n <= length (fs_path f))%nat) as [Hn|]; [|lia].
    destruct (covers_refused f path n Hc Hn). congruence.
  - destruct (covers_test f path n E1 E2) as [Hc Hn]. right. destruct (IH (S i) (Some i) (length (fs_path f))) as [[-> H2]|(j & g & -> & H2 & H3)].
    + exists O, f. split_and!; [f_equal; lia| |done]. split_and!; [done..|]. intros [|j] g Hj Hg; simpl in Hj; [by simplify_eq|].
      specialize (H2 j g Hj Hg). lia.
    + exists (S j), g. split_and!; [f_equal; lia| |lia]. apply longest_cons; [done|]. by intros h [= <-] _.
Qed.

(** C23: The file system of a path. dfs_filesystem_lookup gives the mount whose
    path is the longest among those the path is or lies below, name by name, the
    later one among two of the same length; and none only when no mount covers
    the path. *)
Theorem dfs_filesystem_lookup_correct (s : dfs W D) path :
  match dfs_filesystem_lookup path s with
  | Some k => exists f, longest (filesystem_table s) path k f
  | None => forall k f, filesystem_table s !! k = Some (Some f) -> ~ covers f path
  end.
Proof.
  unfold dfs_filesystem_lookup. destruct (fs_lookup_loop_ok (filesystem_table s) 0 path None 0) as [[-> H]|(j & f & -> & H & _)].
  - intros k f Hk Hc. specialize (H k f Hk Hc). lia.
  - by exists f.
Qed.
End lookup.

(** ** The theorem *)

(** The file system is mount [k] at [mp], holds the files [F], and [O] are its
    open descriptors. *)
Abbreviation posix_holds := dfs_rel.

(** C8: Files through descriptors. For any mounted file system that keeps the
    contract of file FileSystem, no call on its files gets stuck and each does to
    the map of files and the map of open descriptors what it should: open gives a
    descriptor not in use, or -1 because all are in use, because the file is open
    already, or because the file system refuses; write, read and lseek work at the
    position of the descriptor and move it; close and unlink take away a descriptor
    and a file; a file system that cannot be written refuses write and unlink.
    Other descriptors are left alone, and so are the files and descriptors of
    file systems that lie apart. *)
Theorem posix_refines {W D} (fsys : file_system W D) {HF : FileSystem fsys} k mp s F O : posix_holds fsys k mp s F O ->
  (forall path nm fl, names fsys k mp s path nm -> 0 <= fl < 2 ^ 32 -> has fl O_DIRECTORY = false ->
     exists fd s', open path fl s = Some (fd, s') /\ frame fsys k s s' /\
      (fd = -1 /\ posix_holds fsys k mp s' F O /\
        (full s /\ errno s' = - ENOMEM \/ (exists fd p, O !! fd = Some (nm, p)) /\ errno s' = - EBUSY \/ errno s' < 0 /\ sp_opens fsys F nm fl (errno s') F) \/
       exists F' p, 0 <= fd /\ O !! fd = None /\ (forall fd p, O !! fd <> Some (nm, p)) /\ sp_opens fsys F nm fl 0 F' /\
         (has fl O_APPEND = false -> p = 0) /\ posix_holds fsys k mp s' F' (<[fd := (nm, p)]> O))) /\
  (forall fd nm p, O !! fd = Some (nm, p) -> exists b, F !! nm = Some b /\
    (forall buf, p + Z.of_nat (length buf) <= max_request -> exists n s', write fd buf s = Some (n, s') /\ frame fsys k s s' /\
      if sp_writable fsys then
        n = 0 /\ posix_holds fsys k mp s' F O \/
        n = Z.of_nat (length buf) /\ posix_holds fsys k mp s' (<[nm := splice b buf (Z.to_nat p)]> F) (<[fd := (nm, p + n)]> O)
      else n = -1 /\ errno s' = - ENOSYS /\ posix_holds fsys k mp s' F O) /\
    (forall len, 0 <= len -> exists s', let bs := take (Z.to_nat len) (drop (Z.to_nat p) b) in
      read fd len s = Some (Z.of_nat (length bs), Some <$> bs, s') /\
      posix_holds fsys k mp s' F (<[fd := (nm, p + Z.of_nat (length bs))]> O) /\ frame fsys k s s') /\
    (forall offset whence, whence = SEEK_SET \/ whence = SEEK_CUR \/ whence = SEEK_END ->
      let t := seek_target whence offset p (Z.of_nat (length b)) in - 2 ^ 31 <= t < 2 ^ 31 ->
      exists s', frame fsys k s s' /\ if decide (0 <= t <= Z.of_nat (length b))
        then lseek fd offset whence s = Some (t, s') /\ posix_holds fsys k mp s' F (<[fd := (nm, t)]> O)
        else lseek fd offset whence s = Some (-1, s') /\ posix_holds fsys k mp s' F O) /\
    (exists s', close fd s = Some (0, s') /\ posix_holds fsys k mp s' F (delete fd O) /\ frame fsys k s s' /\ ~ full s')) /\
  (forall path nm, names fsys k mp s path nm -> exists res s', unlink path s = Some (res, s') /\ frame fsys k s s' /\
    ((exists fd p, O !! fd = Some (nm, p)) /\ res = -1 /\ errno s' = - EBUSY /\ posix_holds fsys k mp s' F O \/
     (forall fd p, O !! fd <> Some (nm, p)) /\
       if sp_writable fsys then res = match F !! nm with Some _ => 0 | None => -1 end /\ posix_holds fsys k mp s' (delete nm F) O
       else res = -1 /\ errno s' = - ENOSYS /\ posix_holds fsys k mp s' F O)) /\
  (forall fsys' k' mp' F' O' s' F1 O1, k' <> k -> apart fsys fsys' -> posix_holds fsys' k' mp' s F' O' ->
     posix_holds fsys k mp s' F1 O1 -> frame fsys k s s' -> posix_holds fsys' k' mp' s' F' O').
Proof.
  intros Hrel. split_and!.
  - intros path nm fl. by apply open_ok.
  - intros fd nm p HO. destruct (read_ok fsys k mp s F O fd nm p 0 Hrel HO) as (b & _ & Hb & _); [lia|]. exists b. split_and!; [done| | | |].
    + intros buf Hl. destruct (write_ok fsys k mp s F O fd nm p buf Hrel HO Hl) as (b' & n & s' & Hb' & H). simplify_eq. by exists n, s'.
    + intros len Hl. destruct (read_ok fsys k mp s F O fd nm p len Hrel HO Hl) as (b' & s' & Hb' & H). simplify_eq. by exists s'.
    + intros offset whence Hw t Ht. by apply (lseek_ok fsys k mp s F O fd nm p b offset whence).
    + by apply (close_ok fsys k mp s F O fd nm p).
  - intros path nm. by apply unlink_ok.
  - intros fsys' k' mp' F' O' s' F1 O1 Hk Ha H H1 Hf. by apply (dfs_rel_apart fsys fsys' k k' mp mp' s s' F' O' F1 O1).
Qed.

(** A ramfs at "/tmp". *)
Abbreviation system := (dfs (dfs_ramfs mem) dirent_ptr).
Abbreviation ram_sys := (ramfs_sys (S := mem) (describes := describes)).
Definition tmp : list Z := [47; 116; 109; 112].
Definition tmp_system (r : dfs_ramfs mem) : system := mk_dfs [None; Some (mk_fs tmp ramfs_ops); None; None] [] [47] r [] 0.

Lemma tmp_system_ok r : ramfs_holds r ∅ -> posix_holds ram_sys 1 tmp (tmp_system r) ∅ ∅.
Proof. intros Hr. split; (done || simpl; unfold DFS_FD_MAX; lia). Qed.

Lemma tmp_names r nm : name_ok nm -> proper nm -> names ram_sys 1 tmp (tmp_system r) (tmp ++ 47 :: nm) nm.
Proof.
  intros Hn Hp. split; [done|]. assert (E : render [nm; tail tmp] = tmp ++ 47 :: nm) by (unfold render, reverse; simpl; by rewrite app_nil_r).
  exists [nm; tail tmp]. change (mount_base tmp) with tmp. rewrite <- E. assert (Forall name_ok [nm; tail tmp]) as Hst.
  { repeat constructor; try apply Hn; try done. }
  split_and!; [done|done|by apply dfs_normalize_path_id|]. rewrite E. reflexivity.
Qed.

Theorem posix_refines_witness : exists r s' F',
  dfs_ramfs_create 4096 1000 (fun _ => None) = Some r /\ posix_holds ram_sys 1 tmp (tmp_system r) ∅ ∅ /\
  open (tmp ++ fw_bin) O_CREAT (tmp_system r) = Some (3, s') /\ F' = <[tail fw_bin := []]> ∅ /\ posix_holds ram_sys 1 tmp s' F' (<[3 := (tail fw_bin, 0)]> ∅).
Proof.
  destruct (dfs_ramfs_create_ok 4096 1000 (fun _ => None)) as (r & E & Hr); [lia|lia|lia|].
  destruct (posix_refines ram_sys 1 tmp (tmp_system r) ∅ ∅ (tmp_system_ok r Hr)) as (Hopen & _).
  destruct (Hopen (tmp ++ fw_bin) (tail fw_bin) O_CREAT) as (fd & s' & Es & _ & H).
  - apply tmp_names; (split_and!; [done..|vm_compute; congruence|repeat constructor|done]) || (split_and!; try done; repeat constructor; done).
  - done.
  - done.
  - assert (Hv : (r ← dfs_ramfs_create 4096 1000 (fun _ => None); '(fd, _) ← open (tmp ++ fw_bin) O_CREAT (tmp_system r); Some fd) = Some 3) by by vm_compute.
    rewrite E in Hv. cbn [mbind option_bind] in Hv. rewrite Es in Hv. injection Hv as ->.
    destruct H as [[? _]|(F' & p & _ & _ & _ & Hop & Hp & Hrel)]; [done|]. exists r, s', F'.
    destruct Hop as [[? _]|[_ ->]]; [done|]. rewrite Hp in Hrel by done. split_and!; [done|by apply tmp_system_ok|done|done|done].
Defined.

(** A slot and its object, the two paths, and then no memory for the path of the
    file: the file system is called with a null pointer. *)
Example strdup_unchecked :
  (r ← new_ramfs; Some (bool_decide (is_Some (open (tmp ++ fw_bin) O_CREAT (tmp_system r))),
     bool_decide (is_Some (open (tmp ++ fw_bin) O_CREAT
       (mk_dfs (filesystem_table (tmp_system r)) [] [47] r [true; true; true; true; false] 0))))) = Some (true, false).
Proof. vm_compute. reflexivity. Qed.

(** A file is open once only, the mount point is not. *)
Example mount_point_opens_twice :
  (r ← new_ramfs; '(a, s) ← open tmp O_DIRECTORY (tmp_system r); '(b, s) ← open tmp O_DIRECTORY s;
   '(c, s) ← open (tmp ++ fw_bin) O_CREAT s; '(d, s) ← open (tmp ++ fw_bin) O_CREAT s; Some (a, b, c, d, errno s)) = Some (3, 4, 5, -1, - EBUSY).
Proof. vm_compute. reflexivity. Qed.
