(* ===== verification/Nor.v ===== *)
(** * A serial NOR flash chip

    The chip is hardware: this file states what its data sheet promises for the
    commands the driver sends, as an interface.  [wr] is one SPI transfer: the bytes
    out, the number of bytes in, the result of the bus, the bytes that came.  A
    chip has contents, a latch that enables writing, and for a while after a
    program or erase command it is busy: [pending] is how many times its status
    will still be read as busy. *)

From S2P Require Import Prelude.

Class SpiNor (C : Type) := { wr : C -> list Z -> Z -> Z * list Z * C }.

(** The address in a command, 3 bytes or 4. *)
Definition addr_bytes (four : bool) (a : Z) : list Z :=
  (if four then [Z.land (Z.shiftr a 24) 255] else []) ++ [Z.land (Z.shiftr a 16) 255; Z.land (Z.shiftr a 8) 255; Z.land a 255].

(** Programming clears bits, erasing sets all of them. *)
Definition programmed (m : Z -> Z) (a : Z) (l : list Z) (x : Z) : Z :=
  if a <=? x then match l !! Z.to_nat (x - a) with Some b => Z.land (m x) b | None => m x end else m x.
Definition erased (m : Z -> Z) (lo hi : Z) (x : Z) : Z := if (lo <=? x) && (x <? hi) then 255 else m x.

(** What a chip of [capacity] bytes does; [erase cmd] is the size of the block a
    command erases, and no command keeps the chip busy for [times] reads. *)
Class NorLaws (C : Type) `{SpiNor C} (capacity : Z) (four : bool) (erase : Z -> option Z) (times : nat) := {
  contents : C -> Z -> Z;
  wel : C -> bool;
  pending : C -> nat;
  nor_byte c a : 0 <= contents c a < 256;
  nor_enable c (on : bool) : pending c = O -> exists r c', wr c [if on then 0x06 else 0x04] 0 = (0, r, c') /\
    (forall a, contents c' a = contents c a) /\ wel c' = on /\ pending c' = O;
  nor_status c : exists st c', wr c [0x05] 1 = (0, [st], c') /\ 0 <= st < 256 /\ Z.testbit st 0 = bool_decide (pending c <> O) /\
    (pending c = O -> Z.testbit st 1 = wel c) /\
    (forall a, contents c' a = contents c a) /\ wel c' = wel c /\ pending c' = Nat.pred (pending c);
  nor_read c a n : pending c = O -> 0 <= a -> 0 <= n -> a + n <= capacity ->
    exists c', wr c (0x03 :: addr_bytes four a) n = (0, (fun i => contents c (a + Z.of_nat i)) <$> seq 0 (Z.to_nat n), c') /\
    (forall x, contents c' x = contents c x) /\ wel c' = wel c /\ pending c' = O;
  (** Inside one page of 256 bytes. *)
  nor_program c a l : pending c = O -> wel c = true -> 0 <= a -> a + Z.of_nat (length l) <= capacity ->
    l <> [] -> a mod 256 + Z.of_nat (length l) <= 256 -> Forall (fun b => 0 <= b < 256) l ->
    exists r c', wr c (0x02 :: addr_bytes four a ++ l) 0 = (0, r, c') /\ (pending c' <= times)%nat /\
    forall x, contents c' x = programmed (contents c) a l x;
  nor_erase c cmd size a : pending c = O -> wel c = true -> erase cmd = Some size -> 0 <= a < capacity ->
    exists r c', wr c (cmd :: addr_bytes four a) 0 = (0, r, c') /\ (pending c' <= times)%nat /\
    forall x, contents c' x = erased (contents c) (a / size * size) (a / size * size + size) x;
  nor_chip_erase c : pending c = O -> wel c = true ->
    exists r c', wr c [0xC7] 0 = (0, r, c') /\ (pending c' <= times)%nat /\
    forall x, contents c' x = erased (contents c) 0 capacity x
}.

Lemma programmed_app m a l1 l2 x : programmed (programmed m a l1) (a + Z.of_nat (length l1)) l2 x = programmed m a (l1 ++ l2) x.
Proof.
  unfold programmed. destruct (Z.leb_spec a x).
  - destruct (Z.leb_spec (a + Z.of_nat (length l1)) x).
    + rewrite lookup_app_r by lia. rewrite (lookup_ge_None_2 l1) by lia. by replace (Z.to_nat (x - a) - length l1)%nat with (Z.to_nat (x - (a + Z.of_nat (length l1)))) by lia.
    + by rewrite lookup_app_l by lia.
  - by rewrite (proj2 (Z.leb_gt _ _)) by lia.
Qed.

Lemma programmed_ext m m' a l x : m x = m' x -> programmed m a l x = programmed m' a l x.
Proof. unfold programmed. by intros ->. Qed.

Lemma erased_app m a b c x : a <= b <= c -> erased (erased m a b) b c x = erased m a c x.
Proof. intros H. unfold erased. destruct (Z.leb_spec b x), (Z.ltb_spec x c), (Z.leb_spec a x), (Z.ltb_spec x b); simpl; try lia; done. Qed.

Lemma erased_ext m m' a b x : m x = m' x -> erased m a b x = erased m' a b x.
Proof. unfold erased. by intros ->. Qed.

Lemma programmed_erased m a l x : Forall (fun b => 0 <= b < 256) l -> (forall y, a <= y < a + Z.of_nat (length l) -> m y = 255) ->
  programmed m a l x = if a <=? x then default (m x) (l !! Z.to_nat (x - a)) else m x.
Proof.
  intros Hl Hm. unfold programmed. destruct (Z.leb_spec a x); [|done]. destruct (l !! _) as [b|] eqn:E; [|done]. simpl.
  apply lookup_lt_Some in E as Hlt. rewrite Hm by lia. rewrite Forall_lookup in Hl. pose proof (Hl _ _ E).
  rewrite Z.land_comm. change 255 with (Z.ones 8). rewrite Z.land_ones by lia. by rewrite Z.mod_small.
Qed.
