(* ===== verification/Sfud.v ===== *)
(** * The flash library: libs/sfud/sfud.c

    Reading, erasing and writing a serial flash chip by commands over SPI, on every
    branch; what a transfer does is a parameter (file Nor).  The bus lock around
    the operations is left out.  A result is an error code, 0 for success. *)

From S2P Require Import Prelude Nor.

Definition SFUD_SUCCESS : Z := 0.
Definition SFUD_ERR_WRITE : Z := 2.
Definition SFUD_ERR_TIMEOUT : Z := 4.
Definition SFUD_ERR_ADDR_OUT_OF_BOUND : Z := 5.

Definition SFUD_CMD_WRITE_ENABLE : Z := 0x06.
Definition SFUD_CMD_WRITE_DISABLE : Z := 0x04.
Definition SFUD_CMD_READ_STATUS_REGISTER : Z := 0x05.
Definition SFUD_CMD_PAGE_PROGRAM : Z := 0x02.
Definition SFUD_CMD_AAI_WORD_PROGRAM : Z := 0xAD.
Definition SFUD_CMD_ERASE_CHIP : Z := 0xC7.
Definition SFUD_CMD_READ_DATA : Z := 0x03.

Definition SFUD_STATUS_REGISTER_BUSY : Z := 1.
Definition SFUD_STATUS_REGISTER_WEL : Z := 2.

Definition SFUD_WM_PAGE_256B : Z := 1.
Definition SFUD_WM_AAI : Z := 4.
Definition SFUD_WM_DUAL_BUFFER : Z := 8.

(** The chip's description, the erasers by command and size (0: there is none). *)
Record sfud_flash := mk_flash {
  capacity : Z; write_mode : Z; erase_gran : Z; erase_gran_cmd : Z; addr_in_4_byte : bool; retry_times : nat;
  sfdp_available : bool; eraser : list (Z * Z) }.

Definition SMALLEST_ERASER_INDEX : nat := 0.

Section sfud.
Context {C : Type} `{SpiNor C}.
Variable flash : sfud_flash.
Implicit Types (c : C).

Fixpoint address_loop (len : nat) (addr : Z) : list Z :=
  match len with
  | O => []
  | S n => Z.land (Z.shiftr addr (Z.of_nat n * 8)) 0xFF :: address_loop n addr
  end.
Definition make_adress_byte_array (addr : Z) : list Z := address_loop (if addr_in_4_byte flash then 4 else 3) addr.

(** The result, the status, the chip. *)
Definition sfud_read_status c : Z * Z * C :=
  let '(result, buf, c) := wr c [SFUD_CMD_READ_STATUS_REGISTER] 1 in (result, default 0 (head buf), c).

Definition set_write_enabled (enabled : bool) c : Z * C :=
  let cmd := if enabled then SFUD_CMD_WRITE_ENABLE else SFUD_CMD_WRITE_DISABLE in
  let '(result, _, c) := wr c [cmd] 0 in
  let '(result, status, c) := if result =? SFUD_SUCCESS then sfud_read_status c else (result, 0, c) in
  if result =? SFUD_SUCCESS then
    if enabled && (Z.land status SFUD_STATUS_REGISTER_WEL =? 0) then (SFUD_ERR_WRITE, c)
    else if negb enabled && (Z.land status SFUD_STATUS_REGISTER_WEL =? 1) then (SFUD_ERR_WRITE, c)
    else (result, c)
  else (result, c).

Fixpoint busy_loop (retry : nat) c : Z * C :=
  let '(result, status, c) := sfud_read_status c in
  if (result =? SFUD_SUCCESS) && (Z.land status SFUD_STATUS_REGISTER_BUSY =? 0) then (result, c)
  else match retry with O => (SFUD_ERR_TIMEOUT, c) | S retry => busy_loop retry c end.
Definition wait_busy c : Z * C := busy_loop (retry_times flash) c.

Definition sfud_read (addr size : Z) c : Z * list Z * C :=
  if u32 (addr + size) >? capacity flash then (SFUD_ERR_ADDR_OUT_OF_BOUND, [], c)
  else
    let '(result, c) := wait_busy c in
    if result =? SFUD_SUCCESS then wr c (SFUD_CMD_READ_DATA :: make_adress_byte_array addr) size else (result, [], c).

Definition sfud_chip_erase c : Z * C :=
  let '(result, c) := set_write_enabled true c in
  let '(result, c) :=
    if negb (result =? SFUD_SUCCESS) then (result, c)
    else
      let '(result, _, c) := wr c (if Z.land (write_mode flash) SFUD_WM_DUAL_BUFFER =? 0 then [SFUD_CMD_ERASE_CHIP]
        else [SFUD_CMD_ERASE_CHIP; 0x94; 0x80; 0x9A]) 0 in
      if negb (result =? SFUD_SUCCESS) then (result, c) else wait_busy c in
  let '(_, c) := set_write_enabled false c in
  (result, c).

(** From the end of the table of erasers. *)
Fixpoint eraser_loop (i : nat) (addr erase_size : Z) : option nat :=
  '(_, size) ← eraser flash !! i;
  if negb (size =? 0) && (erase_size >=? size) && (addr mod size =? 0) then Some i
  else match i with O => Some SMALLEST_ERASER_INDEX | S i => eraser_loop i addr erase_size end.

Definition sfud_sfdp_get_suitable_eraser (addr erase_size : Z) : option nat :=
  '(_, size) ← eraser flash !! SMALLEST_ERASER_INDEX;
  if size =? 0 then None
  else if negb (addr mod size =? 0) then Some SMALLEST_ERASER_INDEX else eraser_loop 3 addr erase_size.

(** One command and the wait for it. *)
Definition write_command (cmd : list Z) c : Z * C :=
  let '(result, _, c) := wr c cmd 0 in
  if negb (result =? SFUD_SUCCESS) then (result, c) else wait_busy c.

Fixpoint erase_loop (fuel : nat) (addr size : Z) c : option (Z * C) :=
  match fuel with
  | O => None
  | S fuel =>
      if size =? 0 then Some (SFUD_SUCCESS, c)
      else
        '(cur_erase_cmd, cur_erase_size) ← (if sfdp_available flash then i ← sfud_sfdp_get_suitable_eraser addr size; eraser flash !! i
          else Some (erase_gran_cmd flash, erase_gran flash));
        let '(result, c) := set_write_enabled true c in
        if negb (result =? SFUD_SUCCESS) then Some (result, c)
        else
          let '(result, c) := write_command (cur_erase_cmd :: make_adress_byte_array addr) c in
          if negb (result =? SFUD_SUCCESS) then Some (result, c)
          else if cur_erase_size =? 0 then None
          else
            let n := if negb (addr mod cur_erase_size =? 0) then cur_erase_size - addr mod cur_erase_size else cur_erase_size in
            if size >? n then erase_loop fuel (u32 (addr + n)) (u32 (size - n)) c else Some (result, c)
  end.

(** Each turn takes at least one byte. *)
Definition sfud_erase (addr size : Z) c : option (Z * C) :=
  if u32 (addr + size) >? capacity flash then Some (SFUD_ERR_ADDR_OUT_OF_BOUND, c)
  else if (addr =? 0) && (size =? capacity flash) then Some (sfud_chip_erase c)
  else
    '(result, c) ← erase_loop (S (Z.to_nat size)) addr size c;
    let '(_, c) := set_write_enabled false c in
    Some (result, c).

Fixpoint program_loop (fuel : nat) (addr : Z) (data : list Z) (write_gran : Z) c : option (Z * C) :=
  match fuel with
  | O => None
  | S fuel =>
      let size := Z.of_nat (length data) in
      if size =? 0 then Some (SFUD_SUCCESS, c)
      else
        let '(result, c) := set_write_enabled true c in
        if negb (result =? SFUD_SUCCESS) then Some (result, c)
        else
          let left := if negb (addr mod write_gran =? 0) then write_gran - addr mod write_gran else write_gran in
          let data_size := if size >? left then left else size in
          let '(result, c) := write_command (SFUD_CMD_PAGE_PROGRAM :: make_adress_byte_array addr ++ take (Z.to_nat data_size) data) c in
          if negb (result =? SFUD_SUCCESS) then Some (result, c)
          else
            let data := drop (Z.to_nat data_size) data in
            if Z.of_nat (length data) =? 0 then Some (result, c) else program_loop fuel (u32 (addr + data_size)) data write_gran c
  end.

Definition page256_or_1_byte_write (addr : Z) (data : list Z) (write_gran : Z) c : option (Z * C) :=
  if u32 (addr + Z.of_nat (length data)) >? capacity flash then Some (SFUD_ERR_ADDR_OUT_OF_BOUND, c)
  else
    '(result, c) ← program_loop (S (length data)) addr data write_gran c;
    let '(_, c) := set_write_enabled false c in
    Some (result, c).

(** The words of two bytes; what is left of the data. *)
Fixpoint aai_loop (addr : Z) (data : list Z) (first_write : bool) c : Z * list Z * Z * C :=
  match data with
  | a :: b :: data' =>
      let '(result, c) := write_command (SFUD_CMD_AAI_WORD_PROGRAM :: (if first_write then make_adress_byte_array addr else []) ++ [a; b]) c in
      if negb (result =? SFUD_SUCCESS) then (addr, data, result, c) else aai_loop (u32 (addr + 2)) data' false c
  | _ => (addr, data, SFUD_SUCCESS, c)
  end.

Definition aai_write (addr : Z) (data : list Z) c : option (Z * C) :=
  if u32 (addr + Z.of_nat (length data)) >? capacity flash then Some (SFUD_ERR_ADDR_OUT_OF_BOUND, c)
  else
    let finish result c := Some (if negb (result =? SFUD_SUCCESS) then let '(_, c) := set_write_enabled false c in (result, c) else (result, c)) in
    '(result, addr, data, c) ← (if negb (addr mod 2 =? 0)
      then _ ← head data; '(result, c) ← page256_or_1_byte_write addr (take 1 data) 1 c; Some (result, u32 (addr + 1), drop 1 data, c)
      else Some (SFUD_SUCCESS, addr, data, c));
    if negb (result =? SFUD_SUCCESS) then finish result c
    else
      let '(result, c) := set_write_enabled true c in
      if negb (result =? SFUD_SUCCESS) then finish result c
      else
        let '(addr, data, result, c) := aai_loop addr data true c in
        if negb (result =? SFUD_SUCCESS) then finish result c
        else
          let '(result, c) := set_write_enabled false c in
          '(result, c) ← (if (result =? SFUD_SUCCESS) && (Z.of_nat (length data) =? 1)
            then page256_or_1_byte_write addr (take 1 data) 1 c else Some (result, c));
          finish result c.

Definition sfud_write (addr : Z) (data : list Z) c : option (Z * C) :=
  if negb (Z.land (write_mode flash) SFUD_WM_PAGE_256B =? 0) then page256_or_1_byte_write addr data 256 c
  else if negb (Z.land (write_mode flash) SFUD_WM_AAI =? 0) then aai_write addr data c
  else Some (SFUD_SUCCESS, c).

Definition sfud_erase_write (addr : Z) (data : list Z) c : option (Z * C) :=
  '(result, c) ← sfud_erase addr (Z.of_nat (length data)) c;
  if result =? SFUD_SUCCESS then sfud_write addr data c else Some (result, c).
End sfud.
