(* ===== verification/SfudSpec.v ===== *)
(** * The flash library: theorems

    On a chip that keeps its data sheet, reading gives the contents, writing clears
    bits in its range only, and erasing sets all bits of the smallest blocks its
    range touches. *)

From S2P Require Import Prelude Nor Sfud.

Section sfud.
Context {C : Type} {flash : sfud_flash} {erase : Z -> option Z}.
Context `{L : NorLaws C (capacity flash) (addr_in_4_byte flash) erase (retry_times flash)}.
Implicit Types (c : C).

(** The same contents, and ready. *)
Definition same c c' : Prop := (forall x, contents c' x = contents c x) /\ pending c' = O.

Lemma same_trans c c1 c2 : same c c1 -> same c1 c2 -> same c c2.
Proof. intros [H1 _] [H2 H3]. split; [|done]. intros x. by rewrite H2. Qed.

Lemma make_address_ok a : make_adress_byte_array flash a = addr_bytes (addr_in_4_byte flash) a.
Proof. unfold make_adress_byte_array, addr_bytes. by destruct (addr_in_4_byte flash). Qed.

Lemma land_bit k st : 0 <= k -> Z.land st (2 ^ k) = if Z.testbit st k then 2 ^ k else 0.
Proof.
  intros Hk. apply Z.bits_inj'. intros n Hn. rewrite Z.land_spec, Z.pow2_bits_eqb by lia.
  destruct (Z.eqb_spec k n) as [<-|Hne]; [rewrite andb_true_r|rewrite andb_false_r]; destruct (Z.testbit st k);
    by rewrite ?Z.bits_0, ?Z.pow2_bits_true, ?Z.pow2_bits_false by lia.
Qed.

Lemma land_bit_test k st : 0 <= k -> (Z.land st (2 ^ k) =? 0) = negb (Z.testbit st k).
Proof. intros Hk. rewrite land_bit by done. destruct (Z.testbit st k); [|done]. apply Z.eqb_neq. lia. Qed.

Lemma busy_loop_ok retry c : (pending c <= retry)%nat ->
  exists c', busy_loop retry c = (SFUD_SUCCESS, c') /\ same c c' /\ wel c' = wel c.
Proof.
  revert c. induction retry as [|retry IH]; intros c Hp; cbn [busy_loop]; unfold sfud_read_status; change SFUD_CMD_READ_STATUS_REGISTER with 5;
    destruct (nor_status c) as (st & c1 & -> & Hst & Hb & _ & Hc & Hw & Hp1); simpl; rewrite (land_bit_test 0), Hb by done.
  - rewrite bool_decide_eq_false_2 by lia. simpl. exists c1. split_and!; [done|split; [done|lia]|done].
  - destruct (decide (pending c = O)) as [E|E].
    + rewrite bool_decide_eq_false_2 by lia. simpl. exists c1. split_and!; [done|split; [done|lia]|done].
    + rewrite bool_decide_eq_true_2 by done. simpl. destruct (IH c1) as (c2 & -> & [H1 H2] & H3); [lia|].
      exists c2. split_and!; [done|split; [intros x; by rewrite H1|done]|by rewrite H3].
Qed.

Lemma set_write_enabled_ok on c : pending c = O -> exists c', set_write_enabled on c = (SFUD_SUCCESS, c') /\ same c c' /\ wel c' = on.
Proof.
  intros Hp. unfold set_write_enabled. destruct (nor_enable c on Hp) as (r & c1 & E & H1 & H2 & H3).
  change (if on then SFUD_CMD_WRITE_ENABLE else SFUD_CMD_WRITE_DISABLE) with (if on then 6 else 4). rewrite E. simpl.
  unfold sfud_read_status. change SFUD_CMD_READ_STATUS_REGISTER with 5. destruct (nor_status c1) as (st & c2 & -> & _ & _ & Hw & Hc & Hw2 & Hp2). specialize (Hw H3). simpl.
  change SFUD_STATUS_REGISTER_WEL with (2 ^ 1). rewrite land_bit, Hw, H2 by done. exists c2. split; [by destruct on|]. split_and!; [split; [intros x; by rewrite Hc|by rewrite Hp2, H3]|by rewrite Hw2].
Qed.

(** After a command that leaves the chip busy. *)
Lemma write_command_ok cmd c r c1 : wr c cmd 0 = (0, r, c1) -> (pending c1 <= retry_times flash)%nat ->
  exists c', write_command flash cmd c = (SFUD_SUCCESS, c') /\ same c1 c'.
Proof.
  intros E Hp. unfold write_command. rewrite E. simpl. unfold wait_busy.
  destruct (busy_loop_ok _ c1 Hp) as (c2 & -> & Hs & _). by exists c2.
Qed.

Lemma program_loop_ok fuel addr data c : pending c = O -> 0 <= addr -> addr + Z.of_nat (length data) <= capacity flash -> capacity flash < 2 ^ 32 ->
  Forall (fun b => 0 <= b < 256) data -> (length data < fuel)%nat ->
  exists c', program_loop flash fuel addr data 256 c = Some (SFUD_SUCCESS, c') /\ pending c' = O /\
    forall x, contents c' x = programmed (contents c) addr data x.
Proof.
  revert addr data c. induction fuel as [|fuel IH]; intros addr data c Hp Ha He Hcap Hd Hf; [lia|]. cbn [program_loop].
  destruct data as [|b data]; [exists c; split_and!; [done|done|intros x; unfold programmed; by destruct (_ <=? _)]|].
  rewrite (proj2 (Z.eqb_neq _ 0)) by (simpl; lia).
  destruct (set_write_enabled_ok true c Hp) as (c1 & -> & [H1 Hp1] & Hw1). simpl negb. cbv match.
  set (left := if negb (addr mod 256 =? 0) then 256 - addr mod 256 else 256). set (size := Z.of_nat (length (b :: data))) in *.
  assert (Hleft : left = 256 - addr mod 256) by (unfold left; destruct (Z.eqb_spec (addr mod 256) 0); simpl; lia).
  assert (0 <= addr mod 256 < 256) by (apply Z.mod_pos_bound; lia).
  set (n := if size >? left then left else size).
  assert (Hn : 0 < n <= size /\ n <= left) by (assert (0 < size) by (unfold size; simpl; lia); unfold n; rewrite Z.gtb_ltb; destruct (Z.ltb_spec left size); lia).
  set (l1 := take (Z.to_nat n) (b :: data)). set (l2 := drop (Z.to_nat n) (b :: data)).
  assert (Hl : l1 ++ l2 = b :: data) by apply take_drop.
  assert (Hl1 : Z.of_nat (length l1) = n) by (unfold l1; rewrite length_take; unfold size in *; lia).
  assert (Hl2 : Z.of_nat (length l2) = size - n) by (unfold l2; rewrite length_drop; unfold size in *; lia).
  rewrite <- Hl in Hd. apply Forall_app in Hd as [Hd1 Hd2].
  destruct (nor_program c1 addr l1 Hp1 Hw1 Ha) as (r & c2 & E & Hp2 & H2); [lia|intros El; rewrite El in Hl1; simpl in Hl1; lia|lia|done|].
  change SFUD_CMD_PAGE_PROGRAM with 2. rewrite make_address_ok. destruct (write_command_ok _ c1 r c2 E Hp2) as (c3 & -> & [H3 Hp3]). simpl negb. cbv match.
  assert (Hc3 : forall x, contents c3 x = programmed (contents c) addr l1 x) by (intros x; rewrite H3, H2; by apply programmed_ext).
  destruct (Z.eqb_spec (Z.of_nat (length l2)) 0) as [E2|E2].
  - exists c3. split_and!; [done|done|]. intros x. rewrite Hc3. assert (l2 = []) as Hnil by (destruct l2; [done|simpl in E2; lia]).
    by rewrite Hnil, app_nil_r in Hl; rewrite Hl.
  - rewrite (wrap_small 32 (addr + n)) by lia. destruct (IH (addr + n) l2 c3 Hp3) as (c4 & -> & Hp4 & H4); [lia|lia|done|done|unfold size in *; simpl in *; lia|].
    exists c4. split_and!; [done|done|]. intros x. rewrite H4, <- Hl, <- programmed_app, Hl1. by apply programmed_ext.
Qed.

(** ** The description of the chip *)

(** Pages of 256 bytes; [g] is the size of the smallest block, and the size of
    every eraser of the table is a multiple of it. *)
Record flash_ok (g : Z) : Prop := {
  fo_cap : 0 < capacity flash < 2 ^ 32;
  fo_blocks : (g | capacity flash);
  fo_page : Z.testbit (write_mode flash) 0 = true;
  fo_dual : Z.testbit (write_mode flash) 3 = false;
  fo_g : 0 < g;
  fo_gran : sfdp_available flash = false -> erase_gran flash = g /\ erase (erase_gran_cmd flash) = Some g;
  fo_sfdp : sfdp_available flash = true -> length (eraser flash) = 4%nat /\ (exists cmd, eraser flash !! O = Some (cmd, g)) /\
    forall i cmd sz, eraser flash !! i = Some (cmd, sz) -> sz = 0 \/ 0 < sz /\ (g | sz) /\ erase cmd = Some sz
}.

(** The eraser for a step of the loop. *)
Definition step_eraser (addr size : Z) : option (Z * Z) :=
  if sfdp_available flash then i ← sfud_sfdp_get_suitable_eraser flash addr size; eraser flash !! i
  else Some (erase_gran_cmd flash, erase_gran flash).

Lemma eraser_loop_ok g i addr size : flash_ok g -> sfdp_available flash = true -> (i < 4)%nat -> exists j cmd sz,
  eraser_loop flash i addr size = Some j /\ eraser flash !! j = Some (cmd, sz) /\ (sz = g \/ sz <> 0 /\ sz <= size /\ addr mod sz = 0).
Proof.
  intros Hok Hs. destruct (fo_sfdp _ Hok Hs) as (Hl & (cmd0 & H0) & _). induction i as [|i IH]; intros Hi; cbn [eraser_loop].
  - rewrite H0. cbn [mbind option_bind]. destruct (_ && _); exists O, cmd0, g; (split_and!; [done|done|by left]).
  - destruct (lookup_lt_is_Some_2 (eraser flash) (S i)) as [[cmd sz] E]; [lia|]. rewrite E. cbn [mbind option_bind].
    destruct (negb (sz =? 0) && (size >=? sz) && (addr mod sz =? 0)) eqn:Et; [|apply IH; lia].
    rewrite !andb_true_iff, negb_true_iff, Z.eqb_neq, Z.geb_leb, Z.leb_le, Z.eqb_eq in Et. exists (S i), cmd, sz. split_and!; [done|done|].
    right. tauto.
Qed.

Lemma step_eraser_ok g addr size : flash_ok g -> exists cmd sz, step_eraser addr size = Some (cmd, sz) /\
  erase cmd = Some sz /\ 0 < sz /\ (g | sz) /\ (sz = g \/ sz <= size /\ addr mod sz = 0).
Proof.
  intros Hok. pose proof (fo_g _ Hok) as Hg. unfold step_eraser. destruct (sfdp_available flash) eqn:Hs.
  - destruct (fo_sfdp _ Hok Hs) as (Hl & (cmd0 & H0) & Hall). unfold sfud_sfdp_get_suitable_eraser.
    change SMALLEST_ERASER_INDEX with O in *. rewrite H0. cbn [mbind option_bind]. rewrite (proj2 (Z.eqb_neq g 0)) by lia.
    destruct (negb _).
    + cbn [mbind option_bind]. rewrite H0. destruct (Hall _ _ _ H0) as [?|(_ & ? & ?)]; [lia|]. exists cmd0, g. split_and!; (done || by left).
    + destruct (eraser_loop_ok g 3 addr size Hok Hs) as (j & cmd & sz & -> & Ej & Hsz); [lia|]. cbn [mbind option_bind]. rewrite Ej.
      exists cmd, sz. destruct (Hall _ _ _ Ej) as [->|(? & ? & ?)]; [destruct Hsz as [?|[? _]]; lia|]. split_and!; [done..|]. destruct Hsz as [?|(_ & ? & ?)]; auto.
  - destruct (fo_gran _ Hok Hs) as [-> ?]. exists (erase_gran_cmd flash), g. split_and!; (done || by left).
Qed.

Definition round_up (g x : Z) : Z := (x + g - 1) / g * g.

Lemma round_up_le g a x : 0 < g -> a * g < x <= a * g + g -> round_up g x = a * g + g.
Proof.
  intros Hg Hx. unfold round_up. replace ((x + g - 1) / g) with (a + 1); [lia|]. apply (Z.div_unique _ g _ (x - a * g - 1)); lia.
Qed.

Lemma round_up_ge g x : 0 < g -> x <= round_up g x.
Proof. intros Hg. unfold round_up. pose proof (Z.mod_pos_bound (x + g - 1) g Hg). pose proof (Z.div_mod (x + g - 1) g). lia. Qed.

Lemma erase_step_ok g addr cmd sz c : flash_ok g -> pending c = O -> erase cmd = Some sz -> 0 <= addr < capacity flash ->
  exists c1 c2, set_write_enabled true c = (SFUD_SUCCESS, c1) /\ write_command flash (cmd :: make_adress_byte_array flash addr) c1 = (SFUD_SUCCESS, c2) /\
    pending c2 = O /\ forall x, contents c2 x = erased (contents c) (addr / sz * sz) (addr / sz * sz + sz) x.
Proof.
  intros Hok Hp He Ha. destruct (set_write_enabled_ok true c Hp) as (c1 & -> & [H1 Hp1] & Hw1).
  destruct (nor_erase c1 cmd sz addr Hp1 Hw1 He Ha) as (r & c2 & E & Hp2 & H2). rewrite <- make_address_ok in E.
  destruct (write_command_ok _ c1 r c2 E Hp2) as (c3 & E3 & [H3 Hp3]). exists c1, c3. split_and!; [done|done|done|].
  intros x. rewrite H3, H2. by apply erased_ext.
Qed.

Lemma erase_loop_ok g fuel addr size c : flash_ok g -> pending c = O -> 0 <= addr -> 0 < size -> addr + size <= capacity flash ->
  (Z.to_nat size < fuel)%nat -> exists c', erase_loop flash fuel addr size c = Some (SFUD_SUCCESS, c') /\ pending c' = O /\
    forall x, contents c' x = erased (contents c) (addr / g * g) (round_up g (addr + size)) x.
Proof.
  intros Hok. pose proof (fo_g _ Hok) as Hg. pose proof (fo_cap _ Hok) as Hcap.
  revert addr size c. induction fuel as [|fuel IH]; intros addr size c Hp Ha Hs He Hf; [lia|]. cbn [erase_loop].
  rewrite (proj2 (Z.eqb_neq size 0)) by lia. change (if sfdp_available flash then _ else _) with (step_eraser addr size).
  destruct (step_eraser_ok g addr size Hok) as (cmd & sz & -> & Hcmd & Hsz & Hdiv & Hcase). cbn [mbind option_bind].
  destruct (erase_step_ok g addr cmd sz c Hok Hp Hcmd) as (c1 & c2 & -> & -> & Hp2 & H2); [lia|]. simpl negb. cbv match.
  rewrite (proj2 (Z.eqb_neq sz 0)) by lia. set (n := if negb (addr mod sz =? 0) then sz - addr mod sz else sz).
  assert (Hn : n = sz - addr mod sz) by (unfold n; destruct (Z.eqb_spec (addr mod sz) 0); simpl; lia).
  pose proof (Z.mod_pos_bound addr sz Hsz). pose proof (Z.div_mod addr sz ltac:(lia)) as Hdm.
  assert (Hblock : addr / sz * sz = addr / g * g).
  { destruct Hcase as [->|[_ Hm]]; [done|]. destruct Hdiv as [q ->]. apply Z.mod_divide in Hm as [r ->]; [|lia].
    rewrite Z.div_mul by lia. rewrite Z.mul_assoc, Z.div_mul by lia. done. }
  assert (Hnext : addr + n = addr / sz * sz + sz) by lia.
  assert (Hal : (addr + n) / g * g = addr + n).
  { rewrite Hnext. destruct Hdiv as [q ->]. replace (addr / (q * g) * (q * g) + q * g) with ((addr / (q * g) + 1) * q * g) by ring. by rewrite Z.div_mul by lia. }
  assert (H2' : forall y, contents c2 y = erased (contents c) (addr / g * g) (addr + n) y) by (intros y; by rewrite H2, <- Hnext, Hblock).
  destruct (Z.gtb_spec size n) as [Hgt|Hle].
  - rewrite (wrap_small 32 (addr + n)), (wrap_small 32 (size - n)) by lia.
    destruct (IH (addr + n) (size - n) c2 Hp2) as (c3 & -> & Hp3 & H3); [lia|lia|lia|lia|]. exists c3. split_and!; [done|done|].
    intros x. rewrite H3, Hal. replace (addr + n + (size - n)) with (addr + size) by lia.
    rewrite (erased_ext _ _ _ _ _ (H2' x)). apply erased_app. split; [lia|]. pose proof (round_up_ge g (addr + size) Hg). lia.
  - exists c2. split_and!; [done|done|]. intros x. rewrite H2'. f_equal. symmetry.
    rewrite (round_up_le g ((addr + n) / g - 1)); [lia|done|].
    assert ((addr + n) / g * g - g < addr + size); [|lia]. rewrite Hal. destruct Hcase as [->|[Hsz' _]]; [lia|].
    destruct Hdiv as [q ->]. assert (1 <= q) by nia. nia.
Qed.

(** ** The operations *)

Lemma sfud_read_ok addr n c : pending c = O -> 0 <= addr -> 0 <= n -> addr + n <= capacity flash -> capacity flash < 2 ^ 32 ->
  exists c', sfud_read flash addr n c = (SFUD_SUCCESS, (fun i => contents c (addr + Z.of_nat i)) <$> seq 0 (Z.to_nat n), c') /\ same c c'.
Proof.
  intros Hp Ha Hn He Hcap. unfold sfud_read. rewrite (wrap_small 32 (addr + n)) by lia. rewrite Z.gtb_ltb, (proj2 (Z.ltb_ge _ _)) by lia.
  unfold wait_busy. destruct (busy_loop_ok (retry_times flash) c) as (c1 & -> & [H1 Hp1] & _); [lia|]. simpl. rewrite make_address_ok.
  destruct (nor_read c1 addr n Hp1 Ha Hn He) as (c2 & E & H2 & _ & Hp2). change SFUD_CMD_READ_DATA with 3. rewrite E. exists c2. split.
  - do 2 f_equal. apply list_fmap_ext. intros i x _. by rewrite H1.
  - split; [|done]. intros x. by rewrite H2.
Qed.

Lemma sfud_write_ok g addr data c : flash_ok g -> pending c = O -> 0 <= addr -> addr + Z.of_nat (length data) <= capacity flash ->
  Forall (fun b => 0 <= b < 256) data ->
  exists c', sfud_write flash addr data c = Some (SFUD_SUCCESS, c') /\ pending c' = O /\ forall x, contents c' x = programmed (contents c) addr data x.
Proof.
  intros Hok Hp Ha He Hd. pose proof (fo_cap _ Hok). unfold sfud_write. change SFUD_WM_PAGE_256B with (2 ^ 0).
  rewrite land_bit_test, (fo_page _ Hok) by done. simpl negb. cbv match. unfold page256_or_1_byte_write.
  rewrite (wrap_small 32) by lia. rewrite Z.gtb_ltb, (proj2 (Z.ltb_ge _ _)) by lia.
  destruct (program_loop_ok (S (length data)) addr data c) as (c1 & -> & Hp1 & H1); [done|done|done|lia|done|lia|]. cbn [mbind option_bind].
  destruct (set_write_enabled_ok false c1 Hp1) as (c2 & -> & [H2 Hp2] & _). exists c2. split_and!; [done|done|]. intros x. by rewrite H2, H1.
Qed.

Lemma round_up_multiple g x : 0 < g -> (g | x) -> round_up g x = x.
Proof. intros Hg [q ->]. rewrite (round_up_le g (q - 1)); lia. Qed.

Lemma sfud_erase_ok g addr size c : flash_ok g -> pending c = O -> 0 <= addr -> 0 < size -> addr + size <= capacity flash ->
  exists c', sfud_erase flash addr size c = Some (SFUD_SUCCESS, c') /\ pending c' = O /\
    forall x, contents c' x = erased (contents c) (addr / g * g) (round_up g (addr + size)) x.
Proof.
  intros Hok Hp Ha Hs He. pose proof (fo_cap _ Hok). pose proof (fo_g _ Hok) as Hg. unfold sfud_erase.
  rewrite (wrap_small 32) by lia. rewrite Z.gtb_ltb, (proj2 (Z.ltb_ge _ _)) by lia. destruct (_ && _) eqn:E.
  - apply andb_true_iff in E as [->%Z.eqb_eq ->%Z.eqb_eq]. unfold sfud_chip_erase.
    destruct (set_write_enabled_ok true c Hp) as (c1 & -> & [H1 Hp1] & Hw1). simpl negb. cbv match.
    change SFUD_WM_DUAL_BUFFER with (2 ^ 3). rewrite land_bit_test, (fo_dual _ Hok) by done. simpl negb. cbv match.
    destruct (nor_chip_erase c1 Hp1 Hw1) as (r & c2 & E & Hp2 & H2). change SFUD_CMD_ERASE_CHIP with 0xC7. rewrite E. simpl.
    unfold wait_busy. destruct (busy_loop_ok (retry_times flash) c2 Hp2) as (c3 & -> & [H3 Hp3] & _).
    destruct (set_write_enabled_ok false c3 Hp3) as (c4 & -> & [H4 Hp4] & _). exists c4. split_and!; [done|done|].
    intros x. rewrite H4, H3, H2, round_up_multiple, Zdiv_0_l by (done || apply Hok). by apply erased_ext.
  - destruct (erase_loop_ok g (S (Z.to_nat size)) addr size c) as (c1 & -> & Hp1 & H1); [done|done|done|done|done|lia|]. cbn [mbind option_bind].
    destruct (set_write_enabled_ok false c1 Hp1) as (c2 & -> & [H2 Hp2] & _). exists c2. split_and!; [done|done|]. intros x. by rewrite H2, H1.
Qed.

(** Out of range nothing is sent; the sum of address and size wraps. *)
Lemma sfud_out_of_range addr size data c : capacity flash < u32 (addr + size) -> size = Z.of_nat (length data) -> Z.testbit (write_mode flash) 0 = true ->
  sfud_read flash addr size c = (SFUD_ERR_ADDR_OUT_OF_BOUND, [], c) /\
  sfud_erase flash addr size c = Some (SFUD_ERR_ADDR_OUT_OF_BOUND, c) /\
  sfud_write flash addr data c = Some (SFUD_ERR_ADDR_OUT_OF_BOUND, c).
Proof.
  intros Ho -> Hm. unfold sfud_read, sfud_erase, sfud_write, page256_or_1_byte_write. change SFUD_WM_PAGE_256B with (2 ^ 0).
  rewrite land_bit_test, Hm by done. simpl negb. cbv match. by rewrite Z.gtb_ltb, (proj2 (Z.ltb_lt _ _)) by done.
Qed.
End sfud.
Arguments flash_ok : clear implicits.
