(* ===== verification/NorSim.v ===== *)
(** * A chip that keeps its data sheet

    A flash chip of 16 MiB as a function of the commands sent, to show that the
    interface of file Nor can be met. *)

From S2P Require Import Prelude Nor Sfud SfudSpec.

Record sim := mk_sim { sim_mem : Z -> Z; sim_wel : bool; sim_busy : nat }.

Definition sim_capacity : Z := 2 ^ 24.
Definition sim_erase (cmd : Z) : option Z := if cmd =? 0x20 then Some 4096 else if cmd =? 0xD8 then Some 65536 else None.
Definition sim_times : nat := 2.

Definition sim_status (c : sim) : Z := (if sim_wel c then 2 else 0) + (if bool_decide (sim_busy c <> O) then 1 else 0).

Definition sim_wr (c : sim) (l : list Z) (n : Z) : Z * list Z * sim :=
  match l with
  | [] => (0, [], c)
  | op :: args =>
      if op =? 5 then (0, [sim_status c], mk_sim (sim_mem c) (sim_wel c) (Nat.pred (sim_busy c)))
      else if op =? 6 then (0, [], mk_sim (sim_mem c) true (sim_busy c))
      else if op =? 4 then (0, [], mk_sim (sim_mem c) false (sim_busy c))
      else if op =? 0xC7 then (0, [], mk_sim (erased (sim_mem c) 0 sim_capacity) false sim_times)
      else
        match args with
        | a2 :: a1 :: a0 :: data =>
            let a := a2 * 65536 + a1 * 256 + a0 in
            if op =? 3 then (0, (fun i => sim_mem c (a + Z.of_nat i) mod 256) <$> seq 0 (Z.to_nat n), c)
            else if op =? 2 then (0, [], mk_sim (programmed (sim_mem c) a data) false sim_times)
            else
              match sim_erase op with
              | Some size => (0, [], mk_sim (erased (sim_mem c) (a / size * size) (a / size * size + size)) false sim_times)
              | None => (0, [], c)
              end
        | _ => (0, [], c)
        end
  end.

#[export] Instance sim_nor : SpiNor sim := { wr := sim_wr }.

Lemma addr_bytes_value a : 0 <= a < 2 ^ 24 -> exists a2 a1 a0, addr_bytes false a = [a2; a1; a0] /\ a2 * 65536 + a1 * 256 + a0 = a.
Proof.
  intros Ha. eexists _, _, _. split; [reflexivity|]. change 255 with (Z.ones 8). rewrite !Z.land_ones, !Z.shiftr_div_pow2 by lia.
  change (2 ^ 16) with 65536. change (2 ^ 8) with 256. rewrite (Z.mod_small (a / 65536)) by zdiv. zdiv.
Qed.

Lemma mod_land x b : 0 <= b < 256 -> Z.land x b mod 256 = Z.land (x mod 256) b.
Proof.
  intros Hb. change 256 with (2 ^ 8). rewrite <- !Z.land_ones by lia. rewrite <- !Z.land_assoc. f_equal. apply Z.land_comm.
Qed.

#[export] Program Instance sim_laws : NorLaws sim sim_capacity false sim_erase sim_times := {
  contents c a := sim_mem c a mod 256; wel := sim_wel; pending := sim_busy
}.
Next Obligation. intros c a. apply Z.mod_pos_bound. lia. Qed.
Next Obligation. intros c [|] Hp; eexists _, _; (split; [reflexivity|]); by split_and!. Qed.
Next Obligation.
  intros c. eexists _, _. split; [reflexivity|]. split_and!; [..|done|done|done]; unfold sim_status;
    destruct (sim_wel c); case_bool_decide; (done || lia || by intros E).
Qed.
Next Obligation.
  intros c a n Hp Ha Hn He. unfold sim_capacity in He. exists c. split; [|done]. destruct (decide (n = 0)) as [->|].
  - unfold addr_bytes. simpl. done.
  - destruct (addr_bytes_value a) as (a2 & a1 & a0 & -> & <-); [lia|]. reflexivity.
Qed.
Next Obligation.
  intros c a l Hp Hw Ha He Hl Hpage Hb. unfold sim_capacity in He.
  assert (0 < Z.of_nat (length l)) by (destruct l; [done|simpl; lia]).
  destruct (addr_bytes_value a) as (a2 & a1 & a0 & -> & Ea); [lia|]. eexists _, _. split; [reflexivity|]. split; [done|].
  intros x. rewrite Ea. simpl. unfold programmed. destruct (a <=? x); [|done]. destruct (l !! _) as [b|] eqn:E; [|done].
  apply mod_land. rewrite Forall_lookup in Hb. by eapply Hb.
Qed.
Next Obligation.
  intros c cmd size a Hp Hw Herase Ha. unfold sim_capacity in Ha. destruct (addr_bytes_value a) as (a2 & a1 & a0 & -> & Ea); [lia|].
  assert (cmd = 0x20 \/ cmd = 0xD8) as Hcmd.
  { unfold sim_erase in Herase. destruct (Z.eqb_spec cmd 0x20); [by left|]. destruct (Z.eqb_spec cmd 0xD8); [by right|done]. }
  eexists _, (mk_sim (erased (sim_mem c) (a / size * size) (a / size * size + size)) false sim_times). split; [|split; [done|]].
  - unfold wr, sim_nor, sim_wr. rewrite Ea, Herase. by destruct Hcmd as [-> | ->].
  - intros x. simpl. unfold erased. by destruct (_ && _).
Qed.
Next Obligation.
  intros c Hp Hw. eexists _, _. split; [reflexivity|]. split; [done|]. intros x. simpl. unfold erased. by destruct (_ && _).
Qed.

Definition sim_flash : sfud_flash :=
  mk_flash sim_capacity 1 4096 0x20 false sim_times true [(0x20, 4096); (0xD8, 65536); (0, 0); (0, 0)].

Lemma sim_flash_ok : flash_ok sim_flash sim_erase 4096.
Proof.
  split; [by vm_compute|exists 4096; reflexivity|reflexivity..|done|].
  intros _. split; [done|]. split; [by exists 0x20|]. intros i cmd sz Hi.
  destruct i as [|[|[|[|i]]]]; [| | | |done]; injection Hi as <- <-; [right|right|by left|by left].
  - split_and!; [done|by exists 1|done].
  - split_and!; [done|by exists 16|done].
Qed.
