(* ===== verification/SfudTheorems.v ===== *)
(** * The flash library: the main theorems

    What the driver promises on a chip that keeps its data sheet, and the
    environment kept on such a chip. *)

From S2P Require Import Prelude Nor Sfud SfudSpec NorSim Env.

Section sfud.
Context {C : Type} `{N : SpiNor C} {flash : sfud_flash} {erase : Z -> option Z} {g : Z}.
Context `{L : !NorLaws C (capacity flash) (addr_in_4_byte flash) erase (retry_times flash)}.
Implicit Types (c : C).

(** The bytes of a range. *)
Definition window c (addr n : Z) : list Z := (fun i => contents c (addr + Z.of_nat i)) <$> seq 0 (Z.to_nat n).

Lemma window_programmed (m : Z -> Z) c' addr data : Forall (fun b => 0 <= b < 256) data ->
  (forall x, contents c' x = programmed m addr data x) -> (forall x, addr <= x < addr + Z.of_nat (length data) -> m x = 255) ->
  window c' addr (Z.of_nat (length data)) = data.
Proof.
  intros Hd H Hm. unfold window. rewrite Nat2Z.id. apply list_eq. intros i. rewrite list_lookup_fmap.
  destruct (decide (i < length data)%nat) as [Hi|Hi].
  - rewrite lookup_seq_lt by done. simpl. rewrite H, programmed_erased by done. rewrite (proj2 (Z.leb_le _ _)) by lia.
    replace (Z.to_nat (addr + Z.of_nat i - addr)) with i by lia. by destruct (lookup_lt_is_Some_2 data i Hi) as [b ->].
  - rewrite lookup_seq_ge by lia. by rewrite lookup_ge_None_2 by lia.
Qed.

Lemma sfud_erase_write_ok addr data c : flash_ok flash erase g -> pending c = O -> 0 <= addr -> data <> [] -> addr + Z.of_nat (length data) <= capacity flash ->
  Forall (fun b => 0 <= b < 256) data ->
  exists c', sfud_erase_write flash addr data c = Some (SFUD_SUCCESS, c') /\ pending c' = O /\
    window c' addr (Z.of_nat (length data)) = data /\
    forall x, x < addr / g * g \/ round_up g (addr + Z.of_nat (length data)) <= x -> contents c' x = contents c x.
Proof.
  intros Hok Hp Ha Hne He Hd. pose proof (fo_g _ Hok) as Hg. unfold sfud_erase_write.
  assert (0 < Z.of_nat (length data)) by (destruct data; [done|simpl; lia]).
  destruct (sfud_erase_ok g addr (Z.of_nat (length data)) c Hok Hp) as (c1 & -> & Hp1 & H1); [lia..|]. cbn [mbind option_bind]. simpl Z.eqb. cbv match.
  destruct (sfud_write_ok g addr data c1 Hok Hp1) as (c2 & -> & Hp2 & H2); [lia..|done|]. exists c2. split_and!; [done|done| |].
  - apply (window_programmed (contents c1)); [done|done|]. intros x Hx. rewrite H1. unfold erased. pose proof (round_up_ge g (addr + Z.of_nat (length data)) Hg).
    pose proof (Z.mod_pos_bound addr g Hg). pose proof (Z.div_mod addr g). by rewrite (proj2 (Z.leb_le _ _)), (proj2 (Z.ltb_lt _ _)) by lia.
  - intros x Hx. rewrite H2. unfold programmed. pose proof (round_up_ge g (addr + Z.of_nat (length data)) Hg).
    pose proof (Z.mod_pos_bound addr g Hg). pose proof (Z.div_mod addr g). assert (Hc1 : contents c1 x = contents c x).
    { rewrite H1. unfold erased. destruct (Z.leb_spec (addr / g * g) x), (Z.ltb_spec x (round_up g (addr + Z.of_nat (length data)))); simpl; (done || lia). }
    destruct (Z.leb_spec addr x); [|done]. by rewrite lookup_ge_None_2 by lia.
Qed.

(** C10: The flash library. On a chip that keeps its data sheet, for every range of
    it: reading gives the contents and leaves them; writing clears the bits that
    are 0 in the data, page by page, and touches nothing else; erasing sets all
    bits of the smallest blocks the range touches and of no others, whatever
    sizes of erasers it picks; erasing and writing leaves the data there.  All end
    with the chip ready.  A range that ends behind the chip is refused before
    anything is sent. *)
Theorem sfud_correct : flash_ok flash erase g ->
  (forall c addr n, pending c = O -> 0 <= addr -> 0 <= n -> addr + n <= capacity flash ->
    exists c', sfud_read flash addr n c = (SFUD_SUCCESS, window c addr n, c') /\ pending c' = O /\ forall x, contents c' x = contents c x) /\
  (forall c addr data, pending c = O -> 0 <= addr -> addr + Z.of_nat (length data) <= capacity flash -> Forall (fun b => 0 <= b < 256) data ->
    exists c', sfud_write flash addr data c = Some (SFUD_SUCCESS, c') /\ pending c' = O /\ forall x, contents c' x = programmed (contents c) addr data x) /\
  (forall c addr n, pending c = O -> 0 <= addr -> 0 < n -> addr + n <= capacity flash ->
    exists c', sfud_erase flash addr n c = Some (SFUD_SUCCESS, c') /\ pending c' = O /\
      forall x, contents c' x = erased (contents c) (addr / g * g) (round_up g (addr + n)) x) /\
  (forall c addr data, pending c = O -> 0 <= addr -> data <> [] -> addr + Z.of_nat (length data) <= capacity flash -> Forall (fun b => 0 <= b < 256) data ->
    exists c', sfud_erase_write flash addr data c = Some (SFUD_SUCCESS, c') /\ pending c' = O /\
      window c' addr (Z.of_nat (length data)) = data /\
      forall x, x < addr / g * g \/ round_up g (addr + Z.of_nat (length data)) <= x -> contents c' x = contents c x) /\
  (forall c addr data, capacity flash < u32 (addr + Z.of_nat (length data)) ->
    sfud_read flash addr (Z.of_nat (length data)) c = (SFUD_ERR_ADDR_OUT_OF_BOUND, [], c) /\
    sfud_erase flash addr (Z.of_nat (length data)) c = Some (SFUD_ERR_ADDR_OUT_OF_BOUND, c) /\
    sfud_write flash addr data c = Some (SFUD_ERR_ADDR_OUT_OF_BOUND, c)).
Proof.
  intros Hok. pose proof (fo_cap _ Hok). split_and!.
  - intros c addr n Hp Ha Hn He. destruct (sfud_read_ok addr n c Hp Ha Hn He) as (c' & E & H1 & H2); [lia|]. by exists c'.
  - intros. by apply (sfud_write_ok g).
  - intros. by apply sfud_erase_ok.
  - intros. by apply sfud_erase_write_ok.
  - intros c addr data Ho. apply sfud_out_of_range; [done|done|apply Hok].
Qed.
End sfud.

Theorem sfud_correct_witness (c := mk_sim (fun _ => 0) false 0) : exists c',
  sfud_erase_write sim_flash 0x1D3F0 [1; 2; 3] c = Some (SFUD_SUCCESS, c') /\ window (flash := sim_flash) c' 0x1D3F0 3 = [1; 2; 3] /\ contents (NorLaws := sim_laws) c' 0x1E000 = 0.
Proof.
  destruct (sfud_correct (flash := sim_flash) sim_flash_ok) as (_ & _ & _ & H & _).
  destruct (H c 0x1D3F0 [1; 2; 3]) as (c' & E & _ & Hw & Hc); [done|done|done|done|repeat constructor; done|].
  exists c'. split; [exact E|]. split; [exact Hw|]. rewrite Hc; [done|]. right. vm_compute. congruence.
Defined.

(** ** The environment on a chip *)

Section env.
Context {C : Type} `{N : SpiNor C} {flash : sfud_flash} {erase : Z -> option Z} {g : Z}.
Context `{L : !NorLaws C (capacity flash) (addr_in_4_byte flash) erase (retry_times flash)}.

(** env.c does not look at the results. *)
Definition chip_read (c : C) (addr n : Z) : list Z := (sfud_read flash addr n c).1.2.
Definition chip_erase (c : C) (addr n : Z) : C := default c (snd <$> sfud_erase flash addr n c).
Definition chip_write (c : C) (addr n : Z) (buf : list Z) : C := default c (snd <$> sfud_write flash addr buf c).

Lemma partition_reads_back c buf : flash_ok flash erase g -> 0x1F000 <= capacity flash -> pending c = O -> length buf = Z.to_nat 0x2000 ->
  Forall (fun b => 0 <= b < 256) buf -> chip_read (chip_write (chip_erase c 0x1D000 0x2000) 0x1D000 0x2000 buf) 0x1D000 0x2000 = buf.
Proof.
  intros Hok Hcap Hp Hl Hb. unfold chip_erase, chip_write, chip_read. pose proof (fo_cap _ Hok). pose proof (fo_g _ Hok) as Hg.
  destruct (sfud_erase_ok g 0x1D000 0x2000 c Hok Hp) as (c1 & E1 & Hp1 & H1); [lia..|]. rewrite E1. change (default c _) with c1.
  destruct (sfud_write_ok g 0x1D000 buf c1 Hok Hp1) as (c2 & E2 & Hp2 & H2); [lia..|done|]. rewrite E2. change (default c1 _) with c2.
  destruct (sfud_read_ok 0x1D000 0x2000 c2 Hp2) as (c3 & -> & _); [lia..|]. cbn [fst snd]. change (fmap _ _) with (window c2 0x1D000 0x2000).
  replace 0x2000 with (Z.of_nat (length buf)) by lia. apply (window_programmed (contents c1)); [done|done|]. intros x Hx.
  rewrite H1. unfold erased. pose proof (round_up_ge g (0x1D000 + 0x2000) Hg). pose proof (Z.mod_pos_bound 0x1D000 g Hg). pose proof (Z.div_mod 0x1D000 g).
  by rewrite (proj2 (Z.leb_le _ _)), (proj2 (Z.ltb_lt _ _)) by lia.
Qed.

(** C19: The environment survives a reset. What [env_save] writes through the flash
    library, [env_init] finds after a reset: the variables in their order, as many
    from the front as the partition holds, and all of them when they fit, with the
    free and count fields right again.  When the saved strings fill the partition
    to its last byte, the end test of [env_init] reads past the buffer ([None]). *)
Theorem env_survives_reset e c budget (mapped : C -> Z -> Z -> list Z) : flash_ok flash erase g -> 0x1F000 <= capacity flash -> pending c = O ->
  env_ok e -> length_ e = board_get_env_length -> (length (head_ e) <= budget)%nat -> Forall (Forall (fun b => 0 <= b < 256)) (head_ e) ->
  let nodes := kept (Z.to_nat board_get_env_length) 4 (head_ e) in
  env_init C chip_read mapped true true budget (env_save C chip_erase chip_write true true e c) env_reset =
  (if 4 + size nodes <? board_get_env_length then
     Some {| flag := ENV_ENABLE; length_ := board_get_env_length; free := board_get_env_length - 4 - size nodes;
             count := Z.of_nat (length nodes); head_ := nodes |}
   else None) /\
  nodes `prefix_of` head_ e /\
  (4 + size (head_ e) <= board_get_env_length -> nodes = head_ e).
Proof.
  intros Hok Hcap Hp He Hl Hb Hbytes.
  apply (env_save_init chip_read chip_erase chip_write mapped (fun c => pending c = O)); [|done..].
  intros f buf Hf Hlen Hbuf. exact (partition_reads_back f buf Hok Hcap Hf Hlen Hbuf).
Qed.
End env.

Theorem env_survives_reset_witness (c := mk_sim (fun _ => 0) false 0) :
  env_init sim (chip_read (flash := sim_flash)) (fun _ _ _ => []) true true 2
    (env_save sim (chip_erase (flash := sim_flash)) (chip_write (flash := sim_flash)) true true demo_env c) env_reset = Some demo_env.
Proof.
  destruct (env_survives_reset (flash := sim_flash) demo_env c 2 (fun _ _ _ => []) sim_flash_ok) as (H & _ & Hall);
    [done|done|exact demo_env_ok|done|simpl; lia|repeat constructor; done|].
  rewrite H, Hall by (vm_compute; discriminate). reflexivity.
Defined.
