(* ===== verification/Flash.v ===== *)
(** * Writing images: board/tl-wr810n_v2/flash/flash.c

    The thread that writes uploaded files to the flash, as turns on the status, the
    chip and the file system: what rt_event_recv hands it chooses the region and
    the file, the region is erased, the file is copied.  It calls the flash library
    (Sfud) and the POSIX layer (Dfs).  [None] is a step without meaning in C. *)

From S2P Require Import Prelude Vfs DfsPath Dfs Nor Sfud.

Definition BOARD_FLASH_EVENT_FIRMWARE : Z := 0.
Definition BOARD_FLASH_EVENT_UBOOT : Z := 1.
Definition BOARD_FLASH_EVENT_ART : Z := 2.
Definition BOARD_FLASH_EVENT_FULL : Z := 3.

(** Start and length of each region. *)
Record layout := mk_layout { firmware : Z * Z; uboot : Z * Z; art : Z * Z; full_chip : Z * Z }.

Definition board_flash_layout (flash_size : Z) : option layout :=
  if flash_size =? 16 then Some (mk_layout (0x20000, 0xFD0000) (0x00000, 0x20000) (0xFF0000, 0x10000) (0x0, 0x1000000))
  else if flash_size =? 8 then Some (mk_layout (0x20000, 0x7D0000) (0x00000, 0x20000) (0x7F0000, 0x10000) (0x0, 0x800000))
  else if flash_size =? 4 then Some (mk_layout (0x20000, 0x3D0000) (0x00000, 0x20000) (0x3F0000, 0x10000) (0x0, 0x400000))
  else if flash_size =? 2 then Some (mk_layout (0x20000, 0x1D0000) (0x00000, 0x20000) (0x1F0000, 0x10000) (0x0, 0x200000))
  else None.

(** [_romfs_flash] after board_flash_fs_init: address and size of firmware.bin,
    uboot.bin, art.bin and full.bin in the mapped flash. *)
Definition board_flash_map (flash_size : Z) : option (list (Z * Z)) :=
  if flash_size =? 16 then Some [(0xBF020000, 0xFD0000); (0xBF000000, 0x20000); (0xBFFF0000, 0x10000); (0xBF000000, 0x1000000)]
  else if flash_size =? 8 then Some [(0xBF020000, 0x7D0000); (0xBF000000, 0x20000); (0xBF7F0000, 0x10000); (0xBF000000, 0x800000)]
  else if flash_size =? 4 then Some [(0xBF020000, 0x3D0000); (0xBF000000, 0x20000); (0xBF3F0000, 0x10000); (0xBF000000, 0x400000)]
  else if flash_size =? 2 then Some [(0xBF020000, 0x1D0000); (0xBF000000, 0x20000); (0xBF1F0000, 0x10000); (0xBF000000, 0x200000)]
  else None.

(** "/tmp/firmware.bin", "/tmp/uboot.bin", "/tmp/art.bin", "/tmp/full.bin" *)
Definition tmp_dir : list Z := [47; 116; 109; 112].
Definition firmware_bin : list Z := [102; 105; 114; 109; 119; 97; 114; 101; 46; 98; 105; 110].
Definition uboot_bin : list Z := [117; 98; 111; 111; 116; 46; 98; 105; 110].
Definition art_bin : list Z := [97; 114; 116; 46; 98; 105; 110].
Definition full_bin : list Z := [102; 117; 108; 108; 46; 98; 105; 110].

(** The first event of the set, the others are dropped. *)
Definition select_region (flag : Z) (l : layout) : option (Z * Z * list Z) :=
  if negb (Z.land flag (2 ^ BOARD_FLASH_EVENT_FIRMWARE) =? 0) then Some (firmware l, firmware_bin)
  else if negb (Z.land flag (2 ^ BOARD_FLASH_EVENT_UBOOT) =? 0) then Some (uboot l, uboot_bin)
  else if negb (Z.land flag (2 ^ BOARD_FLASH_EVENT_ART) =? 0) then Some (art l, art_bin)
  else if negb (Z.land flag (2 ^ BOARD_FLASH_EVENT_FULL) =? 0) then Some (full_chip l, full_bin)
  else None.

Section flash.
Context {W D C : Type} `{SpiNor C}.
Variable flash : sfud_flash.

Record board := mk_board { board_flash_status : Z; sfud_dev : C; vfs : dfs W D }.

(** What the notifications do to the status, and the event they send. *)
Definition board_flash_notisfy (event : Z) (b : board) : Z * board :=
  (2 ^ event, mk_board (if board_flash_status b >? 0 then 0 else board_flash_status b) (sfud_dev b) (vfs b)).
Definition board_flash_error_notisfy (b : board) : board := mk_board 404 (sfud_dev b) (vfs b).

(** [((write_off - flash_start)*100 / flash_length) / 2] *)
Definition progress (off len : Z) : Z := Z.quot (Z.quot (swrap 32 (off * 100)) len) 2.

(** [off] is [write_off - flash_start]; the result of sfud_erase is dropped. *)
Fixpoint flash_erase_loop (fuel : nat) (start len off status : Z) (c : C) : option (Z * C) :=
  match fuel with
  | O => None
  | S fuel =>
      if start + off <? start + len then
        '(_, c) ← sfud_erase flash (u32 (start + off)) 0x1000 c;
        flash_erase_loop fuel start len (off + 0x1000) (progress off len) c
      else Some (status, c)
  end.

Fixpoint flash_write_loop (fuel : nat) (fd start len off status : Z) (c : C) (s : dfs W D) : option (Z * C * dfs W D) :=
  match fuel with
  | O => None
  | S fuel =>
      '(read_length, buffer, s) ← read fd 0x1000 s;
      if read_length <=? 0 then Some (status, c, s)
      else
        data ← mapM id buffer;
        '(_, c) ← sfud_write flash (u32 (start + off)) data c;
        let off := off + read_length in
        flash_write_loop fuel fd start len off (progress off len + 50) c s
  end.

(** [mem_ok]: rt_malloc has memory for the buffer.  [fuel] bounds the reads. *)
Definition board_flash_turn (fuel : nat) (mem_ok : bool) (l : layout) (flag : Z) (b : board) : option board :=
  match select_region flag l with
  | None => Some b
  | Some (start, len, file) =>
      if mem_ok then
        '(fd, s) ← open (tmp_dir ++ 47 :: file) 0 (vfs b);
        if fd <? 0 then Some (mk_board (-1) (sfud_dev b) s)
        else
          '(status, c) ← flash_erase_loop (S (Z.to_nat (len / 0x1000 + 1))) start len 0 0 (sfud_dev b);
          '(_, c, s) ← flash_write_loop fuel fd start len 0 status c s;
          '(_, s) ← close fd s;
          Some (mk_board 100 c s)
      else Some (mk_board 0 (sfud_dev b) (vfs b))
  end.

(** The thread, on the sets of events it receives; [present]: there is a chip. *)
Definition board_flash_thread_entry (fuel : nat) (present : bool) (flags : list (bool * Z)) (b : board) : option board :=
  let fail b := Some (mk_board (-1) (sfud_dev b) (vfs b)) in
  if negb present then fail b
  else
    match board_flash_layout (capacity flash / 1024 / 1024) with
    | None => fail b
    | Some l => foldl (fun b '(mem_ok, flag) => b ← b; board_flash_turn fuel mem_ok l flag b) (Some b) flags
    end.
End flash.
Arguments board : clear implicits.
