(* ===== verification/FlashSpec.v ===== *)
(** * Writing images: theorems

    After a turn of the flash thread the region chosen by the event holds the
    uploaded file, the rest of the region is erased, and the rest of the chip is as
    before. *)

From S2P Require Import Prelude Alloc Vfs FileSystem Ramfs RamfsSafe RamfsSpec DfsPath Dfs DfsSpec Memheap MemheapSpec Nor Sfud SfudSpec NorSim SfudTheorems Flash.

(** The layouts, and what the files of the mapped flash show. *)
Definition regions (l : layout) : list (Z * Z) := [firmware l; uboot l; art l; full_chip l].

Lemma board_flash_layout_ok n l : board_flash_layout n = Some l ->
  Forall (fun '(start, len) => 0 <= start /\ 0 < len /\ (0x1000 | start) /\ (0x1000 | len) /\ start + len <= n * 2 ^ 20) (regions l) /\ n <= 16 /\
  board_flash_map n = Some ((fun '(start, len) => (0xBF000000 + start, len)) <$> regions l).
Proof.
  assert (Hdiv : forall x, x mod 0x1000 = 0 -> (0x1000 | x)) by (intros x Hx; by apply Z.mod_divide).
  unfold board_flash_layout, board_flash_map. repeat case_match; zify_bool; intros [= <-]; subst n; (split; [|split; [lia|reflexivity]]);
    repeat (constructor; [split_and!; (by apply Hdiv || lia)|]); constructor.
Qed.

Lemma select_region_in flag l start len nm : select_region flag l = Some (start, len, nm) -> (start, len) ∈ regions l.
Proof. unfold select_region, regions. destruct l as [a b' u f]. repeat case_match; intros [= <- <-]; simplify_eq/=; set_solver. Qed.

Section flash.
Context {C : Type} `{N : SpiNor C} {flash : sfud_flash} {erase : Z -> option Z} {g : Z}.
Context `{L : !NorLaws C (capacity flash) (addr_in_4_byte flash) erase (retry_times flash)}.
Hypothesis Hok : flash_ok flash erase g.
(** The smallest block fits the steps of the thread. *)
Hypothesis Hg : (g | 0x1000).
Implicit Types (c : C).

Lemma aligned_block off : (0x1000 | off) -> off / g * g = off /\ round_up g (off + 0x1000) = off + 0x1000.
Proof.
  intros Ho. pose proof (fo_g _ Hok) as Hpos. assert (g | off) as Hoff by by apply (Z.divide_trans _ 0x1000). split.
  - destruct Hoff as [q ->]. by rewrite Z.div_mul by lia.
  - apply round_up_multiple; [done|]. by apply Z.divide_add_r.
Qed.

Lemma flash_erase_loop_ok fuel start len off status c : 0 <= start -> start + len <= capacity flash -> (0x1000 | start) -> (0x1000 | len) -> (0x1000 | off) ->
  0 <= off <= len -> (Z.to_nat ((len - off) / 0x1000) < fuel)%nat -> pending c = O ->
  exists status' c', flash_erase_loop flash fuel start len off status c = Some (status', c') /\ pending c' = O /\
    forall x, contents c' x = erased (contents c) (start + off) (start + len) x.
Proof using Hg Hok.
  intros Hs He Ds Dl. pose proof (fo_cap _ Hok). revert off status c. induction fuel as [|fuel IH]; intros off status c Do Ho Hf Hp; [lia|].
  cbn [flash_erase_loop]. destruct (Z.ltb_spec (start + off) (start + len)) as [Hlt|Hge].
  - destruct Dl as [ql Eql], Do as [qo Eqo], Ds as [qs Eqs]. rewrite (wrap_small 32 (start + off)) by lia.
    destruct (aligned_block (start + off)) as [A1 A2]; [exists (qs + qo); lia|].
    destruct (sfud_erase_ok g (start + off) 0x1000 c Hok Hp) as (c1 & -> & Hp1 & H1); [lia|lia|lia|]. cbn [mbind option_bind]. rewrite A1, A2 in H1.
    destruct (IH (off + 0x1000) (progress off len) c1) as (st & c2 & -> & Hp2 & H2); [exists (qo + 1); lia|lia| |done|].
    { replace (len - off) with ((ql - qo) * 0x1000) in Hf by lia. replace (len - (off + 0x1000)) with ((ql - qo - 1) * 0x1000) by lia.
      rewrite Z.div_mul in * by lia. lia. }
    exists st, c2. split_and!; [done|done|]. intros x. rewrite H2. rewrite (erased_ext _ _ _ _ _ (H1 x)). rewrite Z.add_assoc. apply erased_app. lia.
  - exists status, c. split_and!; [done|done|]. intros x. unfold erased. assert (off = len) as -> by lia.
    destruct (Z.leb_spec (start + len) x), (Z.ltb_spec x (start + len)); simpl; (lia || done).
Qed.

(** The region of an event lies in the chip. *)
Lemma region_ok l flag start len nm : board_flash_layout (capacity flash / 1024 / 1024) = Some l -> select_region flag l = Some (start, len, nm) ->
  0 <= start /\ 0 < len /\ (0x1000 | start) /\ (0x1000 | len) /\ start + len <= capacity flash.
Proof using Hok Hg.
  intros Hl Hsel. destruct (board_flash_layout_ok _ _ Hl) as (Hall & _). rewrite Forall_forall in Hall.
  destruct (Hall _ (select_region_in _ _ _ _ _ Hsel)) as (? & ? & ? & ? & ?). split_and!; [done..|].
  rewrite Z.div_div in * by lia. pose proof (Z.mul_div_le (capacity flash) (1024 * 1024)). lia.
Qed.

(** The uploads are in mount [k] at "/tmp". *)
Context {W D : Type} {fsys : file_system W D} {HS : FileSystem fsys}.
Variable k : nat.
Abbreviation holds := (posix_holds fsys k tmp_dir).
Implicit Types (s : dfs W D) (F : file_map) (O : open_files).

Lemma flash_write_loop_ok fuel fd start len off status c s F O nm b : holds s F O -> O !! fd = Some (nm, Z.of_nat off) -> F !! nm = Some b ->
  (off <= length b)%nat -> 0 <= start -> start + Z.of_nat (length b) <= capacity flash -> Forall (fun x => 0 <= x < 256) b ->
  (length b - off < fuel)%nat -> pending c = Datatypes.O ->
  exists st c' s', flash_write_loop flash fuel fd start len (Z.of_nat off) status c s = Some (st, c', s') /\ pending c' = Datatypes.O /\
    (forall x, contents c' x = programmed (contents c) (start + Z.of_nat off) (drop off b) x) /\
    holds s' F (<[fd := (nm, Z.of_nat (length b))]> O) /\ frame fsys k s s'.
Proof using Hok HS.
  intros Hh HO HF Hoff Hs He Hb. pose proof (fo_cap _ Hok). revert off status c s O Hh HO Hoff.
  induction fuel as [|fuel IH]; intros off status c s O Hh HO Hoff Hf Hp; [lia|]. cbn [flash_write_loop].
  destruct (read_ok fsys k tmp_dir s F O fd nm (Z.of_nat off) 0x1000 Hh HO) as (b' & s1 & HF' & E & Hh1 & Hfr); [lia|]. simplify_eq.
  rewrite Nat2Z.id in *. set (bs := take (Z.to_nat 0x1000) (drop off b)) in *. rewrite E. cbn [mbind option_bind].
  assert (Hbs : length bs = Nat.min (Z.to_nat 0x1000) (length b - off)) by (unfold bs; by rewrite length_take, length_drop).
  destruct (Z.leb_spec (Z.of_nat (length bs)) 0) as [Hz|Hpos].
  - assert (length b = off) as Elen by lia. rewrite Z.add_0_r in * || idtac. exists status, c, s1. split_and!; [done|done| | |done].
    + intros x. rewrite drop_ge by lia. unfold programmed. by destruct (_ <=? _).
    + replace (Z.of_nat (length b)) with (Z.of_nat off + Z.of_nat (length bs)) by lia. done.
  - rewrite mapM_fmap_Some by done. cbn [mbind option_bind]. rewrite (wrap_small 32 (start + Z.of_nat off)) by lia.
    assert (Hbb : Forall (fun x => 0 <= x < 256) bs) by (apply Forall_take, Forall_drop, Hb).
    destruct (sfud_write_ok g (start + Z.of_nat off) bs c Hok Hp) as (c1 & -> & Hp1 & H1); [lia|lia|done|]. cbn [mbind option_bind].
    rewrite <- Nat2Z.inj_add in *.
    destruct (IH (off + length bs)%nat (progress (Z.of_nat (off + length bs)) len + 50) c1 s1 _ Hh1) as (st & c2 & s2 & -> & Hp2 & H2 & Hh2 & Hfr2);
      [by rewrite lookup_insert_eq|lia|lia|done|].
    exists st, c2, s2. split_and!; [done|done| | |by eapply frame_trans].
    + intros x. rewrite H2, (programmed_ext _ _ _ _ _ (H1 x)). rewrite Nat2Z.inj_add, Z.add_assoc, programmed_app.
      f_equal. rewrite <- drop_drop. unfold bs at 1. rewrite Hbs. unfold bs. destruct (decide (Z.to_nat 0x1000 <= length b - off)%nat).
      * rewrite Nat.min_l by done. apply take_drop.
      * rewrite Nat.min_r by lia. rewrite take_ge, (drop_ge (drop off b)) by (rewrite length_drop; lia). apply app_nil_r.
    + by rewrite insert_insert_eq in Hh2.
Qed.

Lemma board_flash_turn_ok fuel l flag start len nm st c s F O b : select_region flag l = Some (start, len, nm) ->
  0 <= start /\ 0 < len /\ (0x1000 | start) /\ (0x1000 | len) /\ start + len <= capacity flash ->
  holds s F O -> names fsys k tmp_dir s (tmp_dir ++ 47 :: nm) nm -> F !! nm = Some b -> ~ full s -> (forall fd p, O !! fd <> Some (nm, p)) ->
  start + Z.of_nat (length b) <= capacity flash -> Forall (fun x => 0 <= x < 256) b -> (length b < fuel)%nat -> pending c = Datatypes.O ->
  exists c' s', board_flash_turn flash fuel true l flag (mk_board st c s) = Some (mk_board 100 c' s') /\ pending c' = Datatypes.O /\
    (forall x, contents c' x = programmed (erased (contents c) start (start + len)) start b x) /\ holds s' F O /\ frame fsys k s s' /\ ~ full s'.
Proof using Hg Hok HS.
  intros Hsel (R1 & R2 & R3 & R4 & R5) Hh Hn HF Hfull Hno He Hb Hfuel Hp. unfold board_flash_turn. rewrite Hsel. cbn [vfs sfud_dev].
  destruct (open_ok fsys k tmp_dir s F O _ nm 0 Hh Hn) as (fd & s1 & -> & Hfr1 & Hcase); [lia|done|]. cbn [mbind option_bind].
  destruct Hcase as [(_ & _ & [[? _]|[[(fd' & p & HO) _]|[Hneg Hop]]])|(F' & p & Hfd & HO & _ & Hop & Hpos & Hh1)];
    [done|by apply Hno in HO|apply fs_opens_read in Hop as [_ Hop]; rewrite HF in Hop; lia|].
  rewrite (proj2 (Z.ltb_ge fd 0)) by done. apply fs_opens_read in Hop as [-> _].
  rewrite Hpos in Hh1 by done.
  destruct (flash_erase_loop_ok (Datatypes.S (Z.to_nat (len / 0x1000 + 1))) start len 0 0 c) as (st1 & c1 & -> & Hp1 & H1); try done; [by exists 0|lia| |].
  { rewrite Z.sub_0_r. pose proof (Z.div_pos len 0x1000). lia. }
  cbn [mbind option_bind]. rewrite Z.add_0_r in H1.
  destruct (flash_write_loop_ok fuel fd start len 0 st1 c1 s1 F _ nm b Hh1) as (st2 & c2 & s2 & E2 & Hp2 & H2 & Hh2 & Hfr2); try done; [by rewrite lookup_insert_eq|lia|lia|].
  change (Z.of_nat 0) with 0 in E2. rewrite E2. cbn [mbind option_bind]. destruct (close_ok fsys k tmp_dir s2 F _ fd nm (Z.of_nat (length b)) Hh2) as (s3 & -> & Hh3 & Hfr3 & Hfull3); [by rewrite lookup_insert_eq|].
  cbn [mbind option_bind]. exists c2, s3. split_and!; [done|done| | | |done].
  - intros x. rewrite H2. simpl. rewrite Z.add_0_r, drop_0. by apply programmed_ext.
  - rewrite insert_insert_eq, delete_insert_id in Hh3; done.
  - apply (frame_trans fsys k s s1); [done|]. by apply (frame_trans fsys k s1 s2).
Qed.

(** What the thread makes of one event. *)
Lemma board_flash_written fuel l flag start len nm st c s F O b :
  board_flash_layout (capacity flash / 1024 / 1024) = Some l -> select_region flag l = Some (start, len, nm) ->
  pending c = Datatypes.O -> holds s F O -> names fsys k tmp_dir s (tmp_dir ++ 47 :: nm) nm ->
  F !! nm = Some b -> ~ full s -> (forall fd p, O !! fd <> Some (nm, p)) ->
  Z.of_nat (length b) <= len -> Forall (fun x => 0 <= x < 256) b -> (length b < fuel)%nat ->
  exists c' s', board_flash_thread_entry flash fuel true [(true, flag)] (mk_board st c s) = Some (mk_board 100 c' s') /\ pending c' = Datatypes.O /\
    window c' start (Z.of_nat (length b)) = b /\
    (forall x, start + Z.of_nat (length b) <= x < start + len -> contents c' x = 255) /\
    (forall x, x < start \/ start + len <= x -> contents c' x = contents c x) /\
    holds s' F O /\ frame fsys k s s' /\ ~ full s'.
Proof using Hok Hg HS.
  intros Hl Hsel Hp Hh Hn HF Hfull Hno Hlen Hb Hfuel. pose proof (region_ok l flag start len nm Hl Hsel) as Hr.
  unfold board_flash_thread_entry. simpl negb. cbv match. rewrite Hl. cbn [foldl mbind option_bind].
  destruct (board_flash_turn_ok fuel l flag start len nm st c s F O b Hsel Hr) as (c' & s' & -> & Hp' & Hc & Hh' & Hfr & Hfull'); try done; [lia|].
  exists c', s'. split_and!; [done|done| | | |done|done|done].
  - apply (window_programmed (erased (contents c) start (start + len))); [done|done|]. intros x Hx. unfold erased.
    by rewrite (proj2 (Z.leb_le _ _)), (proj2 (Z.ltb_lt _ _)) by lia.
  - intros x Hx. rewrite Hc. unfold programmed, erased. rewrite (proj2 (Z.leb_le start x)), (proj2 (Z.ltb_lt x _)) by lia.
    by rewrite lookup_ge_None_2 by lia.
  - intros x Hx. rewrite Hc. unfold programmed, erased. destruct (Z.leb_spec start x); [|done].
    rewrite lookup_ge_None_2 by lia. by rewrite (proj2 (Z.ltb_ge x _)) by lia.
Qed.

(** Without the file nothing is written. *)
Lemma board_flash_turn_missing fuel l flag start len nm st c s F O : select_region flag l = Some (start, len, nm) ->
  holds s F O -> names fsys k tmp_dir s (tmp_dir ++ 47 :: nm) nm -> F !! nm = None ->
  exists s', board_flash_turn flash fuel true l flag (mk_board st c s) = Some (mk_board (-1) c s') /\ holds s' F O /\ frame fsys k s s'.
Proof using HS.
  intros Hsel Hh Hn HF. unfold board_flash_turn. rewrite Hsel. cbn [vfs sfud_dev].
  destruct (open_ok fsys k tmp_dir s F O _ nm 0 Hh Hn) as (fd & s1 & -> & Hfr1 & Hcase); [lia|done|]. cbn [mbind option_bind].
  destruct Hcase as [(-> & Hh1 & _)|(F' & p & _ & _ & _ & Hop & _)].
  - simpl. by exists s1.
  - apply fs_opens_read in Hop as [_ Hop]. rewrite HF in Hop. done.
Qed.
End flash.

(** C7: Writing an image. For the four sizes of chips and each event, the turn
    of the flash thread opens the uploaded file, erases the region, copies the
    file and ends with status 100: the region starts with the bytes of the file
    and is erased behind them, all other bytes of the chip are as before, the file
    system has the same files and descriptors.  The regions lie in the chip, and
    the mapped files show the same regions.  A missing file gives status -1 and
    leaves the chip alone. *)
Theorem board_flash_correct {C : Type} `{N : SpiNor C} (flash : sfud_flash) erase g `{L : !NorLaws C (capacity flash) (addr_in_4_byte flash) erase (retry_times flash)}
  {W D} (fsys : file_system W D) {HS : FileSystem fsys} k fuel l flag start len nm st c s F O :
  flash_ok flash erase g -> (g | 0x1000) -> board_flash_layout (capacity flash / 1024 / 1024) = Some l -> select_region flag l = Some (start, len, nm) ->
  pending c = Datatypes.O -> posix_holds fsys k tmp_dir s F O -> names fsys k tmp_dir s (tmp_dir ++ 47 :: nm) nm ->
  (forall b, F !! nm = Some b -> ~ full s -> (forall fd p, O !! fd <> Some (nm, p)) ->
     Z.of_nat (length b) <= len -> Forall (fun x => 0 <= x < 256) b -> (length b < fuel)%nat ->
     exists c' s', board_flash_thread_entry flash fuel true [(true, flag)] (mk_board st c s) = Some (mk_board 100 c' s') /\ pending c' = Datatypes.O /\
       window c' start (Z.of_nat (length b)) = b /\
       (forall x, start + Z.of_nat (length b) <= x < start + len -> contents c' x = 255) /\
       (forall x, x < start \/ start + len <= x -> contents c' x = contents c x) /\
       posix_holds fsys k tmp_dir s' F O /\ frame fsys k s s' /\ ~ full s') /\
  (F !! nm = None -> exists s', board_flash_thread_entry flash fuel true [(true, flag)] (mk_board st c s) = Some (mk_board (-1) c s') /\
     posix_holds fsys k tmp_dir s' F O /\ frame fsys k s s') /\
  start + len <= capacity flash /\
  board_flash_map (capacity flash / 1024 / 1024) = Some ((fun '(start, len) => (0xBF000000 + start, len)) <$> regions l).
Proof.
  intros Hok Hg Hl Hsel Hp Hh Hn. pose proof (region_ok Hok Hg l flag start len nm Hl Hsel) as Hr.
  assert (E : forall b0 : board W D C, board_flash_thread_entry flash fuel true [(true, flag)] b0 = board_flash_turn flash fuel true l flag b0)
    by (intros b0; unfold board_flash_thread_entry; simpl negb; cbv match; by rewrite Hl).
  split_and!; [|intros HF|apply Hr|by destruct (board_flash_layout_ok _ _ Hl) as (_ & _ & ?)].
  - intros b HF Hfull Hno Hlen Hb Hfuel. by apply (board_flash_written Hok Hg (fsys := fsys) k fuel l flag start len nm).
  - rewrite E. by apply (board_flash_turn_missing (fsys := fsys) k fuel l flag start len nm st c s F O).
Qed.

(** ** A file and a chip *)

(** "/tmp/art.bin" with three bytes. *)
Definition demo_run : option system :=
  r ← new_ramfs; '(fd, s) ← open (tmp ++ 47 :: art_bin) O_CREAT (tmp_system r); '(n, s) ← write fd [1; 2; 3] s; '(_, s) ← close fd s;
  if (fd =? 3) && (n =? 3) then Some s else None.

Lemma art_names s : filesystem_table s = [None; Some (mk_fs tmp (ramfs_ops (S := mem))); None; None] -> working_directory s = [47] ->
  names ram_sys 1 tmp s (tmp ++ 47 :: art_bin) art_bin.
Proof.
  intros Ht Hw. assert (names ram_sys 1 tmp (tmp_system (mk_ramfs (mk_mem 0 (mk_heap 0 0 0 0 0 0) ∅ (fun _ => None)) [] ∅)) (tmp ++ 47 :: art_bin) art_bin) as (Hp & st & H1 & H2 & H3 & H4).
  { apply tmp_names; split_and!; (done || (repeat constructor; done)). }
  split; [done|]. exists st. unfold dfs_filesystem_lookup in *. rewrite Ht, Hw. done.
Qed.

Lemma demo_run_ok : exists s, demo_run = Some s /\ posix_holds ram_sys 1 tmp s {[art_bin := [1; 2; 3]]} ∅ /\ ~ full s /\
  names ram_sys 1 tmp s (tmp ++ 47 :: art_bin) art_bin.
Proof.
  assert (Hv : bool_decide (is_Some demo_run) = true) by by vm_compute.
  assert (Hf : (s ← demo_run; Some (length (fds s))) = Some 4%nat) by by vm_compute.
  apply bool_decide_eq_true in Hv as [s Hs]. rewrite Hs in Hf. cbn [mbind option_bind] in Hf. injection Hf as Hf. exists s. split; [done|].
  revert Hs. unfold demo_run, new_ramfs. destruct (dfs_ramfs_create_ok 4096 1000 (fun _ => None)) as (r & -> & Hr); [lia|lia|lia|].
  cbn [mbind option_bind]. pose proof (tmp_system_ok r Hr) as H0.
  destruct (open_ok ram_sys 1 tmp _ _ _ _ art_bin O_CREAT H0 (art_names (tmp_system r) eq_refl eq_refl)) as (fd & s1 & -> & (T1 & W1 & _ & _) & Hc); [done|done|].
  cbn [mbind option_bind]. destruct Hc as [(-> & _)|(F' & p & _ & _ & _ & Hop & Hp & H1)].
  { destruct (write (-1) [1; 2; 3] s1) as [[n s2]|]; [|done]. cbn [mbind option_bind]. by destruct (close (-1) s2) as [[? ?]|]. }
  destruct Hop as [[? _]|[_ ->]]; [done|]. rewrite Hp in H1 by done.
  destruct (write_ok ram_sys 1 tmp s1 _ _ fd art_bin 0 [1; 2; 3] H1) as (b & n & s2 & Hb & -> & (T2 & W2 & _ & _) & Hn); [by rewrite lookup_insert_eq|done|].
  cbn [mbind option_bind]. rewrite lookup_insert_eq in Hb. injection Hb as <-.
  destruct Hn as [(-> & H2)|(-> & H2)].
  { destruct (close fd s2) as [[? ?]|]; [|done]. cbn [mbind option_bind]. rewrite andb_false_r. done. }
  destruct (close_ok ram_sys 1 tmp s2 _ _ fd art_bin (0 + Z.of_nat 3) H2) as (s3 & -> & H3 & (T3 & W3 & _ & _) & _); [by rewrite lookup_insert_eq|].
  cbn [mbind option_bind]. destruct (_ && _); [|done]. intros [= <-].
  assert (Hlen : length (fds s3) <> DFS_FD_MAX) by (rewrite Hf; done). split_and!; [|by intros [? _]|].
  - rewrite insert_insert_eq in H3. rewrite insert_insert_eq, delete_insert_id in H3 by done. exact H3.
  - apply art_names; [by rewrite T3, T2, T1|by rewrite W3, W2, W1].
Qed.

(** The event of the radio data, on a chip full of zeros. *)
Theorem board_flash_correct_witness (c := mk_sim (fun _ => 0) false 0) : exists s c' s', demo_run = Some s /\
  board_flash_thread_entry sim_flash 4 true [(true, 4)] (mk_board 0 c s) = Some (mk_board 100 c' s') /\
  window (flash := sim_flash) c' 0xFF0000 3 = [1; 2; 3] /\ contents (NorLaws := sim_laws) c' 0xFF0003 = 255 /\
  contents (NorLaws := sim_laws) c' 0xFEFFFF = 0.
Proof.
  destruct demo_run_ok as (s & Hs & Hh & Hfull & Hn).
  destruct (board_flash_correct sim_flash sim_erase 4096 ram_sys 1 4 (mk_layout (0x20000, 0xFD0000) (0, 0x20000) (0xFF0000, 0x10000) (0, 0x1000000)) 4
    0xFF0000 0x10000 art_bin 0 c s {[art_bin := [1; 2; 3]]} ∅ sim_flash_ok) as (H & _); [by exists 1|reflexivity|reflexivity|done|exact Hh|exact Hn|].
  destruct (H [1; 2; 3]) as (c' & s' & E & _ & Hw & He & Ho & _); [reflexivity|exact Hfull|done|done|repeat constructor; done|simpl; lia|].
  exists s, c', s'. split_and!; [exact Hs|exact E|exact Hw|apply He; simpl; lia|rewrite Ho; [reflexivity|lia]].
Defined.
