(* ===== verification/Mount.v ===== *)
(** * Mounting: dfs/dfs_fs.c, and the file systems of the boot loader

    Registering kinds of file systems and mounting them, for file systems without a
    device below them, which are all the boot loader has.  A kind of file system
    is its name and what its mount operation makes of [data]: the table of
    operations with [fs->data] filled in.  Then what sysfs_init of main/main.c and
    board_flash_fs_init of the board mount: ROM at "/", RAM at "/tmp", the mapped
    flash at "/www/map".  [None] is a step without meaning in C. *)

From S2P Require Import Prelude Alloc Object Vfs FileSystem Memheap MemheapSpec Ramfs RamfsSpec Romfs DfsPath Dfs Flash.
From Stdlib Require Ascii String.
Import String.StringSyntax.

Definition DFS_FILESYSTEMS_MAX : nat := 4.
Definition DFS_FILESYSTEM_TYPES_MAX : nat := 3.
Definition ENODEV : Z := 19.
Definition ENOTDIR : Z := 20.

Section mount.
Context {W D M : Type}.

(** The result of the mount operation and, when it is not negative, the file
    system; a pointer of another kind has no meaning. *)
Record fs_kind := mk_kind { kind_name : list Z; kind_mount : option (M -> option (Z * dfs_filesystem_ops W D)) }.

Record dfs_tables := mk_tables { filesystem_operation_table : list (option fs_kind); dfs_state : dfs W D }.
Implicit Types (t : dfs_tables) (s : dfs W D).

Definition set_table (l : list (option (dfs_filesystem W D))) s : dfs W D :=
  mk_dfs l (fds s) (working_directory s) (world s) (answers s) (errno s).
Definition with_state s t : dfs_tables := mk_tables (filesystem_operation_table t) s.

Definition dfs_init (w : W) (answers : list bool) : dfs_tables :=
  mk_tables (replicate DFS_FILESYSTEM_TYPES_MAX None) (mk_dfs (replicate DFS_FILESYSTEMS_MAX None) [] [47] w answers 0).

(** The first free slot up to an entry of the same name, and whether there is one. *)
Fixpoint register_loop (l : list (option fs_kind)) (name : list Z) (i : nat) (empty : option nat) : option nat * bool :=
  match l with
  | [] => (empty, false)
  | None :: l => register_loop l name (S i) (match empty with None => Some i | _ => empty end)
  | Some o :: l => if bool_decide (kind_name o = name) then (empty, true) else register_loop l name (S i) empty
  end.

Definition dfs_register (ops : fs_kind) t : Z * dfs_tables :=
  let '(empty, exists_) := register_loop (filesystem_operation_table t) (kind_name ops) 0 None in
  let t := if exists_ : bool then with_state (rt_set_errno (- EEXIST) (dfs_state t)) t else t in
  match empty with
  | None => (-1, with_state (rt_set_errno (- ENOSPC) (dfs_state t)) t)
  | Some i =>
      if exists_ then (-1, t)
      else (0, mk_tables (<[i := Some ops]> (filesystem_operation_table t)) (dfs_state t))
  end.

Definition find_kind (l : list (option fs_kind)) (name : list Z) : option fs_kind :=
  snd <$> list_find (fun o => kind_name o = name) (omap id l).

(** The first free slot, or [None] when the path is mounted. *)
Fixpoint slot_loop (l : list (option (dfs_filesystem W D))) (path : list Z) (i : nat) (fs : option nat) : option (option nat) :=
  match l with
  | [] => Some fs
  | None :: l => slot_loop l path (S i) (match fs with None => Some i | _ => fs end)
  | Some f :: l => if bool_decide (fs_path f = path) then None else slot_loop l path (S i) fs
  end.

Definition fail (e : Z) t : option (Z * dfs_tables) := Some (-1, with_state (rt_set_errno (- e) (dfs_state t)) t).

(** The mount point has to be a directory, unless it is "/" or "/dev"; [fd] is
    what the descriptor on the stack holds at first. *)
Definition is_directory (fd : dfs_fd W D) (fullpath : list Z) s : option (bool * dfs W D) :=
  if bool_decide (fullpath = [47]) || bool_decide (fullpath = [47; 100; 101; 118]) then Some (true, s)
  else
    '(result, fd, s) ← file_open fd fullpath (Z.lor O_RDONLY O_DIRECTORY) s;
    if result <? 0 then Some (false, s)
    else _ ← file_close fd s; Some (true, s).

Definition dfs_mount (fd : dfs_fd W D) (path filesystemtype : list Z) (data : M) t : option (Z * dfs_tables) :=
  match find_kind (filesystem_operation_table t) filesystemtype with
  | None => fail ENODEV t
  | Some ops =>
      match kind_mount ops with
      | None => fail ENOSYS t
      | Some mount =>
          '(fullpath, s) ← normalize path (dfs_state t);
          match fullpath with
          | None => fail ENOTDIR (with_state s t)
          | Some fullpath =>
              '(ok, s) ← is_directory fd fullpath s;
              if negb ok then fail ENOTDIR (with_state s t)
              else
                match slot_loop (filesystem_table s) path 0 None with
                | None => fail EINVAL (with_state s t)
                | Some None => fail ENOSPC (with_state s t)
                | Some (Some i) =>
                    '(result, fs) ← mount data;
                    if result <? 0 then Some (-1, with_state s t)
                    else Some (0, with_state (set_table (<[i := Some (mk_fs fullpath fs)]> (filesystem_table s)) s) t)
                end
          end
      end
  end.
End mount.
Arguments fs_kind : clear implicits.
Arguments dfs_tables : clear implicits.

(** ** The boot loader's *)

#[local] Open Scope string_scope.

(** Memory the ROM file systems show, and the RAM file system once it is made. *)
Record sys_world := mk_world { ram : option (dfs_ramfs mem); memory : Z -> Z }.
Inductive sys_data := RamData (p : dirent_ptr) | RomData (d : romfs_dirent).

#[export] Instance ram_part : Part (dfs_ramfs mem) sys_world := {| part_get := ram; part_put r w := mk_world (Some r) (memory w) |}.
#[export] Instance rom_part : Part rom_memory sys_world := {| part_get w := Some (memory w); part_put m w := mk_world (ram w) m |}.
#[export] Instance ram_kind : Kind dirent_ptr sys_data := {| kind_in := RamData; kind_out d := match d with RamData p => Some p | _ => None end |}.
#[export] Instance rom_kind : Kind romfs_dirent sys_data := {| kind_in := RomData; kind_out d := match d with RomData p => Some p | _ => None end |}.

(** [const void *data] of a mount. *)
Inductive mount_data := NoData | RamfsData | RomfsData (root : romfs_dirent).

Definition dfs_ramfs_mount (data : mount_data) : option (Z * dfs_filesystem_ops sys_world sys_data) :=
  match data with
  | NoData => Some (- EIO, lift_ops ramfs_ops)
  | RamfsData => Some (0, lift_ops ramfs_ops)
  | RomfsData _ => None
  end.
Definition dfs_romfs_mount (data : mount_data) : option (Z * dfs_filesystem_ops sys_world sys_data) :=
  match data with
  | NoData => Some (- EIO, lift_ops (_romfs (mk_rom 0 [] Null 0)))
  | RomfsData root => Some (0, lift_ops (_romfs root))
  | RamfsData => None
  end.

Abbreviation sys_tables := (dfs_tables sys_world sys_data mount_data).
Definition _ramfs_kind : fs_kind sys_world sys_data mount_data := mk_kind (literal "ram") (Some dfs_ramfs_mount).
Definition _romfs_kind : fs_kind sys_world sys_data mount_data := mk_kind (literal "rom") (Some dfs_romfs_mount).
Definition dfs_ramfs_init (t : sys_tables) : sys_tables := (dfs_register _ramfs_kind t).2.
Definition dfs_romfs_init (t : sys_tables) : sys_tables := (dfs_register _romfs_kind t).2.

Definition flash_file (name : String.string) (e : Z * Z) : romfs_dirent := rom_file name e.1 e.2.
(** [_romfs_flash] with the addresses and sizes filled in. *)
Definition romfs_flash_root (map : list (Z * Z)) : romfs_dirent :=
  rom_dir "/" (zip_with flash_file ["firmware.bin"; "uboot.bin"; "art.bin"; "full.bin"] map).

Definition board_flash_fs_init (fd : dfs_fd sys_world sys_data) (capacity : Z) (t : sys_tables) : option sys_tables :=
  match board_flash_map (capacity / 1024 / 1024) with
  | None => Some t
  | Some map => '(_, t) ← dfs_mount fd (literal "/www/map") (literal "rom") (RomfsData (romfs_flash_root map)) t; Some t
  end.

(** Half of the memory between the heap and the stack is for uploads; [bytes]
    are what lies there.  [answers] is what rt_malloc will say. *)
Definition sysfs_init (fd : dfs_fd sys_world sys_data) (place : Z -> Z) (end_stack_base system_memstart : Z) (bytes : Z -> option Z)
    (capacity : Z) (m : Z -> Z) (answers : list bool) : option sys_tables :=
  let ramfs_size := u32 (end_stack_base - system_memstart) / 2 in
  let ramfs_start := u32 (end_stack_base - ramfs_size) in
  let t := dfs_romfs_init (dfs_ramfs_init (dfs_init (mk_world None m) answers)) in
  '(_, t) ← dfs_mount fd (literal "/") (literal "rom") (RomfsData (romfs_root place)) t;
  ramfs ← dfs_ramfs_create ramfs_start ramfs_size bytes;
  let t := with_state (set_world (part_put ramfs (world (dfs_state t))) (dfs_state t)) t in
  '(_, t) ← dfs_mount fd (literal "/tmp") (literal "ram") RamfsData t;
  board_flash_fs_init fd capacity t.
