(* ===== verification/MountSpec.v ===== *)
(** * The file systems of the boot loader: theorems

    What is where after sysfs_init, that the three file systems do not disturb each
    other, and the way of an image: uploaded into the RAM file system, written to
    the chip by the flash thread, read back through the mapped flash. *)

From S2P Require Import Prelude Alloc Object Vfs FileSystem Memheap MemheapSpec Ramfs RamfsSafe RamfsSpec Romfs RomfsSpec DfsPath Dfs DfsSpec.
From S2P Require Import Nor Sfud SfudSpec NorSim SfudTheorems Flash FlashSpec Mount.
From Stdlib Require Ascii String.
Import String.StringSyntax.

#[local] Arguments render : simpl never.

#[export] Instance ram_part_laws : PartLaws (dfs_ramfs mem) sys_world.
Proof. split; [done|done|]. intros r [r' m]. simpl. by intros [= ->]. Qed.
#[export] Instance rom_part_laws : PartLaws rom_memory sys_world.
Proof. split; [done|done|]. intros r [r' m]. simpl. by intros [= ->]. Qed.
#[export] Instance ram_kind_laws : KindLaws dirent_ptr sys_data.
Proof. by split. Qed.
#[export] Instance rom_kind_laws : KindLaws romfs_dirent sys_data.
Proof. by split. Qed.

Abbreviation sys_dfs := (dfs sys_world sys_data).
Definition ram_files : file_system sys_world sys_data := lift_sys ram_sys.
Definition rom_files (root : romfs_dirent) : file_system sys_world sys_data := lift_sys (romfs_sys root).

#[export] Instance ram_files_laws : FileSystem ram_files.
Proof. exact (lift_laws ram_sys). Qed.

Lemma rom_files_laws root : rom_ok root = true -> rom_type root = ROMFS_DIRENT_DIR -> FileSystem (rom_files root).
Proof. intros Hr Hd. pose proof (romfs_laws root Hr Hd). exact (lift_laws (romfs_sys root)). Qed.

(** ** The file systems lie apart *)

Lemma apart_ram_rom root : apart ram_files (rom_files root).
Proof.
  intros w w' Hin. assert (memory w' = memory w) as E by by destruct Hin as [->|(r & r' & _ & _ & ->)].
  split; [intros F|intros f nm]; simpl; by rewrite E.
Qed.

Lemma rom_inside root w w' : sp_inside (rom_files root) w w' -> w' = w.
Proof. intros [->|(m & m' & E & <- & ->)]; [done|]. by apply part_put_get. Qed.

Lemma apart_rom root fsys : apart (rom_files root) fsys.
Proof. intros w w' ->%rom_inside. by split. Qed.

(** ** The files of a ROM file system *)

(** All paths from a directory, as names. *)
Fixpoint rom_paths (d : romfs_dirent) : list (list (list Z)) :=
  let '(mk_rom _ _ p _) := d in
  [] :: match p with Entries l => flat_map (fun e => cons (rom_name e) <$> rom_paths e) l | _ => [] end.

Lemma descend_paths ns d e : descend d ns = Some e -> ns ∈ rom_paths d.
Proof.
  revert d. induction ns as [|n ns IH]; intros [t nm p sz]; simpl; [set_solver|]. rewrite descend_cons.
  unfold child, entries. destruct (rom_type _ =? _); [|done]. simpl. destruct (list_find _ _) as [[i x]|] eqn:Ef; [|done]. simpl.
  intros Hx. apply list_find_Some in Ef as (Hi & <- & _). right. destruct p as [| |l]; [done|done|].
  apply list_elem_of_In, in_flat_map. exists x. split; [by apply list_elem_of_In, (list_elem_of_lookup_2 _ i)|].
  apply list_elem_of_In, list_elem_of_fmap. exists ns. split; [done|by apply IH].
Qed.

(** The map of a function that is defined on these keys only. *)
Lemma graph (f : list Z -> option (list Z)) (keys : list (list Z)) : (forall k b, f k = Some b -> k ∈ keys) ->
  exists F : file_map, forall k, F !! k = f k.
Proof.
  intros H. exists (list_to_map (omap (fun k => pair k <$> f k) (remove_dups keys))). intros k.
  assert (Hd : NoDup (omap (fun k => pair k <$> f k) (remove_dups keys)).*1).
  { generalize (NoDup_remove_dups keys). clear. induction (remove_dups keys) as [|k l IH]; [constructor|]. intros [Hk Hl]%NoDup_cons. simpl.
    destruct (f k); simpl; [|by apply IH]. apply NoDup_cons. split; [|by apply IH]. intros Hin. apply Hk.
    apply list_elem_of_fmap in Hin as ([k' b'] & -> & Hin). apply list_elem_of_omap in Hin as (k2 & Hk2 & E).
    destruct (f k2); [|done]. by injection E as <- _. }
  destruct (f k) as [b|] eqn:E.
  - apply elem_of_list_to_map_1; [done|]. apply list_elem_of_omap. exists k. rewrite E. split; [|done]. apply elem_of_remove_dups. by eapply H.
  - apply not_elem_of_list_to_map_1. intros Hin. apply list_elem_of_fmap in Hin as ([k' b'] & -> & Hin).
    apply list_elem_of_omap in Hin as (k2 & _ & E2). destruct (f k2) eqn:Ek; [|done]. injection E2 as <- _. simpl in *. congruence.
Qed.

Lemma rom_map root m : exists F : file_map, forall nm, F !! nm = rom_content root m nm.
Proof.
  apply (graph _ ((fun ns => tail (join ns)) <$> rom_paths root)). intros nm b Hb. unfold rom_content in Hb.
  destruct (descend root (split_path [] nm)) as [d|] eqn:E; [|done]. apply list_elem_of_fmap. exists (split_path [] nm).
  split; [by rewrite join_split|by eapply descend_paths].
Qed.

(** ** After sysfs_init *)

#[local] Open Scope string_scope.
Definition map_dir : list Z := literal "/www/map".
Definition mounts (place : Z -> Z) (map : list (Z * Z)) : list (option (dfs_filesystem sys_world sys_data)) :=
  [Some (mk_fs [47] (sp_ops (rom_files (romfs_root place)))); Some (mk_fs tmp_dir (sp_ops ram_files));
   Some (mk_fs map_dir (sp_ops (rom_files (romfs_flash_root map)))); None].

Definition kinds : list (option (fs_kind sys_world sys_data mount_data)) := [Some _ramfs_kind; Some _romfs_kind; None].
Definition mounted (l : list (option (dfs_filesystem sys_world sys_data))) (w : sys_world) : dfs_tables sys_world sys_data mount_data :=
  mk_tables kinds (mk_dfs l [] [47] w [] 0).

Lemma registered w : dfs_romfs_init (dfs_ramfs_init (dfs_init w [])) = mounted [None; None; None; None] w.
Proof. reflexivity. Qed.

Lemma mount_rom fd w root : dfs_mount fd (literal "/") (literal "rom") (RomfsData root) (mounted [None; None; None; None] w) =
  Some (0, mounted [Some (mk_fs [47] (sp_ops (rom_files root))); None; None; None] w).
Proof. reflexivity. Qed.

Lemma mount_ram fd w place : dfs_mount fd (literal "/tmp") (literal "ram") RamfsData
    (mounted [Some (mk_fs [47] (sp_ops (rom_files (romfs_root place)))); None; None; None] w) =
  Some (0, mounted [Some (mk_fs [47] (sp_ops (rom_files (romfs_root place)))); Some (mk_fs tmp_dir (sp_ops ram_files)); None; None] w).
Proof. destruct w. reflexivity. Qed.

Lemma mount_map fd w place map : dfs_mount fd (literal "/www/map") (literal "rom") (RomfsData (romfs_flash_root map))
    (mounted [Some (mk_fs [47] (sp_ops (rom_files (romfs_root place)))); Some (mk_fs tmp_dir (sp_ops ram_files)); None; None] w) =
  Some (0, mounted (mounts place map) w).
Proof. destruct w. reflexivity. Qed.

Lemma sysfs_init_ok fd place e b bytes cap m map r : board_flash_map (cap / 1024 / 1024) = Some map ->
  dfs_ramfs_create (u32 (e - u32 (e - b) / 2)) (u32 (e - b) / 2) bytes = Some r ->
  sysfs_init fd place e b bytes cap m [] = Some (mounted (mounts place map) (mk_world (Some r) m)).
Proof.
  intros Hmap Hr. unfold sysfs_init. cbv zeta. rewrite registered, mount_rom. cbn [mbind option_bind]. rewrite Hr. cbn [mbind option_bind].
  match goal with |- context [dfs_mount fd (literal "/tmp") _ _ ?t] =>
    change t with (mounted [Some (mk_fs [47] (sp_ops (rom_files (romfs_root place)))); None; None; None] (mk_world (Some r) m)) end.
  rewrite mount_ram. cbn [mbind option_bind]. unfold board_flash_fs_init. rewrite Hmap. by rewrite mount_map.
Qed.

(** ** Where files are *)

Lemma rom_mounted s k mp root m : get_fs k s = Some (mk_fs mp (sp_ops (rom_files root))) -> fds s = [] -> answers s = [] -> memory (world s) = m ->
  exists F, dfs_rel (rom_files root) k mp s F ∅ /\ forall nm, F !! nm = rom_content root m nm.
Proof.
  intros Hk Hf Ha Hm. destruct (rom_map root m) as [F HF]. exists F. split; [|done].
  assert (Hg : forall i d, get_fd i s <> Some d) by (intros i d; unfold get_fd; by rewrite Hf).
  split; try done.
  - exists m. by rewrite <- Hm at 1.
  - rewrite Hf. simpl. lia.
  - intros i d Hd. by apply Hg in Hd.
  - intros i d nm Hd. by apply Hg in Hd.
Qed.

(** The names of the four files of a layout. *)
Definition region_files (l : layout) : list (Z * Z * list Z) :=
  [(firmware l, firmware_bin); (uboot l, uboot_bin); (art l, art_bin); (full_chip l, full_bin)].

Lemma select_region_file flag l start len nm : select_region flag l = Some (start, len, nm) -> (start, len, nm) ∈ region_files l.
Proof. unfold select_region, region_files. destruct l as [a b' u f]. repeat case_match; intros [= <- <-]; simplify_eq/=; set_solver. Qed.

Lemma flash_map_content n l map m : board_flash_layout n = Some l -> board_flash_map n = Some map ->
  rom_ok (romfs_flash_root map) = true /\
  forall start len nm, (start, len, nm) ∈ region_files l -> rom_proper nm /\ proper nm /\ name_ok nm /\
    rom_content (romfs_flash_root map) m nm = Some (m <$> seqZ (0xBF000000 + start) len).
Proof.
  intros Hl Hmap. destruct (board_flash_layout_ok _ _ Hl) as (_ & _ & E). rewrite Hmap in E. injection E as ->. split.
  - clear Hmap. revert Hl. unfold board_flash_layout.
    do 4 (match goal with |- context [if ?b then _ else _] => destruct b end; [by intros [= <-]|]). done.
  - clear. destruct l as [[a1 n1] [a2 n2] [a3 n3] [a4 n4]]. unfold region_files. simpl. intros start len nm Hin.
    assert (Forall (fun x => rom_proper x /\ proper x /\ name_ok x) [firmware_bin; uboot_bin; art_bin; full_bin]) as Hn
      by (unfold rom_proper, proper, c_string, name_ok; apply (bool_decide_unpack _); vm_compute; exact I).
    rewrite !Forall_cons in Hn. destruct Hn as ((? & ? & ?) & (? & ? & ?) & (? & ? & ?) & (? & ? & ?) & _).
    rewrite !elem_of_cons, elem_of_nil in Hin. destruct Hin as [E|[E|[E|[E|[]]]]]; injection E as -> -> ->; split_and!; (done || reflexivity).
Qed.

(** Uploads and mapped files by their paths. *)
Lemma upload_names s place map nm : filesystem_table s = mounts place map -> working_directory s = [47] -> name_ok nm -> proper nm ->
  names ram_files 1 tmp_dir s (tmp_dir ++ 47 :: nm)%list nm.
Proof.
  intros Ht Hw Hn Hp. split; [done|]. assert (E : render [nm; tail tmp_dir] = (tmp_dir ++ 47 :: nm)%list) by (unfold render, reverse; simpl; by rewrite app_nil_r).
  exists [nm; tail tmp_dir]. change (mount_base tmp_dir) with tmp_dir. rewrite <- E, Hw. assert (Forall name_ok [nm; tail tmp_dir]) as Hst.
  { repeat constructor; try apply Hn; try done. }
  split_and!; [done|done|by apply dfs_normalize_path_id|]. rewrite E. unfold dfs_filesystem_lookup. rewrite Ht. reflexivity.
Qed.

Lemma map_names s place map nm : filesystem_table s = mounts place map -> working_directory s = [47] -> name_ok nm -> rom_proper nm ->
  names (rom_files (romfs_flash_root map)) 2 map_dir s (map_dir ++ 47 :: nm)%list nm.
Proof.
  intros Ht Hw Hn Hp. split; [done|].
  assert (E : render [nm; [109; 97; 112]; [119; 119; 119]] = (map_dir ++ 47 :: nm)%list) by (unfold render, reverse; simpl; by rewrite app_nil_r).
  exists [nm; [109; 97; 112]; [119; 119; 119]]. change (mount_base map_dir) with map_dir. rewrite <- E, Hw.
  assert (Forall name_ok [nm; [109; 97; 112]; [119; 119; 119]]) as Hst.
  { repeat constructor; try apply Hn; try done. }
  split_and!; [done|done|by apply dfs_normalize_path_id|]. rewrite E. unfold dfs_filesystem_lookup. rewrite Ht. reflexivity.
Qed.

Lemma sysfs_holds fd place e b bytes cap m l : 0 <= b -> b + 576 <= e < 2 ^ 32 -> board_flash_layout (cap / 1024 / 1024) = Some l ->
  exists map r F0 F2, board_flash_map (cap / 1024 / 1024) = Some map /\
    let t := mounted (mounts place map) (mk_world (Some r) m) in
    sysfs_init fd place e b bytes cap m [] = Some t /\
    dfs_rel (rom_files (romfs_root place)) 0 [47] (dfs_state t) F0 ∅ /\ (forall nm, F0 !! nm = rom_content (romfs_root place) m nm) /\
    dfs_rel ram_files 1 tmp_dir (dfs_state t) ∅ ∅ /\
    dfs_rel (rom_files (romfs_flash_root map)) 2 map_dir (dfs_state t) F2 ∅ /\ (forall nm, F2 !! nm = rom_content (romfs_flash_root map) m nm).
Proof.
  intros Hb He Hl. assert (exists map, board_flash_map (cap / 1024 / 1024) = Some map) as [map Hmap].
  { destruct (board_flash_layout_ok _ _ Hl) as (_ & _ & ->). by eexists. }
  assert (u32 (e - b) = e - b) as Eu by (apply wrap_small; lia).
  destruct (dfs_ramfs_create_ok (u32 (e - u32 (e - b) / 2)) (u32 (e - b) / 2) bytes) as (r & Hr & Hr0).
  { apply wrap_bounds. lia. }
  { rewrite Eu, wrap_small by (Z.to_euclidean_division_equations; lia). lia. }
  { rewrite Eu. zdiv. }
  destruct (rom_mounted (dfs_state (mounted (mounts place map) (mk_world (Some r) m))) 0 [47] (romfs_root place) m) as (F0 & H0 & HF0); [done..|].
  destruct (rom_mounted (dfs_state (mounted (mounts place map) (mk_world (Some r) m))) 2 map_dir (romfs_flash_root map) m) as (F2 & H2 & HF2); [done..|].
  exists map, r, F0, F2. split; [done|]. cbv zeta. split; [by apply sysfs_init_ok|]. split_and!; [done|done| |done|done].
  split; try done; [by exists r|simpl; lia].
Qed.

(** ** An image from the upload to the mapped flash *)

Lemma region_small n l flag start len nm : board_flash_layout n = Some l -> select_region flag l = Some (start, len, nm) -> len <= 2 ^ 24.
Proof.
  intros Hl Hsel. destruct (board_flash_layout_ok _ _ Hl) as (Hall & Hn & _). rewrite Forall_forall in Hall.
  destruct (Hall _ (select_region_in _ _ _ _ _ Hsel)) as (? & ? & _ & _ & ?). lia.
Qed.

(** A new file with these bytes. *)
Lemma upload_ok (s : sys_dfs) nm b fd s1 s2 s3 : dfs_rel ram_files 1 tmp_dir s ∅ ∅ -> names ram_files 1 tmp_dir s (tmp_dir ++ 47 :: nm)%list nm ->
  Z.of_nat (length b) <= max_request ->
  open (tmp_dir ++ 47 :: nm)%list (Z.lor O_CREAT O_WRONLY) s = Some (fd, s1) -> 0 <= fd -> write fd b s1 = Some (Z.of_nat (length b), s2) ->
  close fd s2 = Some (0, s3) ->
  dfs_rel ram_files 1 tmp_dir s3 (<[nm := b]> ∅) ∅ /\ frame ram_files 1 s s3 /\ ~ full s3.
Proof.
  intros Hrel Hn Hb Eo Hfd Ew Ec.
  destruct (open_ok ram_files 1 tmp_dir s ∅ ∅ _ nm (Z.lor O_CREAT O_WRONLY) Hrel Hn) as (fd' & s1' & Eo' & Hfr1 & Hc); [done..|]. simplify_eq.
  destruct Hc as [[-> _]|(F' & p & _ & _ & _ & Hop & Hp & H1)]; [lia|]. rewrite Hp in H1 by done. simpl in Hop.
  destruct Hop as [[? _]|[_ ->]]; [done|].
  destruct (write_ok ram_files 1 tmp_dir s1 _ _ fd nm 0 b H1) as (b0 & n & s2' & Hb0 & Ew' & Hfr2 & Hw); [by rewrite lookup_insert_eq|done|]. simplify_eq.
  rewrite lookup_insert_eq in Hb0. injection Hb0 as <-. simpl in Hw.
  assert (exists q, dfs_rel ram_files 1 tmp_dir s2 (<[nm := b]> ∅) (<[fd := (nm, q)]> ∅)) as [q H2].
  { destruct Hw as [[E H]|[_ H]].
    - exists 0. destruct b; [done|]. simpl in E. lia.
    - exists (Z.of_nat (length b)). rewrite !insert_insert_eq in H. unfold splice in H. simpl in H. rewrite drop_nil, app_nil_r in H. exact H. }
  destruct (close_ok ram_files 1 tmp_dir s2 _ _ fd nm q H2) as (s3' & Ec' & H3 & Hfr3 & Hfull); [by rewrite lookup_insert_eq|]. simplify_eq.
  rewrite delete_insert_id in H3 by done. split_and!; [done| |done].
  apply (frame_trans ram_files 1 s s1 s3); [done|]. by apply (frame_trans ram_files 1 s1 s2 s3).
Qed.

Lemma seqZ_split_window (f : Z -> Z) a len (b : list Z) : (Z.of_nat (length b) <= len) ->
  (f <$> seqZ a (Z.of_nat (length b))) = b -> (forall x, a + Z.of_nat (length b) <= x < a + len -> f x = 255) ->
  f <$> seqZ a len = (b ++ replicate (Z.to_nat (len - Z.of_nat (length b))) 255)%list.
Proof.
  intros Hl Hb Hr. replace len with (Z.of_nat (length b) + (len - Z.of_nat (length b))) at 1 by lia.
  rewrite seqZ_app, fmap_app, Hb by lia. f_equal. apply list_eq. intros i. rewrite list_lookup_fmap.
  destruct (decide (Z.of_nat i < len - Z.of_nat (length b))).
  - rewrite lookup_seqZ_lt by lia. rewrite lookup_replicate_2 by lia. simpl. f_equal. apply Hr. lia.
  - rewrite lookup_seqZ_ge by lia. symmetry. apply lookup_ge_None_2. rewrite length_replicate. lia.
Qed.

Section upload.
Context {C : Type} `{N : SpiNor C} (flash : sfud_flash) {erase : Z -> option Z} {g : Z}.
Context `{L : !NorLaws C (capacity flash) (addr_in_4_byte flash) erase (retry_times flash)}.

(** The chip is mapped from 0xBF000000 on. *)
Definition mapped (c : C) (m : Z -> Z) (a : Z) : Z :=
  if (0xBF000000 <=? a) && (a <? 0xBF000000 + capacity flash) then contents c (a - 0xBF000000) else m a.
Definition show (c : C) (s : sys_dfs) : sys_dfs := set_world (mk_world (ram (world s)) (mapped c (memory (world s)))) s.

Lemma rom_shown c s k mp root F O F' : dfs_rel (rom_files root) k mp s F O -> (forall nm, F' !! nm = rom_content root (mapped c (memory (world s))) nm) ->
  dfs_rel (rom_files root) k mp (show c s) F' O.
Proof.
  intros [Rw Rm Ra Rl Rs Ro Rall Rx] HF'. split; try done; [by eexists|].
  intros fd nm p HO. destruct (Ro fd nm p HO) as (i & d & -> & Hi & N1 & N2 & N3 & N4 & (m & e & _ & He & Hon)).
  exists i, d. split_and!; [done|done|]. unfold on_mount. split_and!; [done..|]. eexists _, e. by split_and!.
Qed.

Lemma mapped_region (c : C) m start len : 0 <= start -> start + len <= capacity flash ->
  mapped c m <$> seqZ (0xBF000000 + start) len = contents c <$> seqZ start len.
Proof.
  intros Hs He. apply list_eq. intros i. rewrite !list_lookup_fmap. destruct (decide (Z.of_nat i < len)).
  - rewrite !lookup_seqZ_lt by lia. simpl. f_equal. unfold mapped.
    rewrite (proj2 (Z.leb_le _ _)), (proj2 (Z.ltb_lt _ _)) by lia. simpl. f_equal. lia.
  - by rewrite !lookup_seqZ_ge by lia.
Qed.

Lemma upload_read g' place map l fuel flag start len nm st c (s : sys_dfs) F O F2 O2 b :
  flash_ok flash erase g' -> (g' | 0x1000) -> board_flash_layout (capacity flash / 1024 / 1024) = Some l ->
  board_flash_map (capacity flash / 1024 / 1024) = Some map -> select_region flag l = Some (start, len, nm) -> pending c = Datatypes.O ->
  filesystem_table s = mounts place map -> working_directory s = [47] ->
  dfs_rel ram_files 1 tmp_dir s F O -> dfs_rel (rom_files (romfs_flash_root map)) 2 map_dir s F2 O2 ->
  F !! nm = Some b -> ~ full s -> (forall fd p, O !! fd <> Some (nm, p)) -> (forall fd p, O2 !! fd <> Some (nm, p)) ->
  Z.of_nat (length b) <= len -> Forall (fun x => 0 <= x < 256) b -> (length b < fuel)%nat ->
  exists c' s' fd s1 s2 s3, board_flash_thread_entry flash fuel true [(true, flag)] (mk_board st c s) = Some (mk_board 100 c' s') /\
    open (map_dir ++ 47 :: nm)%list O_RDONLY (show c' s') = Some (fd, s1) /\
    read fd len s1 = Some (len, Some <$> (b ++ replicate (Z.to_nat (len - Z.of_nat (length b))) 255)%list, s2) /\
    close fd s2 = Some (0, s3) /\ dfs_rel ram_files 1 tmp_dir s3 F O.
Proof using L.
  intros Hok Hg Hl Hmap Hsel Hp Ht Hwd Hram Hrom HF Hfull Hno Hno2 Hlen Hbytes Hfuel.
  destruct (flash_map_content _ l map (fun _ => 0) Hl Hmap) as [Hrok Hfiles].
  destruct (Hfiles start len nm (select_region_file _ _ _ _ _ Hsel)) as (Hn & Hpr & Hnok & _).
  pose proof (rom_files_laws (romfs_flash_root map) Hrok eq_refl) as Hlaws.
  destruct (region_ok Hok Hg l flag start len nm Hl Hsel) as (R1 & R2 & _ & _ & R5).
  destruct (board_flash_written Hok Hg (fsys := ram_files) 1 fuel l flag start len nm st c s F O b) as (c' & s' & E & _ & Hw & Hrest & _ & Hram' & Hfr & Hfull');
    try done; [by apply (upload_names _ place map)|].
  pose proof (dfs_rel_apart ram_files (rom_files (romfs_flash_root map)) 1 2 tmp_dir map_dir s s' F2 O2 F O ltac:(done) (apart_ram_rom _) Hrom Hram' Hfr) as Hrom'.
  destruct (rom_map (romfs_flash_root map) (mapped c' (memory (world s')))) as [F2' HF2'].
  pose proof (rom_shown c' s' 2 map_dir (romfs_flash_root map) F2 O2 F2' Hrom' HF2') as Hshown.
  assert (Hram2 : dfs_rel ram_files 1 tmp_dir (show c' s') F O).
  { destruct Hram' as [? ? ? ? ? ? ? ?]. by split. }
  destruct Hfr as (Ht' & Hwd' & _ & _).
  assert (HF2nm : F2' !! nm = Some (b ++ replicate (Z.to_nat (len - Z.of_nat (length b))) 255)%list).
  { rewrite HF2'. destruct (flash_map_content _ l map (mapped c' (memory (world s'))) Hl Hmap) as [_ Hf].
    destruct (Hf start len nm (select_region_file _ _ _ _ _ Hsel)) as (_ & _ & _ & ->). f_equal.
    rewrite mapped_region by lia. apply seqZ_split_window; [done| |done]. rewrite <- Hw at 2. unfold window. unfold seqZ.
    rewrite <- !list_fmap_compose, Nat2Z.id. apply list_fmap_ext. intros i x _. simpl. f_equal. lia. }
  destruct (read_file_ok (rom_files (romfs_flash_root map)) 2 map_dir (show c' s') F2' O2 (map_dir ++ 47 :: nm)%list nm
    (b ++ replicate (Z.to_nat (len - Z.of_nat (length b))) 255)%list len Hshown)
    as (fd & s1 & s2 & s3 & Eo & Er & Ec & Hrel3 & Hfr3); [|exact HF2nm|exact Hfull'|exact Hno2|rewrite length_app, length_replicate; lia|].
  { apply (map_names _ place); [by rewrite <- Ht, <- Ht'|by rewrite <- Hwd, <- Hwd'|done|done]. }
  exists c', s', fd, s1, s2, s3. split_and!; [done|done| |done|].
  - rewrite Er. do 3 f_equal. rewrite length_app, length_replicate. lia.
  - by apply (dfs_rel_apart (rom_files (romfs_flash_root map)) ram_files 2 1 map_dir tmp_dir (show c' s') s3 F O F2' O2 ltac:(done) (apart_rom _ _)).
Qed.
End upload.

(** ** The theorems *)

(** C9: What is where. With 576 bytes or more between the heap and the stack and one
    of the four chips, sysfs_init mounts the ROM image at "/", an empty RAM file
    system at "/tmp" and the regions of the flash, as they are mapped, at
    "/www/map"; each file of these is found by its path, and what is done in one
    file system leaves the files and the descriptors of the others alone. *)
Theorem sysfs_init_correct fd place e b bytes cap m l : 0 <= b -> b + 576 <= e < 2 ^ 32 -> board_flash_layout (cap / 1024 / 1024) = Some l ->
  exists t map F0 F2, sysfs_init fd place e b bytes cap m [] = Some t /\
    let s := dfs_state t in
    let rom := rom_files (romfs_root place) in let flash := rom_files (romfs_flash_root map) in
    posix_holds rom 0 [47] s F0 ∅ /\ posix_holds ram_files 1 tmp_dir s ∅ ∅ /\ posix_holds flash 2 map_dir s F2 ∅ /\
    (forall nm, F0 !! nm = rom_content (romfs_root place) m nm) /\
    (forall start len nm, (start, len, nm) ∈ region_files l ->
       F2 !! nm = Some (m <$> seqZ (0xBF000000 + start) len) /\ names flash 2 map_dir s (map_dir ++ 47 :: nm)%list nm) /\
    (forall nm, name_ok nm -> proper nm -> names ram_files 1 tmp_dir s (tmp_dir ++ 47 :: nm)%list nm) /\
    FileSystem rom /\ FileSystem ram_files /\ FileSystem flash /\
    apart rom ram_files /\ apart rom flash /\ apart ram_files rom /\ apart ram_files flash /\ apart flash rom /\ apart flash ram_files.
Proof.
  intros Hb He Hl. destruct (sysfs_holds fd place e b bytes cap m l Hb He Hl) as (map & r & F0 & F2 & Hmap & Ht & H0 & HF0 & H1 & H2 & HF2).
  destruct (flash_map_content _ l map m Hl Hmap) as [Hok Hfiles]. set (t := mounted (mounts place map) (mk_world (Some r) m)) in *.
  exists t, map, F0, F2. split; [exact Ht|]. cbv zeta.
  split_and!; [exact H0|exact H1|exact H2|exact HF0| | |by apply rom_files_laws|exact ram_files_laws|by apply rom_files_laws|
    apply apart_rom|apply apart_rom|apply apart_ram_rom|apply apart_ram_rom|apply apart_rom|apply apart_rom].
  - intros start len nm Hin. destruct (Hfiles start len nm Hin) as (Hn & _ & Hn' & Hc). rewrite HF2, Hc. split; [done|]. by apply (map_names _ place).
  - intros nm. by apply (upload_names _ place map).
Qed.

(** C6: The way of an image. After sysfs_init, when a file of at most the size of its
    region has been created, written and closed under "/tmp", the event of this
    region makes the flash thread end with status 100, and reading the file of the
    same name under "/www/map" gives the bytes of the upload, filled up to the size of
    the region with the bytes of an erased chip. *)
Theorem recovery_roundtrip {C : Type} `{N : SpiNor C} (flash : sfud_flash) erase g `{L : !NorLaws C (capacity flash) (addr_in_4_byte flash) erase (retry_times flash)}
  fd0 place e bs bytes m l flag start len nm st c fuel b :
  flash_ok flash erase g -> (g | 0x1000) -> 0 <= bs -> bs + 576 <= e < 2 ^ 32 -> board_flash_layout (capacity flash / 1024 / 1024) = Some l ->
  select_region flag l = Some (start, len, nm) -> pending c = Datatypes.O ->
  Z.of_nat (length b) <= len -> Forall (fun x => 0 <= x < 256) b -> (length b < fuel)%nat ->
  exists t, sysfs_init fd0 place e bs bytes (capacity flash) m [] = Some t /\
    forall fd s1 s2 s3, open (tmp_dir ++ 47 :: nm)%list (Z.lor O_CREAT O_WRONLY) (dfs_state t) = Some (fd, s1) -> 0 <= fd ->
      write fd b s1 = Some (Z.of_nat (length b), s2) -> close fd s2 = Some (0, s3) ->
      exists c' s4 fd' s5 s6 s7, board_flash_thread_entry flash fuel true [(true, flag)] (mk_board st c s3) = Some (mk_board 100 c' s4) /\
        open (map_dir ++ 47 :: nm)%list O_RDONLY (show flash c' s4) = Some (fd', s5) /\
        read fd' len s5 = Some (len, Some <$> (b ++ replicate (Z.to_nat (len - Z.of_nat (length b))) 255)%list, s6) /\
        close fd' s6 = Some (0, s7).
Proof.
  intros Hok Hg Hb He Hl Hsel Hp Hlen Hbytes Hfuel.
  destruct (sysfs_holds fd0 place e bs bytes (capacity flash) m l Hb He Hl) as (map & r & F0 & F2 & Hmap & Ht & _ & _ & H1 & H2 & _).
  destruct (flash_map_content _ l map m Hl Hmap) as [_ Hfiles].
  destruct (Hfiles start len nm (select_region_file _ _ _ _ _ Hsel)) as (_ & Hpr & Hnok & _).
  eexists. split; [exact Ht|]. intros fd s1 s2 s3 Eo Hfd Ew Ec.
  assert (Hsz : len <= 2 ^ 24) by by apply (region_small (capacity flash / 1024 / 1024) l flag start len nm).
  destruct (upload_ok _ nm b fd s1 s2 s3 H1 ltac:(by apply (upload_names _ place map)) ltac:(unfold max_request; lia) Eo Hfd Ew Ec)
    as (H3 & (Ht3 & Hw3 & Hin3 & Hd3) & Hfull).
  pose proof (dfs_rel_apart ram_files (rom_files (romfs_flash_root map)) 1 2 tmp_dir map_dir _ s3 F2 ∅ _ ∅ ltac:(done) (apart_ram_rom _) H2 H3
    (conj Ht3 (conj Hw3 (conj Hin3 Hd3)))) as H4.
  destruct (upload_read flash g place map l fuel flag start len nm st c s3 (<[nm := b]> ∅) ∅ F2 ∅ b Hok Hg Hl Hmap Hsel Hp) as (c' & s4 & fd' & s5 & s6 & s7 & ? & ? & ? & ? & _);
    try done; [by rewrite lookup_insert_eq|].
  by exists c', s4, fd', s5, s6, s7.
Qed.

(** ** On a chip of 16 MiB *)

Definition demo_fd : dfs_fd sys_world sys_data := mk_fd 0 0 None 0 None None 0 0 0 None.
Definition demo_place (i : Z) : Z := 0x80100000 + i * 0x10000.
Definition demo_layout : layout := mk_layout (0x20000, 0xFD0000) (0, 0x20000) (0xFF0000, 0x10000) (0, 0x1000000).
Definition demo_init : option (dfs_tables sys_world sys_data mount_data) :=
  sysfs_init demo_fd demo_place 0x82000000 0x81000000 (fun _ => None) 0x1000000 (fun _ => 0) [].

Theorem sysfs_init_correct_witness : exists t map, demo_init = Some t /\ posix_holds ram_files 1 tmp_dir (dfs_state t) ∅ ∅ /\
  names ram_files 1 tmp_dir (dfs_state t) (tmp_dir ++ 47 :: art_bin)%list art_bin /\
  names (rom_files (romfs_flash_root map)) 2 map_dir (dfs_state t) (map_dir ++ 47 :: art_bin)%list art_bin.
Proof.
  destruct (sysfs_init_correct demo_fd demo_place 0x82000000 0x81000000 (fun _ => None) 0x1000000 (fun _ => 0) demo_layout)
    as (t & map & F0 & F2 & E & _ & H1 & _ & _ & Hm & Hu & _); [lia|lia|reflexivity|].
  exists t, map. split; [exact E|]. split; [exact H1|]. split.
  - apply Hu; unfold proper, c_string, name_ok; apply (bool_decide_unpack _); vm_compute; exact I.
  - apply (Hm 0xFF0000 0x10000). apply list_elem_of_lookup. by exists 2%nat.
Defined.

(** Three bytes of radio data. *)
Definition demo_upload : option (Z * Z * Z) :=
  t ← demo_init; '(fd, s) ← open (tmp_dir ++ 47 :: art_bin)%list (Z.lor O_CREAT O_WRONLY) (dfs_state t); '(n, s) ← write fd [1; 2; 3] s;
  '(r, _) ← close fd s; Some (fd, n, r).

Lemma demo_upload_ok : demo_upload = Some (3, 3, 0).
Proof. vm_compute. reflexivity. Qed.

Theorem recovery_roundtrip_witness (c := mk_sim (fun _ => 0) false 0) : exists s c' s4 fd s5 s6,
  board_flash_thread_entry sim_flash 4 true [(true, 4)] (mk_board 0 c s) = Some (mk_board 100 c' s4) /\
  open (map_dir ++ 47 :: art_bin)%list O_RDONLY (show sim_flash c' s4) = Some (fd, s5) /\
  read fd 0x10000 s5 = Some (0x10000, Some <$> ([1; 2; 3] ++ replicate (Z.to_nat 65533) 255)%list, s6).
Proof.
  destruct (recovery_roundtrip sim_flash sim_erase 4096 demo_fd demo_place 0x82000000 0x81000000 (fun _ => None) (fun _ => 0) demo_layout 4
    0xFF0000 0x10000 art_bin 0 c 4 [1; 2; 3] sim_flash_ok) as (t & E & H);
    [by exists 1|lia|lia|reflexivity|reflexivity|reflexivity|simpl; lia|repeat constructor; lia|simpl; lia|].
  pose proof demo_upload_ok as Hd. unfold demo_upload in Hd. unfold demo_init in Hd.
  change 0x1000000 with (capacity sim_flash) in Hd. rewrite E in Hd.
  cbn [mbind option_bind] in Hd.
  destruct (open _ _ (dfs_state t)) as [[fd s1]|] eqn:E1; [|done]. cbn [mbind option_bind] in Hd.
  destruct (write fd [1; 2; 3] s1) as [[n s2]|] eqn:E2; [|done]. cbn [mbind option_bind] in Hd.
  destruct (close fd s2) as [[r s3]|] eqn:E3; [|done]. cbn [mbind option_bind] in Hd. injection Hd as -> -> ->.
  destruct (H 3 s1 s2 s3 eq_refl ltac:(lia) E2 E3) as (c' & s4 & fd & s5 & s6 & s7 & H1 & H2 & H3 & _).
  exists s3, c', s4, fd, s5, s6. split; [exact H1|]. split; [exact H2|]. exact H3.
Defined.

(** A kind that is registered again: the free slots come last, so that none has
    been seen, and the error number is that of a full table. *)
Example register_twice : (let '(r, t) := dfs_register _romfs_kind (dfs_romfs_init (dfs_ramfs_init (dfs_init (mk_world None (fun _ => 0)) []))) in
  (r, errno (dfs_state t))) = (-1, - ENOSPC).
Proof. reflexivity. Qed.

(** The mount points are compared before the path is normalised: a second mount
    over the first is let through. *)
Example mounted_twice : (t ← demo_init; '(r, t) ← dfs_mount demo_fd (literal "/tmp/") (literal "ram") RamfsData t;
  Some (r, fs_path <$> omap id (filesystem_table (dfs_state t)))) = Some (0, [[47]; tmp_dir; map_dir; tmp_dir]).
Proof. vm_compute. reflexivity. Qed.
