(* ===== verification/LzmaDecode.v ===== *)
(** * The decompressor: libs/lzma/LzmaDecode.c

    The decoder as rt-boot builds it: no input callback, no dictionary, 16-bit
    probabilities.  The macros of the range decoder are operations of a monad
    whose state is the input that is left, [Range], [Code] and the probabilities;
    an array access outside its array is an outcome of its own. *)

From S2P Require Import Prelude.

(** ** Constants *)

Definition kTopValue : Z := Z.shiftl 1 24.
Definition kNumBitModelTotalBits : Z := 11.
Definition kBitModelTotal : Z := Z.shiftl 1 kNumBitModelTotalBits.
Definition kNumMoveBits : Z := 5.

Definition kNumPosBitsMax : Z := 4.
Definition kNumPosStatesMax : Z := Z.shiftl 1 kNumPosBitsMax.

Definition kLenNumLowBits : Z := 3.
Definition kLenNumLowSymbols : Z := Z.shiftl 1 kLenNumLowBits.
Definition kLenNumMidBits : Z := 3.
Definition kLenNumMidSymbols : Z := Z.shiftl 1 kLenNumMidBits.
Definition kLenNumHighBits : Z := 8.
Definition kLenNumHighSymbols : Z := Z.shiftl 1 kLenNumHighBits.

Definition LenChoice : Z := 0.
Definition LenChoice2 : Z := LenChoice + 1.
Definition LenLow : Z := LenChoice2 + 1.
Definition LenMid : Z := LenLow + Z.shiftl kNumPosStatesMax kLenNumLowBits.
Definition LenHigh : Z := LenMid + Z.shiftl kNumPosStatesMax kLenNumMidBits.
Definition kNumLenProbs : Z := LenHigh + kLenNumHighSymbols.

Definition kNumStates : Z := 12.
Definition kNumLitStates : Z := 7.
Definition kStartPosModelIndex : Z := 4.
Definition kEndPosModelIndex : Z := 14.
Definition kNumFullDistances : Z := Z.shiftl 1 (Z.shiftr kEndPosModelIndex 1).
Definition kNumPosSlotBits : Z := 6.
Definition kNumLenToPosStates : Z := 4.
Definition kNumAlignBits : Z := 4.
Definition kAlignTableSize : Z := Z.shiftl 1 kNumAlignBits.
Definition kMatchMinLen : Z := 2.

(** The places of the models in the one array of probabilities. *)
Definition IsMatch : Z := 0.
Definition IsRep : Z := IsMatch + Z.shiftl kNumStates kNumPosBitsMax.
Definition IsRepG0 : Z := IsRep + kNumStates.
Definition IsRepG1 : Z := IsRepG0 + kNumStates.
Definition IsRepG2 : Z := IsRepG1 + kNumStates.
Definition IsRep0Long : Z := IsRepG2 + kNumStates.
Definition PosSlot : Z := IsRep0Long + Z.shiftl kNumStates kNumPosBitsMax.
Definition SpecPos : Z := PosSlot + Z.shiftl kNumLenToPosStates kNumPosSlotBits.
Definition Align : Z := SpecPos + kNumFullDistances - kEndPosModelIndex.
Definition LenCoder : Z := Align + kAlignTableSize.
Definition RepLenCoder : Z := LenCoder + kNumLenProbs.
Definition Literal : Z := RepLenCoder + kNumLenProbs.

Definition LZMA_BASE_SIZE : Z := 1846.
Definition LZMA_LIT_SIZE : Z := 768.
Definition LZMA_PROPERTIES_SIZE : Z := 5.
Definition LZMA_RESULT_OK : Z := 0.
Definition LZMA_RESULT_DATA_ERROR : Z := 1.

(** The check the preprocessor makes. *)
Example base_size : Literal = LZMA_BASE_SIZE.
Proof. reflexivity. Qed.

(** ** Properties *)

Record CLzmaProperties := mkProps { lc : Z; lp : Z; pb : Z }.

(** [LzmaGetNumProbs]. *)
Definition LzmaGetNumProbs (p : CLzmaProperties) : Z :=
  LZMA_BASE_SIZE + Z.shiftl LZMA_LIT_SIZE (lc p + lp p).

(** [for (n = 0; prop0 >= d; n++, prop0 -= d);]: both; 255 turns are enough for
    a byte. *)
Fixpoint count_off (fuel : nat) (d n prop0 : Z) : Z * Z :=
  match fuel with
  | O => (n, prop0)
  | S fuel => if prop0 >=? d then count_off fuel d (n + 1) (prop0 - d) else (n, prop0)
  end.

(** [None] is LZMA_RESULT_DATA_ERROR. *)
Definition LzmaDecodeProperties (propsData : list Z) (size : Z) : option CLzmaProperties :=
  if size <? LZMA_PROPERTIES_SIZE then None
  else
    let prop0 := nth 0 propsData 0 in
    if prop0 >=? 9 * 5 * 5 then None
    else
      let '(pb, prop0) := count_off 255 (9 * 5) 0 prop0 in
      let '(lp, prop0) := count_off 255 9 0 prop0 in
      Some (mkProps prop0 lp pb).

(** ** The range decoder *)

(** [Buffer] is the bytes from the pointer [Buffer] to [BufferLim]. *)
Record rc := Rc { Buffer : list Z; Range : Z; Code : Z; Probs : list Z }.

Inductive outcome (A : Type) :=
  | Done (a : A) (s : rc)
  | DataError             (** return LZMA_RESULT_DATA_ERROR *)
  | Stray                 (** an access outside an array *)
  | Endless.              (** a loop has run out of turns *)
Arguments Done {A} _ _.
Arguments DataError {A}.
Arguments Stray {A}.
Arguments Endless {A}.

Definition D (A : Type) : Type := rc -> outcome A.

#[export] Instance D_ret : MRet D := fun A a s => Done a s.
#[export] Instance D_bind : MBind D := fun A B f m s =>
  match m s with
  | Done a s' => f a s'
  | DataError => DataError
  | Stray => Stray
  | Endless => Endless
  end.

Definition data_error {A} : D A := fun _ => DataError.
Definition stray {A} : D A := fun _ => Stray.
Definition endless {A} : D A := fun _ => Endless.

(** [RC_TEST; ... RC_READ_BYTE], into [Code]. *)
Definition rc_next (range : Z) : D unit := fun s =>
  match Buffer s with
  | [] => DataError
  | b :: rest => Done tt (Rc rest range (Z.lor (u32 (Z.shiftl (Code s) 8)) b) (Probs s))
  end.

Fixpoint rc_init_loop (i : nat) : D unit :=
  match i with
  | O => mret tt
  | S i => _ ← rc_next 0xFFFFFFFF; rc_init_loop i
  end.

(** [RC_INIT]. *)
Definition rc_init (buffer probs : list Z) : outcome unit :=
  rc_init_loop 5 (Rc buffer 0xFFFFFFFF 0 probs).

Definition rc_normalize : D unit := fun s =>
  if Range s <? kTopValue then rc_next (u32 (Z.shiftl (Range s) 8)) s else Done tt s.

(** [IfBit0(p)] behind RC_NORMALIZE, with the update of the branch it takes; the
    bit is the value. *)
Definition rc_decide (p : Z) : D Z := fun s =>
  if p <? 0 then Stray
  else
    match Probs s !! Z.to_nat p with
    | Some prob =>
        let bound := u32 (Z.shiftr (Range s) kNumBitModelTotalBits * prob) in
        if Code s <? bound then
          Done 0 (Rc (Buffer s) bound (Code s)
            (<[Z.to_nat p := u16 (prob + Z.shiftr (kBitModelTotal - prob) kNumMoveBits)]> (Probs s)))
        else
          Done 1 (Rc (Buffer s) (u32 (Range s - bound)) (u32 (Code s - bound))
            (<[Z.to_nat p := u16 (prob - Z.shiftr prob kNumMoveBits)]> (Probs s)))
    | None => Stray
    end.

Definition rc_bit (p : Z) : D Z := _ ← rc_normalize; rc_decide p.

(** [do ... while (--i != 0)]: zero turns would not end. *)
Fixpoint tree_loop (i : nat) (probs res : Z) : D Z :=
  match i with
  | O => endless
  | S i =>
      b ← rc_bit (probs + res);
      let res := res + res + b in
      match i with O => mret res | _ => tree_loop i probs res end
  end.

Definition RangeDecoderBitTreeDecode (probs numLevels : Z) : D Z :=
  res ← tree_loop (Z.to_nat numLevels) probs 1;
  mret (res - Z.shiftl 1 numLevels).

(** One bit without a model, added to [rep0]. *)
Definition rc_direct (rep0 : Z) : D Z := fun s =>
  let range := Z.shiftr (Range s) 1 in
  let rep0 := u32 (Z.shiftl rep0 1) in
  if Code s >=? range then
    Done (Z.lor rep0 1) (Rc (Buffer s) range (u32 (Code s - range)) (Probs s))
  else Done rep0 (Rc (Buffer s) range (Code s) (Probs s)).

Fixpoint direct_loop (numDirectBits : nat) (rep0 : Z) : D Z :=
  match numDirectBits with
  | O => endless
  | S n =>
      _ ← rc_normalize;
      rep0 ← rc_direct rep0;
      match n with O => mret rep0 | _ => direct_loop n rep0 end
  end.

(** The low bits of a distance, lowest first. *)
Fixpoint reverse_loop (numDirectBits : nat) (prob mi i rep0 : Z) : D Z :=
  match numDirectBits with
  | O => endless
  | S n =>
      b ← rc_bit (prob + mi);
      let mi := mi + mi + b in
      let rep0 := if b =? 0 then rep0 else Z.lor rep0 i in
      match n with O => mret rep0 | _ => reverse_loop n prob mi (Z.shiftl i 1) rep0 end
  end.

(** ** Symbols *)

(** The locals of LzmaDecode that live across symbols, with the output array. *)
Record lz := Lz { nowPos : Z; previousByte : Z; state : Z;
  rep0 : Z; rep1 : Z; rep2 : Z; rep3 : Z; outStream : list Z }.

Definition set_state (st : Z) (z : lz) : lz :=
  Lz (nowPos z) (previousByte z) st (rep0 z) (rep1 z) (rep2 z) (rep3 z) (outStream z).
Definition set_reps (r0 r1 r2 r3 : Z) (z : lz) : lz :=
  Lz (nowPos z) (previousByte z) (state z) r0 r1 r2 r3 (outStream z).

(** [outStream[nowPos - rep0]]; the index is a UInt32. *)
Definition peek (z : lz) : D Z :=
  match outStream z !! Z.to_nat (u32 (nowPos z - rep0 z)) with
  | Some b => mret b
  | None => stray
  end.

(** [previousByte = b; outStream[nowPos++] = previousByte]. *)
Definition put (b : Z) (z : lz) : D lz :=
  if nowPos z <? Z.of_nat (length (outStream z)) then
    mret (Lz (nowPos z + 1) b (state z) (rep0 z) (rep1 z) (rep2 z) (rep3 z)
             (<[Z.to_nat (nowPos z) := b]> (outStream z)))
  else stray.

(** The bits of a literal after a match, as long as they follow [matchByte]; a
    literal has eight bits. *)
Fixpoint matched_loop (fuel : nat) (prob matchByte symbol : Z) : D Z :=
  match fuel with
  | O => endless
  | S fuel =>
      let matchByte := Z.shiftl matchByte 1 in
      let bit := Z.land matchByte 0x100 in
      b ← rc_bit (prob + 0x100 + bit + symbol);
      let symbol := symbol + symbol + b in
      if (if b =? 0 then negb (bit =? 0) else bit =? 0) then mret symbol
      else if symbol <? 0x100 then matched_loop fuel prob matchByte symbol
      else mret symbol
  end.

Fixpoint literal_loop (fuel : nat) (prob symbol : Z) : D Z :=
  if symbol <? 0x100 then
    match fuel with
    | O => endless
    | S fuel =>
        b ← rc_bit (prob + symbol);
        literal_loop fuel prob (symbol + symbol + b)
    end
  else mret symbol.

Definition decode_len (prob posState : Z) : D Z :=
  b ← rc_bit (prob + LenChoice);
  if b =? 0 then
    len ← RangeDecoderBitTreeDecode (prob + LenLow + Z.shiftl posState kLenNumLowBits) kLenNumLowBits;
    mret (len + 0)
  else
    b ← rc_bit (prob + LenChoice2);
    if b =? 0 then
      len ← RangeDecoderBitTreeDecode (prob + LenMid + Z.shiftl posState kLenNumMidBits) kLenNumMidBits;
      mret (len + kLenNumLowSymbols)
    else
      len ← RangeDecoderBitTreeDecode (prob + LenHigh) kLenNumHighBits;
      mret (len + (kLenNumLowSymbols + kLenNumMidSymbols)).

(** [rep0] before [++rep0]. *)
Definition decode_distance (len : Z) : D Z :=
  posSlot ← RangeDecoderBitTreeDecode
    (PosSlot + Z.shiftl (if len <? kNumLenToPosStates then len else kNumLenToPosStates - 1) kNumPosSlotBits)
    kNumPosSlotBits;
  if posSlot >=? kStartPosModelIndex then
    let numDirectBits := Z.shiftr posSlot 1 - 1 in
    let rep0 := Z.lor 2 (Z.land posSlot 1) in
    if posSlot <? kEndPosModelIndex then
      let rep0 := u32 (Z.shiftl rep0 numDirectBits) in
      reverse_loop (Z.to_nat numDirectBits) (SpecPos + rep0 - posSlot - 1) 1 1 rep0
    else
      rep0 ← direct_loop (Z.to_nat (numDirectBits - kNumAlignBits)) rep0;
      reverse_loop (Z.to_nat kNumAlignBits) Align 1 1 (u32 (Z.shiftl rep0 kNumAlignBits))
  else mret posSlot.

(** [do ... while (len != 0 && nowPos < outSize)]. *)
Fixpoint copy_loop (len : nat) (z : lz) : D lz :=
  match len with
  | O => endless
  | S len =>
      b ← peek z;
      z ← put b z;
      match len with
      | O => mret z
      | _ => if nowPos z <? Z.of_nat (length (outStream z)) then copy_loop len z else mret z
      end
  end.

Section symbols.
Variable prop : CLzmaProperties.

Definition posStateMask : Z := Z.shiftl 1 (pb prop) - 1.
Definition literalPosMask : Z := Z.shiftl 1 (lp prop) - 1.

Definition decode_literal (z : lz) : D lz :=
  let prob := Literal + LZMA_LIT_SIZE *
    (Z.shiftl (Z.land (nowPos z) literalPosMask) (lc prop) + Z.shiftr (previousByte z) (8 - lc prop)) in
  symbol ← (if state z >=? kNumLitStates then
              matchByte ← peek z;
              matched_loop 8 prob matchByte 1
            else mret 1);
  symbol ← literal_loop 8 prob symbol;
  z ← put (u8 symbol) z;
  mret (set_state (if state z <? 4 then 0 else if state z <? 10 then state z - 3 else state z - 6) z).

(** A repeated distance: [inl] is one byte of it and the end of the symbol. *)
Definition decode_rep (posState : Z) (z : lz) : D (lz + lz) :=
  b ← rc_bit (IsRepG0 + state z);
  let long z := set_state (if state z <? kNumLitStates then 8 else 11) z in
  if b =? 0 then
    b ← rc_bit (IsRep0Long + Z.shiftl (state z) kNumPosBitsMax + posState);
    if b =? 0 then
      if nowPos z =? 0 then data_error
      else
        let z := set_state (if state z <? kNumLitStates then 9 else 11) z in
        b ← peek z;
        z ← put b z;
        mret (inl z)
    else mret (inr (long z))
  else
    b ← rc_bit (IsRepG1 + state z);
    if b =? 0 then mret (inr (long (set_reps (rep1 z) (rep0 z) (rep2 z) (rep3 z) z)))
    else
      b ← rc_bit (IsRepG2 + state z);
      if b =? 0 then mret (inr (long (set_reps (rep2 z) (rep0 z) (rep1 z) (rep3 z) z)))
      else mret (inr (long (set_reps (rep3 z) (rep0 z) (rep1 z) (rep2 z) z))).

(** Behind the length: the distance of a new match, the checks and the copy;
    [inl] is the end marker. *)
Definition decode_copy (len : Z) (z : lz) : D (lz + lz) :=
  let copy z :=
    let len := len + kMatchMinLen in
    if rep0 z >? nowPos z then data_error
    else z ← copy_loop (Z.to_nat len) z; mret (inr z) in
  if state z <? 4 then
    let z := set_state (state z + kNumLitStates) z in
    r ← decode_distance len;
    let z := set_reps (u32 (r + 1)) (rep1 z) (rep2 z) (rep3 z) z in
    if rep0 z =? 0 then mret (inl z) else copy z
  else copy z.

Definition decode_match (z : lz) : D (lz + lz) :=
  let posState := Z.land (nowPos z) posStateMask in
  b ← rc_bit (IsRep + state z);
  if b =? 0 then
    let z := set_state (if state z <? kNumLitStates then 0 else 3)
               (set_reps (rep0 z) (rep0 z) (rep1 z) (rep2 z) z) in
    len ← decode_len LenCoder posState;
    decode_copy len z
  else
    r ← decode_rep posState z;
    match r with
    | inl z => mret (inr z)
    | inr z => len ← decode_len RepLenCoder posState; decode_copy len z
    end.

(** One turn of the main loop; [inl] leaves it. *)
Definition decode_symbol (z : lz) : D (lz + lz) :=
  let posState := Z.land (nowPos z) posStateMask in
  b ← rc_bit (IsMatch + Z.shiftl (state z) kNumPosBitsMax + posState);
  if b =? 0 then z ← decode_literal z; mret (inr z) else decode_match z.

(** What LzmaDecode returns: the result, what it stored through its pointers,
    the output array. *)
Inductive lzma_result :=
  | Returned (res inSizeProcessed outSizeProcessed : Z) (out : list Z)
  | Strayed
  | Hung.

(** [while (nowPos < outSize)] and the lines behind it. *)
Fixpoint decode_loop (fuel : nat) (inSize : Z) (z : lz) (s : rc) : lzma_result :=
  let finish z s :=
    match rc_normalize s with
    | Done _ s => Returned LZMA_RESULT_OK (inSize - Z.of_nat (length (Buffer s))) (nowPos z) (outStream z)
    | DataError => Returned LZMA_RESULT_DATA_ERROR 0 0 (outStream z)
    | Stray => Strayed
    | Endless => Hung
    end in
  if nowPos z <? Z.of_nat (length (outStream z)) then
    match fuel with
    | O => Hung
    | S fuel =>
        match decode_symbol z s with
        | Done (inr z) s => decode_loop fuel inSize z s
        | Done (inl z) s => finish z s
        | DataError => Returned LZMA_RESULT_DATA_ERROR 0 0 (outStream z)
        | Stray => Strayed
        | Endless => Hung
        end
    end
  else finish z s.

(** [inStream] and [outStream] are the two arrays with their sizes; [probs] is
    the array at [vs->Probs].  Every turn of the loop writes a byte. *)
Definition LzmaDecode (probs inStream outStream : list Z) : lzma_result :=
  let numProbs := Z.to_nat (Literal + Z.shiftl LZMA_LIT_SIZE (lc prop + lp prop)) in
  if (length probs <? numProbs)%nat then Strayed
  else
    let probs := replicate numProbs (Z.shiftr kBitModelTotal 1) ++ drop numProbs probs in
    match rc_init inStream probs with
    | Done _ s =>
        decode_loop (length outStream) (Z.of_nat (length inStream)) (Lz 0 0 0 1 1 1 1 outStream) s
    | DataError => Returned LZMA_RESULT_DATA_ERROR 0 0 outStream
    | Stray => Strayed
    | Endless => Hung
    end.
End symbols.
