(* ===== verification/LzmaSafe.v ===== *)
(** * The decompressor keeps to its arrays

    [safe] is the triple of the decoder's monad: from a well-formed state the
    computation does not stray and does not run out of turns, and a result
    satisfies the postcondition. *)

From S2P Require Import Prelude LzmaDecode.

(** [n] probabilities, at most [k] bytes of input left. *)
Definition rc_ok (n k : nat) (s : rc) : Prop := length (Probs s) = n /\ (length (Buffer s) <= k)%nat.

Definition safe {A} (n k : nat) (m : D A) (Q : A -> Prop) : Prop :=
  forall s, rc_ok n k s ->
  match m s with
  | Done a s' => rc_ok n k s' /\ Q a
  | DataError => True
  | Stray | Endless => False
  end.

(** The constants as numbers, for [lia]. *)
Ltac lzma_consts :=
  change IsMatch with 0 in *; change IsRep with 192 in *; change IsRepG0 with 204 in *;
  change IsRepG1 with 216 in *; change IsRepG2 with 228 in *; change IsRep0Long with 240 in *;
  change PosSlot with 432 in *; change SpecPos with 688 in *; change Align with 802 in *;
  change LenCoder with 818 in *; change RepLenCoder with 1332 in *; change Literal with 1846 in *;
  change LZMA_BASE_SIZE with 1846 in *; change LZMA_LIT_SIZE with 768 in *;
  change LenChoice with 0 in *; change LenChoice2 with 1 in *; change LenLow with 2 in *;
  change LenMid with 130 in *; change LenHigh with 258 in *;
  change kNumPosBitsMax with 4 in *; change kNumLitStates with 7 in *;
  change kLenNumLowBits with 3 in *; change kLenNumMidBits with 3 in *; change kLenNumHighBits with 8 in *;
  change kLenNumLowSymbols with 8 in *; change kLenNumMidSymbols with 8 in *;
  change kNumPosSlotBits with 6 in *; change kNumLenToPosStates with 4 in *;
  change kStartPosModelIndex with 4 in *; change kEndPosModelIndex with 14 in *;
  change kNumAlignBits with 4 in *; change kMatchMinLen with 2 in *;
  change kNumBitModelTotalBits with 11 in *; change kBitModelTotal with 2048 in *;
  change kNumMoveBits with 5 in *; change kTopValue with (2 ^ 24) in *.

Section safe.
Context {n k : nat}.

Lemma safe_ret {A} (a : A) (Q : A -> Prop) : Q a -> safe n k (mret a) Q.
Proof. intros HQ s Hs. by split. Qed.

Lemma safe_bind {A B} (m : D A) (f : A -> D B) P Q :
  safe n k m P -> (forall a, P a -> safe n k (f a) Q) -> safe n k (a ← m; f a) Q.
Proof.
  intros Hm Hf s Hs. unfold mbind, D_bind. specialize (Hm s Hs). destruct (m s); try done.
  destruct Hm as [Hs' Ha]. by apply Hf.
Qed.

Lemma safe_weaken {A} (m : D A) (P Q : A -> Prop) : safe n k m P -> (forall a, P a -> Q a) -> safe n k m Q.
Proof. intros Hm HPQ s Hs. specialize (Hm s Hs). destruct (m s); naive_solver. Qed.

Lemma safe_error {A} (Q : A -> Prop) : safe n k data_error Q.
Proof. by intros s Hs. Qed.

Lemma safe_normalize : safe n k rc_normalize (fun _ => True).
Proof.
  intros s [Hp Hb]. unfold rc_normalize, rc_next. split_ifs; [|done].
  destruct (Buffer s) eqn:Eb; [done|]. split; [|done]. split; [done|]. simpl in *. lia.
Qed.

Definition bit (b : Z) : Prop := b = 0 \/ b = 1.

Lemma safe_bit p : 0 <= p < Z.of_nat n -> safe n k (rc_bit p) bit.
Proof.
  intros Hp. apply (safe_bind _ _ (fun _ => True)); [apply safe_normalize|]. intros _ _ s [Hn Hb].
  unfold rc_decide. destruct (p <? 0) eqn:E; zify_bool; [lia|].
  destruct (lookup_lt_is_Some_2 (Probs s) (Z.to_nat p)) as [x ->]; [lia|].
  destruct (_ <? _); (split; [split|]; [simpl; by rewrite length_insert|done|by (left + right)]).
Qed.

Lemma safe_tree_loop i probs res j : i <> O -> 0 <= probs -> 2 ^ j <= res < 2 ^ (j + 1) -> 0 <= j ->
  probs + 2 ^ (j + Z.of_nat i) <= Z.of_nat n ->
  safe n k (tree_loop i probs res) (fun r => 2 ^ (j + Z.of_nat i) <= r < 2 ^ (j + Z.of_nat i + 1)).
Proof.
  revert res j. induction i as [|i IH]; intros res j Hi Hp Hr Hj Hn; [done|]. cbn [tree_loop].
  assert (2 ^ (j + 1) <= 2 ^ (j + Z.of_nat (S i))) by (apply Z.pow_le_mono_r; lia).
  assert (2 ^ (j + 1) = 2 * 2 ^ j) by (rewrite Z.pow_add_r; lia).
  assert (2 ^ (j + 1 + 1) = 2 * 2 ^ (j + 1)) by (rewrite Z.pow_add_r; lia).
  eapply safe_bind; [apply safe_bit; lia|]. intros b Hb.
  assert (2 ^ (j + 1) <= res + res + b < 2 ^ (j + 1 + 1)) by (destruct Hb; subst; lia).
  destruct i as [|i].
  - apply safe_ret. replace (j + Z.of_nat 1) with (j + 1) by lia. done.
  - replace (j + Z.of_nat (S (S i))) with (j + 1 + Z.of_nat (S i)) in * by lia. by apply IH; try lia.
Qed.

Lemma safe_tree probs numLevels : 0 < numLevels -> 0 <= probs -> probs + 2 ^ numLevels <= Z.of_nat n ->
  safe n k (RangeDecoderBitTreeDecode probs numLevels) (fun r => 0 <= r < 2 ^ numLevels).
Proof.
  intros Hl Hp Hn. unfold RangeDecoderBitTreeDecode. eapply safe_bind.
  { apply (safe_tree_loop _ _ _ 0); rewrite ?Z.add_0_l, ?Z2Nat.id; try lia; done. }
  intros r. rewrite Z.add_0_l, Z2Nat.id by lia. rewrite Z.pow_add_r by lia. intros Hr. apply safe_ret.
  rewrite Z.shiftl_1_l. lia.
Qed.

Lemma safe_direct i r : i <> O -> safe n k (direct_loop i r) (fun _ => True).
Proof.
  revert r. induction i as [|i IH]; intros r Hi; [done|]. cbn [direct_loop].
  eapply safe_bind; [apply safe_normalize|]. intros _ _. apply (safe_bind _ _ (fun _ => True)).
  { intros s Hs. unfold rc_direct. by destruct (_ >=? _). }
  intros r' _. destruct i; [by apply safe_ret|]. by apply IH.
Qed.

Lemma safe_reverse i prob mi d r j : i <> O -> 0 <= j -> 2 ^ j <= mi < 2 ^ (j + 1) ->
  0 <= prob + mi -> prob + 2 ^ (j + Z.of_nat i) <= Z.of_nat n ->
  safe n k (reverse_loop i prob mi d r) (fun _ => True).
Proof.
  revert mi d r j. induction i as [|i IH]; intros mi d r j Hi Hj Hm Hp Hn; [done|]. cbn [reverse_loop].
  assert (2 ^ (j + 1) <= 2 ^ (j + Z.of_nat (S i))) by (apply Z.pow_le_mono_r; lia).
  assert (2 ^ (j + 1) = 2 * 2 ^ j) by (rewrite Z.pow_add_r; lia).
  assert (2 ^ (j + 1 + 1) = 2 * 2 ^ (j + 1)) by (rewrite Z.pow_add_r; lia).
  eapply safe_bind; [apply safe_bit; lia|]. intros b Hb. destruct i as [|i]; [by apply safe_ret|].
  assert (2 ^ (j + 1) <= mi + mi + b < 2 ^ (j + 1 + 1)) by (destruct Hb; subst; lia).
  apply (IH _ _ _ (j + 1)); try lia.
  by replace (j + 1 + Z.of_nat (S i)) with (j + Z.of_nat (S (S i))) by lia.
Qed.

(** [fuel] and the symbol together give eight bits. *)
Lemma safe_literal_loop fuel prob symbol j : 0 <= prob -> prob + 256 <= Z.of_nat n ->
  0 <= j <= 8 -> 8 <= j + Z.of_nat fuel -> 2 ^ j <= symbol < 2 ^ (j + 1) ->
  safe n k (literal_loop fuel prob symbol) (fun r => 256 <= r < 512).
Proof.
  revert symbol j. induction fuel as [|fuel IH]; intros symbol j Hp Hn Hj Hf Hs; cbn [literal_loop].
  - replace j with 8 in * by lia. destruct (symbol <? 0x100) eqn:E; zify_bool; [lia|]. by apply safe_ret.
  - destruct (decide (j = 8)) as [->|].
    { destruct (symbol <? 0x100) eqn:E; zify_bool; [lia|]. by apply safe_ret. }
    assert (2 ^ (j + 1) <= 2 ^ 8) by (apply Z.pow_le_mono_r; lia).
    assert (2 ^ (j + 1) = 2 * 2 ^ j) by (rewrite Z.pow_add_r; lia).
    assert (2 ^ (j + 1 + 1) = 2 * 2 ^ (j + 1)) by (rewrite Z.pow_add_r; lia).
    assert (0 < 2 ^ j) by (apply Z.pow_pos_nonneg; lia).
    destruct (symbol <? 0x100) eqn:E; zify_bool; [|lia].
    eapply safe_bind; [apply safe_bit; lia|]. intros b Hb. apply (IH _ (j + 1)); try lia.
    destruct Hb; subst; lia.
Qed.

Lemma bit8 x : Z.land x 0x100 = 0 \/ Z.land x 0x100 = 0x100.
Proof.
  assert (H : Z.land x 0x100 = if Z.testbit x 8 then 0x100 else 0).
  { apply Z.bits_inj'. intros i Hi. rewrite Z.land_spec. change 0x100 with (2 ^ 8).
    rewrite testbit_pow2 by lia. case_bool_decide; subst.
    - destruct (Z.testbit x 8); rewrite ?Z.bits_0, ?Z.pow2_bits_true by lia; done.
    - rewrite andb_false_r. destruct (Z.testbit x 8); rewrite ?Z.bits_0, ?Z.pow2_bits_false by lia; done. }
  rewrite H. destruct (Z.testbit x 8); [by right|by left].
Qed.

Lemma safe_matched_loop fuel prob matchByte symbol j : fuel <> O -> 0 <= prob -> prob + 768 <= Z.of_nat n ->
  0 <= j -> j + Z.of_nat fuel = 8 -> 2 ^ j <= symbol < 2 ^ (j + 1) ->
  safe n k (matched_loop fuel prob matchByte symbol)
    (fun r => exists j, 0 <= j <= 8 /\ 2 ^ j <= r < 2 ^ (j + 1)).
Proof.
  revert matchByte symbol j. induction fuel as [|fuel IH]; intros matchByte symbol j Hf Hp Hn Hj Hfj Hs; [done|].
  cbn [matched_loop]. assert (2 ^ (j + 1) <= 2 ^ 8) by (apply Z.pow_le_mono_r; lia).
  assert (2 ^ (j + 1) = 2 * 2 ^ j) by (rewrite Z.pow_add_r; lia).
  assert (2 ^ (j + 1 + 1) = 2 * 2 ^ (j + 1)) by (rewrite Z.pow_add_r; lia).
  assert (0 < 2 ^ j) by (apply Z.pow_pos_nonneg; lia).
  pose proof (bit8 (Z.shiftl matchByte 1)) as Hm. eapply safe_bind; [apply safe_bit; lia|]. intros b Hb.
  assert (2 ^ (j + 1) <= symbol + symbol + b < 2 ^ (j + 1 + 1)) by (destruct Hb; subst; lia).
  assert (Hdone : safe n k (mret (symbol + symbol + b))
                    (fun r => exists j, 0 <= j <= 8 /\ 2 ^ j <= r < 2 ^ (j + 1))).
  { apply safe_ret. exists (j + 1). lia. }
  destruct (if b =? 0 then _ else _); [done|]. destruct (_ <? 0x100) eqn:E; [|done]. zify_bool.
  destruct fuel as [|fuel].
  - replace j with 7 in * by lia. change (2 ^ (7 + 1)) with 256 in *. lia.
  - apply (IH _ _ (j + 1)); try lia; done.
Qed.
End safe.

(** ** Symbols *)

(** The properties LzmaDecodeProperties lets through. *)
Definition prop_ok (p : CLzmaProperties) : Prop := 0 <= lc p <= 8 /\ 0 <= lp p <= 4 /\ 0 <= pb p <= 4.

(** [out] is the output array the caller gave. *)
Record lz_ok (out : list Z) (z : lz) : Prop := {
  lz_length : length (outStream z) = length out;
  lz_pos : 0 <= nowPos z <= Z.of_nat (length out);
  lz_prev : byte (previousByte z);
  lz_bytes : Forall byte (outStream z);
  lz_state : 0 <= state z < 12;
  lz_state_pos : 7 <= state z -> 1 <= nowPos z;
  lz_rep0 : 1 <= rep0 z <= Z.max 1 (nowPos z);
  lz_rep1 : 1 <= rep1 z <= Z.max 1 (nowPos z);
  lz_rep2 : 1 <= rep2 z <= Z.max 1 (nowPos z);
  lz_rep3 : 1 <= rep3 z <= Z.max 1 (nowPos z);
  lz_rest : drop (Z.to_nat (nowPos z)) (outStream z) = drop (Z.to_nat (nowPos z)) out
}.

(** A symbol under way: the state and the newest distance may be new. *)
Lemma lz_ok_change out z st r0 r1 r2 r3 : lz_ok out z -> 0 <= st < 12 -> (7 <= st -> 1 <= nowPos z) ->
  Forall (fun r => 1 <= r <= Z.max 1 (nowPos z)) [r0; r1; r2; r3] ->
  lz_ok out (set_state st (set_reps r0 r1 r2 r3 z)).
Proof. intros Hz Hst Hpos Hr. destruct Hz. rewrite !Forall_cons in Hr. by split; naive_solver. Qed.

(** The place of the models of a short distance, slot by slot. *)
Definition spec_pos_fits (posSlot : Z) : bool :=
  let d := Z.shiftr posSlot 1 - 1 in
  let rep0 := u32 (Z.shiftl (Z.lor 2 (Z.land posSlot 1)) d) in
  (1 <=? d) && (688 <=? SpecPos + rep0 - posSlot) && (SpecPos + rep0 - posSlot - 1 + 2 ^ d <=? Align).

Lemma spec_pos_ok posSlot : 4 <= posSlot < 14 -> spec_pos_fits posSlot = true.
Proof.
  intros Hs. assert (H : forallb spec_pos_fits (seqZ 4 10) = true) by reflexivity.
  rewrite forallb_forall in H. apply H, list_elem_of_In, elem_of_seqZ. lia.
Qed.

Lemma land_ones_bounds x w : 0 <= w -> 0 <= Z.land x (Z.shiftl 1 w - 1) < 2 ^ w.
Proof.
  intros Hw. rewrite Z.shiftl_1_l, Z.sub_1_r, <- Z.ones_equiv, Z.land_ones by lia.
  apply Z.mod_pos_bound. by apply Z.pow_pos_nonneg.
Qed.

Lemma posState_bounds prop z : prop_ok prop -> 0 <= Z.land (nowPos z) (posStateMask prop) < 16.
Proof.
  intros (? & ? & ?). pose proof (land_ones_bounds (nowPos z) (pb prop) ltac:(lia)).
  assert (2 ^ pb prop <= 2 ^ 4) by (apply Z.pow_le_mono_r; lia). unfold posStateMask. lia.
Qed.

Section symbols.
Context (prop : CLzmaProperties) (Hprop : prop_ok prop).
Context (out : list Z) (Hout : Z.of_nat (length out) < 2 ^ 32).
Context (n k : nat).
Context (Hn : Literal + Z.shiftl LZMA_LIT_SIZE (lc prop + lp prop) <= Z.of_nat n).
Local Abbreviation safe := (safe n k).

Lemma base_fits : 1846 + 768 * 2 ^ (lc prop + lp prop) <= Z.of_nat n /\ 1 <= 2 ^ (lc prop + lp prop).
Proof.
  destruct Hprop as (? & ? & ?). assert (0 < 2 ^ (lc prop + lp prop)) by (apply Z.pow_pos_nonneg; lia).
  rewrite Z.shiftl_mul_pow2 in Hn by lia. lzma_consts. lia.
Qed.

Lemma safe_peek z : lz_ok out z -> 1 <= nowPos z -> safe (peek z) byte.
Proof.
  intros [] Hp. unfold peek. rewrite wrap_small by lia.
  destruct (lookup_lt_is_Some_2 (outStream z) (Z.to_nat (nowPos z - rep0 z))) as [b Hb]; [lia|].
  rewrite Hb. apply safe_ret. by eapply Forall_lookup_1.
Qed.

(** A byte more. *)
Lemma safe_put z b : lz_ok out z -> byte b -> nowPos z < Z.of_nat (length out) ->
  safe (put b z) (fun z' => lz_ok out z' /\ nowPos z' = nowPos z + 1 /\ state z' = state z /\
    length (outStream z') = length (outStream z) /\ rep0 z' = rep0 z).
Proof.
  intros [] Hb Hp. unfold put. rewrite lz_length0, (proj2 (Z.ltb_lt _ _) Hp). apply safe_ret. simpl.
  rewrite length_insert. split_and!; try done. split; simpl; try lia; rewrite ?length_insert; try done.
  - by apply Forall_insert.
  - replace (Z.to_nat (nowPos z + 1)) with (1 + Z.to_nat (nowPos z))%nat by lia.
    rewrite drop_insert_lt by lia. rewrite Nat.add_comm, <- !drop_drop. by rewrite lz_rest0.
Qed.

Lemma safe_copy_loop len z : lz_ok out z -> len <> O -> 1 <= nowPos z < Z.of_nat (length out) ->
  safe (copy_loop len z) (fun z' => lz_ok out z' /\ nowPos z < nowPos z').
Proof.
  revert z. induction len as [|len IH]; intros z Hz Hl Hp; [done|]. cbn [copy_loop].
  eapply safe_bind; [apply safe_peek; [done|lia]|]. intros b Hb.
  eapply safe_bind; [apply safe_put; [done|done|lia]|]. intros z' (Hz' & Hp' & _ & Hl' & _).
  assert (Hret : safe (mret z') (fun z' => lz_ok out z' /\ nowPos z < nowPos z')).
  { apply safe_ret. split; [done|lia]. }
  destruct len as [|len]; [done|]. destruct (_ <? _) eqn:E; [|done]. zify_bool.
  eapply safe_weaken; [apply IH; [done|done|]|].
  - destruct Hz'. lia.
  - intros z'' [? ?]. split; [done|lia].
Qed.

(** What a turn of the main loop promises. *)
Definition advanced (z z' : lz) : Prop := lz_ok out z' /\ nowPos z < nowPos z'.

Lemma safe_literal z : lz_ok out z -> nowPos z < Z.of_nat (length out) ->
  safe (decode_literal prop z) (advanced z).
Proof.
  intros Hz Hp. pose proof base_fits as [Hb1 Hb2]. destruct Hprop as (? & ? & ?). unfold decode_literal. cbv zeta.
  set (probs := Literal + LZMA_LIT_SIZE * _).
  assert (1846 <= probs /\ probs + 768 <= Z.of_nat n) as [? ?].
  { unfold probs, literalPosMask. lzma_consts.
    pose proof (land_ones_bounds (nowPos z) (lp prop) ltac:(lia)) as Ha. pose proof (lz_prev _ _ Hz) as Hc.
    rewrite Z.shiftl_mul_pow2, Z.shiftr_div_pow2 by lia.
    set (a := Z.land _ _) in *. set (c := previousByte z / 2 ^ (8 - lc prop)).
    assert (0 <= c < 2 ^ lc prop).
    { unfold c, byte in *. split; [apply Z.div_pos; [lia|apply Z.pow_pos_nonneg; lia]|].
      apply Z.div_lt_upper_bound; [apply Z.pow_pos_nonneg; lia|]. rewrite <- Z.pow_add_r by lia.
      replace (8 - lc prop + lc prop) with 8 by lia. lia. }
    rewrite (Z.pow_add_r 2 (lc prop)) in * by lia. nia. }
  apply (safe_bind _ _ (fun r => exists j, 0 <= j <= 8 /\ 2 ^ j <= r < 2 ^ (j + 1))).
  { destruct (_ >=? _) eqn:E; zify_bool.
    - eapply safe_bind; [apply safe_peek; [done|]|].
      + apply (lz_state_pos _ _ Hz). lzma_consts. lia.
      + intros m _. apply (safe_matched_loop _ _ _ _ 0); lia || done.
    - apply safe_ret. exists 0. lia. }
  intros symbol (j & Hj & Hs). eapply safe_bind; [apply (safe_literal_loop _ _ _ j); lia|]. intros r Hr.
  eapply safe_bind; [apply safe_put; [done| |done]|].
  { apply (wrap_bounds 8). lia. }
  intros z' (Hz' & Hp' & Hs' & _ & _). apply safe_ret. split; [|simpl; lia].
  pose proof (lz_state _ _ Hz). pose proof (lz_state_pos _ _ Hz).
  apply (lz_ok_change out z' _ (rep0 z') (rep1 z') (rep2 z') (rep3 z')); try done.
  - split_ifs; zify_bool; lia.
  - intros _. destruct Hz. lia.
  - destruct Hz'. repeat constructor; lia.
Qed.

Lemma safe_len prob posState : LenCoder <= prob <= RepLenCoder -> 0 <= posState < 16 ->
  safe (decode_len prob posState) (fun len => 0 <= len < 272).
Proof.
  pose proof base_fits. intros Hp Hs. unfold decode_len. rewrite !Z.shiftl_mul_pow2 by (lzma_consts; lia).
  lzma_consts. eapply safe_bind; [apply safe_bit; lia|]. intros b _. destruct (b =? 0).
  { eapply safe_bind; [apply safe_tree; lia|]. intros r Hr. apply safe_ret. simpl in *. lia. }
  eapply safe_bind; [apply safe_bit; lia|]. intros b' _. destruct (b' =? 0);
    (eapply safe_bind; [apply safe_tree; lia|]; intros r Hr; apply safe_ret; simpl in *; lia).
Qed.

Lemma safe_distance len : 0 <= len -> safe (decode_distance len) (fun _ => True).
Proof.
  pose proof base_fits. intros Hl. unfold decode_distance. rewrite (Z.shiftl_mul_pow2 (if len <? _ then _ else _)) by done.
  lzma_consts. eapply safe_bind; [apply safe_tree; try lia; split_ifs; zify_bool; lia|]. intros posSlot Hs.
  destruct (posSlot >=? 4) eqn:E4; [|by apply safe_ret]. zify_bool.
  destruct (posSlot <? 14) eqn:E14; zify_bool.
  - pose proof (spec_pos_ok posSlot ltac:(lia)) as Hf. unfold spec_pos_fits in Hf.
    apply andb_true_iff in Hf as [Hf ?]. apply andb_true_iff in Hf as [??]. zify_bool. lzma_consts.
    apply (safe_reverse _ _ _ _ _ 0); try lia. rewrite Z.add_0_l, Z2Nat.id by lia. lia.
  - rewrite Z.shiftr_div_pow2 by lia. eapply safe_bind; [apply safe_direct; zdiv|]. intros r _.
    apply (safe_reverse _ _ _ _ _ 0); [done|done|lia|lia|]. change (2 ^ _) with 16. lia.
Qed.

(** Between the kind of a match and its copy: at the start of the output the
    state may already be the one behind a match. *)
Definition in_match (z : lz) : Prop :=
  0 <= nowPos z < Z.of_nat (length out) /\ 1 <= rep0 z /\ (1 <= nowPos z -> lz_ok out z) /\
  length (outStream z) = length out /\ drop (Z.to_nat (nowPos z)) (outStream z) = drop (Z.to_nat (nowPos z)) out.

(** What is left when the main loop ends. *)
Definition finished (z : lz) : Prop :=
  0 <= nowPos z <= Z.of_nat (length out) /\ length (outStream z) = length out /\
  drop (Z.to_nat (nowPos z)) (outStream z) = drop (Z.to_nat (nowPos z)) out.

Lemma lz_ok_finished z : lz_ok out z -> finished z.
Proof. by intros []. Qed.

(** The end of a turn that began at [z]. *)
Definition turn (z : lz) (r : lz + lz) : Prop :=
  match r with inl z' => finished z' | inr z' => advanced z z' end.

Lemma safe_copy z len : in_match z -> 0 <= len -> safe (decode_copy len z) (turn z).
Proof.
  intros (Hp & Hr & Hz & Hlen & Hd) Hl. unfold decode_copy. cbv zeta.
  assert (Hcopy : forall z', nowPos z' = nowPos z -> 1 <= rep0 z' -> (rep0 z' <= nowPos z' -> lz_ok out z') ->
    safe (if rep0 z' >? nowPos z' then data_error
          else z'' ← copy_loop (Z.to_nat (len + kMatchMinLen)) z'; mret (inr z'')) (turn z)).
  { intros z' Hn' Hr' Hz'. destruct (_ >? _) eqn:E; [apply safe_error|]. rewrite Z.gtb_ltb in E. zify_bool.
    lzma_consts. eapply safe_bind; [apply safe_copy_loop; [by apply Hz'|lia|lia]|].
    intros z'' [? ?]. apply safe_ret. split; [done|]. lia. }
  destruct (state z <? 4) eqn:E; [|apply Hcopy; [done|done|intros; apply Hz; lia]]. zify_bool.
  eapply safe_bind; [by apply safe_distance|]. intros r _. set (z' := set_reps _ _ _ _ _).
  assert (0 <= rep0 z') by (apply (wrap_bounds 32); lia).
  destruct (rep0 z' =? 0) eqn:E0; [apply safe_ret; split_and!; simpl; (lia || done)|]. zify_bool.
  apply (Hcopy z'); [done|lia|]. intros Hle.
  assert (Hok : lz_ok out z) by (apply Hz; change (nowPos z') with (nowPos z) in Hle; lia).
  apply (lz_ok_change out z (state z + kNumLitStates) (u32 (r + 1)) (rep1 z) (rep2 z) (rep3 z)); lzma_consts.
  - done.
  - destruct Hok. lia.
  - change (nowPos z') with (nowPos z) in Hle. lia.
  - change (rep0 z') with (u32 (r + 1)) in *. change (nowPos z') with (nowPos z) in Hle.
    destruct Hok. repeat constructor; lia.
Qed.

(** The state and the distances may change inside a match. *)
Lemma in_match_change z st r0 r1 r2 r3 : lz_ok out z -> nowPos z < Z.of_nat (length out) -> 0 <= st < 12 ->
  Forall (fun r => 1 <= r <= Z.max 1 (nowPos z)) [r0; r1; r2; r3] ->
  in_match (set_state st (set_reps r0 r1 r2 r3 z)).
Proof.
  intros Hz Hp Hst Hr. split_and!; simpl; try (destruct Hz; done || lia).
  - rewrite Forall_cons in Hr. lia.
  - intros. by apply lz_ok_change.
Qed.

Lemma safe_rep z posState : lz_ok out z -> nowPos z < Z.of_nat (length out) -> 0 <= posState < 16 ->
  safe (decode_rep posState z)
    (fun r => match r with inl z' => advanced z z' | inr z' => in_match z' /\ nowPos z' = nowPos z end).
Proof.
  pose proof base_fits. intros Hz Hp Hs. pose proof (lz_state _ _ Hz). unfold decode_rep. cbv zeta.
  rewrite Z.shiftl_mul_pow2 by (lzma_consts; lia). lzma_consts.
  assert (Hlong : forall r0 r1 r2 r3,
    Forall (fun r => 1 <= r <= Z.max 1 (nowPos z)) [r0; r1; r2; r3] ->
    in_match (set_state (if state z <? 7 then 8 else 11) (set_reps r0 r1 r2 r3 z))).
  { intros. apply in_match_change; try done. split_ifs; lia. }
  assert (Hreps := conj (lz_rep0 _ _ Hz) (conj (lz_rep1 _ _ Hz) (conj (lz_rep2 _ _ Hz) (lz_rep3 _ _ Hz)))).
  eapply safe_bind; [apply safe_bit; lia|]. intros b _. destruct (b =? 0).
  - eapply safe_bind; [apply safe_bit; lia|]. intros b' _. destruct (b' =? 0).
    + destruct (_ =? 0) eqn:E; [apply safe_error|]. zify_bool.
      assert (Hz' : lz_ok out (set_state (if state z <? 7 then 9 else 11) z)).
      { apply (lz_ok_change out z _ (rep0 z) (rep1 z) (rep2 z) (rep3 z)); [done|split_ifs; lia| |].
        - destruct Hz. lia.
        - repeat constructor; lia. }
      eapply safe_bind; [apply safe_peek; [done|destruct Hz; simpl; lia]|]. intros c Hc.
      eapply safe_bind; [by apply safe_put|]. intros z'' (Hz'' & Hp' & _). apply safe_ret.
      split; [done|]. simpl in Hp'. lia.
    + apply safe_ret. split; [|done]. apply (Hlong (rep0 z) (rep1 z) (rep2 z) (rep3 z)). repeat constructor; lia.
  - eapply safe_bind; [apply safe_bit; lia|]. intros b' _. destruct (b' =? 0).
    { apply safe_ret. split; [|done]. apply Hlong. repeat constructor; lia. }
    eapply safe_bind; [apply safe_bit; lia|]. intros b'' _.
    destruct (b'' =? 0); (apply safe_ret; split; [|done]; apply Hlong; repeat constructor; lia).
Qed.

Lemma safe_match z : lz_ok out z -> nowPos z < Z.of_nat (length out) -> safe (decode_match prop z) (turn z).
Proof.
  pose proof base_fits. intros Hz Hp. pose proof (lz_state _ _ Hz). pose proof (posState_bounds prop z Hprop).
  unfold decode_match. cbv zeta.
  eapply safe_bind; [apply safe_bit; lzma_consts; lia|]. intros b _. destruct (b =? 0).
  - eapply safe_bind; [apply safe_len; [lzma_consts; lia|done]|]. intros len Hlen. cbv beta in Hlen.
    set (z' := set_state _ _). eapply safe_weaken; [apply (safe_copy z'); [|lia]|].
    + apply in_match_change; try done; [split_ifs; lia|]. destruct Hz. repeat constructor; lia.
    + done.
  - eapply safe_bind; [by apply safe_rep|]. intros [z'|z'].
    + intros Hz'. by apply safe_ret.
    + intros [Hz' Hn']. eapply safe_bind; [apply safe_len; [lzma_consts; lia|done]|]. intros len Hlen. cbv beta in Hlen.
      eapply safe_weaken; [apply safe_copy; [done|lia]|]. intros [?|?]; [done|]. unfold turn, advanced. by rewrite Hn'.
Qed.

Lemma safe_symbol z : lz_ok out z -> nowPos z < Z.of_nat (length out) -> safe (decode_symbol prop z) (turn z).
Proof.
  pose proof base_fits. intros Hz Hp. pose proof (lz_state _ _ Hz). pose proof (posState_bounds prop z Hprop).
  unfold decode_symbol. cbv zeta. rewrite Z.shiftl_mul_pow2 by (lzma_consts; lia).
  eapply safe_bind; [apply safe_bit; lzma_consts; lia|]. intros b _. destruct (b =? 0); [|by apply safe_match].
  eapply safe_bind; [by apply safe_literal|]. intros z' Hz'. by apply safe_ret.
Qed.

(** ** The whole decoder *)

(** What LzmaDecode may return. *)
Definition returned (inSize : Z) (r : lzma_result) : Prop :=
  exists res i o out', r = Returned res i o out' /\
    (res = LZMA_RESULT_OK \/ res = LZMA_RESULT_DATA_ERROR) /\ length out' = length out /\
    0 <= i <= inSize /\ 0 <= o <= Z.of_nat (length out) /\
    (res = LZMA_RESULT_OK -> drop (Z.to_nat o) out' = drop (Z.to_nat o) out).

Lemma returned_error inSize out' : 0 <= inSize -> length out' = length out ->
  returned inSize (Returned LZMA_RESULT_DATA_ERROR 0 0 out').
Proof using. intros. do 4 eexists. split; [done|]. split_and!; try done; [by right|apply Nat2Z.is_nonneg]. Qed.

Lemma decode_loop_returns fuel z s : lz_ok out z -> rc_ok n k s ->
  Z.of_nat (length out) <= nowPos z + Z.of_nat fuel -> returned (Z.of_nat k) (decode_loop prop fuel (Z.of_nat k) z s).
Proof.
  assert (Hfinish : forall z s, finished z -> rc_ok n k s ->
    returned (Z.of_nat k)
      match rc_normalize s with
      | Done _ s => Returned LZMA_RESULT_OK (Z.of_nat k - Z.of_nat (length (Buffer s))) (nowPos z) (outStream z)
      | DataError => Returned LZMA_RESULT_DATA_ERROR 0 0 (outStream z)
      | Stray => Strayed
      | Endless => Hung
      end).
  { clear z s fuel. intros z s (Hp & Hl & Hd) Hs. pose proof (safe_normalize s Hs) as Hn'.
    destruct (rc_normalize s) as [[] s'| | |]; try done; [|apply returned_error; [lia|done]].
    destruct Hn' as [[_ Hb] _]. do 4 eexists. split; [done|]. split_and!; try done; lia. }
  revert z s. induction fuel as [|fuel IH]; intros z s Hz Hs Hf; cbn [decode_loop].
  - rewrite (proj2 (Z.ltb_ge _ _)); [apply Hfinish; [by apply lz_ok_finished|done]|].
    rewrite (lz_length _ _ Hz). lia.
  - rewrite (lz_length _ _ Hz). destruct (_ <? _) eqn:E; [|apply Hfinish; [by apply lz_ok_finished|done]]. zify_bool.
    pose proof (safe_symbol z Hz E s Hs) as Ht.
    destruct (decode_symbol prop z s) as [[z'|z'] s'| | |]; try done.
    + destruct Ht as [Hs' Ht]. by apply Hfinish.
    + destruct Ht as [Hs' [Hz' Hp']]. apply IH; [done|done|]. lia.
    + apply returned_error; [lia|]. by destruct Hz.
Qed.
End symbols.

Lemma LzmaDecode_returns prop probs inp out : prop_ok prop -> Z.of_nat (length out) < 2 ^ 32 ->
  Forall byte out -> LzmaGetNumProbs prop <= Z.of_nat (length probs) ->
  returned out (Z.of_nat (length inp)) (LzmaDecode prop probs inp out).
Proof.
  intros Hprop Hout Hbytes Hprobs. unfold LzmaDecode. cbv zeta.
  set (num := Literal + _) in *. change (num <= Z.of_nat (length probs)) in Hprobs.
  destruct (_ <? _)%nat eqn:E; [apply Nat.ltb_lt in E; lia|]. apply Nat.ltb_ge in E.
  set (probs' := replicate _ _ ++ _).
  assert (Hlen : length probs' = length probs) by (unfold probs'; list_len; lia). clear E.
  assert (Hinit : safe (length probs) (length inp) (rc_init_loop 5) (fun _ => True)).
  { assert (Hnext : safe (length probs) (length inp) (rc_next 0xFFFFFFFF) (fun _ => True)).
    { intros s [Hp Hb]. unfold rc_next. destruct (Buffer s) eqn:Eb; [done|].
      split; [|done]. split; [done|]. simpl in *. lia. }
    simpl. do 5 (eapply safe_bind; [done|]; intros _ _). by apply safe_ret. }
  specialize (Hinit (Rc inp 0xFFFFFFFF 0 probs') (conj Hlen (le_n _))). unfold rc_init.
  destruct (rc_init_loop 5 _) as [[] s| | |]; try done; [|apply returned_error; [lia|done]].
  destruct Hinit as [Hs _]. apply (decode_loop_returns prop Hprop out Hout (length probs)); try done.
  split; simpl; done || lia.
Qed.

Lemma count_off_spec fuel d n x : 0 < d -> 0 <= x < d * (Z.of_nat fuel + 1) ->
  count_off fuel d n x = (n + x / d, x mod d).
Proof.
  intros Hd. revert n x. induction fuel as [|fuel IH]; intros n x Hx; cbn [count_off].
  - rewrite Z.div_small, Z.mod_small, Z.add_0_r by lia. done.
  - destruct (x >=? d) eqn:E; zify_bool; rewrite ?Z.geb_leb in E; zify_bool.
    + rewrite IH by lia. replace (x mod d) with ((x - d) mod d).
      * f_equal. replace x with (x - d + 1 * d) at 2 by lia. rewrite Z.div_add by lia. lia.
      * replace x with (x - d + 1 * d) at 2 by lia. by rewrite Z.mod_add by lia.
    + rewrite Z.div_small, Z.mod_small, Z.add_0_r by lia. done.
Qed.

(** The first byte of the properties is [(pb * 5 + lp) * 9 + lc]. *)
Lemma properties_spec data size : byte (nth 0 data 0) ->
  LzmaDecodeProperties data size =
  let b := nth 0 data 0 in
  if (size <? 5) || (225 <=? b) then None else Some (mkProps (b mod 45 mod 9) (b mod 45 / 9) (b / 45)).
Proof.
  intros Hb. unfold LzmaDecodeProperties. change LZMA_PROPERTIES_SIZE with 5. cbv zeta.
  set (b := nth 0 data 0) in *. unfold byte in Hb. destruct (size <? 5); [done|]. simpl orb. rewrite Z.geb_leb.
  change (9 * 5 * 5) with 225. destruct (225 <=? b) eqn:E; [done|]. zify_bool.
  rewrite count_off_spec by (simpl; lia). change (9 * 5) with 45.
  pose proof (Z.mod_pos_bound b 45 ltac:(lia)). rewrite count_off_spec by (simpl; lia). by rewrite !Z.add_0_l.
Qed.

Lemma properties_ok data size p : byte (nth 0 data 0) -> LzmaDecodeProperties data size = Some p -> prop_ok p.
Proof.
  intros Hb. rewrite properties_spec by done. cbv zeta. destruct (_ || _) eqn:E; [done|]. zify_bool.
  intros [= <-]. unfold byte in Hb. split_and!; simpl; zdiv.
Qed.

(** ** Theorem *)

(** C15: Whatever bytes it is given, the decompressor returns: its loops end, it
    reads and writes no array outside its bounds - the input it was given, the
    output of the announced size, the probabilities the caller allocated with
    [LzmaGetNumProbs] - and what it reports as read and written lies within
    them; behind the bytes written the output is as it was. *)
Theorem lzma_decode_safe data size prop probs inp out :
  byte (nth 0 data 0) -> LzmaDecodeProperties data size = Some prop ->
  LzmaGetNumProbs prop <= Z.of_nat (length probs) ->
  Forall byte out -> Z.of_nat (length out) < 2 ^ 32 ->
  exists res i o out', LzmaDecode prop probs inp out = Returned res i o out' /\
    (res = LZMA_RESULT_OK \/ res = LZMA_RESULT_DATA_ERROR) /\ length out' = length out /\
    0 <= i <= Z.of_nat (length inp) /\ 0 <= o <= Z.of_nat (length out) /\
    (res = LZMA_RESULT_OK -> drop (Z.to_nat o) out' = drop (Z.to_nat o) out).
Proof.
  intros Hb Hprop Hprobs Hbytes Hout. by apply LzmaDecode_returns; [eapply properties_ok|..].
Qed.

(** A stream that the reference implementation made of eleven bytes, and the
    same stream cut short. *)
Definition abracadabra : list Z := [0; 48; 153; 174; 168; 34; 196; 19; 4; 96; 5; 184; 147; 255; 255; 179; 38; 0; 0].

Lemma lzma_decode_safe_witness :
  LzmaDecode (mkProps 0 0 0) (replicate 2614 0) abracadabra (replicate 11 0) =
    Returned LZMA_RESULT_OK 13 11 [97; 98; 114; 97; 99; 97; 100; 97; 98; 114; 97] /\
  exists res i o out', LzmaDecode (mkProps 0 0 0) (replicate 2614 0) (take 9 abracadabra) (replicate 11 0) =
    Returned res i o out' /\ res = LZMA_RESULT_DATA_ERROR /\ length out' = 11%nat.
Proof.
  split; [vm_compute; reflexivity|].
  destruct (lzma_decode_safe [0] 5 (mkProps 0 0 0) (replicate 2614 0) (take 9 abracadabra) (replicate 11 0))
    as (res & i & o & out' & E & Hres & Hl & _).
  - unfold byte. simpl. lia.
  - reflexivity.
  - reflexivity.
  - repeat constructor; unfold byte; lia.
  - reflexivity.
  - exists res, i, o, out'. split; [done|]. split; [|done]. revert E. vm_compute. congruence.
Defined.
