(* ===== verification/LzmaEnc.v ===== *)
(** * The compressor on the host: src/host_util/lzma/C/LzmaEnc.c

    The part that writes: the range coder, the coders of literals, lengths and
    distances, and the loop of LzmaEnc_CodeOneBlock.  What the loop codes at each
    place is the answer of GetOptimum; here it is a list, so that what is proved
    holds whatever the match finder and the price estimates choose.  The output
    buffer with its flushes is the list of bytes written. *)

From S2P Require Import Prelude.

(** ** Constants and tables *)

Definition kTopValue : Z := Z.shiftl 1 24.
Definition kNumBitModelTotalBits : Z := 11.
Definition kBitModelTotal : Z := Z.shiftl 1 kNumBitModelTotalBits.
Definition kNumMoveBits : Z := 5.
Definition kProbInitValue : Z := Z.shiftr kBitModelTotal 1.

Definition kNumLenToPosStates : Z := 4.
Definition kNumPosSlotBits : Z := 6.
Definition kNumAlignBits : Z := 4.
Definition kAlignTableSize : Z := Z.shiftl 1 kNumAlignBits.
Definition kAlignMask : Z := kAlignTableSize - 1.
Definition kStartPosModelIndex : Z := 4.
Definition kEndPosModelIndex : Z := 14.
Definition kNumFullDistances : Z := Z.shiftl 1 (kEndPosModelIndex / 2).

Definition kLenNumLowBits : Z := 3.
Definition kLenNumLowSymbols : Z := Z.shiftl 1 kLenNumLowBits.
Definition kLenNumMidBits : Z := 3.
Definition kLenNumMidSymbols : Z := Z.shiftl 1 kLenNumMidBits.
Definition kLenNumHighBits : Z := 8.
Definition LZMA_NUM_REPS : Z := 4.
Definition LZMA_MATCH_LEN_MIN : Z := 2.

Definition kLiteralNextStates : list Z := [0; 0; 0; 0; 1; 2; 3; 4; 5; 6; 4; 5].
Definition kMatchNextStates : list Z := [7; 7; 7; 7; 7; 7; 7; 10; 10; 10; 10; 10].
Definition kRepNextStates : list Z := [8; 8; 8; 8; 8; 8; 8; 11; 11; 11; 11; 11].
Definition kShortRepNextStates : list Z := [9; 9; 9; 9; 9; 9; 9; 11; 11; 11; 11; 11].
Definition next_state (table : list Z) (state : Z) : Z := nth (Z.to_nat state) table 0.

Definition IsCharState (s : Z) : bool := s <? 7.
Definition GetLenToPosState (len : Z) : Z :=
  if len <? kNumLenToPosStates + 1 then len - 2 else kNumLenToPosStates - 1.

(** The table of LzmaEnc_FastPosInit: each slot [2^(slot/2 - 1)] times. *)
Fixpoint fast_pos_loop (slots : nat) (slotFast : Z) : list Z :=
  match slots with
  | O => []
  | S slots =>
      let k := Z.shiftl 1 (Z.shiftr slotFast 1 - 1) in
      replicate (Z.to_nat k) (u8 slotFast) ++ fast_pos_loop slots (slotFast + 1)
  end.

Definition LzmaEnc_FastPosInit (kNumLogBits : Z) : list Z :=
  0 :: 1 :: fast_pos_loop (Z.to_nat (kNumLogBits * 2 - 2)) 2.

(** [GetPosSlot]; [kNumLogBits] is 11 where size_t has four bytes, 13 where it
    has eight. *)
Definition BSR2_RET (kNumLogBits : Z) (g_FastPos : list Z) (pos : Z) : Z :=
  let m := Z.shiftr (u32 (Z.shiftl 1 (kNumLogBits + 6) - 1 - pos)) 31 in
  let i := 6 + Z.land (kNumLogBits - 1) (u32 (0 - m)) in
  nth (Z.to_nat (Z.shiftr pos i)) g_FastPos 0 + i * 2.
Definition GetPosSlot (kNumLogBits : Z) (g_FastPos : list Z) (pos : Z) : Z :=
  if pos <? kNumFullDistances then nth (Z.to_nat pos) g_FastPos 0
  else BSR2_RET kNumLogBits g_FastPos pos.

(** ** State *)

(** The models: the fields of CLzmaEnc and of CLenEnc with their indices. *)
Inductive len_prob := choice | choice2 | low_ (i : Z) | mid (i : Z) | high (i : Z).
Inductive prob :=
  | isMatch (state posState : Z) | isRep (state : Z) | isRepG0 (state : Z) | isRepG1 (state : Z)
  | isRepG2 (state : Z) | isRep0Long (state posState : Z)
  | posSlotEncoder (i j : Z) | posEncoders (i : Z) | posAlignEncoder (i : Z)
  | lenEnc (l : len_prob) | repLenEnc (l : len_prob) | litProbs (i : Z).

#[export] Instance len_prob_eq_dec : EqDecision len_prob.
Proof. solve_decision. Defined.
#[export] Instance prob_eq_dec : EqDecision prob.
Proof. solve_decision. Defined.

Record CRangeEnc := mkRc { range : Z; cache : Z; low : Z; cacheSize : Z; written : list Z }.

(** The range coder with the models it adapts. *)
Record coder := mkCoder { rc : CRangeEnc; probs : prob -> Z }.

Definition set_prob (l : prob) (v : Z) (f : prob -> Z) : prob -> Z :=
  fun l' => if decide (l' = l) then v else f l'.

(** ** The range coder *)

Definition RangeEnc_Init : CRangeEnc := mkRc 0xFFFFFFFF 0 0 1 [].

(** [do { ... temp = 0xFF; } while (--p->cacheSize != 0)] from [n] on; [carry] is
    [(Byte)(p->low >> 32)]. *)
Fixpoint shift_bytes (n : nat) (temp carry : Z) (out : list Z) : list Z :=
  match n with
  | O => out
  | S n => shift_bytes n 0xFF carry (out ++ [u8 (temp + carry)])
  end.

Definition RangeEnc_ShiftLow (p : CRangeEnc) : CRangeEnc :=
  let p :=
    if (u32 (low p) <? 0xFF000000) || negb (i32 (Z.shiftr (low p) 32) =? 0) then
      mkRc (range p) (u8 (Z.shiftr (u32 (low p)) 24)) (low p) 0
        (shift_bytes (Z.to_nat (cacheSize p)) (cache p) (u8 (Z.shiftr (low p) 32)) (written p))
    else p in
  mkRc (range p) (cache p) (u32 (Z.shiftl (u32 (low p)) 8)) (cacheSize p + 1) (written p).

Definition RangeEnc_FlushData (p : CRangeEnc) : CRangeEnc := Nat.iter 5 RangeEnc_ShiftLow p.

(** [if (p->range < kTopValue) { p->range <<= 8; RangeEnc_ShiftLow(p); }]. *)
Definition enc_normalize (p : CRangeEnc) : CRangeEnc :=
  if range p <? kTopValue then
    RangeEnc_ShiftLow (mkRc (u32 (Z.shiftl (range p) 8)) (cache p) (low p) (cacheSize p) (written p))
  else p.

(** [p->low] is a UInt64. *)
Definition add_low (d : Z) (range : Z) (p : CRangeEnc) : CRangeEnc :=
  mkRc range (cache p) (wrap 64 (low p + d)) (cacheSize p) (written p).

Definition direct_bit (bit : Z) (p : CRangeEnc) : CRangeEnc :=
  let range := Z.shiftr (range p) 1 in
  enc_normalize (add_low (Z.land range (u32 (0 - bit))) range p).

(** [do ... while (numBits != 0)]. *)
Fixpoint direct_bits_loop (numBits : nat) (value : Z) (p : CRangeEnc) : CRangeEnc :=
  match numBits with
  | O => p
  | S n => direct_bits_loop n value (direct_bit (Z.land (Z.shiftr value (Z.of_nat n)) 1) p)
  end.
Definition RangeEnc_EncodeDirectBits (value numBits : Z) (c : coder) : coder :=
  mkCoder (direct_bits_loop (Z.to_nat numBits) value (rc c)) (probs c).

Definition RangeEnc_EncodeBit (l : prob) (symbol : Z) (c : coder) : coder :=
  let p := rc c in
  let ttt := probs c l in
  let newBound := u32 (Z.shiftr (range p) kNumBitModelTotalBits * ttt) in
  if symbol =? 0 then
    mkCoder (enc_normalize (add_low 0 newBound p))
      (set_prob l (u16 (ttt + Z.shiftr (kBitModelTotal - ttt) kNumMoveBits)) (probs c))
  else
    mkCoder (enc_normalize (add_low newBound (u32 (range p - newBound)) p))
      (set_prob l (u16 (ttt - Z.shiftr ttt kNumMoveBits)) (probs c)).

(** ** Literals, trees, lengths *)

(** A pointer to models is a function of the index.  A byte takes eight turns:
    [symbol] starts below 0x200 and ends at 0x10000. *)
Fixpoint lit_loop (turns : nat) (at_ : Z -> prob) (symbol : Z) (c : coder) : coder :=
  match turns with
  | O => c
  | S turns =>
      let c := RangeEnc_EncodeBit (at_ (Z.shiftr symbol 8)) (Z.land (Z.shiftr symbol 7) 1) c in
      let symbol := Z.shiftl symbol 1 in
      if symbol <? 0x10000 then lit_loop turns at_ symbol c else c
  end.
Definition LitEnc_Encode (at_ : Z -> prob) (symbol : Z) (c : coder) : coder :=
  lit_loop 8 at_ (Z.lor symbol 0x100) c.

Fixpoint lit_matched_loop (turns : nat) (at_ : Z -> prob) (offs symbol matchByte : Z) (c : coder) : coder :=
  match turns with
  | O => c
  | S turns =>
      let matchByte := Z.shiftl matchByte 1 in
      let c := RangeEnc_EncodeBit (at_ (offs + Z.land matchByte offs + Z.shiftr symbol 8))
                 (Z.land (Z.shiftr symbol 7) 1) c in
      let symbol := Z.shiftl symbol 1 in
      let offs := Z.land offs (Z.lnot (Z.lxor matchByte symbol)) in
      if symbol <? 0x10000 then lit_matched_loop turns at_ offs symbol matchByte c else c
  end.
Definition LitEnc_EncodeMatched (at_ : Z -> prob) (symbol matchByte : Z) (c : coder) : coder :=
  lit_matched_loop 8 at_ 0x100 (Z.lor symbol 0x100) matchByte c.

Fixpoint tree_enc_loop (i : nat) (at_ : Z -> prob) (symbol m : Z) (c : coder) : coder :=
  match i with
  | O => c
  | S i =>
      let bit := Z.land (Z.shiftr symbol (Z.of_nat i)) 1 in
      tree_enc_loop i at_ symbol (Z.lor (Z.shiftl m 1) bit) (RangeEnc_EncodeBit (at_ m) bit c)
  end.
Definition RcTree_Encode (at_ : Z -> prob) (numBitLevels symbol : Z) (c : coder) : coder :=
  tree_enc_loop (Z.to_nat numBitLevels) at_ symbol 1 c.

Fixpoint tree_reverse_loop (i : nat) (at_ : Z -> prob) (symbol m : Z) (c : coder) : coder :=
  match i with
  | O => c
  | S i =>
      let bit := Z.land symbol 1 in
      tree_reverse_loop i at_ (Z.shiftr symbol 1) (Z.lor (Z.shiftl m 1) bit) (RangeEnc_EncodeBit (at_ m) bit c)
  end.
Definition RcTree_ReverseEncode (at_ : Z -> prob) (numBitLevels symbol : Z) (c : coder) : coder :=
  tree_reverse_loop (Z.to_nat numBitLevels) at_ symbol 1 c.

Definition LenEnc_Encode (p : len_prob -> prob) (symbol posState : Z) (c : coder) : coder :=
  if symbol <? kLenNumLowSymbols then
    let c := RangeEnc_EncodeBit (p choice) 0 c in
    RcTree_Encode (fun i => p (low_ (Z.shiftl posState kLenNumLowBits + i))) kLenNumLowBits symbol c
  else
    let c := RangeEnc_EncodeBit (p choice) 1 c in
    if symbol <? kLenNumLowSymbols + kLenNumMidSymbols then
      let c := RangeEnc_EncodeBit (p choice2) 0 c in
      RcTree_Encode (fun i => p (mid (Z.shiftl posState kLenNumMidBits + i))) kLenNumMidBits
        (symbol - kLenNumLowSymbols) c
    else
      let c := RangeEnc_EncodeBit (p choice2) 1 c in
      RcTree_Encode (fun i => p (high i)) kLenNumHighBits (symbol - kLenNumLowSymbols - kLenNumMidSymbols) c.

(** ** The loop of LzmaEnc_CodeOneBlock *)

(** [reps], [state] and [nowPos32] of the encoder. *)
Record enc := mkEnc { cd : coder; state : Z; reps0 : Z; reps1 : Z; reps2 : Z; reps3 : Z; nowPos : Z }.

Definition on_coder (f : coder -> coder) (p : enc) : enc :=
  mkEnc (f (cd p)) (state p) (reps0 p) (reps1 p) (reps2 p) (reps3 p) (nowPos p).
Definition set_state (st : Z) (p : enc) : enc :=
  mkEnc (cd p) st (reps0 p) (reps1 p) (reps2 p) (reps3 p) (nowPos p).
Definition set_reps (r0 r1 r2 r3 : Z) (p : enc) : enc :=
  mkEnc (cd p) (state p) r0 r1 r2 r3 (nowPos p).
Definition add_pos (len : Z) (p : enc) : enc :=
  mkEnc (cd p) (state p) (reps0 p) (reps1 p) (reps2 p) (reps3 p) (u32 (nowPos p + len)).

Section block.
Variables (lc lp pb : Z).

(** [slot] is GetPosSlot. *)
Variable slot : Z -> Z.

(** The bytes to compress; [byte_at (nowPos - k)] is [*(data - k)]. *)
Variable data : list Z.
Definition byte_at (i : Z) : Z := nth (Z.to_nat i) data 0.

Definition pbMask : Z := Z.shiftl 1 pb - 1.
Definition lpMask : Z := Z.shiftl 1 lp - 1.
Definition LIT_PROBS (pos prevByte : Z) (i : Z) : prob :=
  litProbs ((Z.shiftl (Z.land pos lpMask) lc + Z.shiftr prevByte (8 - lc)) * 0x300 + i).

(** From the length on, for a match with distance [pos]. *)
Definition encode_distance (len pos : Z) (c : coder) : coder :=
  let posSlot := slot pos in
  let c := RcTree_Encode (posSlotEncoder (GetLenToPosState len)) kNumPosSlotBits posSlot c in
  if posSlot >=? kStartPosModelIndex then
    let footerBits := Z.shiftr posSlot 1 - 1 in
    let base := u32 (Z.shiftl (Z.lor 2 (Z.land posSlot 1)) footerBits) in
    let posReduced := pos - base in
    if posSlot <? kEndPosModelIndex then
      RcTree_ReverseEncode (fun m => posEncoders (base - posSlot - 1 + m)) footerBits posReduced c
    else
      let c := RangeEnc_EncodeDirectBits (Z.shiftr posReduced kNumAlignBits) (footerBits - kNumAlignBits) c in
      RcTree_ReverseEncode posAlignEncoder kNumAlignBits (Z.land posReduced kAlignMask) c
  else c.

(** [if (p->nowPos64 == 0)]: the first byte is a literal. *)
Definition encode_first (p : enc) : enc :=
  let p := on_coder (RangeEnc_EncodeBit (isMatch (state p) 0) 0) p in
  let p := set_state (next_state kLiteralNextStates (state p)) p in
  let curByte := byte_at 0 in
  add_pos 1 (on_coder (LitEnc_Encode litProbs curByte) p).

(** The body of the loop for the answer [len], [pos] of GetOptimum. *)
Definition encode_one (len pos : Z) (p : enc) : enc :=
  let posState := Z.land (nowPos p) pbMask in
  if (len =? 1) && (pos =? 0xFFFFFFFF) then
    let p := on_coder (RangeEnc_EncodeBit (isMatch (state p) posState) 0) p in
    let curByte := byte_at (nowPos p) in
    let at_ := LIT_PROBS (nowPos p) (byte_at (nowPos p - 1)) in
    let p := if IsCharState (state p) then on_coder (LitEnc_Encode at_ curByte) p
             else on_coder (LitEnc_EncodeMatched at_ curByte (byte_at (nowPos p - reps0 p - 1))) p in
    add_pos len (set_state (next_state kLiteralNextStates (state p)) p)
  else
    let p := on_coder (RangeEnc_EncodeBit (isMatch (state p) posState) 1) p in
    if pos <? LZMA_NUM_REPS then
      let p := on_coder (RangeEnc_EncodeBit (isRep (state p)) 1) p in
      let p :=
        if pos =? 0 then
          let p := on_coder (RangeEnc_EncodeBit (isRepG0 (state p)) 0) p in
          on_coder (RangeEnc_EncodeBit (isRep0Long (state p) posState) (if len =? 1 then 0 else 1)) p
        else
          let p := on_coder (RangeEnc_EncodeBit (isRepG0 (state p)) 1) p in
          if pos =? 1 then
            let p := on_coder (RangeEnc_EncodeBit (isRepG1 (state p)) 0) p in
            set_reps (reps1 p) (reps0 p) (reps2 p) (reps3 p) p
          else
            let p := on_coder (RangeEnc_EncodeBit (isRepG1 (state p)) 1) p in
            let p := on_coder (RangeEnc_EncodeBit (isRepG2 (state p)) (pos - 2)) p in
            if pos =? 3 then set_reps (reps3 p) (reps0 p) (reps1 p) (reps2 p) p
            else set_reps (reps2 p) (reps0 p) (reps1 p) (reps3 p) p in
      add_pos len
        (if len =? 1 then set_state (next_state kShortRepNextStates (state p)) p
         else
           let p := on_coder (LenEnc_Encode repLenEnc (len - LZMA_MATCH_LEN_MIN) posState) p in
           set_state (next_state kRepNextStates (state p)) p)
    else
      let p := on_coder (RangeEnc_EncodeBit (isRep (state p)) 0) p in
      let p := set_state (next_state kMatchNextStates (state p)) p in
      let p := on_coder (LenEnc_Encode lenEnc (len - LZMA_MATCH_LEN_MIN) posState) p in
      let pos := u32 (pos - LZMA_NUM_REPS) in
      let p := on_coder (encode_distance len pos) p in
      add_pos len (set_reps pos (reps0 p) (reps1 p) (reps2 p) p).

(** One call of GetOptimum per turn, until no bytes are left. *)
Fixpoint encode_loop (answers : list (Z * Z)) (p : enc) : enc :=
  match answers with
  | [] => p
  | (len, pos) :: answers => encode_loop answers (encode_one len pos p)
  end.

Definition WriteEndMarker (p : enc) : enc :=
  let posState := Z.land (nowPos p) pbMask in
  let p := on_coder (RangeEnc_EncodeBit (isMatch (state p) posState) 1) p in
  let p := on_coder (RangeEnc_EncodeBit (isRep (state p)) 0) p in
  let p := set_state (next_state kMatchNextStates (state p)) p in
  let len := LZMA_MATCH_LEN_MIN in
  let p := on_coder (LenEnc_Encode lenEnc (len - LZMA_MATCH_LEN_MIN) posState) p in
  let p := on_coder (RcTree_Encode (posSlotEncoder (GetLenToPosState len)) kNumPosSlotBits
                       (Z.shiftl 1 kNumPosSlotBits - 1)) p in
  let p := on_coder (RangeEnc_EncodeDirectBits (Z.shiftr (Z.shiftl 1 30 - 1) kNumAlignBits) (30 - kNumAlignBits)) p in
  on_coder (RcTree_ReverseEncode posAlignEncoder kNumAlignBits kAlignMask) p.

Definition LzmaEnc_Init : enc := mkEnc (mkCoder RangeEnc_Init (fun _ => kProbInitValue)) 0 0 0 0 0 0.

(** The calls of LzmaEnc_CodeOneBlock: they go on where the last one stopped, so
    they are one loop. *)
Definition code_blocks (answers : list (Z * Z)) : enc :=
  match data with
  | [] => LzmaEnc_Init
  | _ => encode_loop answers (encode_first LzmaEnc_Init)
  end.

(** LzmaEnc_Encode, with Flush at the end. *)
Definition LzmaEnc_Encode (answers : list (Z * Z)) (writeEndMark : bool) : list Z :=
  let p := code_blocks answers in
  let p := if writeEndMark then WriteEndMarker p else p in
  written (RangeEnc_FlushData (rc (cd p))).
End block.

(** [for (i = 11; i <= 30; i++) ...]: the dictionary size as it is written. *)
Fixpoint dict_loop (turns : nat) (i dictSize : Z) : Z :=
  match turns with
  | O => dictSize
  | S turns =>
      if dictSize <=? u32 (Z.shiftl 2 i) then u32 (Z.shiftl 2 i)
      else if dictSize <=? u32 (Z.shiftl 3 i) then u32 (Z.shiftl 3 i)
      else dict_loop turns (i + 1) dictSize
  end.

Definition LzmaEnc_WriteProperties (lc lp pb dictSize : Z) : list Z :=
  let dictSize := dict_loop 20 11 dictSize in
  u8 ((pb * 5 + lp) * 9 + lc) :: ((fun i => u8 (Z.shiftr dictSize (8 * i))) <$> [0; 1; 2; 3]).
