(* ===== verification/LzmaRange.v ===== *)
(** * The range coder and the range decoder

    The bytes the encoder has written, its pending bytes and [low] are one large
    number; [range] bounds what may still be added to it.  The decoder's [Code]
    is the distance of the input from that number.  [codes f m a]: what [f]
    writes, [m] reads back as [a], on any stream that the rest of the encoding
    produces. *)

From S2P Require Import Prelude LzmaDecode LzmaSafe.
From S2P Require LzmaEnc.

Module E := LzmaEnc.

(** ** Numbers in base 256, most significant byte first *)

Definition val (l : list Z) : Z := foldl (fun a b => a * 256 + b) 0 l.

Lemma val_fold l a : foldl (fun a b => a * 256 + b) a l = a * 256 ^ Z.of_nat (length l) + val l.
Proof.
  unfold val. revert a. induction l as [|b l IH]; intros a; cbn [foldl]; [simpl; lia|].
  rewrite (IH (a * 256 + b)), (IH (0 * 256 + b)),  length_cons, Nat2Z.inj_succ, Z.pow_succ_r by lia. lia.
Qed.

Lemma val_app l k : val (l ++ k) = val l * 256 ^ Z.of_nat (length k) + val k.
Proof. unfold val at 1. rewrite foldl_app. apply val_fold. Qed.

Lemma val_snoc l b : val (l ++ [b]) = val l * 256 + b.
Proof. by rewrite val_app. Qed.

Lemma val_bounds l : Forall byte l -> 0 <= val l < 256 ^ Z.of_nat (length l).
Proof.
  induction l as [|b l IH] using rev_ind; intros Hl; [done|].
  apply Forall_app in Hl as [Hl Hb]. rewrite Forall_singleton in Hb. specialize (IH Hl).
  rewrite val_snoc, length_app, Nat2Z.inj_add, Z.pow_add_r by lia. unfold byte in Hb.
  change (256 ^ Z.of_nat (length [b])) with 256. lia.
Qed.

Lemma val_replicate_ff n : val (replicate n 255) = 256 ^ Z.of_nat n - 1.
Proof.
  induction n as [|n IH]; [done|]. rewrite replicate_S_end, val_snoc, IH, Nat2Z.inj_succ, Z.pow_succ_r by lia. lia.
Qed.

Lemma val_replicate_0 n : val (replicate n 0) = 0.
Proof. induction n as [|n IH]; [done|]. by rewrite replicate_S_end, val_snoc, IH. Qed.

(** ** The number of the encoder *)

(** What is written when the pending bytes are, with and without a carry. *)
Definition prefix (p : E.CRangeEnc) : Z :=
  (val (E.written p) * 256 + E.cache p) * 256 ^ (E.cacheSize p - 1) + (256 ^ (E.cacheSize p - 1) - 1).
Definition whole (p : E.CRangeEnc) : Z := prefix p * 2 ^ 32 + E.low p.
(** Bytes of [prefix]. *)
Definition count (p : E.CRangeEnc) : Z := Z.of_nat (length (E.written p)) + E.cacheSize p.

(** [room] is the width of the interval above [low]. *)
Record enc_ok (p : E.CRangeEnc) (room : Z) : Prop := {
  ok_size : 1 <= E.cacheSize p;
  ok_cache : byte (E.cache p);
  ok_written : Forall byte (E.written p);
  ok_low : 0 <= E.low p;
  ok_room : 0 < room;
  ok_sum : E.low p + room <= 2 ^ 33;
  (** a carry stops at [cache] *)
  ok_carry : 2 ^ 32 < E.low p + room -> E.cache p <= 254
}.

Lemma shift_bytes_spec n temp carry out : byte temp -> carry = 0 \/ carry = 1 /\ temp <= 254 ->
  E.shift_bytes (S n) temp carry out = out ++ (temp + carry) :: replicate n (if carry =? 0 then 255 else 0).
Proof.
  intros Ht Hc. cbn [E.shift_bytes]. rewrite (wrap_small 8 (temp + carry)) by (unfold byte in Ht; lia).
  assert (H : forall n out, E.shift_bytes n 0xFF carry out = out ++ replicate n (if carry =? 0 then 255 else 0)).
  { clear n out. intros n. induction n as [|n IH]; intros out; cbn [E.shift_bytes]; [by rewrite app_nil_r|].
    rewrite IH, <- app_assoc. simpl. by destruct Hc as [->|[-> _]]. }
  by rewrite H, <- app_assoc.
Qed.

(** The three cases of RangeEnc_ShiftLow: the pending bytes go out as they are,
    they go out with a carry, or one more byte of ones becomes pending. *)
Lemma ShiftLow_spec p room : enc_ok p room -> room <= 2 ^ 24 ->
  enc_ok (E.RangeEnc_ShiftLow p) (256 * room) /\
  whole (E.RangeEnc_ShiftLow p) = 256 * whole p /\
  count (E.RangeEnc_ShiftLow p) = count p + 1 /\
  E.range (E.RangeEnc_ShiftLow p) = E.range p /\
  E.low (E.RangeEnc_ShiftLow p) = E.low p mod 2 ^ 24 * 256.
Proof.
  intros [Hs Hc Hw Hl Hr Hsum Hcarry] Hroom. unfold byte in Hc.
  assert (Hlow : u32 (Z.shiftl (u32 (E.low p)) 8) = E.low p mod 2 ^ 24 * 256).
  { rewrite Z.shiftl_mul_pow2 by lia. unfold wrap. change (2 ^ 8) with 256. change (2 ^ 32) with (2 ^ 24 * 256).
    rewrite Z.mul_mod_distr_r by lia. f_equal. apply Z.mod_mod_divide. by exists 256. }
  assert (Hk : exists n, Z.to_nat (E.cacheSize p) = S n /\ E.cacheSize p - 1 = Z.of_nat n).
  { exists (Z.to_nat (E.cacheSize p - 1)). lia. }
  destruct Hk as (n & Hn & Hn').
  set (c := Z.shiftr (E.low p) 32). assert (Hcc : (c = 0 /\ E.low p < 2 ^ 32) \/ (c = 1 /\ 2 ^ 32 <= E.low p)).
  { unfold c. rewrite Z.shiftr_div_pow2 by lia. zdiv. }
  assert (Hi : i32 c = c) by (destruct Hcc as [[-> _]|[-> _]]; done).
  assert (Hu : u8 c = c) by (destruct Hcc as [[-> _]|[-> _]]; done).
  assert (Hpow : 0 < 256 ^ Z.of_nat n) by (apply Z.pow_pos_nonneg; lia).
  pose proof (Z.div_mod (E.low p) (2 ^ 24) ltac:(lia)) as Hdm.
  pose proof (Z.mod_pos_bound (E.low p) (2 ^ 24) ltac:(lia)) as Hmod.
  unfold E.RangeEnc_ShiftLow. fold c. rewrite Hi, Hu.
  destruct ((u32 (E.low p) <? 0xFF000000) || negb (c =? 0)) eqn:E; cbn [E.low E.cacheSize E.written E.cache E.range];
    rewrite Hlow.
  - assert (Hc' : c = 0 \/ c = 1 /\ E.cache p <= 254) by lia.
    rewrite Hn, shift_bytes_spec by done.
    assert (Hcache : u8 (Z.shiftr (u32 (E.low p)) 24) = E.low p / 2 ^ 24 - 256 * c).
    { rewrite Z.shiftr_div_pow2 by lia. unfold wrap. clear - Hcc Hl Hsum Hr. destruct Hcc as [[-> ?]|[-> ?]]; zdiv. }
    rewrite Hcache.
    assert (Hval : val (E.written p ++ (E.cache p + c) :: replicate n (if c =? 0 then 255 else 0)) = prefix p + c).
    { unfold prefix. rewrite Hn', cons_middle, app_assoc, val_app, val_snoc, length_replicate.
      destruct Hc' as [Hc'|[Hc' _]]; rewrite Hc'; cbn [Z.eqb]; rewrite ?val_replicate_ff, ?val_replicate_0; lia. }
    set (out' := E.written p ++ _) in *.
    assert (Hout : length out' = (length (E.written p) + S n)%nat).
    { unfold out'. by rewrite length_app, length_cons, length_replicate. }
    split_and!; try done.
    + split; cbn [E.low E.cacheSize E.written E.cache E.range]; try lia.
      * unfold byte. clear - Hcc Hl Hsum Hr. destruct Hcc as [[-> ?]|[-> ?]]; zdiv.
      * unfold out'. apply Forall_app. split; [done|]. constructor; [unfold byte; lia|]. apply Forall_replicate.
        destruct (c =? 0); unfold byte; lia.
      * intros Hcar. apply Z.le_ngt. intros Hff. destruct Hcc as [[Hc0 ?]|[Hc1 ?]]; [|lia].
        rewrite (wrap_small 32) in E by lia. rewrite Hc0 in E. rewrite orb_false_r in E. lia.
    + unfold whole, prefix at 1. cbn [E.low E.cacheSize E.written E.cache E.range].
      rewrite Hval. change (256 ^ (0 + 1 - 1)) with 1. lia.
    + unfold count. cbn [E.cacheSize E.written]. lia.
  - zify_bool. assert (c = 0) as Hc0 by (destruct (Z.eqb_spec c 0); done).
    rewrite (wrap_small 32) in * by lia.
    split_and!; try done.
    + split; cbn [E.low E.cacheSize E.written E.cache E.range]; try lia; done.
    + unfold whole, prefix. cbn [E.low E.cacheSize E.written E.cache E.range].
      replace (E.cacheSize p + 1 - 1) with (E.cacheSize p - 1 + 1) by lia. rewrite Hn', Z.pow_add_r by lia. lia.
    + unfold count. cbn [E.cacheSize E.written]. lia.
Qed.

(** ** Encoding one bit *)

Definition rc_enc_ok (p : E.CRangeEnc) : Prop := enc_ok p (E.range p) /\ 2 ^ 24 <= E.range p < 2 ^ 32.

(** The interval of [q] lies in that of [p]. *)
Definition narrower (p q : E.CRangeEnc) : Prop :=
  count q = count p /\ whole p <= whole q /\ whole q + E.range q <= whole p + E.range p.

Lemma add_low_spec d range p : enc_ok p (E.range p) -> 0 <= d -> 0 < range -> d + range <= E.range p ->
  let q := E.add_low d range p in
  enc_ok q (E.range q) /\ E.range q = range /\ count q = count p /\ whole q = whole p + d.
Proof.
  intros [] Hd Hr Hsum. unfold E.add_low. rewrite (wrap_small 64) by lia. cbn [E.range].
  split_and!; try done.
  - split; cbn [E.low E.cacheSize E.written E.cache E.range]; try done; lia.
  - unfold whole, prefix. cbn [E.low E.cacheSize E.written E.cache E.range]. lia.
Qed.

Lemma add_low_narrower d range p : enc_ok p (E.range p) -> 0 <= d -> 0 < range -> d + range <= E.range p ->
  narrower p (E.add_low d range p).
Proof.
  intros Hp Hd Hr Hs. destruct (add_low_spec d range p Hp Hd Hr Hs) as (_ & Hr' & Hc & Hw).
  split_and!; [done|lia|lia].
Qed.

(** ** A stream that continues an encoding *)

Definition final (p : E.CRangeEnc) (str : list Z) : Prop :=
  exists j, Z.of_nat (length str) = count p + 4 + Z.of_nat j /\
    whole p * 256 ^ Z.of_nat j <= val str < (whole p + E.range p) * 256 ^ Z.of_nat j.

Lemma final_narrower p q str : narrower p q -> final q str -> final p str.
Proof.
  intros (Hc & Hl & Hh) (j & Hj & H). exists j. split; [lia|].
  assert (0 < 256 ^ Z.of_nat j) by (apply Z.pow_pos_nonneg; lia). nia.
Qed.

Lemma enc_normalize_ok p : enc_ok p (E.range p) -> 2 ^ 16 <= E.range p < 2 ^ 32 ->
  rc_enc_ok (E.enc_normalize p).
Proof.
  intros Hp Hr. unfold E.enc_normalize, rc_enc_ok. change E.kTopValue with (2 ^ 24).
  destruct (_ <? _) eqn:E; zify_bool; [|split; [done|lia]].
  rewrite Z.shiftl_mul_pow2, wrap_small by lia.
  set (p' := E.mkRc _ _ _ _ _). assert (Hp' : enc_ok p' (E.range p)) by (by destruct Hp).
  destruct (ShiftLow_spec p' (E.range p) Hp' ltac:(lia)) as (Hok & _ & _ & Hr' & _). rewrite Hr'.
  change (E.range p') with (E.range p * 2 ^ 8). replace (E.range p * 2 ^ 8) with (256 * E.range p) by lia.
  split; [done|lia].
Qed.

(** What normalising an encoder does to its number. *)
Lemma enc_normalize_spec p : enc_ok p (E.range p) -> 0 < E.range p < 2 ^ 32 ->
  let q := E.enc_normalize p in
  q = p /\ 2 ^ 24 <= E.range p \/
  E.range p < 2 ^ 24 /\ whole q = 256 * whole p /\ E.range q = 256 * E.range p /\ count q = count p + 1.
Proof.
  intros Hp Hr. unfold E.enc_normalize. change E.kTopValue with (2 ^ 24).
  destruct (_ <? _) eqn:E; zify_bool; [|left; split; [done|lia]]. right.
  rewrite Z.shiftl_mul_pow2, wrap_small by lia.
  set (p' := E.mkRc _ _ _ _ _). assert (Hp' : enc_ok p' (E.range p)) by (by destruct Hp).
  destruct (ShiftLow_spec p' (E.range p) Hp' ltac:(lia)) as (_ & Hw & Hc & Hr' & _).
  rewrite Hw, Hc, Hr'. change (whole p') with (whole p). change (count p') with (count p).
  change (E.range p') with (E.range p * 2 ^ 8). split_and!; lia.
Qed.

Lemma final_normalize p str : enc_ok p (E.range p) -> 0 < E.range p < 2 ^ 32 ->
  final (E.enc_normalize p) str -> final p str.
Proof.
  intros Hp Hr. destruct (enc_normalize_spec p Hp Hr) as [[-> _]|(_ & Hw & Hr' & Hc)]; [done|].
  intros (j & Hj & H). exists (1 + j)%nat. split; [lia|]. rewrite Hw, Hr' in H.
  rewrite Nat2Z.inj_add, Z.pow_add_r by lia. change (256 ^ Z.of_nat 1) with 256. lia.
Qed.

(** ** The decoder at the same place *)

(** [s] has read the bytes of [p] and the four behind. *)
Record synced (str : list Z) (p : E.CRangeEnc) (s : rc) : Prop := {
  sync_final : final p str;
  sync_buffer : Buffer s = drop (Z.to_nat (count p + 4)) str;
  sync_range : Range s = E.range p;
  sync_code : Code s = val (take (Z.to_nat (count p + 4)) str) - whole p
}.

Lemma count_nonneg p room : enc_ok p room -> 1 <= count p.
Proof. intros []. unfold count. lia. Qed.

(** [Code] is within [Range]. *)
Lemma synced_code str p s room : Forall byte str -> enc_ok p room -> synced str p s -> 0 <= Code s < E.range p.
Proof.
  intros HS Hp [(j & Hj & H) _ _ Hcode]. pose proof (count_nonneg p room Hp). rewrite Hcode.
  set (c := Z.to_nat (count p + 4)) in *.
  rewrite <- (take_drop c str), val_app in H.
  pose proof (val_bounds (drop c str) ltac:(by apply Forall_drop)) as Hb.
  assert (Hlen : length (drop c str) = j) by (rewrite length_drop; lia). rewrite Hlen in *.
  set (t := val (take c str)) in *. set (d := val (drop c str)) in *.
  assert (0 < 256 ^ Z.of_nat j) by (apply Z.pow_pos_nonneg; lia). nia.
Qed.

(** The decoder normalises before a bit, the encoder behind it. *)
Definition lsynced (str : list Z) (p : E.CRangeEnc) (s : rc) : Prop :=
  exists s', rc_normalize s = Done tt s' /\ synced str p s' /\ Probs s' = Probs s.

Lemma lsynced_intro str p s : Forall byte str -> enc_ok p (E.range p) -> 2 ^ 16 <= E.range p < 2 ^ 32 ->
  final (E.enc_normalize p) str ->
  (final p str -> synced str p s) -> lsynced str (E.enc_normalize p) s.
Proof.
  intros HS Hp Hr Hf Hs. specialize (Hs (final_normalize p str Hp ltac:(lia) Hf)).
  pose proof (synced_code str p s _ HS Hp Hs) as Hcode. destruct Hs as [_ Hb Hrange Hc].
  unfold lsynced, rc_normalize. change kTopValue with (2 ^ 24). rewrite Hrange.
  destruct (enc_normalize_spec p Hp ltac:(lia)) as [[E Hge]|(Hlt & Hw & Hr' & Hcnt)].
  - rewrite E in *. rewrite (proj2 (Z.ltb_ge _ _)) by lia. by exists s.
  - rewrite (proj2 (Z.ltb_lt _ _)) by lia. unfold rc_next. destruct Hf as (j & Hj & Hfin).
    pose proof (count_nonneg p _ Hp). rewrite Hb.
    destruct (lookup_lt_is_Some_2 str (Z.to_nat (count p + 4))) as [b Eb]; [lia|].
    rewrite (drop_S _ _ _ Eb). assert (byte b) as Hbyte by (by eapply Forall_lookup_1).
    eexists. split; [done|]. split; [|done]. split; cbn [Buffer Range Code].
    + by exists j.
    + rewrite Hcnt. f_equal. lia.
    + rewrite Hr', Z.shiftl_mul_pow2, wrap_small by lia. lia.
    + rewrite Hw, Hcnt. replace (Z.to_nat (count p + 1 + 4)) with (S (Z.to_nat (count p + 4))) by lia.
      rewrite (take_S_r _ _ _ Eb), val_snoc. rewrite Z.shiftl_mul_pow2, wrap_small by lia.
      rewrite Z.lor_comm, (lor_add b (Code s) 8) by (unfold byte in Hbyte; lia). lia.
Qed.

(** ** The models of both sides *)

(** Where the decoder keeps a model of the encoder. *)
Definition len_addr (base : Z) (l : E.len_prob) : Z :=
  match l with
  | E.choice => base + LenChoice
  | E.choice2 => base + LenChoice2
  | E.low_ i => base + LenLow + i
  | E.mid i => base + LenMid + i
  | E.high i => base + LenHigh + i
  end.
Definition addr (l : E.prob) : Z :=
  match l with
  | E.isMatch st ps => IsMatch + (st * 16 + ps)
  | E.isRep st => IsRep + st
  | E.isRepG0 st => IsRepG0 + st
  | E.isRepG1 st => IsRepG1 + st
  | E.isRepG2 st => IsRepG2 + st
  | E.isRep0Long st ps => IsRep0Long + (st * 16 + ps)
  | E.posSlotEncoder i j => PosSlot + (i * 64 + j)
  | E.posEncoders i => SpecPos + i
  | E.posAlignEncoder i => Align + i
  | E.lenEnc l => len_addr LenCoder l
  | E.repLenEnc l => len_addr RepLenCoder l
  | E.litProbs i => Literal + i
  end.

(** The sizes of the encoder's arrays; [lits] literal models. *)
Definition len_place (l : E.len_prob) : Prop :=
  match l with
  | E.low_ i | E.mid i => 0 <= i < 128
  | E.high i => 0 <= i < 256
  | _ => True
  end.
Definition place (lits : Z) (l : E.prob) : Prop :=
  match l with
  | E.isMatch st ps | E.isRep0Long st ps => 0 <= st < 12 /\ 0 <= ps < 16
  | E.isRep st | E.isRepG0 st | E.isRepG1 st | E.isRepG2 st => 0 <= st < 12
  | E.posSlotEncoder i j => 0 <= i < 4 /\ 0 <= j < 64
  | E.posEncoders i => 0 <= i < 114
  | E.posAlignEncoder i => 0 <= i < 16
  | E.lenEnc l | E.repLenEnc l => len_place l
  | E.litProbs i => 0 <= i < lits
  end.

Lemma len_addr_inj base l l' : len_place l -> len_place l' -> len_addr base l = len_addr base l' -> l = l'.
Proof. destruct l, l'; simpl; lzma_consts; intros; try done; first [f_equal; lia|lia]. Qed.

Lemma len_addr_bounds base l : len_place l -> base <= len_addr base l < base + 514.
Proof. destruct l; simpl; lzma_consts; lia. Qed.

Lemma addr_bounds lits l : place lits l -> 0 <= addr l < Literal + Z.max 0 lits.
Proof.
  destruct l; simpl; try (lzma_consts; lia);
    intros Hl; [pose proof (len_addr_bounds LenCoder l Hl)|pose proof (len_addr_bounds RepLenCoder l Hl)];
    lzma_consts; lia.
Qed.

(** Different models have different places. *)
Lemma addr_inj lits l l' : place lits l -> place lits l' -> addr l = addr l' -> l = l'.
Proof.
  destruct l as [| | | | | | | | |l|l|], l' as [| | | | | | | | |l'|l'|]; simpl; intros H H' E;
    try (f_equal; by eapply len_addr_inj);
    try pose proof (len_addr_bounds LenCoder _ H); try pose proof (len_addr_bounds LenCoder _ H');
    try pose proof (len_addr_bounds RepLenCoder _ H); try pose proof (len_addr_bounds RepLenCoder _ H');
    lzma_consts; first [exfalso; lia|f_equal; lia].
Qed.

(** ** What is written is read *)

Section codes.
Variable lits : Z.

Definition coder_ok (c : E.coder) : Prop :=
  rc_enc_ok (E.rc c) /\ forall l, 31 <= E.probs c l <= 2017.

Definition in_step (str : list Z) (c : E.coder) (s : rc) : Prop :=
  lsynced str (E.rc c) s /\ forall l, place lits l -> Probs s !! Z.to_nat (addr l) = Some (E.probs c l).

Definition codes {A} (f : E.coder -> E.coder) (m : D A) (a : A) : Prop := forall c, coder_ok c ->
  coder_ok (f c) /\
  (forall str, final (E.rc (f c)) str -> final (E.rc c) str) /\
  forall str s, Forall byte str -> final (E.rc (f c)) str -> in_step str c s ->
  exists s', m s = Done a s' /\ in_step str (f c) s'.

Lemma codes_ret {A} (a : A) : codes (fun c => c) (mret a) a.
Proof. intros c Hc. split_and!; [done|done|]. intros str s _ _ Hs. by exists s. Qed.

Lemma codes_bind {A B} f g (m : D A) (k : A -> D B) a b :
  codes f m a -> codes g (k a) b -> codes (fun c => g (f c)) (m ≫= k) b.
Proof.
  intros Hm Hk c Hc. destruct (Hm c Hc) as (Hc1 & Hf1 & Hs1). destruct (Hk (f c) Hc1) as (Hc2 & Hf2 & Hs2).
  split_and!; [done|by intros str ?; apply Hf1, Hf2|]. intros str s Hstr Hfin Hs.
  destruct (Hs1 str s Hstr (Hf2 str Hfin) Hs) as (s1 & E1 & Hin1).
  destruct (Hs2 str s1 Hstr Hfin Hin1) as (s2 & E2 & Hin2).
  exists s2. split; [|done]. unfold mbind, D_bind. by rewrite E1.
Qed.

Lemma codes_ext {A} f g (m : D A) a : (forall c, f c = g c) -> codes f m a -> codes g m a.
Proof. intros E Hf c Hc. rewrite <- E. by apply Hf. Qed.

Lemma codes_dec_ext {A} f (m m' : D A) a : (forall s, m s = m' s) -> codes f m a -> codes f m' a.
Proof.
  intros E Hf c Hc. destruct (Hf c Hc) as (? & ? & Hs). split_and!; [done|done|]. intros str s. rewrite <- E. apply Hs.
Qed.

(** Nothing is written, the value is computed further. *)
Lemma codes_map {A B} f (m : D A) (k : A -> D B) a b :
  codes f m a -> k a = mret b -> codes f (m ≫= k) b.
Proof. intros Hm Hk. apply (codes_bind f (fun c => c) m k a b Hm). rewrite Hk. apply codes_ret. Qed.

(** The probabilities adapt within their bounds. *)
Lemma prob_up x : 31 <= x <= 2017 ->
  u16 (x + Z.shiftr (2048 - x) 5) = x + (2048 - x) / 32 /\ 31 <= x + (2048 - x) / 32 <= 2017.
Proof.
  intros Hx. rewrite Z.shiftr_div_pow2 by lia. change (2 ^ 5) with 32.
  assert (31 <= x + (2048 - x) / 32 <= 2017) by zdiv. split; [|done]. apply wrap_small. lia.
Qed.

Lemma prob_down x : 31 <= x <= 2017 ->
  u16 (x - Z.shiftr x 5) = x - x / 32 /\ 31 <= x - x / 32 <= 2017.
Proof.
  intros Hx. rewrite Z.shiftr_div_pow2 by lia. change (2 ^ 5) with 32.
  assert (31 <= x - x / 32 <= 2017) by zdiv. split; [|done]. apply wrap_small. lia.
Qed.

(** The split of the range that both sides make. *)
Lemma bound_spec r x : 2 ^ 24 <= r < 2 ^ 32 -> 31 <= x <= 2017 ->
  let bound := u32 (Z.shiftr r 11 * x) in
  bound = r / 2048 * x /\ 2 ^ 16 <= bound < r /\ 2 ^ 16 <= r - bound.
Proof.
  intros Hr Hx. cbv zeta. rewrite Z.shiftr_div_pow2 by lia. change (2 ^ 11) with 2048.
  assert (Hq : 8192 <= r / 2048 < 2 ^ 21) by zdiv. assert (r / 2048 * 2048 <= r) by zdiv.
  set (q := r / 2048) in *. rewrite wrap_small by nia. split_and!; try done; nia.
Qed.

(** A model that one side and the other have updated alike. *)
Lemma probs_update c s l v : place lits l ->
  (forall l, place lits l -> Probs s !! Z.to_nat (addr l) = Some (E.probs c l)) ->
  forall l', place lits l' ->
  <[Z.to_nat (addr l) := v]> (Probs s) !! Z.to_nat (addr l') = Some (E.set_prob l v (E.probs c) l').
Proof.
  intros Hl Hs l' Hl'. unfold E.set_prob. pose proof (addr_bounds _ _ Hl). pose proof (addr_bounds _ _ Hl').
  destruct (decide (l' = l)) as [->|Hne].
  - apply list_lookup_insert_eq. apply lookup_lt_is_Some. eexists. by apply Hs.
  - rewrite list_lookup_insert_ne by (intros E; apply Hne; apply (addr_inj lits); [done..|lia]). by apply Hs.
Qed.

(** The part of a step that both kinds of bits share: the decoder's state behind
    the decision is at the encoder's number. *)
Lemma in_step_next str q s f : Forall byte str -> enc_ok q (E.range q) -> 2 ^ 16 <= E.range q < 2 ^ 32 ->
  final (E.enc_normalize q) str -> (final q str -> synced str q s) ->
  (forall l, place lits l -> Probs s !! Z.to_nat (addr l) = Some (f l)) ->
  in_step str (E.mkCoder (E.enc_normalize q) f) s.
Proof. intros Hstr Hq Hr Hfin Hs Hp. split; [|done]. by apply lsynced_intro. Qed.

Lemma final_step q p str : enc_ok q (E.range q) -> 2 ^ 16 <= E.range q < 2 ^ 32 -> narrower p q ->
  final (E.enc_normalize q) str -> final p str.
Proof. intros Hq Hr Hn Hfin. eapply final_narrower; [done|]. apply final_normalize; [done|lia|done]. Qed.

(** The decoder at a narrower place of the same bytes. *)
Lemma synced_narrower str p q s code ps : synced str p s -> count q = count p -> final q str ->
  code = Code s + whole p - whole q -> synced str q (Rc (Buffer s) (E.range q) code ps).
Proof. intros [_ Hb Hr Hc] Hcount Hf ->. split; cbn; try done; rewrite Hcount; [done|lia]. Qed.

Lemma codes_bit l b : place lits l -> b = 0 \/ b = 1 -> codes (E.RangeEnc_EncodeBit l b) (rc_bit (addr l)) b.
Proof.
  intros Hl Hb [p f] [[Hp Hr] Hf]. cbn [E.rc E.probs] in *. pose proof (addr_bounds _ _ Hl) as Haddr.
  destruct (bound_spec (E.range p) (f l) Hr (Hf l)) as (_ & Hbd & Hbd').
  unfold E.RangeEnc_EncodeBit. cbn [E.rc E.probs]. change E.kNumBitModelTotalBits with 11.
  change E.kBitModelTotal with 2048. change E.kNumMoveBits with 5.
  set (bound := u32 (Z.shiftr (E.range p) 11 * f l)) in *.
  assert (Hprob : forall v, 31 <= v <= 2017 -> forall l', 31 <= E.set_prob l v f l' <= 2017).
  { intros v Hv l'. unfold E.set_prob. by case_decide. }
  set (d := if b =? 0 then 0 else bound). set (r := if b =? 0 then bound else E.range p - bound).
  assert (Hdr : 0 <= d /\ 2 ^ 16 <= r < 2 ^ 32 /\ d + r <= E.range p) by (unfold d, r; destruct (b =? 0); lia).
  destruct Hdr as (Hd & Hr' & Hsum).
  destruct (add_low_spec d r p Hp Hd ltac:(lia) Hsum) as (Hq & Hqr & Hqc & Hqw).
  pose proof (add_low_narrower d r p Hp Hd ltac:(lia) Hsum) as Hnar. set (q := E.add_low d r p) in *.
  set (v := if b =? 0 then f l + (2048 - f l) / 32 else f l - f l / 32).
  assert (Hv : 31 <= v <= 2017) by (unfold v; destruct (b =? 0); [apply prob_up|apply prob_down]; apply Hf).
  assert (Henc : (if b =? 0
      then E.mkCoder (E.enc_normalize (E.add_low 0 bound p)) (E.set_prob l (u16 (f l + Z.shiftr (2048 - f l) 5)) f)
      else E.mkCoder (E.enc_normalize (E.add_low bound (u32 (E.range p - bound)) p))
             (E.set_prob l (u16 (f l - Z.shiftr (f l) 5)) f)) =
    E.mkCoder (E.enc_normalize q) (E.set_prob l v f)).
  { unfold q, v, d, r. rewrite (wrap_small 32 (E.range p - bound)) by lia.
    destruct (b =? 0); [by rewrite (proj1 (prob_up _ (Hf l)))|by rewrite (proj1 (prob_down _ (Hf l)))]. }
  rewrite Henc. cbn [E.rc]. split_and!.
  - split; [apply enc_normalize_ok; [done|lia]|]. by apply Hprob.
  - intros str. apply final_step; [done|lia|done].
  - intros str s Hstr Hfin [(s' & En & Hs & Hps) Hprobs]. cbn [E.rc E.probs] in *. rewrite <- Hps in Hprobs.
    set (s2 := Rc (Buffer s') (E.range q) (Code s' + whole p - whole q) (<[Z.to_nat (addr l) := v]> (Probs s'))).
    assert (Hs2 : final q str -> synced str q s2) by (intros; by apply (synced_narrower str p q)).
    exists s2. split.
    + pose proof (final_normalize q str Hq ltac:(lia) Hfin) as Hfq. specialize (Hs2 Hfq).
      pose proof (synced_code str q s2 _ Hstr Hq Hs2) as Hcode. cbn [Code s2] in Hcode.
      pose proof (synced_code str p s' _ Hstr Hp Hs) as Hcode'.
      unfold rc_bit, mbind, D_bind. rewrite En. unfold rc_decide.
      rewrite (proj2 (Z.ltb_ge _ _)) by lia. rewrite (Hprobs l Hl). cbn [E.probs].
      rewrite (sync_range _ _ _ Hs). change kNumBitModelTotalBits with 11. fold bound.
      change kBitModelTotal with 2048. change kNumMoveBits with 5.
      unfold s2. rewrite Hqw, Hqr in *. unfold d, r, v in *.
      destruct Hb as [->| ->]; cbn [Z.eqb] in *.
      * rewrite (proj2 (Z.ltb_lt _ _)) by lia. rewrite (proj1 (prob_up _ (Hf l))). do 2 f_equal. lia.
      * rewrite (proj2 (Z.ltb_ge _ _)) by lia. rewrite (proj1 (prob_down _ (Hf l))).
        rewrite !wrap_small by lia. do 2 f_equal. lia.
    + apply in_step_next; try (done || lia). intros l' Hl'. cbn [Probs s2].
      apply (probs_update (E.mkCoder p f) s'); done.
Qed.

(** A bit without a model: the range is halved. *)
Lemma codes_direct b rep0 : b = 0 \/ b = 1 ->
  codes (fun c => E.mkCoder (E.direct_bit b (E.rc c)) (E.probs c))
    (_ ← rc_normalize; rc_direct rep0) (Z.lor (u32 (Z.shiftl rep0 1)) b).
Proof.
  intros Hb [p f] [[Hp Hr] Hf]. cbn [E.rc E.probs] in *. unfold E.direct_bit.
  assert (Hh : Z.shiftr (E.range p) 1 = E.range p / 2) by (by rewrite Z.shiftr_div_pow2 by lia).
  set (r := Z.shiftr (E.range p) 1) in *. assert (Hr' : 2 ^ 16 <= r < 2 ^ 32 /\ 2 * r <= E.range p) by zdiv.
  set (d := Z.land r (u32 (0 - b))). assert (Hd : d = r * b).
  { unfold d. destruct Hb as [-> | ->]; [rewrite Z.land_0_r; lia|].
    change (u32 (0 - 1)) with (Z.ones 32). rewrite Z.land_ones, Z.mod_small by lia. lia. }
  assert (0 <= d /\ d + r <= E.range p) as [Hd0 Hsum] by (destruct Hb; subst b; lia).
  destruct (add_low_spec d r p Hp Hd0 ltac:(lia) Hsum) as (Hq & Hqr & Hqc & Hqw).
  pose proof (add_low_narrower d r p Hp Hd0 ltac:(lia) Hsum) as Hnar. set (q := E.add_low d r p) in *.
  split_and!.
  - split; [apply enc_normalize_ok; [done|lia]|done].
  - intros str. apply final_step; [done|lia|done].
  - intros str s Hstr Hfin [(s' & En & Hs & Hps) Hprobs]. cbn [E.rc E.probs] in *. rewrite <- Hps in Hprobs.
    set (s2 := Rc (Buffer s') (E.range q) (Code s' + whole p - whole q) (Probs s')).
    assert (Hs2 : final q str -> synced str q s2) by (intros; by apply (synced_narrower str p q)).
    exists s2. split; [|by apply in_step_next; try done; lia].
    specialize (Hs2 (final_normalize q str Hq ltac:(lia) Hfin)).
    pose proof (synced_code str q s2 _ Hstr Hq Hs2) as Hcode. cbn [Code s2] in Hcode.
    pose proof (synced_code str p s' _ Hstr Hp Hs) as Hcode'.
    unfold mbind, D_bind. rewrite En. unfold rc_direct.
    rewrite (sync_range _ _ _ Hs). fold r. unfold s2. rewrite Hqw, Hqr in *. rewrite Z.geb_leb.
    destruct Hb as [-> | ->].
    + rewrite (proj2 (Z.leb_gt _ _)) by lia. rewrite Z.lor_0_r. do 2 f_equal. lia.
    + rewrite (proj2 (Z.leb_le _ _)) by lia. rewrite (wrap_small 32 (Code s' - r)) by lia. do 2 f_equal. lia.
Qed.
End codes.

(** ** The ends *)

Lemma FlushData_spec p : rc_enc_ok p ->
  let out := E.written (E.RangeEnc_FlushData p) in
  Forall byte out /\ val out = whole p /\ Z.of_nat (length out) = count p + 4.
Proof.
  intros [Hp Hr]. cbv zeta. unfold E.RangeEnc_FlushData.
  assert (Hp1 : enc_ok p 1) by (destruct Hp; split; try done; lia).
  assert (Hiter : forall n, let q := Nat.iter n E.RangeEnc_ShiftLow p in
    enc_ok q 1 /\ whole q = 256 ^ Z.of_nat n * whole p /\ count q = count p + Z.of_nat n).
  { intros n. induction n as [|n (Hq & Hw & Hc)]; [split_and!; [done|change (256 ^ Z.of_nat 0) with 1; cbn; lia|cbn; lia]|].
    rewrite Nat.iter_succ.
    set (q := Nat.iter n _ _) in *. destruct (ShiftLow_spec q 1 Hq ltac:(lia)) as (Hq' & Hw' & Hc' & _).
    split_and!; [|rewrite Nat2Z.inj_succ, Z.pow_succ_r by lia; lia|lia].
    destruct Hq'. split; try done; lia. }
  assert (Hzero : E.low (Nat.iter 4 E.RangeEnc_ShiftLow p) = 0).
  { cbn [Nat.iter nat_rect].
    assert (Hl : forall n, E.low (Nat.iter (S n) E.RangeEnc_ShiftLow p) =
                   E.low (Nat.iter n E.RangeEnc_ShiftLow p) mod 2 ^ 24 * 256).
    { intros n. destruct (Hiter n) as (Hq & _). by apply (ShiftLow_spec _ 1). }
    pose proof (Hl 0%nat) as H0. pose proof (Hl 1%nat) as H1. pose proof (Hl 2%nat) as H2. pose proof (Hl 3%nat) as H3.
    cbn [Nat.iter nat_rect] in *. rewrite H3, H2, H1, H0. clear. zdiv. }
  destruct (Hiter 5%nat) as (Hq5 & Hw5 & Hc5). destruct (Hiter 4%nat) as (Hq4 & _ & _).
  change (Nat.iter 5 E.RangeEnc_ShiftLow p) with (E.RangeEnc_ShiftLow (Nat.iter 4 E.RangeEnc_ShiftLow p)) in *.
  set (q := Nat.iter 4 E.RangeEnc_ShiftLow p) in *.
  assert (Hlast : E.low (E.RangeEnc_ShiftLow q) = 0 /\ E.cache (E.RangeEnc_ShiftLow q) = 0 /\
                  E.cacheSize (E.RangeEnc_ShiftLow q) = 1).
  { unfold E.RangeEnc_ShiftLow. rewrite Hzero. done. }
  destruct Hlast as (Hl & Hca & Hcs). split; [apply Hq5|].
  set (q' := E.RangeEnc_ShiftLow q) in *.
  assert (Hw : whole q' = val (E.written q') * 256 * 2 ^ 32).
  { unfold whole, prefix. rewrite Hl, Hca, Hcs. change (256 ^ (1 - 1)) with 1. lia. }
  assert (Hc : count q' = Z.of_nat (length (E.written q')) + 1) by (unfold count; by rewrite Hcs).
  change (256 ^ Z.of_nat 5) with (256 * 2 ^ 32) in Hw5. lia.
Qed.

(** The bytes of a finished encoding, whatever follows them. *)
Lemma final_flush p tail : rc_enc_ok p -> Forall byte tail ->
  final p (E.written (E.RangeEnc_FlushData p) ++ tail).
Proof.
  intros Hp Ht. destruct (FlushData_spec p Hp) as (_ & Hv & Hl). exists (length tail).
  rewrite length_app, val_app, Hv. split; [lia|]. pose proof (val_bounds tail Ht). destruct Hp as [_ Hr].
  assert (0 < 256 ^ Z.of_nat (length tail)) by (apply Z.pow_pos_nonneg; lia). nia.
Qed.

Definition coder_init : E.coder := E.mkCoder E.RangeEnc_Init (fun _ => E.kProbInitValue).

Lemma coder_init_ok : coder_ok coder_init.
Proof.
  split; [|intros l; done]. split; [|done].
  split; simpl; try done; unfold byte; lia.
Qed.

(** A byte into [Code]. *)
Lemma code_step c b : byte b -> Z.lor (u32 (Z.shiftl c 8)) b = u32 (c * 256 + b).
Proof.
  intros Hb. unfold byte in Hb. rewrite Z.shiftl_mul_pow2 by lia. unfold wrap.
  replace (c * 2 ^ 8 mod 2 ^ 32) with (c mod 2 ^ 24 * 2 ^ 8).
  - rewrite Z.lor_comm, lor_add by lia. zdiv.
  - change (2 ^ 32) with (2 ^ 24 * 2 ^ 8). by rewrite Z.mul_mod_distr_r by lia.
Qed.

Lemma init_synced lits probs str : 0 <= lits ->
  (forall i, (i < Z.to_nat (Literal + lits))%nat -> probs !! i = Some (Z.shiftr kBitModelTotal 1)) ->
  Forall byte str -> final E.RangeEnc_Init str ->
  exists s, rc_init str probs = Done tt s /\ in_step lits str coder_init s.
Proof.
  intros Hlits Hprobs Hstr Hfin. pose proof Hfin as (j & Hj & Hv). change (count E.RangeEnc_Init) with 1 in Hj.
  change (whole E.RangeEnc_Init) with 0 in Hv. change (E.range E.RangeEnc_Init) with 0xFFFFFFFF in Hv.
  destruct str as [|b0 [|b1 [|b2 [|b3 [|b4 rest]]]]]; try (simpl in Hj; lia).
  rewrite !Forall_cons in Hstr. destruct Hstr as (H0 & H1 & H2 & H3 & H4 & Hrest).
  unfold rc_init. cbn [rc_init_loop]. unfold mbind, D_bind, rc_next. cbn [Buffer Code Probs mret D_ret].
  eexists. split; [done|]. split.
  2:{ intros l Hl. pose proof (addr_bounds _ _ Hl). cbn [Probs]. rewrite Hprobs by lia. done. }
  eexists. split; [unfold rc_normalize; cbn [Range]; reflexivity|]. split; [|done].
  split; [done|done|done|]. cbn [Code]. rewrite !code_step by done.
  change (take _ _) with [b0; b1; b2; b3; b4]. change (whole (E.rc coder_init)) with 0.
  assert (Hj' : j = length rest) by (rewrite !length_cons in Hj; lia). subst j.
  change (b0 :: b1 :: b2 :: b3 :: b4 :: rest) with ([b0; b1; b2; b3; b4] ++ rest) in Hv. rewrite val_app in Hv.
  pose proof (val_bounds rest Hrest) as Hr. assert (0 < 256 ^ Z.of_nat (length rest)) by (apply Z.pow_pos_nonneg; lia).
  assert (Hval : val [b0; b1; b2; b3; b4] < 2 ^ 32) by nia. unfold byte in *.
  change (val [b0; b1; b2; b3; b4]) with (((((0 * 256 + b0) * 256 + b1) * 256 + b2) * 256 + b3) * 256 + b4) in *.
  rewrite (wrap_small 32 (0 * 256 + b0)) by lia. rewrite (wrap_small 32 (_ * 256 + b1)) by lia.
  rewrite (wrap_small 32 (_ * 256 + b2)) by lia. rewrite (wrap_small 32 (_ * 256 + b3)) by lia.
  rewrite (wrap_small 32) by lia. lia.
Qed.
