(* ===== verification/LzmaRoundtrip.v ===== *)
(** * What the host compresses, the boot loader decompresses

    Symbol by symbol the decoder reads what the encoder wrote ([codes] of
    LzmaRange), so both sides keep the same state, and the output grows by the
    bytes that were coded. *)

From S2P Require Import Prelude LzmaDecode LzmaSafe LzmaRange.

(** ** Trees *)

Section symbols.
Variable lits : Z.
Local Abbreviation codes := (codes lits).
Local Abbreviation place := (place lits).

(** A pointer of the encoder and the decoder's index of the same models. *)
Definition models (at_ : Z -> E.prob) (base first last : Z) : Prop :=
  forall i, first <= i < last -> place (at_ i) /\ addr (at_ i) = base + i.

Lemma codes_model at_ base first last i b : models at_ base first last -> first <= i < last -> b = 0 \/ b = 1 ->
  codes (E.RangeEnc_EncodeBit (at_ i) b) (rc_bit (base + i)) b.
Proof. intros Hm Hi Hb. destruct (Hm i Hi) as [Hp Ha]. rewrite <- Ha. by apply codes_bit. Qed.

Lemma lor_double m b : b = 0 \/ b = 1 -> Z.lor (Z.shiftl m 1) b = m + m + b.
Proof.
  intros Hb. rewrite Z.shiftl_mul_pow2, Z.lor_comm, lor_add by lia. lia.
Qed.

Lemma land_1 x : Z.land x 1 = x mod 2.
Proof. change 1 with (Z.ones 1). by rewrite Z.land_ones. Qed.

Lemma mod2_bit x : x mod 2 = 0 \/ x mod 2 = 1.
Proof. zdiv. Qed.

Lemma codes_tree_loop at_ base symbol W i m : i <> O -> models at_ base 1 W -> 1 <= m ->
  (m + 1) * 2 ^ Z.of_nat i <= 2 * W ->
  codes (E.tree_enc_loop i at_ symbol m) (tree_loop i base m) (m * 2 ^ Z.of_nat i + symbol mod 2 ^ Z.of_nat i).
Proof.
  revert m. induction i as [|i IH]; intros m Hi Hmod Hm HW; [done|]. cbn [E.tree_enc_loop tree_loop].
  set (b := Z.land _ 1). assert (Hb : b = symbol / 2 ^ Z.of_nat i mod 2).
  { unfold b. by rewrite land_1, Z.shiftr_div_pow2 by lia. }
  assert (b = 0 \/ b = 1) as Hb01 by (rewrite Hb; apply mod2_bit). rewrite lor_double by done.
  assert (0 < 2 ^ Z.of_nat i) by (apply Z.pow_pos_nonneg; lia).
  assert (Hval : m * 2 ^ Z.of_nat (S i) + symbol mod 2 ^ Z.of_nat (S i) =
                 (m + m + b) * 2 ^ Z.of_nat i + symbol mod 2 ^ Z.of_nat i).
  { rewrite Nat2Z.inj_succ, Z.pow_succ_r, (Z.mul_comm 2), Z.rem_mul_r by lia. rewrite <- Hb. lia. }
  rewrite Hval. rewrite Nat2Z.inj_succ, Z.pow_succ_r in HW by lia.
  apply (codes_bind _ (E.RangeEnc_EncodeBit (at_ m) b) (E.tree_enc_loop i at_ symbol (m + m + b)) _ _ b).
  { apply (codes_model _ _ 1 W); [done|nia|done]. }
  destruct i as [|i]; [|apply IH; [done|done|lia|nia]].
  cbn [E.tree_enc_loop]. change (2 ^ Z.of_nat 0) with 1. rewrite Z.mod_1_r, Z.add_0_r, Z.mul_1_r. apply codes_ret.
Qed.

Lemma codes_tree at_ base n symbol : 0 < n -> models at_ base 1 (2 ^ n) -> 0 <= symbol < 2 ^ n ->
  codes (E.RcTree_Encode at_ n symbol) (RangeDecoderBitTreeDecode base n) symbol.
Proof.
  intros Hn Hm Hs. unfold E.RcTree_Encode, RangeDecoderBitTreeDecode.
  eapply codes_map; [apply (codes_tree_loop at_ base symbol (2 ^ n)); [lia|done|lia|]|].
  - rewrite Z2Nat.id by lia. lia.
  - rewrite Z2Nat.id, Z.mod_small, Z.shiftl_1_l by lia. f_equal. lia.
Qed.

Lemma codes_reverse_loop at_ base W i d m r symbol : i <> O -> models at_ base 1 W -> 1 <= m -> 0 <= d ->
  (m + 1) * 2 ^ Z.of_nat i <= 2 * W ->
  codes (E.tree_reverse_loop i at_ symbol m) (reverse_loop i base m (2 ^ d) r)
    (Z.lor r (Z.shiftl (symbol mod 2 ^ Z.of_nat i) d)).
Proof.
  revert d m r symbol. induction i as [|i IH]; intros d m r symbol Hi Hmod Hm Hd HW; [done|].
  cbn [E.tree_reverse_loop reverse_loop].
  rewrite land_1. set (b := symbol mod 2). pose proof (mod2_bit symbol) as Hb01. fold b in Hb01.
  rewrite lor_double by done. assert (0 < 2 ^ Z.of_nat i) by (apply Z.pow_pos_nonneg; lia).
  assert (Hr : Z.lor r (Z.shiftl (symbol mod 2 ^ Z.of_nat (S i)) d) =
    Z.lor (if b =? 0 then r else Z.lor r (2 ^ d)) (Z.shiftl (Z.shiftr symbol 1 mod 2 ^ Z.of_nat i) (d + 1))).
  { rewrite Nat2Z.inj_succ, Z.pow_succ_r, Z.rem_mul_r, Z.shiftr_div_pow2 by lia. fold b. change (2 ^ 1) with 2.
    set (h := symbol / 2 mod _).
    replace (b + 2 * h) with (Z.lor b (Z.shiftl h 1)) by (rewrite Z.shiftl_mul_pow2, lor_add; lia).
    rewrite Z.shiftl_lor. rewrite Z.shiftl_shiftl, (Z.add_comm 1 d), Z.lor_assoc by lia. f_equal.
    destruct Hb01 as [-> | ->]; cbn [Z.eqb]; [by rewrite Z.shiftl_0_l, Z.lor_0_r|by rewrite Z.shiftl_1_l]. }
  rewrite Hr. rewrite Nat2Z.inj_succ, Z.pow_succ_r in HW by lia.
  apply (codes_bind _ (E.RangeEnc_EncodeBit (at_ m) b)
           (E.tree_reverse_loop i at_ (Z.shiftr symbol 1) (m + m + b)) _ _ b).
  { apply (codes_model _ _ 1 W); [done|nia|done]. }
  destruct i as [|i].
  - cbn [E.tree_reverse_loop]. change (2 ^ Z.of_nat 0) with 1. rewrite Z.mod_1_r, Z.shiftl_0_l, Z.lor_0_r.
    apply codes_ret.
  - rewrite (Z.shiftl_mul_pow2 (2 ^ d)), <- Z.pow_add_r by lia. apply IH; [done|done|lia|lia|nia].
Qed.

Lemma codes_reverse at_ base n symbol r : 0 < n -> models at_ base 1 (2 ^ n) -> 0 <= symbol < 2 ^ n ->
  codes (E.RcTree_ReverseEncode at_ n symbol) (reverse_loop (Z.to_nat n) base 1 1 r) (Z.lor r symbol).
Proof.
  intros Hn Hm Hs.
  pose proof (codes_reverse_loop at_ base (2 ^ n) (Z.to_nat n) 0 1 r symbol ltac:(lia) Hm ltac:(lia) ltac:(lia)) as H.
  rewrite Z2Nat.id, Z.mod_small, Z.shiftl_0_r in H by lia. apply H. lia.
Qed.

Lemma codes_direct_loop i value r : i <> O -> 0 <= r -> (r + 1) * 2 ^ Z.of_nat i <= 2 ^ 32 ->
  codes (fun c => E.mkCoder (E.direct_bits_loop i value (E.rc c)) (E.probs c)) (direct_loop i r)
    (r * 2 ^ Z.of_nat i + value mod 2 ^ Z.of_nat i).
Proof.
  revert r. induction i as [|i IH]; intros r Hi Hr HW; [done|]. cbn [E.direct_bits_loop direct_loop].
  set (b := Z.land _ 1). assert (Hb : b = value / 2 ^ Z.of_nat i mod 2).
  { unfold b. by rewrite land_1, Z.shiftr_div_pow2 by lia. }
  assert (b = 0 \/ b = 1) as Hb01 by (rewrite Hb; apply mod2_bit).
  assert (0 < 2 ^ Z.of_nat i) by (apply Z.pow_pos_nonneg; lia).
  rewrite Nat2Z.inj_succ, Z.pow_succ_r in HW by lia.
  assert (Hstep : Z.lor (u32 (Z.shiftl r 1)) b = r + r + b).
  { rewrite Z.shiftl_mul_pow2, wrap_small by nia. rewrite <- (Z.shiftl_mul_pow2 r 1) by lia. by apply lor_double. }
  assert (Hval : r * 2 ^ Z.of_nat (S i) + value mod 2 ^ Z.of_nat (S i) =
                 (r + r + b) * 2 ^ Z.of_nat i + value mod 2 ^ Z.of_nat i).
  { rewrite Nat2Z.inj_succ, Z.pow_succ_r, (Z.mul_comm 2), Z.rem_mul_r by lia. rewrite <- Hb. lia. }
  rewrite Hval. pose proof (codes_direct lits b r Hb01) as Hd. rewrite Hstep in Hd.
  apply (codes_dec_ext _ _ ((_ ← rc_normalize; rc_direct r) ≫= fun r =>
    match i with O => mret r | _ => direct_loop i r end)).
  { intros s. unfold mbind, D_bind. by destruct (rc_normalize s). }
  apply (codes_bind _ _ (fun c => E.mkCoder (E.direct_bits_loop i value (E.rc c)) (E.probs c)) _ _ _ _ Hd).
  destruct i as [|i]; [|apply IH; [done|lia|nia]].
  change (2 ^ Z.of_nat 0) with 1. rewrite Z.mod_1_r, Z.add_0_r, Z.mul_1_r.
  eapply codes_ext; [|apply codes_ret]. by intros [].
Qed.

Lemma codes_direct_bits n value r : 0 < n -> 0 <= r -> (r + 1) * 2 ^ n <= 2 ^ 32 -> 0 <= value < 2 ^ n ->
  codes (E.RangeEnc_EncodeDirectBits value n) (direct_loop (Z.to_nat n) r) (r * 2 ^ n + value).
Proof.
  intros Hn Hr HW Hv. pose proof (codes_direct_loop (Z.to_nat n) value r ltac:(lia) Hr) as H.
  rewrite Z2Nat.id, Z.mod_small in H by lia. by apply H.
Qed.

(** ** Lengths *)

Lemma codes_len p base len posState : (forall l, len_place l -> place (p l) /\ addr (p l) = len_addr base l) ->
  0 <= len < 272 -> 0 <= posState < 16 ->
  codes (E.LenEnc_Encode p len posState) (decode_len base posState) len.
Proof.
  intros Hp Hl Hs. unfold E.LenEnc_Encode, decode_len.
  change E.kLenNumLowSymbols with 8. change E.kLenNumMidSymbols with 8. change kLenNumLowSymbols with 8.
  change kLenNumMidSymbols with 8. change E.kLenNumLowBits with 3. change E.kLenNumMidBits with 3.
  change E.kLenNumHighBits with 8. change kLenNumLowBits with 3. change kLenNumMidBits with 3.
  change kLenNumHighBits with 8. rewrite (Z.shiftl_mul_pow2 posState 3) by lia. change (2 ^ 3) with 8.
  assert (Hbit : forall l b, len_place l -> b = 0 \/ b = 1 ->
    codes (E.RangeEnc_EncodeBit (p l) b) (rc_bit (len_addr base l)) b).
  { intros l b Hl' Hb. destruct (Hp l Hl') as [Hpl <-]. by apply codes_bit. }
  assert (Hmodels : forall f off n, (forall i, len_addr base (f i) = base + off + i) ->
    (forall i, 1 <= i < 2 ^ n -> len_place (f i)) -> models (fun i => p (f i)) (base + off) 1 (2 ^ n)).
  { intros f off n Hf Hpl i Hi. destruct (Hp (f i) (Hpl i Hi)) as [? ->]. by rewrite Hf. }
  destruct (len <? 8) eqn:E8; zify_bool.
  - apply (codes_bind _ (E.RangeEnc_EncodeBit (p E.choice) 0) (E.RcTree_Encode _ 3 len) _ _ 0); [by apply Hbit; [|left]|].
    cbn [Z.eqb]. eapply codes_map; [|by rewrite Z.add_0_r].
    apply codes_tree; [done| |lia]. rewrite <- Z.add_assoc. apply (Hmodels (fun i => E.low_ (posState * 8 + i))).
    + intros i. simpl. lia.
    + intros i Hi. simpl. lia.
  - destruct (len <? 8 + 8) eqn:E16; zify_bool.
    + apply (codes_bind _ (E.RangeEnc_EncodeBit (p E.choice) 1)
               (fun c => E.RcTree_Encode _ 3 (len - 8) (E.RangeEnc_EncodeBit (p E.choice2) 0 c)) _ _ 1);
        [by apply Hbit; [|right]|].
      apply (codes_bind _ (E.RangeEnc_EncodeBit (p E.choice2) 0) (E.RcTree_Encode _ 3 (len - 8)) _ _ 0);
        [by apply Hbit; [|left]|].
      cbn [Z.eqb]. apply (codes_map _ _ _ _ (len - 8)); [|f_equal; lia].
      apply codes_tree; [done| |lia]. rewrite <- Z.add_assoc. apply (Hmodels (fun i => E.mid (posState * 8 + i))).
      * intros i. simpl. lia.
      * intros i Hi. simpl. lia.
    + apply (codes_bind _ (E.RangeEnc_EncodeBit (p E.choice) 1)
               (fun c => E.RcTree_Encode _ 8 (len - 8 - 8) (E.RangeEnc_EncodeBit (p E.choice2) 1 c)) _ _ 1);
        [by apply Hbit; [|right]|].
      apply (codes_bind _ (E.RangeEnc_EncodeBit (p E.choice2) 1) (E.RcTree_Encode _ 8 (len - 8 - 8)) _ _ 1);
        [by apply Hbit; [|right]|].
      cbn [Z.eqb]. apply (codes_map _ _ _ _ (len - 8 - 8)); [|f_equal; lia].
      apply codes_tree; [done| |lia]. apply (Hmodels (fun i => E.high i)).
      * intros i. simpl. lia.
      * intros i Hi. simpl. lia.
Qed.

(** ** Literals *)

(** [B] is the byte with a leading one; [t] bits are done. *)
Lemma lit_shift B t : 0 <= t <= 7 ->
  Z.shiftr (B * 2 ^ t) 8 = B / 2 ^ (8 - t) /\ Z.land (Z.shiftr (B * 2 ^ t) 7) 1 = B / 2 ^ (7 - t) mod 2.
Proof.
  intros Ht. rewrite land_1, !Z.shiftr_div_pow2 by lia.
  assert (H : forall k, t <= k -> B * 2 ^ t / 2 ^ k = B / 2 ^ (k - t)).
  { intros k Hk. replace k with (k - t + t) at 1 by lia. rewrite Z.pow_add_r by lia.
    apply Z.div_mul_cancel_r; apply Z.pow_nonzero; lia. }
  by rewrite !H by lia.
Qed.

Lemma lit_next B t : 0 <= t <= 7 -> B / 2 ^ (7 - t) = B / 2 ^ (8 - t) + B / 2 ^ (8 - t) + B / 2 ^ (7 - t) mod 2.
Proof.
  intros Ht. replace (8 - t) with (7 - t + 1) by lia. rewrite Z.pow_add_r by lia. change (2 ^ 1) with 2.
  rewrite <- Z.div_div by (try apply Z.pow_nonzero; lia). zdiv.
Qed.

Section literal.
Variables (at_ : Z -> E.prob) (base : Z).
Hypothesis Hat : models at_ base 1 768.
Variable B : Z.
Hypothesis HB : 256 <= B < 512.

(** What is known of the symbol after [t] bits. *)
Lemma lit_bounds t : 0 <= t <= 8 -> 2 ^ t <= B / 2 ^ (8 - t) < 2 ^ (t + 1).
Proof.
  intros Ht. assert (0 < 2 ^ (8 - t)) by (apply Z.pow_pos_nonneg; lia).
  assert (2 ^ t * 2 ^ (8 - t) = 256) by (rewrite <- Z.pow_add_r by lia; by replace (t + (8 - t)) with 8 by lia).
  rewrite (Z.pow_add_r 2 t 1) by lia. split; [apply Z.div_le_lower_bound; lia|apply Z.div_lt_upper_bound; lia].
Qed.

Lemma lit_end t : 0 <= t <= 7 -> (B * 2 ^ t * 2 <? 0x10000) = (t <? 7) /\
  (B / 2 ^ (7 - t) <? 0x100) = (t <? 7).
Proof.
  intros Ht. pose proof (lit_bounds (t + 1) ltac:(lia)) as Hb. replace (8 - (t + 1)) with (7 - t) in Hb by lia.
  destruct (t <? 7) eqn:E; zify_bool.
  - assert (2 ^ t <= 2 ^ 6) by (apply Z.pow_le_mono_r; lia).
    assert (2 ^ (t + 1 + 1) <= 2 ^ 8) by (apply Z.pow_le_mono_r; lia).
    split; apply Z.ltb_lt; nia.
  - replace t with 7 in * by lia. split; apply Z.ltb_ge; [lia|]. change (2 ^ (7 + 1)) with 256 in Hb. lia.
Qed.

(** The coder has [n] turns left, the decoder at least as many. *)
Lemma codes_lit_loop n fuel t : (n <= fuel)%nat -> 0 <= t -> t + Z.of_nat n = 8 ->
  codes (E.lit_loop n at_ (B * 2 ^ t)) (literal_loop fuel base (B / 2 ^ (8 - t))) B.
Proof.
  revert fuel t. induction n as [|n IH]; intros fuel t Hf Ht Hft.
  { replace t with 8 by lia. change (2 ^ (8 - 8)) with 1. rewrite Z.div_1_r.
    destruct fuel; cbn [literal_loop]; rewrite (proj2 (Z.ltb_ge _ _)) by lia; apply codes_ret. }
  destruct fuel as [|fuel]; [lia|]. cbn [E.lit_loop literal_loop].
  destruct (lit_shift B t ltac:(lia)) as [-> ->]. pose proof (lit_next B t ltac:(lia)) as Hn.
  destruct (lit_end t ltac:(lia)) as [He _]. pose proof (lit_bounds t ltac:(lia)) as Hb.
  assert (0 < 2 ^ t <= 2 ^ 7) by (split; [apply Z.pow_pos_nonneg|apply Z.pow_le_mono_r]; lia).
  rewrite (Z.pow_add_r 2 t 1) in Hb by lia.
  set (b := B / 2 ^ (7 - t) mod 2) in *. assert (b = 0 \/ b = 1) as Hb01 by apply mod2_bit.
  rewrite (proj2 (Z.ltb_lt (B / 2 ^ (8 - t)) 0x100)) by lia.
  rewrite (Z.shiftl_mul_pow2 (B * 2 ^ t) 1) by lia. change (2 ^ 1) with 2. rewrite He.
  apply (codes_bind _ (E.RangeEnc_EncodeBit (at_ (B / 2 ^ (8 - t))) b)
           (fun c => if t <? 7 then E.lit_loop n at_ (B * 2 ^ t * 2) c else c) _ _ b).
  { apply (codes_model _ _ 1 768); [done|lia|done]. }
  rewrite <- Hn. replace (7 - t) with (8 - (t + 1)) by lia.
  eapply codes_ext; [|apply (IH fuel (t + 1)); lia]. intros c. cbv beta.
  replace (B * 2 ^ t * 2) with (B * 2 ^ (t + 1)) by (rewrite Z.pow_add_r by lia; lia).
  destruct (t <? 7) eqn:E; [done|]. zify_bool. by destruct n; [|lia].
Qed.

(** What is left behind bit [t]. *)
Lemma codes_lit_rest n fuel t : (n <= fuel)%nat -> 0 <= t -> t + Z.of_nat n = 7 ->
  codes (fun c => if t <? 7 then E.lit_loop n at_ (B * 2 ^ t * 2) c else c)
    (literal_loop fuel base (B / 2 ^ (7 - t))) B.
Proof.
  intros Hf Ht Hn. replace (7 - t) with (8 - (t + 1)) by lia.
  eapply codes_ext; [|apply (codes_lit_loop n fuel (t + 1)); lia]. intros c. cbv beta.
  replace (B * 2 ^ t * 2) with (B * 2 ^ (t + 1)) by (rewrite Z.pow_add_r by lia; lia).
  destruct (t <? 7) eqn:E; [done|]. zify_bool. by destruct n; [|lia].
Qed.

Lemma lit_matched_plain n symbol matchByte c :
  E.lit_matched_loop n at_ 0 symbol matchByte c = E.lit_loop n at_ symbol c.
Proof.
  revert symbol matchByte c. induction n as [|n IH]; intros symbol matchByte c; [done|].
  cbn [E.lit_matched_loop E.lit_loop]. rewrite Z.land_0_r, !Z.land_0_l, !Z.add_0_l. by rewrite IH.
Qed.

(** Whether the coder goes on with the match: the bits are compared. *)
Lemma offs_next x y : Z.land 0x100 (Z.lnot (Z.lxor x y)) = if eqb (Z.testbit x 8) (Z.testbit y 8) then 0x100 else 0.
Proof.
  apply Z.bits_inj'. intros i Hi. rewrite Z.land_spec, Z.lnot_spec, Z.lxor_spec by done. change 0x100 with (2 ^ 8).
  rewrite testbit_pow2 by lia. case_bool_decide; subst.
  - destruct (Z.testbit x 8), (Z.testbit y 8); simpl; rewrite ?Z.bits_0, ?Z.pow2_bits_true by lia; done.
  - rewrite andb_false_l. destruct (eqb _ _); rewrite ?Z.bits_0, ?Z.pow2_bits_false by lia; done.
Qed.

Lemma land_bit8 x : Z.land x 0x100 = if Z.testbit x 8 then 0x100 else 0.
Proof.
  apply Z.bits_inj'. intros i Hi. rewrite Z.land_spec. change 0x100 with (2 ^ 8).
  rewrite testbit_pow2 by lia. case_bool_decide; subst.
  - destruct (Z.testbit x 8); rewrite ?Z.bits_0, ?Z.pow2_bits_true by lia; done.
  - rewrite andb_false_r. destruct (Z.testbit x 8); rewrite ?Z.bits_0, ?Z.pow2_bits_false by lia; done.
Qed.

Lemma codes_matched_loop n t M : n <> O -> 0 <= t -> t + Z.of_nat n = 8 ->
  codes (E.lit_matched_loop n at_ 0x100 (B * 2 ^ t) M)
    (symbol ← matched_loop n base M (B / 2 ^ (8 - t)); literal_loop 8 base symbol) B.
Proof.
  revert t M. induction n as [|n IH]; intros t M Hf Ht Hft; [done|]. cbn [E.lit_matched_loop matched_loop].
  destruct (lit_shift B t ltac:(lia)) as [-> Hbit]. rewrite Hbit. pose proof (lit_next B t ltac:(lia)) as Hn.
  destruct (lit_end t ltac:(lia)) as [He He']. pose proof (lit_bounds t ltac:(lia)) as Hb.
  assert (0 < 2 ^ t <= 2 ^ 7) by (split; [apply Z.pow_pos_nonneg|apply Z.pow_le_mono_r]; lia).
  rewrite (Z.pow_add_r 2 t 1) in Hb by lia.
  set (b := B / 2 ^ (7 - t) mod 2) in *. assert (b = 0 \/ b = 1) as Hb01 by apply mod2_bit.
  set (M' := Z.shiftl M 1) in *. rewrite offs_next, land_bit8.
  assert (Htop : Z.testbit (Z.shiftl (B * 2 ^ t) 1) 8 = (b =? 1)).
  { rewrite Z.shiftl_spec by lia. change (8 - 1) with 7. rewrite Z.testbit_odd, <- Z.bit0_odd.
    rewrite land_1 in Hbit. rewrite <- Hbit, <- Z.bit0_mod. by destruct (Z.testbit _ 0). }
  rewrite Htop, (Z.shiftl_mul_pow2 (B * 2 ^ t) 1) by lia. change (2 ^ 1) with 2. rewrite He.
  set (i := 0x100 + (if Z.testbit M' 8 then 0x100 else 0) + B / 2 ^ (8 - t)).
  set (g := fun c => if t <? 7 then E.lit_matched_loop n at_ (if eqb (Z.testbit M' 8) (b =? 1) then 0x100 else 0)
                                      (B * 2 ^ t * 2) M' c else c).
  eapply codes_dec_ext.
  2:{ apply (codes_bind _ (E.RangeEnc_EncodeBit (at_ i) b) g (rc_bit (base + i))
       (fun b => symbol ← (let symbol := B / 2 ^ (8 - t) + B / 2 ^ (8 - t) + b in
          if (if b =? 0 then negb ((if Z.testbit M' 8 then 0x100 else 0) =? 0)
              else (if Z.testbit M' 8 then 0x100 else 0) =? 0) then mret symbol
          else if symbol <? 0x100 then matched_loop n base M' symbol else mret symbol);
          literal_loop 8 base symbol) b).
      { apply (codes_model _ _ 1 768); [done| |done]. unfold i. destruct (Z.testbit M' 8); lia. }
      cbv zeta. rewrite <- Hn.
      pose proof (codes_lit_rest n 8 t ltac:(lia) ltac:(lia) ltac:(lia)) as Hplain.
      assert (Hgo : codes g (symbol ← (if B / 2 ^ (7 - t) <? 0x100 then matched_loop n base M' (B / 2 ^ (7 - t))
                    else mret (B / 2 ^ (7 - t))); literal_loop 8 base symbol) B
                \/ eqb (Z.testbit M' 8) (b =? 1) = false).
      { destruct (eqb _ _) eqn:Eq; [left|by right]. unfold g. rewrite He'. destruct (t <? 7) eqn:E.
        - zify_bool. replace (B * 2 ^ t * 2) with (B * 2 ^ (t + 1)) by (rewrite Z.pow_add_r by lia; lia).
          replace (7 - t) with (8 - (t + 1)) by lia. apply IH; lia.
        - eapply codes_ext; [|apply Hplain]. done. }
      assert (Hbrk : eqb (Z.testbit M' 8) (b =? 1) = false ->
        codes g (symbol ← mret (B / 2 ^ (7 - t)); literal_loop 8 base symbol) B).
      { intros Eq. eapply codes_ext; [|apply Hplain]. intros c. unfold g. rewrite Eq.
        destruct (t <? 7); [|done]. by rewrite lit_matched_plain. }
      destruct Hb01 as [Hb01|Hb01], (Z.testbit M' 8); rewrite Hb01 in *; cbn [eqb Z.eqb negb] in *;
        first [by apply Hbrk|by destruct Hgo]. }
  intros s. cbv zeta. unfold mbind, D_bind. replace (base + i) with
    (base + 256 + (if Z.testbit M' 8 then 256 else 0) + B / 2 ^ (8 - t)) by (unfold i; lia).
  by destruct (rc_bit _ s).
Qed.
End literal.

(** ** Distances *)

(** The first distance of a slot. *)
Definition slot_base (s : Z) : Z := u32 (Z.shiftl (Z.lor 2 (Z.land s 1)) (Z.shiftr s 1 - 1)).

(** [s] is the slot of [pos]. *)
Definition is_slot (s pos : Z) : Prop :=
  (0 <= pos < 4 /\ s = pos) \/
  (4 <= s < 64 /\ slot_base s <= pos < slot_base s + 2 ^ (Z.shiftr s 1 - 1)).

Lemma slot_base_spec s : 4 <= s < 64 ->
  let h := Z.lor 2 (Z.land s 1) in let d := Z.shiftr s 1 - 1 in
  slot_base s = h * 2 ^ d /\ 2 <= h <= 3 /\ 1 <= d <= 30 /\ (s < 14 -> d <= 5) /\ (14 <= s -> 6 <= d).
Proof.
  intros Hs. cbv zeta. unfold slot_base. assert (Hh : 2 <= Z.lor 2 (Z.land s 1) <= 3).
  { rewrite land_1. destruct (mod2_bit s) as [-> | ->]; done. }
  rewrite Z.shiftr_div_pow2 by lia. change (2 ^ 1) with 2. assert (Hd : 1 <= s / 2 - 1 <= 30) by zdiv.
  rewrite Z.shiftl_mul_pow2, wrap_small by
    (try lia; assert (2 ^ (s / 2 - 1) <= 2 ^ 30) by (apply Z.pow_le_mono_r; lia); nia).
  split_and!; try lia; intros; zdiv.
Qed.

Lemma lor_low a b k : 0 <= k -> 0 <= b < 2 ^ k -> Z.lor (a * 2 ^ k) b = a * 2 ^ k + b.
Proof. intros. rewrite Z.lor_comm, lor_add by done. lia. Qed.

Lemma codes_distance slot len pos : 0 <= len < 272 -> is_slot (slot pos) pos ->
  codes (E.encode_distance slot (len + 2) pos) (decode_distance len) pos.
Proof.
  intros Hlen Hslot. unfold E.encode_distance, decode_distance. cbv zeta. set (s := slot pos) in *.
  assert (Hlps : E.GetLenToPosState (len + 2) = if len <? kNumLenToPosStates then len else kNumLenToPosStates - 1).
  { unfold E.GetLenToPosState. change E.kNumLenToPosStates with 4. change kNumLenToPosStates with 4.
    destruct (len + 2 <? 4 + 1) eqn:E1, (len <? 4) eqn:E2; zify_bool; lia. }
  rewrite Hlps. set (i := if len <? kNumLenToPosStates then len else kNumLenToPosStates - 1) in *.
  assert (Hi : 0 <= i < 4) by (unfold i; change kNumLenToPosStates with 4; destruct (len <? 4) eqn:E; zify_bool; lia).
  change E.kNumPosSlotBits with 6. change kNumPosSlotBits with 6. change E.kStartPosModelIndex with 4.
  change kStartPosModelIndex with 4. change E.kEndPosModelIndex with 14. change kEndPosModelIndex with 14.
  change E.kNumAlignBits with 4. change kNumAlignBits with 4. change E.kAlignMask with 15.
  assert (Htree : codes (E.RcTree_Encode (E.posSlotEncoder i) 6 s)
                    (RangeDecoderBitTreeDecode (PosSlot + Z.shiftl i 6) 6) s).
  { apply codes_tree; [done| |destruct Hslot as [|[]]; lia]. intros j Hj. rewrite Z.shiftl_mul_pow2 by lia.
    simpl. lia. }
  rewrite Z.geb_leb. destruct (4 <=? s) eqn:E4; zify_bool.
  2:{ eapply codes_map; [done|]. rewrite Z.geb_leb, (proj2 (Z.leb_gt _ _)) by lia.
      destruct Hslot as [[_ ->]|]; [done|lia]. }
  destruct Hslot as [|[Hs Hpos]]; [lia|]. fold (slot_base s).
  destruct (slot_base_spec s Hs) as (Hbase & Hh & Hd & Hd5 & Hd6).
  set (h := Z.lor 2 (Z.land s 1)) in *. set (d := Z.shiftr s 1 - 1) in *.
  destruct (s <? 14) eqn:E14; zify_bool.
  - apply (codes_bind _ (E.RcTree_Encode (E.posSlotEncoder i) 6 s) (E.RcTree_ReverseEncode _ d (pos - slot_base s)) _ _ s _ Htree).
    rewrite Z.geb_leb, (proj2 (Z.leb_le _ _)) by lia. rewrite (proj2 (Z.ltb_lt _ _)) by lia. fold (slot_base s) d.
    replace pos with (Z.lor (slot_base s) (pos - slot_base s)) at 2 by (rewrite Hbase, lor_low by lia; lia).
    apply codes_reverse; [lia| |lia]. intros j Hj. simpl.
    pose proof (spec_pos_ok s ltac:(lia)) as Hf. unfold spec_pos_fits in Hf. cbv zeta in Hf. fold (slot_base s) d in Hf.
    apply andb_true_iff in Hf as [Hf ?]. apply andb_true_iff in Hf as [??]. zify_bool. lzma_consts. lia.
  - apply (codes_bind _ (E.RcTree_Encode (E.posSlotEncoder i) 6 s)
      (fun c => E.RcTree_ReverseEncode E.posAlignEncoder 4 (Z.land (pos - slot_base s) 15)
         (E.RangeEnc_EncodeDirectBits (Z.shiftr (pos - slot_base s) 4) (d - 4) c)) _ _ s _ Htree).
    rewrite Z.geb_leb, (proj2 (Z.leb_le _ _)) by lia. rewrite (proj2 (Z.ltb_ge _ _)) by lia. fold h d.
    set (r := pos - slot_base s) in *. assert (Hr : 0 <= r < 2 ^ d) by lia.
    assert (Hp : 2 ^ d = 2 ^ (d - 4) * 2 ^ 4) by (rewrite <- Z.pow_add_r by lia; f_equal; lia).
    assert (2 ^ (d - 4) <= 2 ^ 26) by (apply Z.pow_le_mono_r; lia).
    apply (codes_bind _ (E.RangeEnc_EncodeDirectBits (Z.shiftr r 4) (d - 4)) (E.RcTree_ReverseEncode _ 4 _)
             _ _ (h * 2 ^ (d - 4) + Z.shiftr r 4)).
    + apply codes_direct_bits; [lia|lia|nia|]. rewrite Z.shiftr_div_pow2 by lia.
      split; [apply Z.div_pos; lia|apply Z.div_lt_upper_bound; lia].
    + change 15 with (Z.ones 4). rewrite Z.land_ones, Z.shiftr_div_pow2, Z.shiftl_mul_pow2 by lia.
      assert (Hdiv : 0 <= r / 2 ^ 4 < 2 ^ (d - 4)).
      { split; [apply Z.div_pos; lia|apply Z.div_lt_upper_bound; lia]. }
      rewrite wrap_small by nia. pose proof (Z.mod_pos_bound r (2 ^ 4) ltac:(lia)) as Hm.
      assert (Hval : Z.lor ((h * 2 ^ (d - 4) + r / 2 ^ 4) * 2 ^ 4) (r mod 2 ^ 4) = pos).
      { rewrite lor_low by lia. pose proof (Z.div_mod r (2 ^ 4) ltac:(lia)) as Hdm.
        replace pos with (h * 2 ^ d + r) by (unfold r; lia). rewrite Hp. lia. }
      rewrite <- Hval. apply codes_reverse; [lia| |lia]. intros j Hj. simpl. lia.
Qed.
End symbols.

(** ** The table of slots *)

Definition slot_ok (s pos : Z) : bool :=
  if pos <? 4 then s =? pos
  else (4 <=? s) && (s <? 64) && (slot_base s <=? pos) && (pos <? slot_base s + 2 ^ (Z.shiftr s 1 - 1)).

Lemma slot_ok_is_slot s pos : 0 <= pos -> slot_ok s pos = true -> is_slot s pos.
Proof.
  intros Hp. unfold slot_ok, is_slot. destruct (pos <? 4) eqn:E; intros H; zify_bool; [left; lia|right; lia].
Qed.

(** A slot of a shifted distance is the slot of the distance, two per bit. *)
Lemma is_slot_shift pos i s : 0 <= pos -> 1 <= i -> s + 2 * i < 64 -> 2 <= Z.shiftr pos i ->
  is_slot s (Z.shiftr pos i) -> is_slot (s + i * 2) pos.
Proof.
  intros Hpos Hi Hs Hq Hslot. rewrite Z.shiftr_div_pow2 in * by lia. set (q := pos / 2 ^ i) in *.
  set (h := Z.lor 2 (Z.land s 1)). set (d := s / 2 - 1).
  assert (H : 2 <= s /\ 0 <= d /\ 2 <= h <= 3 /\ h * 2 ^ d <= q < (h + 1) * 2 ^ d).
  { destruct Hslot as [[Hq4 ->]|[Hs4 Hb]].
    - assert (Hc : q = 2 \/ q = 3) by lia. unfold h, d. destruct Hc as [-> | ->]; vm_compute; by split_and!.
    - destruct (slot_base_spec s ltac:(lia)) as (Hbase & Hh & Hd & _). rewrite Z.shiftr_div_pow2 in * by lia.
      change (2 ^ 1) with 2 in *. fold h d in Hbase, Hh, Hd, Hb. lia. }
  destruct H as (Hs2 & Hd & Hh & Hlow & Hhigh).
  assert (Hdm := Z.div_mod pos (2 ^ i)). assert (0 < 2 ^ i) by (apply Z.pow_pos_nonneg; lia). fold q in Hdm.
  pose proof (Z.mod_pos_bound pos (2 ^ i) ltac:(lia)).
  right. split; [lia|]. destruct (slot_base_spec (s + i * 2) ltac:(lia)) as (Hbase & _ & _). cbv zeta in Hbase.
  rewrite Hbase, Z.shiftr_div_pow2 by lia. change (2 ^ 1) with 2. rewrite Z.div_add by lia.
  assert (Hpar : Z.land (s + i * 2) 1 = Z.land s 1) by (rewrite !land_1; by rewrite Z.mod_add by lia).
  rewrite Hpar. fold h. replace (s / 2 + i - 1) with (d + i) by lia. rewrite Z.pow_add_r by lia. nia.
Qed.

(** The configurations of the host: size_t of four and of eight bytes, with the
    largest distance each can code ([kDicLogSizeMaxCompress]). *)
Definition log_bits_ok (kNumLogBits limit : Z) : Prop :=
  (kNumLogBits = 11 /\ limit = 2 ^ 27) \/ (kNumLogBits = 13 /\ limit = 2 ^ 31).

Lemma fast_pos_entries kNumLogBits limit pos : log_bits_ok kNumLogBits limit -> 0 <= pos < 2 ^ kNumLogBits ->
  is_slot (nth (Z.to_nat pos) (E.LzmaEnc_FastPosInit kNumLogBits) 0) pos /\
  nth (Z.to_nat pos) (E.LzmaEnc_FastPosInit kNumLogBits) 0 < 2 * kNumLogBits.
Proof.
  intros Hk Hp. set (table := E.LzmaEnc_FastPosInit kNumLogBits).
  assert (Htable : length table = Z.to_nat (2 ^ kNumLogBits) /\
    forallb (fun '(i, s) => slot_ok s i && (s <? 2 * kNumLogBits)) (zip (seqZ 0 (2 ^ kNumLogBits)) table) = true).
  { unfold table. destruct Hk as [[-> _]|[-> _]]; (split; vm_compute; reflexivity). }
  destruct Htable as [Hlen Hall]. rewrite forallb_forall in Hall.
  destruct (lookup_lt_is_Some_2 table (Z.to_nat pos)) as [s Es]; [lia|]. rewrite (nth_lookup_Some _ _ _ _ Es).
  assert (Hin : slot_ok s pos && (s <? 2 * kNumLogBits) = true).
  { apply (Hall (pos, s)), list_elem_of_In, (list_elem_of_lookup_2 _ (Z.to_nat pos)).
    rewrite lookup_zip_with, Es, lookup_seqZ_lt by lia. simpl. do 2 f_equal. lia. }
  apply andb_true_iff in Hin as [H1 H2]. zify_bool. split; [|done]. apply slot_ok_is_slot; [lia|done].
Qed.

Lemma GetPosSlot_ok kNumLogBits limit pos : log_bits_ok kNumLogBits limit -> 0 <= pos < limit ->
  is_slot (E.GetPosSlot kNumLogBits (E.LzmaEnc_FastPosInit kNumLogBits) pos) pos.
Proof.
  intros Hk Hp. unfold E.GetPosSlot. change E.kNumFullDistances with 128.
  assert (H11 : 2 ^ 11 <= 2 ^ kNumLogBits) by (destruct Hk as [[-> _]|[-> _]]; done).
  destruct (pos <? 128) eqn:E; zify_bool; [by apply (fast_pos_entries _ limit); [|lia]|].
  unfold E.BSR2_RET. rewrite Z.shiftl_1_l.
  set (i := 6 + Z.land _ _).
  assert (Hi : i = if pos <? 2 ^ (kNumLogBits + 6) then 6 else 6 + (kNumLogBits - 1)).
  { unfold i. destruct (pos <? 2 ^ (kNumLogBits + 6)) eqn:El; zify_bool.
    - rewrite (wrap_small 32 (2 ^ (kNumLogBits + 6) - 1 - pos)), Z.shiftr_div_pow2, Z.div_small
        by (destruct Hk as [[-> ->]|[-> ->]]; lia). change (u32 (0 - 0)) with 0. by rewrite Z.land_0_r.
    - assert (u32 (2 ^ (kNumLogBits + 6) - 1 - pos) = 2 ^ (kNumLogBits + 6) - 1 - pos + 2 ^ 32) as ->.
      { unfold wrap. symmetry. apply (Z.mod_unique_pos _ _ (-1)); destruct Hk as [[-> ->]|[-> ->]]; lia. }
      rewrite Z.shiftr_div_pow2 by lia.
      assert ((2 ^ (kNumLogBits + 6) - 1 - pos + 2 ^ 32) / 2 ^ 31 = 1) as ->.
      { symmetry. apply (Z.div_unique_pos _ _ 1 (2 ^ (kNumLogBits + 6) - 1 - pos + 2 ^ 31));
          destruct Hk as [[-> ->]|[-> ->]]; lia. }
      f_equal. destruct Hk as [[-> _]|[-> _]]; reflexivity. }
  rewrite Hi. clear i Hi.
  assert (Hshift : forall i, 1 <= i -> 2 * kNumLogBits + 2 * i <= 64 -> 2 <= Z.shiftr pos i -> Z.shiftr pos i < 2 ^ kNumLogBits ->
    is_slot (nth (Z.to_nat (Z.shiftr pos i)) (E.LzmaEnc_FastPosInit kNumLogBits) 0 + i * 2) pos).
  { intros i H1 H2 H3 H4. destruct (fast_pos_entries kNumLogBits limit (Z.shiftr pos i) Hk ltac:(lia)) as [Hs Hlt].
    apply is_slot_shift; [lia|lia|lia|done|done]. }
  destruct (pos <? 2 ^ (kNumLogBits + 6)) eqn:El; zify_bool; apply Hshift;
    rewrite ?Z.shiftr_div_pow2; destruct Hk as [[-> ->]|[-> ->]]; try lia; zdiv.
Qed.
