(* ===== verification/LzmaTheorems.v ===== *)
(** * Compressing and decompressing a whole file

    Both sides step together through the answers of the optimiser; an answer is
    right if the bytes it repeats are the bytes of the file.  Nothing else about
    the match finder is used. *)

From S2P Require Import Prelude LzmaDecode LzmaSafe LzmaRange LzmaRoundtrip.

Lemma bind_ret {A B} (a : A) (f : A -> D B) : (mret a ≫= f) = f a.
Proof. reflexivity. Qed.

Section file.
Context (prop : CLzmaProperties) (Hprop : prop_ok prop).
Context (slot : Z -> Z) (limit : Z).
Context (data : list Z) (Hdata : Forall byte data).

Local Abbreviation size := (Z.of_nat (length data)).
Local Abbreviation byte_at := (E.byte_at data).
Definition lits : Z := Z.shiftl LZMA_LIT_SIZE (lc prop + lp prop).

(** ** Right answers *)

(** The [len] bytes from here on repeat those [dist + 1] bytes before. *)
Definition run (p : E.enc) (dist len : Z) : bool :=
  (0 <=? dist) && (dist + 1 <=? E.nowPos p) && (E.nowPos p + len <=? size) &&
  forallb (fun i => byte_at (E.nowPos p + i) =? byte_at (E.nowPos p + i - dist - 1)) (seqZ 0 len).

Definition rep (p : E.enc) (pos : Z) : Z :=
  if pos =? 0 then E.reps0 p else if pos =? 1 then E.reps1 p else if pos =? 2 then E.reps2 p else E.reps3 p.

(** What GetOptimum may answer: a literal, one of the last four distances - one
    byte of the last only - or a new distance. *)
Definition answer_ok (p : E.enc) (len pos : Z) : bool :=
  if (len =? 1) && (pos =? 0xFFFFFFFF) then E.nowPos p + 1 <=? size
  else if (0 <=? pos) && (pos <? 4) then
    ((2 <=? len) && (len <=? 273) || (len =? 1) && (pos =? 0)) && run p (rep p pos) len
  else (4 <=? pos) && (2 <=? len) && (len <=? 273) && (pos - 4 <? limit) && run p (pos - 4) len.

Local Abbreviation encode_one := (E.encode_one (lc prop) (lp prop) (pb prop) slot data).

(** The answers cover the file. *)
Fixpoint answers_ok (answers : list (Z * Z)) (p : E.enc) : bool :=
  match answers with
  | [] => E.nowPos p =? size
  | (len, pos) :: answers => answer_ok p len pos && answers_ok answers (encode_one len pos p)
  end.

(** ** The output *)

(** The output is the file up to [nowPos]. *)
Record at_pos (z : lz) : Prop := {
  at_bounds : 0 <= nowPos z <= size;
  at_room : size <= Z.of_nat (length (outStream z)) < 2 ^ 32;
  at_out : take (Z.to_nat (nowPos z)) (outStream z) = take (Z.to_nat (nowPos z)) data;
  at_prev : previousByte z = if nowPos z =? 0 then 0 else byte_at (nowPos z - 1)
}.

Lemma byte_at_byte i : byte (byte_at i).
Proof.
  unfold E.byte_at. destruct (nth_in_or_default (Z.to_nat i) data 0) as [H | ->]; [|unfold byte; lia].
  rewrite Forall_forall in Hdata. apply Hdata. by apply list_elem_of_In.
Qed.

Lemma byte_at_lookup i : 0 <= i < size -> data !! Z.to_nat i = Some (byte_at i).
Proof.
  intros Hi. destruct (lookup_lt_is_Some_2 data (Z.to_nat i)) as [b Eb]; [lia|].
  unfold E.byte_at. by rewrite (nth_lookup_Some _ _ _ _ Eb).
Qed.

Lemma peek_at z : at_pos z -> 1 <= rep0 z <= nowPos z -> peek z = mret (byte_at (nowPos z - rep0 z)).
Proof.
  intros [Hb Hr Ho _] Hrep. unfold peek. rewrite wrap_small by lia.
  assert (E : outStream z !! Z.to_nat (nowPos z - rep0 z) = data !! Z.to_nat (nowPos z - rep0 z)).
  { rewrite <- (lookup_take_lt _ (Z.to_nat (nowPos z))), Ho, lookup_take_lt by lia. done. }
  by rewrite E, byte_at_lookup by lia.
Qed.

(** [z] with a byte more. *)
Definition written (b : Z) (z : lz) : lz :=
  Lz (nowPos z + 1) b (state z) (rep0 z) (rep1 z) (rep2 z) (rep3 z)
     (<[Z.to_nat (nowPos z) := b]> (outStream z)).

Lemma put_at z b : at_pos z -> nowPos z < size -> put b z = mret (written b z).
Proof. intros [] Hp. unfold put. by rewrite (proj2 (Z.ltb_lt _ _)) by lia. Qed.

Lemma written_at z : at_pos z -> nowPos z < size -> at_pos (written (byte_at (nowPos z)) z).
Proof.
  intros [Hb Hr Ho Hprev] Hp. split; cbn [nowPos outStream previousByte written]; rewrite ?length_insert; try lia.
  - replace (Z.to_nat (nowPos z + 1)) with (S (Z.to_nat (nowPos z))) by lia.
    rewrite (take_S_r _ _ (byte_at (nowPos z))) by (apply list_lookup_insert_eq; lia).
    rewrite take_insert_ge by lia. rewrite Ho. symmetry. apply take_S_r, byte_at_lookup. lia.
  - rewrite (proj2 (Z.eqb_neq _ _)) by lia. f_equal. lia.
Qed.

(** Fields of records that were just built. *)
Ltac fields :=
  cbn [nowPos previousByte state rep0 rep1 rep2 rep3 outStream written set_state set_reps
       E.cd E.state E.reps0 E.reps1 E.reps2 E.reps3 E.nowPos E.on_coder E.set_state E.set_reps E.add_pos].

(** The state and the distances do not matter here. *)
Lemma at_pos_change z st r0 r1 r2 r3 : at_pos z -> at_pos (set_state st (set_reps r0 r1 r2 r3 z)).
Proof. intros []. by split. Qed.

(** [z'] differs from [z] by [n] bytes more. *)
Definition advanced_by (n : Z) (z z' : lz) : Prop :=
  nowPos z' = nowPos z + n /\ state z' = state z /\ rep0 z' = rep0 z /\ rep1 z' = rep1 z /\
  rep2 z' = rep2 z /\ rep3 z' = rep3 z /\ length (outStream z') = length (outStream z).

Lemma copy_at n z : n <> O -> at_pos z -> 1 <= rep0 z <= nowPos z -> nowPos z + Z.of_nat n <= size ->
  (forall i, 0 <= i < Z.of_nat n -> byte_at (nowPos z + i) = byte_at (nowPos z + i - rep0 z)) ->
  exists z', copy_loop n z = mret z' /\ at_pos z' /\ advanced_by (Z.of_nat n) z z'.
Proof.
  revert z. induction n as [|n IH]; intros z Hn Hz Hr Hsize Hrun; [done|]. cbn [copy_loop].
  rewrite (peek_at z Hz Hr), bind_ret.
  pose proof (Hrun 0 ltac:(lia)) as H0. rewrite Z.add_0_r in H0. rewrite <- H0.
  rewrite put_at, bind_ret by (done || lia). set (z1 := written _ z).
  assert (Hz1 : at_pos z1) by (apply written_at; [done|lia]).
  destruct n as [|n].
  - exists z1. split; [done|]. split; [done|]. unfold advanced_by, z1. cbn. rewrite length_insert. by split_and!.
  - rewrite (proj2 (Z.ltb_lt (nowPos z1) _)) by (destruct Hz1; change (nowPos z1) with (nowPos z + 1); lia).
    destruct (IH z1) as (z' & E & Hz' & Hadv); try done.
    + unfold z1. simpl. lia.
    + unfold z1. simpl. lia.
    + intros i Hi. pose proof (Hrun (i + 1) ltac:(lia)) as Hi'. unfold z1. simpl.
      replace (nowPos z + 1 + i) with (nowPos z + (i + 1)) by lia. done.
    + exists z'. split; [done|]. split; [done|]. unfold advanced_by in *. unfold z1 in Hadv. simpl in Hadv.
      rewrite length_insert in Hadv. naive_solver lia.
Qed.

(** ** Both sides at the same place *)

Record same (p : E.enc) (z : lz) : Prop := {
  same_at : at_pos z;
  same_pos : nowPos z = E.nowPos p;
  same_state : state z = E.state p;
  same_range : 0 <= state z < 12;
  same_behind : 7 <= state z -> rep0 z <= nowPos z;
  same_rep0 : rep0 z = E.reps0 p + 1;
  same_rep1 : rep1 z = E.reps1 p + 1;
  same_rep2 : rep2 z = E.reps2 p + 1;
  same_rep3 : rep3 z = E.reps3 p + 1;
  same_reps : Forall (fun r => 0 <= r) [E.reps0 p; E.reps1 p; E.reps2 p; E.reps3 p]
}.

Lemma posState_same p z : same p z -> Z.land (nowPos z) (posStateMask prop) = Z.land (E.nowPos p) (E.pbMask (pb prop)).
Proof. intros []. by rewrite same_pos0. Qed.

Lemma lits_pos : 0 <= lits.
Proof. unfold lits. lzma_consts. apply Z.shiftl_nonneg. lia. Qed.

Lemma lit_models pos prev : byte prev -> 
  models lits (E.LIT_PROBS (lc prop) (lp prop) pos prev)
    (Literal + LZMA_LIT_SIZE * (Z.shiftl (Z.land pos (literalPosMask prop)) (lc prop) + Z.shiftr prev (8 - lc prop)))
    1 768.
Proof.
  intros Hb i Hi. destruct Hprop as (? & ? & ?). unfold E.LIT_PROBS. change (E.lpMask (lp prop)) with (literalPosMask prop).
  set (ctx := Z.shiftl _ _ + _). assert (Hctx : 0 <= ctx < 2 ^ (lc prop + lp prop)).
  { unfold ctx, literalPosMask. pose proof (land_ones_bounds pos (lp prop) ltac:(lia)) as Ha.
    rewrite Z.shiftl_mul_pow2, Z.shiftr_div_pow2 by lia. set (a := Z.land _ _) in *.
    assert (0 <= prev / 2 ^ (8 - lc prop) < 2 ^ lc prop).
    { unfold byte in *. split; [apply Z.div_pos; [lia|apply Z.pow_pos_nonneg; lia]|].
      apply Z.div_lt_upper_bound; [apply Z.pow_pos_nonneg; lia|]. rewrite <- Z.pow_add_r by lia.
      replace (8 - lc prop + lc prop) with 8 by lia. lia. }
    rewrite (Z.pow_add_r 2 (lc prop)) by lia. nia. }
  simpl. unfold lits. rewrite Z.shiftl_mul_pow2 by lia. lzma_consts. lia.
Qed.

(** ** Literals *)

Lemma twelve (P : Z -> bool) : forallb P (seqZ 0 12) = true -> forall st, 0 <= st < 12 -> P st = true.
Proof. intros H st Hst. rewrite forallb_forall in H. apply H, list_elem_of_In, elem_of_seqZ. lia. Qed.

Lemma literal_state st : 0 <= st < 12 ->
  (if st <? 4 then 0 else if st <? 10 then st - 3 else st - 6) = E.next_state E.kLiteralNextStates st.
Proof.
  intros Hst. apply Z.eqb_eq. revert st Hst. apply (twelve (fun st =>
    (if st <? 4 then 0 else if st <? 10 then st - 3 else st - 6) =? E.next_state E.kLiteralNextStates st)). reflexivity.
Qed.

Lemma codes_literal z at_ : at_pos z -> nowPos z < size -> 0 <= state z < 12 ->
  (7 <= state z -> 1 <= rep0 z <= nowPos z) ->
  models lits at_ (Literal + LZMA_LIT_SIZE *
    (Z.shiftl (Z.land (nowPos z) (literalPosMask prop)) (lc prop) + Z.shiftr (previousByte z) (8 - lc prop))) 1 768 ->
  codes lits
    (fun c => if E.IsCharState (state z) then E.LitEnc_Encode at_ (byte_at (nowPos z)) c
              else E.LitEnc_EncodeMatched at_ (byte_at (nowPos z)) (byte_at (nowPos z - rep0 z)) c)
    (decode_literal prop z)
    (set_state (E.next_state E.kLiteralNextStates (state z)) (written (byte_at (nowPos z)) z)).
Proof.
  intros Hz Hp Hst Hrep Hmod. unfold decode_literal. cbv zeta. set (base := Literal + _) in *.
  set (cur := byte_at (nowPos z)). pose proof (byte_at_byte (nowPos z)) as Hcur. fold cur in Hcur. unfold byte in Hcur.
  assert (HB : Z.lor cur 0x100 = cur + 256) by (apply (lor_add cur 1 8); lia).
  set (first := if state z >=? kNumLitStates then _ else _).
  apply (codes_dec_ext _ _ ((symbol ← first; literal_loop 8 base symbol) ≫= fun symbol =>
    z ← put (u8 symbol) z;
    mret (set_state (if state z <? 4 then 0 else if state z <? 10 then state z - 3 else state z - 6) z))).
  { intros s. unfold mbind, D_bind. by destruct (first s). }
  apply (codes_map _ _ _ _ (cur + 256)).
  2:{ replace (u8 (cur + 256)) with cur by (unfold wrap; zdiv). rewrite put_at, bind_ret by done.
      by rewrite literal_state. }
  unfold first, E.IsCharState, E.LitEnc_Encode, E.LitEnc_EncodeMatched. rewrite HB, Z.geb_leb.
  change kNumLitStates with 7. destruct (state z <? 7) eqn:E; zify_bool.
  - rewrite (proj2 (Z.leb_gt _ _)), bind_ret by lia.
    pose proof (codes_lit_loop lits at_ base Hmod (cur + 256) ltac:(lia) 8 8 0 ltac:(lia) ltac:(lia) ltac:(lia)) as H.
    rewrite Z.mul_1_r in H. change (8 - 0) with 8 in H.
    replace ((cur + 256) / 2 ^ 8) with 1 in H by zdiv. exact H.
  - rewrite (proj2 (Z.leb_le _ _)) by lia. rewrite (peek_at z Hz (Hrep E)), bind_ret.
    pose proof (codes_matched_loop lits at_ base Hmod (cur + 256) ltac:(lia) 8 0 (byte_at (nowPos z - rep0 z))
                  ltac:(lia) ltac:(lia) ltac:(lia)) as H.
    rewrite Z.mul_1_r in H. change (8 - 0) with 8 in H.
    replace ((cur + 256) / 2 ^ 8) with 1 in H by zdiv. exact H.
Qed.

(** ** Copies *)

Lemma run_spec p dist len : run p dist len = true -> 0 <= len ->
  0 <= dist /\ dist + 1 <= E.nowPos p /\ E.nowPos p + len <= size /\
  forall i, 0 <= i < len -> byte_at (E.nowPos p + i) = byte_at (E.nowPos p + i - (dist + 1)).
Proof.
  unfold run. intros H Hlen. repeat (apply andb_true_iff in H as [H ?]). zify_bool. split_and!; try done.
  intros i Hi. replace (E.nowPos p + i - (dist + 1)) with (E.nowPos p + i - dist - 1) by lia.
  match goal with H : forallb _ _ = true |- _ => rename H into Hf end. rewrite forallb_forall in Hf.
  apply Z.eqb_eq, Hf, list_elem_of_In, elem_of_seqZ. lia.
Qed.

(** The end of a match whose distance is known. *)
Lemma copy_done len z : at_pos z -> 2 <= len -> 1 <= rep0 z <= nowPos z -> nowPos z + len <= size ->
  (forall i, 0 <= i < len -> byte_at (nowPos z + i) = byte_at (nowPos z + i - rep0 z)) ->
  exists z', (if rep0 z >? nowPos z then data_error
              else z ← copy_loop (Z.to_nat (len - 2 + kMatchMinLen)) z; mret (inr z)) = mret (inr z' : lz + lz) /\
    at_pos z' /\ advanced_by len z z'.
Proof.
  intros Hz Hl Hr Hs Hrun. rewrite Z.gtb_ltb, (proj2 (Z.ltb_ge _ _)) by lia. change kMatchMinLen with 2.
  replace (len - 2 + 2) with len by lia.
  destruct (copy_at (Z.to_nat len) z) as (z' & E & Hz' & Hadv); rewrite ?Z2Nat.id by lia; try (done || lia).
  exists z'. rewrite E, bind_ret. rewrite Z2Nat.id in Hadv by lia. done.
Qed.

(** ** Symbols *)

Definition with_coder (c : E.coder) (p : E.enc) : E.enc := E.on_coder (fun _ => c) p.

Lemma codes_at l i b : place lits l -> addr l = i -> b = 0 \/ b = 1 ->
  codes lits (E.RangeEnc_EncodeBit l b) (rc_bit i) b.
Proof. intros Hl <- Hb. by apply codes_bit. Qed.

(** A turn of both main loops. *)
Definition stepped (f : E.enc -> E.enc) (p : E.enc) (z : lz) : Prop :=
  exists z', codes lits (fun c => E.cd (f (with_coder c p))) (decode_symbol prop z) (inr z') /\
    same (f p) z' /\ nowPos z < nowPos z' /\ length (outStream z') = length (outStream z).

Lemma posState_bits p z : same p z -> 0 <= Z.land (E.nowPos p) (E.pbMask (pb prop)) < 16.
Proof. intros Hs. rewrite <- (posState_same p z Hs). by apply posState_bounds. Qed.

(** The first bit of a symbol. *)
Lemma codes_is_match p z b : same p z -> b = 0 \/ b = 1 ->
  codes lits (E.RangeEnc_EncodeBit (E.isMatch (E.state p) (Z.land (E.nowPos p) (E.pbMask (pb prop)))) b)
    (rc_bit (IsMatch + Z.shiftl (state z) kNumPosBitsMax + Z.land (nowPos z) (posStateMask prop))) b.
Proof.
  intros Hs Hb. pose proof (posState_bits p z Hs) as Hps. rewrite (posState_same p z Hs).
  pose proof (same_range p z Hs) as Hst. rewrite (same_state p z Hs) in *.
  lzma_consts. rewrite Z.shiftl_mul_pow2 by done. apply codes_at; [by split|simpl; lzma_consts; lia|done].
Qed.

(** The coder of [encode_one] for each kind of answer. *)
Definition lit_coder (p : E.enc) (c : E.coder) : E.coder :=
  let at_ := E.LIT_PROBS (lc prop) (lp prop) (E.nowPos p) (byte_at (E.nowPos p - 1)) in
  let cur := byte_at (E.nowPos p) in
  if E.IsCharState (E.state p) then E.LitEnc_Encode at_ cur c
  else E.LitEnc_EncodeMatched at_ cur (byte_at (E.nowPos p - E.reps0 p - 1)) c.

Lemma encode_literal_eq p : encode_one 1 0xFFFFFFFF p =
  E.mkEnc (lit_coder p (E.RangeEnc_EncodeBit (E.isMatch (E.state p) (Z.land (E.nowPos p) (E.pbMask (pb prop)))) 0 (E.cd p)))
    (E.next_state E.kLiteralNextStates (E.state p)) (E.reps0 p) (E.reps1 p) (E.reps2 p) (E.reps3 p)
    (u32 (E.nowPos p + 1)).
Proof. unfold E.encode_one, lit_coder. cbn. by destruct (E.IsCharState (E.state p)). Qed.

Lemma same_size p z : same p z -> size < 2 ^ 32.
Proof. intros Hs. destruct (same_at p z Hs). lia. Qed.

Lemma step_literal p z : same p z -> 1 <= E.nowPos p -> E.nowPos p + 1 <= size ->
  stepped (encode_one 1 0xFFFFFFFF) p z.
Proof.
  intros Hs H1 Hsize. pose proof (same_at p z Hs) as Hz. pose proof (same_pos p z Hs) as Hpos.
  pose proof (same_state p z Hs) as Hst. pose proof (same_size p z Hs).
  pose proof (same_rep0 p z Hs) as Hr0. pose proof (same_reps p z Hs) as Hr. rewrite !Forall_cons in Hr.
  set (z' := set_state (E.next_state E.kLiteralNextStates (state z)) (written (byte_at (nowPos z)) z)).
  assert (Hnext : 0 <= E.next_state E.kLiteralNextStates (state z) < 7).
  { pose proof (same_range p z Hs) as Hrange. rewrite <- literal_state by done. split_ifs; zify_bool; lia. }
  exists z'. split_and!; [| |unfold z'; fields; lia|unfold z'; fields; by rewrite length_insert].
  - eapply codes_ext; [intros c; by rewrite encode_literal_eq|]. cbn [with_coder E.on_coder E.cd E.state E.nowPos].
    apply (codes_bind lits _ (lit_coder p) _ _ 0); [by apply codes_is_match; [|left]|].
    cbn [Z.eqb]. apply (codes_map lits _ (decode_literal prop z) _ z'); [|done].
    eapply codes_ext; [|apply codes_literal; [done|lia|by apply (same_range p)| |]].
    + intros c. unfold lit_coder. rewrite Hst, Hpos. replace (E.nowPos p - rep0 z) with (E.nowPos p - E.reps0 p - 1) by lia.
      reflexivity.
    + intros H7. pose proof (same_behind p z Hs H7). lia.
    + rewrite (at_prev z Hz), (proj2 (Z.eqb_neq _ _)), Hpos by lia. apply lit_models, byte_at_byte.
  - rewrite encode_literal_eq. rewrite <- Hst. unfold z'. split; fields; try (destruct Hs; done); try lia.
    + apply (at_pos_change _ _ (rep0 z) (rep1 z) (rep2 z) (rep3 z)). apply written_at; [done|lia].
    + rewrite wrap_small by lia. lia.
Qed.

(** *** A new match *)

Context (Hlimit : limit <= 2 ^ 31) (Hslot : forall pos, 0 <= pos < limit -> is_slot (slot pos) pos).

Definition match_coder (st posState len dist : Z) (c : E.coder) : E.coder :=
  E.encode_distance slot len dist
    (E.LenEnc_Encode E.lenEnc (len - 2) posState (E.RangeEnc_EncodeBit (E.isRep st) 0 c)).

Lemma encode_match_eq p len pos : 2 <= len -> 4 <= pos -> encode_one len pos p =
  E.mkEnc (match_coder (E.state p) (Z.land (E.nowPos p) (E.pbMask (pb prop))) len (u32 (pos - 4))
      (E.RangeEnc_EncodeBit (E.isMatch (E.state p) (Z.land (E.nowPos p) (E.pbMask (pb prop)))) 1 (E.cd p)))
    (E.next_state E.kMatchNextStates (E.state p)) (u32 (pos - 4)) (E.reps0 p) (E.reps1 p) (E.reps2 p)
    (u32 (E.nowPos p + len)).
Proof.
  intros Hl Hp. unfold E.encode_one, match_coder. change E.LZMA_NUM_REPS with 4. change E.LZMA_MATCH_LEN_MIN with 2.
  rewrite (proj2 (Z.eqb_neq len 1)), (proj2 (Z.ltb_ge pos 4)) by lia. reflexivity.
Qed.

Lemma len_models (f : E.len_prob -> E.prob) base :
  (forall l, place lits (f l) = len_place l) -> (forall l, addr (f l) = len_addr base l) ->
  forall l, len_place l -> place lits (f l) /\ addr (f l) = len_addr base l.
Proof. intros Hp Ha l Hl. by rewrite Hp, Ha. Qed.

(** The distance and the copy. *)
Lemma codes_copy_new len dist z : at_pos z -> state z < 4 -> 2 <= len <= 273 -> 0 <= dist < limit ->
  dist + 1 <= nowPos z -> nowPos z + len <= size ->
  (forall i, 0 <= i < len -> byte_at (nowPos z + i) = byte_at (nowPos z + i - (dist + 1))) ->
  exists z', codes lits (E.encode_distance slot len dist) (decode_copy (len - 2) z) (inr z') /\ at_pos z' /\
    advanced_by len (set_reps (dist + 1) (rep1 z) (rep2 z) (rep3 z) (set_state (state z + 7) z)) z'.
Proof.
  intros Hz Hst Hl Hd Hn Hs Hrun. set (z1 := set_reps _ _ _ _ _).
  assert (Hz1 : at_pos z1) by (by apply (at_pos_change z (state z + 7) (dist + 1) (rep1 z) (rep2 z) (rep3 z))).
  destruct (copy_done len z1) as (z' & E & Hz' & Hadv); [done|lia|unfold z1; fields; lia|done|done|].
  exists z'. split; [|done]. unfold decode_copy. rewrite (proj2 (Z.ltb_lt _ _)) by lia.
  apply (codes_map lits _ _ _ dist).
  - replace len with (len - 2 + 2) at 1 by lia. apply codes_distance; [lia|]. by apply Hslot.
  - assert (size < 2 ^ 32) by (destruct Hz; lia). change kNumLitStates with 7. fields.
    rewrite (wrap_small 32 (dist + 1)) by lia. rewrite (proj2 (Z.eqb_neq _ _)) by lia. exact E.
Qed.

Lemma match_state st : 0 <= st < 12 -> (if st <? 7 then 0 else 3) + 7 = E.next_state E.kMatchNextStates st.
Proof.
  intros Hst. apply Z.eqb_eq. revert st Hst. apply (twelve (fun st =>
    (if st <? 7 then 0 else 3) + 7 =? E.next_state E.kMatchNextStates st)). reflexivity.
Qed.

(** The bit that tells a new distance from an old one. *)
Lemma codes_model_at p z (f : Z -> E.prob) base b : same p z ->
  (forall st, 0 <= st < 12 -> place lits (f st) /\ addr (f st) = base + st) -> b = 0 \/ b = 1 ->
  codes lits (E.RangeEnc_EncodeBit (f (E.state p)) b) (rc_bit (base + state z)) b.
Proof.
  intros Hs Hf Hb. pose proof (same_range p z Hs) as Hst. rewrite (same_state p z Hs) in *.
  destruct (Hf _ Hst) as [Hp Ha]. by apply codes_at.
Qed.

Lemma step_match p z len pos : same p z -> 4 <= pos -> 2 <= len <= 273 -> pos - 4 < limit ->
  run p (pos - 4) len = true -> stepped (encode_one len pos) p z.
Proof.
  intros Hs Hp Hl Hlim Hrun. apply run_spec in Hrun as (Hd & Hn & Hsz & Hrun); [|lia].
  pose proof (same_at p z Hs) as Hz. pose proof (same_pos p z Hs) as Hpos. pose proof (same_size p z Hs).
  pose proof (same_range p z Hs) as Hst. assert (Hu : u32 (pos - 4) = pos - 4) by (apply wrap_small; lia).
  set (z1 := set_state (if state z <? kNumLitStates then 0 else 3) (set_reps (rep0 z) (rep0 z) (rep1 z) (rep2 z) z)).
  destruct (codes_copy_new len (pos - 4) z1) as (z' & Hcodes & Hz' & Hadv); try done.
  { by apply at_pos_change. }
  { unfold z1. fields. destruct (_ <? _); lia. }
  { unfold z1. fields. lia. }
  { unfold z1. fields. lia. }
  { unfold z1. fields. rewrite Hpos. exact Hrun. }
  destruct Hadv as (Hp' & Hst' & Hr0 & Hr1 & Hr2 & Hr3 & Hlen). unfold z1 in Hp', Hst', Hr0, Hr1, Hr2, Hr3, Hlen.
  revert Hp' Hst' Hr0 Hr1 Hr2 Hr3 Hlen. fields. change kNumLitStates with 7. rewrite match_state by done.
  intros Hp' Hst' Hr0 Hr1 Hr2 Hr3 Hlen. exists z'. split_and!; [| |lia|done].
  - set (ps := Z.land (E.nowPos p) (E.pbMask (pb prop))).
    apply (codes_ext lits (fun c => match_coder (E.state p) ps len (pos - 4)
                                      (E.RangeEnc_EncodeBit (E.isMatch (E.state p) ps) 1 c))).
    { intros c. rewrite encode_match_eq by lia. unfold with_coder. fields. by rewrite Hu. }
    apply (codes_bind lits _ (match_coder (E.state p) ps len (pos - 4)) _ _ 1); [by apply codes_is_match; [|right]|].
    cbn [Z.eqb]. unfold decode_match, match_coder. cbv zeta. rewrite (posState_same p z Hs). fold ps.
    apply (codes_bind lits _ (fun c => E.encode_distance slot len (pos - 4) (E.LenEnc_Encode _ _ _ c)) _ _ 0).
    { apply (codes_model_at p z); [done| |by left]. intros st Hst''. by split. }
    cbn [Z.eqb].
    apply (codes_bind lits (E.LenEnc_Encode _ _ _) (E.encode_distance slot len (pos - 4)) _ _ (len - 2)); [|done].
    apply codes_len; [by apply len_models|lia|by apply posState_bits with z].
  - rewrite encode_match_eq, Hu by lia. pose proof (same_reps p z Hs) as Hreps. rewrite !Forall_cons in Hreps.
    split; fields; try (destruct Hs; lia); try done.
    + rewrite wrap_small by lia. lia.
    + rewrite Hst'. destruct Hs. congruence.
    + rewrite Hst', <- match_state by done. destruct (_ <? _); lia.
    + destruct Hreps as (? & ? & ? & _). repeat constructor; lia.
Qed.

(** *** An old distance *)

Definition rep_bits (st posState len pos : Z) (c : E.coder) : E.coder :=
  if pos =? 0 then
    E.RangeEnc_EncodeBit (E.isRep0Long st posState) (if len =? 1 then 0 else 1)
      (E.RangeEnc_EncodeBit (E.isRepG0 st) 0 c)
  else
    let c := E.RangeEnc_EncodeBit (E.isRepG0 st) 1 c in
    if pos =? 1 then E.RangeEnc_EncodeBit (E.isRepG1 st) 0 c
    else E.RangeEnc_EncodeBit (E.isRepG2 st) (pos - 2) (E.RangeEnc_EncodeBit (E.isRepG1 st) 1 c).

Definition rep_coder (st posState len pos : Z) (c : E.coder) : E.coder :=
  let c := rep_bits st posState len pos (E.RangeEnc_EncodeBit (E.isRep st) 1 c) in
  if len =? 1 then c else E.LenEnc_Encode E.repLenEnc (len - 2) posState c.

Lemma encode_rep_eq p len pos : 0 <= pos < 4 -> encode_one len pos p =
  E.mkEnc (rep_coder (E.state p) (Z.land (E.nowPos p) (E.pbMask (pb prop))) len pos
      (E.RangeEnc_EncodeBit (E.isMatch (E.state p) (Z.land (E.nowPos p) (E.pbMask (pb prop)))) 1 (E.cd p)))
    (E.next_state (if len =? 1 then E.kShortRepNextStates else E.kRepNextStates) (E.state p))
    (rep p pos) (if pos =? 0 then E.reps1 p else E.reps0 p)
    (if pos <? 2 then E.reps2 p else E.reps1 p) (if pos <? 3 then E.reps3 p else E.reps2 p)
    (u32 (E.nowPos p + len)).
Proof.
  intros Hp. unfold E.encode_one. rewrite (proj2 (Z.eqb_neq pos 0xFFFFFFFF)), andb_false_r by lia.
  assert (Hc : pos = 0 \/ pos = 1 \/ pos = 2 \/ pos = 3) by lia.
  destruct_or! Hc; subst pos; unfold rep_coder, rep_bits, rep; destruct (len =? 1); reflexivity.
Qed.

(** The distances behind the choice of [pos], on the decoder's side. *)
Definition z_rep (z : lz) (pos : Z) : lz :=
  if pos =? 0 then z
  else if pos =? 1 then set_reps (rep1 z) (rep0 z) (rep2 z) (rep3 z) z
  else if pos =? 2 then set_reps (rep2 z) (rep0 z) (rep1 z) (rep3 z) z
  else set_reps (rep3 z) (rep0 z) (rep1 z) (rep2 z) z.

Lemma codes_rep_long p z len pos : same p z -> 0 <= pos < 4 -> len <> 1 ->
  let ps := Z.land (E.nowPos p) (E.pbMask (pb prop)) in
  codes lits (rep_bits (E.state p) ps len pos) (decode_rep ps z)
    (inr (set_state (if state z <? kNumLitStates then 8 else 11) (z_rep z pos))).
Proof.
  intros Hs Hp Hlen ps. unfold rep_bits, decode_rep. rewrite (proj2 (Z.eqb_neq _ _) Hlen).
  pose proof (posState_bits p z Hs) as Hps. fold ps in Hps. pose proof (same_range p z Hs) as Hst.
  assert (Hbit : forall f base b, (forall st, 0 <= st < 12 -> place lits (f st) /\ addr (f st) = base + st) ->
    b = 0 \/ b = 1 -> codes lits (E.RangeEnc_EncodeBit (f (E.state p)) b) (rc_bit (base + state z)) b).
  { intros. by apply (codes_model_at p z). }
  assert (HG0 := Hbit E.isRepG0 IsRepG0). assert (HG1 := Hbit E.isRepG1 IsRepG1).
  assert (HG2 := Hbit E.isRepG2 IsRepG2). clear Hbit. cbv zeta.
  destruct (pos =? 0) eqn:E0; zify_bool.
  { apply (codes_bind lits (E.RangeEnc_EncodeBit (E.isRepG0 _) 0) (E.RangeEnc_EncodeBit (E.isRep0Long _ ps) 1) _ _ 0).
    { apply HG0; [|by left]. intros st ?. by split. }
    cbn [Z.eqb]. apply (codes_map lits _ _ _ 1); [|by subst pos].
    rewrite (same_state p z Hs) in *. lzma_consts. rewrite Z.shiftl_mul_pow2 by done.
    apply codes_at; [by split|simpl; lzma_consts; lia|by right]. }
  destruct (pos =? 1) eqn:E1; zify_bool.
  { apply (codes_bind lits (E.RangeEnc_EncodeBit (E.isRepG0 _) 1) (E.RangeEnc_EncodeBit (E.isRepG1 _) 0) _ _ 1).
    { apply HG0; [|by right]. intros st ?. by split. }
    cbn [Z.eqb]. apply (codes_map lits _ _ _ 0); [|by subst pos].
    apply HG1; [|by left]. intros st ?. by split. }
  apply (codes_bind lits (E.RangeEnc_EncodeBit (E.isRepG0 _) 1) (fun c => E.RangeEnc_EncodeBit (E.isRepG2 _) (pos - 2)
           (E.RangeEnc_EncodeBit (E.isRepG1 (E.state p)) 1 c)) _ _ 1).
  { apply HG0; [|by right]. intros st ?. by split. }
  cbn [Z.eqb].
  apply (codes_bind lits (E.RangeEnc_EncodeBit (E.isRepG1 _) 1) (E.RangeEnc_EncodeBit (E.isRepG2 _) (pos - 2)) _ _ 1).
  { apply HG1; [|by right]. intros st ?. by split. }
  cbn [Z.eqb]. apply (codes_map lits _ _ _ (pos - 2)).
  - apply HG2; [|lia]. intros st ?. by split.
  - assert (Hc : pos = 2 \/ pos = 3) by lia. by destruct Hc as [-> | ->].
Qed.

Lemma rep_state st : 0 <= st < 12 ->
  (if st <? 7 then 8 else 11) = E.next_state E.kRepNextStates st /\
  (if st <? 7 then 9 else 11) = E.next_state E.kShortRepNextStates st.
Proof.
  intros Hst. assert (H : (fun st => ((if st <? 7 then 8 else 11) =? E.next_state E.kRepNextStates st) &&
    ((if st <? 7 then 9 else 11) =? E.next_state E.kShortRepNextStates st)) st = true).
  { revert st Hst. apply twelve. reflexivity. }
  cbv beta in H. by apply andb_true_iff in H as [?%Z.eqb_eq ?%Z.eqb_eq].
Qed.

(** The bits in front of an old distance, then [g] and what reads it. *)
Lemma codes_old p z g z' : same p z ->
  let ps := Z.land (E.nowPos p) (E.pbMask (pb prop)) in
  codes lits g (r ← decode_rep ps z; match r with inl z => mret (inr z)
    | inr z => len ← decode_len RepLenCoder ps; decode_copy len z end) (inr z') ->
  codes lits (fun c => g (E.RangeEnc_EncodeBit (E.isRep (E.state p)) 1
                            (E.RangeEnc_EncodeBit (E.isMatch (E.state p) ps) 1 c)))
    (decode_symbol prop z) (inr z').
Proof.
  intros Hs ps Hg. unfold decode_symbol. cbv zeta.
  apply (codes_bind lits _ (fun c => g (E.RangeEnc_EncodeBit (E.isRep (E.state p)) 1 c)) _ _ 1);
    [by apply codes_is_match; [|right]|].
  cbn [Z.eqb]. unfold decode_match. cbv zeta. rewrite (posState_same p z Hs). fold ps.
  apply (codes_bind lits _ g _ _ 1); [|done].
  apply (codes_model_at p z); [done| |by right]. intros st ?. by split.
Qed.

(** One byte of the last distance. *)
Lemma step_short p z : same p z -> run p (E.reps0 p) 1 = true -> stepped (encode_one 1 0) p z.
Proof.
  intros Hs Hrun. apply run_spec in Hrun as (Hd & Hn & Hsz & Hrun); [|lia].
  pose proof (same_at p z Hs) as Hz. pose proof (same_pos p z Hs) as Hpos. pose proof (same_size p z Hs).
  pose proof (same_range p z Hs) as Hst. pose proof (same_rep0 p z Hs) as Hr0.
  destruct (rep_state _ Hst) as [_ Hshort].
  set (z1 := set_state (if state z <? kNumLitStates then 9 else 11) z).
  assert (Hz1 : at_pos z1) by (by apply (at_pos_change z _ (rep0 z) (rep1 z) (rep2 z) (rep3 z))).
  set (z' := written (byte_at (nowPos z)) z1).
  assert (Hpeek : peek z1 = mret (byte_at (nowPos z))).
  { rewrite peek_at; [|done|unfold z1; fields; lia]. f_equal. unfold z1. fields.
    pose proof (Hrun 0 ltac:(lia)) as H0. rewrite !Z.add_0_r in H0. rewrite Hpos, H0. f_equal. lia. }
  exists z'. set (ps := Z.land (E.nowPos p) (E.pbMask (pb prop))). split_and!;
    [| |unfold z', z1; fields; lia|unfold z', z1; fields; by rewrite length_insert].
  - apply (codes_ext lits (fun c => rep_bits (E.state p) ps 1 0 (E.RangeEnc_EncodeBit (E.isRep (E.state p)) 1
                                      (E.RangeEnc_EncodeBit (E.isMatch (E.state p) ps) 1 c)))).
    { intros c. rewrite encode_rep_eq by lia. unfold with_coder. fields. reflexivity. }
    apply codes_old; [done|]. unfold rep_bits. cbn [Z.eqb]. unfold decode_rep. cbv zeta.
    apply (codes_map lits _ _ _ (inl z')); [|done].
    apply (codes_bind lits (E.RangeEnc_EncodeBit (E.isRepG0 _) 0) (E.RangeEnc_EncodeBit (E.isRep0Long _ ps) 0) _ _ 0).
    { apply (codes_model_at p z); [done| |by left]. intros st ?. by split. }
    cbn [Z.eqb]. apply (codes_map lits _ _ _ 0).
    + pose proof (posState_bits p z Hs) as Hps. fold ps in Hps. rewrite (same_state p z Hs) in *. lzma_consts.
      rewrite Z.shiftl_mul_pow2 by done. apply codes_at; [by split|simpl; lzma_consts; lia|by left].
    + cbn [Z.eqb]. rewrite (proj2 (Z.eqb_neq _ _)) by lia. fold z1. rewrite Hpeek, bind_ret.
      rewrite put_at, bind_ret; [done|done|unfold z1; fields; lia].
  - rewrite encode_rep_eq by lia. change kNumLitStates with 7 in *. unfold z', z1. rewrite Hshort.
    split; fields; cbn [Z.eqb Z.ltb Z.compare rep]; try (destruct Hs; done); try lia.
    + rewrite <- Hshort. apply (written_at z1 Hz1). unfold z1. fields. lia.
    + rewrite wrap_small by lia. lia.
    + by rewrite (same_state p z Hs).
    + rewrite <- Hshort. destruct (_ <? _); lia.
Qed.

Lemma step_rep p z len pos : same p z -> 0 <= pos < 4 -> 2 <= len <= 273 -> run p (rep p pos) len = true ->
  stepped (encode_one len pos) p z.
Proof.
  intros Hs Hp Hl Hrun. apply run_spec in Hrun as (Hd & Hn & Hsz & Hrun); [|lia].
  pose proof (same_at p z Hs) as Hz. pose proof (same_pos p z Hs) as Hpos. pose proof (same_size p z Hs).
  pose proof (same_range p z Hs) as Hst. destruct (rep_state _ Hst) as [Hnext _].
  set (z1 := set_state (if state z <? kNumLitStates then 8 else 11) (z_rep z pos)).
  assert (Hc : pos = 0 \/ pos = 1 \/ pos = 2 \/ pos = 3) by lia.
  assert (Hz1 : at_pos z1 /\ nowPos z1 = nowPos z /\ rep0 z1 = rep p pos + 1 /\
    rep1 z1 = (if pos =? 0 then E.reps1 p else E.reps0 p) + 1 /\
    rep2 z1 = (if pos <? 2 then E.reps2 p else E.reps1 p) + 1 /\
    rep3 z1 = (if pos <? 3 then E.reps3 p else E.reps2 p) + 1 /\ outStream z1 = outStream z).
  { split; [|destruct Hs; destruct_or! Hc; subst pos; by split_and!].
    destruct_or! Hc; subst pos; [apply (at_pos_change z _ (rep0 z) (rep1 z) (rep2 z) (rep3 z))|apply at_pos_change..]; done. }
  destruct Hz1 as (Hz1 & Hn1 & Hr0 & Hr1 & Hr2 & Hr3 & Ho1).
  destruct (copy_done len z1) as (z' & E & Hz' & Hadv); [done|lia|lia|lia|by rewrite Hn1, Hr0, Hpos|].
  destruct Hadv as (Hp' & Hst' & Hr0' & Hr1' & Hr2' & Hr3' & Hlen).
  exists z'. set (ps := Z.land (E.nowPos p) (E.pbMask (pb prop))). split_and!; [| |lia|by rewrite Hlen, Ho1].
  - apply (codes_ext lits (fun c => E.LenEnc_Encode E.repLenEnc (len - 2) ps (rep_bits (E.state p) ps len pos
             (E.RangeEnc_EncodeBit (E.isRep (E.state p)) 1 (E.RangeEnc_EncodeBit (E.isMatch (E.state p) ps) 1 c))))).
    { intros c. rewrite encode_rep_eq by lia. unfold with_coder. fields. unfold rep_coder. cbv zeta.
      by rewrite (proj2 (Z.eqb_neq len 1)) by lia. }
    apply (codes_old p z (fun c => E.LenEnc_Encode E.repLenEnc (len - 2) ps (rep_bits (E.state p) ps len pos c))); [done|].
    apply (codes_bind lits (rep_bits (E.state p) ps len pos) _ _ _ (inr z1)); [by apply codes_rep_long; [| |lia]|].
    apply (codes_map lits _ _ _ (len - 2)).
    + apply codes_len; [by apply len_models|lia|by apply posState_bits with z].
    + unfold decode_copy. rewrite (proj2 (Z.ltb_ge _ _)); [exact E|]. unfold z1. fields. destruct (_ <? _); lia.
  - rewrite encode_rep_eq by lia. rewrite (proj2 (Z.eqb_neq len 1)) by lia.
    pose proof (same_reps p z Hs) as Hreps. rewrite !Forall_cons in Hreps. destruct Hreps as (? & ? & ? & ? & _).
    assert (Hst1 : state z1 = E.next_state E.kRepNextStates (E.state p)).
    { rewrite <- (same_state p z Hs), <- Hnext. reflexivity. }
    split; fields; try done; try lia.
    + rewrite wrap_small by lia. lia.
    + rewrite Hst', Hst1, <- (same_state p z Hs), <- Hnext. destruct (_ <? _); lia.
    + rewrite !Forall_cons. split_and!;
        [lia|by destruct (pos =? 0)|by destruct (pos <? 2)|by destruct (pos <? 3)|done].
Qed.

(** Every right answer. *)
Lemma step_answer p z len pos : same p z -> 1 <= E.nowPos p -> answer_ok p len pos = true ->
  stepped (encode_one len pos) p z.
Proof.
  intros Hs H1. unfold answer_ok. destruct ((len =? 1) && (pos =? 0xFFFFFFFF)) eqn:E.
  { intros H. zify_bool. subst. by apply step_literal. }
  destruct ((0 <=? pos) && (pos <? 4)) eqn:E4.
  - intros [Hl Hrun]%andb_true_iff. zify_bool. destruct (decide (len = 1 /\ pos = 0)) as [[-> ->]|Hne].
    + by apply step_short.
    + apply step_rep; [done|done| |done]. lia.
  - intros H. repeat (apply andb_true_iff in H as [H ?]). zify_bool. by apply step_match.
Qed.

(** ** The first byte and the end marker *)

Definition start (out : list Z) : lz := Lz 0 0 0 1 1 1 1 out.

Lemma start_same out : size <= Z.of_nat (length out) < 2 ^ 32 -> same E.LzmaEnc_Init (start out).
Proof.
  intros H. unfold start, E.LzmaEnc_Init. split; fields; try done.
  - split; fields; done || lia.
  - by repeat constructor.
Qed.

Lemma step_first out : 1 <= size -> size <= Z.of_nat (length out) < 2 ^ 32 ->
  stepped (E.encode_first data) E.LzmaEnc_Init (start out).
Proof.
  intros H1 Hout. pose proof (start_same out Hout) as Hs. pose proof (same_at _ _ Hs) as Hz.
  exists (written (byte_at 0) (start out)). split_and!; [| |done|apply length_insert].
  - apply (codes_ext lits (fun c => E.LitEnc_Encode E.litProbs (byte_at 0) (E.RangeEnc_EncodeBit (E.isMatch 0 0) 0 c)));
      [done|].
    apply (codes_bind lits _ (E.LitEnc_Encode E.litProbs (byte_at 0)) _ _ 0).
    { apply (codes_is_match _ _ 0 Hs). by left. }
    cbn [Z.eqb]. apply (codes_map lits _ _ _ (written (byte_at 0) (start out))); [|done].
    apply (codes_literal (start out) E.litProbs Hz); [cbn; lia|done|cbn; lia|].
    intros i Hi. rewrite Z.land_0_l, Z.shiftl_0_l, Z.shiftr_0_l. simpl. unfold lits.
    destruct Hprop as (? & ? & ?). assert (0 < 2 ^ (lc prop + lp prop)) by (apply Z.pow_pos_nonneg; lia).
    rewrite Z.shiftl_mul_pow2 by lia. lzma_consts. lia.
  - split; try done; [apply (written_at (start out) Hz); cbn; lia|by repeat constructor].
Qed.

Lemma codes_marker p z : same p z ->
  exists z', codes lits (fun c => E.cd (E.WriteEndMarker (pb prop) (with_coder c p))) (decode_symbol prop z) (inl z') /\
    nowPos z' = nowPos z /\ outStream z' = outStream z.
Proof.
  intros Hs. pose proof (same_range p z Hs) as Hst. set (ps := Z.land (E.nowPos p) (E.pbMask (pb prop))).
  set (z1 := set_state (if state z <? kNumLitStates then 0 else 3) (set_reps (rep0 z) (rep0 z) (rep1 z) (rep2 z) z)).
  exists (set_reps 0 (rep1 z1) (rep2 z1) (rep3 z1) (set_state (state z1 + 7) z1)). split; [|done].
  apply (codes_ext lits (fun c => E.encode_distance (fun _ => 63) 2 0xFFFFFFFF
    (E.LenEnc_Encode E.lenEnc 0 ps (E.RangeEnc_EncodeBit (E.isRep (E.state p)) 0
      (E.RangeEnc_EncodeBit (E.isMatch (E.state p) ps) 1 c))))); [done|].
  apply (codes_bind lits (E.RangeEnc_EncodeBit _ 1) (fun c => E.encode_distance (fun _ => 63) 2 0xFFFFFFFF
    (E.LenEnc_Encode E.lenEnc 0 ps (E.RangeEnc_EncodeBit (E.isRep (E.state p)) 0 c))) _ _ 1);
    [by apply codes_is_match; [|right]|].
  cbn [Z.eqb]. unfold decode_match. cbv zeta. rewrite (posState_same p z Hs). fold ps.
  apply (codes_bind lits _ (fun c => E.encode_distance (fun _ => 63) 2 0xFFFFFFFF (E.LenEnc_Encode E.lenEnc 0 ps c)) _ _ 0).
  { apply (codes_model_at p z); [done| |by left]. intros st ?. by split. }
  cbn [Z.eqb]. fold z1.
  apply (codes_bind lits (E.LenEnc_Encode _ _ _) (E.encode_distance (fun _ => 63) 2 0xFFFFFFFF) _ _ 0).
  { apply codes_len; [by apply len_models|lia|by apply posState_bits with z]. }
  unfold decode_copy. rewrite (proj2 (Z.ltb_lt _ _)) by (unfold z1; fields; destruct (_ <? _); lia).
  apply (codes_map lits _ _ _ 0xFFFFFFFF); [|done].
  apply (codes_distance lits (fun _ => 63) 0); [lia|]. right. split; [lia|]. vm_compute. by split.
Qed.

(** ** The main loop *)

Lemma with_coder_same p : with_coder (E.cd p) p = p.
Proof. by destruct p. Qed.

(** The encoder goes from [p] to [q], the decoder with it. *)
Definition loops (p q : E.enc) (z : lz) : Prop := coder_ok (E.cd p) ->
  coder_ok (E.cd q) /\ (forall str, final (E.rc (E.cd q)) str -> final (E.rc (E.cd p)) str) /\
  exists z', same q z' /\ length (outStream z') = length (outStream z) /\
  forall str s fuel inSize, Forall byte str -> final (E.rc (E.cd q)) str -> in_step lits str (E.cd p) s ->
    Z.of_nat (length (outStream z)) <= nowPos z + Z.of_nat fuel ->
    exists fuel' s', decode_loop prop fuel inSize z s = decode_loop prop fuel' inSize z' s' /\
      in_step lits str (E.cd q) s' /\ Z.of_nat (length (outStream z')) <= nowPos z' + Z.of_nat fuel'.

Lemma loops_refl p z : same p z -> loops p p z.
Proof.
  intros Hs Hc. split_and!; [done|done|]. exists z. split_and!; [done|done|].
  intros str s fuel inSize _ _ Hin Hf. by exists fuel, s.
Qed.

(** A turn in front of a loop. *)
Lemma loops_step (f : E.enc -> E.enc) p q z : same p z -> stepped f p z ->
  (forall z', same (f p) z' -> nowPos z < nowPos z' -> loops (f p) q z') -> loops p q z.
Proof.
  intros Hs (z' & Hcodes & Hs' & Hadv & Hlen) Hrest Hc. specialize (Hrest z' Hs' Hadv).
  destruct (Hcodes (E.cd p) Hc) as (Hc1 & Hf1 & Hd1). rewrite with_coder_same in Hc1, Hf1, Hd1.
  destruct (Hrest Hc1) as (Hc2 & Hf2 & z2 & Hs2 & Hl2 & Hd2). split_and!; [done|by intros str ?; apply Hf1, Hf2|].
  exists z2. split_and!; [done|by rewrite Hl2|]. intros str s fuel inSize Hstr Hfin Hin Hfuel.
  destruct (Hd1 str s Hstr (Hf2 str Hfin) Hin) as (s1 & E1 & Hin1).
  pose proof (at_bounds z' (same_at _ _ Hs')) as Hb. pose proof (same_at p z Hs) as [Hzb Hzr _ _].
  destruct fuel as [|fuel]; [lia|].
  destruct (Hd2 str s1 fuel inSize Hstr Hfin Hin1 ltac:(lia)) as (fuel' & s2 & E2 & Hin2 & Hf).
  exists fuel', s2. split_and!; try done. cbn [decode_loop]. rewrite (proj2 (Z.ltb_lt _ _)) by lia. by rewrite E1.
Qed.

Lemma loops_answers answers p z : same p z -> 1 <= E.nowPos p -> answers_ok answers p = true ->
  let q := E.encode_loop (lc prop) (lp prop) (pb prop) slot data answers p in
  loops p q z /\ E.nowPos q = size.
Proof.
  revert p z. induction answers as [|[len pos] answers IH]; intros p z Hs H1 Hok; simpl in *.
  - apply Z.eqb_eq in Hok. split; [by apply loops_refl|done].
  - apply andb_true_iff in Hok as [Ha Hok]. pose proof (step_answer p z len pos Hs H1 Ha) as Hstep.
    assert (Hnext : forall z', same (encode_one len pos p) z' -> nowPos z < nowPos z' ->
      loops (encode_one len pos p) (E.encode_loop (lc prop) (lp prop) (pb prop) slot data answers (encode_one len pos p)) z' /\
      E.nowPos (E.encode_loop (lc prop) (lp prop) (pb prop) slot data answers (encode_one len pos p)) = size).
    { intros z' Hs' Hadv. apply IH; [done| |done]. rewrite <- (same_pos _ _ Hs'). rewrite <- (same_pos _ _ Hs) in H1. lia. }
    split.
    + apply (loops_step (encode_one len pos)); [done|done|]. intros z' Hs' Hadv. by apply Hnext.
    + destruct Hstep as (z' & _ & Hs' & Hadv & _). by apply (Hnext z').
Qed.

(** Behind the last byte: the output is full, or the end marker is read. *)
Lemma decode_end q z (mark : bool) : same q z -> nowPos z = size -> coder_ok (E.cd q) ->
  mark = true \/ Z.of_nat (length (outStream z)) = size ->
  let q' := if mark then E.WriteEndMarker (pb prop) q else q in
  coder_ok (E.cd q') /\ (forall str, final (E.rc (E.cd q')) str -> final (E.rc (E.cd q)) str) /\
  forall str s fuel inSize, Forall byte str -> final (E.rc (E.cd q')) str -> in_step lits str (E.cd q) s ->
    Z.of_nat (length (outStream z)) <= nowPos z + Z.of_nat fuel ->
    exists i, decode_loop prop fuel inSize z s = Returned LZMA_RESULT_OK i size (outStream z).
Proof.
  intros Hs Hn Hc Hmark q'. destruct (codes_marker q z Hs) as (z' & Hcodes & Hn' & Ho').
  destruct (Hcodes (E.cd q) Hc) as (Hcm & Hfm & Hdm). rewrite with_coder_same in Hcm, Hfm, Hdm.
  assert (Hback : forall str, final (E.rc (E.cd q')) str -> final (E.rc (E.cd q)) str).
  { intros str. unfold q'. destruct mark; [apply Hfm|done]. }
  split_and!; [unfold q'; by destruct mark|done|]. intros str s fuel inSize Hstr Hfin Hin Hfuel.
  destruct (decide (Z.of_nat (length (outStream z)) = size)) as [Hfull|Hmore].
  - destruct Hin as [(s' & En & _) _]. eexists. destruct fuel; cbn [decode_loop];
      rewrite (proj2 (Z.ltb_ge _ _)), En, Hn by lia; reflexivity.
  - destruct Hmark as [->|]; [|done]. destruct (Hdm str s Hstr Hfin Hin) as (s1 & E1 & Hin1).
    pose proof (at_room z (same_at q z Hs)). destruct fuel as [|fuel]; [lia|]. cbn [decode_loop].
    rewrite (proj2 (Z.ltb_lt _ _)), E1 by lia. destruct Hin1 as [(s' & En & _) _]. rewrite En, Hn', Ho', Hn.
    by eexists.
Qed.

(** What is in the output then. *)
Lemma output_complete q z out : same q z -> nowPos z = size -> drop (length data) (outStream z) = drop (length data) out ->
  outStream z = data ++ drop (length data) out.
Proof.
  intros Hs Hn Hd. rewrite <- (take_drop (length data) (outStream z)), Hd. f_equal.
  pose proof (at_out z (same_at q z Hs)) as Ho. rewrite Hn, Nat2Z.id in Ho. rewrite Ho. apply firstn_all.
Qed.

(** The encoder behind the last byte. *)
Definition encoded (answers : list (Z * Z)) : E.enc := E.code_blocks (lc prop) (lp prop) (pb prop) slot data answers.

Definition parse_ok (answers : list (Z * Z)) : bool :=
  match data with [] => true | _ => answers_ok answers (E.encode_first data E.LzmaEnc_Init) end.

Lemma loops_file answers out : size <= Z.of_nat (length out) < 2 ^ 32 -> parse_ok answers = true ->
  loops E.LzmaEnc_Init (encoded answers) (start out) /\ E.nowPos (encoded answers) = size.
Proof.
  intros Hout Hok. pose proof (start_same out Hout) as Hs.
  assert (Hcases : (size = 0 /\ encoded answers = E.LzmaEnc_Init) \/
    (1 <= size /\ answers_ok answers (E.encode_first data E.LzmaEnc_Init) = true /\
     encoded answers = E.encode_loop (lc prop) (lp prop) (pb prop) slot data answers (E.encode_first data E.LzmaEnc_Init))).
  { unfold encoded, E.code_blocks. revert Hok. clear. unfold parse_ok.
    destruct data as [|b rest]; intros Hok; [by left|right]. split_and!; [simpl; lia|done|done]. }
  destruct Hcases as [[H0 ->]|(H1 & Hans & ->)]; [by split; [apply loops_refl|]|].
  pose proof (step_first out H1 Hout) as Hstep.
  assert (Hnext : forall z', same (E.encode_first data E.LzmaEnc_Init) z' -> nowPos (start out) < nowPos z' -> _)
    by (intros z' Hs' Hadv; apply (loops_answers answers _ z' Hs'); [|exact Hans];
        rewrite <- (same_pos _ _ Hs'); simpl in Hadv; lia).
  split.
  - apply (loops_step (E.encode_first data)); [done|done|]. intros z' Hs' Hadv. by apply Hnext.
  - destruct Hstep as (z' & _ & Hs' & Hadv & _). by apply (Hnext z').
Qed.

Lemma LzmaDecode_encode answers (mark : bool) probs out tail :
  Forall byte tail -> Forall byte out -> LzmaGetNumProbs prop <= Z.of_nat (length probs) ->
  size <= Z.of_nat (length out) < 2 ^ 32 -> mark = true \/ length out = length data ->
  parse_ok answers = true ->
  exists i, LzmaDecode prop probs
      (E.LzmaEnc_Encode (lc prop) (lp prop) (pb prop) slot data answers mark ++ tail) out =
    Returned LZMA_RESULT_OK i size (data ++ drop (length data) out).
Proof.
  intros Htail Hbytes Hprobs Hout Hmark Hok. destruct (loops_file answers out Hout Hok) as [Hloops Hpos].
  unfold E.LzmaEnc_Encode. fold (encoded answers). set (q := encoded answers) in *.
  destruct (Hloops coder_init_ok) as (Hcq & Hfq & z & Hs & Hlen & Hrun). change (outStream (start out)) with out in *.
  assert (Hz : nowPos z = size) by (by rewrite (same_pos q z Hs)).
  destruct (decode_end q z mark Hs Hz Hcq) as (Hce & Hfe & Hend); [rewrite Hlen; destruct Hmark; [by left|right; lia]|].
  set (q' := if mark then E.WriteEndMarker (pb prop) q else q) in *.
  set (str := E.written (E.RangeEnc_FlushData (E.rc (E.cd q'))) ++ tail).
  assert (Hstr : Forall byte str).
  { apply Forall_app. split; [|done]. apply FlushData_spec. by destruct Hce. }
  assert (Hfin : final (E.rc (E.cd q')) str) by (apply final_flush; [by destruct Hce|done]).
  assert (Hdec : exists i, LzmaDecode prop probs str out = Returned LZMA_RESULT_OK i size (outStream z)).
  { unfold LzmaDecode. cbv zeta. change (Literal + Z.shiftl LZMA_LIT_SIZE (lc prop + lp prop)) with (Literal + lits).
    unfold LzmaGetNumProbs in Hprobs. change (LZMA_BASE_SIZE + _) with (Literal + lits) in Hprobs.
    destruct (_ <? _)%nat eqn:E; [apply Nat.ltb_lt in E; lia|]. clear E.
    destruct (init_synced lits (replicate (Z.to_nat (Literal + lits)) (Z.shiftr kBitModelTotal 1) ++
      drop (Z.to_nat (Literal + lits)) probs) str lits_pos) as (s & Einit & Hin); [|done|by apply Hfq, Hfe|].
    { intros i Hi. rewrite lookup_app_l by (rewrite length_replicate; lia). by apply lookup_replicate_2. }
    rewrite Einit. change (Lz 0 0 0 1 1 1 1 out) with (start out).
    destruct (Hrun str s (length out) (Z.of_nat (length str)) Hstr (Hfe str Hfin) Hin) as
      (fuel' & s' & E2 & Hin2 & Hf); [simpl; lia|].
    destruct (Hend str s' fuel' (Z.of_nat (length str)) Hstr Hfin Hin2 Hf) as (i & E3).
    exists i. by rewrite E2, E3. }
  destruct Hdec as (i & Hdec). exists i. rewrite Hdec. f_equal. apply (output_complete q z out Hs Hz).
  destruct (LzmaDecode_returns prop probs str out Hprop ltac:(lia) Hbytes Hprobs) as
    (res & i' & o & out' & Eret & _ & _ & _ & _ & Hrest).
  rewrite Hdec in Eret. injection Eret as <- <- <- <-. specialize (Hrest eq_refl). by rewrite Nat2Z.id in Hrest.
Qed.
End file.

(** ** Theorems *)

(** C14: What the host compressor writes, the boot loader's decompressor turns
    back into the file: for every file, every choice of literals, matches and
    repeated distances whose bytes agree with the file, either size of the
    host's size_t, with or without an end marker, and whatever follows the
    stream.  Without the marker the output has the size of the file; with it the
    output may be larger and keeps its bytes behind the file. *)
Theorem lzma_roundtrip prop kNumLogBits limit data answers (mark : bool) probs out tail :
  prop_ok prop -> log_bits_ok kNumLogBits limit ->
  Forall byte data -> Forall byte tail -> Forall byte out ->
  LzmaGetNumProbs prop <= Z.of_nat (length probs) ->
  Z.of_nat (length data) <= Z.of_nat (length out) < 2 ^ 32 -> mark = true \/ length out = length data ->
  let slot := E.GetPosSlot kNumLogBits (E.LzmaEnc_FastPosInit kNumLogBits) in
  parse_ok prop slot limit data answers = true ->
  exists i, LzmaDecode prop probs
      (LzmaEnc.LzmaEnc_Encode (lc prop) (lp prop) (pb prop) slot data answers mark ++ tail) out =
    Returned LZMA_RESULT_OK i (Z.of_nat (length data)) (data ++ drop (length data) out).
Proof.
  intros Hprop Hlog Hdata Htail Hbytes Hprobs Hout Hmark slot Hok.
  apply (LzmaDecode_encode prop Hprop slot limit data Hdata); try done.
  - destruct Hlog as [[_ ->]|[_ ->]]; lia.
  - intros pos Hpos. by apply (GetPosSlot_ok _ limit).
Qed.

(** Literals, a match, one byte from the last distance, a literal, the last
    distance again, a longer match, the last distance but one. *)
Definition sample : list Z := [97; 98; 99; 97; 98; 99; 97; 98; 100; 97; 98; 97; 98; 99; 97; 98].
Definition literal : Z * Z := (1, 0xFFFFFFFF).
Definition sample_answers : list (Z * Z) :=
  [literal; literal; (4, 2 + 4); (1, 0); literal; (2, 0); (3, 10 + 4); (2, 1)].

Lemma lzma_roundtrip_witness :
  let slot := E.GetPosSlot 13 (E.LzmaEnc_FastPosInit 13) in
  exists i, LzmaDecode (mkProps 3 0 2) (replicate (Z.to_nat 7990) 0)
      (LzmaEnc.LzmaEnc_Encode 3 0 2 slot sample sample_answers true ++ [255; 255]) (replicate 18 7) =
    Returned LZMA_RESULT_OK i 16 (sample ++ [7; 7]).
Proof.
  apply (lzma_roundtrip (mkProps 3 0 2) 13 (2 ^ 31) sample sample_answers true (replicate (Z.to_nat 7990) 0) (replicate 18 7)
           [255; 255]).
  - split_and!; simpl; lia.
  - by right.
  - repeat constructor; unfold byte; lia.
  - repeat constructor; unfold byte; lia.
  - repeat constructor; unfold byte; lia.
  - vm_compute. discriminate.
  - simpl. lia.
  - by left.
  - vm_compute. reflexivity.
Defined.
