(* ===== verification/LzmaWrapper.v ===== *)
(** * libs/lzma/LzmaWrapper.c: decompressing from memory to memory

    The file format of the host tool: five bytes of properties, the size of the
    file as eight bytes, the stream.  [None] is a call the model does not cover:
    the source and the destination overlap. *)

From S2P Require Import Prelude LzmaDecode LzmaSafe LzmaRange LzmaRoundtrip LzmaTheorems.
From S2P Require Import Kservice.

(** ** Memory by ranges *)

Definition read_bytes (m : bytes_at) (a n : Z) : list Z := (fun i => m (a + i)) <$> seqZ 0 n.
Definition write_bytes (m : bytes_at) (a : Z) (l : list Z) : bytes_at :=
  fun x => if (a <=? x) && (x <? a + Z.of_nat (length l)) then nth (Z.to_nat (x - a)) l 0 else m x.

Definition apart (a n b k : Z) : bool := (a + n <=? b) || (b + k <=? a).

Lemma length_read_bytes m a n : length (read_bytes m a n) = Z.to_nat n.
Proof. unfold read_bytes. by rewrite length_fmap, length_seqZ. Qed.

Lemma lookup_read_bytes m a n i : (i < Z.to_nat n)%nat -> read_bytes m a n !! i = Some (m (a + Z.of_nat i)).
Proof.
  intros Hi. unfold read_bytes. rewrite list_lookup_fmap, lookup_seqZ_lt by lia. simpl. by rewrite Z.add_0_l.
Qed.

Lemma read_bytes_app m a n k : 0 <= n -> 0 <= k ->
  read_bytes m a (n + k) = read_bytes m a n ++ read_bytes m (a + n) k.
Proof.
  intros Hn Hk. apply list_eq. intros i. destruct (decide (i < Z.to_nat n)%nat).
  { rewrite lookup_app_l by (by rewrite length_read_bytes). by rewrite !lookup_read_bytes by lia. }
  rewrite lookup_app_r, length_read_bytes by (rewrite length_read_bytes; lia).
  destruct (decide (i < Z.to_nat (n + k))%nat).
  - rewrite !lookup_read_bytes by lia. do 2 f_equal. lia.
  - rewrite !lookup_ge_None_2; [done|rewrite length_read_bytes; lia..].
Qed.

Lemma read_bytes_byte m a n : byte_memory m -> Forall byte (read_bytes m a n).
Proof. intros Hm. unfold read_bytes. apply Forall_fmap, Forall_true. intros x. apply Hm. Qed.

(** ** lzma_inflate *)

(** The loop over the eight bytes of the size: [outSize] and [waitEOS]. *)
Definition size_step (acc : Z * bool) (ib : Z * Z) : Z * bool :=
  let '(outSize, waitEOS) := acc in
  let '(i, b) := ib in
  (if i <? 4 then u32 (outSize + Z.shiftl b (i * 8)) else outSize, if b =? 0xFF then waitEOS else false).
Definition read_size (bytes : list Z) : Z * bool := foldl size_step (0, true) (zip (seqZ 0 8) bytes).

(** What rt_malloc gives for a number of bytes: an array of CProb or nothing. *)
Definition allocator : Type := Z -> option (list Z).

(** [s_len] as the unsigned number the code computes with, [d_len] the value
    behind the pointer, [d_len_at] the pointer itself, which the code compares
    with the size of the output.  The results are the return value, the value
    behind the pointer and memory. *)
Definition lzma_inflate (malloc : allocator) (m : bytes_at) (source s_len dest d_len d_len_at : Z) :
    option (Z * Z * bytes_at) :=
  let rpos := 13 in
  let compressedSize := u32 (s_len - (LZMA_PROPERTIES_SIZE + 8)) in
  let properties := read_bytes m source LZMA_PROPERTIES_SIZE in
  let '(outSize, waitEOS) := read_size (read_bytes m (source + LZMA_PROPERTIES_SIZE) 8) in
  let data_error := Some (LZMA_RESULT_DATA_ERROR, d_len, m) in
  if waitEOS then data_error
  else
    match LzmaDecodeProperties properties LZMA_PROPERTIES_SIZE with
    | None => data_error
    | Some prop =>
        let no_out := negb (outSize =? 0) && (outSize >? d_len_at) in
        let no_in := negb (compressedSize =? 0) && (u32 (compressedSize + rpos) >? s_len) in
        match malloc (LzmaGetNumProbs prop * 2) with
        | None => data_error
        | Some probs =>
            if no_out || no_in then data_error
            else if negb (apart (source + rpos) compressedSize dest outSize) then None
            else
              match LzmaDecode prop probs (read_bytes m (source + rpos) compressedSize) (read_bytes m dest outSize) with
              | Returned res _ outProcessed out =>
                  let m := write_bytes m dest out in
                  Some (if res =? 0 then (0, outProcessed, m) else (1, d_len, m))
              | _ => None
              end
        end
    end.

(** ** The file the host tool writes: [encode] of src/host_util/lzma/lzmp.cpp *)

Definition size_bytes (fileSize : Z) : list Z := (fun i => u8 (Z.shiftr fileSize (8 * i))) <$> seqZ 0 8.

Definition lzma_file (kNumLogBits lc lp pb dictSize : Z) (data : list Z) (answers : list (Z * Z)) (mark : bool) : list Z :=
  LzmaEnc.LzmaEnc_WriteProperties lc lp pb dictSize ++ size_bytes (Z.of_nat (length data)) ++
  LzmaEnc.LzmaEnc_Encode lc lp pb (LzmaEnc.GetPosSlot kNumLogBits (LzmaEnc.LzmaEnc_FastPosInit kNumLogBits))
    data answers mark.

(** ** Its header is read back *)

Lemma size_bytes_digits n : 0 <= n < 2 ^ 32 ->
  size_bytes n = [n mod 256; n / 256 mod 256; n / 65536 mod 256; n / 16777216; 0; 0; 0; 0].
Proof.
  intros Hn. change (size_bytes n) with [u8 (Z.shiftr n 0); u8 (Z.shiftr n 8); u8 (Z.shiftr n 16); u8 (Z.shiftr n 24);
    u8 (Z.shiftr n 32); u8 (Z.shiftr n 40); u8 (Z.shiftr n 48); u8 (Z.shiftr n 56)].
  rewrite !Z.shiftr_div_pow2 by lia. unfold wrap. rewrite (Z.div_small n (2 ^ 32)), (Z.div_small n (2 ^ 40)), (Z.div_small n (2 ^ 48)), (Z.div_small n (2 ^ 56)) by lia.
  rewrite Z.div_1_r. repeat f_equal. zdiv.
Qed.

Lemma read_size_bytes n : 0 <= n < 2 ^ 32 -> read_size (size_bytes n) = (n, false).
Proof.
  intros Hn. rewrite size_bytes_digits by done. unfold read_size.
  change (zip (seqZ 0 8) _) with [(0, n mod 256); (1, n / 256 mod 256); (2, n / 65536 mod 256); (3, n / 16777216);
    (4, 0); (5, 0); (6, 0); (7, 0)].
  cbn [foldl size_step Z.ltb Z.compare Pos.compare Pos.compare_cont Z.eqb]. f_equal.
  rewrite !Z.shiftl_mul_pow2 by lia.
  assert (Hm : forall x, 0 <= x mod 256 < 256) by (intros; apply Z.mod_pos_bound; lia).
  pose proof (Hm n). pose proof (Hm (n / 256)). pose proof (Hm (n / 65536)).
  assert (0 <= n / 16777216 < 256) by zdiv.
  rewrite (wrap_small 32 (0 + n mod 256 * 2 ^ (0 * 8))) by lia.
  rewrite (wrap_small 32 (0 + n mod 256 * 2 ^ (0 * 8) + n / 256 mod 256 * 2 ^ (1 * 8))) by lia.
  rewrite (wrap_small 32 (_ + n / 65536 mod 256 * 2 ^ (2 * 8))) by lia.
  rewrite wrap_small by lia. zdiv.
Qed.

Lemma WriteProperties_read lc lp pb dictSize : prop_ok (mkProps lc lp pb) ->
  let props := LzmaEnc.LzmaEnc_WriteProperties lc lp pb dictSize in
  length props = 5%nat /\ Forall byte props /\
  LzmaDecodeProperties props LZMA_PROPERTIES_SIZE = Some (mkProps lc lp pb).
Proof.
  intros (Hc & Hp & Hb). cbn [LzmaDecode.lc LzmaDecode.lp LzmaDecode.pb] in *. cbv zeta.
  assert (Hbyte : Forall byte (LzmaEnc.LzmaEnc_WriteProperties lc lp pb dictSize)).
  { unfold LzmaEnc.LzmaEnc_WriteProperties. constructor; [by apply (wrap_bounds 8)|].
    apply Forall_fmap, Forall_true. intros i. by apply (wrap_bounds 8). }
  split_and!; [done|done|]. rewrite properties_spec.
  2:{ by inversion Hbyte. }
  unfold LzmaEnc.LzmaEnc_WriteProperties. cbn [nth]. rewrite wrap_small by lia.
  change (LZMA_PROPERTIES_SIZE <? 5) with false. rewrite orb_false_l, (proj2 (Z.leb_gt _ _)) by lia.
  f_equal. f_equal; zdiv.
Qed.

(** ** Theorems *)

Lemma read_write_other m a l b n : apart b n a (Z.of_nat (length l)) = true -> 0 <= n ->
  read_bytes (write_bytes m a l) b n = read_bytes m b n.
Proof.
  intros Ha Hn. apply list_eq. intros i. destruct (decide (i < Z.to_nat n)%nat).
  2:{ rewrite !lookup_ge_None_2; [done|rewrite length_read_bytes; lia..]. }
  rewrite !lookup_read_bytes by done. f_equal. unfold write_bytes, apart in *. apply orb_true_iff in Ha.
  destruct (_ && _) eqn:E; [|done]. zify_bool. destruct Ha as [Ha|Ha]; zify_bool; lia.
Qed.

Lemma read_write m a l : read_bytes (write_bytes m a l) a (Z.of_nat (length l)) = l.
Proof.
  apply list_eq. intros i. destruct (decide (i < length l)%nat).
  2:{ rewrite !lookup_ge_None_2; [done|lia|rewrite length_read_bytes; lia]. }
  rewrite lookup_read_bytes by lia. unfold write_bytes.
  rewrite (proj2 (Z.leb_le _ _)), (proj2 (Z.ltb_lt _ _)) by lia. cbn [andb].
  replace (Z.to_nat (a + Z.of_nat i - a)) with i by lia.
  destruct (lookup_lt_is_Some_2 l i) as [x Ex]; [done|]. by rewrite Ex, (nth_lookup_Some _ _ _ _ Ex).
Qed.

(** Memory holds [l] at [a]. *)
Definition holds (m : bytes_at) (a : Z) (l : list Z) : Prop := read_bytes m a (Z.of_nat (length l)) = l.

Lemma holds_app m a l k : holds m a (l ++ k) <-> holds m a l /\ holds m (a + Z.of_nat (length l)) k.
Proof.
  unfold holds. rewrite length_app, Nat2Z.inj_add, read_bytes_app by lia. split.
  - intros H. apply app_inj_1 in H; [done|]. rewrite length_read_bytes. lia.
  - by intros [-> ->].
Qed.

(** What rt_malloc promises: the array it gives has room for the bytes. *)
Definition malloc_law (malloc : allocator) (n : Z) : Prop :=
  exists probs, malloc n = Some probs /\ n <= 2 * Z.of_nat (length probs).

(** The work of [lzma_inflate] on a file of the host tool. *)
Lemma lzma_inflate_file malloc m source s_len dest d_len d_len_at kNumLogBits limit lc lp pb dictSize data answers mark :
  prop_ok (mkProps lc lp pb) -> log_bits_ok kNumLogBits limit -> Forall byte data -> byte_memory m ->
  let file := lzma_file kNumLogBits lc lp pb dictSize data answers mark in
  parse_ok (mkProps lc lp pb) (E.GetPosSlot kNumLogBits (E.LzmaEnc_FastPosInit kNumLogBits)) limit data answers = true ->
  malloc_law malloc (2 * LzmaGetNumProbs (mkProps lc lp pb)) ->
  holds m source file -> Z.of_nat (length file) <= s_len < 2 ^ 32 ->
  Z.of_nat (length data) <= d_len_at < 2 ^ 32 ->
  apart source s_len dest (Z.of_nat (length data)) = true ->
  lzma_inflate malloc m source s_len dest d_len d_len_at =
    Some (LZMA_RESULT_OK, Z.of_nat (length data), write_bytes m dest data).
Proof.
  intros Hprop Hlog Hdata Hm file Hok Hmalloc Hfile Hlen Hd Hap.
  destruct (WriteProperties_read lc lp pb dictSize Hprop) as (Hpl & Hpb & Hpd).
  unfold file, lzma_file in *. set (props := LzmaEnc.LzmaEnc_WriteProperties lc lp pb dictSize) in *.
  set (stream := LzmaEnc.LzmaEnc_Encode _ _ _ _ _ _ _) in *.
  rewrite !length_app, Hpl in Hlen. change (length (size_bytes _)) with 8%nat in Hlen.
  apply holds_app in Hfile as [Hprops Hfile]. apply holds_app in Hfile as [Hsize Hstream].
  unfold holds in *. rewrite Hpl in *. change (length (size_bytes _)) with 8%nat in *.
  unfold lzma_inflate. change LZMA_PROPERTIES_SIZE with 5 in *. change (Z.of_nat 5) with 5 in *.
  change (Z.of_nat 8) with 8 in *. rewrite Hsize, read_size_bytes, Hprops, Hpd by lia. clear Hsize Hprops Hpd.
  destruct Hmalloc as (probs & Hmal & Hprobs). rewrite Z.mul_comm, Hmal.
  change (5 + 8) with 13. rewrite (wrap_small 32 (s_len - 13)) by lia.
  replace (s_len - 13 + 13) with s_len by lia. rewrite (wrap_small 32 s_len) by lia.
  rewrite !Z.gtb_ltb, (proj2 (Z.ltb_ge d_len_at _)), (proj2 (Z.ltb_ge s_len s_len)), !andb_false_r by lia. cbn [orb].
  assert (Hap' : apart (source + 13) (s_len - 13) dest (Z.of_nat (length data)) = true).
  { unfold apart in *. apply orb_true_iff in Hap. apply orb_true_iff.
    destruct Hap as [Hap|Hap]; zify_bool; [left|right]; apply Z.leb_le; lia. }
  rewrite Hap'. cbn [negb].
  replace (source + 5 + 8) with (source + 13) in Hstream by lia.
  set (k := Z.of_nat (length stream)) in *.
  replace (s_len - 13) with (k + (s_len - 13 - k)) by lia. rewrite read_bytes_app, Hstream by lia.
  destruct (lzma_roundtrip (mkProps lc lp pb) kNumLogBits limit data answers mark probs
              (read_bytes m dest (Z.of_nat (length data))) (read_bytes m (source + 13 + k) (s_len - 13 - k)))
    as (i & E); try done.
  - by apply read_bytes_byte.
  - by apply read_bytes_byte.
  - lia.
  - rewrite length_read_bytes. lia.
  - right. rewrite length_read_bytes. lia.
  - cbn [LzmaDecode.lc LzmaDecode.lp LzmaDecode.pb] in E. fold stream in E. rewrite E. cbn [Z.eqb].
    rewrite (proj2 (Z.eqb_eq _ _)) by done. rewrite drop_ge, app_nil_r by (rewrite length_read_bytes; lia). done.
Qed.

(** The check of the output size does not look at the limit the caller gives,
    [*d_len]: the limit only comes back when decompressing fails. *)
Lemma lzma_inflate_ignores_limit malloc m source s_len dest d_len d_len' d_len_at :
  (fun r : Z * Z * bytes_at => (fst (fst r), snd r)) <$> lzma_inflate malloc m source s_len dest d_len d_len_at =
  (fun r : Z * Z * bytes_at => (fst (fst r), snd r)) <$> lzma_inflate malloc m source s_len dest d_len' d_len_at.
Proof.
  unfold lzma_inflate. destruct (read_size _) as [outSize [|]]; [done|].
  destruct (LzmaDecodeProperties _ _); [|done]. destruct (malloc _); [|done].
  destruct (_ || _); [done|]. destruct (negb (apart _ _ _ _)); [done|].
  destruct (LzmaDecode _ _ _ _) as [res i o out| |]; [|done..]. by destruct (res =? 0).
Qed.

(** Nor does the check of the input size ever fail: the thirteen bytes that were
    taken off are put back on. *)
Lemma lzma_inflate_input_check s_len : 0 <= s_len < 2 ^ 32 ->
  (u32 (u32 (s_len - (LZMA_PROPERTIES_SIZE + 8)) + 13) >? s_len) = false.
Proof.
  intros Hs. change (LZMA_PROPERTIES_SIZE + 8) with 13.
  assert (E : u32 (u32 (s_len - 13) + 13) = s_len).
  { unfold wrap. rewrite Zplus_mod_idemp_l. replace (s_len - 13 + 13) with s_len by lia. by apply Z.mod_small. }
  rewrite E, Z.gtb_ltb. apply Z.ltb_irrefl.
Qed.

Lemma read_size_bounds bytes : Forall byte bytes -> 0 <= fst (read_size bytes) < 2 ^ 32.
Proof.
  intros _. unfold read_size. assert (H : forall l acc, 0 <= fst acc < 2 ^ 32 -> 0 <= fst (foldl size_step acc l) < 2 ^ 32).
  { intros l. induction l as [|[i b] l IH]; intros [o w] Ha; [done|]. cbn [foldl]. apply IH. cbn [size_step fst].
    destruct (i <? 4); [by apply (wrap_bounds 32)|done]. }
  apply H. simpl. lia.
Qed.

(** C17: [lzma_inflate] on whatever is in memory: if the source and the place for
    the announced size do not overlap it returns, 0 or 1, and memory changes
    nowhere but in that place; on success the length it reports is at most the
    announced size.  The announced size is the image's own word for it. *)
Theorem lzma_inflate_safe malloc m source s_len dest d_len d_len_at :
  byte_memory m -> (forall n p, malloc n = Some p -> n <= 2 * Z.of_nat (length p)) ->
  let announced := fst (read_size (read_bytes m (source + LZMA_PROPERTIES_SIZE) 8)) in
  apart (source + 13) (u32 (s_len - 13)) dest announced = true ->
  exists res d_len' m', lzma_inflate malloc m source s_len dest d_len d_len_at = Some (res, d_len', m') /\
    (res = 0 \/ res = 1) /\ (res = 0 -> 0 <= d_len' <= announced) /\ (res = 1 -> d_len' = d_len) /\
    forall x, x < dest \/ dest + announced <= x -> m' x = m x.
Proof.
  intros Hm Hmal announced Hap. unfold lzma_inflate.
  assert (Herr : exists res d_len' m', Some (LZMA_RESULT_DATA_ERROR, d_len, m) = Some (res, d_len', m') /\
    (res = 0 \/ res = 1) /\ (res = 0 -> 0 <= d_len' <= announced) /\ (res = 1 -> d_len' = d_len) /\
    forall x, x < dest \/ dest + announced <= x -> m' x = m x).
  { do 3 eexists. split; [done|]. split_and!; try done. by right. }
  pose proof (read_size_bounds (read_bytes m (source + LZMA_PROPERTIES_SIZE) 8) (read_bytes_byte _ _ _ Hm)) as Hann.
  unfold announced in *. destruct (read_size _) as [outSize waitEOS]. cbn [fst] in *.
  destruct waitEOS; [done|]. destruct (LzmaDecodeProperties _ _) as [prop|] eqn:Eprop; [|done].
  destruct (malloc _) as [probs|] eqn:Emal; [|done]. apply Hmal in Emal.
  destruct (_ || _); [done|]. change (LZMA_PROPERTIES_SIZE + 8) with 13. rewrite Hap. cbn [negb].
  assert (Hprop : prop_ok prop).
  { apply (properties_ok (read_bytes m source LZMA_PROPERTIES_SIZE) LZMA_PROPERTIES_SIZE); [|done]. apply Hm. }
  set (out := read_bytes m dest outSize). assert (Hout : Z.of_nat (length out) = outSize) by
    (unfold out; rewrite length_read_bytes; lia).
  destruct (LzmaDecode_returns prop probs (read_bytes m (source + 13) (u32 (s_len - 13))) out Hprop) as
    (res & i & o & out' & E & Hres & Hl & _ & Ho & _); [lia|by apply read_bytes_byte|lia|].
  rewrite E. assert (Hsame : forall x, x < dest \/ dest + outSize <= x -> write_bytes m dest out' x = m x).
  { intros x Hx. unfold write_bytes. destruct (_ && _) eqn:Ex; [|done]. zify_bool. lia. }
  destruct Hres as [-> | ->]; cbn [Z.eqb LZMA_RESULT_OK LZMA_RESULT_DATA_ERROR];
    do 3 eexists; (split; [done|]); split_and!; try done; try lia; by (left + right).
Qed.

(** The abracadabra file of the host tool, with its header, at address 0. *)
Definition image_at (file : list Z) : bytes_at := fun x => if 0 <=? x then nth (Z.to_nat x) file 0 else 0.

Lemma image_at_byte file : Forall byte file -> byte_memory (image_at file).
Proof.
  intros Hf x. unfold image_at. destruct (0 <=? x); [|unfold byte; lia].
  destruct (lt_dec (Z.to_nat x) (length file)) as [Hx|Hx].
  - by apply Forall_nth.
  - rewrite nth_overflow by lia. unfold byte; lia.
Qed.

Lemma image_at_holds file : holds (image_at file) 0 file.
Proof.
  apply list_eq. intros i. destruct (decide (i < length file)%nat).
  2:{ rewrite !lookup_ge_None_2; [done|lia|rewrite length_read_bytes; lia]. }
  rewrite lookup_read_bytes by lia. unfold image_at. rewrite (proj2 (Z.leb_le _ _)) by lia.
  replace (Z.to_nat (0 + Z.of_nat i)) with i by lia.
  destruct (lookup_lt_is_Some_2 file i) as [x Ex]; [done|]. by rewrite Ex, (nth_lookup_Some _ _ _ _ Ex).
Qed.

Definition sample_file : list Z := [0; 0; 0; 1; 0; 11; 0; 0; 0; 0; 0; 0; 0] ++ abracadabra.

Lemma lzma_inflate_safe_witness :
  let malloc n := Some (replicate (Z.to_nat n) 0) in
  let m := image_at sample_file in
  exists m', lzma_inflate malloc m 0 (Z.of_nat (length sample_file)) 64 0 0x80000000 = Some (0, 11, m') /\
    read_bytes m' 64 11 = [97; 98; 114; 97; 99; 97; 100; 97; 98; 114; 97] /\
    forall x, x < 64 \/ 75 <= x -> m' x = m x.
Proof.
  intros malloc m.
  assert (E : exists r, lzma_inflate malloc m 0 (Z.of_nat (length sample_file)) 64 0 0x80000000 = Some r /\
    fst r = (0, 11) /\ read_bytes (snd r) 64 11 = [97; 98; 114; 97; 99; 97; 100; 97; 98; 114; 97]).
  { eexists. split; [vm_compute; reflexivity|]. split; vm_compute; reflexivity. }
  destruct E as (((res, d), m'') & E & [= -> ->] & Hread).
  destruct (lzma_inflate_safe malloc m 0 (Z.of_nat (length sample_file)) 64 0 0x80000000)
    as (res & d & m' & E' & _ & _ & _ & Hsame).
  - apply image_at_byte. repeat constructor; unfold byte; lia.
  - intros n p [= <-]. rewrite length_replicate. lia.
  - vm_compute. reflexivity.
  - rewrite E in E'. injection E' as <- <- <-. exists m''. split; [exact E|]. split; [exact Hread|].
    intros x Hx. apply Hsame. exact Hx.
Defined.
