(* ===== verification/Image.v ===== *)
(** * Boot images: common/include/loader/image.h and tools/mkimage.c

    The header of an image with its bytes in memory, and the host tool that
    writes images.  The contents of the files named on the command line are
    arguments; [None] is a run that ends with a message. *)

From S2P Require Import Prelude Crc32 Kservice LzmaWrapper.

(** ** Words in network order *)

Definition htonl (w : Z) : list Z := [u8 (Z.shiftr w 24); u8 (Z.shiftr w 16); u8 (Z.shiftr w 8); u8 w].

(** The target is big-endian ([-EB]), and [imtohl] the identity. *)
Definition imtohl (x : Z) : Z := x.
Definition word_at (m : bytes_at) (a : Z) : Z := load_word true m a.

(** ** The header *)

Definition IH_OS_LINUX : Z := 5.
Definition IH_CPU_MIPS : Z := 5.
Definition IH_CPU_PPC : Z := 7.
Definition IH_TYPE_KERNEL : Z := 2.
Definition IH_TYPE_MULTI : Z := 4.
Definition IH_TYPE_SCRIPT : Z := 6.
Definition IH_COMP_GZIP : Z := 1.
Definition IH_COMP_LZMA : Z := 3.
Definition IH_MAGIC : Z := 0x27051956.
Definition IH_NMLEN : Z := 32.
Definition sizeof_image_header : Z := 64.

Record image_header := mkHeader {
  ih_magic : Z; ih_hcrc : Z; ih_time : Z; ih_size : Z; ih_load : Z; ih_ep : Z; ih_dcrc : Z;
  ih_os : Z; ih_arch : Z; ih_type : Z; ih_comp : Z; ih_name : list Z
}.

(** Its fields one after the other: no padding. *)
Definition header_bytes (h : image_header) : list Z :=
  htonl (ih_magic h) ++ htonl (ih_hcrc h) ++ htonl (ih_time h) ++ htonl (ih_size h) ++ htonl (ih_load h) ++
  htonl (ih_ep h) ++ htonl (ih_dcrc h) ++ [ih_os h; ih_arch h; ih_type h; ih_comp h] ++ ih_name h.

(** The header rt_memmove copies from an address. *)
Definition read_header (m : bytes_at) (a : Z) : image_header :=
  mkHeader (word_at m a) (word_at m (a + 4)) (word_at m (a + 8)) (word_at m (a + 12)) (word_at m (a + 16))
    (word_at m (a + 20)) (word_at m (a + 24)) (m (a + 28)) (m (a + 29)) (m (a + 30)) (m (a + 31))
    (read_bytes m (a + 32) IH_NMLEN).

Definition set_hcrc (crc : Z) (h : image_header) : image_header :=
  mkHeader (ih_magic h) crc (ih_time h) (ih_size h) (ih_load h) (ih_ep h) (ih_dcrc h)
    (ih_os h) (ih_arch h) (ih_type h) (ih_comp h) (ih_name h).

(** ** mkimage *)

(** The options of the command line. *)
Record options := mkOptions {
  opt_os : Z; opt_arch : Z; opt_type : Z; opt_comp : Z;
  eflag : bool; xflag : bool; opt_addr : Z; opt_ep : Z; opt_name : list Z
}.

(** The entry point, and the check for images that are run in place. *)
Definition entry_point (o : options) : option Z :=
  let addr := opt_addr o in
  let ep := if eflag o then opt_ep o else if xflag o then u32 (addr + sizeof_image_header) else addr in
  if xflag o then if ep =? u32 (addr + sizeof_image_header) then Some ep else None
  else Some ep.

(** What [copy_file] writes of a file. *)
Definition copy_file (o : options) (file : list Z) (pad : bool) : option (list Z) :=
  let st_size := Z.of_nat (length file) in
  let write (offset : Z) :=
    let size := st_size - offset in
    let tail := size mod 4 in
    drop (Z.to_nat offset) file ++
    if pad && negb (tail =? 0) then replicate (Z.to_nat (4 - tail)) 0 else [] in
  if xflag o then
    if st_size <? sizeof_image_header then None
    else if forallb (fun b => b =? 0xff) (take (Z.to_nat sizeof_image_header) file) then
      Some (write sizeof_image_header)
    else None
  else Some (write 0).

(** The sizes of the files and the word that ends them. *)
Fixpoint multi_sizes (files : list (list Z)) : list Z :=
  match files with
  | [] => htonl 0
  | file :: files => htonl (Z.of_nat (length file)) ++ multi_sizes files
  end.

(** Every file but the last is padded to a word. *)
Fixpoint copy_files (o : options) (files : list (list Z)) : option (list Z) :=
  match files with
  | [] => None
  | [file] => copy_file o file false
  | file :: files =>
      match copy_file o file true, copy_files o files with
      | Some copied, Some rest => Some (copied ++ rest)
      | _, _ => None
      end
  end.

(** What follows the header. *)
Definition image_data (o : options) (files : list (list Z)) : option (list Z) :=
  if (opt_type o =? IH_TYPE_MULTI) || (opt_type o =? IH_TYPE_SCRIPT) then
    match copy_files o files with Some copied => Some (multi_sizes files ++ copied) | None => None end
  else match files with [file] => copy_file o file false | _ => None end.

(** [strncpy] into a field that is zero. *)
Definition name_field (name : list Z) : list Z :=
  take (Z.to_nat IH_NMLEN) name ++ replicate (Z.to_nat IH_NMLEN - length name) 0.

Section mkimage.
(** [tinf_crc32] of the library the tool is linked with. *)
Variable tinf_crc32 : list Z -> Z.

Definition make_header (o : options) (ep mtime : Z) (data : list Z) : image_header :=
  let h := mkHeader IH_MAGIC 0 (u32 mtime) (u32 (Z.of_nat (length data))) (opt_addr o) ep (tinf_crc32 data)
    (u8 (opt_os o)) (u8 (opt_arch o)) (u8 (opt_type o)) (u8 (opt_comp o)) (name_field (opt_name o)) in
  set_hcrc (tinf_crc32 (header_bytes h)) h.

(** The image written: [files] are the contents of the files named after [-d],
    separated by colons, [mtime] the time in the file system. *)
Definition mkimage (o : options) (mtime : Z) (files : list (list Z)) : option (list Z) :=
  match entry_point o, image_data o files with
  | Some ep, Some data => Some (header_bytes (make_header o ep mtime data) ++ data)
  | _, _ => None
  end.
End mkimage.

(** ** Words and headers read back *)

Ltac pow2_numerals :=
  change (2 ^ 32) with 4294967296 in *; change (2 ^ 24) with 16777216 in *;
  change (2 ^ 16) with 65536 in *; change (2 ^ 8) with 256 in *.

Lemma word_at_value m a : byte (m a) -> byte (m (a + 1)) -> byte (m (a + 2)) -> byte (m (a + 3)) ->
  word_at m a = m a * 2 ^ 24 + m (a + 1) * 2 ^ 16 + m (a + 2) * 2 ^ 8 + m (a + 3).
Proof.
  unfold byte. intros. unfold word_at, load_word, lane.
  rewrite !Z.shiftl_mul_pow2 by lia. change (24 - 8 * 0) with 24. change (24 - 8 * 1) with 16.
  change (24 - 8 * 2) with 8. change (24 - 8 * 3) with 0. rewrite Z.pow_0_r, Z.mul_1_r.
  rewrite (Z.lor_comm (m a * _)), (lor_add _ _ 24), (Z.lor_comm (m (a + 2) * _)), (lor_add _ _ 8) by lia.
  replace (m (a + 1) * 2 ^ 16 + m a * 2 ^ 24) with ((m (a + 1) + m a * 2 ^ 8) * 2 ^ 16) by lia.
  rewrite Z.lor_comm, lor_add by lia. lia.
Qed.

Lemma htonl_bytes w : Forall byte (htonl w).
Proof. repeat constructor; by apply (wrap_bounds 8). Qed.

Lemma htonl_value w : word w ->
  u8 (Z.shiftr w 24) * 2 ^ 24 + u8 (Z.shiftr w 16) * 2 ^ 16 + u8 (Z.shiftr w 8) * 2 ^ 8 + u8 w = w.
Proof.
  intros Hw. unfold word, wrap in *. rewrite !Z.shiftr_div_pow2 by lia. pow2_numerals.
  replace (w / 16777216) with (w / 256 / 256 / 256) by (by rewrite !Z.div_div by lia).
  replace (w / 65536) with (w / 256 / 256) by (by rewrite !Z.div_div by lia).
  pose proof (Z.div_mod w 256). pose proof (Z.div_mod (w / 256) 256). pose proof (Z.div_mod (w / 256 / 256) 256).
  rewrite (Z.mod_small (w / 256 / 256 / 256)) by zdiv. lia.
Qed.

Lemma read_bytes_4 m a : read_bytes m a 4 = [m a; m (a + 1); m (a + 2); m (a + 3)].
Proof. unfold read_bytes. change (seqZ 0 4) with [0; 1; 2; 3]. simpl. by rewrite Z.add_0_r. Qed.

Lemma word_at_holds m a w : word w -> holds m a (htonl w) -> word_at m a = w.
Proof.
  intros Hw H. unfold holds in H. change (Z.of_nat _) with 4 in H. rewrite read_bytes_4 in H.
  unfold htonl in H. injection H as H0 H1 H2 H3.
  rewrite word_at_value, H0, H1, H2, H3; [by apply htonl_value|unfold byte; rewrite ?H0, ?H1, ?H2, ?H3..];
    by apply (wrap_bounds 8).
Qed.

Lemma htonl_word_at m a : byte_memory m -> htonl (word_at m a) = read_bytes m a 4.
Proof.
  intros Hm. rewrite read_bytes_4. rewrite word_at_value by apply Hm. unfold htonl.
  pose proof (Hm a). pose proof (Hm (a + 1)). pose proof (Hm (a + 2)). pose proof (Hm (a + 3)).
  unfold byte, wrap in *. rewrite !Z.shiftr_div_pow2 by lia. pow2_numerals. repeat f_equal; zdiv.
Qed.

Lemma word_at_word m a : byte_memory m -> word (word_at m a).
Proof.
  intros Hm. rewrite word_at_value by apply Hm.
  pose proof (Hm a). pose proof (Hm (a + 1)). pose proof (Hm (a + 2)). pose proof (Hm (a + 3)). unfold word. lia.
Qed.

(** The fields that are in range. *)
Record header_ok (h : image_header) : Prop := {
  ho_words : Forall word [ih_magic h; ih_hcrc h; ih_time h; ih_size h; ih_load h; ih_ep h; ih_dcrc h];
  ho_bytes : Forall byte [ih_os h; ih_arch h; ih_type h; ih_comp h];
  ho_name : length (ih_name h) = 32%nat /\ Forall byte (ih_name h)
}.

Lemma length_header_bytes h : length (ih_name h) = 32%nat -> length (header_bytes h) = 64%nat.
Proof. intros E. unfold header_bytes. rewrite !length_app, E. reflexivity. Qed.

Lemma header_bytes_bytes h : header_ok h -> Forall byte (header_bytes h).
Proof.
  intros [_ Hb [_ Hn]]. unfold header_bytes. repeat apply Forall_app_2; try apply htonl_bytes; done.
Qed.

(** The header in memory is the one that was written. *)
Lemma read_header_holds m a h : header_ok h -> holds m a (header_bytes h) -> read_header m a = h.
Proof.
  intros [Hw Hb [Hn _]] H. destruct h as [f0 f1 f2 f3 f4 f5 f6 os arch type comp name]. unfold header_bytes in H.
  cbn [ih_magic ih_hcrc ih_time ih_size ih_load ih_ep ih_dcrc ih_os ih_arch ih_type ih_comp ih_name] in *.
  rewrite !holds_app in H. cbn [length htonl] in H. rewrite <- !Z.add_assoc in H. cbn [Z.of_nat Pos.of_succ_nat] in H.
  destruct H as (H0 & H1 & H2 & H3 & H4 & H5 & H6 & H7 & H8).
  rewrite !Forall_cons in Hw. unfold read_header. unfold holds in H8. rewrite Hn in H8.
  assert (H7' : read_bytes m (a + 28) 4 = [os; arch; type; comp]) by exact H7.
  rewrite read_bytes_4 in H7'. rewrite <- !Z.add_assoc in H7'. injection H7' as E1 E2 E3 E4.
  f_equal; try done; apply word_at_holds; tauto.
Qed.

(** Any 64 bytes are a header. *)
Lemma header_bytes_read m a : byte_memory m -> header_bytes (read_header m a) = read_bytes m a 64.
Proof.
  intros Hm. unfold header_bytes, read_header.
  cbn [ih_magic ih_hcrc ih_time ih_size ih_load ih_ep ih_dcrc ih_os ih_arch ih_type ih_comp ih_name].
  rewrite !htonl_word_at by done.
  replace 64 with (4 + (4 + (4 + (4 + (4 + (4 + (4 + (4 + 32)))))))) by lia.
  rewrite !read_bytes_app by lia. rewrite <- !Z.add_assoc. repeat f_equal.
  change (4 + (4 + (4 + (4 + (4 + (4 + 4)))))) with 28. rewrite read_bytes_4. by rewrite <- !Z.add_assoc.
Qed.

Lemma read_header_ok m a : byte_memory m -> header_ok (read_header m a).
Proof.
  intros Hm. constructor.
  - repeat constructor; by apply word_at_word.
  - repeat constructor; apply Hm.
  - split; [apply length_read_bytes|by apply read_bytes_byte].
Qed.

(** Headers with the same bytes are the same. *)
Lemma header_bytes_inj h h' : header_ok h -> header_ok h' -> header_bytes h = header_bytes h' -> h = h'.
Proof.
  intros Hh Hh' E. assert (Hat : forall h, header_ok h -> holds (image_at (header_bytes h)) 0 (header_bytes h)).
  { intros k _. apply image_at_holds. }
  rewrite <- (read_header_holds _ 0 h Hh (Hat h Hh)), <- (read_header_holds _ 0 h' Hh' (Hat h' Hh')). by rewrite E.
Qed.

Lemma header_bytes_hcrc h : header_bytes h =
  htonl (ih_magic h) ++ htonl (ih_hcrc h) ++ drop 8 (header_bytes h).
Proof. reflexivity. Qed.
