(* ===== verification/Loader.v ===== *)
(** * The loader of boot images: common/loader/loader.c

    [linux_loader] finds an image in memory, checks it and decompresses it to
    where the image says.  The header it copies is a local of the function and
    not in [m].  The board's loader hands the entry point to the code that jumps. *)

From S2P Require Import Prelude Crc32 Kservice LzmaDecode LzmaSafe LzmaRoundtrip LzmaTheorems LzmaWrapper Image.

(** ** Headers of TP-LINK images: common/include/loader/tplink_image.h *)

Definition TPL_IH_VERSION_V1 : Z := 0x01000000.
Definition TPL_IH_VERSION_V2 : Z := 0x02000000.
Definition TPL_IH_VERSION_V3 : Z := 0x03000000.
Definition sizeof_tplink_image_header : Z := 512.

(** The fields the loader reads. *)
Record tplink_image_header := mkTpl { ih_kernel_load : Z; ih_kernel_ep : Z; ih_kernel_len : Z }.
Definition read_tplink (m : bytes_at) (a : Z) : tplink_image_header :=
  mkTpl (word_at m (a + 0x74)) (word_at m (a + 0x78)) (word_at m (a + 0x84)).

Definition tpl_to_uboot_header (tpl_hdr : tplink_image_header) : image_header :=
  mkHeader 0 0 0 (imtohl (ih_kernel_len tpl_hdr)) (imtohl (ih_kernel_load tpl_hdr)) (imtohl (ih_kernel_ep tpl_hdr)) 0
    IH_OS_LINUX IH_CPU_MIPS IH_TYPE_KERNEL IH_COMP_LZMA (replicate (Z.to_nat IH_NMLEN) 0).

(** ** Checksums *)

(** 1 when the checksum is wrong. *)
Definition ih_data_crc (m : bytes_at) (addr : Z) (hdr : image_header) : Z :=
  if crc32 0 (read_bytes m addr (imtohl (ih_size hdr))) =? imtohl (ih_dcrc hdr) then 0 else 1.

(** The result and the header afterwards. *)
Definition ih_header_crc (hdr : image_header) : Z * image_header :=
  let crc_temp := imtohl (ih_hcrc hdr) in
  let hdr := set_hcrc 0 hdr in
  let crc := crc32 0 (header_bytes hdr) in
  let hdr := set_hcrc crc_temp hdr in
  (if crc_temp =? crc then 0 else 1, hdr).

(** ** linux_loader *)

(** How it ends: 1 with what memory is then, or 0 with the header given to
    [board_linux_loader] and the length and memory at that point. *)
Inductive outcome :=
  | Refused (m : bytes_at)
  | Started (hdr : image_header) (unc_len : Z) (m : bytes_at).

(** [for (i = 1; len_ptr[i]; ++i) data += 4]. *)
Fixpoint skip_sizes (fuel : nat) (m : bytes_at) (len_ptr i data : Z) : option Z :=
  match fuel with
  | O => None
  | S fuel =>
      if word_at m (len_ptr + 4 * i) =? 0 then Some data
      else skip_sizes fuel m len_ptr (i + 1) (u32 (data + 4))
  end.

(** Where the compressed data is and how long; [Some None] is another type of
    image. *)
Definition locate (fuel : nat) (m : bytes_at) (hdr : image_header) (data : Z) : option (option (Z * Z)) :=
  if ih_type hdr =? IH_TYPE_KERNEL then Some (Some (data, imtohl (ih_size hdr)))
  else if ih_type hdr =? IH_TYPE_MULTI then
    match skip_sizes fuel m data 1 (u32 (data + 8)) with
    | Some data' => Some (Some (data', imtohl (word_at m data)))
    | None => None
    end
  else Some None.

Section linux_loader.
Variable malloc : allocator.
(** How many sizes are looked at before giving up on the end of the list. *)
Variable fuel : nat.

(** Decompress and go on: from line 127. *)
Definition load (m : bytes_at) (hdr : image_header) (data unc_len unc_len_at : Z) : option outcome :=
  match locate fuel m hdr data with
  | None => None
  | Some None => Some (Refused m)
  | Some (Some (data, len)) =>
      if ih_comp hdr =? IH_COMP_LZMA then
        match lzma_inflate malloc m data len (imtohl (ih_load hdr)) unc_len unc_len_at with
        | Some (i, unc_len, m) =>
            Some (if i =? LZMA_RESULT_OK then Started hdr unc_len m else Refused m)
        | None => None
        end
      else Some (Refused m)
  end.

(** [unc_len_at] is the address of the parameter [unc_len].  [None] is a list of
    sizes longer than the fuel or a source that overlaps the destination. *)
Definition linux_loader (m : bytes_at) (load_addr unc_len unc_len_at : Z) : option outcome :=
  let addr := load_addr in
  let version := imtohl (word_at m addr) in
  if (version =? TPL_IH_VERSION_V1) || (version =? TPL_IH_VERSION_V2) then
    let hdr := tpl_to_uboot_header (read_tplink m addr) in
    load m hdr (u32 (addr + sizeof_tplink_image_header)) unc_len unc_len_at
  else if version =? IH_MAGIC then
    let hdr := read_header m addr in
    let '(bad, hdr) := ih_header_crc hdr in
    if negb (bad =? 0) then Some (Refused m)
    else
      let data := u32 (addr + sizeof_image_header) in
      if negb (ih_data_crc m data hdr =? 0) then Some (Refused m)
      else load m hdr data unc_len unc_len_at
  else Some (Refused m).
End linux_loader.

(** ** Checksums of headers *)

Lemma set_hcrc_bytes c h : header_bytes (set_hcrc c h) = take 4 (header_bytes h) ++ htonl c ++ drop 8 (header_bytes h).
Proof. by destruct h. Qed.

Lemma hcrc_bytes h : htonl (ih_hcrc h) = take 4 (drop 4 (header_bytes h)).
Proof. by destruct h. Qed.

Lemma magic_bytes h : htonl (ih_magic h) = take 4 (header_bytes h).
Proof. by destruct h. Qed.

Lemma htonl_inj w w' : word w -> word w' -> htonl w = htonl w' -> w = w'.
Proof. intros Hw Hw' [= H0 H1 H2 H3]. rewrite <- (htonl_value w), <- (htonl_value w') by done. congruence. Qed.

Lemma set_hcrc_ok c h : word c -> header_ok h -> header_ok (set_hcrc c h).
Proof.
  intros Hc [Hw Hb Hn]. destruct h. constructor; [|done..].
  rewrite !Forall_cons in *. simpl in *. tauto.
Qed.

Lemma set_hcrc_twice c c' h : set_hcrc c (set_hcrc c' h) = set_hcrc c h.
Proof. done. Qed.

Lemma set_hcrc_same h : set_hcrc (ih_hcrc h) h = h.
Proof. by destruct h. Qed.

(** A header whose checksum is the one of its bytes. *)
Definition sealed (h : image_header) : Prop := ih_hcrc h = crc32 0 (header_bytes (set_hcrc 0 h)).

Lemma ih_header_crc_spec h : ih_header_crc h = (if decide (sealed h) then 0 else 1, h).
Proof.
  unfold ih_header_crc, sealed, imtohl. rewrite set_hcrc_twice, set_hcrc_same. f_equal.
  case_decide as H; [by rewrite (proj2 (Z.eqb_eq _ _) H)|by rewrite (proj2 (Z.eqb_neq _ _) H)].
Qed.

(** Past the magic number no byte of a sealed header can be changed. *)
Lemma sealed_breaks h h' i b : header_ok h -> header_ok h' -> sealed h ->
  (4 <= i < 64)%nat -> byte b -> header_bytes h !! i <> Some b ->
  header_bytes h' = <[i := b]> (header_bytes h) -> ~ sealed h'.
Proof.
  intros Hh Hh' Hs Hi Hb Hne E Hs'. unfold sealed in *.
  assert (Hlen : length (header_bytes h) = 64%nat) by apply length_header_bytes, ho_name, Hh.
  assert (Hw0 : word 0) by (unfold word; lia).
  assert (Hcw : forall k, header_ok k -> word (ih_hcrc k)).
  { intros k [Hw _ _]. rewrite !Forall_cons in Hw. tauto. }
  destruct (decide (i < 8)%nat) as [Hi8|Hi8].
  - assert (E0 : header_bytes (set_hcrc 0 h') = header_bytes (set_hcrc 0 h)).
    { by rewrite !set_hcrc_bytes, E, take_insert_ge, drop_insert_lt by lia. }
    rewrite E0, <- Hs in Hs'. apply Hne.
    assert (E1 : <[i := b]> (header_bytes h) = header_bytes h).
    { rewrite <- E, <- (set_hcrc_same h'), <- (set_hcrc_same h), Hs', !set_hcrc_bytes, E.
      by rewrite take_insert_ge, drop_insert_lt by lia. }
    rewrite <- E1. apply list_lookup_insert_eq. lia.
  - assert (E0 : header_bytes (set_hcrc 0 h') = <[i := b]> (header_bytes (set_hcrc 0 h))).
    { rewrite !set_hcrc_bytes, E, take_insert_ge, drop_insert_ge by lia. rewrite !app_assoc.
      rewrite insert_app_r_alt by (rewrite length_app, length_take; simpl; lia).
      rewrite length_app, length_take, Hlen. done. }
    apply (crc32_changes 0 (header_bytes (set_hcrc 0 h)) i b); [done|..|done| |].
    + by apply header_bytes_bytes, set_hcrc_ok.
    + rewrite length_header_bytes; [lia|]. by apply ho_name, set_hcrc_ok.
    + rewrite set_hcrc_bytes, lookup_app_r, length_take, Hlen by (rewrite length_take; lia).
      rewrite lookup_app_r by (simpl; lia). rewrite lookup_drop. simpl length.
      replace (8 + _)%nat with i by lia. done.
    + rewrite <- E0, <- Hs, <- Hs'. apply htonl_inj; [by apply Hcw..|].
      by rewrite !hcrc_bytes, E, drop_insert_ge, take_insert_ge by lia.
Qed.
