(* ===== verification/BootParams.v ===== *)
(** * What the kernel is handed: arch/mips/loader/loader.c

    The command line is split into an array of arguments, the environment is an
    array of settings, both in the memory kept for the kernel's parameters.
    Positions in the command line are offsets; memory is written a string or a
    word at a time, words in the target's big-endian order. *)

From stdpp Require Import strings.
From S2P Require Import Prelude Kservice Format LzmaWrapper Image Loader.

Definition LINUX_MAX_ENVS : Z := 512.
Definition LINUX_MAX_ARGS : Z := 512.

(** The static variables of the file, but [Kernel], and memory. *)
Record linux_params := mkParams {
  linux_argc : Z; linux_argv : Z; linux_env : Z; linux_env_p : Z; linux_env_idx : Z; memory : bytes_at
}.

(** [*(char ** )a = p]. *)
Definition put_word (m : bytes_at) (a p : Z) : bytes_at := write_bytes m a (htonl p).

(** [rt_strchr(s + p, c)] as an offset into [s]. *)
Definition strchr_at (s : list Z) (p c : Z) : option (option Z) :=
  match rt_strchr (drop (Z.to_nat p) s) c with
  | Some (Some i) => Some (Some (p + i))
  | r => r
  end.

(** [while (next != RT_NULL && quote != RT_NULL && quote < next)]. *)
Fixpoint quotes_loop (fuel : nat) (s : list Z) (next quote : option Z) : option (option Z) :=
  match fuel with
  | O => None
  | S fuel =>
      match next, quote with
      | Some n, Some q =>
          if q <? n then
            match strchr_at s (q + 1) 34 with
            | Some (Some n) =>
                match strchr_at s (n + 1) 34, strchr_at s (n + 1) 32 with
                | Some quote, Some next => quotes_loop fuel s next quote
                | _, _ => None
                end
            | r => r
            end
          else Some next
      | _, _ => Some next
      end
  end.

(** The end of the argument that starts at [cmdline]. *)
Definition arg_end (s : list Z) (cmdline : Z) : option Z :=
  match strchr_at s cmdline 34, strchr_at s cmdline 32 with
  | Some quote, Some next =>
      match quotes_loop (S (length s)) s next quote with
      | Some (Some next) => Some next
      | Some None =>
          match rt_strlen (drop (Z.to_nat cmdline) s) with Some n => Some (cmdline + n) | None => None end
      | None => None
      end
  | _, _ => None
  end.

(** [while (cmdline && *cmdline && linux_argc < LINUX_MAX_ARGS)]: the count, the
    place for the next string and memory.  Each turn moves on in the line. *)
Fixpoint args_loop (fuel : nat) (s : list Z) (cmdline argc argv argp : Z) (m : bytes_at) : option (Z * Z * bytes_at) :=
  match fuel with
  | O => None
  | S fuel =>
      if negb (nth (Z.to_nat cmdline) s 0 =? 0) && (argc <? LINUX_MAX_ARGS) then
        match arg_end s cmdline with
        | None => None
        | Some next =>
            let m := put_word m (argv + 4 * argc) argp in
            let m := write_bytes m argp (take (Z.to_nat (next - cmdline)) (drop (Z.to_nat cmdline) s)) in
            let m := write_bytes m (argp + (next - cmdline)) [0] in
            let argp := argp + (next - cmdline) + 1 in
            let next := if negb (nth (Z.to_nat next) s 0 =? 0) then next + 1 else next in
            args_loop fuel s next (argc + 1) argv argp m
        end
      else Some (argc, argp, m)
  end.

(** "mem=" and "mem=%luM" *)
Definition mem_prefix : list Z := [109; 101; 109; 61].
Definition mem_fmt : list Z := mem_prefix ++ [37; 108; 117; 77; 0].
Definition memsize_fmt : list Z := [37; 108; 117; 0].

(** The text rt_sprintf writes, without the zero. *)
Definition sprintf_text (fmt : list Z) (n : Z) : option (list Z) := format_text (length fmt) fmt [VInt n].

(** [cmdline] is the memory from the pointer on. *)
Definition linux_params_init (memsize start : Z) (cmdline : list Z) (m : bytes_at) : option linux_params :=
  let linux_argv := start in
  let m := put_word m linux_argv 0 in
  let argp := linux_argv + 4 * LINUX_MAX_ARGS in
  match rt_strstr cmdline (mem_prefix ++ [0]) with
  | None => None
  | Some found =>
      match args_loop (S (length cmdline)) cmdline 0 1 linux_argv argp m with
      | None => None
      | Some (argc, argp, m) =>
          let add_mem :=
            match found with
            | Some _ => Some (argc, argp, m)
            | None =>
                match sprintf_text mem_fmt (Z.shiftr memsize 20) with
                | None => None
                | Some memstr =>
                    let m := write_bytes m argp (memstr ++ [0]) in
                    let m := put_word m (linux_argv + 4 * argc) argp in
                    Some (argc + 1, argp + Z.of_nat (length memstr) + 1, m)
                end
            end in
          match add_mem with
          | None => None
          | Some (argc, argp, m) =>
              let linux_env := Z.land (u32 (argp + 15)) (wnot 32 15) in
              let m := put_word m linux_env 0 in
              Some (mkParams argc linux_argv linux_env (linux_env + 4 * LINUX_MAX_ENVS) 0 m)
          end
      end
  end.

(** The name and the value are strings without their zero. *)
Definition linux_env_set (env_name env_val : list Z) (p : linux_params) : linux_params :=
  if linux_env_idx p <? LINUX_MAX_ENVS - 1 then
    let m := put_word (memory p) (linux_env p + 4 * linux_env_idx p) (linux_env_p p) in
    let env_p := linux_env_p p in
    let m := write_bytes m env_p (env_name ++ [0]) in
    let env_p := env_p + Z.of_nat (length env_name) in
    let m := write_bytes m env_p ([61] ++ [0]) in
    let env_p := env_p + 1 in
    let m := write_bytes m env_p (env_val ++ [0]) in
    let env_p := env_p + Z.of_nat (length env_val) in
    let env_p := env_p + 1 in
    let idx := linux_env_idx p + 1 in
    let m := put_word m (linux_env p + 4 * idx) 0 in
    mkParams (linux_argc p) (linux_argv p) (linux_env p) env_p idx m
  else p.

(** "memsize" *)
Definition memsize_name : list Z := [109; 101; 109; 115; 105; 122; 101].

(** The variables afterwards and the address in [Kernel]. *)
Definition arch_linux_loader (memsize boot_param_pointer : Z) (hdr : image_header) (cmdline : list Z) (m : bytes_at) :
    option (linux_params * Z) :=
  match linux_params_init memsize boot_param_pointer cmdline m, sprintf_text memsize_fmt (Z.shiftr memsize 20) with
  | Some p, Some buf => Some (linux_env_set memsize_name buf p, imtohl (ih_ep hdr))
  | _, _ => None
  end.

(** What [Kernel] is called with. *)
Definition arch_linux_jump (p : linux_params) (linux_extra : Z) : Z * Z * Z * Z :=
  (linux_argc p, linux_argv p, linux_env p, linux_extra).

(** ** The board: board/tl-wr810n_v2/loader/loader.c *)

Definition CFG_BOOTM_LEN : Z := Z.shiftl 16 20.
Definition CFG_LOAD_ADDR : Z := 0x9F020000.

(** Bytes of an ASCII string. *)
Definition chars (s : string) : list Z := (fun c => Z.of_nat (Ascii.nat_of_ascii c)) <$> String.list_ascii_of_string s.

Definition board_cmdline : list Z :=
  chars
  "console=ttyS0,115200 root=31:02 rootfstype=squashfs init=/sbin/init mtdparts=ath-nor0:128k(u-boot),1024k(kernel),2816k(rootfs),64k(config),64k(art)" ++ [0].

(** How [board_autoboot_linux] ends: back in the shell, or in the kernel at an
    address with its arguments. *)
Inductive booted := Shell (m : bytes_at) | Kernel (entry : Z) (args : Z * Z * Z * Z) (m : bytes_at).

Definition board_linux_loader (memsize boot_param_pointer : Z) (hdr : image_header) (m : bytes_at) :
    option (linux_params * Z) :=
  arch_linux_loader memsize boot_param_pointer hdr board_cmdline m.

Definition board_autoboot_linux (malloc : allocator) (fuel : nat) (memsize boot_param_pointer unc_len_at : Z) (m : bytes_at) :
    option booted :=
  match linux_loader malloc fuel m CFG_LOAD_ADDR CFG_BOOTM_LEN unc_len_at with
  | None => None
  | Some (Refused m) => Some (Shell m)
  | Some (Started hdr _ m) =>
      match board_linux_loader memsize boot_param_pointer hdr m with
      | None => None
      | Some (p, entry) => Some (Kernel entry (arch_linux_jump p 0) (memory p))
      end
  end.
