(* ===== verification/ParamsTheorems.v ===== *)
(** * The parameters of the kernel: what arch/mips/loader/loader.c builds

    The reference splits a line at the blanks outside double quotes, one
    character at a time. *)

From S2P Require Import Prelude Kservice Format LzmaWrapper Image Loader BootParams.

(** ** The reference *)

Fixpoint words (quoted : bool) (l : list Z) : list (list Z) :=
  match l with
  | [] => []
  | c :: l =>
      if (c =? 32) && negb quoted then [] :: words false l
      else
        match words (xorb quoted (c =? 34)) l with
        | [] => [[c]]
        | w :: ws => (c :: w) :: ws
        end
  end.

(** ** Searching for a character *)

Fixpoint index (c : Z) (l : list Z) : option nat :=
  match l with
  | [] => None
  | x :: l => if x =? c then Some 0%nat else S <$> index c l
  end.

(** The first blank outside quotes. *)
Fixpoint blank_from (quoted : bool) (l : list Z) : option nat :=
  match l with
  | [] => None
  | c :: l => if (c =? 32) && negb quoted then Some 0%nat else S <$> blank_from (xorb quoted (c =? 34)) l
  end.

Lemma index_lt c l i : index c l = Some i -> (i < length l)%nat.
Proof.
  revert i. induction l as [|x l IH]; intros i; [done|]. simpl. destruct (x =? c); [intros [= <-]; lia|].
  destruct (index c l) as [j|]; [|done]. intros [= <-]. specialize (IH j eq_refl). lia.
Qed.

Lemma strchr_loop_spec c line m pos : cstr line m -> c <> 0 ->
  strchr_loop m c pos = Some ((fun i => pos + Z.of_nat i) <$> index c line).
Proof.
  intros Hs Hc. revert m pos Hs. induction line as [|x line IH]; intros m pos Hs.
  - destruct Hs as [_ [rest ->]]. cbn [strchr_loop app index]. by rewrite Z.eqb_refl, (proj2 (Z.eqb_neq 0 c)) by done.
  - apply cstr_cons in Hs as (Hx & m' & -> & Hs). simpl. rewrite (proj2 (Z.eqb_neq x 0)) by done.
    destruct (x =? c); simpl; [do 2 f_equal; lia|]. rewrite (IH m' (pos + 1)) by done.
    destruct (index c line); [|done]. simpl. do 2 f_equal. lia.
Qed.

Lemma strchr_at_spec c line s p : cstr line s -> byte c -> c <> 0 -> (p <= length line)%nat ->
  strchr_at s (Z.of_nat p) c = Some ((fun i => Z.of_nat (p + i)) <$> index c (drop p line)).
Proof.
  intros Hs Hb Hc Hp. unfold strchr_at, rt_strchr. rewrite Nat2Z.id, (wrap_small 8) by (unfold byte in Hb; lia).
  rewrite (strchr_loop_spec c (drop p line)) by (by try apply cstr_drop).
  destruct (index c _); [|done]. simpl. do 2 f_equal. lia.
Qed.

(** ** Quotes *)

Lemma blank_from_none q l : index 32 l = None -> blank_from q l = None.
Proof.
  revert q. induction l as [|c l IH]; intros q; [done|]. simpl. destruct (c =? 32); [done|]. simpl.
  destruct (index 32 l); [done|]. intros _. by rewrite IH.
Qed.

Lemma blank_from_plain l n : index 32 l = Some n -> (forall k, index 34 l = Some k -> (n < k)%nat) ->
  blank_from false l = Some n.
Proof.
  revert n. induction l as [|c l IH]; intros n; [done|]. simpl. destruct (c =? 32) eqn:E; [done|]. simpl.
  destruct (index 32 l) as [j|]; [|done]. intros [= <-] Hk. destruct (c =? 34).
  { specialize (Hk _ eq_refl). lia. }
  simpl. rewrite (IH j); [done|done|]. intros k Ek. rewrite Ek in Hk. specialize (Hk _ eq_refl). lia.
Qed.

Lemma blank_from_open l k n : index 34 l = Some k -> index 32 l = Some n -> (k < n)%nat ->
  blank_from false l = (fun i => (S k + i)%nat) <$> blank_from true (drop (S k) l).
Proof.
  revert k n. induction l as [|c l IH]; intros k n; [done|]. simpl. destruct (c =? 34) eqn:E34.
  { intros [= <-]. zify_bool. subst c. simpl. rewrite drop_0. done. }
  destruct (index 34 l) as [j|]; [|done]. intros [= <-]. destruct (c =? 32); [intros [= <-]; lia|].
  destruct (index 32 l) as [j'|]; [|done]. intros [= <-] Hlt. simpl.
  rewrite (IH j j') by (done || lia). simpl. by destruct (blank_from true _).
Qed.

Lemma blank_from_close l : blank_from true l =
  match index 34 l with None => None | Some j => (fun i => (S j + i)%nat) <$> blank_from false (drop (S j) l) end.
Proof.
  induction l as [|c l IH]; [done|]. simpl. rewrite andb_false_r. destruct (c =? 34).
  { simpl. by rewrite drop_0. }
  simpl. rewrite IH. destruct (index 34 l) as [j|]; [|done]. simpl. by destruct (blank_from false _).
Qed.

(** The loop over quotes finds the blank that ends the argument: [p] is outside
    quotes and the two pointers are the first blank and quote from it. *)
Lemma quotes_loop_spec line s fuel p : cstr line s -> (p <= length line)%nat -> (length line - p < fuel)%nat ->
  quotes_loop fuel s ((fun i => Z.of_nat (p + i)) <$> index 32 (drop p line)) ((fun i => Z.of_nat (p + i)) <$> index 34 (drop p line)) =
    Some ((fun i => Z.of_nat (p + i)) <$> blank_from false (drop p line)).
Proof.
  intros Hs. revert p. induction fuel as [|fuel IH]; intros p Hp Hf; [lia|]. cbn [quotes_loop].
  assert (H34 : byte 34) by (unfold byte; lia). assert (H32 : byte 32) by (unfold byte; lia).
  destruct (index 32 (drop p line)) as [n|] eqn:En; cbn [fmap option_fmap option_map].
  2:{ by rewrite blank_from_none. }
  destruct (index 34 (drop p line)) as [k|] eqn:Ek; cbn [fmap option_fmap option_map].
  2:{ rewrite (blank_from_plain _ n) by (done || congruence). done. }
  destruct (Z.ltb_spec (Z.of_nat (p + k)) (Z.of_nat (p + n))) as [Hlt|Hge].
  2:{ rewrite (blank_from_plain _ n); [done|done|]. intros k' E. assert (k' = k) as -> by congruence.
      assert (k <> n); [|lia]. intros ->.
      clear -En Ek. revert n En Ek. induction (drop p line) as [|c l IHl]; intros n; [done|]. simpl.
      destruct (Z.eqb_spec c 32) as [->|]; [simpl; intros [= <-]; by destruct (index 34 l)|].
      destruct (index 32 l) as [a|]; [|done]. intros [= <-]. destruct (c =? 34); [done|].
      destruct (index 34 l) as [b|]; [|done]. simpl. intros [= <-]. by eapply IHl. }
  apply index_lt in Ek as Hk. rewrite length_drop in Hk.
  replace (Z.of_nat (p + k) + 1) with (Z.of_nat (p + S k)) by lia.
  rewrite (strchr_at_spec 34 line) by (done || lia).
  rewrite (blank_from_open _ k n) by (done || lia). rewrite blank_from_close, drop_drop.
  replace (p + S k)%nat with (S k + p)%nat by lia. destruct (index 34 (drop (S k + p) line)) as [j|] eqn:Ej; [|done].
  cbn [fmap option_fmap option_map]. apply index_lt in Ej as Hj. rewrite length_drop in Hj.
  replace (Z.of_nat (S k + p + j) + 1) with (Z.of_nat (S k + p + S j)) by lia.
  rewrite !(strchr_at_spec _ line) by (done || lia). rewrite IH by lia. rewrite drop_drop.
  destruct (blank_from false _); [|done]. simpl. do 2 f_equal. lia.
Qed.

(** ** One argument *)

Lemma words_cut q l : words q l =
  match blank_from q l with
  | Some n => take n l :: words false (drop (S n) l)
  | None => match l with [] => [] | _ => [l] end
  end.
Proof.
  revert q. induction l as [|c l IH]; intros q; [done|]. simpl. destruct ((c =? 32) && negb q); [done|].
  rewrite IH. destruct (blank_from _ l); [done|]. simpl. by destruct l.
Qed.

Lemma blank_from_lt q l n : blank_from q l = Some n -> (n < length l)%nat.
Proof.
  revert q n. induction l as [|c l IH]; intros q n; [done|]. simpl. destruct (_ && _); [intros [= <-]; lia|].
  destruct (blank_from _ l) as [j|] eqn:E; [|done]. intros [= <-]. apply IH in E. lia.
Qed.

(** The length of the argument that starts a line. *)
Definition arg_length (l : list Z) : nat := default (length l) (blank_from false l).

Lemma arg_length_le l : (arg_length l <= length l)%nat.
Proof. unfold arg_length. destruct (blank_from false l) eqn:E; simpl; [|done]. apply blank_from_lt in E. lia. Qed.

Lemma words_next l : l <> [] -> words false l = take (arg_length l) l :: words false (drop (S (arg_length l)) l).
Proof.
  intros Hne. rewrite words_cut. unfold arg_length. destruct (blank_from false l); [done|]. simpl.
  rewrite take_ge, drop_ge by lia. by destruct l.
Qed.

Lemma cstr_suffix line s p : cstr line s -> (p <= length line)%nat -> cstr (drop p line) (drop p s).
Proof. apply cstr_drop. Qed.

Lemma cstr_nth line s p : cstr line s -> (p <= length line)%nat -> (nth p s 0 =? 0) = (length line <=? p)%nat.
Proof.
  intros [Hz [rest ->]] Hp. destruct (Nat.leb_spec (length line) p) as [Hge|Hlt].
  - replace p with (length line) by lia. by rewrite nth_middle.
  - rewrite app_nth1 by done. destruct (lookup_lt_is_Some_2 line p Hlt) as [x Ex].
    rewrite (nth_lookup_Some _ _ _ _ Ex). apply Z.eqb_neq. rewrite Forall_forall in Hz. by apply Hz, list_elem_of_lookup_2 with p.
Qed.

Lemma arg_end_spec line s p : cstr line s -> (p <= length line)%nat ->
  arg_end s (Z.of_nat p) = Some (Z.of_nat (p + arg_length (drop p line))).
Proof.
  intros Hs Hp. unfold arg_end. rewrite !(strchr_at_spec _ line) by (done || (unfold byte; lia)).
  assert (length line < length s)%nat by (destruct Hs as [_ [rest ->]]; rewrite length_app; simpl; lia).
  rewrite (quotes_loop_spec line) by (done || lia). unfold arg_length.
  destruct (blank_from false (drop p line)); [done|]. cbn [fmap option_fmap option_map default].
  rewrite Nat2Z.id, (rt_strlen_spec (drop p line)) by (by apply cstr_suffix). f_equal. simpl. lia.
Qed.

(** ** Memory that grows *)

Lemma holds_write m a l : holds (write_bytes m a l) a l.
Proof. apply read_write. Qed.

Lemma holds_apart m a l b k : apart a (Z.of_nat (length l)) b (Z.of_nat (length k)) = true -> holds m a l ->
  holds (write_bytes m b k) a l.
Proof. unfold holds. intros Ha H. by rewrite read_write_other by (done || lia). Qed.

Lemma holds_extend m a l k : holds m a l -> holds (write_bytes m (a + Z.of_nat (length l)) k) a (l ++ k).
Proof.
  intros H. apply holds_app. split; [|apply holds_write]. apply holds_apart; [|done].
  unfold apart. apply orb_true_iff. left. apply Z.leb_le. lia.
Qed.

Lemma apart_before a n b k : a + n <= b -> apart a n b k = true.
Proof. intros. unfold apart. apply orb_true_iff. left. by apply Z.leb_le. Qed.

Lemma apart_after a n b k : b + k <= a -> apart a n b k = true.
Proof. intros. unfold apart. apply orb_true_iff. right. by apply Z.leb_le. Qed.

(** ** The arrays *)

Definition texts (l : list (list Z)) : list Z := concat ((fun a => a ++ [0]) <$> l).
Definition pointers (l : list Z) : list Z := concat (htonl <$> l).

(** Where the texts start, placed one after the other from [p]. *)
Fixpoint places (p : Z) (l : list (list Z)) : list Z :=
  match l with
  | [] => []
  | a :: l => p :: places (p + Z.of_nat (length a) + 1) l
  end.

Lemma texts_snoc l a : texts (l ++ [a]) = texts l ++ a ++ [0].
Proof. unfold texts. rewrite fmap_app, concat_app. simpl. by rewrite app_nil_r. Qed.

Lemma pointers_snoc l w : pointers (l ++ [w]) = pointers l ++ htonl w.
Proof. unfold pointers. rewrite fmap_app, concat_app. simpl. done. Qed.

Lemma length_pointers l : Z.of_nat (length (pointers l)) = 4 * Z.of_nat (length l).
Proof. induction l as [|w l IH]; [done|]. unfold pointers in *. cbn [fmap list_fmap concat]. rewrite length_app. simpl length. lia. Qed.

Lemma length_texts_cons a l : length (texts (a :: l)) = (S (length a) + length (texts l))%nat.
Proof. unfold texts. cbn [fmap list_fmap concat]. rewrite !length_app. simpl. lia. Qed.

Lemma length_places p l : length (places p l) = length l.
Proof. revert p. induction l as [|a l IH]; intros p; simpl; [done|]. by rewrite IH. Qed.

Lemma places_snoc p l a : places p (l ++ [a]) = places p l ++ [p + Z.of_nat (length (texts l))].
Proof.
  revert p. induction l as [|b l IH]; intros p.
  { simpl. f_equal. lia. }
  cbn [places app]. rewrite IH, length_texts_cons. do 3 f_equal. lia.
Qed.

Lemma pointers_word m a l i w : holds m a (pointers l) -> l !! i = Some w -> word w ->
  word_at m (a + 4 * Z.of_nat i) = w.
Proof.
  intros H Hi Hw. revert a i H Hi. induction l as [|v l IH]; intros a i H Hi; [done|].
  apply (holds_app m a (htonl v) (pointers l)) in H as [Hv H]. destruct i as [|i]; simpl in Hi.
  - injection Hi as ->. rewrite Z.add_0_r. by apply word_at_holds.
  - specialize (IH _ i H Hi). change (Z.of_nat (length (htonl v))) with 4 in IH.
    replace (a + 4 * Z.of_nat (S i)) with (a + 4 + 4 * Z.of_nat i) by lia. done.
Qed.

Lemma texts_place m p l i a : holds m p (texts l) -> l !! i = Some a ->
  exists q, places p l !! i = Some q /\ holds m q (a ++ [0]) /\ p <= q < p + Z.of_nat (length (texts l)).
Proof.
  revert p i. induction l as [|b l IH]; intros p i H Hi; [done|].
  apply (holds_app m p (b ++ [0]) (texts l)) in H as [Hb H]. rewrite length_app in H. simpl in H.
  rewrite length_texts_cons. destruct i as [|i]; simpl in Hi.
  - injection Hi as ->. exists p. split_and!; [done|done|lia..].
  - destruct (IH (p + Z.of_nat (length b) + 1) i) as (q & Hq & Ha & Hb'); [|done|].
    + replace (p + Z.of_nat (length b) + 1) with (p + Z.of_nat (length b + 1)) by lia. done.
    + exists q. split_and!; [done|done|lia..].
Qed.

(** The array at [argv] and the texts behind its 512 entries. *)
Definition stored (m : bytes_at) (argv : Z) (l : list (list Z)) : Prop :=
  holds m argv (pointers (0 :: places (argv + 2048) l)) /\ holds m (argv + 2048) (texts l).

(** A further text, then a pointer to it, or the other way round. *)
Lemma stored_snoc m argv l a : stored m argv l -> (length l < 511)%nat ->
  let argc := Z.of_nat (S (length l)) in
  let argp := argv + 2048 + Z.of_nat (length (texts l)) in
  stored (write_bytes (write_bytes (put_word m (argv + 4 * argc) argp) argp a) (argp + Z.of_nat (length a)) [0]) argv (l ++ [a]) /\
  stored (put_word (write_bytes m argp (a ++ [0])) (argv + 4 * argc) argp) argv (l ++ [a]).
Proof.
  intros [Hp Ht] Hl argc argp. unfold stored. rewrite texts_snoc, places_snoc, app_comm_cons, pointers_snoc.
  fold argp. set (ps := pointers (0 :: places (argv + 2048) l)) in *.
  assert (Hn : Z.of_nat (length ps) = 4 * argc).
  { unfold ps. rewrite length_pointers. cbn [length]. by rewrite length_places. }
  assert (Hargc : argc < 512) by (unfold argc; lia). assert (Hargp : argv + 2048 <= argp) by (unfold argp; lia). assert (H4 : length (htonl argp) = 4%nat) by done.
  assert (Hlen : forall w, length (ps ++ htonl w) = (length ps + 4)%nat) by (intros; by rewrite length_app).
  unfold put_word. rewrite <- Hn. split; split.
  - apply holds_apart; [apply apart_before; rewrite Hlen; lia|]. apply holds_apart; [apply apart_before; rewrite Hlen; lia|].
    by apply holds_extend.
  - rewrite app_assoc. replace (argp + Z.of_nat (length a)) with (argv + 2048 + Z.of_nat (length (texts l ++ a))).
    2:{ unfold argp. rewrite length_app. lia. }
    apply holds_extend. apply holds_extend, holds_apart; [|done]. apply apart_after. rewrite H4. lia.
  - apply holds_extend, holds_apart; [|done]. apply apart_before. lia.
  - apply holds_apart; [apply apart_after; rewrite H4; lia|]. by apply holds_extend.
Qed.

(** ** The loop over arguments *)

Lemma args_loop_spec line s argv fuel : cstr line s -> forall p m l, (p <= length line)%nat ->
  (length line - p < fuel)%nat -> stored m argv l -> (length l <= 511)%nat ->
  let all := l ++ take (511 - length l) (words false (drop p line)) in
  exists m', args_loop fuel s (Z.of_nat p) (Z.of_nat (S (length l))) argv (argv + 2048 + Z.of_nat (length (texts l))) m =
      Some (Z.of_nat (S (length all)), argv + 2048 + Z.of_nat (length (texts all)), m') /\ stored m' argv all.
Proof.
  intros Hs. induction fuel as [|fuel IH]; intros p m l Hp Hf Hst Hl all; [lia|]. cbn [args_loop].
  rewrite Nat2Z.id, (cstr_nth line) by done. change LINUX_MAX_ARGS with 512.
  assert (Hstop : all = l -> exists m', Some (Z.of_nat (S (length l)), argv + 2048 + Z.of_nat (length (texts l)), m) =
    Some (Z.of_nat (S (length all)), argv + 2048 + Z.of_nat (length (texts all)), m') /\ stored m' argv all).
  { intros ->. by exists m. }
  destruct (Nat.leb_spec (length line) p) as [Hge|Hlt].
  { apply Hstop. unfold all. rewrite (drop_ge line) by done. cbn [words]. by rewrite take_nil, app_nil_r. }
  destruct (Z.ltb_spec (Z.of_nat (S (length l))) 512) as [Hlt'|Hge']; cbn [negb andb].
  2:{ apply Hstop. unfold all. replace (511 - length l)%nat with 0%nat by lia. by rewrite take_0, app_nil_r. }
  rewrite (arg_end_spec line) by done. set (rest := drop p line). set (n := arg_length rest).
  assert (Hn : (n <= length line - p)%nat) by (unfold n, rest; rewrite <- length_drop; apply arg_length_le).
  replace (Z.of_nat (p + n) - Z.of_nat p) with (Z.of_nat n) by lia. rewrite !Nat2Z.id.
  assert (Harg : take n (drop p s) = take n rest).
  { destruct Hs as [_ [more ->]]. rewrite drop_app_le by lia. rewrite take_app_le; [done|]. rewrite length_drop. lia. }
  rewrite Harg, (cstr_nth line) by (done || lia).
  assert (Hlen : length (take n rest) = n) by (rewrite length_take; unfold rest; rewrite length_drop; lia).
  pose proof (stored_snoc m argv l (take n rest) Hst ltac:(lia)) as [Hst' _]. rewrite Hlen in Hst'.
  assert (Hall : all = (l ++ [take n rest]) ++ take (511 - length (l ++ [take n rest])) (words false (drop (S n) rest))).
  { unfold all. fold rest. rewrite (words_next rest); fold n.
    2:{ intros E. apply (f_equal length) in E. unfold rest in E. rewrite length_drop in E. simpl in E. lia. }
    rewrite length_app. replace (511 - length l)%nat with (S (511 - (length l + 1)))%nat by lia.
    by rewrite <- app_assoc. }
  assert (Hnext : exists p', (if negb (length line <=? p + n)%nat then Z.of_nat (p + n) + 1 else Z.of_nat (p + n)) = Z.of_nat p' /\
    (p' <= length line)%nat /\ (p < p')%nat /\ drop p' line = drop (S n) rest).
  { unfold rest. rewrite drop_drop. destruct (Nat.leb_spec (length line) (p + n)) as [Hend|Hmore]; simpl.
    - exists (p + n)%nat. split_and!; [done|lia|lia|]. by rewrite !drop_ge by lia.
    - exists (S (p + n)). split_and!; [lia|lia|lia|]. f_equal. lia. }
  destruct Hnext as (p' & -> & Hp' & Hpp & Hdrop).
  destruct (IH p' _ (l ++ [take n rest]) Hp' ltac:(lia) Hst') as (m' & E & Hm'); [rewrite length_app; simpl; lia|].
  rewrite Hdrop, <- Hall in E, Hm'. exists m'. split; [|done]. rewrite <- E.
  rewrite texts_snoc, !length_app, Hlen. simpl length. f_equal; lia.
Qed.

(** ** The size of memory in decimal *)

Definition decimal (t : list Z) (n : Z) : Prop :=
  t <> [] /\ Forall (fun c => 48 <= c <= 57) t /\ foldl (fun v c => v * 10 + (c - 48)) 0 t = n.

Lemma sprintf_memsize n : 0 <= n < 4096 -> exists t, decimal t n /\ (length t <= 4)%nat /\
  sprintf_text mem_fmt n = Some (mem_prefix ++ t ++ [77]) /\ sprintf_text memsize_fmt n = Some t.
Proof.
  intros Hn. assert (forallb (fun n => match sprintf_text mem_fmt n, sprintf_text memsize_fmt n with
    | Some l, Some t => bool_decide (l = mem_prefix ++ t ++ [77]) && bool_decide (t <> []) &&
        forallb (fun c => (48 <=? c) && (c <=? 57)) t && (foldl (fun v c => v * 10 + (c - 48)) 0 t =? n) &&
        (length t <=? 4)%nat
    | _, _ => false end) (seqZ 0 4096) = true) as H by (vm_compute; reflexivity).
  rewrite forallb_forall in H. specialize (H n). rewrite <- list_elem_of_In, elem_of_seqZ in H. specialize (H ltac:(lia)).
  destruct (sprintf_text mem_fmt n) as [l|]; [|done]. destruct (sprintf_text memsize_fmt n) as [t|]; [|done].
  zify_bool. exists t. rewrite !bool_decide_eq_true in *. subst l. apply Nat.leb_le in H0. split_and!; try done.
  unfold decimal. split_and!; try done. apply Forall_forall. intros c Hc. rewrite forallb_forall in *.
  rewrite list_elem_of_In in Hc. apply H2 in Hc. zify_bool. lia.
Qed.

(** ** The environment behind the arguments *)

Lemma length_texts_words q l : (length (texts (words q l)) <= S (length l))%nat.
Proof.
  revert q. induction l as [|c l IH]; intros q; [simpl; lia|]. cbn [words]. destruct (_ && _).
  - rewrite length_texts_cons. specialize (IH false). simpl. lia.
  - specialize (IH (xorb q (c =? 34))). destruct (words _ l) as [|w ws]; [simpl in *; lia|].
    rewrite length_texts_cons in *. simpl in *. lia.
Qed.

Lemma length_texts_take k l : (length (texts (take k l)) <= length (texts l))%nat.
Proof.
  revert k. induction l as [|a l IH]; intros k; [by rewrite take_nil|]. destruct k as [|k]; [simpl; lia|].
  cbn [take]. rewrite !length_texts_cons. specialize (IH k). lia.
Qed.

Lemma stored_write m argv l b k : stored m argv l -> (length l <= 511)%nat ->
  argv + 2048 + Z.of_nat (length (texts l)) <= b -> stored (write_bytes m b k) argv l.
Proof.
  intros [Hp Ht] Hl Hb. split; apply holds_apart; try done; apply apart_before; [|lia].
  rewrite length_pointers. cbn [length]. rewrite length_places. lia.
Qed.

Lemma holds_prefix m a l k : holds m a (l ++ k) -> holds m a l.
Proof. by intros [? _]%holds_app. Qed.

Lemma env_align argp : 0 <= argp -> argp + 15 < 2 ^ 32 ->
  Z.land (u32 (argp + 15)) (wnot 32 15) = (argp + 15) / 16 * 16.
Proof. intros. rewrite (wrap_small 32) by lia. apply (land_high_mask (argp + 15) 4 32); lia. Qed.

(** One setting in an environment that is empty. *)
Lemma linux_env_set_first name value p :
  linux_env_idx p = 0 -> linux_env_p p = linux_env p + 2048 -> 0 <= linux_env p -> linux_env p + 2048 < 2 ^ 32 ->
  let p' := linux_env_set name value p in
  linux_argc p' = linux_argc p /\ linux_argv p' = linux_argv p /\ linux_env p' = linux_env p /\
  word_at (memory p') (linux_env p) = linux_env p + 2048 /\ word_at (memory p') (linux_env p + 4) = 0 /\
  holds (memory p') (linux_env p + 2048) (name ++ [61] ++ value ++ [0]) /\
  (forall a l, a + Z.of_nat (length l) <= linux_env p -> holds (memory p) a l -> holds (memory p') a l).
Proof.
  intros Hidx Hp Hlo Hhi. unfold linux_env_set. rewrite Hidx, Hp. change (0 <? LINUX_MAX_ENVS - 1) with true.
  cbv zeta. cbn [linux_argc linux_argv linux_env memory]. unfold put_word.
  set (env := linux_env p) in *. change (4 * (0 + 1)) with 4. rewrite Z.mul_0_r, Z.add_0_r.
  set (n := Z.of_nat (length name)). set (m1 := write_bytes (memory p) env (htonl (env + 2048))).
  set (m4 := write_bytes (write_bytes (write_bytes m1 (env + 2048) (name ++ [0])) (env + 2048 + n) ([61] ++ [0]))
    (env + 2048 + n + 1) (value ++ [0])).
  assert (Hbefore : forall a l, a + Z.of_nat (length l) <= env + 2048 -> holds m1 a l -> holds m4 a l).
  { intros a l Hal H. unfold m4, n. repeat (apply holds_apart; [apply apart_before; lia|]). done. }
  assert (Hword : word (env + 2048)) by (unfold word; lia).
  split_and!; try done.
  - apply word_at_holds; [done|]. apply holds_apart; [apply apart_before; simpl; lia|].
    apply Hbefore; [simpl; lia|]. apply holds_write.
  - apply word_at_holds; [unfold word; lia|]. apply holds_write.
  - apply holds_apart; [apply apart_after; simpl length; lia|]. unfold m4.
    replace (env + 2048 + n + 1) with (env + 2048 + Z.of_nat (length (name ++ [61]))) by (rewrite length_app; simpl; unfold n; lia).
    rewrite app_assoc. apply holds_extend, (holds_prefix _ _ _ [0]). rewrite <- app_assoc. apply holds_extend.
    eapply holds_prefix, holds_write.
  - intros a l Hal H. apply holds_apart; [apply apart_before; lia|]. apply Hbefore; [lia|].
    unfold m1. apply holds_apart; [apply apart_before; lia|done].
Qed.

(** ** Theorem *)

(** The arguments a line gives: its words, and the size of memory if the line
    does not say it. *)
Definition arguments (line t : list Z) (l : list (list Z)) : Prop :=
  let given := take 511 (words false line) in
  (l = given /\ exists i, occurs mem_prefix line i) \/
  (l = given ++ [mem_prefix ++ t ++ [77]] /\ forall i, ~ occurs mem_prefix line i).

Lemma linux_params_init_spec memsize start line cmdline m t : cstr line cmdline -> 0 <= Z.shiftr memsize 20 < 4096 ->
  sprintf_text mem_fmt (Z.shiftr memsize 20) = Some (mem_prefix ++ t ++ [77]) ->
  0 <= start -> start + 2048 + Z.of_nat (length line + length t) + 32 < 2 ^ 32 ->
  exists l p, arguments line t l /\ linux_params_init memsize start cmdline m = Some p /\
    linux_argc p = Z.of_nat (S (length l)) /\ linux_argv p = start /\
    linux_env_idx p = 0 /\ linux_env_p p = linux_env p + 2048 /\ linux_env p mod 16 = 0 /\
    start + 2048 + Z.of_nat (length (texts l)) <= linux_env p < start + 2048 + Z.of_nat (length line + length t) + 32 /\
    ((length l <= 511)%nat -> stored (memory p) start l).
Proof.
  intros Hs Hn Ht Hlo Hhi. unfold linux_params_init. change (4 * LINUX_MAX_ARGS) with 2048.
  change (4 * LINUX_MAX_ENVS) with 2048.
  assert (Hpre : cstr mem_prefix (mem_prefix ++ [0])) by (split; [by repeat constructor|by exists []]).
  destruct (rt_strstr_correct line mem_prefix cmdline _ Hs Hpre) as (found & -> & Hfound).
  assert (Hst0 : stored (put_word m start 0) start []).
  { split; [|done]. unfold put_word. change (pointers _) with (htonl 0). apply holds_write. }
  assert (Hll : (length line < length cmdline)%nat) by (destruct Hs as [_ [r ->]]; rewrite length_app; simpl; lia).
  destruct (args_loop_spec line cmdline start (S (length cmdline)) Hs 0 _ [] ltac:(lia) ltac:(lia) Hst0 ltac:(simpl; lia))
    as (m1 & E & Hst1).
  change (texts []) with (@nil Z) in E. cbn [length app Nat.sub drop] in E, Hst1. rewrite drop_0 in E, Hst1.
  change (Z.of_nat 0) with 0 in E. rewrite Z.add_0_r in E. change (Z.of_nat 1) with 1 in E. rewrite E. clear E.
  set (given := take 511 (words false line)) in *.
  pose proof (length_texts_take 511 (words false line)) as Hlt. fold given in Hlt.
  pose proof (length_texts_words false line) as Hlw.
  destruct found as [pos|].
  - destruct Hfound as (i & _ & Hocc & _). set (argp := start + 2048 + Z.of_nat (length (texts given))).
    rewrite env_align by (unfold argp; lia). exists given. eexists. split; [by left; split; [|exists i]|].
    split; [done|]. cbn [linux_argc linux_argv linux_env linux_env_p linux_env_idx memory].
    split_and!; try done; try (unfold argp; zdiv).
    intros Hl. unfold put_word. apply stored_write; [done|done|]. unfold argp. zdiv.
  - rewrite Ht. set (argp := start + 2048 + Z.of_nat (length (texts given))).
    assert (Hlm : Z.of_nat (length (mem_prefix ++ t ++ [77])) = Z.of_nat (length t) + 5).
    { rewrite !length_app. simpl. lia. }
    rewrite Hlm, env_align by (unfold argp; lia). exists (given ++ [mem_prefix ++ t ++ [77]]). eexists.
    split; [by right|]. split; [done|]. cbn [linux_argc linux_argv linux_env linux_env_p linux_env_idx memory].
    assert (Hte : Z.of_nat (length (texts (given ++ [mem_prefix ++ t ++ [77]]))) =
      Z.of_nat (length (texts given)) + Z.of_nat (length t) + 6).
    { rewrite texts_snoc, !length_app. simpl. lia. }
    split_and!; try done; try (rewrite Hte; unfold argp; zdiv); try (unfold argp; zdiv).
    + rewrite length_app. simpl length. lia.
    + intros Hl. unfold put_word at 1. apply stored_write; [|done|rewrite Hte; unfold argp; zdiv].
      apply stored_snoc; [done|]. rewrite length_app in Hl. simpl in Hl. lia.
Qed.

(** C18: [arch_linux_loader] hands the kernel the command line split at the
    blanks outside quotes, the size of memory added when the line has no "mem=",
    and an environment with the one setting memsize: the array of arguments
    starts with a null pointer, each further entry points to its argument, the
    texts, the environment and its text do not overlap, and the entry point is
    the header's.  With 511 words and no "mem=" the last pointer no longer fits:
    the case left out. *)
Theorem arch_linux_loader_correct memsize start hdr line cmdline m :
  cstr line cmdline -> word memsize -> 0 <= start -> start + Z.of_nat (length line) + 4200 < 2 ^ 32 ->
  exists t l p, decimal t (memsize / 2 ^ 20) /\ arguments line t l /\
    arch_linux_loader memsize start hdr cmdline m = Some (p, ih_ep hdr) /\
    arch_linux_jump p 0 = (Z.of_nat (S (length l)), start, linux_env p, 0) /\
    ((length l <= 511)%nat ->
     word_at (memory p) start = 0 /\
     (forall i a, l !! i = Some a -> exists q, word_at (memory p) (start + 4 * Z.of_nat (S i)) = q /\
        holds (memory p) q (a ++ [0])) /\
     holds (memory p) (word_at (memory p) (linux_env p)) (memsize_name ++ [61] ++ t ++ [0]) /\
     word_at (memory p) (linux_env p + 4) = 0 /\ linux_env p mod 16 = 0).
Proof.
  intros Hs Hmem Hlo Hhi. unfold word in Hmem.
  assert (Hn : 0 <= Z.shiftr memsize 20 < 4096) by (rewrite Z.shiftr_div_pow2 by lia; change (2 ^ 20) with 1048576; zdiv).
  destruct (sprintf_memsize _ Hn) as (t & Hdec & Htl & Et & Et').
  destruct (linux_params_init_spec memsize start line cmdline m t) as
    (l & p & Hargs & Ep & Hargc & Hargv & Hidx & Henvp & Hmod & [Henv1 Henv2] & Hst); try done; [lia|].
  destruct (linux_env_set_first memsize_name t p) as (Ec & Ea & Ee & Hw0 & Hw1 & Htext & Hkeep); try done; [lia..|].
  exists t, l, (linux_env_set memsize_name t p). split_and!; [|done|..].
  - rewrite Z.shiftr_div_pow2 in Hdec by lia. exact Hdec.
  - unfold arch_linux_loader. by rewrite Ep, Et'.
  - unfold arch_linux_jump. by rewrite Ec, Ea, Ee, Hargc, Hargv.
  - intros Hl. destruct (Hst Hl) as [Hp Ht]. rewrite Ee, Hw0.
    apply Hkeep in Hp; [|rewrite length_pointers; cbn [length]; rewrite length_places; lia].
    apply Hkeep in Ht; [|lia]. split_and!; try done.
    + replace start with (start + 4 * Z.of_nat 0) by lia. apply (pointers_word _ _ _ 0%nat _ Hp); [done|unfold word; lia].
    + intros i a Hi. destruct (texts_place _ _ _ _ _ Ht Hi) as (q & Hq & Ha & Hb). exists q. split; [|done].
      apply (pointers_word _ _ _ (S i) _ Hp); [done|]. unfold word. lia.
Qed.

(** ** Examples *)

Definition sample_header : image_header :=
  mkHeader IH_MAGIC 0 0 0 0x80060000 0x80060400 0 IH_OS_LINUX IH_CPU_MIPS IH_TYPE_KERNEL IH_COMP_LZMA (replicate 32 0).

(** The command line of the board, on 64 megabytes: six arguments. *)
Lemma arch_linux_loader_correct_witness :
  exists p, arch_linux_loader (64 * 2 ^ 20) 0x83e00000 sample_header board_cmdline (fun _ => 0) = Some (p, 0x80060400) /\
    linux_argc p = 7 /\ word_at (memory p) 0x83e00000 = 0 /\
    holds (memory p) (word_at (memory p) 0x83e00018) (mem_prefix ++ [54; 52; 77; 0]).
Proof.
  set (line := removelast board_cmdline).
  destruct (arch_linux_loader_correct (64 * 2 ^ 20) 0x83e00000 sample_header line board_cmdline (fun _ => 0))
    as (t & l & p & _ & _ & E & _ & Hmem).
  - split; [|by exists []]. repeat constructor; vm_compute; discriminate.
  - unfold word. lia.
  - lia.
  - vm_compute. reflexivity.
  - assert (Hp : match arch_linux_loader (64 * 2 ^ 20) 0x83e00000 sample_header board_cmdline (fun _ => 0) with
      | Some (p, _) => linux_argc p = 7 /\ word_at (memory p) 0x83e00000 = 0 /\
          holds (memory p) (word_at (memory p) 0x83e00018) (mem_prefix ++ [54; 52; 77; 0])
      | None => False end) by (vm_compute; repeat split).
    rewrite E in Hp. exists p. split; [exact E|exact Hp].
Defined.

(** 511 arguments and no "mem=": the pointer to the added text is written over
    the first argument. *)
Definition long_line : list Z := concat (replicate 511 [97; 32]) ++ [0].

Lemma linux_params_init_overflow :
  match linux_params_init (64 * 2 ^ 20) 0x83e00000 long_line (fun _ => 0) with
  | Some p => linux_argc p = 513 /\ word_at (memory p) 0x83e00004 = 0x83e00800 /\
      read_bytes (memory p) 0x83e00800 2 = [0x83; 0xe0]
  | None => False
  end.
Proof. vm_compute. repeat split. Qed.
