(* ===== verification/BootTheorems.v ===== *)
(** * From the host tools to the entry point: tools/mkimage.c and common/loader/loader.c

    An image the tools write is booted, and one with a byte changed is not. *)

From S2P Require Import Prelude Crc32 Kservice LzmaDecode LzmaSafe LzmaEnc LzmaRange LzmaRoundtrip LzmaTheorems.
From S2P Require Import LzmaWrapper Image Loader.

(** ** Images of mkimage *)

Definition options_ok (o : options) : Prop :=
  word (opt_addr o) /\ word (opt_ep o) /\ Forall byte (opt_name o).

(** What the library's function computes: CRC-32. *)
Definition crc_law (tinf_crc32 : list Z -> Z) : Prop :=
  forall l, Forall byte l -> tinf_crc32 l = crc32_ref 0 l.

Lemma crc_law_crc32 tinf_crc32 l : crc_law tinf_crc32 -> Forall byte l -> tinf_crc32 l = crc32 0 l.
Proof.
  intros H Hl. rewrite H by done. destruct l; [done|]. by rewrite crc32_is_ref.
Qed.

Lemma copy_file_bytes o file pad l : Forall byte file -> copy_file o file pad = Some l -> Forall byte l.
Proof.
  intros Hf. assert (Hz : forall n, Forall byte (replicate n 0)).
  { intros n. apply Forall_replicate. unfold byte. lia. }
  unfold copy_file. split_ifs; try done; intros [= <-]; rewrite ?app_nil_r;
    repeat apply Forall_app_2; try apply Hz; by apply Forall_drop.
Qed.

Lemma copy_files_bytes o files l : Forall (Forall byte) files -> copy_files o files = Some l -> Forall byte l.
Proof.
  intros Hf. revert l. induction Hf as [|file files Hfile Hf IH]; intros l; [done|]. cbn [copy_files].
  destruct files as [|file' files]; [by apply copy_file_bytes|].
  destruct (copy_file o file true) as [c|] eqn:Ec; [|done]. destruct (copy_files _ _) as [r|]; [|done].
  intros [= <-]. apply Forall_app_2; [by eapply copy_file_bytes|by apply IH].
Qed.

Lemma multi_sizes_bytes files : Forall byte (multi_sizes files).
Proof. induction files as [|f files IH]; [apply htonl_bytes|]. apply Forall_app_2; [apply htonl_bytes|done]. Qed.

Lemma image_data_bytes o files l : Forall (Forall byte) files -> image_data o files = Some l -> Forall byte l.
Proof.
  intros Hf. unfold image_data. destruct (_ || _).
  - destruct (copy_files _ _) as [c|] eqn:Ec; [|done]. intros [= <-].
    apply Forall_app_2; [apply multi_sizes_bytes|by eapply copy_files_bytes].
  - destruct Hf as [|f ? Hf [|]]; try done. by apply copy_file_bytes.
Qed.

Lemma name_field_ok name : Forall byte name ->
  length (name_field name) = 32%nat /\ Forall byte (name_field name).
Proof.
  intros H. unfold name_field. change (Z.to_nat IH_NMLEN) with 32%nat. split.
  - rewrite length_app, length_take, length_replicate. lia.
  - apply Forall_app_2; [by apply Forall_take|]. apply Forall_replicate. unfold byte. lia.
Qed.

(** The parts of an image. *)
Lemma mkimage_parts tinf_crc32 o mtime files image : crc_law tinf_crc32 -> options_ok o ->
  (forall data, image_data o files = Some data -> Forall byte data) -> mkimage tinf_crc32 o mtime files = Some image ->
  exists ep data, entry_point o = Some ep /\ image_data o files = Some data /\ Forall byte data /\
    let h := make_header tinf_crc32 o ep mtime data in
    image = header_bytes h ++ data /\ header_ok h /\ sealed h /\ ih_dcrc h = crc32 0 data.
Proof.
  intros Hlaw (Haddr & Hep & Hname) Hf. unfold mkimage.
  destruct (entry_point o) as [ep|] eqn:Eep; [|done]. destruct (image_data o files) as [data|] eqn:Ed; [|done].
  intros [= <-]. exists ep, data. pose proof (Hf data eq_refl) as Hd.
  assert (Hepw : word ep).
  { unfold entry_point in Eep. repeat case_match; simplify_eq; try done; by apply (wrap_bounds 32). }
  assert (H0 : word 0) by (unfold word; lia).
  pose proof (name_field_ok _ Hname) as Hn.
  assert (Hok : header_ok (mkHeader IH_MAGIC 0 (u32 mtime) (u32 (Z.of_nat (length data))) (opt_addr o) ep
    (tinf_crc32 data) (u8 (opt_os o)) (u8 (opt_arch o)) (u8 (opt_type o)) (u8 (opt_comp o)) (name_field (opt_name o)))).
  { constructor; [|repeat constructor; by apply (wrap_bounds 8)|done].
    rewrite (crc_law_crc32 tinf_crc32) by done.
    repeat (apply Forall_cons; split; [cbn|]); try done; try (by apply (wrap_bounds 32)).
    by apply crc32_word. }
  split_and!; try done.
  - apply set_hcrc_ok; [|done]. rewrite (crc_law_crc32 tinf_crc32) by (try done; by apply header_bytes_bytes).
    apply crc32_word; [done|by apply header_bytes_bytes].
  - unfold sealed. cbn [make_header]. unfold make_header. rewrite set_hcrc_twice. cbn [ih_hcrc set_hcrc].
    apply (crc_law_crc32 tinf_crc32); [done|by apply header_bytes_bytes].
  - by apply (crc_law_crc32 tinf_crc32).
Qed.

(** ** The checks of the loader *)

Section checks.
Variables (malloc : allocator) (fuel : nat).

Lemma linux_loader_unknown m addr unc_len unc_len_at :
  word_at m addr <> IH_MAGIC -> word_at m addr <> TPL_IH_VERSION_V1 -> word_at m addr <> TPL_IH_VERSION_V2 ->
  linux_loader malloc fuel m addr unc_len unc_len_at = Some (Refused m).
Proof.
  intros H0 H1 H2. unfold linux_loader, imtohl. by rewrite !(proj2 (Z.eqb_neq _ _)).
Qed.

Lemma linux_loader_magic m addr unc_len unc_len_at : word_at m addr = IH_MAGIC ->
  let h := read_header m addr in
  let data := u32 (addr + sizeof_image_header) in
  linux_loader malloc fuel m addr unc_len unc_len_at =
    if decide (sealed h /\ crc32 0 (read_bytes m data (ih_size h)) = ih_dcrc h)
    then load malloc fuel m h data unc_len unc_len_at else Some (Refused m).
Proof.
  intros H h data. unfold linux_loader. rewrite ih_header_crc_spec. fold h. fold data.
  unfold ih_data_crc, imtohl. rewrite H. cbn [Z.eqb orb Pos.eqb IH_MAGIC TPL_IH_VERSION_V1 TPL_IH_VERSION_V2].
  change (IH_MAGIC =? TPL_IH_VERSION_V1) with false. change (IH_MAGIC =? TPL_IH_VERSION_V2) with false.
  change (IH_MAGIC =? IH_MAGIC) with true. cbn [orb].
  destruct (decide (sealed h)) as [Hs|Hs], (decide (crc32 0 (read_bytes m data (ih_size h)) = ih_dcrc h)) as [Hd|Hd];
    case_decide as H'; try tauto; cbn [Z.eqb negb].
  - by rewrite (proj2 (Z.eqb_eq _ _) Hd).
  - by rewrite (proj2 (Z.eqb_neq _ _) Hd).
Qed.
End checks.

(** Memory that holds a list with one byte changed. *)
Lemma word_at_list m a b0 b1 b2 b3 : byte_memory m -> read_bytes m a 4 = [b0; b1; b2; b3] ->
  word_at m a = b0 * 2 ^ 24 + b1 * 2 ^ 16 + b2 * 2 ^ 8 + b3.
Proof.
  intros Hm. rewrite read_bytes_4. intros [= <- <- <- <-]. apply word_at_value; apply Hm.
Qed.

Lemma magic_changed m a i b : byte_memory m -> (i < 4)%nat -> htonl IH_MAGIC !! i <> Some b ->
  read_bytes m a 4 = <[i := b]> (htonl IH_MAGIC) ->
  word_at m a <> IH_MAGIC /\ word_at m a <> TPL_IH_VERSION_V1 /\ word_at m a <> TPL_IH_VERSION_V2.
Proof.
  intros Hm Hi Hne E. assert (Hb : byte b).
  { assert (Hin : b ∈ read_bytes m a 4).
    { rewrite E. apply list_elem_of_lookup. exists i. apply list_lookup_insert_eq. exact Hi. }
    pose proof (read_bytes_byte m a 4 Hm) as Hall. rewrite Forall_forall in Hall. by apply Hall. }
  unfold byte in Hb. change (htonl IH_MAGIC) with [0x27; 0x05; 0x19; 0x56] in *.
  unfold IH_MAGIC, TPL_IH_VERSION_V1, TPL_IH_VERSION_V2.
  assert (i = 0 \/ i = 1 \/ i = 2 \/ i = 3)%nat as Hc by lia. destruct_or! Hc; subst i; cbn in E, Hne;
    apply word_at_list in E; try done; rewrite E; (split_and!; [intros Hx; apply Hne; f_equal; lia|lia..]).
Qed.

(** C16: Whatever the options, if one byte of an image mkimage wrote has changed
    on the way to memory, [linux_loader] refuses it: it returns 1 and leaves
    memory alone. *)
Theorem linux_loader_detects malloc fuel tinf_crc32 o mtime files image m addr unc_len unc_len_at i b :
  crc_law tinf_crc32 -> options_ok o -> Forall (Forall byte) files ->
  mkimage tinf_crc32 o mtime files = Some image ->
  byte_memory m -> 0 <= addr -> addr + Z.of_nat (length image) < 2 ^ 32 ->
  (i < length image)%nat -> byte b -> image !! i <> Some b ->
  holds m addr (<[i := b]> image) ->
  linux_loader malloc fuel m addr unc_len unc_len_at = Some (Refused m).
Proof.
  intros Hlaw Ho Hf Hmk Hm Ha Hlen Hi Hb Hne Hholds.
  destruct (mkimage_parts tinf_crc32 o mtime files image) as (ep & data & Eep & Ed & Hdata & Himg & Hok & Hseal & Hdcrc);
    try done; [by intros; eapply image_data_bytes|]. set (h := make_header _ _ _ _ _) in *.
  assert (Hhl : length (header_bytes h) = 64%nat) by apply length_header_bytes, ho_name, Hok.
  assert (Hmagic : ih_magic h = IH_MAGIC) by done.
  assert (Hsize : ih_size h = Z.of_nat (length data)).
  { cbn. apply wrap_small. rewrite Himg, length_app in Hlen. lia. }
  assert (Hd64 : u32 (addr + sizeof_image_header) = addr + 64).
  { apply wrap_small. rewrite Himg, length_app, Hhl in Hlen. unfold sizeof_image_header. lia. }
  pose proof (magic_bytes h) as Hmb. rewrite Hmagic in Hmb.
  clearbody h. subst image. rewrite length_app, Hhl in *.
  destruct (decide (i < 64)%nat) as [Hi64|Hi64].
  - rewrite insert_app_l in Hholds by lia. rewrite lookup_app_l in Hne by lia.
    apply holds_app in Hholds as [Hh _]. unfold holds in Hh. rewrite length_insert, Hhl in Hh.
    assert (Hfst : read_bytes m addr 4 = take 4 (<[i := b]> (header_bytes h))).
    { rewrite <- Hh. change (Z.of_nat 64) with (4 + 60). rewrite read_bytes_app by lia.
      by rewrite take_app_length' by (by rewrite length_read_bytes). }
    destruct (decide (i < 4)%nat) as [Hi4|Hi4].
    + apply linux_loader_unknown; rewrite take_insert_lt, <- Hmb in Hfst by done;
        eapply (magic_changed m addr i b); try done; rewrite Hmb, lookup_take_lt; done.
    + rewrite linux_loader_magic.
      * rewrite decide_False; [done|]. intros [Hs _]. revert Hs.
        apply (sealed_breaks h _ i b); try done; [by apply read_header_ok|lia|by rewrite header_bytes_read].
      * rewrite take_insert_ge, <- Hmb in Hfst by lia.
        apply word_at_holds; [unfold word, IH_MAGIC; lia|done].
  - rewrite insert_app_r_alt, Hhl in Hholds by lia. rewrite lookup_app_r, Hhl in Hne by lia.
    apply holds_app in Hholds as [Hh Hd]. rewrite Hhl in Hd. unfold holds in Hd. rewrite length_insert in Hd. change (Z.of_nat 64) with 64 in Hd.
    rewrite <- (read_header_holds m addr h) in * by done.
    rewrite linux_loader_magic by done. rewrite decide_False; [done|].
    intros [_ Hc]. rewrite Hsize, Hd64, Hd in Hc. revert Hc. rewrite Hdcrc.
    apply crc32_changes; [unfold word; lia|done|lia|done|done].
Qed.

(** ** Where the loader finds the first file *)

Lemma length_multi_sizes files : length (multi_sizes files) = (4 * S (length files))%nat.
Proof. induction files as [|f files IH]; [done|]. cbn [multi_sizes]. rewrite length_app, IH. simpl. lia. Qed.

Lemma skip_sizes_multi m files fuel len_ptr i data :
  holds m (len_ptr + 4 * i) (multi_sizes files) -> (length files < fuel)%nat ->
  Forall (fun f => f <> [] /\ Z.of_nat (length f) < 2 ^ 32) files ->
  0 <= data -> data + 4 * Z.of_nat (length files) < 2 ^ 32 ->
  skip_sizes fuel m len_ptr i data = Some (data + 4 * Z.of_nat (length files)).
Proof.
  intros Hh Hfuel Hf. revert files i data Hh Hfuel Hf. induction fuel as [|fuel IH]; intros files i data Hh Hfuel Hf H0 Hd;
    [lia|]. cbn [skip_sizes]. destruct Hf as [|f files [Hne Hlen] Hf]; cbn [multi_sizes] in Hh.
  - rewrite (word_at_holds m _ 0) by (done || (unfold word; lia)). simpl. f_equal. lia.
  - apply holds_app in Hh as [Hw Hh]. cbn [length] in *.
    assert (0 < length f)%nat by (destruct f; [done|simpl; lia]).
    rewrite (word_at_holds m _ (Z.of_nat (length f))) by (done || (unfold word; lia)).
    rewrite (proj2 (Z.eqb_neq _ _)) by lia. rewrite wrap_small by lia.
    rewrite (IH files); [f_equal; lia| |lia|done|lia|lia].
    replace (len_ptr + 4 * (i + 1)) with (len_ptr + 4 * i + Z.of_nat (length (htonl (Z.of_nat (length f))))); [done|].
    simpl. lia.
Qed.

Lemma copy_file_plain o file pad : xflag o = false -> exists zeros, copy_file o file pad = Some (file ++ zeros).
Proof. intros E. unfold copy_file. rewrite E. by eexists. Qed.

Lemma copy_files_cons o file file' files : copy_files o (file :: file' :: files) =
  match copy_file o file true, copy_files o (file' :: files) with
  | Some copied, Some rest => Some (copied ++ rest)
  | _, _ => None
  end.
Proof. done. Qed.

(** The files are in what is written, the first one in front. *)
Lemma copy_files_plain o file files l : xflag o = false -> copy_files o (file :: files) = Some l ->
  (exists rest, l = file ++ rest) /\ Forall (fun f => (length f <= length l)%nat) files.
Proof.
  intros Hx. revert file l. induction files as [|file' files IH]; intros file l.
  - cbn [copy_files]. destruct (copy_file_plain o file false Hx) as [z ->]. intros [= <-]. split; [by eexists|done].
  - rewrite copy_files_cons. destruct (copy_file_plain o file true Hx) as [z ->]. destruct (copy_files o (file' :: files)) as [r|] eqn:Er; [|done].
    intros [= <-]. destruct (IH _ _ Er) as [[r' ->] Hf]. split; [eexists; by rewrite <- !app_assoc|].
    rewrite !length_app in *. constructor; [lia|]. eapply Forall_impl; [exact Hf|]. simpl. intros. lia.
Qed.

(** What [locate] finds in an image in memory. *)
Lemma locate_image fuel m o file files h data addr :
  xflag o = false -> opt_type o = IH_TYPE_KERNEL \/ opt_type o = IH_TYPE_MULTI ->
  image_data o (file :: files) = Some data -> ih_type h = opt_type o -> ih_size h = Z.of_nat (length data) ->
  Forall (fun f => f <> []) files -> (length files < fuel)%nat ->
  0 <= addr -> addr + Z.of_nat (length data) < 2 ^ 32 -> holds m addr data ->
  exists skipped more, data = skipped ++ file ++ more /\
    locate fuel m h addr = Some (Some (addr + Z.of_nat (length skipped), Z.of_nat (length file))).
Proof.
  intros Hx Htype Hdata Hh Hsize Hf Hfuel Ha Hlen Hin. unfold locate, image_data in *. rewrite Hh.
  destruct Htype as [Et|Et]; rewrite Et in *;
    [change (_ || _) with false in Hdata|change (_ || _) with true in Hdata]; cbn [Z.eqb Pos.eqb IH_TYPE_KERNEL IH_TYPE_MULTI].
  - destruct files; [|done]. destruct (copy_file_plain o file false Hx) as [z Ez]. rewrite Ez in Hdata.
    injection Hdata as <-. unfold copy_file in Ez. rewrite Hx in Ez. cbn in Ez. rewrite app_nil_r in Ez.
    injection Ez as Ez. exists [], z. split; [done|]. unfold imtohl. rewrite Hsize, <- Ez. simpl. do 3 f_equal. lia.
  - destruct (copy_files o (file :: files)) as [copied|] eqn:Ec; [|done].
    assert (data = multi_sizes (file :: files) ++ copied) as -> by congruence. clear Hdata.
    destruct (copy_files_plain o file files copied Hx Ec) as [[more ->] Hsmall].
    exists (multi_sizes (file :: files)), more. split; [done|].
    rewrite !length_app, length_multi_sizes in *. change (length (file :: files)) with (S (length files)) in *.
    apply holds_app in Hin as [Hin _]. apply (holds_app m addr (htonl _) (multi_sizes files)) in Hin as [Hfst Hsizes].
    rewrite wrap_small by lia. rewrite (skip_sizes_multi m files); [|done|done| |lia|lia].
    + rewrite (word_at_holds m addr (Z.of_nat (length file))) by (done || (unfold word; lia)).
      unfold imtohl. do 3 f_equal. lia.
    + apply Forall_and. split; [done|]. eapply Forall_impl; [exact Hsmall|]. simpl. intros. lia.
Qed.

(** ** A kernel from the host to its place in memory *)

Section boots.
Variables (kNumLogBits limit lc lp pb dictSize : Z) (data : list Z) (answers : list (Z * Z)) (mark : bool).
Context (Hprop : prop_ok (mkProps lc lp pb)) (Hlog : log_bits_ok kNumLogBits limit) (Hdata : Forall byte data).
Context (Hparse : parse_ok (mkProps lc lp pb)
  (LzmaEnc.GetPosSlot kNumLogBits (LzmaEnc.LzmaEnc_FastPosInit kNumLogBits)) limit data answers = true).
Let kernel := lzma_file kNumLogBits lc lp pb dictSize data answers mark.

Lemma load_image malloc fuel m o files h image_data' addr unc_len unc_len_at :
  xflag o = false -> opt_type o = IH_TYPE_KERNEL \/ opt_type o = IH_TYPE_MULTI ->
  image_data o (kernel :: files) = Some image_data' -> Forall (fun f => f <> []) files ->
  ih_type h = opt_type o -> ih_comp h = IH_COMP_LZMA -> ih_size h = Z.of_nat (length image_data') ->
  (length files < fuel)%nat -> byte_memory m -> holds m addr image_data' ->
  0 <= addr -> addr + Z.of_nat (length image_data') < 2 ^ 32 -> Z.of_nat (length data) <= unc_len_at < 2 ^ 32 ->
  apart addr (Z.of_nat (length image_data')) (ih_load h) (Z.of_nat (length data)) = true ->
  malloc_law malloc (2 * LzmaGetNumProbs (mkProps lc lp pb)) ->
  load malloc fuel m h addr unc_len unc_len_at =
    Some (Started h (Z.of_nat (length data)) (write_bytes m (ih_load h) data)).
Proof.
  intros Hx Htype Himg Hfiles Ht Hc Hsize Hfuel Hm Hin Ha Hlen Hat Hap Hmal. unfold load.
  destruct (locate_image fuel m o kernel files h image_data' addr) as (skipped & more & Eimg & Eloc); try done.
  rewrite Eloc, Hc. change (IH_COMP_LZMA =? IH_COMP_LZMA) with true. cbv beta iota zeta. unfold imtohl.
  rewrite Eimg, !length_app in *. apply holds_app in Hin as [_ Hin]. apply holds_app in Hin as [Hin _].
  unfold kernel in *. rewrite (lzma_inflate_file malloc m _ _ _ _ _ kNumLogBits limit lc lp pb dictSize data answers mark);
    try done; try lia.
  unfold apart in *. apply orb_true_iff in Hap. apply orb_true_iff.
  destruct Hap as [Hap|Hap]; zify_bool; [left|right]; apply Z.leb_le; lia.
Qed.
End boots.

(** C13: A kernel compressed by the host tool, wrapped by mkimage as a kernel or
    as the first file of several and put anywhere in memory is booted: with room
    for the probabilities and no overlap, [linux_loader] leaves exactly the
    kernel's bytes at the load address, changes nothing else, and hands the
    header with that address and the chosen entry point to the board. *)
Theorem linux_loader_boots malloc fuel tinf_crc32 o mtime files image m addr unc_len unc_len_at
    kNumLogBits limit lc lp pb dictSize data answers mark :
  prop_ok (mkProps lc lp pb) -> log_bits_ok kNumLogBits limit -> Forall byte data ->
  parse_ok (mkProps lc lp pb) (LzmaEnc.GetPosSlot kNumLogBits (LzmaEnc.LzmaEnc_FastPosInit kNumLogBits))
    limit data answers = true ->
  let kernel := lzma_file kNumLogBits lc lp pb dictSize data answers mark in
  crc_law tinf_crc32 -> options_ok o -> xflag o = false -> opt_comp o = IH_COMP_LZMA ->
  opt_type o = IH_TYPE_KERNEL \/ opt_type o = IH_TYPE_MULTI ->
  Forall (fun f => f <> []) files -> (length files < fuel)%nat ->
  mkimage tinf_crc32 o mtime (kernel :: files) = Some image ->
  byte_memory m -> holds m addr image -> 0 <= addr -> addr + Z.of_nat (length image) < 2 ^ 32 ->
  Z.of_nat (length data) <= unc_len_at < 2 ^ 32 ->
  apart addr (Z.of_nat (length image)) (opt_addr o) (Z.of_nat (length data)) = true ->
  malloc_law malloc (2 * LzmaGetNumProbs (mkProps lc lp pb)) ->
  exists h, linux_loader malloc fuel m addr unc_len unc_len_at =
      Some (Started h (Z.of_nat (length data)) (write_bytes m (opt_addr o) data)) /\
    ih_load h = opt_addr o /\ ih_ep h = (if eflag o then opt_ep o else opt_addr o) /\
    ih_os h = u8 (opt_os o) /\ ih_arch h = u8 (opt_arch o).
Proof.
  intros Hprop Hlog Hdata Hparse kernel Hlaw Ho Hx Hcomp Htype Hfiles Hfuel Hmk Hm Hin Ha Hlen Hat Hap Hmal.
  assert (Hbytes : Forall byte image) by (rewrite <- Hin; by apply read_bytes_byte).
  destruct (mkimage_parts tinf_crc32 o mtime (kernel :: files) image) as
    (ep & body & Eep & Ed & Hbody & Himg & Hok & Hseal & Hdcrc); try done.
  { intros body Ed. unfold mkimage in Hmk. rewrite Ed in Hmk. destruct (entry_point o); [|done].
    apply (inj Some) in Hmk. rewrite <- Hmk in Hbytes. by apply Forall_app in Hbytes as [_ ?]. }
  set (h := make_header tinf_crc32 o ep mtime body) in *.
  assert (Hhl : length (header_bytes h) = 64%nat) by apply length_header_bytes, ho_name, Hok.
  rewrite Himg, length_app, Hhl in *. clear Himg.
  assert (Hsize : ih_size h = Z.of_nat (length body)) by (apply wrap_small; lia).
  apply holds_app in Hin as [Hh Hin]. rewrite Hhl in Hin. change (Z.of_nat 64) with 64 in *.
  apply read_header_holds in Hh as Hread; [|done]. exists h. split_and!; try done.
  - rewrite linux_loader_magic, Hread.
    2:{ change (ih_magic (read_header m addr) = IH_MAGIC). by rewrite Hread. }
    assert (E64 : u32 (addr + sizeof_image_header) = addr + 64) by (apply wrap_small; unfold sizeof_image_header; lia).
    unfold holds in Hin. rewrite E64, decide_True by (by rewrite Hsize, Hin).
    apply (load_image kNumLogBits limit lc lp pb dictSize data answers mark Hprop Hlog Hdata Hparse malloc fuel m o
      files h body); try done; try lia.
    + cbn. rewrite wrap_small; [done|]. destruct Htype as [-> | ->]; done.
    + cbn. by rewrite Hcomp.
    + change (ih_load h) with (opt_addr o). unfold apart in *. apply orb_true_iff in Hap. apply orb_true_iff.
      destruct Hap as [Hap|Hap]; zify_bool; [left|right]; apply Z.leb_le; lia.
  - cbn. unfold entry_point in Eep. rewrite Hx in Eep. by injection Eep as <-.
Qed.

(** ** Examples *)

(** A kernel and a second file, loaded at 0x1000, entered at 0x1004. *)
Definition sample_options : options :=
  mkOptions IH_OS_LINUX IH_CPU_MIPS IH_TYPE_MULTI IH_COMP_LZMA true false 0x1000 0x1004 [107; 101; 114].
Definition sample_kernel : list Z := lzma_file 13 3 0 2 65536 sample sample_answers true.
Definition sample_image : list Z :=
  match mkimage (crc32_ref 0) sample_options 1500000000 [sample_kernel; [1; 2; 3]] with Some i => i | None => [] end.

Lemma sample_options_ok : options_ok sample_options.
Proof. split_and!; [unfold word; simpl; lia..|]. repeat constructor; unfold byte; lia. Qed.

Lemma sample_image_bytes : Forall byte sample_image.
Proof.
  assert (forallb (fun b => (0 <=? b) && (b <? 256)) sample_image = true) as H by (vm_compute; reflexivity).
  apply Forall_forall. intros b Hb. rewrite forallb_forall in H. apply list_elem_of_In, H in Hb.
  unfold byte. zify_bool. lia.
Qed.

Lemma linux_loader_boots_witness :
  exists h m', linux_loader (fun n => Some (replicate (Z.to_nat n) 0)) 2 (image_at sample_image) 0 0x1000000 0x80000000 =
      Some (Started h 16 m') /\ read_bytes m' 0x1000 16 = sample /\ ih_ep h = 0x1004.
Proof.
  destruct (linux_loader_boots (fun n => Some (replicate (Z.to_nat n) 0)) 2 (crc32_ref 0) sample_options 1500000000
    [[1; 2; 3]] sample_image (image_at sample_image) 0 0x1000000 0x80000000 13 (2 ^ 31) 3 0 2 65536 sample sample_answers true)
    as (h & E & _ & Hep & _).
  - split_and!; simpl; lia.
  - by right.
  - repeat constructor; unfold byte; lia.
  - vm_compute. reflexivity.
  - done.
  - apply sample_options_ok.
  - done.
  - done.
  - by right.
  - by repeat constructor.
  - simpl. lia.
  - vm_compute. reflexivity.
  - apply image_at_byte, sample_image_bytes.
  - apply image_at_holds.
  - done.
  - vm_compute. reflexivity.
  - simpl. lia.
  - vm_compute. reflexivity.
  - eexists. split; [done|]. rewrite length_replicate. lia.
  - exists h. eexists. split; [exact E|]. split; [vm_compute; reflexivity|exact Hep].
Defined.

(** The same image with the last byte but one changed. *)
Lemma linux_loader_detects_witness :
  let i := (length sample_image - 2)%nat in
  let m := image_at (<[i := 7]> sample_image) in
  linux_loader (fun _ => None) 2 m 0 0x1000000 0x80000000 = Some (Refused m).
Proof.
  intros i m. apply (linux_loader_detects _ 2 (crc32_ref 0) sample_options 1500000000
    [sample_kernel; [1; 2; 3]] sample_image m 0 0x1000000 0x80000000 i 7).
  - done.
  - apply sample_options_ok.
  - assert (H : forallb (fun b => (0 <=? b) && (b <? 256)) sample_kernel = true) by (vm_compute; reflexivity).
    apply Forall_cons. split; [|repeat constructor; unfold byte; lia].
    apply Forall_forall. intros b Hb. rewrite forallb_forall in H. apply list_elem_of_In, H in Hb.
    unfold byte. zify_bool. lia.
  - vm_compute. reflexivity.
  - apply image_at_byte, Forall_insert; [apply sample_image_bytes|unfold byte; lia].
  - lia.
  - vm_compute. reflexivity.
  - vm_compute. lia.
  - unfold byte. lia.
  - vm_compute. discriminate.
  - apply image_at_holds.
Defined.
